(* ===== verification/_CoqProject ===== *)
-Q . S2P
Prelude.v
Chain.v
DCCQueue.v
DCCQueueSpec.v
DCCQueueProps.v
LocoSlot.v
LocoTable.v
DCCConsist.v
DCCWaveform.v
WaveProps.v
ConsistProps.v
DCC.v
DCCSafe.v
DCCDecoder.v
DCCProps.v
DCCCodec.v
Keywords.v
MotorDriver.v
MotorProps.v
TrackManager.v
TrackProps.v
DCCACK.v
DCCACKSim.v
DCCACKProps.v
Layout.v
Outputs.v
Turnouts.v
Sensors.v
EEStore.v
EEStoreProps.v
SensorProps.v
RingStream.v
RingProps.v
Format.v
Split.v
SplitProps.v
Turntables.v
Stash.v
Station.v
StationProps.v
Commands.v
CommandsProps.v
Exrail.v
ExrailRun.v
ExrailCommands.v
ExrailInv.v
ExrailSafe.v
ExrailSteps.v
ExrailFilter.v
ExrailTheorems.v
ExrailMacros.v
ExrailScript.v
Sha1.v
Sha1Props.v
Websockets.v
WebsocketsProps.v
CommandDistributor.v
CommandDistributorProps.v
WiThrottle.v
WiThrottleProps.v
IODevice.v
ArduinoPins.v
PCA9685.v
GPIOBase.v
Bitmap.v
DCCAccessory.v
NeoPixel.v
Drivers.v
IODeviceProps.v
DriverSafe.v
DriversLaws.v
DriversProps.v
ServoProps.v
GPIOProps.v
