(* ===== verification/Prelude.v ===== *)
(** * DCC-EX CommandStation: a verification library

    The CommandStation turns commands of throttles and of its own automation into
    the signal on a model railway's tracks (NMRA DCC).  It is a single
    loop that calls each component in turn, together with one timer
    interrupt that generates the signal.  This library translates the components
    into executable definitions and proves what makes them correct.  Every
    definition has the name of the function, method or field it translates; where
    one C++ function is several definitions, its loops and cases are the others.

    ** The parts and the files that model them

    - Prelude, Chain, Keywords: C expressions and machine integers ([u8], [i16],
      ...), the state and failure monad [M] that the stateful components are
      written in, intrusive [next] chains in a store, and keyword hashes.
    - Signal.  DCCQueue (src/DCCQueue.cpp) holds the packets that wait, as linked
      slots; DCCWaveform (src/DCCWaveform.cpp) is the interrupt that sends them
      bit by bit.
    - Locos.  LocoSlot (src/LocoSlot.cpp) is the table of locos in a chain of
      slots with a recycler, DCCConsist (src/DCCConsist.cpp) the consists linked
      through it, DCC (src/DCC.cpp) the API over both: throttles, functions,
      accessories, momentum, emergency stop and reminders.  DCCDecoder
      (src/DCCDecoder.cpp) turns sniffed packets into calls of the API.
    - Tracks.  MotorDriver (src/MotorDriver.cpp) is one driver with its overload
      machine; TrackManager (src/TrackManager.cpp) the list of tracks with their
      modes; DCCACK (src/DCCACK.cpp, with the programs of src/DCC.cpp) the
      programming track.
    - Layout.  Layout is the state shared by Outputs (src/Outputs.cpp), Turnouts
      (src/Turnouts.cpp), Sensors (src/Sensors.cpp, src/SensorGroup.cpp,
      src/LCN.cpp) and EEStore (src/EEStore.cpp); Turntables (src/Turntables.cpp)
      and Stash (src/Stash.cpp) stand beside it.
    - Text.  Format (src/StringFormatter.cpp, src/StringBuffer.cpp), RingStream
      (src/RingStream.cpp), Split (splitValues of src/DCCEXParser.cpp).
    - The whole.  Station puts the states of all components side by side and
      delivers what one asks of another; Commands (src/DCCEXParser.cpp) is the
      command parser over it.

    A component that calls another keeps a log of its calls, in order, as values
    of a type [ev] of its own.  Its theorems are about the state and the log.
    Station.[on_dcc], [on_prog], [on_layout] and so on run an operation of one
    component and then run, on the component concerned, each call in its log
    ([deliver_*]).  What is left over, replies and calls of code that is
    not modelled, is the log of the station.

    ** What the theorems show

    - DCCQueueSpec, DCCQueueProps: the pointer code never goes wrong and
      implements queues of packets; the order of packets (emergency stops first, no loco
      twice in a row, one packet of a kind for each loco), accessory pulses, and two
      effects of the union that delays and locos share.
    - WaveProps: the bits on the pin are the packets given to the generator, framed as
      NMRA S-9.2 requires; the interrupt never reads outside its buffers.
    - LocoTable, LocoInv, ConsistProps: the chains of slots are a bounded table of
      locos, and every walk along a consist ends.
    - DCCSafe, DCCProps, DCCCodec: the API never fails under any sequence of calls; the
      emergency stop lock; functions and momentum; and the packet encodings are
      inverse to the sniffer's decoding or to the formats of the standards.
    - MotorProps, TrackProps: power pins follow the power mode, short circuits are
      cut in time and retried at doubling pauses; the tracks stay well formed and a
      change of mode does what it says.
    - DCCACKSpec, DCCACKSim, DCCACKProps: the acknowledge manager, with its
      waiting, power and retries, implements an interpreter that has none of
      them; reading back what has been written gives it back.
    - EEStoreProps, SensorProps: saving and loading the layout, and what clients
      know of sensors.
    - RingProps, SplitProps, FormatProps: the ring buffer is a bounded queue of
      messages; splitValues follows a grammar; numbers printed are read back.
    - StationProps, CommandsProps: no command of any content makes the station fail, and
      the one command that locks its programming track.

    ** The build that is modelled

    The code is configured by the preprocessor and differs between processors.
    Unless a file's header says otherwise it is modelled as compiled for an Arduino
    Mega (AVR: int has 16 bits, pointers 2 bytes) with HAS_ENOUGH_MEMORY, WiFi and
    EEPROM.  [MAX_LOCOS] and the number of slots that memory allows
    are parameters; so are the board (drivers and their resistors), the program
    memory, and device results such as IODevice::read.  Pin
    levels, the clock and currents are arguments of the operations that read them.

    An out of range read, a null pointer or an undefined shift is the failure of the
    monad ([mfail], [None]), never a made up value, so a theorem that an
    operation does not fail says that these do not occur.

    Fuel.  A loop along a chain takes as fuel one more than the number of cells of
    its store, and the theorems on chains show that it is enough
    for a chain without cycles, and that every operation keeps chains so.  Other loops have the
    bound of their counter, or the length of the text they read, as fuel.  No theorem assumes that
    a loop ends: the safety theorems state that the result is not a failure, and to run out of fuel
    is one.

    ** What is not modelled

    Registers, timers, I2C and pin access (hardware), the drivers of single
    devices, sockets and WiFi modules, screens, and diagnostics (they only
    print).  The line feeds at the ends of formats, and diagnostic output, are left out
    of what is printed.  WiThrottle, the distribution of broadcasts over clients,
    Railcom and the IO device layer are planned. *)

From stdpp Require Export base numbers list gmap.
From Stdlib Require Export ZArith Lia ZifyInst ZifyNat ZifyBool.
From Stdlib Require Import Btauto.

#[global] Set Default Proof Using "Type".
Open Scope Z_scope.

(** * Notation for C expressions *)

Declare Scope c_scope.
Delimit Scope c_scope with C.
Notation "a .& b" := (Z.land a b) (at level 50, left associativity) : c_scope.
Notation "a .| b" := (Z.lor a b) (at level 54, left associativity) : c_scope.
Notation "a .^ b" := (Z.lxor a b) (at level 53, left associativity) : c_scope.
Notation "a <<' b" := (Z.shiftl a b) (at level 49, left associativity) : c_scope.
Notation "a >>' b" := (Z.shiftr a b) (at level 49, left associativity) : c_scope.
Open Scope c_scope.

(** * Machine integers: a value of a C type is the [Z] it denotes; the
    conversions below are the wrap-around of an assignment to that type. *)

Definition u8 (z : Z) : Z := z mod 256.
Definition u16 (z : Z) : Z := z mod 65536.
Definition u32 (z : Z) : Z := z mod 4294967296.
Definition i8 (z : Z) : Z := (z + 128) mod 256 - 128.
Definition i16 (z : Z) : Z := (z + 32768) mod 65536 - 32768.
Definition i32 (z : Z) : Z := (z + 2147483648) mod 4294967296 - 2147483648.

(** Arduino's [highByte], [lowByte] and [bitRead]. *)
Definition lowByte (z : Z) : Z := z .& 255.
Definition highByte (z : Z) : Z := (z >>' 8) .& 255.
Definition bitRead (z n : Z) : Z := (z >>' n) .& 1.

(** C truth values of integers and back. *)
Definition tru (z : Z) : bool := negb (z =? 0).
Definition b2z (b : bool) : Z := if b then 1 else 0.

Definition is_byte (z : Z) : Prop := 0 <= z < 256.
Definition is_u16 (z : Z) : Prop := 0 <= z < 65536.
Definition is_u32 (z : Z) : Prop := 0 <= z < 4294967296.
Definition is_i16 (z : Z) : Prop := -32768 <= z < 32768.

(** * Stateful code: a state monad with failure

    [None] is what the code must never do: a null or wild dereference, an
    access outside an array, or a loop that uses up its fuel. *)

Definition M (S A : Type) : Type := S → option (A * S).
Definition mreturn {S A} (a : A) : M S A := λ s, Some (a, s).
Definition mthen {S A B} (m : M S A) (k : A → M S B) : M S B :=
  λ s, '(a, s) ← m s; k a s.
Definition mget {S A} (f : S → A) : M S A := λ s, Some (f s, s).
Definition mmod {S} (f : S → S) : M S unit := λ s, Some (tt, f s).
Definition mfail {S A} : M S A := λ _, None.
Definition mlift {S A} (o : option A) : M S A := λ s, a ← o; Some (a, s).

(** Loops over a list of indices, with or without a value carried along. *)
Definition mfold {S A B} (f : B → A → M S A) : list B → A → M S A :=
  fix go l a := match l with [] => mreturn a | x :: l => mthen (f x a) (go l) end.
Definition mfor {S B} (l : list B) (f : B → M S unit) : M S unit := mfold (λ x _, f x) l tt.

Notation "'let!' x := m 'in' k" := (mthen m (λ x, k))
  (at level 200, x binder, m at level 100, k at level 200, right associativity,
   format "'let!'  x  :=  m  'in' '//' k") : c_scope.
Notation "m ;;; k" := (mthen m (λ _, k)) (at level 199, right associativity,
   format "m ;;; '//' k") : c_scope.
Notation "'when' b 'do' m" := (if b then m else mreturn tt) (at level 198, b at level 100, m at level 198) : c_scope.

(** Weakest preconditions: [wp m Q s], running [m] from [s] succeeds and
    its result and final state satisfy [Q]. *)
Definition wp {S A} (m : M S A) (Q : A → S → Prop) (s : S) : Prop :=
  match m s with Some (a, s') => Q a s' | None => False end.

Section wp.
Context {S A B : Type}.
Implicit Types (Q : A → S → Prop) (s : S).

Lemma wp_ret (a : A) Q s : Q a s → wp (mreturn a) Q s.
Proof. done. Qed.
Lemma wp_bind (m : M S B) (k : B → M S A) Q s :
  wp m (λ b s', wp (k b) Q s') s → wp (mthen m k) Q s.
Proof. unfold wp, mthen. destruct (m s) as [[b s']|]; simpl; [done|done]. Qed.
Lemma wp_bind_inv (m : M S B) (k : B → M S A) Q s :
  wp (mthen m k) Q s → wp m (λ b s', wp (k b) Q s') s.
Proof. unfold wp, mthen. destruct (m s) as [[b s']|]; simpl; done. Qed.
Lemma wp_get (f : S → A) Q s : Q (f s) s → wp (mget f) Q s.
Proof. done. Qed.
Lemma wp_mono (m : M S A) Q Q' s : wp m Q s → (∀ a s', Q a s' → Q' a s') → wp m Q' s.
Proof. unfold wp. destruct (m s) as [[a s']|]; auto. Qed.
Lemma wp_run (m : M S A) Q s : wp m Q s → ∃ a s', m s = Some (a, s') ∧ Q a s'.
Proof. unfold wp. destruct (m s) as [[a s']|]; [eauto|done]. Qed.
Lemma wp_ext (m m' : M S A) Q s : m s = m' s → wp m' Q s → wp m Q s.
Proof. unfold wp. by intros ->. Qed.
Lemma wp_eq (m : M S A) Q s a s' : m s = Some (a, s') → Q a s' → wp m Q s.
Proof. unfold wp. by intros ->. Qed.
Lemma wp_both (m : M S A) (Q R : S → Prop) s : wp m (λ _ s', Q s') s → wp m (λ _ s', R s') s → wp m (λ _ s', Q s' ∧ R s') s.
Proof. unfold wp. destruct (m s) as [[a s']|]; done. Qed.
End wp.

Lemma wp_mod {S} (f : S → S) (Q : unit → S → Prop) s : Q tt (f s) → wp (mmod f) Q s.
Proof. done. Qed.
Lemma wp_when {S} (b : bool) (m : M S unit) (Q : unit → S → Prop) s :
  (b = true → wp m Q s) → (b = false → Q tt s) → wp (when b do m) Q s.
Proof. destruct b; intros H1 H2; [by apply H1|by apply H2]. Qed.

(** A loop keeps what each of its rounds keeps. *)
Lemma wp_mfold {S A B} (I : S → Prop) (f : B → A → M S A) (l : list B) :
  (∀ x a s, x ∈ l → I s → wp (f x a) (λ _ s', I s') s) → ∀ a s, I s → wp (mfold f l a) (λ _ s', I s') s.
Proof.
  induction l as [|x l IH]; intros Hf a s Hs; [by apply wp_ret|]. simpl. apply wp_bind.
  eapply wp_mono; [apply Hf; [left|done]|]. intros b s' Hs'. cbn beta in Hs'. apply IH; [|done].
  intros y c t Hin. apply Hf. by right.
Qed.
Lemma wp_mfor {S B} (I : S → Prop) (f : B → M S unit) (l : list B) s :
  (∀ x s, x ∈ l → I s → wp (f x) (λ _ s', I s') s) → I s → wp (mfor l f) (λ _ s', I s') s.
Proof. intros Hf Hs. apply (wp_mfold I); [|done]. intros x _ s'. apply Hf. Qed.

(** * Tactics *)

(** One step of a goal [wp m Q s] whose program starts with a primitive. *)
Ltac wp1 :=
  match goal with
  | |- wp (mthen _ _) _ _ => apply wp_bind
  | |- wp (mreturn _) _ _ => apply wp_ret
  | |- wp (mget _) _ _ => apply wp_get
  | |- wp (mmod _) _ _ => apply wp_mod
  end.

(** [zify] with division and remainder turned into linear facts. *)
Ltac zlia := unfold u8, u16, u32, i8, i16, i32, is_byte, is_u16, is_u32, is_i16 in *;
  Z.div_mod_to_equations; lia.

(** Splits on every boolean test of the goal, keeping its truth value. *)
Ltac split_if :=
  match goal with
  | |- context [if ?b then _ else _] => destruct b eqn:?
  end.
Ltac split_ifs := repeat (split_if; simpl in * ).

(** The same on a hypothesis that computes an option or a pair. *)
Ltac split_in H :=
  match type of H with
  | context [if ?b then _ else _] => destruct b eqn:?
  | context [match ?x with _ => _ end] => destruct x eqn:?
  end; simplify_eq/=.

Create HintDb cs.
Create Rewrite HintDb cs.
#[export] Hint Extern 1 (_ <= _)%Z => lia : cs.
#[export] Hint Extern 1 (_ < _)%Z => lia : cs.
#[export] Hint Extern 1 (_ ≠ _) => (discriminate || congruence) : cs.

(** * Ranges of the conversions *)

Lemma u8_range z : is_byte (u8 z).
Proof. zlia. Qed.
Lemma u16_range z : is_u16 (u16 z).
Proof. zlia. Qed.
Lemma u32_range z : is_u32 (u32 z).
Proof. zlia. Qed.
Lemma i16_range z : is_i16 (i16 z).
Proof. zlia. Qed.
Lemma u8_id z : is_byte z → u8 z = z.
Proof. zlia. Qed.
Lemma u16_id z : is_u16 z → u16 z = z.
Proof. zlia. Qed.
Lemma u32_id z : is_u32 z → u32 z = z.
Proof. zlia. Qed.
Lemma i16_id z : is_i16 z → i16 z = z.
Proof. zlia. Qed.
Lemma i16_u16 z : i16 (u16 z) = i16 z.
Proof. zlia. Qed.
Lemma u16_i16 z : u16 (i16 z) = u16 z.
Proof. zlia. Qed.

#[export] Hint Resolve u8_range u16_range u32_range i16_range : cs.
#[export] Hint Rewrite u8_id u16_id u32_id i16_id using (unfold is_byte, is_u16, is_u32, is_i16 in *; lia) : cs.

(** * Bit lemmas *)

Lemma land_mask z n : 0 <= n → z .& Z.ones n = z mod 2 ^ n.
Proof. intros. by apply Z.land_ones. Qed.

Lemma lowByte_mod z : lowByte z = z mod 256.
Proof. unfold lowByte. change 255 with (Z.ones 8). by rewrite land_mask. Qed.

Lemma highByte_mod z : highByte z = (z / 256) mod 256.
Proof.
  unfold highByte. change 255 with (Z.ones 8). rewrite land_mask by lia.
  by rewrite Z.shiftr_div_pow2.
Qed.

Lemma lowByte_range z : is_byte (lowByte z).
Proof. rewrite lowByte_mod. zlia. Qed.
Lemma highByte_range z : is_byte (highByte z).
Proof. rewrite highByte_mod. zlia. Qed.
#[export] Hint Resolve lowByte_range highByte_range : cs.

(** A byte is the high and low part of a 16-bit value. *)
Lemma high_low_join z : is_u16 z → highByte z * 256 + lowByte z = z.
Proof. rewrite highByte_mod, lowByte_mod. zlia. Qed.

Lemma testbit_mask b i : 0 <= i → tru (b .& 2 ^ i) = Z.testbit b i.
Proof.
  intros Hi. unfold tru. destruct (Z.testbit b i) eqn:E.
  - apply negb_true_iff, Z.eqb_neq. intros H0.
    assert (Z.testbit (b .& 2 ^ i) i = false) as H by (by rewrite H0, Z.bits_0).
    by rewrite Z.land_spec, E, Z.pow2_bits_true in H.
  - apply negb_false_iff, Z.eqb_eq. apply Z.bits_inj'. intros n Hn. rewrite Z.land_spec, Z.bits_0.
    destruct (decide (n = i)) as [->|]; [by rewrite E|].
    by rewrite (Z.pow2_bits_false i n), andb_false_r.
Qed.

(** * Finite checks: a boolean test that holds on every value of a range. *)

Definition rangeZ (lo n : Z) : list Z := (λ i : nat, lo + Z.of_nat i) <$> seq 0 (Z.to_nat n).

Lemma elem_of_rangeZ lo n z : z ∈ rangeZ lo n ↔ lo <= z < lo + n.
Proof.
  unfold rangeZ. rewrite list_elem_of_fmap. split.
  - intros (i & -> & Hi%elem_of_seq). lia.
  - intros H. exists (Z.to_nat (z - lo)). split; [lia|]. apply elem_of_seq. lia.
Qed.

Lemma range_check (P : Z → bool) lo n :
  forallb P (rangeZ lo n) = true → ∀ z, lo <= z < lo + n → P z = true.
Proof.
  intros H z Hz. rewrite forallb_forall in H. apply H.
  by apply list_elem_of_In, elem_of_rangeZ.
Qed.

Lemma range_check2 (P : Z → Z → bool) lo n lo' n' :
  forallb (λ x, forallb (P x) (rangeZ lo' n')) (rangeZ lo n) = true →
  ∀ x y, lo <= x < lo + n → lo' <= y < lo' + n' → P x y = true.
Proof.
  intros H x y Hx Hy. apply (range_check (P x) lo' n'); [|done].
  by apply (range_check (λ x, forallb (P x) (rangeZ lo' n')) lo n).
Qed.

(** * Sequences *)

(** Byte-wise exclusive or: the checksum of a packet. *)
Definition xor_all (l : list Z) : Z := fold_left Z.lxor l 0.

Lemma fold_lxor_acc l a : fold_left Z.lxor l a = a .^ xor_all l.
Proof.
  unfold xor_all. revert a. induction l as [|x l IH]; intros a; cbn [fold_left].
  - by rewrite Z.lxor_0_r.
  - rewrite (IH (a .^ x)), (IH (0 .^ x)), Z.lxor_0_l, Z.lxor_assoc. done.
Qed.

Lemma xor_all_cons x l : xor_all (x :: l) = x .^ xor_all l.
Proof. change (xor_all (x :: l)) with (fold_left Z.lxor l x). apply fold_lxor_acc. Qed.

Lemma xor_all_app l k : xor_all (l ++ k) = xor_all l .^ xor_all k.
Proof. unfold xor_all at 1. rewrite fold_left_app. apply fold_lxor_acc. Qed.

(** A packet followed by its checksum sums to zero. *)
Lemma xor_all_checksum l : xor_all (l ++ [xor_all l]) = 0.
Proof. rewrite xor_all_app. unfold xor_all at 2. simpl. apply Z.lxor_nilpotent. Qed.

Lemma lxor_byte a b : is_byte a → is_byte b → is_byte (a .^ b).
Proof.
  intros Ha Hb.
  assert ((0 <=? a .^ b) && (a .^ b <? 256) = true) as H; [|unfold is_byte; lia].
  apply (range_check2 (λ a b, (0 <=? a .^ b) && (a .^ b <? 256)) 0 256 0 256); [|done|done].
  vm_compute. reflexivity.
Qed.

Lemma xor_all_byte l : Forall is_byte l → is_byte (xor_all l).
Proof.
  induction 1 as [|x l Hx Hl IH]; [done|]. rewrite xor_all_cons. by apply lxor_byte.
Qed.

(** Adjacent elements of a list are related. *)
Fixpoint adjacent {A} (R : A → A → Prop) (l : list A) : Prop :=
  match l with
  | x :: (y :: _) as l' => R x y ∧ adjacent R l'
  | _ => True
  end.

Lemma adjacent_snoc {A} (R : A → A → Prop) l x :
  adjacent R l → (∀ y, last l = Some y → R y x) → adjacent R (l ++ [x]).
Proof.
  induction l as [|a [|b l] IH]; simpl; intros Hl Hx; [done| |].
  - split; [|done]. by apply Hx.
  - destruct Hl as [? Hl]. split; [done|]. apply IH; [done|]. intros y Hy. by apply Hx.
Qed.
