(* ===== verification/Chain.v ===== *)
(** Singly linked chains in a store: the [next] pointers of the code's
    intrusive lists, what it means that a pointer heads a given sequence of
    cells, and what appending, pushing and unlinking do to it. *)

From S2P Require Import Prelude.

Abbreviation ptr := positive.

(** A cell type with a [next] field. *)
Class Linked (C : Type) := {
  nx : C → option ptr;
  setnx : option ptr → C → C;
  nx_setnx : ∀ n c, nx (setnx n c) = n;
}.

Section chain.
Context {C : Type} `{Linked C}.
Implicit Types (h : gmap ptr C) (p : option ptr) (l : list ptr).

(** [chain h p l]: following [next] from [p] visits exactly [l]. *)
Fixpoint chain h p l : Prop :=
  match l with
  | [] => p = None
  | x :: l' => p = Some x ∧ ∃ c, h !! x = Some c ∧ chain h (nx c) l'
  end.

Lemma chain_det h p l l' : chain h p l → chain h p l' → l = l'.
Proof.
  revert p l'. induction l as [|x l IH]; intros p [|y l']; simpl.
  - done.
  - intros -> [? _]. done.
  - intros [-> _] ?. done.
  - intros [-> (c & Hc & Hl)] [[= ->] (c' & Hc' & Hl')]. simplify_eq. f_equal. eauto.
Qed.

Lemma chain_elem_dom h p l x : chain h p l → x ∈ l → is_Some (h !! x).
Proof.
  revert p. induction l as [|y l IH]; intros p; simpl; [set_solver|].
  intros [-> (c & Hc & Hl)] [->|Hx]%elem_of_cons; eauto.
Qed.

Lemma chain_ext h h' p l :
  (∀ x, x ∈ l → nx <$> h !! x = nx <$> h' !! x) → chain h p l → chain h' p l.
Proof.
  revert p. induction l as [|y l IH]; intros p Hext; simpl; [done|].
  intros [-> (c & Hc & Hl)]. split; [done|].
  assert (nx <$> h !! y = nx <$> h' !! y) as Hy by (apply Hext; set_solver).
  rewrite Hc in Hy. simpl in Hy. destruct (h' !! y) as [c'|] eqn:E; simplify_eq/=.
  exists c'. split; [done|].
  replace (nx c') with (nx c) by congruence. apply IH; [|done]. intros; apply Hext; set_solver.
Qed.

Lemma chain_insert_ne h p l x c : x ∉ l → chain h p l → chain (<[x := c]> h) p l.
Proof.
  intros Hx. apply chain_ext. intros y Hy. rewrite lookup_insert_ne; [done|]. set_solver.
Qed.

Lemma chain_insert_nx h p l x c c' :
  h !! x = Some c → nx c' = nx c → chain h p l → chain (<[x := c']> h) p l.
Proof.
  intros Hx Hn. apply chain_ext. intros y Hy.
  destruct (decide (x = y)) as [->|]; [|by rewrite lookup_insert_ne].
  by rewrite lookup_insert_eq, Hx; simpl; rewrite Hn.
Qed.

Lemma chain_delete_ne h p l x : x ∉ l → chain h p l → chain (delete x h) p l.
Proof.
  intros Hx. apply chain_ext. intros y Hy. rewrite lookup_delete_ne; [done|]. set_solver.
Qed.

(** A tail of a chain is a chain. *)
Lemma chain_suffix h p l k : chain h p (l ++ k) → ∃ q, chain h q k.
Proof.
  revert p. induction l as [|x l IH]; intros p; simpl; [eauto|].
  intros [_ (c & _ & Hl)]. eauto.
Qed.

(** The cells of a chain are distinct: a chain is finite, so it has no cycle. *)
Lemma chain_not_elem h x c l : h !! x = Some c → chain h (nx c) l → x ∉ l.
Proof.
  intros Hx Hl Hin.
  apply list_elem_of_split in Hin as (l1 & l2 & ->).
  destruct (chain_suffix _ _ _ _ Hl) as (q & Hq).
  simpl in Hq. destruct Hq as [_ (c' & Hc' & Hl2)]. simplify_eq.
  assert (l2 = l1 ++ x :: l2) as Heq by (eapply chain_det; eauto).
  apply (f_equal length) in Heq. rewrite length_app in Heq. simpl in Heq. lia.
Qed.

Lemma chain_NoDup h p l : chain h p l → NoDup l.
Proof.
  revert p. induction l as [|x l IH]; intros p; simpl; [constructor|].
  intros [-> (c & Hc & Hl)]. constructor; eauto using chain_not_elem.
Qed.

(** The number of cells of the store bounds the length of every chain, so it
    is enough fuel for a loop along a chain. *)
Lemma chain_length h p l : chain h p l → (length l <= size h)%nat.
Proof.
  intros Hl. rewrite <-size_dom.
  rewrite <-(size_list_to_set (C := gset ptr) l) by eauto using chain_NoDup.
  apply subseteq_size. intros x Hx%elem_of_list_to_set.
  apply elem_of_dom. eauto using chain_elem_dom.
Qed.

(** ** Pushing in front, appending, unlinking *)

Lemma chain_push h p l x c :
  x ∉ l → chain h p l → chain (<[x := setnx p c]> h) (Some x) (x :: l).
Proof.
  intros Hx Hl. simpl. split; [done|]. exists (setnx p c).
  rewrite lookup_insert_eq, nx_setnx. split; [done|]. by apply chain_insert_ne.
Qed.

Lemma chain_snoc h p l t ct x :
  last l = Some t → h !! t = Some ct → x ∉ l → nx <$> h !! x = Some None →
  chain h p l → chain (<[t := setnx (Some x) ct]> h) p (l ++ [x]).
Proof.
  revert p. induction l as [|y l IH]; intros p Hlast Ht Hx Hnx Hl; [done|].
  apply not_elem_of_cons in Hx as [Hxy Hxl].
  pose proof (chain_NoDup _ _ _ Hl) as Hnd. apply NoDup_cons in Hnd as [Hyl _].
  destruct Hl as [-> (c & Hc & Hl)]. destruct l as [|z l].
  - simplify_eq/=. split; [done|]. exists (setnx (Some x) ct).
    rewrite lookup_insert_eq, nx_setnx. split; [done|]. split; [done|].
    destruct (h !! x) as [cx|] eqn:E; simplify_eq/=. exists cx.
    rewrite lookup_insert_ne by congruence. split; [done|congruence].
  - assert (last (z :: l) = Some t) as Hlast' by done.
    change ((y :: z :: l) ++ [x]) with (y :: ((z :: l) ++ [x])). simpl chain.
    split; [done|]. exists c.
    assert (t ≠ y).
    { intros ->. apply Hyl. apply list_elem_of_In. apply last_Some in Hlast' as [l0 ->].
      apply in_or_app. right. by left. }
    rewrite lookup_insert_ne by done. split; [done|]. by apply IH.
Qed.

Lemma chain_unlink_head h x c l :
  h !! x = Some c → chain h (Some x) (x :: l) → chain h (nx c) l.
Proof. intros Hx [_ (c' & Hc' & Hl)]. by simplify_eq. Qed.

Lemma chain_unlink h p l1 y cy x cx l2 :
  h !! y = Some cy → h !! x = Some cx →
  chain h p (l1 ++ y :: x :: l2) →
  chain (<[y := setnx (nx cx) cy]> h) p (l1 ++ y :: l2).
Proof.
  intros Hy Hx. revert p. induction l1 as [|z l1 IH]; intros p Hl.
  - pose proof (chain_NoDup _ _ _ Hl) as Hnd.
    destruct Hl as [-> (c & Hc & [Hn (c' & Hc' & Hl)])]. simplify_eq.
    simpl. split; [done|]. exists (setnx (nx cx) cy). rewrite lookup_insert_eq, nx_setnx.
    split; [done|]. apply chain_insert_ne; [|done].
    simpl in Hnd. apply NoDup_cons in Hnd as [Hnd _]. set_solver.
  - pose proof (chain_NoDup _ _ _ Hl) as Hnd. simpl in Hl.
    destruct Hl as [-> (c & Hc & Hl)]. simpl. split; [done|]. exists c.
    rewrite lookup_insert_ne; [eauto|].
    intros ->. simpl in Hnd. apply NoDup_cons in Hnd as [Hnd _]. set_solver.
Qed.

(** ** Reading a whole chain (for statements; the loops of the code are
    translated one by one in the files that own them). *)
Fixpoint walk (fuel : nat) h p : option (list ptr) :=
  match p, fuel with
  | None, _ => Some []
  | Some _, O => None
  | Some x, S f => c ← h !! x; l ← walk f h (nx c); Some (x :: l)
  end.

Lemma chain_walk h p l fuel : chain h p l → (length l <= fuel)%nat → walk fuel h p = Some l.
Proof.
  revert p fuel. induction l as [|x l IH]; intros p fuel; simpl.
  - intros ->. by destruct fuel.
  - intros [-> (c & Hc & Hl)] Hf. destruct fuel; [lia|]. simpl. rewrite Hc. simpl.
    rewrite IH; [done|done|lia].
Qed.

(** ** Stores in which every chain ends *)

Definition acyclic h : Prop := ∀ x, is_Some (h !! x) → ∃ l, chain h (Some x) l.

Lemma acyclic_nx h p : acyclic h → (∀ x, p = Some x → is_Some (h !! x)) → ∃ l, chain h p l.
Proof. intros Ha Hp. destruct p as [x|]; [by apply Ha, Hp|by exists []]. Qed.

(** Every pointer of an acyclic store is valid. *)
Lemma acyclic_valid h x c y : acyclic h → h !! x = Some c → nx c = Some y → is_Some (h !! y).
Proof.
  intros Ha Hx Hn. destruct (Ha x) as [l Hl]; [eauto|]. destruct l as [|z l]; [done|].
  destruct Hl as [[= <-] (c' & Hc' & Hl)]. simplify_eq. rewrite Hn in Hl.
  destruct l as [|z l]; [done|]. destruct Hl as [[= <-] (d & ? & _)]. eauto.
Qed.

Lemma acyclic_ext h h' : (∀ x, nx <$> h !! x = nx <$> h' !! x) → acyclic h → acyclic h'.
Proof.
  intros Hext Ha x Hx. destruct (Ha x) as [l Hl].
  - specialize (Hext x). destruct (h !! x), (h' !! x); simplify_eq/=; eauto.
  - exists l. eapply chain_ext; [|exact Hl]. auto.
Qed.

Lemma acyclic_insert_nx h x c c' : h !! x = Some c → nx c' = nx c → acyclic h → acyclic (<[x := c']> h).
Proof.
  intros Hx Hn. apply acyclic_ext. intros y.
  destruct (decide (x = y)) as [->|]; [|by rewrite lookup_insert_ne].
  by rewrite lookup_insert_eq, Hx; simpl; rewrite Hn.
Qed.

(** Writing one cell: chains without it stay, chains through it go on as its
    new link does. *)
Lemma acyclic_write h x c l' : acyclic h → chain (<[x := c]> h) (nx c) l' → acyclic (<[x := c]> h).
Proof.
  intros Ha Hl' y Hy. destruct (decide (x = y)) as [<-|Hne].
  { exists (x :: l'). split; [done|]. exists c. by rewrite lookup_insert_eq. }
  rewrite lookup_insert_ne in Hy by done. destruct (Ha y Hy) as [l Hl].
  destruct (decide (x ∈ l)) as [Hin|Hin]; [|exists l; by apply chain_insert_ne].
  pose proof (chain_NoDup _ _ _ Hl) as Hnd.
  apply list_elem_of_split in Hin as (l1 & l2 & ->). exists (l1 ++ x :: l').
  apply NoDup_app in Hnd as (_ & Hnd & _).
  assert (x ∉ l1) as Hx1 by (intros Hx; apply (Hnd x Hx); set_solver). clear Hnd Hne Hy.
  revert Hl Hx1. generalize (Some y). induction l1 as [|z l1 IH]; intros p Hl Hx1.
  - destruct Hl as [-> _]. split; [done|]. exists c. by rewrite lookup_insert_eq.
  - destruct Hl as [-> (d & Hd & Hl)]. split; [done|]. exists d.
    rewrite lookup_insert_ne by set_solver. split; [done|]. apply IH; [done|set_solver].
Qed.

Lemma acyclic_cut h x c : nx c = None → acyclic h → acyclic (<[x := c]> h).
Proof. intros Hn Ha. apply (acyclic_write h x c []); [done|]. by rewrite Hn. Qed.

(** Linking a cell to the end of another chain. *)
Lemma acyclic_link h x c y d : x ≠ y → nx c = Some y → h !! y = Some d → nx d = None →
  acyclic h → acyclic (<[x := c]> h).
Proof.
  intros Hxy Hn Hy Hd Ha. apply (acyclic_write h x c [y]); [done|]. rewrite Hn.
  split; [done|]. exists d. rewrite lookup_insert_ne by done. split; [done|]. by rewrite Hd.
Qed.

Lemma acyclic_empty : acyclic ∅.
Proof. intros x [? Hx]. by rewrite lookup_empty in Hx. Qed.

End chain.

