(* ===== verification/DCCQueue.v ===== *)
(** The packet queues (src/DCCQueue.h, src/DCCQueue.cpp): a high and a low
    priority queue and a free list of [PendingSlot]s, all three intrusive
    chains of one store, translated operation by operation.  What they
    implement, queues of packets, is in DCCQueueSpec. *)

From S2P Require Import Prelude Chain.

Module DCCQueue.

(** * Data (DCCQueue.h) *)

Definition MAX_PACKET_SIZE : Z := 5.

Inductive PendingType :=
  | NORMAL_PACKET
  | FUNCTION1_PACKET | FUNCTION2_PACKET | FUNCTION3_PACKET | FUNCTION4_PACKET
  | FUNCTION5_PACKET
  | SPEED_PACKET | ACC_ON_PACKET | ACC_OFF_PACKET | DEAD_PACKET.

#[export] Instance PendingType_eq_dec : EqDecision PendingType.
Proof. solve_decision. Defined.

(** The fields of a slot but [next]; [un] is the 32 bits of the union, whose
    low half is [locoId] and [delayOff] and whose whole is [startTime] (all
    the supported processors are little-endian). *)
Record Pending := mkPending {
  type : PendingType;
  packetLength : Z;
  packetRepeat : Z;
  packet : list Z;
  un : Z;
}.

Definition locoId (d : Pending) : Z := u16 (un d).
Definition delayOff (d : Pending) : Z := u16 (un d).
Definition startTime (d : Pending) : Z := un d.
(** Writing a 16-bit member keeps the upper half of the union. *)
Definition put16 (v w : Z) : Z := w - u16 w + u16 v.

Definition with_locoId (v : Z) (d : Pending) : Pending :=
  mkPending (type d) (packetLength d) (packetRepeat d) (packet d) (put16 v (un d)).
Definition with_startTime (v : Z) (d : Pending) : Pending :=
  mkPending (type d) (packetLength d) (packetRepeat d) (packet d) (u32 v).
Definition with_repeat (r : Z) (d : Pending) : Pending :=
  mkPending (type d) (packetLength d) r (packet d) (un d).

Record PendingSlot := mkSlot { next : option ptr; pend : Pending }.

#[export] Instance slot_linked : Linked PendingSlot := {|
  nx := next;
  setnx n c := mkSlot n (pend c);
  nx_setnx _ _ := eq_refl;
|}.

Record DCCQueue := mkQueue { head : option ptr; tail : option ptr }.

(** A call of DCCWaveform::mainTrack.schedulePacket: the bytes it reads from
    the packet buffer, the byte count and the repeats.  [s_loco] is not an
    argument of the call: it records the value the caller gives to
    [lastSentPacketLocoId] with it. *)
Record Sent := mkSent { s_bytes : list Z; s_len : Z; s_repeats : Z; s_loco : Z }.

(** The statics of the class, the store of slots, the number of slots created
    (a function static of getSlot), whether getSlot has reported a leak, and
    the calls made to the waveform, the last one first. *)
Record St := mkSt {
  heap : gmap ptr PendingSlot;
  high : DCCQueue;
  low : DCCQueue;
  recycleList : option ptr;
  lastSentPacketLocoId : Z;
  created : Z;
  leakSeen : bool;
  sent : list Sent;
}.

Definition init : St := mkSt ∅ (mkQueue None None) (mkQueue None None) None 0 0 false [].

Inductive which := High | Low.

Definition queue (w : which) (s : St) : DCCQueue := match w with High => high s | Low => low s end.
Definition with_heap (h : gmap ptr PendingSlot) (s : St) : St :=
  mkSt h (high s) (low s) (recycleList s) (lastSentPacketLocoId s) (created s) (leakSeen s) (sent s).
Definition with_queue (w : which) (q : DCCQueue) (s : St) : St :=
  match w with
  | High => mkSt (heap s) q (low s) (recycleList s) (lastSentPacketLocoId s) (created s) (leakSeen s) (sent s)
  | Low => mkSt (heap s) (high s) q (recycleList s) (lastSentPacketLocoId s) (created s) (leakSeen s) (sent s)
  end.
Definition with_recycle (r : option ptr) (s : St) : St :=
  mkSt (heap s) (high s) (low s) r (lastSentPacketLocoId s) (created s) (leakSeen s) (sent s).
Definition with_last (l : Z) (s : St) : St :=
  mkSt (heap s) (high s) (low s) (recycleList s) l (created s) (leakSeen s) (sent s).
Definition with_created (n : Z) (k : bool) (s : St) : St :=
  mkSt (heap s) (high s) (low s) (recycleList s) (lastSentPacketLocoId s) n k (sent s).
Definition with_sent (x : Sent) (s : St) : St :=
  mkSt (heap s) (high s) (low s) (recycleList s) (lastSentPacketLocoId s) (created s) (leakSeen s) (x :: sent s).

(** [memcpy] into the five bytes of a packet; copying outside the source or
    the destination is undefined. *)
Definition memcpy_packet (dst src : list Z) (n : Z) : option (list Z) :=
  if (0 <=? n) && (n <=? Z.of_nat (length src)) && (n <=? Z.of_nat (length dst))
  then Some (take (Z.to_nat n) src ++ drop (Z.to_nat n) dst)
  else None.

(** A dereference or a store through a pointer. *)
Definition load (s : St) (p : ptr) : option PendingSlot := heap s !! p.
Definition store (p : ptr) (c : PendingSlot) (s : St) : St := with_heap (<[p := c]> (heap s)) s.
Definition set_next (p : ptr) (n : option ptr) (s : St) : option St :=
  c ← load s p; Some (store p (mkSlot n (pend c)) s).
Definition set_pend (p : ptr) (d : Pending) (s : St) : option St :=
  c ← load s p; Some (store p (mkSlot (next c) d) s).

(** * Queue primitives *)

Definition addQueue (w : which) (p : ptr) (s : St) : option St :=
  s ← match tail (queue w s) with
      | Some t => set_next t (Some p) s
      | None => Some (with_queue w (mkQueue (Some p) (tail (queue w s))) s)
      end;
  let s := with_queue w (mkQueue (head (queue w s)) (Some p)) s in
  set_next p None s.

Definition jumpQueue (w : which) (p : ptr) (s : St) : option St :=
  s ← set_next p (head (queue w s)) s;
  let s := with_queue w (mkQueue (Some p) (tail (queue w s))) s in
  Some (match tail (queue w s) with
        | None => with_queue w (mkQueue (head (queue w s)) (Some p)) s
        | Some _ => s
        end).

Definition recycle (p : ptr) (s : St) : option St :=
  s ← set_next p (recycleList s) s; Some (with_recycle (Some p) s).

(** The loop of [remove]: [previous] trails [p]. *)
Fixpoint remove_loop (fuel : nat) (w : which) (premove : ptr) (previous p : option ptr)
    (s : St) : option St :=
  match p, fuel with
  | None, _ => Some s (* "slot not found" *)
  | Some _, O => None
  | Some x, S fuel =>
    c ← load s x;
    if decide (x = premove) then
      s ← match previous with
          | Some y => set_next y (next c) s
          | None => Some (with_queue w (mkQueue (next c) (tail (queue w s))) s)
          end;
      Some (if decide (tail (queue w s) = Some x)
            then with_queue w (mkQueue (head (queue w s)) previous) s else s)
    else remove_loop fuel w premove (Some x) (next c) s
  end.

Definition remove (w : which) (premove : ptr) (s : St) : option St :=
  remove_loop (S (size (heap s))) w premove None (head (queue w s)) s.

(** [for (auto p=head;p;p=p->next) n++] *)
Fixpoint count_loop (fuel : nat) (h : gmap ptr PendingSlot) (p : option ptr) (n : Z) : option Z :=
  match p, fuel with
  | None, _ => Some n
  | Some _, O => None
  | Some x, S fuel => c ← h !! x; count_loop fuel h (next c) (i16 (n + 1))
  end.

Definition new_slot : PendingSlot := mkSlot None (mkPending NORMAL_PACKET 0 0 (replicate 5 0) 0).

(** The first part of [getSlot]: the slot comes from the free list or is new. *)
Definition obtainSlot (s : St) : option (ptr * St) :=
  match recycleList s with
  | Some p => c ← load s p; Some (p, with_recycle (next c) s)
  | None =>
    q1 ← count_loop (S (size (heap s))) (heap s) (head (high s)) 0;
    q2 ← count_loop (S (size (heap s))) (heap s) (head (low s)) 0;
    let leak := negb (q1 + q2 =? created s) in
    let p := fresh (dom (heap s)) in
    Some (p, with_created (i16 (created s + 1)) (leakSeen s || leak) (store p new_slot s))
  end.

Definition getSlot (t : PendingType) (pkt : list Z) (length repeats loco : Z) (s : St)
    : option (ptr * St) :=
  '(p, s) ← obtainSlot s;
  c ← load s p;
  let d := pend c in
  let n := if length >? MAX_PACKET_SIZE then MAX_PACKET_SIZE else length in
  pk ← memcpy_packet (packet d) pkt n;
  let d := mkPending t length repeats pk 0 in       (* startTime=0 *)
  Some (p, store p (mkSlot None (with_locoId loco d)) s).

(** * Scheduling into the queues *)

Definition scheduleDCCPacket (pkt : list Z) (length repeats loco : Z) (s : St) : option St :=
  '(p, s) ← getSlot NORMAL_PACKET pkt length repeats loco s; addQueue Low p s.

(** The replacement loops: rewrite the packet of the first matching slot. *)
Fixpoint replace_loop (fuel : nat) (hit : Pending → bool) (pkt : list Z) (length repeats : Z)
    (p : option ptr) (s : St) : option (bool * St) :=
  match p, fuel with
  | None, _ => Some (false, s)
  | Some _, O => None
  | Some x, S fuel =>
    c ← load s x;
    let d := pend c in
    if hit d then
      pk ← memcpy_packet (packet d) pkt length;
      s ← set_pend x (mkPending (type d) length repeats pk (un d)) s;
      Some (true, s)
    else replace_loop fuel hit pkt length repeats (next c) s
  end.

Definition scheduleDCCSpeedPacket (pkt : list Z) (length repeats loco : Z) (s : St) : option St :=
  '(done, s) ← replace_loop (S (size (heap s))) (λ d, locoId d =? loco) pkt length repeats
                 (head (high s)) s;
  if done : bool then Some s
  else '(p, s) ← getSlot SPEED_PACKET pkt length repeats loco s; addQueue High p s.

Definition function_type (group : Z) : option PendingType :=
  match group with
  | 1 => Some FUNCTION1_PACKET
  | 2 => Some FUNCTION2_PACKET
  | 3 => Some FUNCTION3_PACKET
  | 4 => Some FUNCTION4_PACKET
  | 5 => Some FUNCTION5_PACKET
  | _ => None
  end.

Definition scheduleDCCFunctionPacket (pkt : list Z) (length loco group : Z) (s : St) : option St :=
  match function_type group with
  | None => Some s (* invalid group *)
  | Some t =>
    '(done, s) ← replace_loop (S (size (heap s)))
                   (λ d, (locoId d =? loco) && bool_decide (type d = t)) pkt length 0
                   (head (low s)) s;
    if done : bool then Some s
    else '(p, s) ← getSlot t pkt length 0 loco s; addQueue Low p s
  end.

(** The loop of [scheduleEstopPacket]: the successor is read before the slot
    is removed and recycled. *)
Fixpoint estop_loop (fuel : nat) (loco : Z) (p : option ptr) (s : St) : option St :=
  match p, fuel with
  | None, _ => Some s
  | Some _, O => None
  | Some x, S fuel =>
    c ← load s x;
    let pNext := next c in
    let d := pend c in
    if negb (bool_decide (type d = ACC_OFF_PACKET)) && ((loco =? 0) || (locoId d =? loco)) then
      s ← remove High x s;
      s ← recycle x s;
      estop_loop fuel loco pNext s
    else estop_loop fuel loco pNext s
  end.

Definition scheduleEstopPacket (pkt : list Z) (length repeats loco : Z) (s : St) : option St :=
  s ← estop_loop (S (size (heap s))) loco (head (high s)) s;
  '(p, s) ← getSlot SPEED_PACKET pkt length repeats 0 s;
  jumpQueue High p s.

Definition scheduleAccOnOffPacket (pkt : list Z) (length repeats delayms : Z) (s : St) : option St :=
  '(p, s) ← getSlot ACC_ON_PACKET pkt length repeats 0 s;
  c ← load s p;
  s ← set_pend p (with_locoId delayms (pend c)) s;   (* p->delayOff=delayms *)
  addQueue Low p s.

(** * Taking the next packet *)

Definition idlePacket : list Z := [255; 0].

Definition schedule_wave (d : Pending) (repeats loco : Z) (s : St) : St :=
  with_sent (mkSent (take (Z.to_nat (packetLength d)) (packet d)) (packetLength d) repeats loco) s.

(** [packet[1] &= ~0x08] *)
Definition gate_off (pk : list Z) : list Z := alter (λ b, b .& 247) 1%nat pk.

(** Removal of a slot that has been sent: an accessory-on packet becomes the
    delayed accessory-off packet, anything else is recycled. *)
Definition retire (w : which) (now : Z) (x : ptr) (s : St) : option St :=
  s ← remove w x s;
  c ← load s x;
  let d := pend c in
  if decide (type d = ACC_ON_PACKET) then
    let d := mkPending ACC_OFF_PACKET (packetLength d) (packetRepeat d) (gate_off (packet d)) (un d) in
    s ← set_pend x (with_startTime (now + delayOff d) d) s;
    jumpQueue High x s
  else recycle x s.

(** The body of the loop for a slot that may be sent: a packet for a loco is
    sent once and stays queued while it has repeats left, any other packet is
    left to the waveform to repeat. *)
Definition send_slot (w : which) (now : Z) (x : ptr) (d : Pending) (s : St) : option (bool * St) :=
  if tru (locoId d) then
    let s := with_last (locoId d) (schedule_wave d 0 (locoId d) s) in
    if tru (packetRepeat d) then
      s ← set_pend x (with_repeat (packetRepeat d - 1) d) s;
      Some (true, s)
    else s ← retire w now x s; Some (true, s)
  else
    let s := with_last 0 (schedule_wave d (packetRepeat d) 0 s) in
    s ← retire w now x s; Some (true, s).

Fixpoint next_loop (fuel : nat) (w : which) (now : Z) (p : option ptr) (s : St)
    : option (bool * St) :=
  match p, fuel with
  | None, _ => Some (false, s)
  | Some _, O => None
  | Some x, S fuel =>
    c ← load s x;
    let d := pend c in
    if bool_decide (type d = ACC_OFF_PACKET) && (now <? startTime d)
    then next_loop fuel w now (next c) s                       (* continue *)
    else if tru (locoId d) && (locoId d =? lastSentPacketLocoId s)
    then next_loop fuel w now (next c) s                       (* continue *)
    else send_slot w now x d s
  end.

Definition scheduleNextInternal (w : which) (now : Z) (s : St) : option (bool * St) :=
  next_loop (S (size (heap s))) w now (head (queue w s)) s.

Definition scheduleNext (force : bool) (now : Z) (s : St) : option (bool * St) :=
  '(b, s) ← scheduleNextInternal High now s;
  if b : bool then Some (true, s) else
  '(b, s) ← scheduleNextInternal Low now s;
  if b : bool then Some (true, s) else
  Some (if force
        then (true, with_last 0 (with_sent (mkSent idlePacket 2 0 0) s))
        else (false, s)).

End DCCQueue.
