(* ===== verification/DCCQueueSpec.v ===== *)
(** The packet queues as sequences of packets, the simulation that shows the
    pointer code of DCCQueue implements them, and the theorems about what is
    put on the track and when. *)

From S2P Require Import Prelude Chain DCCQueue.
Import DCCQueue.

Module DCCQueueSpec.

(** * The queues of packets *)

(** The part of a slot that is sent: the packet up to its length. *)
Definition norm (d : Pending) : Pending :=
  mkPending (type d) (packetLength d) (packetRepeat d)
    (take (Z.to_nat (packetLength d)) (packet d)) (un d).

Record Abs := mkAbs { a_high : list Pending; a_low : list Pending; a_last : Z; a_sent : list Sent }.

Definition a_init : Abs := mkAbs [] [] 0 [].
Definition a_queue (w : which) (a : Abs) : list Pending :=
  match w with High => a_high a | Low => a_low a end.
Definition a_with (w : which) (l : list Pending) (a : Abs) : Abs :=
  match w with
  | High => mkAbs l (a_low a) (a_last a) (a_sent a)
  | Low => mkAbs (a_high a) l (a_last a) (a_sent a)
  end.
Definition a_add (w : which) (d : Pending) (a : Abs) : Abs := a_with w (a_queue w a ++ [d]) a.

#[global] Arguments a_add : simpl never.

Definition fresh_packet (t : PendingType) (pkt : list Z) (length repeats u : Z) : Pending :=
  mkPending t length repeats (take (Z.to_nat length) pkt) u.

Fixpoint replace_first (hit : Pending → bool) (pkt : list Z) (length repeats : Z)
    (l : list Pending) : option (list Pending) :=
  match l with
  | [] => None
  | d :: l => if hit d then Some (fresh_packet (type d) pkt length repeats (un d) :: l)
              else (d ::.) <$> replace_first hit pkt length repeats l
  end.

Definition a_replace_or_add (w : which) (hit : Pending → bool) (t : PendingType) (pkt : list Z)
    (length repeats loco : Z) (a : Abs) : Abs :=
  match replace_first hit pkt length repeats (a_queue w a) with
  | Some l => a_with w l a
  | None => a_add w (fresh_packet t pkt length repeats (u16 loco)) a
  end.

Definition a_speed pkt length repeats loco :=
  a_replace_or_add High (λ d, locoId d =? loco) SPEED_PACKET pkt length repeats loco.

Definition a_function pkt length loco group (a : Abs) : Abs :=
  match function_type group with
  | None => a
  | Some t => a_replace_or_add Low (λ d, (locoId d =? loco) && bool_decide (type d = t))
                t pkt length 0 loco a
  end.

(** The packets an emergency stop discards. *)
Definition doomed (loco : Z) (d : Pending) : bool :=
  negb (bool_decide (type d = ACC_OFF_PACKET)) && ((loco =? 0) || (locoId d =? loco)).
Definition spared (loco : Z) (l : list Pending) : list Pending :=
  base.filter (λ d, doomed loco d = false) l.

Definition a_estop pkt length repeats loco (a : Abs) : Abs :=
  a_with High (fresh_packet SPEED_PACKET pkt length repeats 0 :: spared loco (a_high a)) a.

Definition acc_off (now : Z) (d : Pending) : Pending :=
  mkPending ACC_OFF_PACKET (packetLength d) (packetRepeat d) (gate_off (packet d))
    (u32 (now + delayOff d)).

(** A packet may go now: it is not a delayed accessory-off before its time
    and its loco is not the one of the packet before. *)
Definition sendable (now last : Z) (d : Pending) : bool :=
  negb (bool_decide (type d = ACC_OFF_PACKET) && (now <? startTime d)) &&
  (negb (tru (locoId d)) || negb (locoId d =? last)).

Fixpoint pick (ok : Pending → bool) (l : list Pending)
    : option (list Pending * Pending * list Pending) :=
  match l with
  | [] => None
  | d :: l => if ok d then Some ([], d, l)
              else '(l1, x, l2) ← pick ok l; Some (d :: l1, x, l2)
  end.

Definition sent_of (d : Pending) : Sent :=
  mkSent (packet d) (packetLength d) (if tru (locoId d) then 0 else packetRepeat d) (locoId d).

Definition a_internal (w : which) (now : Z) (a : Abs) : bool * Abs :=
  match pick (sendable now (a_last a)) (a_queue w a) with
  | None => (false, a)
  | Some (l1, d, l2) =>
    let a := mkAbs (a_high a) (a_low a) (locoId d) (sent_of d :: a_sent a) in
    (true,
     if tru (locoId d) && tru (packetRepeat d)
     then a_with w (l1 ++ with_repeat (packetRepeat d - 1) d :: l2) a
     else
       let a := a_with w (l1 ++ l2) a in
       if decide (type d = ACC_ON_PACKET)
       then a_with High (acc_off now d :: a_high a) a else a)
  end.

Definition a_scheduleNext (force : bool) (now : Z) (a : Abs) : bool * Abs :=
  let '(b, a) := a_internal High now a in
  if b then (true, a) else
  let '(b, a) := a_internal Low now a in
  if b then (true, a) else
  if force then (true, mkAbs (a_high a) (a_low a) 0 (mkSent idlePacket 2 0 0 :: a_sent a))
  else (false, a).

(** ** The calls of the class as one type *)

Inductive op :=
  | OpPacket (pkt : list Z) (length repeats loco : Z)
  | OpSpeed (pkt : list Z) (length repeats loco : Z)
  | OpFunction (pkt : list Z) (length loco group : Z)
  | OpEstop (pkt : list Z) (length repeats loco : Z)
  | OpAcc (pkt : list Z) (length repeats delayms : Z)
  | OpNext (force : bool) (now : Z).

Definition run_op (o : op) (s : St) : option (bool * St) :=
  match o with
  | OpPacket pkt n r l => s ← scheduleDCCPacket pkt n r l s; Some (true, s)
  | OpSpeed pkt n r l => s ← scheduleDCCSpeedPacket pkt n r l s; Some (true, s)
  | OpFunction pkt n l g => s ← scheduleDCCFunctionPacket pkt n l g s; Some (true, s)
  | OpEstop pkt n r l => s ← scheduleEstopPacket pkt n r l s; Some (true, s)
  | OpAcc pkt n r dl => s ← scheduleAccOnOffPacket pkt n r dl s; Some (true, s)
  | OpNext f now => scheduleNext f now s
  end.

Definition a_op (o : op) (a : Abs) : bool * Abs :=
  match o with
  | OpPacket pkt n r l => (true, a_add Low (fresh_packet NORMAL_PACKET pkt n r (u16 l)) a)
  | OpSpeed pkt n r l => (true, a_speed pkt n r l a)
  | OpFunction pkt n l g => (true, a_function pkt n l g a)
  | OpEstop pkt n r l => (true, a_estop pkt n r l a)
  | OpAcc pkt n r dl => (true, a_add Low (fresh_packet ACC_ON_PACKET pkt n r (u16 dl)) a)
  | OpNext f now => a_scheduleNext f now a
  end.

(** The caller's side of the contract: the length is that of a packet of at
    most [MAX_PACKET_SIZE] bytes, the array holds that many, and the loco
    argument is a [uint16_t]. *)
Definition packet_ok (pkt : list Z) (n : Z) : Prop :=
  0 <= n <= MAX_PACKET_SIZE ∧ n <= Z.of_nat (length pkt).
Definition op_ok (o : op) : Prop :=
  match o with
  | OpPacket pkt n _ l | OpSpeed pkt n _ l | OpFunction pkt n l _ | OpEstop pkt n _ l =>
    packet_ok pkt n ∧ is_u16 l
  | OpAcc pkt n _ _ => packet_ok pkt n
  | OpNext _ _ => True
  end.

(** A program of calls. *)
Fixpoint run (os : list op) (s : St) : option St :=
  match os with [] => Some s | o :: os => '(_, s) ← run_op o s; run os s end.
Fixpoint a_run (os : list op) (a : Abs) : Abs :=
  match os with [] => a | o :: os => a_run os (a_op o a).2 end.

(** * The representation of the queues by the store *)

(** The three chains of the store. *)
Inductive idx := Q (w : which) | Rec.
#[export] Instance which_eq_dec : EqDecision which.
Proof. solve_decision. Defined.
#[export] Instance idx_eq_dec : EqDecision idx.
Proof. solve_decision. Defined.

Definition root (s : St) (i : idx) : option ptr :=
  match i with Q w => head (queue w s) | Rec => recycleList s end.
Definition upd (L : idx → list ptr) (i : idx) (l : list ptr) : idx → list ptr :=
  λ j, if decide (i = j) then l else L j.
Definition all_slots (L : idx → list ptr) (fl : list ptr) : list ptr :=
  L (Q High) ++ L (Q Low) ++ L Rec ++ fl.

(** [view s L fl]: chain [i] of the store visits [L i], the slots [fl] are in
    no chain, and these are all the slots there are. *)
Record view (s : St) (L : idx → list ptr) (fl : list ptr) : Prop := {
  v_chain : ∀ i, chain (heap s) (root s i) (L i);
  v_tail : ∀ w, tail (queue w s) = last (L (Q w));
  v_nodup : NoDup (all_slots L fl);
  v_dom : ∀ x, is_Some (heap s !! x) ↔ x ∈ all_slots L fl;
  v_len : ∀ x c, heap s !! x = Some c → length (packet (pend c)) = 5%nat;
  v_created : created s = i16 (Z.of_nat (size (heap s)));
  v_leak : Z.of_nat (size (heap s)) <= 32768 → leakSeen s = false;
}.

(** The packet data at a pointer, and the data of a sequence of slots. *)
Definition pdata (h : gmap ptr PendingSlot) (x : ptr) : option Pending := pend <$> h !! x.
Definition holds (h : gmap ptr PendingSlot) (l : list ptr) (ds : list Pending) : Prop :=
  Forall2 (λ x d, pdata h x = Some d) l ds.

Definition rep (s : St) (a : Abs) : Prop :=
  ∃ L D, view s L [] ∧ (∀ w, holds (heap s) (L (Q w)) (D w)) ∧
    (∀ w, a_queue w a = norm <$> D w) ∧
    lastSentPacketLocoId s = a_last a ∧ sent s = a_sent a.

Lemma rep_init : rep init a_init.
Proof.
  exists (λ _, []), (λ _, []). split; [|split; [|split; [|done]]].
  - split; try done.
    + by intros [[]|].
    + by intros [].
    + constructor.
    + intros x. split; [by intros [? ?]|]. by intros ?%elem_of_nil.
  - intros w. constructor.
  - by intros [].
Qed.

Lemma holds_ext h h' l ds :
  (∀ x, x ∈ l → pdata h' x = pdata h x) → holds h l ds → holds h' l ds.
Proof.
  intros Hext Hh. induction Hh as [|x d l ds Hx Hh IH]; constructor.
  - rewrite Hext; [done|set_solver].
  - apply IH. intros y Hy. apply Hext. set_solver.
Qed.

(** ** Moving slots between the chains *)

Lemma pdata_dom h h' : (∀ x, pdata h' x = pdata h x) → ∀ x, is_Some (h' !! x) ↔ is_Some (h !! x).
Proof.
  intros Hd x. specialize (Hd x). unfold pdata in Hd.
  destruct (h' !! x), (h !! x); simplify_eq/=; split; intros [? ?]; eauto; done.
Qed.

Lemma pdata_size h h' : (∀ x, pdata h' x = pdata h x) → size h' = size h.
Proof.
  intros Hd. rewrite <-!size_dom. f_equal. apply set_eq. intros x.
  rewrite !elem_of_dom. by apply pdata_dom.
Qed.

Lemma pdata_set_next h p c n x :
  h !! p = Some c → pdata (<[p := mkSlot n (pend c)]> h) x = pdata h x.
Proof.
  intros Hp. unfold pdata. destruct (decide (p = x)) as [->|].
  - by rewrite lookup_insert_eq, Hp.
  - by rewrite lookup_insert_ne.
Qed.

Lemma upd_same L i l : upd L i l i = l.
Proof. unfold upd. by rewrite decide_True. Qed.
Lemma upd_other L i j l : i ≠ j → upd L i l j = L j.
Proof. intros. unfold upd. by rewrite decide_False. Qed.

Lemma all_slots_elem L fl x : x ∈ all_slots L fl ↔ (∃ i, x ∈ L i) ∨ x ∈ fl.
Proof.
  unfold all_slots. rewrite !elem_of_app. split.
  - intros [H|[H|[H|H]]]; eauto.
  - intros [[[[]|] H]|H]; auto.
Qed.

(** Moving slots between chain [i] and the free-standing ones. *)
Lemma all_slots_upd L i l fl fl' :
  l ++ fl' ≡ₚ L i ++ fl → all_slots (upd L i l) fl' ≡ₚ all_slots L fl.
Proof.
  intros Hp. unfold all_slots. destruct i as [[]|].
  - rewrite upd_same, !upd_other by done.
    transitivity ((L (Q Low) ++ L Rec) ++ l ++ fl'); [solve_Permutation|]. rewrite Hp. solve_Permutation.
  - rewrite upd_same, !upd_other by done.
    transitivity ((L (Q High) ++ L Rec) ++ l ++ fl'); [solve_Permutation|]. rewrite Hp. solve_Permutation.
  - rewrite upd_same, !upd_other by done. by rewrite Hp.
Qed.

Lemma view_disj s L fl i j x : view s L fl → x ∈ L i → i ≠ j → x ∉ L j.
Proof.
  intros V Hi Hij Hj. pose proof (v_nodup _ _ _ V) as Hn. unfold all_slots in Hn.
  rewrite !NoDup_app in Hn. destruct Hn as (_ & H1 & _ & H2 & _).
  specialize (H1 x). specialize (H2 x). rewrite !elem_of_app in H1. rewrite elem_of_app in H2.
  destruct i as [[]|], j as [[]|]; try done; tauto.
Qed.

Lemma view_float s L fl i x : view s L fl → x ∈ fl → x ∉ L i.
Proof.
  intros V Hf Hi. pose proof (v_nodup _ _ _ V) as Hn. unfold all_slots in Hn.
  rewrite !NoDup_app in Hn. destruct Hn as (_ & H1 & _ & H2 & _ & H3 & _).
  specialize (H1 x). specialize (H2 x). specialize (H3 x).
  rewrite !elem_of_app in H1. rewrite elem_of_app in H2. destruct i as [[]|]; tauto.
Qed.

Lemma view_cell s L fl x : view s L fl → (∃ i, x ∈ L i) ∨ x ∈ fl → ∃ c, heap s !! x = Some c.
Proof. intros V Hx. apply V. by apply all_slots_elem. Qed.

Ltac perm := simpl; repeat match goal with
  | |- context [?x :: ?l] =>
    lazymatch l with nil => fail | _ => change (x :: l) with ([x] ++ l) end
  end; solve_Permutation.

(** Nothing but the links of the chains changed. *)
Record same (s s' : St) : Prop := {
  same_data : ∀ x, pdata (heap s') x = pdata (heap s) x;
  same_last : lastSentPacketLocoId s' = lastSentPacketLocoId s;
  same_sent : sent s' = sent s;
}.

Lemma same_refl s : same s s.
Proof. by split. Qed.
Lemma same_trans s1 s2 s3 : same s1 s2 → same s2 s3 → same s1 s3.
Proof.
  intros [D1 L1 S1] [D2 L2 S2]. split; [|congruence|congruence].
  intros x. by rewrite D2, D1.
Qed.

(** Relinking chain [i]: only cells of it and free-standing ones are written,
    and the other chains keep their roots. *)
Lemma view_relink s s' L fl i l' fl' :
  view s L fl → same s s' →
  created s' = created s → leakSeen s' = leakSeen s →
  (∀ j x, j ≠ i → x ∈ L j → heap s' !! x = heap s !! x) →
  (∀ j, j ≠ i → root s' j = root s j) →
  (∀ w, Q w ≠ i → tail (queue w s') = tail (queue w s)) →
  chain (heap s') (root s' i) l' →
  (∀ w, Q w = i → tail (queue w s') = last l') →
  l' ++ fl' ≡ₚ L i ++ fl →
  view s' (upd L i l') fl'.
Proof.
  intros V [Hd _ _] Hcr Hlk Hout Hroot Htl Hch Htl' Hp. split.
  - intros j. destruct (decide (i = j)) as [<-|Hj]; [by rewrite upd_same|].
    rewrite upd_other by done. rewrite Hroot by done.
    eapply chain_ext; [|apply V]. intros x Hx. by rewrite (Hout j).
  - intros w. destruct (decide (i = Q w)) as [->|Hj].
    + rewrite upd_same. by apply Htl'.
    + rewrite upd_other by done. rewrite Htl by done. apply V.
  - rewrite (all_slots_upd _ _ _ _ _ Hp). apply V.
  - intros x. rewrite (pdata_dom _ _ Hd), (all_slots_upd _ _ _ _ _ Hp). apply V.
  - intros x c' Hx. specialize (Hd x). unfold pdata in Hd. rewrite Hx in Hd. simpl in Hd.
    destruct (heap s !! x) as [c|] eqn:E; simplify_eq/=.
    replace (pend c') with (pend c) by congruence. by eapply V.
  - rewrite Hcr, (pdata_size _ _ Hd). apply V.
  - rewrite Hlk, (pdata_size _ _ Hd). apply V.
Qed.

(** Projections of the state updates. *)
Lemma heap_with_queue w q s : heap (with_queue w q s) = heap s.
Proof. by destruct w. Qed.
Lemma queue_with_queue w q s : queue w (with_queue w q s) = q.
Proof. by destruct w. Qed.
Lemma root_with_queue w q s j : j ≠ Q w → root (with_queue w q s) j = root s j.
Proof. destruct w, j as [[]|]; done. Qed.
Lemma tail_with_queue w w' q s : Q w' ≠ Q w → tail (queue w' (with_queue w q s)) = tail (queue w' s).
Proof. by destruct w, w'. Qed.
Lemma created_with_queue w q s : created (with_queue w q s) = created s.
Proof. by destruct w. Qed.
Lemma leak_with_queue w q s : leakSeen (with_queue w q s) = leakSeen s.
Proof. by destruct w. Qed.
Lemma same_with_queue w q s : same s (with_queue w q s).
Proof. by destruct w; split. Qed.
Lemma queue_store w p c s : queue w (store p c s) = queue w s.
Proof. by destruct w. Qed.
Lemma root_store i p c s : root (store p c s) i = root s i.
Proof. by destruct i as [[]|]. Qed.
Lemma heap_store p c s : heap (store p c s) = <[p := c]> (heap s).
Proof. done. Qed.
Lemma created_store p c s : created (store p c s) = created s.
Proof. done. Qed.
Lemma leak_store p c s : leakSeen (store p c s) = leakSeen s.
Proof. done. Qed.
Lemma same_set_next p c n s :
  heap s !! p = Some c → same s (store p (mkSlot n (pend c)) s).
Proof. intros Hp. split; [|done..]. intros x. by apply pdata_set_next. Qed.

Lemma set_next_eq p c n s :
  heap s !! p = Some c → set_next p n s = Some (store p (mkSlot n (pend c)) s).
Proof. intros Hp. unfold set_next, load. by rewrite Hp. Qed.

#[local] Hint Rewrite heap_with_queue queue_with_queue created_with_queue leak_with_queue
  queue_store root_store heap_store created_store leak_store : cs.
Ltac proj := autorewrite with cs; simpl; autorewrite with cs; simpl.

Lemma same_store s s1 p c n :
  same s s1 → heap s1 !! p = Some c → same s (store p (mkSlot n (pend c)) s1).
Proof. intros. eapply same_trans; [done|by apply same_set_next]. Qed.
Lemma same_queue s s1 w q : same s s1 → same s (with_queue w q s1).
Proof. intros. eapply same_trans; [done|by apply same_with_queue]. Qed.
Lemma same_recycle s s1 r : same s s1 → same s (with_recycle r s1).
Proof. intros [? ? ?]. by split. Qed.
Ltac solve_same := repeat first [apply same_refl | eassumption
  | apply same_queue | apply same_recycle
  | eapply same_store; [|by proj; simplify_map_eq] ].

(** The obligations of [view_relink] that follow from the state updates. *)
Ltac relink V := eapply (view_relink _ _ _ _ _ _ _ V);
  [ solve_same | by proj | by proj | | | | | | ].

Lemma addQueue_spec w p s L fl :
  view s L (p :: fl) →
  ∃ s', addQueue w p s = Some s' ∧ view s' (upd L (Q w) (L (Q w) ++ [p])) fl ∧ same s s'.
Proof.
  intros V.
  assert (∀ i, p ∉ L i) as Hfl by (intros i; eapply view_float; [done|set_solver]).
  destruct (view_cell _ _ _ p V) as [cp Hp]; [set_solver|].
  pose proof (v_chain _ _ _ V (Q w)) as Hch. simpl in Hch.
  unfold addQueue. rewrite (v_tail _ _ _ V). destruct (last (L (Q w))) as [t|] eqn:Hlast.
  - assert (t ∈ L (Q w)) as Ht by (apply last_Some in Hlast as [? ->]; set_solver).
    assert (t ≠ p) as Htp by (intros ->; by apply (Hfl (Q w))).
    destruct (view_cell _ _ _ t V) as [ct Hct]; [eauto|].
    rewrite (set_next_eq _ _ _ _ Hct). simpl.
    rewrite (set_next_eq p cp) by (proj; by rewrite lookup_insert_ne).
    eexists. split; [done|]. split; [relink V|solve_same].
    + intros j x Hj Hx. proj. rewrite !lookup_insert_ne; [done| |].
      * intros ->. by eapply (view_disj _ _ _ (Q w) j).
      * intros ->. by apply (Hfl j).
    + intros j Hj. proj. by rewrite root_with_queue, root_store.
    + intros w' Hw. proj. rewrite tail_with_queue by done. by proj.
    + proj. rewrite insert_insert_ne by done.
      pose proof (λ h, chain_snoc h (head (queue w s)) (L (Q w)) t ct p) as Hsn. simpl in Hsn.
      apply Hsn; [done|by rewrite lookup_insert_ne|apply Hfl|by rewrite lookup_insert_eq|].
      by apply chain_insert_ne.
    + intros w' [= ->]. proj. by rewrite last_snoc.
    + solve_Permutation.
  - apply last_None in Hlast. simpl.
    rewrite (set_next_eq p cp) by (by proj). eexists. split; [done|].
    split; [relink V|solve_same].
    + intros j x Hj Hx. proj. rewrite !lookup_insert_ne; [done|]. intros ->. by apply (Hfl j).
    + intros j Hj. proj. by rewrite !root_with_queue.
    + intros w' Hw. proj. by rewrite !tail_with_queue.
    + proj. rewrite Hlast. simpl. split; [done|]. eexists. by rewrite lookup_insert_eq.
    + intros w' [= ->]. proj. by rewrite last_snoc.
    + rewrite Hlast. solve_Permutation.
Qed.

Lemma jumpQueue_spec w p s L fl :
  view s L (p :: fl) →
  ∃ s', jumpQueue w p s = Some s' ∧ view s' (upd L (Q w) (p :: L (Q w))) fl ∧ same s s'.
Proof.
  intros V.
  assert (∀ i, p ∉ L i) as Hfl by (intros i; eapply view_float; [done|set_solver]).
  destruct (view_cell _ _ _ p V) as [cp Hp]; [set_solver|].
  pose proof (v_chain _ _ _ V (Q w)) as Hch. simpl in Hch.
  unfold jumpQueue. rewrite (set_next_eq p cp) by done. simpl. proj.
  pose proof (v_tail _ _ _ V w) as Htl.
  assert (chain (<[p := mkSlot (head (queue w s)) (pend cp)]> (heap s)) (Some p) (p :: L (Q w))) as Hnew
    by exact (chain_push (heap s) (head (queue w s)) (L (Q w)) p cp (Hfl _) Hch).
  eexists. split; [done|]. split; [|destruct (tail (queue w s)); solve_same].
  rewrite Htl. destruct (last (L (Q w))) as [t|] eqn:Hlast; relink V.
  all: try (intros j x Hj Hx; proj; rewrite lookup_insert_ne; [done|]; intros ->; by apply (Hfl j)).
  all: try (intros j Hj; proj; by rewrite !root_with_queue, ?root_store).
  all: try (intros w' Hw; proj; by rewrite !tail_with_queue by done; proj).
  all: try (proj; exact Hnew).
  all: try solve_Permutation.
  - intros w' [= ->]. proj. by rewrite last_cons, Hlast.
  - intros w' [= ->]. proj. apply last_None in Hlast. by rewrite Hlast.
Qed.

Lemma recycle_spec p s L fl :
  view s L (p :: fl) →
  ∃ s', recycle p s = Some s' ∧ view s' (upd L Rec (p :: L Rec)) fl ∧ same s s'.
Proof.
  intros V.
  assert (∀ i, p ∉ L i) as Hfl by (intros i; eapply view_float; [done|set_solver]).
  destruct (view_cell _ _ _ p V) as [cp Hp]; [set_solver|].
  unfold recycle. rewrite (set_next_eq p cp) by done. simpl.
  eexists. split; [done|]. split; [relink V|solve_same].
  - intros j x Hj Hx. proj. rewrite lookup_insert_ne; [done|]. intros ->. by apply (Hfl j).
  - intros [[]|] Hj; done.
  - by intros [] Hw.
  - exact (chain_push (heap s) (recycleList s) (L Rec) p cp (Hfl _) (v_chain _ _ _ V Rec)).
  - done.
  - solve_Permutation.
Qed.

(** A relinking keeps the links and roots it does not name. *)
Lemma out_ne s s' L fl i y c :
  view s L fl → y ∈ L i → heap s' = <[y := c]> (heap s) →
  ∀ j x, j ≠ i → x ∈ L j → heap s' !! x = heap s !! x.
Proof.
  intros V Hy -> j x Hj Hx. rewrite lookup_insert_ne; [done|]. intros ->.
  by eapply (view_disj _ _ _ i j).
Qed.

Lemma last_mid {A} (l1 l2 : list A) (x : A) : NoDup (l1 ++ x :: l2) →
  last (l1 ++ x :: l2) = Some x ↔ l2 = [].
Proof.
  intros Hn. destruct (decide (l2 = [])) as [->|Hl2]; [by rewrite last_snoc|].
  destruct (exists_last Hl2) as (l & z & ->).
  replace (l1 ++ x :: l ++ [z]) with ((l1 ++ x :: l) ++ [z]) by (by rewrite <-app_assoc).
  rewrite last_snoc. split; [|by destruct l].
  intros [= ->]. rewrite NoDup_app, NoDup_cons in Hn. set_solver.
Qed.

(** The slot is found: it is unlinked from its predecessor, the last of [pre]. *)
Lemma remove_here w x c s L fl pre l2 fuel :
  view s L fl → L (Q w) = pre ++ x :: l2 → heap s !! x = Some c →
  ∃ s', remove_loop (S fuel) w x (last pre) (Some x) s = Some s' ∧
    view s' (upd L (Q w) (pre ++ l2)) (x :: fl) ∧ same s s'.
Proof.
  intros V HL Hx. pose proof (v_chain _ _ _ V (Q w)) as Hch. rewrite HL in Hch. simpl in Hch.
  pose proof (v_tail _ _ _ V w) as Htl. rewrite HL in Htl.
  pose proof (last_mid _ _ _ (chain_NoDup _ _ _ Hch)) as Hlast. rewrite <-Htl in Hlast.
  assert (last (pre ++ l2) = if decide (tail (queue w s) = Some x) then last pre else tail (queue w s))
    as Hnew.
  { case_decide as Ht.
    - apply Hlast in Ht as ->. by rewrite app_nil_r.
    - destruct (decide (l2 = [])) as [?%Hlast|Hl2]; [done|].
      destruct (exists_last Hl2) as (l & z & ->). rewrite Htl, app_comm_cons.
      by rewrite !app_assoc, !last_snoc. }
  simpl. unfold load. rewrite Hx. simpl. rewrite decide_True by done.
  destruct (last pre) as [y|] eqn:Hpre.
  - apply last_Some in Hpre as [pre' ->]. rewrite <-app_assoc in *. simpl in *.
    assert (y ∈ L (Q w)) as Hy by (rewrite HL; set_solver).
    destruct (view_cell _ _ _ y V) as [cy Hcy]; [eauto|].
    rewrite (set_next_eq _ _ _ _ Hcy). simpl. proj.
    pose proof (chain_unlink (heap s) (head (queue w s)) pre' y cy x c l2 Hcy Hx Hch) as Hun.
    eexists. split; [done|]. split; [|case_decide; solve_same].
    case_decide as Ht; relink V.
    all: try (eapply (out_ne _ _ _ _ (Q w) y); [done..|by proj]).
    all: try (intros j Hj; proj; by rewrite ?root_with_queue, ?root_store).
    all: try (intros w' Hw; proj; by rewrite ?tail_with_queue by done; proj).
    all: try (proj; exact Hun).
    all: try (rewrite HL; perm).
    all: intros w0 [= ->]; rewrite Hnew; autorewrite with cs; by rewrite ?last_snoc.
  - apply last_None in Hpre as ->. simpl in *.
    pose proof (chain_unlink_head (heap s) x c l2 Hx) as Hun.
    destruct Hch as [Hroot Hch']. specialize (Hun (conj eq_refl Hch')).
    proj. eexists. split; [done|]. split; [|case_decide; solve_same].
    case_decide as Ht; relink V.
    all: try (intros j x' Hj Hx'; by proj).
    all: try (intros j Hj; proj; by rewrite ?root_with_queue by done).
    all: try (intros w' Hw; proj; by rewrite ?tail_with_queue by done).
    all: try (proj; exact Hun).
    all: try (rewrite HL; perm).
    all: intros w0 [= ->]; rewrite Hnew; autorewrite with cs; by rewrite ?last_snoc.
Qed.

Lemma remove_loop_spec w x s L fl l2 : ∀ rest pre p fuel,
  view s L fl → L (Q w) = pre ++ rest ++ x :: l2 → x ∉ rest →
  chain (heap s) p (rest ++ x :: l2) → (length rest < fuel)%nat →
  ∃ s', remove_loop fuel w x (last pre) p s = Some s' ∧
    view s' (upd L (Q w) (pre ++ rest ++ l2)) (x :: fl) ∧ same s s'.
Proof.
  induction rest as [|y rest IH]; intros pre p fuel V HL Hx Hch Hf; simpl in *.
  - destruct Hch as [-> (c & Hc & _)]. destruct fuel; [lia|]. by eapply remove_here.
  - destruct Hch as [-> (c & Hc & Hch)]. destruct fuel; [lia|]. simpl. unfold load.
    rewrite Hc. simpl. apply not_elem_of_cons in Hx as [Hxy Hx]. rewrite decide_False by done.
    destruct (IH (pre ++ [y]) (next c) fuel) as (s' & Hr & Hv & Hs); [done| |done|done|lia|].
    + by rewrite <-app_assoc.
    + exists s'. rewrite last_snoc in Hr. rewrite <-app_assoc in Hv. done.
Qed.

Lemma remove_spec w x s L fl l1 l2 :
  view s L fl → L (Q w) = l1 ++ x :: l2 →
  ∃ s', remove w x s = Some s' ∧ view s' (upd L (Q w) (l1 ++ l2)) (x :: fl) ∧ same s s'.
Proof.
  intros V HL. pose proof (v_chain _ _ _ V (Q w)) as Hch. rewrite HL in Hch. simpl in Hch.
  apply (remove_loop_spec w x s L fl l2 l1 []); try done.
  - apply chain_NoDup, NoDup_app in Hch as (_ & Hn & _). intros Hx. apply (Hn x); set_solver.
  - apply chain_length in Hch. rewrite length_app in Hch. simpl in Hch. lia.
Qed.

(** ** Obtaining a slot *)

Lemma count_loop_spec h p l : ∀ n fuel, chain h p l → (length l < fuel)%nat → is_i16 n →
  count_loop fuel h p n = Some (i16 (n + Z.of_nat (length l))).
Proof.
  revert p. induction l as [|x l IH]; intros p n fuel Hch Hf Hn; (destruct fuel; [lia|]); simpl.
  - simpl in Hch. subst p. simpl. by rewrite Z.add_0_r, i16_id.
  - destruct Hch as [-> (c & Hc & Hl)]. simpl in *. rewrite Hc. simpl.
    rewrite IH by (done || lia || apply i16_range). f_equal. zlia.
Qed.

Lemma view_size s L fl : view s L fl → size (heap s) = length (all_slots L fl).
Proof.
  intros V. rewrite <-size_dom.
  replace (dom (heap s)) with (list_to_set (all_slots L fl) : gset ptr).
  - apply size_list_to_set. apply V.
  - apply set_eq. intros x. rewrite elem_of_list_to_set, elem_of_dom. symmetry. apply V.
Qed.

Lemma memcpy_packet_ok dst src n : packet_ok src n → length dst = 5%nat →
  ∃ pk, memcpy_packet dst src n = Some pk ∧ length pk = 5%nat ∧
    take (Z.to_nat n) pk = take (Z.to_nat n) src.
Proof.
  unfold packet_ok, MAX_PACKET_SIZE, memcpy_packet. intros [Hn Hs] Hd. rewrite Hd.
  rewrite !(proj2 (Z.leb_le _ _)) by lia. simpl. eexists. split; [done|]. split.
  - rewrite length_app, length_take, length_drop. lia.
  - rewrite take_app_le by (rewrite length_take; lia). rewrite take_take. f_equal. lia.
Qed.

(** Overwriting a free-standing or chained cell but not its link. *)
Lemma view_set_data s L fl x c d :
  view s L fl → heap s !! x = Some c → length (packet d) = 5%nat →
  view (store x (mkSlot (next c) d) s) L fl.
Proof.
  intros V Hx Hd. split; proj.
  - intros i. proj. eapply chain_insert_nx; [done|done|apply V].
  - intros w. proj. apply V.
  - apply V.
  - intros y. rewrite <-(v_dom _ _ _ V). destruct (decide (x = y)) as [->|].
    + rewrite lookup_insert_eq. naive_solver.
    + by rewrite lookup_insert_ne.
  - intros y c'. destruct (decide (x = y)) as [->|].
    + rewrite lookup_insert_eq. by intros [= <-].
    + rewrite lookup_insert_ne by done. apply V.
  - rewrite map_size_insert_Some by done. apply V.
  - rewrite map_size_insert_Some by done. apply V.
Qed.

(** A free-standing cell may be given any link. *)
Lemma view_float_store s L fl x c : view s L fl → x ∈ fl → length (packet (pend c)) = 5%nat →
  view (store x c s) L fl.
Proof.
  intros V Hx Hd. destruct (view_cell _ _ _ x V) as [c0 Hc0]; [eauto|].
  pose proof (view_set_data _ _ _ _ _ (pend c) V Hc0 Hd) as V'. split; proj; try apply V'.
  - intros i. proj. apply chain_insert_ne; [by eapply view_float|apply V].
  - intros y. rewrite <-(v_dom _ _ _ V'). proj. destruct (decide (x = y)) as [->|].
    + rewrite !lookup_insert_eq. split; eauto.
    + by rewrite !lookup_insert_ne.
  - intros y c'. destruct (decide (x = y)) as [->|].
    + rewrite lookup_insert_eq. by intros [= <-].
    + rewrite lookup_insert_ne by done. apply V.
  - rewrite map_size_insert_Some by done. apply V.
  - rewrite map_size_insert_Some by done. apply V.
Qed.

(** The first part of getSlot: a slot from the free list or a new one. *)
Lemma slot_source s L :
  view s L [] →
  ∃ p s' L', obtainSlot s = Some (p, s') ∧
    view s' L' [p] ∧ (∀ w, L' (Q w) = L (Q w)) ∧
    (∀ x, x ≠ p → heap s' !! x = heap s !! x) ∧
    lastSentPacketLocoId s' = lastSentPacketLocoId s ∧ sent s' = sent s.
Proof.
  intros V. pose proof (v_chain _ _ _ V Rec) as Hrec. simpl in Hrec. unfold obtainSlot.
  destruct (recycleList s) as [p|] eqn:Er.
  - destruct (L Rec) as [|x lr] eqn:HL; [done|]. destruct Hrec as [[= <-] (c & Hc & Hch)].
    unfold load. rewrite Hc. simpl. eexists p, _, (upd L Rec lr). split; [done|].
    split; [|split; [|done]].
    + relink V; try done.
      all: try (intros [[]|]; done). all: try (by intros []).
      rewrite HL. perm.
    + intros w. by rewrite upd_other.
  - assert (L Rec = []) as HL by (destruct (L Rec); [done|by destruct Hrec]).
    assert (∀ w, chain (heap s) (head (queue w s)) (L (Q w)) ∧ (length (L (Q w)) < S (size (heap s)))%nat)
      as Hq.
    { intros w. pose proof (v_chain _ _ _ V (Q w)) as Hch. split; [done|].
      apply chain_length in Hch. lia. }
    destruct (Hq High) as [HcH HfH], (Hq Low) as [HcL HfL].
    erewrite !count_loop_spec by (done || zlia). simpl.
    set (p := fresh (dom (heap s))).
    assert (heap s !! p = None) as Hp by (apply not_elem_of_dom; apply is_fresh).
    assert (∀ j, p ∉ L j) as Hfl.
    { intros j Hj. destruct (view_cell _ _ _ p V) as [? ?]; [eauto|congruence]. }
    eexists p, _, L. split; [done|]. split; [|split; [done|split; [|done]]].
    + pose proof (view_size _ _ _ V) as Hsz. unfold all_slots in Hsz. rewrite HL in Hsz.
      rewrite !length_app in Hsz. simpl in Hsz.
      split; simpl; rewrite ?map_size_insert_None by done.
      * intros i. replace (root _ i) with (root s i) by (by destruct i as [[]|]).
        apply chain_insert_ne; [apply Hfl|apply V].
      * intros w. replace (queue w _) with (queue w s) by (by destruct w). apply V.
      * unfold all_slots. rewrite !app_assoc. apply NoDup_app. split; [|split].
        -- pose proof (v_nodup _ _ _ V) as Hn. unfold all_slots in Hn.
           by rewrite app_nil_r, app_assoc in Hn.
        -- intros x Hx ->%list_elem_of_singleton. rewrite !elem_of_app in Hx.
           destruct Hx as [[Hx|Hx]|Hx]; by eapply Hfl.
        -- apply NoDup_singleton.
      * intros x. destruct (decide (p = x)) as [<-|Hne].
        -- rewrite lookup_insert_eq, all_slots_elem. split; [set_solver|]. eauto.
        -- rewrite lookup_insert_ne, (v_dom _ _ _ V), !all_slots_elem by done. set_solver.
      * intros x c. destruct (decide (p = x)) as [<-|Hne].
        -- rewrite lookup_insert_eq. by intros [= <-].
        -- rewrite lookup_insert_ne by done. apply V.
      * rewrite (v_created _ _ _ V). zlia.
      * intros Hs. rewrite (v_leak _ _ _ V) by lia. simpl.
        apply negb_false_iff, Z.eqb_eq. rewrite (v_created _ _ _ V). zlia.
    + intros x Hx. simpl. by rewrite lookup_insert_ne.
Qed.

Lemma getSlot_spec t pkt n reps loco s L :
  view s L [] → packet_ok pkt n →
  ∃ p s' L' d, getSlot t pkt n reps loco s = Some (p, s') ∧
    view s' L' [p] ∧ (∀ w, L' (Q w) = L (Q w)) ∧
    heap s' !! p = Some (mkSlot None d) ∧ norm d = fresh_packet t pkt n reps (u16 loco) ∧
    (∀ x, x ≠ p → heap s' !! x = heap s !! x) ∧
    lastSentPacketLocoId s' = lastSentPacketLocoId s ∧ sent s' = sent s.
Proof.
  intros V Hok. destruct (slot_source _ _ V) as (p & s1 & L1 & Hsrc & V1 & HL & Hout & Hl & Hs).
  unfold getSlot. rewrite Hsrc. clear Hsrc. simpl.
  destruct (view_cell _ _ _ p V1) as [c Hc]; [set_solver|]. unfold load. rewrite Hc. simpl.
  replace (n >? MAX_PACKET_SIZE) with false by (destruct Hok; unfold MAX_PACKET_SIZE in *; lia).
  destruct (memcpy_packet_ok (packet (pend c)) pkt n Hok) as (pk & Hpk & Hlen & Htake);
    [by eapply (v_len _ _ _ V1)|]. rewrite Hpk. simpl.
  eexists p, _, L1, _. split; [done|]. split; [|split; [done|split; [|split; [|split; [|done]]]]].
  - apply view_float_store; [done|set_solver|done].
  - proj. by rewrite lookup_insert_eq.
  - unfold norm, fresh_packet, with_locoId. simpl. by rewrite Htake.
  - intros x Hx. proj. rewrite lookup_insert_ne by done. by apply Hout.
Qed.

(** ** The data along the chains *)

Definition updD (D : which → list Pending) (w : which) (l : list Pending) : which → list Pending :=
  λ w', if decide (w = w') then l else D w'.

Record frep (s : St) (L : idx → list ptr) (D : which → list Pending) (fl : list ptr) : Prop := {
  f_view : view s L fl;
  f_holds : ∀ w, holds (heap s) (L (Q w)) (D w);
}.

Lemma rep_intro s L D a :
  frep s L D [] → (∀ w, a_queue w a = norm <$> D w) →
  lastSentPacketLocoId s = a_last a → sent s = a_sent a → rep s a.
Proof. intros [V H] ? ? ?. by exists L, D. Qed.

Lemma rep_elim s a : rep s a → ∃ L D, frep s L D [] ∧ (∀ w, a_queue w a = norm <$> D w) ∧
  lastSentPacketLocoId s = a_last a ∧ sent s = a_sent a.
Proof. intros (L & D & V & H & ?). exists L, D. by split; [split|]. Qed.

Lemma a_queue_with w w' l a : a_queue w' (a_with w l a) = if decide (w = w') then l else a_queue w' a.
Proof. by destruct w, w'. Qed.

Lemma updD_norm (D : which → list Pending) w l a w' :
  (∀ w, a_queue w a = norm <$> D w) →
  a_queue w' (a_with w (norm <$> l) a) = norm <$> updD D w l w'.
Proof. intros H. rewrite a_queue_with. unfold updD. case_decide; [done|apply H]. Qed.

Lemma frep_set_data s L D fl w l1 x l2 d1 d0 d2 c d :
  frep s L D fl → L (Q w) = l1 ++ x :: l2 → D w = d1 ++ d0 :: d2 → length l1 = length d1 →
  heap s !! x = Some c → length (packet d) = 5%nat →
  frep (store x (mkSlot (next c) d) s) L (updD D w (d1 ++ d :: d2)) fl.
Proof.
  intros [V H] HL HD Hlen Hx Hd. split; [by apply view_set_data|].
  intros w'. unfold updD. case_decide as Hw.
  - subst w'. pose proof (chain_NoDup _ _ _ (v_chain _ _ _ V (Q w))) as Hn.
    specialize (H w). rewrite HL, HD in H. rewrite HL. rewrite HL in Hn. simpl in Hn.
    apply Forall2_app_inv in H as [H1 H2]; [|done].
    apply NoDup_app in Hn as (_ & Hn1 & Hn2). apply NoDup_cons in Hn2 as [Hn2 _].
    inversion H2 as [|? ? ? ? Hd0 H2']; subst.
    apply Forall2_app; [|constructor].
    + eapply holds_ext; [|exact H1]. intros y Hy. unfold pdata. proj.
      rewrite lookup_insert_ne; [done|]. intros ->. apply (Hn1 y); set_solver.
    + unfold pdata. proj. by rewrite lookup_insert_eq.
    + eapply holds_ext; [|exact H2']. intros y Hy. unfold pdata. proj.
      rewrite lookup_insert_ne; [done|]. by intros ->.
  - eapply holds_ext; [|apply H]. intros y Hy. unfold pdata. proj.
    rewrite lookup_insert_ne; [done|]. intros ->.
    eapply (view_disj s L fl (Q w) (Q w')); [done| |congruence|done]. rewrite HL. set_solver.
Qed.

(** A slot in front or at the end of a queue brings its packet there. *)
Lemma frep_join s s' L D fl w p d (front : bool) :
  frep s L D (p :: fl) → pdata (heap s) p = Some d → same s s' →
  view s' (upd L (Q w) (if front then p :: L (Q w) else L (Q w) ++ [p])) fl →
  frep s' (upd L (Q w) (if front then p :: L (Q w) else L (Q w) ++ [p]))
    (updD D w (if front then d :: D w else D w ++ [d])) fl.
Proof.
  intros [V H] Hp [Hd _ _] V'. split; [done|]. intros w'. unfold updD.
  assert (∀ w, holds (heap s') (L (Q w)) (D w)) as H'
    by (intros w0; eapply holds_ext; [|apply H]; auto).
  case_decide as Hw; [subst w'; rewrite upd_same|rewrite upd_other by congruence; apply H'].
  destruct front; [constructor; [by rewrite Hd|apply H']|].
  apply Forall2_app; [apply H'|]. repeat constructor. by rewrite Hd.
Qed.

Lemma frep_leave s s' L D fl w l1 x l2 d1 d d2 :
  frep s L D fl → L (Q w) = l1 ++ x :: l2 → D w = d1 ++ d :: d2 → length l1 = length d1 →
  same s s' → view s' (upd L (Q w) (l1 ++ l2)) (x :: fl) →
  frep s' (upd L (Q w) (l1 ++ l2)) (updD D w (d1 ++ d2)) (x :: fl).
Proof.
  intros [V H] HL HD Hlen [Hd _ _] V'. split; [done|]. intros w'. unfold updD.
  assert (∀ w, holds (heap s') (L (Q w)) (D w)) as H'
    by (intros w0; eapply holds_ext; [|apply H]; auto).
  case_decide as Hw; [subst w'; rewrite upd_same|rewrite upd_other by congruence; apply H'].
  specialize (H' w). rewrite HL, HD in H'. apply Forall2_app_inv in H' as [H1 H2]; [|done].
  inversion H2; subst. by apply Forall2_app.
Qed.

Lemma frep_recycled s s' L D fl x :
  frep s L D (x :: fl) → same s s' → view s' (upd L Rec (x :: L Rec)) fl →
  frep s' (upd L Rec (x :: L Rec)) D fl.
Proof.
  intros [V H] [Hd _ _] V'. split; [done|]. intros w. rewrite upd_other by done.
  eapply holds_ext; [|apply H]. auto.
Qed.

(** ** The scheduling calls *)

(** getSlot followed by joining a queue adds the packet. *)
Lemma getSlot_frep t pkt n reps loco s L D :
  frep s L D [] → packet_ok pkt n →
  ∃ p s' L' d, getSlot t pkt n reps loco s = Some (p, s') ∧ frep s' L' D [p] ∧
    heap s' !! p = Some (mkSlot None d) ∧ norm d = fresh_packet t pkt n reps (u16 loco) ∧
    lastSentPacketLocoId s' = lastSentPacketLocoId s ∧ sent s' = sent s.
Proof.
  intros [V H] Hok.
  destruct (getSlot_spec t pkt n reps loco s L V Hok)
    as (p & s' & L' & d & Hg & V' & HL & Hp & Hd & Hout & Hl & Hs).
  exists p, s', L', d. split; [done|]. split; [|done]. split; [done|].
  intros w. rewrite HL. eapply holds_ext; [|apply H]. intros x Hx. unfold pdata.
  rewrite Hout; [done|]. intros ->. eapply (view_float s' L' [p] (Q w) p V'); [set_solver|].
  by rewrite HL.
Qed.

Lemma add_rep w t pkt n reps loco s a :
  rep s a → packet_ok pkt n →
  ∃ s', ('(p, s) ← getSlot t pkt n reps loco s; addQueue w p s) = Some s' ∧
    rep s' (a_add w (fresh_packet t pkt n reps (u16 loco)) a).
Proof.
  intros (L & D & F & HQ & Hl & Hs)%rep_elim Hok.
  destruct (getSlot_frep t pkt n reps loco s L D F Hok) as (p & s1 & L1 & d & -> & F1 & Hp & Hd & Hl1 & Hs1).
  simpl. destruct (addQueue_spec w p s1 L1 [] (f_view _ _ _ _ F1)) as (s2 & Ha & V2 & S2).
  exists s2. split; [done|].
  assert (pdata (heap s1) p = Some d) as Hpd by (unfold pdata; by rewrite Hp).
  pose proof (frep_join s1 s2 L1 D [] w p d false F1 Hpd S2 V2) as F2.
  eapply rep_intro; [exact F2| |by rewrite (same_last _ _ S2), Hl1, Hl; destruct w
    |by rewrite (same_sent _ _ S2), Hs1, Hs; destruct w].
  intros w'. unfold a_add. rewrite <-Hd, HQ.
  change [norm d] with (norm <$> [d]). rewrite <-fmap_app. by apply updD_norm.
Qed.

(** Where the data of a suffix of a queue are. *)
Lemma frep_suffix s L D fl w pre l dpre ds :
  frep s L D fl → L (Q w) = pre ++ l → D w = dpre ++ ds → length pre = length dpre →
  holds (heap s) l ds.
Proof.
  intros [V H] HL HD Hlen. specialize (H w). rewrite HL, HD in H.
  by apply Forall2_app_inv in H as [_ ?].
Qed.

Lemma holds_cons_inv h x l ds : holds h (x :: l) ds →
  ∃ c ds', ds = pend c :: ds' ∧ h !! x = Some c ∧ holds h l ds'.
Proof.
  intros H. inversion H as [|? d ? ds' Hx H']; subst. unfold pdata in Hx.
  destruct (h !! x) as [c|] eqn:E; simplify_eq/=. eauto.
Qed.

Lemma replace_loop_spec w hit pkt n r L D s : ∀ l p pre dpre ds fuel,
  frep s L D [] → (∀ d, hit (norm d) = hit d) → packet_ok pkt n →
  chain (heap s) p l → L (Q w) = pre ++ l → D w = dpre ++ ds → length pre = length dpre →
  (length l < fuel)%nat →
  match replace_first hit pkt n r (norm <$> ds) with
  | None => replace_loop fuel hit pkt n r p s = Some (false, s)
  | Some k => ∃ s' k', replace_loop fuel hit pkt n r p s = Some (true, s') ∧
      frep s' L (updD D w (dpre ++ k')) [] ∧ k = norm <$> k' ∧
      lastSentPacketLocoId s' = lastSentPacketLocoId s ∧ sent s' = sent s
  end.
Proof.
  induction l as [|x l IH]; intros p pre dpre ds fuel F Hhit Hok Hch HL HD Hlen Hf;
    pose proof (frep_suffix _ _ _ _ _ _ _ _ _ F HL HD Hlen) as Hh; (destruct fuel; [simpl in *; lia|]).
  - inversion Hh; subst. simpl in *. by subst p.
  - apply holds_cons_inv in Hh as (c & ds' & -> & Hx & Hh').
    destruct Hch as [-> (c' & Hc' & Hch)]. assert (c' = c) as -> by congruence. simpl. unfold load. rewrite Hx. simpl.
    rewrite Hhit. destruct (hit (pend c)) eqn:E.
    + destruct (memcpy_packet_ok (packet (pend c)) pkt n Hok) as (pk & -> & Hpk & Htake).
      { eapply (v_len _ _ _ (f_view _ _ _ _ F)). exact Hx. }
      simpl. unfold set_pend, load. rewrite Hx. simpl.
      eexists _, (mkPending _ _ _ _ _ :: ds'). split; [done|]. split; [|split; [|done]].
      * by eapply frep_set_data.
      * rewrite fmap_cons. f_equal. unfold norm, fresh_packet. simpl. by rewrite Htake.
    + specialize (IH (next c) (pre ++ [x]) (dpre ++ [pend c]) ds' fuel F Hhit Hok Hch).
      rewrite <-!app_assoc, !length_app in IH. simpl in *.
      specialize (IH HL HD ltac:(lia) ltac:(lia)).
      change (list_fmap Pending Pending norm ds') with (norm <$> ds').
      destruct (replace_first hit pkt n r (norm <$> ds')) as [k|]; [|done].
      destruct IH as (s' & k' & Hr & F' & -> & ?). simpl.
      exists s', (pend c :: k'). rewrite <-app_assoc in F'. done.
Qed.

Lemma replace_or_add_rep w hit t pkt n r loco s a :
  rep s a → (∀ d, hit (norm d) = hit d) → packet_ok pkt n →
  ∃ s', ('(done, s) ← replace_loop (S (size (heap s))) hit pkt n r (head (queue w s)) s;
     if done : bool then Some s
     else '(p, s) ← getSlot t pkt n r loco s; addQueue w p s) = Some s' ∧
    rep s' (a_replace_or_add w hit t pkt n r loco a).
Proof.
  intros R Hhit Hok. pose proof R as (L & D & F & HQ & Hl & Hs)%rep_elim.
  pose proof (v_chain _ _ _ (f_view _ _ _ _ F) (Q w)) as Hch. simpl in Hch.
  pose proof (replace_loop_spec w hit pkt n r L D s (L (Q w)) (head (queue w s)) [] [] (D w)
    (S (size (heap s))) F Hhit Hok Hch eq_refl eq_refl eq_refl) as Hloop.
  specialize (Hloop ltac:(apply chain_length in Hch; lia)).
  unfold a_replace_or_add. rewrite HQ.
  destruct (replace_first hit pkt n r (norm <$> D w)) as [k|].
  - destruct Hloop as (s' & k' & -> & F' & -> & Hl' & Hs'). simpl. exists s'. split; [done|].
    eapply rep_intro; [exact F'|intros w'; by apply updD_norm|by rewrite Hl', Hl; destruct w
      |by rewrite Hs', Hs; destruct w].
  - rewrite Hloop. simpl. by apply add_rep.
Qed.

Lemma chain_root (h : gmap ptr PendingSlot) p l : chain h p l → p = hd_error l.
Proof. destruct l; simpl; [done|]. by intros [-> _]. Qed.

Lemma spared_cons loco d l :
  spared loco (d :: l) = if doomed loco d then spared loco l else d :: spared loco l.
Proof. unfold spared. rewrite filter_cons. by destruct (doomed loco d). Qed.

(** Removing and recycling one slot of the high priority queue. *)
Lemma drop_frep s L D l1 x l2 d1 d d2 :
  frep s L D [] → L (Q High) = l1 ++ x :: l2 → D High = d1 ++ d :: d2 → length l1 = length d1 →
  ∃ s' L', (s ← remove High x s; recycle x s) = Some s' ∧
    frep s' L' (updD D High (d1 ++ d2)) [] ∧ L' (Q High) = l1 ++ l2 ∧ same s s'.
Proof.
  intros F HL HD Hlen.
  destruct (remove_spec High x s L [] l1 l2 (f_view _ _ _ _ F) HL) as (s1 & -> & V1 & S1). simpl.
  pose proof (frep_leave _ _ _ _ _ _ _ _ _ _ _ _ F HL HD Hlen S1 V1) as F1.
  destruct (recycle_spec x s1 _ _ V1) as (s2 & -> & V2 & S2).
  pose proof (frep_recycled _ _ _ _ _ _ F1 S2 V2) as F2.
  eexists _, _. split; [done|]. split; [exact F2|]. split; [|by eapply same_trans].
  by rewrite upd_other, upd_same.
Qed.

Lemma estop_loop_spec loco : ∀ l p s L D kept dkept ds fuel,
  frep s L D [] → L (Q High) = kept ++ l → D High = dkept ++ ds → length kept = length dkept →
  chain (heap s) p l → (length l < fuel)%nat →
  ∃ s' L' D', estop_loop fuel loco p s = Some s' ∧ frep s' L' D' [] ∧ D' Low = D Low ∧
    norm <$> D' High = (norm <$> dkept) ++ spared loco (norm <$> ds) ∧
    lastSentPacketLocoId s' = lastSentPacketLocoId s ∧ sent s' = sent s.
Proof.
  induction l as [|x l IH]; intros p s L D kept dkept ds fuel F HL HD Hlen Hch Hf;
    pose proof (frep_suffix _ _ _ _ _ _ _ _ _ F HL HD Hlen) as Hh; (destruct fuel; [simpl in *; lia|]).
  - inversion Hh; subst. simpl in Hch. subst p. simpl. exists s, L, D.
    by rewrite HD, !app_nil_r.
  - apply holds_cons_inv in Hh as (c & ds' & -> & Hx & Hh').
    destruct Hch as [-> (c' & Hc' & Hch)]. assert (c' = c) as -> by congruence. simpl. unfold load. rewrite Hx. simpl.
    fold (doomed loco (pend c)). rewrite spared_cons.
    change (doomed loco (norm (pend c))) with (doomed loco (pend c)).
    destruct (doomed loco (pend c)) eqn:E.
    + destruct (drop_frep s L D kept x l dkept (pend c) ds' F HL HD Hlen) as (s1 & L1 & Hd & F1 & HL1 & S1).
      destruct (remove High x s) as [s0|]; [|done]. simpl in *. rewrite Hd. simpl.
      assert (chain (heap s1) (next c) l) as Hch1.
      { apply chain_root in Hch. simpl in Hch. rewrite Hch.
        pose proof (v_chain _ _ _ (f_view _ _ _ _ F1) (Q High)) as Hq. rewrite HL1 in Hq.
        destruct (chain_suffix _ _ _ _ Hq) as [q Hq']. by rewrite <-(chain_root _ _ _ Hq'). }
      destruct (IH (next c) s1 L1 _ kept dkept ds' fuel F1 HL1 eq_refl Hlen Hch1 ltac:(simpl in *; lia))
        as (s' & L' & D' & -> & F' & HLow & HHigh & Hl & Hs).
      exists s', L', D'. split; [done|]. split; [done|]. split; [done|]. split; [done|].
      by rewrite Hl, Hs, (same_last _ _ S1), (same_sent _ _ S1).
    + destruct (IH (next c) s L D (kept ++ [x]) (dkept ++ [pend c]) ds' fuel F)
        as (s' & L' & D' & -> & F' & HLow & HHigh & Hl & Hs); try done.
      * by rewrite <-app_assoc.
      * by rewrite <-app_assoc.
      * rewrite !length_app. simpl. lia.
      * simpl in *. lia.
      * exists s', L', D'. split; [done|]. split; [done|]. split; [done|]. split; [|done].
        by rewrite HHigh, fmap_app, <-app_assoc.
Qed.

Lemma estop_rep pkt n r loco s a :
  rep s a → packet_ok pkt n →
  ∃ s', scheduleEstopPacket pkt n r loco s = Some s' ∧ rep s' (a_estop pkt n r loco a).
Proof.
  intros (L & D & F & HQ & Hl & Hs)%rep_elim Hok.
  pose proof (v_chain _ _ _ (f_view _ _ _ _ F) (Q High)) as Hch. simpl in Hch.
  destruct (estop_loop_spec loco (L (Q High)) (head (high s)) s L D [] [] (D High)
    (S (size (heap s))) F eq_refl eq_refl eq_refl Hch)
    as (s1 & L1 & D1 & Hloop & F1 & HLow & HHigh & Hl1 & Hs1); [apply chain_length in Hch; lia|].
  unfold scheduleEstopPacket. rewrite Hloop. simpl. rewrite fmap_nil, app_nil_l in HHigh.
  destruct (getSlot_frep SPEED_PACKET pkt n r 0 s1 L1 D1 F1 Hok)
    as (p & s2 & L2 & d & -> & F2 & Hp & Hd & Hl2 & Hs2). simpl.
  destruct (jumpQueue_spec High p s2 L2 [] (f_view _ _ _ _ F2)) as (s3 & Hj & V3 & S3).
  exists s3. split; [done|].
  assert (pdata (heap s2) p = Some d) as Hpd by (unfold pdata; by rewrite Hp).
  pose proof (frep_join s2 s3 L2 D1 [] High p d true F2 Hpd S3 V3) as F3.
  eapply rep_intro; [exact F3| |by rewrite (same_last _ _ S3), Hl2, Hl1
    |by rewrite (same_sent _ _ S3), Hs2, Hs1].
  intros w. pose proof (HQ High) as HH. pose proof (HQ Low) as HLw. simpl in HH, HLw.
  unfold a_estop, updD. rewrite a_queue_with. case_decide; [|destruct w; [done|]; simpl; congruence].
  by rewrite fmap_cons, Hd, HHigh, HH.
Qed.

Lemma frep_float_store s L D fl p c :
  frep s L D fl → p ∈ fl → length (packet (pend c)) = 5%nat → frep (store p c s) L D fl.
Proof.
  intros [V H] Hp Hc. split; [by apply view_float_store|]. intros w.
  eapply holds_ext; [|apply H]. intros x Hx. unfold pdata. proj. rewrite lookup_insert_ne; [done|].
  intros ->. by eapply (view_float s L fl (Q w) x).
Qed.

Lemma acc_rep pkt n r dl s a :
  rep s a → packet_ok pkt n →
  ∃ s', scheduleAccOnOffPacket pkt n r dl s = Some s' ∧
    rep s' (a_add Low (fresh_packet ACC_ON_PACKET pkt n r (u16 dl)) a).
Proof.
  intros (L & D & F & HQ & Hl & Hs)%rep_elim Hok. unfold scheduleAccOnOffPacket.
  destruct (getSlot_frep ACC_ON_PACKET pkt n r 0 s L D F Hok)
    as (p & s1 & L1 & d & -> & F1 & Hp & Hd & Hl1 & Hs1). simpl.
  unfold load, set_pend. rewrite Hp. simpl. unfold load. rewrite Hp. simpl.
  set (d' := with_locoId dl d).
  assert (length (packet d') = 5%nat) as Hd5
    by exact (v_len _ _ _ (f_view _ _ _ _ F1) _ _ Hp).
  pose proof (frep_float_store s1 L1 D [p] p (mkSlot None d') F1 ltac:(set_solver) Hd5) as F2.
  destruct (addQueue_spec Low p _ L1 [] (f_view _ _ _ _ F2)) as (s3 & Ha & V3 & S3).
  exists s3. split; [done|].
  assert (pdata (heap (store p (mkSlot None d') s1)) p = Some d') as Hpd
    by (unfold pdata; proj; by rewrite lookup_insert_eq).
  pose proof (frep_join _ s3 L1 D [] Low p d' false F2 Hpd S3 V3) as F3.
  eapply rep_intro; [exact F3| |by rewrite (same_last _ _ S3); simpl; rewrite Hl1
    |by rewrite (same_sent _ _ S3); simpl; rewrite Hs1].
  intros w. unfold a_add. rewrite HQ.
  replace (fresh_packet ACC_ON_PACKET pkt n r (u16 dl)) with (norm d').
  - change [norm d'] with (norm <$> [d']). rewrite <-fmap_app. by apply updD_norm.
  - unfold norm, fresh_packet in *. destruct d; simplify_eq/=.
    f_equal; first [congruence | unfold put16; zlia].
Qed.

Lemma take_alter_comm {A} (f : A → A) (l : list A) i n : take n (alter f i l) = alter f i (take n l).
Proof.
  revert i n. induction l as [|x l IH]; intros [|i] [|n]; simpl; try done.
  f_equal. apply IH.
Qed.

Lemma norm_acc_off now d :
  norm (with_startTime (now + delayOff d)
    (mkPending ACC_OFF_PACKET (packetLength d) (packetRepeat d) (gate_off (packet d)) (un d))) =
  acc_off now (norm d).
Proof. unfold norm, acc_off, gate_off. simpl. by rewrite take_alter_comm. Qed.

(** Statistics of the waveform are no part of the chains. *)
Lemma frep_log s L D fl x l : frep s L D fl → frep (with_last l (with_sent x s)) L D fl.
Proof.
  intros [[? ? ? ? ? ? ?] H]. split; [by split|done].
Qed.

Lemma retire_spec w now s L D l1 x l2 d1 d d2 :
  frep s L D [] → L (Q w) = l1 ++ x :: l2 → D w = d1 ++ d :: d2 → length l1 = length d1 →
  ∃ s' L' D', retire w now x s = Some s' ∧ frep s' L' D' [] ∧
    (∀ w', norm <$> D' w' =
      let k := norm <$> updD D w (d1 ++ d2) w' in
      if decide (type d = ACC_ON_PACKET ∧ w' = High) then acc_off now (norm d) :: k else k) ∧
    lastSentPacketLocoId s' = lastSentPacketLocoId s ∧ sent s' = sent s.
Proof.
  intros F HL HD Hlen. unfold retire.
  destruct (remove_spec w x s L [] l1 l2 (f_view _ _ _ _ F) HL) as (s1 & -> & V1 & S1). simpl.
  pose proof (frep_leave _ _ _ _ _ _ _ _ _ _ _ _ F HL HD Hlen S1 V1) as F1.
  pose proof (frep_suffix _ _ _ _ _ _ _ _ _ F HL HD Hlen) as Hh.
  apply holds_cons_inv in Hh as (c0 & ? & [= -> <-] & Hx & _).
  pose proof (same_data _ _ S1 x) as Hd1. unfold pdata in Hd1. rewrite Hx in Hd1. simpl in Hd1.
  destruct (heap s1 !! x) as [c|] eqn:Hc; [|done]. simpl in Hd1. injection Hd1 as Hcc.
  unfold load. rewrite Hc. simpl. rewrite Hcc. case_decide as Ht.
  - unfold set_pend, load. rewrite Hc. simpl.
    set (d' := with_startTime _ _).
    assert (length (packet d') = 5%nat) as Hd5.
    { simpl. unfold gate_off. rewrite length_alter.
      exact (v_len _ _ _ (f_view _ _ _ _ F) _ _ Hx). }
    pose proof (frep_float_store s1 _ _ [x] x (mkSlot (next c) d') F1 ltac:(set_solver) Hd5) as F2.
    destruct (jumpQueue_spec High x _ _ [] (f_view _ _ _ _ F2)) as (s3 & -> & V3 & S3).
    assert (pdata (heap (store x (mkSlot (next c) d') s1)) x = Some d') as Hpd
      by (unfold pdata; proj; by rewrite lookup_insert_eq).
    pose proof (frep_join _ s3 _ _ [] High x d' true F2 Hpd S3 V3) as F3.
    eexists _, _, _. split; [done|]. split; [exact F3|]. split.
    + intros w'. unfold updD at 1. case_decide as Hw.
      * subst w'. rewrite decide_True by done. rewrite fmap_cons. f_equal.
        exact (norm_acc_off now (pend c0)).
      * rewrite decide_False by (intros [_ ?]; congruence). done.
    + rewrite (same_last _ _ S3), (same_sent _ _ S3). simpl.
      by rewrite (same_last _ _ S1), (same_sent _ _ S1).
  - destruct (recycle_spec x s1 _ _ V1) as (s2 & -> & V2 & S2).
    pose proof (frep_recycled _ _ _ _ _ _ F1 S2 V2) as F2.
    eexists _, _, _. split; [done|]. split; [exact F2|]. split.
    + intros w'. rewrite decide_False by tauto. done.
    + rewrite (same_last _ _ S2), (same_sent _ _ S2).
      by rewrite (same_last _ _ S1), (same_sent _ _ S1).
Qed.

(** What the queues are after a packet has been sent. *)
Definition a_after (w : which) (now : Z) (l1 : list Pending) (d : Pending) (l2 : list Pending)
    (a : Abs) : Abs :=
  let a := mkAbs (a_high a) (a_low a) (locoId d) (sent_of d :: a_sent a) in
  if tru (locoId d) && tru (packetRepeat d)
  then a_with w (l1 ++ with_repeat (packetRepeat d - 1) d :: l2) a
  else
    let a := a_with w (l1 ++ l2) a in
    if decide (type d = ACC_ON_PACKET) then a_with High (acc_off now d :: a_high a) a else a.

Lemma a_internal_eq w now a :
  a_internal w now a =
  match pick (sendable now (a_last a)) (a_queue w a) with
  | None => (false, a)
  | Some (l1, d, l2) => (true, a_after w now l1 d l2 a)
  end.
Proof. done. Qed.

Lemma retire_rep w now s L D l1 x l2 d1 d d2 a :
  frep s L D [] → L (Q w) = l1 ++ x :: l2 → D w = d1 ++ d :: d2 → length l1 = length d1 →
  (∀ w, a_queue w a = norm <$> D w) →
  lastSentPacketLocoId s = a_last a → sent s = a_sent a →
  ∃ s', retire w now x s = Some s' ∧
    rep s' (let a := a_with w ((norm <$> d1) ++ (norm <$> d2)) a in
            if decide (type d = ACC_ON_PACKET)
            then a_with High (acc_off now (norm d) :: a_high a) a else a).
Proof.
  intros F HL HD Hlen HQ Hl Hs.
  destruct (retire_spec w now s L D l1 x l2 d1 d d2 F HL HD Hlen)
    as (s' & L' & D' & -> & F' & HD' & Hl' & Hs').
  exists s'. split; [done|]. eapply rep_intro; [exact F'| | |].
  - intros w'. rewrite HD'. cbv zeta. unfold updD.
    assert (∀ w'', a_queue w'' (a_with w ((norm <$> d1) ++ (norm <$> d2)) a) =
      norm <$> (if decide (w = w'') then d1 ++ d2 else D w'')) as HW.
    { intros w''. rewrite a_queue_with, <-fmap_app. destruct (decide (w = w'')); [done|apply HQ]. }
    destruct (decide (type d = ACC_ON_PACKET)) as [Ht|Ht].
    + rewrite a_queue_with. destruct w'.
      * rewrite decide_True, (decide_True (P := _ ∧ _)) by done. f_equal. apply (HW High).
      * rewrite decide_False, (decide_False (P := _ ∧ _)) by (done || by intros [_ ?]). apply HW.
    + rewrite decide_False by tauto. apply HW.
  - rewrite Hl', Hl. by destruct w, (decide (type d = ACC_ON_PACKET)).
  - rewrite Hs', Hs. by destruct w, (decide (type d = ACC_ON_PACKET)).
Qed.

Lemma send_slot_rep w now s L D l1 x l2 d1 d d2 a :
  frep s L D [] → L (Q w) = l1 ++ x :: l2 → D w = d1 ++ d :: d2 → length l1 = length d1 →
  (∀ w, a_queue w a = norm <$> D w) →
  lastSentPacketLocoId s = a_last a → sent s = a_sent a →
  ∃ s', send_slot w now x d s = Some (true, s') ∧
    rep s' (a_after w now (norm <$> d1) (norm d) (norm <$> d2) a).
Proof.
  intros F HL HD Hlen HQ Hl Hs. unfold send_slot, a_after.
  change (locoId (norm d)) with (locoId d). change (packetRepeat (norm d)) with (packetRepeat d).
  assert (∀ sl l, frep (with_last l (with_sent sl s)) L D []) as FL by (intros; by apply frep_log).
  destruct (tru (locoId d)) eqn:El; simpl.
  - set (a1 := mkAbs (a_high a) (a_low a) (locoId d) (sent_of (norm d) :: a_sent a)).
    assert (∀ w, a_queue w a1 = norm <$> D w) as HQ1 by (intros w'; rewrite <-HQ; unfold a1; by destruct w').
    unfold schedule_wave. set (sl := mkSent _ _ _ _).
    assert (sl :: sent s = a_sent a1) as Hs1 by (rewrite Hs; unfold a1, sent_of; cbn [a_sent]; change (locoId (norm d)) with (locoId d); by rewrite El).
    destruct (tru (packetRepeat d)) eqn:Er.
    + pose proof (frep_suffix _ _ _ _ _ _ _ _ _ F HL HD Hlen) as Hh.
      apply holds_cons_inv in Hh as (c & ? & [= -> <-] & Hx & _).
      unfold set_pend, load. simpl. rewrite Hx. simpl. eexists. split; [done|].
      set (d' := with_repeat _ _).
      pose proof (frep_set_data _ L D [] w l1 x l2 d1 (pend c) d2 c d' (FL sl (locoId (pend c)))
        HL HD Hlen Hx (v_len _ _ _ (f_view _ _ _ _ F) _ _ Hx)) as F2.
      eapply rep_intro; [exact F2| |by destruct w|by destruct w].
      intros w'. rewrite <-(updD_norm D w _ a1 w' HQ1). f_equal. f_equal. by rewrite fmap_app.
    + destruct (retire_rep w now _ L D l1 x l2 d1 d d2 a1 (FL sl (locoId d)) HL HD Hlen HQ1 eq_refl Hs1)
        as (s' & Hr & R). rewrite Hr. simpl. eauto.
  - set (a1 := mkAbs (a_high a) (a_low a) (locoId d) (sent_of (norm d) :: a_sent a)).
    assert (∀ w, a_queue w a1 = norm <$> D w) as HQ1 by (intros w'; rewrite <-HQ; unfold a1; by destruct w').
    apply negb_false_iff, Z.eqb_eq in El.
    unfold schedule_wave. set (sl := mkSent _ _ _ _).
    assert (sl :: sent s = a_sent a1) as Hs1
      by (rewrite Hs; unfold a1, sent_of; cbn [a_sent]; change (locoId (norm d)) with (locoId d);
          unfold tru; by rewrite El).
    destruct (retire_rep w now _ L D l1 x l2 d1 d d2 a1 (FL sl 0) HL HD Hlen HQ1 (eq_sym El) Hs1)
      as (s' & Hr & R). rewrite Hr. simpl. eauto.
Qed.

Lemma next_loop_spec w now s L D a : ∀ l p pre dpre ds fuel,
  frep s L D [] → (∀ w, a_queue w a = norm <$> D w) →
  lastSentPacketLocoId s = a_last a → sent s = a_sent a →
  chain (heap s) p l → L (Q w) = pre ++ l → D w = dpre ++ ds → length pre = length dpre →
  (length l < fuel)%nat →
  match pick (sendable now (a_last a)) (norm <$> ds) with
  | None => next_loop fuel w now p s = Some (false, s)
  | Some (k1, d, k2) => ∃ s', next_loop fuel w now p s = Some (true, s') ∧
      rep s' (a_after w now ((norm <$> dpre) ++ k1) d k2 a)
  end.
Proof.
  induction l as [|x l IH]; intros p pre dpre ds fuel F HQ Hl Hs Hch HL HD Hlen Hf;
    pose proof (frep_suffix _ _ _ _ _ _ _ _ _ F HL HD Hlen) as Hh; (destruct fuel; [simpl in *; lia|]).
  - inversion Hh; subst. simpl in *. by subst p.
  - apply holds_cons_inv in Hh as (c & ds' & -> & Hx & Hh').
    destruct Hch as [-> (c' & Hc' & Hch)]. assert (c' = c) as -> by congruence.
    simpl. unfold load. rewrite Hx. simpl. unfold sendable at 1.
    change (type (norm (pend c))) with (type (pend c)).
    change (locoId (norm (pend c))) with (locoId (pend c)).
    change (startTime (norm (pend c))) with (startTime (pend c)). rewrite <-Hl.
    specialize (IH (next c) (pre ++ [x]) (dpre ++ [pend c]) ds' fuel F HQ Hl Hs Hch).
    rewrite <-!app_assoc, !length_app in IH. simpl in *.
    specialize (IH HL HD ltac:(lia) ltac:(lia)). rewrite <-Hl in IH.
    change (list_fmap Pending Pending norm ds') with (norm <$> ds').
    assert (match pick (sendable now (lastSentPacketLocoId s)) (norm <$> ds') with
      | Some (l1, x, l2) => Some (norm (pend c) :: l1, x, l2) | None => None end =
      ('(l1, x, l2) ← pick (sendable now (lastSentPacketLocoId s)) (norm <$> ds');
       Some (norm (pend c) :: l1, x, l2))) as Hp
      by (by destruct (pick _ _) as [[[? ?] ?]|]).
    destruct (bool_decide _ && _); [|destruct (tru (locoId (pend c)) && _) eqn:E];
      [simpl|replace (negb _ || negb _) with false by (destruct (tru _), (_ =? _); done)
            |replace (negb _ || negb _) with true by (destruct (tru _), (_ =? _); done)];
      cbn [negb andb orb].
    1,2: destruct (pick _ (norm <$> ds')) as [[[k1 d] k2]|]; simpl; [|done];
      destruct IH as (s' & Hr & R); exists s'; split; [done|];
      rewrite fmap_app, <-app_assoc in R; exact R.
    destruct (send_slot_rep w now s L D pre x l dpre (pend c) ds' a F HL HD Hlen HQ Hl Hs)
      as (s' & -> & R). exists s'. by rewrite app_nil_r.
Qed.

Lemma internal_rep w now s a : rep s a →
  ∃ s', scheduleNextInternal w now s = Some ((a_internal w now a).1, s') ∧
    rep s' (a_internal w now a).2.
Proof.
  intros R. pose proof R as (L & D & F & HQ & Hl & Hs)%rep_elim.
  pose proof (v_chain _ _ _ (f_view _ _ _ _ F) (Q w)) as Hch. simpl in Hch.
  pose proof (next_loop_spec w now s L D a (L (Q w)) _ [] [] (D w) (S (size (heap s)))
    F HQ Hl Hs Hch eq_refl eq_refl eq_refl) as H.
  specialize (H ltac:(apply chain_length in Hch; lia)).
  rewrite a_internal_eq, HQ. unfold scheduleNextInternal.
  destruct (pick _ _) as [[[k1 d] k2]|]; simpl; [exact H|eauto].
Qed.

Lemma next_rep force now s a : rep s a →
  ∃ s', scheduleNext force now s = Some ((a_scheduleNext force now a).1, s') ∧
    rep s' (a_scheduleNext force now a).2.
Proof.
  intros R. unfold scheduleNext, a_scheduleNext.
  destruct (internal_rep High now s a R) as (s1 & -> & R1). simpl.
  destruct (a_internal High now a) as [b1 a1]. simpl in *. destruct b1; [eauto|].
  destruct (internal_rep Low now s1 a1 R1) as (s2 & -> & R2). simpl.
  destruct (a_internal Low now a1) as [b2 a2]. simpl in *. destruct b2; [eauto|].
  destruct force; [|eauto]. eexists. split; [done|]. simpl.
  apply rep_elim in R2 as (L & D & F & HQ & Hl & Hs).
  eapply rep_intro; [by apply frep_log| |done|simpl; by rewrite Hs].
  intros w. rewrite <-HQ. by destruct w.
Qed.

End DCCQueueSpec.
