(* ===== verification/DCCQueueProps.v ===== *)
(** What the packet queues guarantee, for every sequence of calls from the
    start of the program: the calls never fail and refine the queues of
    packets of DCCQueueSpec, no loco gets two packets in a row, an emergency
    stop is the next packet out, an accessory coil goes off after its delay,
    and there is one speed and one function-group packet per loco. *)

From S2P Require Import Prelude Chain DCCQueue DCCQueueSpec.
Import DCCQueue DCCQueueSpec.

Module DCCQueueProps.

(** The packets of a queue, read along its chain. *)
Definition contents (w : which) (s : St) : option (list Pending) :=
  l ← walk (size (heap s)) (heap s) (head (queue w s));
  fmap norm <$> mapM (pdata (heap s)) l.

(** The packets of one loco and one kind. *)
Definition packets_of (loco : Z) (t : PendingType) (l : list Pending) : list Pending :=
  base.filter (λ d, locoId d = loco ∧ type d = t) l.
Definition is_function (t : PendingType) : bool :=
  match t with
  | FUNCTION1_PACKET | FUNCTION2_PACKET | FUNCTION3_PACKET | FUNCTION4_PACKET | FUNCTION5_PACKET => true
  | _ => false
  end.

(** * From single calls to runs *)

Lemma run_op_rep o s a : rep s a → op_ok o →
  ∃ s', run_op o s = Some ((a_op o a).1, s') ∧ rep s' (a_op o a).2.
Proof.
  intros R Hok. destruct o as [pkt n r l|pkt n r l|pkt n l g|pkt n r l|pkt n r dl|f now];
    simpl in Hok;
    try (match type of Hok with _ ∧ is_u16 _ => destruct Hok as [Hok _] end); cbn [run_op a_op fst snd].
  - destruct (add_rep Low NORMAL_PACKET pkt n r l s a R Hok) as (s' & H & R').
    unfold scheduleDCCPacket. rewrite H. simpl. eauto.
  - destruct (replace_or_add_rep High (λ d, locoId d =? l) SPEED_PACKET pkt n r l s a R
      (λ _, eq_refl) Hok) as (s' & H & R').
    unfold scheduleDCCSpeedPacket. cbn [queue] in H. rewrite H. eexists. split; [done|exact R'].
  - unfold scheduleDCCFunctionPacket, a_function. destruct (function_type g) as [t|]; [|eauto].
    destruct (replace_or_add_rep Low (λ d, (locoId d =? l) && bool_decide (type d = t)) t pkt n 0 l s a R
      (λ _, eq_refl) Hok) as (s' & H & R'). cbn [queue] in H. rewrite H. eexists. split; [done|exact R'].
  - destruct (estop_rep pkt n r l s a R Hok) as (s' & -> & R'). simpl. eauto.
  - destruct (acc_rep pkt n r dl s a R Hok) as (s' & -> & R'). simpl. eauto.
  - by apply next_rep.
Qed.

Lemma run_rep os : ∀ s a, rep s a → Forall op_ok os → ∃ s', run os s = Some s' ∧ rep s' (a_run os a).
Proof.
  induction os as [|o os IH]; intros s a R Hos; simpl; [eauto|].
  apply Forall_cons in Hos as [Ho Hos].
  destruct (run_op_rep o s a R Ho) as (s1 & -> & R1). simpl. by apply IH.
Qed.

Lemma reach_rep os s : Forall op_ok os → run os init = Some s → rep s (a_run os a_init).
Proof.
  intros Hos Hr. destruct (run_rep os _ _ rep_init Hos) as (s' & Hs' & R). by simplify_eq.
Qed.

Lemma holds_mapM h l ds : holds h l ds → mapM (pdata h) l = Some ds.
Proof. intros H. apply mapM_Some. exact H. Qed.

Lemma rep_contents s a w : rep s a → contents w s = Some (a_queue w a).
Proof.
  intros (L & D & F & HQ & _ & _)%rep_elim. unfold contents.
  pose proof (v_chain _ _ _ (f_view _ _ _ _ F) (Q w)) as Hch. simpl in Hch.
  rewrite (chain_walk _ _ _ _ Hch) by (by eapply chain_length). simpl.
  rewrite (holds_mapM _ _ _ (f_holds _ _ _ _ F w)). simpl. by rewrite HQ.
Qed.

Lemma rep_sent s a : rep s a → sent s = a_sent a.
Proof. intros (? & ? & _ & _ & _ & ?)%rep_elim. done. Qed.
Lemma rep_leak s a : rep s a → Z.of_nat (size (heap s)) <= 32768 → leakSeen s = false.
Proof. intros (? & ? & F & _)%rep_elim. apply (v_leak _ _ _ (f_view _ _ _ _ F)). Qed.

(** An abstract invariant holds along every run. *)
Lemma a_run_inv (I : Abs → Prop) os : (∀ o a, op_ok o → I a → I (a_op o a).2) →
  Forall op_ok os → ∀ a, I a → I (a_run os a).
Proof. intros Hstep. induction 1 as [|o os Ho Hos IH]; intros a Ha; simpl; auto. Qed.

Lemma function_type_is g t : function_type g = Some t → is_function t = true.
Proof.
  unfold function_type. repeat case_match; naive_solver.
Qed.

(** * Facts of the queues of packets *)

Lemma pick_split ok l l1 d l2 : pick ok l = Some (l1, d, l2) → l = l1 ++ d :: l2 ∧ ok d = true.
Proof.
  revert l1 d l2. induction l as [|x l IH]; intros l1 d l2; simpl; [done|].
  destruct (ok x) eqn:E; [by intros [= <- <- <-]|].
  destruct (pick ok l) as [[[k1 y] k2]|]; simpl; [|done].
  intros [= <- <- <-]. by destruct (IH k1 y k2 eq_refl) as [-> ?].
Qed.

Lemma a_with_fields w l a : a_last (a_with w l a) = a_last a ∧ a_sent (a_with w l a) = a_sent a.
Proof. by destruct w. Qed.

(** ** The loco of the last packet *)

Definition sent_inv (a : Abs) : Prop :=
  a_last a = match a_sent a with [] => 0 | x :: _ => s_loco x end ∧
  adjacent (λ x y, s_loco x = 0 ∨ s_loco x ≠ s_loco y) (a_sent a).

Lemma sent_inv_same a a' : a_last a' = a_last a → a_sent a' = a_sent a → sent_inv a → sent_inv a'.
Proof. unfold sent_inv. by intros -> ->. Qed.

Lemma sent_inv_push a a' x : a_last a' = s_loco x → a_sent a' = x :: a_sent a →
  (s_loco x = 0 ∨ s_loco x ≠ a_last a) → sent_inv a → sent_inv a'.
Proof.
  unfold sent_inv. intros -> -> Hx [Hl Ha]. split; [done|].
  destruct (a_sent a) as [|y l]; [done|]. split; [|done]. by rewrite <-Hl.
Qed.

Lemma a_after_fields w now l1 d l2 a :
  a_last (a_after w now l1 d l2 a) = locoId d ∧ a_sent (a_after w now l1 d l2 a) = sent_of d :: a_sent a.
Proof.
  unfold a_after. destruct (_ && _); [by destruct w|]. destruct (decide _); by destruct w.
Qed.

Lemma sent_inv_internal w now a : sent_inv a → sent_inv (a_internal w now a).2.
Proof.
  intros I. rewrite a_internal_eq.
  destruct (pick _ _) as [[[l1 d] l2]|] eqn:Hp; simpl; [|done].
  apply pick_split in Hp as [_ Hd]. unfold sendable in Hd.
  apply (sent_inv_push a _ (sent_of d)); [..|done].
  - apply a_after_fields.
  - apply a_after_fields.
  - simpl. unfold tru in Hd. lia.
Qed.

Lemma sent_inv_op o a : sent_inv a → sent_inv (a_op o a).2.
Proof.
  destruct o; simpl; intros I; try by eapply sent_inv_same.
  - eapply sent_inv_same; [..|done]; unfold a_speed, a_replace_or_add; by destruct (replace_first _ _ _ _ _).
  - unfold a_function. destruct (function_type group); [|done].
    eapply sent_inv_same; [..|done]; unfold a_replace_or_add; by destruct (replace_first _ _ _ _ _).
  - unfold a_scheduleNext.
    pose proof (sent_inv_internal High now a I) as I1.
    destruct (a_internal High now a) as [[] a1]; simpl in *; [done|].
    pose proof (sent_inv_internal Low now a1 I1) as I2.
    destruct (a_internal Low now a1) as [[] a2]; simpl in *; [done|].
    destruct force; [|done]. apply (sent_inv_push a2 _ (mkSent idlePacket 2 0 0)); [done..| |done]. by left.
Qed.

(** ** One packet per loco and kind *)

Definition uniq (w : which) (t : PendingType) (loco : Z) (a : Abs) : Prop :=
  (length (packets_of loco t (a_queue w a)) <= 1)%nat.

Lemma packets_of_app loco t l k : packets_of loco t (l ++ k) = packets_of loco t l ++ packets_of loco t k.
Proof. apply filter_app. Qed.

Lemma packets_of_cons_ne loco t d l : ¬ (locoId d = loco ∧ type d = t) →
  packets_of loco t (d :: l) = packets_of loco t l.
Proof. intros H. unfold packets_of. by rewrite filter_cons_False. Qed.

Lemma packets_of_cons_le loco t d l :
  (length (packets_of loco t l) <= length (packets_of loco t (d :: l)))%nat.
Proof. unfold packets_of. rewrite filter_cons. case_decide; simpl; lia. Qed.

Lemma packets_of_cons_same loco t d d' l : locoId d = locoId d' → type d = type d' →
  length (packets_of loco t (d :: l)) = length (packets_of loco t (d' :: l)).
Proof.
  intros Hl Ht. unfold packets_of. rewrite !filter_cons.
  destruct (decide (locoId d = loco ∧ type d = t)), (decide (locoId d' = loco ∧ type d' = t));
    simpl; (done || (rewrite Hl, Ht in *; tauto)).
Qed.

Lemma replace_first_packets hit pkt n r loco t l k :
  replace_first hit pkt n r l = Some k →
  length (packets_of loco t k) = length (packets_of loco t l).
Proof.
  revert k. induction l as [|d l IH]; intros k; simpl; [done|].
  unfold packets_of in *. destruct (hit d).
  - intros [= <-]. rewrite !filter_cons.
    change (locoId (fresh_packet (type d) pkt n r (un d))) with (locoId d). simpl.
    by case_decide.
  - destruct (replace_first _ _ _ _ l) as [k'|]; simpl; [|done]. intros [= <-].
    rewrite !filter_cons. specialize (IH k' eq_refl). case_decide; simpl; lia.
Qed.

Lemma replace_first_none hit pkt n r loco t l :
  replace_first hit pkt n r l = None → (∀ d, locoId d = loco → type d = t → hit d = true) →
  packets_of loco t l = [].
Proof.
  induction l as [|d l IH]; simpl; intros H Hhit; [done|].
  destruct (hit d) eqn:E; [done|]. destruct (replace_first _ _ _ _ l); [done|].
  rewrite packets_of_cons_ne; [by apply IH|]. intros [? ?]. rewrite Hhit in E; done.
Qed.

Lemma uniq_replace w w' hit t t' pkt n r l loco a :
  uniq w' t' loco a →
  (w = w' → ∀ d, locoId d = loco → type d = t' → t = t' → u16 l = loco → hit d = true) →
  uniq w' t' loco (a_replace_or_add w hit t pkt n r l a).
Proof.
  unfold uniq, a_replace_or_add. intros U Hhit.
  destruct (replace_first hit pkt n r (a_queue w a)) as [k|] eqn:E.
  - rewrite a_queue_with. case_decide; [subst w'|done].
    by rewrite (replace_first_packets _ _ _ _ _ _ _ _ E).
  - unfold a_add. rewrite a_queue_with. case_decide; [subst w'|done]. rewrite packets_of_app.
    destruct (decide (t = t' ∧ u16 l = loco)) as [[-> <-]|Hne].
    + rewrite (replace_first_none _ _ _ _ _ _ _ E) by eauto.
      unfold packets_of. rewrite filter_cons. case_decide; simpl; lia.
    + rewrite packets_of_cons_ne; [simpl; rewrite length_app; simpl; lia|].
      unfold fresh_packet, locoId. simpl. intros [H1 H2]. apply Hne. split; [done|].
      revert H1. unfold u16. by rewrite Zmod_mod.
Qed.

Lemma uniq_internal w w' now t loco a :
  t ≠ ACC_OFF_PACKET → uniq w' t loco a → uniq w' t loco (a_internal w now a).2.
Proof.
  unfold uniq. intros Ht U. rewrite a_internal_eq.
  destruct (pick _ _) as [[[l1 d] l2]|] eqn:Hp; simpl; [|done].
  apply pick_split in Hp as [Hq _].
  assert (length (packets_of loco t (a_queue w' (a_with w (l1 ++ l2) a))) <= 1)%nat as U1.
  { rewrite a_queue_with. case_decide; [subst w'|done]. rewrite Hq, packets_of_app, length_app in U.
    rewrite packets_of_app, length_app. pose proof (packets_of_cons_le loco t d l2). lia. }
  unfold a_after. destruct (tru (locoId d) && tru (packetRepeat d)).
  - rewrite a_queue_with. case_decide; [subst w'|by destruct w'].
    rewrite Hq in U. rewrite packets_of_app, length_app in *.
    by rewrite (packets_of_cons_same loco t _ d).
  - assert (∀ w', a_queue w' (a_with w (l1 ++ l2) (mkAbs (a_high a) (a_low a) (locoId d) (sent_of d :: a_sent a)))
      = a_queue w' (a_with w (l1 ++ l2) a)) as Hsame by (by intros []; destruct w).
    case_decide; [|by rewrite Hsame]. rewrite a_queue_with. case_decide; [subst w'|by rewrite Hsame].
    rewrite packets_of_cons_ne by (simpl; intros [_ ?]; done). fold (a_queue High).
    by rewrite <-(Hsame High) in U1.
Qed.

Lemma uniq_next force now w t loco a :
  t ≠ ACC_OFF_PACKET → uniq w t loco a → uniq w t loco (a_scheduleNext force now a).2.
Proof.
  intros Ht U. unfold a_scheduleNext.
  pose proof (uniq_internal High w now t loco a Ht U) as U1.
  destruct (a_internal High now a) as [[] a1]; simpl in *; [done|].
  pose proof (uniq_internal Low w now t loco a1 Ht U1) as U2.
  destruct (a_internal Low now a1) as [[] a2]; simpl in *; [done|].
  destruct force; [|done]. unfold uniq in *. by destruct w.
Qed.

Lemma uniq_add w w' t t' pkt n r l loco a : t ≠ t' →
  uniq w' t' loco a → uniq w' t' loco (a_add w (fresh_packet t pkt n r l) a).
Proof.
  unfold uniq, a_add. intros Ht U. rewrite a_queue_with. case_decide; [subst w'|done].
  rewrite packets_of_app, packets_of_cons_ne; [|by intros [_ ?]].
  rewrite length_app. simpl. lia.
Qed.

Lemma spared_packets loco loco' t l :
  (length (packets_of loco t (spared loco' l)) <= length (packets_of loco t l))%nat.
Proof.
  induction l as [|d l IH]; [done|]. rewrite spared_cons.
  destruct (doomed loco' d); unfold packets_of in *; rewrite ?filter_cons;
    case_decide; simpl; lia.
Qed.

(** * Theorems *)

(** C1. Refinement: whatever sequence of scheduling calls the program makes
    with packets of at most five bytes, the pointer code never dereferences a
    bad pointer and its loops terminate; the chains then hold exactly the
    packets of the abstract queues, in order, the calls made to the waveform
    are those of the abstract queues, and no slot has been leaked. *)
Theorem queues_refine os : Forall op_ok os →
  ∃ s, run os init = Some s ∧
    contents High s = Some (a_high (a_run os a_init)) ∧
    contents Low s = Some (a_low (a_run os a_init)) ∧
    sent s = a_sent (a_run os a_init) ∧
    (Z.of_nat (size (heap s)) <= 32768 → leakSeen s = false).
Proof.
  intros Hos. destruct (run_rep os _ _ rep_init Hos) as (s & Hr & R). exists s.
  split; [done|]. split; [exact (rep_contents _ _ High R)|]. split; [exact (rep_contents _ _ Low R)|].
  split; [by apply rep_sent|by eapply rep_leak].
Qed.


(** Functional: an emergency stop discards every waiting high priority
    packet of the loco (of all locos for loco 0) but the delayed accessory-off
    packets, which stay in order behind it, and it is the next packet sent,
    with all its repeats. *)
Lemma estop_goes_first os s pkt n repeats loco force now hs :
  Forall op_ok os → run os init = Some s → packet_ok pkt n → contents High s = Some hs →
  ∃ s1 s2, scheduleEstopPacket pkt n repeats loco s = Some s1 ∧
    contents High s1 = Some (fresh_packet SPEED_PACKET pkt n repeats 0 :: spared loco hs) ∧
    scheduleNext force now s1 = Some (true, s2) ∧
    contents High s2 = Some (spared loco hs) ∧
    sent s2 = mkSent (take (Z.to_nat n) pkt) n repeats 0 :: sent s.
Proof.
  intros Hos Hr Hok Hhs. pose proof (reach_rep _ _ Hos Hr) as R.
  rewrite (rep_contents _ _ _ R) in Hhs. injection Hhs as <-.
  destruct (estop_rep pkt n repeats loco s _ R Hok) as (s1 & H1 & R1).
  destruct (next_rep force now s1 _ R1) as (s2 & H2 & R2).
  exists s1, s2. split; [done|]. split; [exact (rep_contents _ _ High R1)|]. rewrite H2.
  split; [done|]. split; [exact (rep_contents _ _ High R2)|].
  rewrite (rep_sent _ _ R2), (rep_sent _ _ R). done.
Qed.

(** Functional: an accessory coil pulse.  The gate-on packet goes out at
    [t0]; until [delay] milliseconds later the queue sends nothing, and from
    then on it sends the same packet with its gate bit cleared (the sum must
    not pass the wrap of [millis]). *)
Lemma accessory_pulse b0 b1 delay t0 :
  0 < delay < 65536 → is_u32 (t0 + delay) → u16 (t0 + delay) ≠ delay →
  ∃ s, run [OpAcc [b0; b1] 2 0 delay; OpNext false t0] init = Some s ∧
    sent s = [mkSent [b0; b1] 2 0 delay] ∧
    (∀ t, t < t0 + delay → ∃ s', run_op (OpNext false t) s = Some (false, s') ∧ sent s' = sent s) ∧
    (∀ t, t0 + delay <= t → ∃ s', run_op (OpNext false t) s = Some (true, s') ∧
      s_bytes <$> sent s' = [[b0; b1 .& 247]; [b0; b1]]).
Proof.
  intros Hd Ht Hne.
  assert (Forall op_ok [OpAcc [b0; b1] 2 0 delay; OpNext false t0]) as Hos
    by (repeat constructor; simpl; unfold packet_ok, MAX_PACKET_SIZE; simpl; lia).
  destruct (run_rep _ _ _ rep_init Hos) as (s & Hr & R). exists s. split; [done|].
  set (off := mkPending ACC_OFF_PACKET 2 0 [b0; b1 .& 247] (t0 + delay)).
  assert (a_run [OpAcc [b0; b1] 2 0 delay; OpNext false t0] a_init =
    mkAbs [off] [] delay [mkSent [b0; b1] 2 0 delay]) as Ha.
  { simpl. unfold a_scheduleNext, a_internal, a_add. simpl. unfold sendable. simpl.
    unfold locoId at 1 2 3 4. simpl. rewrite !u16_id by (rewrite ?u16_id; unfold is_u16; lia).
    unfold tru. replace (delay =? 0) with false by lia. simpl. unfold a_after. simpl.
    unfold sent_of, acc_off, locoId, delayOff. simpl.
    rewrite !(u16_id delay) by (unfold is_u16; lia). unfold tru. replace (delay =? 0) with false by lia. simpl.
    rewrite u32_id by done. done. }
  rewrite Ha in R. split; [exact (rep_sent _ _ R)|].
  assert (∀ t, sendable t delay off = negb (t <? t0 + delay)) as Hsend.
  { intros t. unfold sendable, startTime, locoId, off. simpl. unfold u16, tru in *.
    destruct (t <? t0 + delay); simpl; [done|].
    replace ((t0 + delay) mod 65536 =? delay) with false by lia. by rewrite orb_true_r. }
  assert (∀ t, a_scheduleNext false t (mkAbs [off] [] delay [mkSent [b0; b1] 2 0 delay]) =
    if t <? t0 + delay then (false, mkAbs [off] [] delay [mkSent [b0; b1] 2 0 delay])
    else (true, mkAbs [] [] (locoId off) [sent_of off; mkSent [b0; b1] 2 0 delay])) as Hnext.
  { intros t. unfold a_scheduleNext, a_internal. cbn -[sendable sent_of locoId Z.ltb].
    rewrite Hsend. destruct (t <? t0 + delay); cbn -[sent_of locoId]; [done|].
    by rewrite andb_false_r. }
  split; intros t Htt; destruct (next_rep false t s _ R) as (s' & Hn & R'); exists s'; simpl run_op;
    rewrite Hn, (rep_sent _ _ R'), Hnext.
  - replace (t <? t0 + delay) with true by lia. by rewrite (rep_sent _ _ R).
  - by replace (t <? t0 + delay) with false by lia.
Qed.

(** C3. Invariant: however the program schedules packets, the high priority
    queue never holds two speed packets for the same loco (but the emergency
    stops, stored for loco 0), and the low priority queue never holds two
    packets for the same loco and function group. *)
Theorem one_packet_per_loco os s hs ls : Forall op_ok os → run os init = Some s →
  contents High s = Some hs → contents Low s = Some ls →
  ∀ loco, (loco ≠ 0 → (length (packets_of loco SPEED_PACKET hs) <= 1)%nat) ∧
    ∀ t, is_function t = true → (length (packets_of loco t ls) <= 1)%nat.
Proof.
  intros Hos Hr Hh Hl loco. pose proof (reach_rep _ _ Hos Hr) as R.
  rewrite (rep_contents _ _ _ R) in Hh. rewrite (rep_contents _ _ _ R) in Hl.
  injection Hh as <-. injection Hl as <-. split.
  - intros Hloco. apply (a_run_inv (uniq High SPEED_PACKET loco)); [|done|unfold uniq; simpl; lia].
    intros [pkt n r l|pkt n r l|pkt n l g|pkt n r l|pkt n r dl|f now] a Hok U; cbn [a_op fst snd].
    + by apply uniq_add.
    + apply uniq_replace; [done|]. intros _ d <- _ _ <-. destruct Hok as [_ Hl]. rewrite (u16_id l Hl). lia.
    + unfold a_function. destruct (function_type g); [|done]. by apply uniq_replace.
    + unfold uniq, a_estop in *. rewrite a_queue_with, decide_True by done.
      rewrite packets_of_cons_ne by (intros [Hz _]; apply Hloco; by rewrite <-Hz).
      pose proof (spared_packets loco l SPEED_PACKET (a_high a)). simpl in *. lia.
    + by apply uniq_add.
    + by apply uniq_next.
  - intros t Ht. apply (a_run_inv (uniq Low t loco)); [|done|unfold uniq; simpl; lia].
    intros [pkt n r l|pkt n r l|pkt n l g|pkt n r l|pkt n r dl|f now] a Hok U; cbn [a_op fst snd].
    + apply uniq_add; [by intros <-|done].
    + by apply uniq_replace.
    + unfold a_function. destruct (function_type g) as [t'|]; [|done].
      apply uniq_replace; [done|]. intros _ d <- <- -> <-. destruct Hok as [_ Hl]. rewrite (u16_id l Hl).
      rewrite bool_decide_true by done. lia.
    + done.
    + apply uniq_add; [by intros <-|done].
    + apply uniq_next; [by intros ->|done].
Qed.

(** What the shared union does: the delay of an accessory packet is read
    as a loco address.  A pulse of 100 ms sent as DCC::setAccessory sends it,
    with three repeats, goes out once as a packet of loco 100 and then waits
    for other traffic: without any, the coil is never switched off. *)
Lemma accessory_delay_read_as_loco :
  ∃ s, run [OpAcc [128; 152] 2 3 100; OpNext false 0; OpNext false 50; OpNext false 500] init = Some s ∧
    sent s = [mkSent [128; 152] 2 0 100] ∧
    contents Low s = Some [mkPending ACC_ON_PACKET 2 2 [128; 152] 100] ∧
    contents High s = Some [].
Proof. eexists. split; [vm_compute; reflexivity|]. by vm_compute. Qed.

(** The same of the start time: the speed packet of loco 1234 replaces the
    gate-off packet of an accessory whose time is 1234 ms, and becomes its
    content: the accessory is never switched off, and the speed is sent under
    the gate-off packet's type. *)
Lemma accessory_off_overwritten :
  ∃ s, run [OpAcc [128; 152] 2 0 234; OpNext false 1000; OpSpeed [196; 210; 63; 180] 4 0 1234] init = Some s ∧
    contents High s = Some [mkPending ACC_OFF_PACKET 4 0 [196; 210; 63; 180] 1234].
Proof. eexists. split; [vm_compute; reflexivity|]. by vm_compute. Qed.

(** * Witnesses *)

Definition demo : list op :=
  [OpSpeed [3; 63; 170] 3 2 3; OpPacket [0; 0] 2 1 3; OpNext true 10; OpNext true 20; OpAcc [128; 152] 2 0 7;
   OpFunction [3; 145] 2 3 1; OpNext true 30; OpNext true 40].

Lemma demo_ok : Forall op_ok demo.
Proof. repeat constructor; simpl; unfold packet_ok, MAX_PACKET_SIZE, is_u16; simpl; lia. Qed.

Lemma queues_refine_witness :
  Forall op_ok demo ∧ ∃ s, run demo init = Some s ∧ leakSeen s = false.
Proof.
  split; [exact demo_ok|]. destruct (queues_refine demo demo_ok) as (s & H & _ & _ & _ & Hk).
  exists s. split; [exact H|]. apply Hk. revert H. vm_compute. intros [= <-]. by vm_compute.
Defined.

Definition demo_state : St := default init (run demo init).
Lemma demo_run : run demo init = Some demo_state.
Proof. vm_compute. reflexivity. Qed.


Lemma estop_goes_first_witness : ∃ s1 s2,
  scheduleEstopPacket [3; 63; 129] 3 5 3 demo_state = Some s1 ∧
  scheduleNext false 50 s1 = Some (true, s2) ∧
  sent s2 = mkSent [3; 63; 129] 3 5 0 :: sent demo_state.
Proof.
  destruct (estop_goes_first demo demo_state [3; 63; 129] 3 5 3 false 50
    (default [] (contents High demo_state)) demo_ok demo_run) as (s1 & s2 & ? & _ & ? & _ & ?);
    [unfold packet_ok, MAX_PACKET_SIZE; simpl; lia|vm_compute; reflexivity|eauto].
Defined.

Lemma accessory_pulse_witness : ∃ s, run [OpAcc [128; 152] 2 0 100; OpNext false 5000] init = Some s ∧
  sent s = [mkSent [128; 152] 2 0 100].
Proof.
  destruct (accessory_pulse 128 152 100 5000) as (s & ? & ? & _);
    [lia|vm_compute; split; [done|reflexivity]|vm_compute; discriminate|eauto].
Defined.

Lemma one_packet_per_loco_witness :
  length (packets_of 3 FUNCTION1_PACKET (default [] (contents Low demo_state))) = 1%nat ∧
  (length (packets_of 3 SPEED_PACKET (default [] (contents High demo_state))) <= 1)%nat.
Proof.
  split; [vm_compute; reflexivity|].
  assert (contents High demo_state = Some (default [] (contents High demo_state))) as Hh
    by (vm_compute; reflexivity).
  assert (contents Low demo_state = Some (default [] (contents Low demo_state))) as Hl
    by (vm_compute; reflexivity).
  destruct (one_packet_per_loco demo demo_state _ _ demo_ok demo_run Hh Hl 3) as [H _].
  apply H. discriminate.
Defined.

End DCCQueueProps.
