(* ===== verification/LocoSlot.v ===== *)
(** The loco table (src/LocoSlot.h, src/LocoSlot.cpp): a chain of slots in
    use and a recycler chain in one store, with a limit on the slots created;
    and the theorems that it is a table of at most MAX_LOCOS locos. *)

From S2P Require Import Prelude Chain.

(** The build's limit on locos (config.h or defines.h) and whether the
    allocation of the [n]th slot succeeds. *)
Class Config := { MAX_LOCOS : Z; new_ok : Z → bool }.

Module LocoSlot.

Definition MOMENTUM_USE_DEFAULT : Z := 255.

Record LocoSlot := mkLoco {
  functions : Z;          (* uint32_t *)
  snifferFunctions : Z;   (* uint32_t *)
  momentum_base : Z;      (* uint32_t *)
  next : option ptr;
  consistLead : option ptr;
  consistNext : option ptr;
  loco : Z;               (* uint16_t *)
  targetSpeed : Z;        (* byte, as the following *)
  speedCode : Z;
  snifferSpeedCode : Z;
  savedSpeedCode : Z;
  momentumA : Z;
  momentumD : Z;
  groupFlags : Z;
  consistReverse : bool;
}.

(** Assignments to the fields. *)
Definition setFunctions (v : Z) (c : LocoSlot) : LocoSlot :=
  mkLoco (u32 v) (snifferFunctions c) (momentum_base c) (next c) (consistLead c) (consistNext c) (loco c)
    (targetSpeed c) (speedCode c) (snifferSpeedCode c) (savedSpeedCode c) (momentumA c) (momentumD c)
    (groupFlags c) (consistReverse c).
Definition setSnifferFunctions (v : Z) (c : LocoSlot) : LocoSlot :=
  mkLoco (functions c) (u32 v) (momentum_base c) (next c) (consistLead c) (consistNext c) (loco c)
    (targetSpeed c) (speedCode c) (snifferSpeedCode c) (savedSpeedCode c) (momentumA c) (momentumD c)
    (groupFlags c) (consistReverse c).
Definition setMomentumBase (v : Z) (c : LocoSlot) : LocoSlot :=
  mkLoco (functions c) (snifferFunctions c) (u32 v) (next c) (consistLead c) (consistNext c) (loco c)
    (targetSpeed c) (speedCode c) (snifferSpeedCode c) (savedSpeedCode c) (momentumA c) (momentumD c)
    (groupFlags c) (consistReverse c).
Definition setNext (p : option ptr) (c : LocoSlot) : LocoSlot :=
  mkLoco (functions c) (snifferFunctions c) (momentum_base c) p (consistLead c) (consistNext c) (loco c)
    (targetSpeed c) (speedCode c) (snifferSpeedCode c) (savedSpeedCode c) (momentumA c) (momentumD c)
    (groupFlags c) (consistReverse c).
Definition setConsistLead (p : option ptr) (c : LocoSlot) : LocoSlot :=
  mkLoco (functions c) (snifferFunctions c) (momentum_base c) (next c) p (consistNext c) (loco c)
    (targetSpeed c) (speedCode c) (snifferSpeedCode c) (savedSpeedCode c) (momentumA c) (momentumD c)
    (groupFlags c) (consistReverse c).
Definition setConsistNext (p : option ptr) (c : LocoSlot) : LocoSlot :=
  mkLoco (functions c) (snifferFunctions c) (momentum_base c) (next c) (consistLead c) p (loco c)
    (targetSpeed c) (speedCode c) (snifferSpeedCode c) (savedSpeedCode c) (momentumA c) (momentumD c)
    (groupFlags c) (consistReverse c).
Definition setTargetSpeed (v : Z) (c : LocoSlot) : LocoSlot :=
  mkLoco (functions c) (snifferFunctions c) (momentum_base c) (next c) (consistLead c) (consistNext c) (loco c)
    (u8 v) (speedCode c) (snifferSpeedCode c) (savedSpeedCode c) (momentumA c) (momentumD c)
    (groupFlags c) (consistReverse c).
Definition setSpeedCode (v : Z) (c : LocoSlot) : LocoSlot :=
  mkLoco (functions c) (snifferFunctions c) (momentum_base c) (next c) (consistLead c) (consistNext c) (loco c)
    (targetSpeed c) (u8 v) (snifferSpeedCode c) (savedSpeedCode c) (momentumA c) (momentumD c)
    (groupFlags c) (consistReverse c).
Definition setSnifferSpeedCode (v : Z) (c : LocoSlot) : LocoSlot :=
  mkLoco (functions c) (snifferFunctions c) (momentum_base c) (next c) (consistLead c) (consistNext c) (loco c)
    (targetSpeed c) (speedCode c) (u8 v) (savedSpeedCode c) (momentumA c) (momentumD c)
    (groupFlags c) (consistReverse c).
Definition setSavedSpeedCode (v : Z) (c : LocoSlot) : LocoSlot :=
  mkLoco (functions c) (snifferFunctions c) (momentum_base c) (next c) (consistLead c) (consistNext c) (loco c)
    (targetSpeed c) (speedCode c) (snifferSpeedCode c) (u8 v) (momentumA c) (momentumD c)
    (groupFlags c) (consistReverse c).
Definition setMomentumA (v : Z) (c : LocoSlot) : LocoSlot :=
  mkLoco (functions c) (snifferFunctions c) (momentum_base c) (next c) (consistLead c) (consistNext c) (loco c)
    (targetSpeed c) (speedCode c) (snifferSpeedCode c) (savedSpeedCode c) (u8 v) (momentumD c)
    (groupFlags c) (consistReverse c).
Definition setMomentumD (v : Z) (c : LocoSlot) : LocoSlot :=
  mkLoco (functions c) (snifferFunctions c) (momentum_base c) (next c) (consistLead c) (consistNext c) (loco c)
    (targetSpeed c) (speedCode c) (snifferSpeedCode c) (savedSpeedCode c) (momentumA c) (u8 v)
    (groupFlags c) (consistReverse c).
Definition setGroupFlags (v : Z) (c : LocoSlot) : LocoSlot :=
  mkLoco (functions c) (snifferFunctions c) (momentum_base c) (next c) (consistLead c) (consistNext c) (loco c)
    (targetSpeed c) (speedCode c) (snifferSpeedCode c) (savedSpeedCode c) (momentumA c) (momentumD c)
    (u8 v) (consistReverse c).
Definition setConsistReverse (v : bool) (c : LocoSlot) : LocoSlot :=
  mkLoco (functions c) (snifferFunctions c) (momentum_base c) (next c) (consistLead c) (consistNext c) (loco c)
    (targetSpeed c) (speedCode c) (snifferSpeedCode c) (savedSpeedCode c) (momentumA c) (momentumD c)
    (groupFlags c) v.

Definition saveSpeed (c : LocoSlot) : LocoSlot := setSavedSpeedCode (targetSpeed c) c.
Definition isConsistLead (c : LocoSlot) : bool :=
  bool_decide (is_Some (consistNext c)) && bool_decide (consistLead c = None).
Definition isConsistFollower (c : LocoSlot) : bool := bool_decide (is_Some (consistLead c)).

#[export] Instance loco_linked : Linked LocoSlot := {|
  nx := next;
  setnx := setNext;
  nx_setnx _ _ := eq_refl;
|}.

Record St := mkSt {
  heap : gmap ptr LocoSlot;
  firstSlot : option ptr;
  recycler : option ptr;
  chainModified : bool;
  slotCount : Z;          (* uint16_t *)
}.

Definition init : St := mkSt ∅ None None false 0.

Definition load (s : St) (p : ptr) : option LocoSlot := heap s !! p.
Definition store (p : ptr) (c : LocoSlot) (s : St) : St :=
  mkSt (<[p := c]> (heap s)) (firstSlot s) (recycler s) (chainModified s) (slotCount s).
Definition modify (p : ptr) (f : LocoSlot → LocoSlot) (s : St) : option St :=
  c ← load s p; Some (store p (f c) s).
Definition with_first (p : option ptr) (s : St) : St :=
  mkSt (heap s) p (recycler s) (chainModified s) (slotCount s).
Definition with_recycler (p : option ptr) (s : St) : St :=
  mkSt (heap s) (firstSlot s) p (chainModified s) (slotCount s).
Definition with_modified (b : bool) (s : St) : St :=
  mkSt (heap s) (firstSlot s) (recycler s) b (slotCount s).
Definition with_count (n : Z) (s : St) : St :=
  mkSt (heap s) (firstSlot s) (recycler s) (chainModified s) n.

(** The values [prepare] gives to a slot put in front of [first]. *)
Definition prepared (locoId : Z) (first : option ptr) : LocoSlot :=
  mkLoco 0 0 0 first None None (u16 locoId) 128 128 128 0
    MOMENTUM_USE_DEFAULT MOMENTUM_USE_DEFAULT 0 false.

Definition prepare (p : ptr) (locoId : Z) (s : St) : option St :=
  _ ← load s p;
  let s := store p (prepared locoId (firstSlot s)) s in
  Some (with_modified true (with_first (Some p) s)).

Fixpoint find_loop (fuel : nat) (locoId : Z) (p : option ptr) (s : St) : option (option ptr) :=
  match p, fuel with
  | None, _ => Some None
  | Some _, O => None
  | Some x, S fuel =>
    c ← load s x;
    if loco c =? locoId then Some (Some x) else find_loop fuel locoId (next c) s
  end.

(** A slot as [new] leaves it: its fields are not initialised, [prepare]
    gives every one of them a value. *)
Definition raw_slot : LocoSlot := prepared 0 None.

Section getSlot.
Context `{Config}.

Definition getSlot (locoId : Z) (autoCreate : bool) (s : St) : option (option ptr * St) :=
  if locoId =? 0 then Some (None, s) else
  found ← find_loop (S (size (heap s))) locoId (firstSlot s) s;
  match found with
  | Some x => Some (Some x, s)
  | None =>
    if negb autoCreate then Some (None, s) else
    match recycler s with
    | Some x =>
      c ← load s x;
      s ← prepare x locoId (with_recycler (next c) s);
      Some (Some x, s)
    | None =>
      if slotCount s >=? MAX_LOCOS then Some (None, s) else (* Too many locos *)
      if negb (new_ok (slotCount s)) then Some (None, s) else
      let x := fresh (dom (heap s)) in
      s ← prepare x locoId (with_count (u16 (slotCount s + 1)) (store x raw_slot s));
      Some (Some x, s)
    end
  end.

End getSlot.

(** [for(prev=firstSlot; prev && prev->next!=this; prev=prev->next);] *)
Fixpoint prev_loop (fuel : nat) (this : ptr) (prev : option ptr) (s : St) : option (option ptr) :=
  match prev, fuel with
  | None, _ => Some None
  | Some _, O => None
  | Some x, S fuel =>
    c ← load s x;
    if decide (next c = Some this) then Some (Some x) else prev_loop fuel this (next c) s
  end.

(** The first part of [forget]: remove from list. *)
Definition unlink (this : ptr) (c : LocoSlot) (s : St) : option St :=
  if decide (firstSlot s = Some this) then Some (with_first (next c) s)
  else
    prev ← prev_loop (S (size (heap s))) this (firstSlot s) s;
    match prev with
    | Some x => modify x (setNext (next c)) s
    | None => Some s
    end.

Definition forget (this : ptr) (s : St) : option St :=
  c ← load s this;
  s ← unlink this c s;
  s ← modify this (setNext (recycler s)) s;
  Some (with_modified true (with_recycler (Some this) s)).

Fixpoint delete_loop (fuel : nat) (p : option ptr) (s : St) : option St :=
  match p, fuel with
  | None, _ => Some s
  | Some _, O => None
  | Some x, S fuel =>
    c ← load s x;
    delete_loop fuel (next c)
      (mkSt (delete x (heap s)) (firstSlot s) (recycler s) (chainModified s) (slotCount s))
  end.

Definition forgetAll (s : St) : option St :=
  let fuel := S (size (heap s)) in
  s ← delete_loop fuel (firstSlot s) s;
  let s := with_first None s in
  s ← delete_loop fuel (recycler s) s;
  Some (with_count 0 (with_modified true (with_recycler None s))).

(** * The table the chains hold *)

Ltac lens := simpl; rewrite ?length_app; simpl; lia.

(** [table s l r]: the slots in use are [l], newest first, the recycled ones
    [r], these are all there are, and the slots in use have distinct locos. *)
Record table (s : St) (l r : list ptr) : Prop := {
  t_used : chain (heap s) (firstSlot s) l;
  t_free : chain (heap s) (recycler s) r;
  t_nodup : NoDup (l ++ r);
  t_dom : ∀ x, is_Some (heap s !! x) ↔ x ∈ l ++ r;
  t_locos : ∀ x y c d, x ∈ l → y ∈ l → heap s !! x = Some c → heap s !! y = Some d → loco c = loco d → x = y;
  t_range : ∀ x c, x ∈ l → heap s !! x = Some c → 0 < loco c < 65536;
  t_count : slotCount s = Z.of_nat (length (l ++ r));
}.

Lemma table_empty s : heap s = ∅ → firstSlot s = None → recycler s = None → slotCount s = 0 →
  table s [] [].
Proof.
  intros Hh Hf Hr Hc. split; rewrite ?Hh; simpl; try done; try (by intros ? ? ? ? ?%elem_of_nil);
    try (by intros ? ? ?%elem_of_nil).
  - constructor.
  - intros x. rewrite lookup_empty. split; [by intros [? ?]|by intros ?%elem_of_nil].
Qed.

Lemma table_init : table init [] [].
Proof. by apply table_empty. Qed.

Lemma chain_fuel s l r : table s l r → (length l < S (size (heap s)))%nat.
Proof. intros T. pose proof (chain_length _ _ _ (t_used _ _ _ T)). lia. Qed.

Lemma find_loop_spec id s : ∀ l p fuel, chain (heap s) p l → (length l < fuel)%nat →
  ∃ r, find_loop fuel id p s = Some r ∧
    match r with
    | Some x => x ∈ l ∧ ∃ c, heap s !! x = Some c ∧ loco c = id
    | None => ∀ x c, x ∈ l → heap s !! x = Some c → loco c ≠ id
    end.
Proof.
  induction l as [|x l IH]; intros p fuel Hch Hf; (destruct fuel; [simpl in *; lia|]).
  - simpl in Hch. subst p. exists None. split; [done|]. by intros ? ? ?%elem_of_nil.
  - destruct Hch as [-> (c & Hc & Hch)]. simpl. unfold load. rewrite Hc. simpl.
    destruct (loco c =? id) eqn:E.
    + eexists. split; [done|]. apply Z.eqb_eq in E. split; [set_solver|]. eauto.
    + destruct (IH (next c) fuel Hch) as (r & -> & Hr); [simpl in *; lia|].
      exists r. split; [done|]. destruct r as [y|]; [set_solver|].
      intros y d [->|Hy]%elem_of_cons Hd; [simplify_eq; lia|]. by eapply Hr.
Qed.

(** A slot of no chain of use is prepared: it becomes the first one. *)
Lemma table_prepared id x s l r : 0 < id < 65536 →
  chain (heap s) (firstSlot s) l → chain (heap s) (recycler s) r →
  x ∉ l → x ∉ r → NoDup (l ++ r) →
  (∀ y, is_Some (heap s !! y) ↔ y ∈ x :: l ++ r) →
  (∀ y z c d, y ∈ l → z ∈ l → heap s !! y = Some c → heap s !! z = Some d → loco c = loco d → y = z) →
  (∀ y c, y ∈ l → heap s !! y = Some c → 0 < loco c < 65536 ∧ loco c ≠ id) →
  slotCount s = Z.of_nat (length (x :: l ++ r)) →
  ∃ s', prepare x id s = Some s' ∧ table s' (x :: l) r ∧
    heap s' = <[x := prepared id (firstSlot s)]> (heap s).
Proof.
  intros Hid Hl Hr Hxl Hxr Hnd Hdom Hloc Hrange Hcnt.
  destruct (proj2 (Hdom x) ltac:(set_solver)) as [c0 Hc0].
  unfold prepare, load. rewrite Hc0. simpl. eexists. split; [done|]. split; [|done].
  split; simpl.
  - split; [done|]. eexists. rewrite lookup_insert_eq. split; [done|]. simpl.
    by apply chain_insert_ne.
  - by apply chain_insert_ne.
  - constructor; [rewrite elem_of_app; tauto|done].
  - intros y. rewrite <-Hdom. destruct (decide (x = y)) as [->|].
    + rewrite lookup_insert_eq. split; eauto.
    + by rewrite lookup_insert_ne.
  - assert (∀ y c, y ∈ x :: l → <[x:=prepared id (firstSlot s)]> (heap s) !! y = Some c →
      (y = x ∧ loco c = id) ∨ (y ≠ x ∧ y ∈ l ∧ heap s !! y = Some c)) as Hcase.
    { intros y c Hy Hc. destruct (decide (x = y)) as [->|Hne].
      - rewrite lookup_insert_eq in Hc. simplify_eq. left. simpl. split; [done|]. zlia.
      - rewrite lookup_insert_ne in Hc by done. right. set_solver. }
    intros y z c d Hy Hz Hc Hd Heq.
    destruct (Hcase y c Hy Hc) as [[-> Hlc]|(? & Hy' & Hc')],
      (Hcase z d Hz Hd) as [[-> Hld]|(? & Hz' & Hd')]; [done| | |by eapply Hloc].
    + destruct (Hrange z d Hz' Hd'). congruence.
    + destruct (Hrange y c Hy' Hc'). congruence.
  - intros y c Hy. destruct (decide (x = y)) as [->|Hne].
    + rewrite lookup_insert_eq. intros [= <-]. simpl. zlia.
    + rewrite lookup_insert_ne by done. intros Hc. apply elem_of_cons in Hy as [?|Hy]; [congruence|]. by destruct (Hrange y c Hy Hc).
  - done.
Qed.

(** What getSlot returns, and the table after it. *)
Inductive got `{Config} (id : Z) (create : bool) (s : St) (l r : list ptr) : option ptr → St → Prop :=
  | got_found x c : x ∈ l → heap s !! x = Some c → loco c = id → got id create s l r (Some x) s
  | got_none : (∀ x c, x ∈ l → heap s !! x = Some c → loco c ≠ id) →
      (create = true → r = [] ∧ (slotCount s >= MAX_LOCOS ∨ new_ok (slotCount s) = false)) →
      got id create s l r None s
  | got_new x s' r' : create = true → (∀ x c, x ∈ l → heap s !! x = Some c → loco c ≠ id) →
      x ∉ l → table s' (x :: l) r' →
      heap s' !! x = Some (prepared id (firstSlot s)) →
      (∀ y, y ≠ x → heap s' !! y = heap s !! y) →
      (r = x :: r' ∧ slotCount s' = slotCount s ∨
       r = [] ∧ r' = [] ∧ slotCount s < MAX_LOCOS ∧ new_ok (slotCount s) = true ∧
       slotCount s' = slotCount s + 1) →
      got id create s l r (Some x) s'.

Lemma find_or_make_spec `{Config} id create s l r :
  MAX_LOCOS < 65536 → table s l r → 0 < id < 65536 →
  ∃ p s', getSlot id create s = Some (p, s') ∧ got id create s l r p s'.
Proof.
  intros Hmax T Hid. unfold getSlot. replace (id =? 0) with false by lia.
  destruct (find_loop_spec id s l _ _ (t_used _ _ _ T) (chain_fuel _ _ _ T)) as (f & -> & Hf). simpl.
  destruct f as [x|].
  { destruct Hf as (Hx & c & Hc & Hl). eexists _, _. split; [done|]. by econstructor. }
  destruct create; simpl; [|eexists _, _; split; [done|]; by apply got_none].
  pose proof (t_free _ _ _ T) as Hfree. pose proof (t_nodup _ _ _ T) as Hnd.
  pose proof (t_count _ _ _ T) as Hcnt.
  destruct (recycler s) as [x|] eqn:Er.
  - destruct r as [|y r]; [done|]. destruct Hfree as [[= <-] (c & Hc & Hch)].
    unfold load. rewrite Hc. simpl.
    assert (x ∉ l ∧ x ∉ r ∧ NoDup (l ++ r)) as (Hxl & Hxr & Hnd').
    { rewrite NoDup_app, NoDup_cons in Hnd. rewrite NoDup_app. set_solver. }
    destruct (table_prepared id x (with_recycler (next c) s) l r) as (s' & Hp & T' & Hh);
      simpl; try done; try apply T.
    + intros y. rewrite (t_dom _ _ _ T). rewrite elem_of_app, !elem_of_cons, elem_of_app. tauto.
    + intros y d Hy Hd. split; [by eapply T|by eapply Hf].
    + rewrite Hcnt, !length_app. lens.
    + rewrite Hp. simpl. eexists _, _. split; [done|].
      pose proof (t_count _ _ _ T') as Hcnt'.
      apply (got_new id true s l _ x s' r); try done; rewrite ?Hh; simpl.
      * by rewrite lookup_insert_eq.
      * intros y Hy. by rewrite lookup_insert_ne.
      * left. split; [done|]. rewrite Hcnt', Hcnt, !length_app. lens.
  - destruct r as [|y r]; [|by destruct Hfree].
    destruct (slotCount s >=? MAX_LOCOS) eqn:Em.
    { eexists _, _. split; [done|]. apply got_none; [done|]. intros _. split; [done|]. left. lia. }
    destruct (new_ok (slotCount s)) eqn:En; simpl.
    2:{ eexists _, _. split; [done|]. apply got_none; [done|]. auto. }
    set (x := fresh (dom (heap s))).
    assert (heap s !! x = None) as Hx by (apply not_elem_of_dom, is_fresh).
    assert (x ∉ l) as Hxl.
    { intros Hin. destruct (proj2 (t_dom _ _ _ T x)); [set_solver|congruence]. }
    rewrite app_nil_r in Hnd, Hcnt.
    destruct (table_prepared id x (with_count (u16 (slotCount s + 1)) (store x raw_slot s)) l [])
      as (s' & Hp & T' & Hh); simpl; rewrite ?app_nil_r; try done.
    + apply chain_insert_ne; [done|apply T].
    + set_solver.
    + intros y. rewrite elem_of_cons. destruct (decide (x = y)) as [<-|].
      * rewrite lookup_insert_eq. split; eauto.
      * rewrite lookup_insert_ne, (t_dom _ _ _ T), app_nil_r by done. naive_solver.
    + intros y z c d Hy Hz. rewrite !lookup_insert_ne by set_solver. by apply T.
    + intros y c Hy. rewrite lookup_insert_ne by set_solver. intros Hc.
      split; [by eapply T|by eapply Hf].
    + rewrite u16_id by (unfold is_u16; lia). rewrite Hcnt. lia.
    + rewrite Hp. simpl. eexists _, _. split; [done|].
      pose proof (t_count _ _ _ T') as Hcnt'. simpl in Hcnt'. rewrite app_nil_r in Hcnt'.
      apply (got_new id true s l _ x s' []); try done; rewrite ?Hh; simpl.
      * by rewrite lookup_insert_eq.
      * intros y Hy. by rewrite !lookup_insert_ne.
      * right. repeat split; (done || lia).
Qed.

(** ** Forgetting *)

Lemma prev_loop_spec this s : ∀ l1 p l2 fuel, l1 ≠ [] → this ∉ l1 →
  chain (heap s) p (l1 ++ this :: l2) → (length l1 < fuel)%nat →
  prev_loop fuel this p s = Some (last l1).
Proof.
  induction l1 as [|x l1 IH]; intros p l2 fuel Hne Hthis Hch Hf; [done|].
  destruct fuel; [simpl in Hf; lia|]. destruct Hch as [-> (c & Hc & Hch)].
  simpl prev_loop. unfold load. rewrite Hc. simpl. destruct l1 as [|y l1].
  - destruct Hch as [Hn _]. simpl in Hn. by rewrite decide_True.
  - rewrite decide_False.
    + rewrite (IH (next c) l2); [done|done|set_solver|done|simpl in *; lia].
    + destruct Hch as [Hn _]. simpl in Hn. rewrite Hn. intros [= ->]. set_solver.
Qed.

Lemma table_mid s l1 x l2 r : table s (l1 ++ x :: l2) r →
  x ∉ l1 ∧ x ∉ l2 ∧ x ∉ r ∧ NoDup (l1 ++ l2 ++ r).
Proof.
  intros T. pose proof (t_nodup _ _ _ T) as Hnd. rewrite <-app_assoc in Hnd. simpl in Hnd.
  rewrite !NoDup_app, NoDup_cons, NoDup_app in *. set_solver.
Qed.

(** The slot is moved to the recycler, its contents but [next] unchanged. *)
Lemma forget_spec s l1 x l2 r : table s (l1 ++ x :: l2) r →
  ∃ s', forget x s = Some s' ∧ table s' (l1 ++ l2) (x :: r) ∧
    (∀ y, (setNext None <$> heap s' !! y) = (setNext None <$> heap s !! y)) ∧
    chainModified s' = true ∧ slotCount s' = slotCount s.
Proof.
  intros T. destruct (table_mid _ _ _ _ _ T) as (Hx1 & Hx2 & Hxr & Hnd).
  destruct (proj2 (t_dom _ _ _ T x)) as [c Hc]; [set_solver|].
  assert (∃ s1, unlink x c s = Some s1 ∧ chain (heap s1) (firstSlot s1) (l1 ++ l2) ∧ heap s1 !! x = Some c ∧
      recycler s1 = recycler s ∧ chain (heap s1) (recycler s) r ∧ slotCount s1 = slotCount s ∧
      (∀ y, (setNext None <$> heap s1 !! y) = (setNext None <$> heap s !! y)))
    as (s1 & Hs1 & Hch1 & Hc1 & Hrec1 & Hchr & Hcnt1 & Hdata1).
  { unfold unlink. pose proof (t_used _ _ _ T) as Hch. destruct (decide (l1 = [])) as [->|Hl1].
    - simpl in *. pose proof (chain_unlink_head (heap s) x c l2 Hc) as Hun.
      destruct Hch as [Hf Hch']. rewrite decide_True by done. eexists. split; [done|].
      split; [apply Hun; by split|]. repeat split; try done. apply T.
    - destruct (exists_last Hl1) as (l1' & y & ->).
      rewrite decide_False.
      2:{ intros Hf. rewrite Hf in Hch. destruct l1' as [|z l1']; simpl in Hch; destruct Hch as [[= ->] _];
          set_solver. }
      rewrite (prev_loop_spec x s (l1' ++ [y]) _ l2); [|done..|].
      2:{ pose proof (chain_fuel _ _ _ T) as Hfu. rewrite length_app in Hfu. lia. }
      rewrite last_snoc. simpl. unfold modify, load.
      destruct (proj2 (t_dom _ _ _ T y)) as [cy Hcy]; [set_solver|]. rewrite Hcy. simpl.
      eexists. split; [done|]. simpl.
      rewrite <-app_assoc in Hch |- *. simpl in Hch |- *.
      assert (y ≠ x) by set_solver.
      split; [exact (chain_unlink _ _ _ _ cy _ c _ Hcy Hc Hch)|].
      split; [by rewrite lookup_insert_ne|]. split; [done|].
      split; [apply chain_insert_ne; [|apply T]|].
      + intros Hyr. rewrite NoDup_app in Hnd. destruct Hnd as (_ & Hnd' & _).
        apply (Hnd' y); rewrite elem_of_app; [rewrite list_elem_of_singleton|]; auto.
      + split; [done|]. intros z. destruct (decide (y = z)) as [->|].
        * by rewrite lookup_insert_eq, Hcy.
        * by rewrite lookup_insert_ne. }
  unfold forget, load at 1. rewrite Hc. simpl. rewrite Hs1. simpl. unfold modify, load.
  rewrite Hc1. simpl. eexists. split; [done|].
  assert (∀ y, (setNext None <$> <[x:=setNext (recycler s1) c]> (heap s1) !! y) =
    (setNext None <$> heap s !! y)) as Hdata.
  { intros y. rewrite <-Hdata1. destruct (decide (x = y)) as [->|].
    - by rewrite lookup_insert_eq, Hc1.
    - by rewrite lookup_insert_ne. }
  assert (∀ y d, <[x:=setNext (recycler s1) c]> (heap s1) !! y = Some d →
    ∃ d0, heap s !! y = Some d0 ∧ loco d0 = loco d) as Hloc.
  { intros y d Hd. specialize (Hdata y). rewrite Hd in Hdata. simpl in Hdata.
    destruct (heap s !! y) as [d0|]; simplify_eq/=. exists d0. split; [done|].
    congruence. }
  split; [|done]. split; simpl.
  - apply chain_insert_ne; [set_solver|done].
  - rewrite Hrec1. exact (chain_push _ _ _ x c Hxr Hchr).
  - apply NoDup_app. rewrite NoDup_cons. rewrite !NoDup_app in Hnd. rewrite !NoDup_app. set_solver.
  - intros y. specialize (Hdata y).
    assert (is_Some (<[x:=setNext (recycler s1) c]> (heap s1) !! y) ↔ is_Some (heap s !! y)) as ->.
    { rewrite <-(fmap_is_Some (setNext None)), Hdata, fmap_is_Some. done. }
    rewrite (t_dom _ _ _ T). set_solver.
  - intros y z d e Hy Hz Hd He Heq.
    destruct (Hloc _ _ Hd) as (d0 & Hd0 & Hl0), (Hloc _ _ He) as (e0 & He0 & Hl1).
    eapply (t_locos _ _ _ T y z d0 e0); [set_solver..|done|done|congruence].
  - intros y d Hy Hd. destruct (Hloc _ _ Hd) as (d0 & Hd0 & <-).
    eapply (t_range _ _ _ T y d0); [set_solver|done].
  - rewrite Hcnt1, (t_count _ _ _ T), !length_app. lens.
Qed.

Lemma delete_loop_spec : ∀ l p s fuel, chain (heap s) p l → (length l < fuel)%nat →
  ∃ s', delete_loop fuel p s = Some s' ∧
    (∀ x, heap s' !! x = if decide (x ∈ l) then None else heap s !! x) ∧
    firstSlot s' = firstSlot s ∧ recycler s' = recycler s.
Proof.
  induction l as [|x l IH]; intros p s fuel Hch Hf; (destruct fuel; [simpl in *; lia|]).
  - simpl in Hch. subst p. exists s. split; [done|]. split; [|done].
    intros x. rewrite decide_False; [done|]. by intros ?%elem_of_nil.
  - destruct Hch as [-> (c & Hc & Hch)]. simpl. unfold load. rewrite Hc. simpl.
    pose proof (chain_not_elem _ _ _ _ Hc Hch) as Hxl.
    set (s1 := mkSt _ _ _ _ _).
    destruct (IH (next c) s1 fuel) as (s' & -> & Hh & ? & ?).
    + simpl. by apply chain_delete_ne.
    + simpl in *. lia.
    + exists s'. split; [done|]. split; [|done]. intros y. rewrite Hh. simpl.
      destruct (decide (y = x)) as [->|Hne].
      * rewrite decide_False by done. rewrite decide_True by set_solver. by rewrite lookup_delete_eq.
      * rewrite lookup_delete_ne by done.
        destruct (decide (y ∈ l)); [rewrite decide_True by set_solver|rewrite decide_False by set_solver]; done.
Qed.

Lemma forgetAll_spec s l r : table s l r →
  ∃ s', forgetAll s = Some s' ∧ heap s' = ∅ ∧ table s' [] [] ∧ chainModified s' = true.
Proof.
  intros T. unfold forgetAll.
  destruct (delete_loop_spec l _ s _ (t_used _ _ _ T) (chain_fuel _ _ _ T)) as (s1 & -> & Hh1 & _ & Hr1).
  cbn -[delete_loop]. rewrite Hr1.
  destruct (delete_loop_spec r (recycler s) (with_first None s1) (S (size (heap s)))) as (s2 & -> & Hh2 & Hf2 & _).
  - simpl. eapply chain_ext; [|apply T]. intros x Hx. rewrite Hh1, decide_False; [done|].
    pose proof (t_nodup _ _ _ T) as Hnd. rewrite NoDup_app in Hnd. set_solver.
  - pose proof (chain_length _ _ _ (t_free _ _ _ T)). lia.
  - simpl. eexists. split; [done|]. simpl.
    assert (heap s2 = ∅) as He.
    { apply map_eq. intros x. rewrite Hh2. simpl. rewrite Hh1, lookup_empty.
      destruct (decide (x ∈ r)); [done|]. destruct (decide (x ∈ l)); [done|].
      destruct (heap s !! x) eqn:E; [|done].
      assert (x ∈ l ++ r) by (apply (t_dom _ _ _ T); eauto). set_solver. }
    split; [done|]. split; [|done].
    apply table_empty; simpl; done.
Qed.

End LocoSlot.
