(* ===== verification/LocoTable.v ===== *)
(** The loco table as a list of loco addresses: what LocoSlot's chains and
    recycler implement, for every sequence of look-ups, creations and
    removals. *)

From S2P Require Import Prelude Chain LocoSlot.
Import LocoSlot.

Module LocoTable.
Section table.
Context `{Config}.

(** The calls: getSlot, DCC::forgetLoco of one loco, and of all. *)
Inductive op := OGet (id : Z) (create : bool) | OForget (id : Z) | OForgetAll.

Definition op_ok (o : op) : Prop :=
  match o with OGet id _ | OForget id => 0 < id < 65536 | OForgetAll => True end.

(** [Some true]: the call found or made a slot. *)
Definition run_op (o : op) (s : St) : option (bool * St) :=
  match o with
  | OGet id create => '(p, s) ← getSlot id create s; Some (bool_decide (is_Some p), s)
  | OForget id =>
    '(p, s) ← getSlot id false s;
    match p with
    | Some x => s ← forget x s; Some (true, s)
    | None => Some (false, s)
    end
  | OForgetAll => s ← forgetAll s; Some (true, s)
  end.

Fixpoint run (os : list op) (s : St) : option (list bool * St) :=
  match os with
  | [] => Some ([], s)
  | o :: os => '(b, s) ← run_op o s; '(bs, s) ← run os s; Some (b :: bs, s)
  end.

(** The locos of the slots in use, newest first, read along the chain. *)
Definition locos (s : St) : option (list Z) :=
  l ← walk (size (heap s)) (heap s) (firstSlot s);
  mapM (λ x, loco <$> heap s !! x) l.

(** ** The list of locos and the number of slots ever created *)

Definition a_op (o : op) (a : list Z * Z) : bool * (list Z * Z) :=
  let '(l, n) := a in
  match o with
  | OGet id create =>
    if decide (id ∈ l) then (true, a)
    else if negb create then (false, a)
    else if Z.of_nat (length l) <? n then (true, (id :: l, n))
    else if (n <? MAX_LOCOS) && new_ok n then (true, (id :: l, n + 1))
    else (false, a)
  | OForget id =>
    if decide (id ∈ l) then (true, (base.filter (λ x, x ≠ id) l, n)) else (false, a)
  | OForgetAll => (true, ([], 0))
  end.

Fixpoint a_run (os : list op) (a : list Z * Z) : list bool * (list Z * Z) :=
  match os with
  | [] => ([], a)
  | o :: os => let '(b, a) := a_op o a in let '(bs, a) := a_run os a in (b :: bs, a)
  end.

Definition loco_at (s : St) (x : ptr) : option Z := loco <$> heap s !! x.

Definition rep (s : St) (a : list Z * Z) : Prop :=
  ∃ l r, table s l r ∧ mapM (loco_at s) l = Some a.1 ∧ slotCount s = a.2 ∧ a.2 <= MAX_LOCOS.

Lemma loco_at_elem s l ids id : mapM (loco_at s) l = Some ids →
  (id ∈ ids ↔ ∃ x c, x ∈ l ∧ heap s !! x = Some c ∧ loco c = id).
Proof.
  intros Hm%mapM_Some. unfold loco_at in Hm.
  induction Hm as [|x i l ids Hx Hm IH].
  - split; [by intros ?%elem_of_nil|]. by intros (? & ? & ?%elem_of_nil & _).
  - rewrite elem_of_cons, IH. destruct (heap s !! x) as [c|] eqn:E; simplify_eq/=. split.
    + intros [->|(y & d & ? & ? & ?)]; [exists x, c|exists y, d]; set_solver.
    + intros (y & d & [->|Hy]%elem_of_cons & Hd & <-); [left; congruence|right; eauto].
Qed.

Lemma table_NoDup s l r ids : table s l r → mapM (loco_at s) l = Some ids → NoDup ids.
Proof.
  intros T Hm%mapM_Some.
  pose proof (t_locos _ _ _ T) as Hl. pose proof (t_nodup _ _ _ T) as Hn.
  apply NoDup_app in Hn as [Hn _]. clear T.
  induction Hm as [|x i l ids Hx Hm IH]; [constructor|]. apply NoDup_cons in Hn as [Hxl Hn].
  constructor.
  - intros Hi. apply (loco_at_elem s l) in Hi as (y & d & Hy & Hd & Hi); [|by apply mapM_Some].
    unfold loco_at in Hx. destruct (heap s !! x) as [c|] eqn:E; simplify_eq/=.
    assert (x = y) as -> by (eapply Hl; [set_solver..|done|done|done]). done.
  - apply IH; [|done]. intros a b c d Ha Hb. apply Hl; set_solver.
Qed.

Lemma mapM_ext_in {A B} (f g : A → option B) l :
  (∀ x, x ∈ l → f x = g x) → mapM f l = mapM g l.
Proof.
  induction l as [|x l IH]; intros Hfg; simpl; [done|].
  rewrite Hfg by set_solver. by rewrite IH by set_solver.
Qed.

Lemma filter_id `(P : A → Prop) `{∀ x, Decision (P x)} (l : list A) :
  Forall P l → base.filter P l = l.
Proof. induction 1 as [|x l Hx Hl IH]; [done|]. by rewrite filter_cons_True, IH. Qed.

Lemma mapM_app_Some {A B} (f : A → option B) l1 l2 k :
  mapM f (l1 ++ l2) = Some k ↔ ∃ k1 k2, mapM f l1 = Some k1 ∧ mapM f l2 = Some k2 ∧ k = k1 ++ k2.
Proof.
  rewrite mapM_Some. setoid_rewrite mapM_Some. split.
  - by intros (k1 & k2 & ? & ? & ->)%Forall2_app_inv_l; eauto.
  - intros (k1 & k2 & ? & ? & ->). by apply Forall2_app.
Qed.

Lemma get_rep id create s ids n : MAX_LOCOS < 65536 → 0 < id < 65536 → rep s (ids, n) →
  ∃ p s', getSlot id create s = Some (p, s') ∧
    a_op (OGet id create) (ids, n) = (bool_decide (is_Some p), (a_op (OGet id create) (ids, n)).2) ∧
    rep s' (a_op (OGet id create) (ids, n)).2 ∧
    (create = false → s' = s ∧ ∀ x, p = Some x → loco_at s x = Some id) .
Proof.
  intros Hmax Hid (l & r & T & Hm & Hn & Hle). simpl in *.
  destruct (find_or_make_spec id create s l r Hmax T Hid) as (p & s' & Hg & G).
  exists p, s'. split; [done|]. clear Hg.
  assert (∀ x c, x ∈ l → heap s !! x = Some c → loco c = id → id ∈ ids) as Hin.
  { intros x c Hx Hc Hi. apply (loco_at_elem s l ids id Hm). eauto. }
  assert ((∀ x c, x ∈ l → heap s !! x = Some c → loco c ≠ id) → id ∉ ids) as Hout.
  { intros Hno Hi. apply (loco_at_elem s l ids id Hm) in Hi as (x & c & ? & ? & ?). by eapply Hno. }
  pose proof (t_count _ _ _ T) as Hcnt. rewrite length_app in Hcnt.
  pose proof (length_mapM _ _ _ Hm) as Hlen.
  destruct G as [x c Hx Hc Hi|Hno Hfull|x s' r' Hcr Hno Hxl T' Hx Hsame Hcount].
  - rewrite decide_True by eauto. split; [by rewrite bool_decide_true by eauto|]. split.
    + by exists l, r.
    + intros _. split; [done|]. intros ? [= <-]. unfold loco_at. rewrite Hc. simpl. congruence.
  - rewrite decide_False by auto. rewrite bool_decide_false by (by intros [? ?]).
    destruct create; simpl.
    + destruct (Hfull eq_refl) as [-> Hwhy]. simpl in Hcnt.
      replace (Z.of_nat (length ids) <? n) with false by lia.
      replace ((n <? MAX_LOCOS) && new_ok n) with false.
      2:{ rewrite Hn in Hwhy. destruct Hwhy as [?| ->]; [|by rewrite andb_false_r].
          by replace (n <? MAX_LOCOS) with false by lia. }
      split; [done|]. split; [by exists l, []|done].
    + split; [done|]. split; [by exists l, r|done].
  - subst create. rewrite decide_False by auto. rewrite bool_decide_true by eauto. simpl.
    assert (mapM (loco_at s') (x :: l) = Some (id :: ids)) as Hm'.
    { cbn [mapM]. change (loco_at s' x) with (loco <$> heap s' !! x). rewrite Hx. cbn [fmap option_fmap option_map mbind option_bind loco prepared]. rewrite u16_id by (unfold is_u16; lia).
      rewrite (mapM_ext_in _ (loco_at s)); [by rewrite Hm|].
      intros y Hy. unfold loco_at. rewrite Hsame; [done|]. by intros ->. }
    pose proof (t_count _ _ _ T') as Hcnt'. simpl in Hcnt'. rewrite length_app in Hcnt'.
    simpl in Hlen.
    destruct Hcount as [(-> & Hc')|(-> & -> & Hlt & Hnew & Hc')]; simpl in *.
    + replace (Z.of_nat (length ids) <? n) with true by lia. split; [done|]. split; [|done].
      exists (x :: l), r'. by rewrite Hc'.
    + replace (Z.of_nat (length ids) <? n) with false by lia. rewrite Hn in Hlt, Hnew. rewrite Hnew.
      replace (n <? MAX_LOCOS) with true by lia. simpl. split; [done|]. split; [|done].
      exists (x :: l), []. split; [done|]. split; [done|]. simpl. lia.
Qed.

Lemma forget_rep id s ids n : MAX_LOCOS < 65536 → 0 < id < 65536 → rep s (ids, n) →
  ∃ s', run_op (OForget id) s = Some ((a_op (OForget id) (ids, n)).1, s') ∧
    rep s' (a_op (OForget id) (ids, n)).2.
Proof.
  intros Hmax Hid (l & r & T & Hm & Hn & Hle). simpl in *.
  destruct (find_or_make_spec id false s l r Hmax T Hid) as (p & s1 & -> & G). simpl.
  destruct G as [x c Hx Hc Hi|Hno _|]; [| |done].
  - rewrite decide_True by (apply (loco_at_elem s l ids id Hm); eauto).
    destruct (list_elem_of_split _ _ Hx) as (l1 & l2 & ->).
    destruct (table_mid _ _ _ _ _ T) as (Hx1 & Hx2 & _).
    destruct (forget_spec s l1 x l2 r T) as (s' & -> & T' & Hdata & _ & Hcnt). simpl.
    exists s'. split; [done|]. exists (l1 ++ l2), (x :: r). split; [done|]. simpl.
    split; [|by rewrite Hcnt].
    assert (∀ y, loco_at s' y = loco_at s y) as Hsame.
    { intros y. specialize (Hdata y). unfold loco_at.
      destruct (heap s' !! y), (heap s !! y); simplify_eq/=; [|done]. f_equal. congruence. }
    rewrite (mapM_ext_in _ (loco_at s)) by auto.
    pose proof (table_NoDup _ _ _ _ T Hm) as Hnd.
    apply mapM_app_Some in Hm as (k1 & k2' & H1 & H2 & ->).
    cbn [mapM] in H2. change (loco_at s x) with (loco <$> heap s !! x) in H2. rewrite Hc in H2.
    cbn [fmap option_fmap option_map mbind option_bind] in H2.
    destruct (mapM (loco_at s) l2) as [k2|] eqn:E2; simplify_eq/=.
    injection H2 as <-. apply mapM_app_Some. exists k1, k2. split; [done|]. split; [done|].
    rewrite NoDup_app, NoDup_cons in Hnd. destruct Hnd as (_ & Hd1 & Hd2 & _).
    rewrite filter_app, filter_cons_False by naive_solver.
    rewrite !filter_id; [done|..]; apply Forall_forall; intros y Hy ->; set_solver.
  - rewrite decide_False.
    + exists s. split; [done|]. by exists l, r.
    + intros (x & c & ? & ? & ?)%(loco_at_elem s l ids id Hm). by eapply Hno.
Qed.

Lemma table_op_rep o s a : MAX_LOCOS < 65536 → 0 <= MAX_LOCOS → op_ok o → rep s a →
  ∃ s', run_op o s = Some ((a_op o a).1, s') ∧ rep s' (a_op o a).2.
Proof.
  intros Hmax Hmax0 Hok R. destruct a as [ids n]. destruct o as [id create|id|].
  - destruct (get_rep id create s ids n Hmax Hok R) as (p & s' & Hg & Ha & R' & _).
    cbn [run_op]. rewrite Hg. exists s'. split; [|done]. cbn [mbind option_bind]. by rewrite Ha.
  - by apply forget_rep.
  - destruct R as (l & r & T & _). destruct (forgetAll_spec s l r T) as (s' & Hf & _ & T' & _).
    cbn [run_op]. rewrite Hf. exists s'. split; [done|]. exists [], []. split; [done|]. simpl.
    split; [done|]. split; [|done]. by rewrite (t_count _ _ _ T').
Qed.

Lemma table_run_rep os : MAX_LOCOS < 65536 → 0 <= MAX_LOCOS → Forall op_ok os → ∀ s a, rep s a →
  ∃ s', run os s = Some ((a_run os a).1, s') ∧ rep s' (a_run os a).2.
Proof.
  intros Hmax Hmax0. induction 1 as [|o os Ho Hos IH]; intros s a R; simpl; [eauto|].
  destruct (table_op_rep o s a Hmax Hmax0 Ho R) as (s1 & -> & R1).
  destruct (a_op o a) as [b a1]. simpl in *.
  destruct (IH s1 a1 R1) as (s2 & -> & R2). destruct (a_run os a1) as [bs a2]. simpl in *. eauto.
Qed.

Lemma table_rep_init : 0 <= MAX_LOCOS → rep init ([], 0).
Proof. intros. exists [], []. by split; [apply table_init|]. Qed.

Lemma rep_locos s a : rep s a → locos s = Some a.1 ∧ slotCount s = a.2 ∧
  NoDup a.1 ∧ Z.of_nat (length a.1) <= a.2 <= MAX_LOCOS.
Proof.
  intros (l & r & T & Hm & Hn & Hle). unfold locos.
  rewrite (chain_walk _ _ _ _ (t_used _ _ _ T)) by (eapply chain_length; apply T). simpl.
  split; [exact Hm|]. split; [done|]. split; [by eapply table_NoDup|]. split; [|done].
  rewrite <-Hn, (t_count _ _ _ T), length_app, <-(length_mapM _ _ _ Hm). lia.
Qed.

End table.

(** C4. Refinement: any sequence of look-ups, creations and removals of locos
    1 to 65535 runs without a bad dereference, answers as the list of locos
    does (a creation fails only when MAX_LOCOS slots exist and none is
    recycled, or the allocation fails), and leaves a chain with the locos of
    the list, all different, in at most MAX_LOCOS slots. *)
Theorem loco_table_refines `{Config} os : 0 <= MAX_LOCOS < 65536 → Forall op_ok os →
  ∃ s, run os init = Some ((a_run os ([], 0)).1, s) ∧
    locos s = Some (a_run os ([], 0)).2.1 ∧ slotCount s = (a_run os ([], 0)).2.2 ∧
    NoDup (a_run os ([], 0)).2.1 ∧
    Z.of_nat (length (a_run os ([], 0)).2.1) <= slotCount s <= MAX_LOCOS.
Proof.
  intros [Hmax0 Hmax] Hos.
  destruct (table_run_rep os Hmax Hmax0 Hos init ([], 0) (table_rep_init Hmax0)) as (s & Hr & R).
  exists s. destruct (rep_locos _ _ R) as (Hl & Hn & Hnd & Hle).
  split; [done|]. split; [done|]. split; [done|]. split; [done|]. by rewrite Hn.
Qed.

#[local] Instance demo_config : Config := {| MAX_LOCOS := 2; new_ok _ := true |}.

Lemma loco_table_refines_witness : ∃ s,
  run [OGet 3 true; OGet 4 true; OGet 5 true; OForget 3; OGet 5 true; OGet 3 false] init =
    Some ([true; true; false; true; true; false], s) ∧ locos s = Some [5; 4].
Proof.
  destruct (loco_table_refines (H := demo_config)
    [OGet 3 true; OGet 4 true; OGet 5 true; OForget 3; OGet 5 true; OGet 3 false])
    as (s & Hr & Hl & _); [simpl; lia|repeat constructor; simpl; lia|]. exists s. by split.
Defined.

End LocoTable.
