(* ===== verification/DCCConsist.v ===== *)
(** In-command-station consists (src/DCCConsist.cpp): chains of loco slots
    through [consistNext], every follower pointing back to its lead. *)

From S2P Require Import Prelude Chain LocoSlot.
Import LocoSlot.

Module DCCConsist.
Section consist.
Context `{Config}.

(** What [parse] prints. *)
Inductive msg :=
  | Consist (signed : list Z)        (* <^ 3 -4 > *)
  | InvalidLocoid (p : Z)
  | DuplicateLocoid (p : Z)
  | InAnotherConsist (id : Z).

(** [while(slot)]: the links of every slot of a consist are cleared. *)
Fixpoint clear_loop (fuel : nat) (p : option ptr) (s : St) : option St :=
  match p, fuel with
  | None, _ => Some s
  | Some _, O => None
  | Some x, S fuel =>
    c ← load s x;
    s ← modify x (λ c, LocoSlot.setConsistReverse false (setConsistNext None (setConsistLead None c))) s;
    clear_loop fuel (consistNext c) s
  end.

Definition deleteAnyConsist (locoid : Z) (s : St) : option St :=
  '(p, s) ← getSlot (u16 (Z.abs locoid)) false s;
  match p with
  | None => Some s (* no such loco *)
  | Some x =>
    c ← load s x;
    clear_loop (S (size (heap s))) (if isConsistLead c then Some x else consistLead c) s
  end.

(** The followers of a consist as [parse] lists them. *)
Fixpoint members_loop (fuel : nat) (p : option ptr) (s : St) : option (list Z) :=
  match p, fuel with
  | None, _ => Some []
  | Some _, O => None
  | Some x, S fuel =>
    c ← load s x;
    l ← members_loop fuel (consistNext c) s;
    Some ((if consistReverse c then - loco c else loco c) :: l)
  end.

Fixpoint list_loop (fuel : nat) (p : option ptr) (s : St) : option (list msg) :=
  match p, fuel with
  | None, _ => Some []
  | Some _, O => None
  | Some x, S fuel =>
    c ← load s x;
    if isConsistLead c then
      m ← members_loop (S (size (heap s))) (Some x) s;
      l ← list_loop fuel (next c) s;
      Some (Consist m :: l)
    else list_loop fuel (next c) s
  end.

(** Detect any invalid locoids or duplicates. *)
Fixpoint invalid (p : list Z) : option msg :=
  match p with
  | [] => None
  | x :: p =>
    let locoId := u16 (Z.abs x) in
    if (locoId <? 1) || (locoId >? 10239) then Some (InvalidLocoid x)
    else if existsb (λ y, Z.abs y =? locoId) p then Some (DuplicateLocoid x)
    else invalid p
  end.

Fixpoint in_other (p : list Z) (s : St) : option (option msg) :=
  match p with
  | [] => Some None
  | x :: p =>
    '(q, s) ← getSlot (u16 (Z.abs x)) false s;
    match q with
    | None => in_other p s
    | Some a =>
      c ← load s a;
      if isConsistLead c || isConsistFollower c then Some (Some (InAnotherConsist (Z.abs x)))
      else in_other p s
    end
  end.

(** The loop that chains the followers; a slot that cannot be had is a null
    dereference. *)
Fixpoint link_loop (lead prev : ptr) (p : list Z) (s : St) : option St :=
  match p with
  | [] => Some s
  | x :: p =>
    '(q, s) ← getSlot (u16 (Z.abs x)) true s;
    match q with
    | None => None
    | Some a =>
      s ← modify a (λ c, LocoSlot.setConsistReverse (x <? 0) (setConsistLead (Some lead) c)) s;
      s ← modify prev (setConsistNext (Some a)) s;
      link_loop lead a p s
    end
  end.

Definition make_consist (p0 : Z) (p : list Z) (s : St) : option (bool * list msg * St) :=
  bad ← in_other (p0 :: p) s;
  match bad with
  | Some m => Some (false, [m], s)
  | None =>
    '(q, s) ← getSlot (u16 (Z.abs p0)) true s;
    match q with
    | None => None
    | Some lead =>
      s ← modify lead (LocoSlot.setConsistReverse (p0 <? 0)) s;
      s ← link_loop lead lead p s;
      Some (true, [], s)
    end
  end.

Definition parse (p : list Z) (s : St) : option (bool * list msg * St) :=
  match p with
  | [] => l ← list_loop (S (size (heap s))) (firstSlot s) s; Some (true, l, s)
  | p0 :: rest =>
    match invalid p with
    | Some m => Some (false, [m], s)
    | None =>
      '(q, s) ← getSlot (u16 (Z.abs p0)) false s;
      lead ← match q with
             | Some x => c ← load s x; Some (isConsistLead c)
             | None => Some false
             end;
      s ← (if lead : bool then deleteAnyConsist p0 s else Some s);
      match rest with
      | [] => Some (true, [], s) (* we only had to delete *)
      | _ => make_consist p0 rest s
      end
    end
  end.

(** [while(leadSlot->getConsistLead())] and [while(tailSlot->getConsistNext())] *)
Fixpoint follow_loop (fuel : nat) (link : LocoSlot → option ptr) (x : ptr) (s : St) : option ptr :=
  match fuel with
  | O => None
  | S fuel =>
    c ← load s x;
    match link c with Some y => follow_loop fuel link y s | None => Some x end
  end.

Definition addLocoToConsist (consistId locoId : Z) (revesed : bool) (s : St) : option (bool * St) :=
  if (consistId <? 1) || (consistId >? 10239) then Some (false, s) else
  if (locoId <? 1) || (locoId >? 10239) then Some (false, s) else
  if locoId =? consistId then Some (true, s) else (* cant add lead to itself *)
  '(q, s) ← getSlot consistId true s;
  match q with
  | None => Some (false, s) (* no ram *)
  | Some x =>
    let fuel := S (size (heap s)) in
    lead ← follow_loop fuel consistLead x s;
    tail ← follow_loop fuel consistNext lead s;
    '(q, s) ← getSlot locoId true s;
    match q with
    | None => Some (false, s) (* no ram *)
    | Some a =>
      c ← load s a;
      if isConsistLead c || isConsistFollower c then Some (false, s) (* already in consist *)
      else
        s ← modify a (LocoSlot.setConsistReverse revesed) s;
        s ← (if decide (a = lead) then Some s else modify a (setConsistLead (Some lead)) s);
        s ← (if decide (tail = a) then Some s else modify tail (setConsistNext (Some a)) s);
        Some (true, s)
    end
  end.

End consist.
End DCCConsist.
