(* ===== verification/DCCWaveform.v ===== *)
(** The track signal generator (src/DCCWaveform.h, src/DCCWaveform.cpp, the
    timer-interrupt version of AVR, SAMD, STM32 and Teensy with
    HAS_ENOUGH_MEMORY): the wave state machine of each track, the packet
    buffers, and the interrupt handler of both tracks. *)

From S2P Require Import Prelude.

Module DCCWaveform.

Definition PREAMBLE_BITS_MAIN : Z := 16.
Definition PREAMBLE_BITS_PROG : Z := 22.
Definition MAX_PACKET_SIZE : Z := 5.

Inductive WAVE_STATE :=
  | WAVE_START | WAVE_MID_1 | WAVE_HIGH_0 | WAVE_MID_0 | WAVE_LOW_0 | WAVE_PENDING.

#[export] Instance WAVE_STATE_eq_dec : EqDecision WAVE_STATE.
Proof. solve_decision. Defined.

Definition bitMask : list Z := [0; 128; 64; 32; 16; 8; 4; 2; 1].
Definition idlePacket : list Z := [255; 0; 255].
Definition resetPacket : list Z := [0; 0; 0].

Definition stateTransform (s : WAVE_STATE) : WAVE_STATE :=
  match s with
  | WAVE_START => WAVE_PENDING
  | WAVE_MID_1 => WAVE_START
  | WAVE_HIGH_0 => WAVE_MID_0
  | WAVE_MID_0 => WAVE_LOW_0
  | WAVE_LOW_0 => WAVE_START
  | WAVE_PENDING => WAVE_PENDING
  end.

(** [true] is HIGH. *)
Definition signalTransform (s : WAVE_STATE) : bool :=
  match s with
  | WAVE_START => true
  | WAVE_MID_1 => false
  | WAVE_HIGH_0 => true
  | WAVE_MID_0 => false
  | WAVE_LOW_0 => false
  | WAVE_PENDING => false
  end.

Record Wave := mkWave {
  packetPending : bool;
  reminderWindowOpen : bool;
  sentResetsSincePacket : Z;
  isMainTrack : bool;
  transmitPacket : list Z;
  transmitLength : Z;
  transmitRepeats : Z;
  remainingPreambles : Z;
  requiredPreambles : Z;
  bits_sent : Z;
  bytes_sent : Z;
  state : WAVE_STATE;
  pendingPacket : list Z;
  pendingLength : Z;
  pendingRepeats : Z;
}.

(** [memcpy] of a whole source into the front of a destination. *)
Definition copy (dst src : list Z) : list Z := src ++ drop (length src) dst.

(** The constructor; the fields it does not set are those of a static object,
    zero. *)
Definition new_wave (preambleBits : Z) (isMain : bool) : Wave :=
  mkWave false false 0 isMain (copy (replicate 6 0) idlePacket) 0 0 0 (preambleBits + 1) 0 0
    WAVE_START (replicate 6 0) 0 0.

Definition clearResets (w : Wave) : Wave :=
  mkWave (packetPending w) (reminderWindowOpen w) 0 (isMainTrack w) (transmitPacket w) (transmitLength w)
    (transmitRepeats w) (remainingPreambles w) (requiredPreambles w) (bits_sent w) (bytes_sent w)
    (state w) (pendingPacket w) (pendingLength w) (pendingRepeats w).
Definition clearRepeats (w : Wave) : Wave :=
  mkWave (packetPending w) (reminderWindowOpen w) (sentResetsSincePacket w) (isMainTrack w)
    (transmitPacket w) (transmitLength w) 0 (remainingPreambles w) (requiredPreambles w) (bits_sent w)
    (bytes_sent w) (state w) (pendingPacket w) (pendingLength w) (pendingRepeats w).
Definition getResets (w : Wave) : Z := sentResetsSincePacket w.
Definition isReminderWindowOpen (w : Wave) : bool := reminderWindowOpen w && negb (packetPending w).

Definition with_state (st : WAVE_STATE) (w : Wave) : Wave :=
  mkWave (packetPending w) (reminderWindowOpen w) (sentResetsSincePacket w) (isMainTrack w)
    (transmitPacket w) (transmitLength w) (transmitRepeats w) (remainingPreambles w)
    (requiredPreambles w) (bits_sent w) (bytes_sent w) st (pendingPacket w) (pendingLength w)
    (pendingRepeats w).
(** Writing the fields of the transmission: packet, length, repeats, pending
    flag and reset count. *)
Definition with_transmit (pk : list Z) (len reps : Z) (pend : bool) (resets : Z) (w : Wave) : Wave :=
  mkWave pend (reminderWindowOpen w) resets (isMainTrack w) pk len reps (remainingPreambles w)
    (requiredPreambles w) (bits_sent w) (bytes_sent w) (state w) (pendingPacket w) (pendingLength w)
    (pendingRepeats w).
Definition with_position (bits bytes rem : Z) (w : Wave) : Wave :=
  mkWave (packetPending w) (reminderWindowOpen w) (sentResetsSincePacket w) (isMainTrack w)
    (transmitPacket w) (transmitLength w) (transmitRepeats w) rem (requiredPreambles w) bits bytes
    (state w) (pendingPacket w) (pendingLength w) (pendingRepeats w).
Definition with_window (b : bool) (w : Wave) : Wave :=
  mkWave (packetPending w) b (sentResetsSincePacket w) (isMainTrack w) (transmitPacket w)
    (transmitLength w) (transmitRepeats w) (remainingPreambles w) (requiredPreambles w) (bits_sent w)
    (bytes_sent w) (state w) (pendingPacket w) (pendingLength w) (pendingRepeats w).

(** * Packets *)

(** The body of [schedulePacket] once no packet is pending; before, the caller
    waits in a loop for the interrupts to take the pending packet. *)
Definition load_pending (buffer : list Z) (byteCount repeats : Z) (w : Wave) : option Wave :=
  if (Z.of_nat (length buffer) <? byteCount) || (byteCount <? 0) then None else
  let data := take (Z.to_nat byteCount) buffer in
  let checksum := fold_left Z.lxor data 0 in
  let pk := copy (pendingPacket w) (data ++ [checksum]) in
  Some (clearResets
    (mkWave true (reminderWindowOpen w) (sentResetsSincePacket w) (isMainTrack w) (transmitPacket w)
      (transmitLength w) (transmitRepeats w) (remainingPreambles w) (requiredPreambles w) (bits_sent w)
      (bytes_sent w) (state w) pk (byteCount + 1) repeats)).

(** [schedulePacket]; [None] while the caller waits. *)
Definition schedulePacket (buffer : list Z) (byteCount repeats : Z) (w : Wave) : option Wave :=
  if byteCount >? MAX_PACKET_SIZE then Some w
  else if packetPending w then None
  else load_pending buffer byteCount repeats w.

Definition promotePendingPacket (w : Wave) : Wave :=
  if transmitRepeats w >? 0 then
    with_transmit (transmitPacket w) (transmitLength w) (transmitRepeats w - 1) (packetPending w)
      (sentResetsSincePacket w) w
  else if packetPending w then
    clearResets (with_transmit (pendingPacket w) (pendingLength w) (pendingRepeats w) false
      (sentResetsSincePacket w) w)
  else
    with_transmit (copy (transmitPacket w) (if isMainTrack w then idlePacket else resetPacket)) 3 0
      (packetPending w)
      (if getResets w <? 250 then sentResetsSincePacket w + 1 else sentResetsSincePacket w) w.

(** * Interrupts *)

(** What an interrupt does outside the class. *)
Inductive ev :=
  | SetDCCSignal (high : bool)
  | SetPROGSignal (high : bool)
  | IncCutout
  | StartRailcomTimer
  | AckRailcomTimer
  | CheckAck (resets : Z).

(** The preamble part of [interrupt2]: [railcom] is
    [railcomActive && !railcomPaused]; the results say whether
    [cutoutNextTime] is set and the railcom timer acknowledged. *)
Definition preamble (railcom : bool) (w : Wave) : Wave * bool * bool :=
  let w := with_state WAVE_MID_1 w in
  let rem := remainingPreambles w - 1 in
  let w := with_position (bits_sent w) (bytes_sent w) rem w in
  let w := with_window ((transmitRepeats w =? 0) && (rem <? 12) && (rem >? 1)) w in
  if rem =? 1 then (promotePendingPacket w, false, false)
  else if isMainTrack w && railcom then
    if rem =? requiredPreambles w - 1 then (w, true, false)
    else if rem =? requiredPreambles w - 12 then (w, false, false)
    else (w, false, rem =? requiredPreambles w - 3)
  else (w, false, false).

Definition interrupt2 (railcom : bool) (w : Wave) : option (Wave * bool * bool) :=
  if remainingPreambles w >? 0 then Some (preamble railcom w) else
  b ← transmitPacket w !! Z.to_nat (bytes_sent w);
  m ← bitMask !! Z.to_nat (bits_sent w);
  let w := with_state (if tru (b .& m) then WAVE_MID_1 else WAVE_HIGH_0) w in
  let bits := bits_sent w + 1 in
  let w :=
    if bits =? 9 then
      if bytes_sent w + 1 >=? transmitLength w
      then with_position 0 0 (requiredPreambles w) w
      else with_position 0 (bytes_sent w + 1) (remainingPreambles w) w
    else with_position bits (bytes_sent w) (remainingPreambles w) w in
  Some (w, false, false).

Record Statics := mkStatics {
  railcomPossible : bool;
  railcomActive : bool;
  railcomPaused : bool;
  cutoutNextTime : bool;
}.

Definition setRailcom (on : bool) (t : Statics) : bool * Statics :=
  let a := on && railcomPossible t in
  (a, mkStatics (railcomPossible t) a (railcomPaused t) (cutoutNextTime t)).
Definition pauseRailcom (paused : bool) (t : Statics) : bool * Statics :=
  let p := paused && railcomPossible t in
  (p, mkStatics (railcomPossible t) (railcomActive t) p (cutoutNextTime t)).
Definition setRailcomPossible (yes : bool) (t : Statics) : Statics :=
  let t := mkStatics yes (railcomActive t) (railcomPaused t) (cutoutNextTime t) in
  if yes then t else (setRailcom false t).2.

(** One timer interrupt, for both tracks. *)
Definition interruptHandler (syncMain : bool) (t : Statics) (main prog : Wave)
    : option (list ev * Statics * Wave * Wave) :=
  let cut := cutoutNextTime t in
  let e0 := if cut then [IncCutout; StartRailcomTimer] else [] in
  let sigMain := signalTransform (state main) in
  let sigProg := if syncMain then sigMain else signalTransform (state prog) in
  let main := with_state (stateTransform (state main)) main in
  let prog := with_state (stateTransform (state prog)) prog in
  let railcom := railcomActive t && negb (railcomPaused t) in
  '(main, next, ack) ← (if decide (state main = WAVE_PENDING) then interrupt2 railcom main
                        else Some (main, false, false));
  '(prog, chk) ← (if decide (state prog = WAVE_PENDING)
                  then '(prog, _, _) ← interrupt2 railcom prog; Some (prog, [])
                  else Some (prog, [CheckAck (getResets prog)]));
  Some (e0 ++ [SetDCCSignal sigMain; SetPROGSignal sigProg] ++
        (if ack : bool then [AckRailcomTimer] else []) ++ chk,
        mkStatics (railcomPossible t) (railcomActive t) (railcomPaused t) next,
        main, prog).

End DCCWaveform.
