(* ===== verification/WaveProps.v ===== *)
(** The signal a track carries: the bits the wave generator sends are the
    packets given to it, framed as NMRA S-9.2 requires (preamble, a zero
    before each byte, checksum last), as often as asked, and each bit is two
    or four half-bit interrupts of the pin. *)

From S2P Require Import Prelude DCCWaveform.
Import DCCWaveform.

Module WaveProps.

(** * The bits of a packet *)

#[local] Arguments Z.testbit : simpl never.

Definition byte_bits (b : Z) : list bool :=
  false :: ((λ i, Z.testbit b i) <$> [7; 6; 5; 4; 3; 2; 1; 0]).
Definition frame (l : list Z) : list bool := concat (byte_bits <$> l).
Definition pin_bit (b : bool) : list bool := if b then [true; false] else [true; true; false; false].

(** A decoder: the bits of a byte, most significant first, then the bytes
    after the preamble's end, each one announced by a zero. *)
Definition byte_value (l : list bool) : Z := fold_left (λ a (b : bool), 2 * a + b2z b) l 0.
Fixpoint read_bytes (fuel : nat) (l : list bool) : list Z :=
  match fuel, l with
  | S fuel, false :: l => byte_value (take 8 l) :: read_bytes fuel (drop 8 l)
  | _, _ => []
  end.
Fixpoint skip_preamble (l : list bool) : list bool :=
  match l with true :: l => skip_preamble l | _ => l end.
Definition decode (l : list bool) : list Z := read_bytes 6 (skip_preamble l).

(** * Running a track *)

Fixpoint emit (railcom : bool) (n : nat) (w : Wave) : option (list bool * Wave) :=
  match n with
  | O => Some ([], w)
  | S n =>
    '(w, _, _) ← interrupt2 railcom w;
    '(l, w') ← emit railcom n w;
    Some (bool_decide (state w = WAVE_MID_1) :: l, w')
  end.

(** One interrupt of one track: the level of the pin, and the next state. *)
Definition track_step (railcom : bool) (w : Wave) : option (bool * Wave) :=
  let sig := signalTransform (state w) in
  let w := with_state (stateTransform (state w)) w in
  if decide (state w = WAVE_PENDING)
  then '(w, _, _) ← interrupt2 railcom w; Some (sig, w) else Some (sig, w).

Fixpoint track_run (railcom : bool) (n : nat) (w : Wave) : option (list bool * Wave) :=
  match n with
  | O => Some ([], w)
  | S n => '(p, w) ← track_step railcom w; '(l, w) ← track_run railcom n w; Some (p :: l, w)
  end.

(** The wave but for its state and its reminder window, which do not
    influence the bits. *)
Definition core (w : Wave) : Wave := with_state WAVE_START (with_window false w).

Lemma emit_app r n m w :
  emit r (n + m) w = ('(a, w1) ← emit r n w; '(b, w2) ← emit r m w1; Some (a ++ b, w2)).
Proof.
  revert w. induction n as [|n IH]; intros w; simpl.
  - by destruct (emit r m w) as [[? ?]|].
  - destruct (interrupt2 r w) as [[[w1 ?] ?]|]; simpl; [|done]. rewrite IH.
    destruct (emit r n w1) as [[? w2]|]; simpl; [|done]. by destruct (emit r m w2) as [[? ?]|].
Qed.

Lemma interrupt2_core r w :
  (λ '(w, _, _), (core w, state w)) <$> interrupt2 r w =
  (λ '(w, _, _), (core w, state w)) <$> interrupt2 r (core w).
Proof.
  unfold interrupt2. change (remainingPreambles (core w)) with (remainingPreambles w).
  change (transmitPacket (core w)) with (transmitPacket w).
  change (bytes_sent (core w)) with (bytes_sent w). change (bits_sent (core w)) with (bits_sent w).
  destruct (remainingPreambles w >? 0).
  - destruct w. cbv -[Z.gtb Z.ltb Z.eqb Z.sub Z.add copy idlePacket resetPacket].
    repeat case_match; simplify_eq; done.
  - destruct (transmitPacket w !! _); simpl; [|done].
    destruct (bitMask !! Z.to_nat (bits_sent w)); simpl; [|done].
    destruct w; simpl. by repeat case_match.
Qed.

Lemma emit_core r n w :
  (λ '(l, w), (l, core w)) <$> emit r n w = (λ '(l, w), (l, core w)) <$> emit r n (core w).
Proof.
  revert w. induction n as [|n IH]; intros w; simpl; [done|].
  pose proof (interrupt2_core r w) as Hc.
  destruct (interrupt2 r w) as [[[w1 ?] ?]|], (interrupt2 r (core w)) as [[[w2 ?] ?]|];
    cbn [fmap option_fmap option_map] in Hc; try done; cbn [mbind option_bind].
  assert (core w1 = core w2 ∧ state w1 = state w2) as [Hcw ->] by (split; congruence).
  pose proof (IH w1) as I1. pose proof (IH w2) as I2. rewrite <-Hcw, <-I1 in I2. clear I1.
  destruct (emit r n w1) as [[l1 v1]|], (emit r n w2) as [[l2 v2]|];
    cbn [fmap option_fmap option_map] in I2; try done; cbn [mbind option_bind fmap option_fmap option_map].
  assert (l1 = l2 ∧ core v1 = core v2) as [-> ->] by (split; congruence). done.
Qed.

(** Two waves with one core send the same bits. *)
Lemma emit_like r n w w' l w1 : core w = core w' → emit r n w = Some (l, w1) →
  ∃ w1', emit r n w' = Some (l, w1') ∧ core w1' = core w1.
Proof.
  intros Hc He. pose proof (emit_core r n w) as H1. pose proof (emit_core r n w') as H2.
  rewrite Hc, <-H2, He in H1. cbn [fmap option_fmap option_map] in H1.
  destruct (emit r n w') as [[l' w1']|]; cbn [fmap option_fmap option_map] in H1; [|done].
  exists w1'. split; congruence.
Qed.

(** ** A byte, a preamble, a packet *)

Lemma byte_bits_mask b k : (k < 9)%nat →
  ∃ m, bitMask !! k = Some m ∧ byte_bits b !! k = Some (tru (b .& m)).
Proof.
  intros Hk. pose proof (λ i H, f_equal Some (eq_sym (testbit_mask b i H))) as M.
  destruct k as [|[|[|[|[|[|[|[|[|k]]]]]]]]]; [..|lia]; (eexists; split; [reflexivity|]).
  - by rewrite Z.land_0_r.
  - exact (M 7 ltac:(lia)).
  - exact (M 6 ltac:(lia)).
  - exact (M 5 ltac:(lia)).
  - exact (M 4 ltac:(lia)).
  - exact (M 3 ltac:(lia)).
  - exact (M 2 ltac:(lia)).
  - exact (M 1 ltac:(lia)).
  - exact (M 0 ltac:(lia)).
Qed.

(** Bit [k] of the byte, the zero before it being bit 0. *)
Lemma bit_step r w b k bit :
  remainingPreambles w = 0 → bits_sent w = Z.of_nat k → transmitPacket w !! Z.to_nat (bytes_sent w) = Some b →
  byte_bits b !! k = Some bit → (k < 8)%nat →
  ∃ w', interrupt2 r w = Some (w', false, false) ∧ bool_decide (state w' = WAVE_MID_1) = bit ∧
    core w' = core (with_position (Z.of_nat (S k)) (bytes_sent w) 0 w).
Proof.
  intros Hr Hb Hp Hk Hk8. unfold interrupt2. rewrite Hr, Hb, Hp, Nat2Z.id. simpl.
  destruct (byte_bits_mask b k) as (m & -> & Hm); [lia|].
  rewrite Hk in Hm. injection Hm as Hm.
  simpl. rewrite Hm. eexists. split; [done|].
  destruct w; simpl in *; subst. replace (Z.of_nat k + 1 =? 9) with false by lia.
  replace (Z.of_nat k + 1) with (Z.of_nat (S k)) by lia. by destruct (tru (b .& m)).
Qed.

Lemma byte_emit r w b :
  remainingPreambles w = 0 → bits_sent w = 0 → transmitPacket w !! Z.to_nat (bytes_sent w) = Some b →
  ∃ w', emit r 9 w = Some (byte_bits b, w') ∧
    core w' = core (if bytes_sent w + 1 >=? transmitLength w
                    then with_position 0 0 (requiredPreambles w) w
                    else with_position 0 (bytes_sent w + 1) 0 w).
Proof.
  intros Hr Hb Hp.
  assert (∀ k, (k <= 8)%nat → ∃ w', emit r k w = Some (take k (byte_bits b), w') ∧
    core w' = core (with_position (Z.of_nat k) (bytes_sent w) 0 w)) as H8.
  { induction k as [|k IH]; intros Hk.
    - exists w. split; [done|]. destruct w; simpl in *; by subst.
    - destruct IH as (w1 & He & Hc); [lia|].
      destruct (lookup_lt_is_Some_2 (byte_bits b) k) as [bit Hbit]; [simpl; lia|].
      replace (S k) with (k + 1)%nat by lia. rewrite emit_app, He. simpl.
      pose proof (f_equal remainingPreambles Hc) as E1. pose proof (f_equal bits_sent Hc) as E2.
      pose proof (f_equal bytes_sent Hc) as E3. pose proof (f_equal transmitPacket Hc) as E4.
      simpl in E1, E2, E3, E4.
      destruct (bit_step r w1 b k bit) as (w2 & Hi & Hs & Hc2); [done|done|by rewrite E4, E3|done|lia|].
      rewrite Hi. simpl. exists w2. rewrite Hs. split.
      + replace (k + 1)%nat with (S k) by lia. by rewrite (take_S_r _ _ bit).
      + rewrite Hc2. rewrite E3. replace (k + 1)%nat with (S k) by lia.
        destruct w, w1; unfold core in *; simpl in *; simplify_eq. done. }
  destruct (H8 8%nat) as (w1 & He & Hc); [lia|].
  change 9%nat with (8 + 1)%nat. rewrite emit_app, He. simpl.
  destruct w, w1; unfold core in *; simpl in *; simplify_eq. unfold interrupt2. simpl.
  pose proof (testbit_mask b 0 ltac:(lia)) as M. change (2 ^ 0) with 1 in M.
  rewrite Hp. simpl. rewrite M. unfold byte_bits. simpl.
  destruct (bytes_sent0 + 1 >=? transmitLength0), (Z.testbit b 0); eexists; (split; [done|done]).
Qed.

Lemma emit_S r n w : emit r (S n) w = ('(w, _, _) ← interrupt2 r w;
  '(l, w') ← emit r n w; Some (bool_decide (state w = WAVE_MID_1) :: l, w')).
Proof. done. Qed.
Lemma emit_0 r w : emit r 0 w = Some ([], w).
Proof. done. Qed.
#[local] Arguments emit : simpl never.
#[local] Arguments Nat.mul : simpl never.

(** The bytes from position [j] to the end of the packet. *)
Lemma bytes_emit r : ∀ n w j, remainingPreambles w = 0 → bits_sent w = 0 → bytes_sent w = Z.of_nat j →
  transmitLength w = Z.of_nat (j + S n) → (j + S n <= length (transmitPacket w))%nat →
  ∃ w', emit r (9 * S n) w = Some (frame (take (S n) (drop j (transmitPacket w))), w') ∧
    core w' = core (with_position 0 0 (requiredPreambles w) w).
Proof.
  induction n as [|n IH]; intros w j Hr Hb Hj Hl Hlen;
    (destruct (lookup_lt_is_Some_2 (transmitPacket w) j) as [b Hlook]; [lia|]);
    pose proof (byte_emit r w b Hr Hb) as Hbyte; rewrite Hj, Nat2Z.id in Hbyte;
    specialize (Hbyte Hlook) as (w1 & He & Hc); rewrite (drop_S _ b) by done.
  - rewrite Hl in Hc. replace (Z.of_nat j + 1 >=? Z.of_nat (j + 1)) with true in Hc by lia.
    exists w1. split; [|done]. change (9 * 1)%nat with 9%nat. rewrite He. unfold frame. simpl. done.
  - rewrite Hl in Hc. replace (Z.of_nat j + 1 >=? Z.of_nat (j + S (S n))) with false in Hc by lia.
    replace (9 * S (S n))%nat with (9 + 9 * S n)%nat by lia. rewrite emit_app, He. cbn [mbind option_bind].
    destruct (IH (with_position 0 (Z.of_nat j + 1) 0 w) (S j)) as (w2 & He2 & Hc2); simpl; try done; try lia.
    destruct (emit_like r (9 * S n) _ w1 _ _ (eq_sym Hc) He2) as (w3 & He3 & Hc3).
    rewrite He3. exists w3. split; [|by rewrite Hc3, Hc2].
    cbn [mbind option_bind]. f_equal.
Qed.

(** One bit of the preamble. *)
Lemma preamble_step r w : remainingPreambles w > 0 →
  ∃ w' a b, interrupt2 r w = Some (w', a, b) ∧ state w' = WAVE_MID_1 ∧
    core w' = core (let w1 := with_position (bits_sent w) (bytes_sent w) (remainingPreambles w - 1) w in
                    if remainingPreambles w - 1 =? 1 then promotePendingPacket w1 else w1).
Proof.
  intros Hr. unfold interrupt2. replace (remainingPreambles w >? 0) with true by lia.
  destruct w. cbv -[Z.gtb Z.ltb Z.eqb Z.sub Z.add copy idlePacket resetPacket].
  repeat case_match; eexists _, _, _; (split; [reflexivity|by split]).
Qed.

Lemma preamble_emit r : ∀ k w, remainingPreambles w = Z.of_nat (S (S k)) →
  ∃ w', emit r (S (S k)) w = Some (replicate (S (S k)) true, w') ∧
    core w' = core (with_position (bits_sent w) (bytes_sent w) 0 (promotePendingPacket w)).
Proof.
  induction k as [|k IH]; intros w Hr.
  - destruct (preamble_step r w) as (w1 & a & b & Hi & Hs & Hc); [lia|].
    rewrite Hr in Hc. simpl in Hc. rewrite emit_S, Hi. cbn [mbind option_bind].
    assert (remainingPreambles w1 = 1) as Hr1.
    { apply (f_equal remainingPreambles) in Hc. simpl in Hc. rewrite Hc.
      destruct w. unfold promotePendingPacket; simpl. by repeat case_match. }
    destruct (preamble_step r w1) as (w2 & a2 & b2 & Hi2 & Hs2 & Hc2); [lia|].
    rewrite Hr1 in Hc2. simpl in Hc2. rewrite emit_S, Hi2. cbn [mbind option_bind].
    rewrite emit_0. cbn [mbind option_bind].
    rewrite Hs, Hs2. exists w2. split; [done|]. rewrite Hc2. clear -Hc Hr.
    pose proof (f_equal bits_sent Hc) as E1. pose proof (f_equal bytes_sent Hc) as E2. simpl in E1, E2.
    transitivity (core (with_position (bits_sent w1) (bytes_sent w1) 0 (core w1))); [by destruct w1|].
    rewrite Hc. destruct w; simpl in *. rewrite E1, E2. unfold promotePendingPacket; simpl.
    by repeat case_match.
  - destruct (preamble_step r w) as (w1 & a & b & Hi & Hs & Hc); [lia|].
    rewrite Hr in Hc. simpl in Hc.
    replace (Z.of_nat (S (S (S k))) - 1 =? 1) with false in Hc by lia.
    rewrite emit_S, Hi. cbn [mbind option_bind].
    destruct (IH (with_position (bits_sent w) (bytes_sent w) (Z.of_nat (S (S (S k))) - 1) w))
      as (w2 & He & Hc2); [simpl; lia|].
    destruct (emit_like r _ _ w1 _ _ (eq_sym Hc) He) as (w3 & -> & Hc3).
    exists w3. rewrite Hs. split; [done|]. rewrite Hc3, Hc2. destruct w; simpl.
    unfold promotePendingPacket; simpl. by repeat case_match.
Qed.

(** At the end of a packet: about to send the next preamble. *)
Definition boundary (w : Wave) : Prop :=
  remainingPreambles w = requiredPreambles w ∧ 2 <= requiredPreambles w ∧ bits_sent w = 0 ∧ bytes_sent w = 0.

Lemma boundary_core w w' : core w = core w' → boundary w → boundary w'.
Proof.
  intros Hc. unfold boundary.
  pose proof (f_equal remainingPreambles Hc). pose proof (f_equal requiredPreambles Hc).
  pose proof (f_equal bits_sent Hc). pose proof (f_equal bytes_sent Hc). simpl in *. lia.
Qed.

Lemma promote_position w : let v := promotePendingPacket w in
  remainingPreambles v = remainingPreambles w ∧ requiredPreambles v = requiredPreambles w ∧
  bits_sent v = bits_sent w ∧ bytes_sent v = bytes_sent w.
Proof. destruct w. unfold promotePendingPacket; simpl. by repeat case_match. Qed.

Definition one_packet (w : Wave) : list bool :=
  replicate (Z.to_nat (requiredPreambles w)) true ++
  frame (take (Z.to_nat (transmitLength w)) (transmitPacket w)).

(** From one packet end to the next: the packet promoted is sent. *)
Lemma cycle r w n : boundary w → transmitLength (promotePendingPacket w) = Z.of_nat (S n) →
  (S n <= length (transmitPacket (promotePendingPacket w)))%nat →
  ∃ w', emit r (Z.to_nat (requiredPreambles w) + 9 * S n) w = Some (one_packet (promotePendingPacket w), w') ∧
    core w' = core (promotePendingPacket w).
Proof.
  intros (Hr & Hq & Hb & Hy) Hl Hlen. rewrite emit_app.
  destruct (promote_position w) as (P1 & P2 & P3 & P4).
  destruct (preamble_emit r (Z.to_nat (requiredPreambles w) - 2) w) as (w1 & He & Hc); [lia|].
  replace (S (S (Z.to_nat (requiredPreambles w) - 2))) with (Z.to_nat (requiredPreambles w)) in He by lia.
  rewrite He. cbn [mbind option_bind].
  set (v := with_position _ _ _ _) in Hc.
  destruct (bytes_emit r n v 0) as (w2 & He2 & Hc2); subst v; simpl; try done.
  destruct (emit_like r _ _ w1 _ _ (eq_sym Hc) He2) as (w3 & He3 & Hc3). rewrite He3.
  exists w3. cbn [mbind option_bind]. split.
  - unfold one_packet. rewrite P2, Hl, Nat2Z.id. done.
  - rewrite Hc3, Hc2. simpl. rewrite P2, <-Hr, <-P1.
    destruct (promotePendingPacket w); simpl in *.
    unfold core, with_state, with_window, with_position. simpl. congruence.
Qed.

Lemma promote_core w w' : core w = core w' → core (promotePendingPacket w) = core (promotePendingPacket w').
Proof.
  intros Hc. transitivity (core (promotePendingPacket (core w)));
    [|rewrite Hc]; [destruct w|destruct w']; unfold promotePendingPacket; simpl; by repeat case_match.
Qed.

(** A packet with [k] repeats left is sent [k] more times. *)
Lemma repeat_cycles r n : ∀ k w, boundary w → transmitRepeats w = Z.of_nat k →
  transmitLength w = Z.of_nat (S n) → (S n <= length (transmitPacket w))%nat →
  ∃ w', emit r (k * (Z.to_nat (requiredPreambles w) + 9 * S n)) w =
      Some (concat (replicate k (one_packet w)), w') ∧
    core w' = core (with_transmit (transmitPacket w) (transmitLength w) 0 (packetPending w)
                      (sentResetsSincePacket w) w).
Proof.
  induction k as [|k IH]; intros w Hb Hr Hl Hlen.
  - exists w. split; [done|]. destruct w; simpl in *. by rewrite Hr.
  - set (v := with_transmit (transmitPacket w) (transmitLength w) (Z.of_nat k) (packetPending w)
      (sentResetsSincePacket w) w).
    assert (promotePendingPacket w = v) as Hp.
    { unfold promotePendingPacket. replace (transmitRepeats w >? 0) with true by lia.
      by replace (transmitRepeats w - 1) with (Z.of_nat k) by lia. }
    destruct (cycle r w n Hb) as (w1 & He & Hc); [by rewrite Hp..|]. rewrite Hp in He, Hc.
    change (S k * ?x)%nat with (x + k * x)%nat. rewrite emit_app, He. cbn [mbind option_bind].
    destruct (IH v) as (w2 & He2 & Hc2); [done..|].
    destruct (emit_like r _ _ w1 _ _ (eq_sym Hc) He2) as (w3 & He3 & Hc3).
    change (requiredPreambles v) with (requiredPreambles w) in He3. rewrite He3.
    exists w3. split; [done|]. by rewrite Hc3, Hc2.
Qed.

(** ** Scheduling at a packet end *)

Lemma copy_length dst src : (length src <= length dst)%nat → length (copy dst src) = length dst.
Proof. intros. unfold copy. rewrite length_app, length_drop. lia. Qed.

Lemma copy_take dst src : take (length src) (copy dst src) = src.
Proof. unfold copy. by rewrite take_app_length. Qed.

(** The wave between two calls: the buffers are six bytes and no packet of a
    bad length is held. *)
Record wave_ok (w : Wave) : Prop := {
  ok_pk : length (transmitPacket w) = 6%nat;
  ok_pend : length (pendingPacket w) = 6%nat;
  ok_len : 0 <= transmitLength w <= 6;
  ok_plen : packetPending w = true → 1 <= pendingLength w <= 6;
  ok_bits : 0 <= bits_sent w < 9;
  ok_bytes : 0 <= bytes_sent w ∧ (bytes_sent w = 0 ∨ bytes_sent w < transmitLength w);
  ok_req : 0 <= requiredPreambles w < 256;
  ok_rem : 0 <= remainingPreambles w <= requiredPreambles w;
  ok_mid : remainingPreambles w > 0 → bits_sent w = 0 ∧ bytes_sent w = 0;
}.

Lemma schedule_ok b n reps w : wave_ok w → packetPending w = false → 0 <= n <= Z.of_nat (length b) →
  ∃ w', schedulePacket b n reps w = Some w' ∧ wave_ok w' ∧
    (n <= MAX_PACKET_SIZE → packetPending w' = true ∧ pendingLength w' = n + 1 ∧ pendingRepeats w' = reps ∧
      take (S (Z.to_nat n)) (pendingPacket w') = take (Z.to_nat n) b ++ [xor_all (take (Z.to_nat n) b)] ∧
      core w' = core (mkWave true (reminderWindowOpen w) 0 (isMainTrack w) (transmitPacket w)
        (transmitLength w) (transmitRepeats w) (remainingPreambles w) (requiredPreambles w) (bits_sent w)
        (bytes_sent w) (state w) (pendingPacket w') (pendingLength w') (pendingRepeats w'))).
Proof.
  intros [H1 H2 H3 H4 H5 H6 H7 H8 H9] Hp Hn. unfold schedulePacket, MAX_PACKET_SIZE.
  destruct (n >? 5) eqn:E; [exists w; split; [done|]; split; [by split|lia]|].
  rewrite Hp. unfold load_pending. replace (Z.of_nat (length b) <? n) with false by lia.
  replace (n <? 0) with false by lia. simpl. fold (xor_all (take (Z.to_nat n) b)).
  set (d := take (Z.to_nat n) b).
  assert (length (d ++ [xor_all d]) = S (Z.to_nat n)) as Hd
    by (subst d; rewrite length_app, length_take; simpl; lia).
  eexists. split; [done|]. split.
  - split; simpl; try done; [|lia]. rewrite copy_length; [done|]. lia.
  - intros _. simpl. split; [done|]. split; [done|]. split; [done|]. split; [|done].
    by rewrite <-Hd, copy_take.
Qed.

(** The bits of [reps + 1] transmissions of a packet. *)
Definition transmissions (preambles : Z) (reps : nat) (pk : list Z) : list bool :=
  concat (replicate (S reps) (replicate (Z.to_nat preambles) true ++ frame pk)).

Lemma promote_pending w : transmitRepeats w = 0 → packetPending w = true →
  promotePendingPacket w = clearResets (with_transmit (pendingPacket w) (pendingLength w)
    (pendingRepeats w) false (sentResetsSincePacket w) w).
Proof. intros Hr Hp. unfold promotePendingPacket. by rewrite Hr, Hp. Qed.

(** ** Reading the bits back *)

#[local] Arguments byte_value : simpl never.

Lemma byte_value_bits b : is_byte b → byte_value (drop 1 (byte_bits b)) = b.
Proof.
  intros Hb. apply Z.eqb_eq.
  by apply (range_check (λ b, byte_value (drop 1 (byte_bits b)) =? b) 0 256); [vm_compute|].
Qed.

Lemma read_frame l : ∀ fuel, Forall is_byte l → (length l <= fuel)%nat →
  read_bytes fuel (frame l ++ [true]) = l.
Proof.
  induction l as [|b l IH]; intros fuel Hl Hf; [by destruct fuel|].
  apply Forall_cons in Hl as [Hb Hl]. destruct fuel as [|fuel]; [simpl in Hf; lia|].
  pose proof (byte_value_bits b Hb) as Hv. unfold byte_bits in Hv. simpl in Hv.
  unfold frame. simpl. rewrite take_0, drop_0, Hv. f_equal. apply IH; [done|simpl in Hf; lia].
Qed.

Lemma skip_ones n l : skip_preamble (replicate n true ++ l) = skip_preamble l.
Proof. induction n; simpl; done. Qed.

Lemma frame_head b l : ∃ k, frame (b :: l) = false :: k.
Proof. unfold frame. simpl. eauto. Qed.

Lemma decode_frame n l : Forall is_byte l → (0 < length l <= 6)%nat →
  decode (replicate n true ++ frame l ++ [true]) = l.
Proof.
  intros Hl Hn. unfold decode. rewrite skip_ones. destruct l as [|b l]; [simpl in Hn; lia|].
  destruct (frame_head b l) as [k Hk]. rewrite <-(read_frame (b :: l) 6) at 2; [|done|lia].
  by rewrite Hk.
Qed.

(** ** The pin *)

(** The wave at the start of a bit. *)
Lemma bit_pins r w w1 a b : state w = WAVE_START → interrupt2 r w = Some (w1, a, b) →
  ∃ n w2, track_run r n w = Some (pin_bit (bool_decide (state w1 = WAVE_MID_1)), w2) ∧
    state w2 = WAVE_START ∧ core w2 = core w1.
Proof.
  intros Hs Hi.
  assert (∃ v, track_step r w = Some (true, v) ∧ core v = core w1 ∧ state v = state w1) as (v & Hv & Hc & Hst).
  { unfold track_step. rewrite Hs. simpl.
    pose proof (interrupt2_core r w) as H1. pose proof (interrupt2_core r (with_state WAVE_PENDING w)) as H2.
    change (core (with_state WAVE_PENDING w)) with (core w) in H2. rewrite <-H1, Hi in H2.
    destruct (interrupt2 r (with_state WAVE_PENDING w)) as [[[v ?] ?]|];
      cbn [fmap option_fmap option_map] in H2; [|done].
    cbn [mbind option_bind]. exists v. split; [done|]. split; congruence. }
  assert (state w1 = WAVE_MID_1 ∨ state w1 = WAVE_HIGH_0) as Hone.
  { unfold interrupt2 in Hi. destruct (remainingPreambles w >? 0) eqn:E.
    - destruct (preamble_step r w) as (w' & a' & b' & Hp & Hm & _); [lia|].
      unfold interrupt2 in Hp. rewrite E in Hp. left. congruence.
    - destruct (transmitPacket w !! _); simpl in Hi; [|done].
      destruct (bitMask !! _); simpl in Hi; [|done]. injection Hi as <- _ _.
      destruct w; simpl. repeat case_match; simpl; auto. }
  destruct Hone as [Hm|Hm]; rewrite Hm in *; simpl.
  - exists 2%nat. simpl. rewrite Hv. simpl. unfold track_step. rewrite Hst. simpl.
    eexists. split; [done|]. split; [done|]. rewrite <-Hc. by destruct v.
  - exists 4%nat. simpl. rewrite Hv. simpl. unfold track_step. rewrite Hst. simpl.
    eexists. split; [done|]. split; [done|]. rewrite <-Hc. by destruct v.
Qed.

Lemma track_run_app r n m w :
  track_run r (n + m) w = ('(a, w1) ← track_run r n w; '(b, w2) ← track_run r m w1; Some (a ++ b, w2)).
Proof.
  revert w. induction n as [|n IH]; intros w; simpl.
  - by destruct (track_run r m w) as [[? ?]|].
  - destruct (track_step r w) as [[? w1]|]; simpl; [|done]. rewrite IH.
    destruct (track_run r n w1) as [[? w2]|]; simpl; [|done]. by destruct (track_run r m w2) as [[? ?]|].
Qed.

Lemma emit_pins r : ∀ n w l w', state w = WAVE_START → emit r n w = Some (l, w') →
  ∃ m w2, track_run r m w = Some (concat (pin_bit <$> l), w2) ∧ state w2 = WAVE_START ∧ core w2 = core w'.
Proof.
  induction n as [|n IH]; intros w l w' Hs He.
  - rewrite emit_0 in He. simplify_eq. by exists 0%nat, w'.
  - rewrite emit_S in He. destruct (interrupt2 r w) as [[[w1 a] b]|] eqn:Hi; simpl in He; [|done].
    destruct (emit r n w1) as [[k v]|] eqn:He1; simpl in He; [|done]. injection He as <- <-.
    destruct (bit_pins r w w1 a b Hs Hi) as (m & w2 & Hr & Hs2 & Hc2).
    destruct (emit_like r n w1 w2 k v (eq_sym Hc2) He1) as (v' & He2 & Hcv).
    destruct (IH w2 k v' Hs2 He2) as (m' & w3 & Hr' & Hs3 & Hc3).
    exists (m + m')%nat, w3. rewrite track_run_app, Hr. cbn [mbind option_bind]. rewrite Hr'.
    split; [done|]. split; [done|]. congruence.
Qed.

(** ** Safety *)

Lemma ok_state st w : wave_ok w → wave_ok (with_state st w).
Proof. intros [? ? ? ? ? ? ? ? ?]. by split. Qed.
Lemma ok_window b w : wave_ok w → wave_ok (with_window b w).
Proof. intros [? ? ? ? ? ? ? ? ?]. by split. Qed.

Lemma ok_promote w : wave_ok w → bits_sent w = 0 → bytes_sent w = 0 → wave_ok (promotePendingPacket w).
Proof.
  intros [H1 H2 H3 H4 H5 H6 H7 H8 H9] Hb Hy. unfold promotePendingPacket.
  destruct (transmitRepeats w >? 0); [by split|]. destruct (packetPending w) eqn:Hp.
  - specialize (H4 eq_refl). split; simpl; try done; lia.
  - split; simpl; try done; try lia.
    rewrite copy_length; [done|]. destruct (isMainTrack w); simpl; lia.
Qed.

Lemma preamble_ok r w : wave_ok w → remainingPreambles w > 0 →
  ∃ w' a b, preamble r w = (w', a, b) ∧ wave_ok w'.
Proof.
  intros H Hr. pose proof H as [H1 H2 H3 H4 H5 H6 H7 H8 H9]. destruct (H9 Hr) as [Hb Hy].
  unfold preamble. set (v := with_window _ _).
  assert (wave_ok v) as Hv by (apply ok_window; split; simpl; try done; lia).
  pose proof (ok_promote v Hv Hb Hy) as Hpr.
  repeat case_match; eexists _, _, _; done.
Qed.

Lemma interrupt2_ok r w : wave_ok w → ∃ w' a b, interrupt2 r w = Some (w', a, b) ∧ wave_ok w'.
Proof.
  intros H. unfold interrupt2. destruct (remainingPreambles w >? 0) eqn:E.
  - destruct (preamble_ok r w H) as (w' & a & b & -> & Hok); [lia|]. eauto.
  - pose proof H as [H1 H2 H3 H4 H5 H6 H7 H8 H9].
    destruct (lookup_lt_is_Some_2 (transmitPacket w) (Z.to_nat (bytes_sent w))) as [b ->]; [lia|].
    destruct (lookup_lt_is_Some_2 bitMask (Z.to_nat (bits_sent w))) as [m ->]; [simpl; lia|].
    cbn [mbind option_bind]. set (v := with_state _ w). eexists _, _, _. split; [done|].
    change (bits_sent v) with (bits_sent w). change (bytes_sent v) with (bytes_sent w).
    change (transmitLength v) with (transmitLength w).
    change (requiredPreambles v) with (requiredPreambles w).
    change (remainingPreambles v) with (remainingPreambles w).
    destruct (bits_sent w + 1 =? 9) eqn:E9; [destruct (bytes_sent w + 1 >=? transmitLength w) eqn:El|];
      split; simpl; try done; lia.
Qed.

Lemma handler_ok sync t main prog : wave_ok main → wave_ok prog →
  ∃ e t' main' prog', interruptHandler sync t main prog = Some (e, t', main', prog') ∧
    wave_ok main' ∧ wave_ok prog'.
Proof.
  intros Hm Hp. unfold interruptHandler.
  set (rc := railcomActive t && _).
  pose proof (ok_state (stateTransform (state main)) main Hm) as Hm1.
  pose proof (ok_state (stateTransform (state prog)) prog Hp) as Hp1.
  destruct (interrupt2_ok rc _ Hm1) as (m' & a & b & Him & Hmo).
  destruct (interrupt2_ok rc _ Hp1) as (p' & c & d & Hip & Hpo).
  destruct (decide (state (with_state (stateTransform (state main)) main) = WAVE_PENDING)); [rewrite Him|];
    cbn [mbind option_bind];
    (destruct (decide (state (with_state (stateTransform (state prog)) prog) = WAVE_PENDING)); [rewrite Hip|]);
    cbn [mbind option_bind]; eexists _, _, _, _; (split; [done|]); done.
Qed.

(** ** The program's use of the two tracks: timer interrupts between calls *)

Inductive act :=
  | Tick (syncMain : bool)
  | Schedule (main : bool) (b : list Z) (n reps : Z)
  | SetRailcom (on : bool) | PauseRailcom (p : bool) | ClearRepeats (main : bool).

Definition run_act (a : act) (x : Statics * Wave * Wave) : option (Statics * Wave * Wave) :=
  let '(t, m, p) := x in
  match a with
  | Tick sync => '(_, t, m, p) ← interruptHandler sync t m p; Some (t, m, p)
  | Schedule main b n reps =>
    if packetPending (if main then m else p) then Some x (* the caller waits *)
    else w ← schedulePacket b n reps (if main then m else p);
         Some (if main then (t, w, p) else (t, m, w))
  | SetRailcom on => Some ((setRailcom on t).2, m, p)
  | PauseRailcom b => Some ((pauseRailcom b t).2, m, p)
  | ClearRepeats main => Some (if main then (t, clearRepeats m, p) else (t, m, clearRepeats p))
  end.
Definition act_ok (a : act) : Prop :=
  match a with Schedule _ b n _ => 0 <= n <= Z.of_nat (length b) | _ => True end.
Fixpoint run_acts (l : list act) x : option (Statics * Wave * Wave) :=
  match l with [] => Some x | a :: l => x ← run_act a x; run_acts l x end.

Lemma new_wave_ok n b : 0 <= n < 255 → wave_ok (new_wave n b).
Proof. intros. split; simpl; try done; lia. Qed.

Lemma run_act_ok a t m p : act_ok a → wave_ok m → wave_ok p →
  ∃ t' m' p', run_act a (t, m, p) = Some (t', m', p') ∧ wave_ok m' ∧ wave_ok p'.
Proof.
  intros Ha Hm Hp. destruct a as [sync|main b n reps|on|b|main]; cbn [run_act].
  - destruct (handler_ok sync t m p Hm Hp) as (e & t' & m' & p' & -> & ?). cbn. eauto.
  - destruct main; [destruct (packetPending m) eqn:E|destruct (packetPending p) eqn:E]; try by eauto 6.
    + destruct (schedule_ok b n reps m Hm E Ha) as (w & -> & ? & _). cbn. eauto 6.
    + destruct (schedule_ok b n reps p Hp E Ha) as (w & -> & ? & _). cbn. eauto 6.
  - eauto 6.
  - eauto 6.
  - destruct main; eexists _, _, _; (split; [done|]); split; try done;
      [destruct Hm|destruct Hp]; by split.
Qed.

(** * Theorems *)

(** C5. Functional and round trip: a packet of up to five bytes given to a
    track at the end of a packet appears on the pin as [reps + 1]
    transmissions, each of the preamble and of the bytes and their checksum
    (with two or four half-bits per bit), after which the track is again at
    a packet end with nothing pending; and reading the bits of a transmission
    gives back the bytes and the checksum, which together sum to zero. *)
Theorem packet_on_the_track railcom w b n reps :
  wave_ok w → boundary w → state w = WAVE_START → packetPending w = false → transmitRepeats w = 0 →
  0 <= n <= MAX_PACKET_SIZE → n <= Z.of_nat (length b) → 0 <= reps < 256 → Forall is_byte b →
  let d := take (Z.to_nat n) b in
  let pk := d ++ [xor_all d] in
  (∃ w1 m w2, schedulePacket b n reps w = Some w1 ∧
    track_run railcom m w1 =
      Some (concat (pin_bit <$> transmissions (requiredPreambles w) (Z.to_nat reps) pk), w2) ∧
    boundary w2 ∧ packetPending w2 = false ∧ transmitRepeats w2 = 0) ∧
  (∀ k, decode (replicate k true ++ frame pk ++ [true]) = pk) ∧ xor_all pk = 0.
Proof.
  intros Hok Hb Hs Hp Hr Hn Hlen Hreps Hbytes d pk.
  destruct (schedule_ok b n reps w Hok Hp) as (w1 & Hsch & Hok1 & Hw1); [lia|].
  destruct Hw1 as (Hp1 & Hl1 & Hr1 & Htake & Hcore); [lia|]. fold d in Htake. fold pk in Htake.
  assert (length pk = S (Z.to_nat n)) as Hpk
    by (subst pk d; rewrite length_app, length_take; simpl; lia).
  split; [|split; [|apply xor_all_checksum]].
  2:{ intros k. apply decode_frame; [|rewrite Hpk; unfold MAX_PACKET_SIZE in *; lia].
      assert (Forall is_byte d) as Hd by (by apply Forall_take). apply Forall_app. split; [done|].
      constructor; [|done]. by apply xor_all_byte. }
  set (v := promotePendingPacket w1).
  pose proof (f_equal transmitRepeats Hcore) as E1. pose proof (f_equal requiredPreambles Hcore) as E2.
  simpl in E1, E2. rewrite Hr in E1.
  assert (boundary w1) as Hb1.
  { eapply boundary_core; [symmetry; exact Hcore|]. exact Hb. }
  pose proof (promote_pending w1 E1 Hp1) as Hv. fold v in Hv.
  assert (transmitLength v = Z.of_nat (S (Z.to_nat n)) ∧ transmitRepeats v = Z.of_nat (Z.to_nat reps) ∧
    transmitPacket v = pendingPacket w1 ∧ packetPending v = false ∧
    requiredPreambles v = requiredPreambles w) as (V1 & V2 & V3 & V4 & V5)
    by (rewrite Hv; simpl; rewrite Hl1, Hr1, E2; repeat split; lia).
  assert (one_packet v = replicate (Z.to_nat (requiredPreambles w)) true ++ frame pk) as Hone
    by (unfold one_packet; by rewrite V1, V3, V5, Nat2Z.id, Htake).
  assert (S (Z.to_nat n) <= length (transmitPacket v))%nat as Hlv
    by (rewrite V3, (ok_pend _ Hok1); unfold MAX_PACKET_SIZE in *; lia).
  destruct (cycle railcom w1 (Z.to_nat n) Hb1 V1 Hlv) as (w2 & He & Hc). fold v in He, Hc.
  assert (boundary v) as Hbv.
  { destruct (promote_position w1) as (P1 & P2 & P3 & P4). fold v in P1, P2, P3, P4.
    unfold boundary in *. lia. }
  destruct (repeat_cycles railcom (Z.to_nat n) (Z.to_nat reps) v Hbv V2 V1 Hlv) as (w3 & He3 & Hc3).
  destruct (emit_like railcom _ _ w2 _ _ (eq_sym Hc) He3) as (w4 & He4 & Hc4).
  set (n1 := (Z.to_nat (requiredPreambles w1) + 9 * S (Z.to_nat n))%nat) in *.
  set (n2 := (Z.to_nat reps * _)%nat) in *.
  assert (emit railcom (n1 + n2) w1 = Some (transmissions (requiredPreambles w) (Z.to_nat reps) pk, w4)) as Hall.
  { rewrite emit_app, He. cbn [mbind option_bind]. rewrite He4. cbn [mbind option_bind].
    rewrite Hone. done. }
  assert (state w1 = WAVE_START) as Hs1.
  { clear -Hsch Hs Hp Hn. unfold schedulePacket, load_pending in Hsch. rewrite Hp in Hsch.
    repeat case_match; simplify_eq; done. }
  destruct (emit_pins railcom _ w1 _ _ Hs1 Hall) as (m & w5 & Hrun & Hs5 & Hc5).
  exists w1, m, w5. split; [done|]. split; [done|].
  assert (core w5 = core (with_transmit (transmitPacket v) (transmitLength v) 0 (packetPending v)
    (sentResetsSincePacket v) v)) as Hfin by congruence.
  split; [|split].
  - eapply boundary_core; [symmetry; exact Hfin|]. exact Hbv.
  - pose proof (f_equal packetPending Hfin) as Hx. simpl in Hx. congruence.
  - exact (f_equal transmitRepeats Hfin).
Qed.

(** Functional: with nothing to send, the main track sends an idle packet
    and the programming track a reset packet, and the packet is counted (up to
    250) for the acknowledgement logic. *)
Lemma idle_or_reset railcom w :
  wave_ok w → boundary w → state w = WAVE_START → packetPending w = false → transmitRepeats w = 0 →
  ∃ m w2, track_run railcom m w = Some (concat (pin_bit <$> transmissions (requiredPreambles w) 0
      (if isMainTrack w then idlePacket else resetPacket)), w2) ∧
    boundary w2 ∧ packetPending w2 = false ∧
    getResets w2 = if getResets w <? 250 then getResets w + 1 else getResets w.
Proof.
  intros Hok Hb Hs Hp Hr. set (v := promotePendingPacket w).
  assert (v = with_transmit (copy (transmitPacket w) (if isMainTrack w then idlePacket else resetPacket)) 3 0
      false (if getResets w <? 250 then sentResetsSincePacket w + 1 else sentResetsSincePacket w) w) as Hv
    by (unfold v, promotePendingPacket; by rewrite Hr, Hp).
  assert (transmitLength v = Z.of_nat 3) as Hl by (by rewrite Hv).
  assert (length (if isMainTrack w then idlePacket else resetPacket) = 3%nat) as H3
    by (by destruct (isMainTrack w)).
  destruct (cycle railcom w 2 Hb) as (w1 & He & Hc); [done| |].
  { fold v. rewrite Hv. simpl. rewrite copy_length; rewrite (ok_pk _ Hok); lia. }
  fold v in He, Hc.
  destruct (emit_pins railcom _ w _ _ Hs He) as (m & w2 & Hrun & _ & Hc2).
  exists m, w2. split.
  - rewrite Hrun. unfold transmissions, one_packet. rewrite Hl, Hv. simpl concat. simpl transmitPacket.
    rewrite Nat2Z.id. change 3%nat with (Z.to_nat 3) in H3. rewrite <-H3 at 1. by rewrite copy_take, app_nil_r.
  - assert (core w2 = core v) as Hfin by congruence. split; [|split].
    + eapply boundary_core; [symmetry; exact Hfin|]. by rewrite Hv.
    + rewrite Hv in Hfin. exact (f_equal packetPending Hfin).
    + rewrite Hv in Hfin. exact (f_equal sentResetsSincePacket Hfin).
Qed.

(** C6. Safety: from the start of the program, under any sequence of timer
    interrupts, scheduled packets and railcom changes, the interrupt handler
    never reads outside its buffers, and both tracks stay well formed. *)
Theorem wave_run_safe t acts : Forall act_ok acts →
  ∃ t' m p, run_acts acts (t, new_wave PREAMBLE_BITS_MAIN true, new_wave PREAMBLE_BITS_PROG false) =
    Some (t', m, p) ∧ wave_ok m ∧ wave_ok p.
Proof.
  pose proof (new_wave_ok PREAMBLE_BITS_MAIN true ltac:(unfold PREAMBLE_BITS_MAIN; lia)) as Hm.
  pose proof (new_wave_ok PREAMBLE_BITS_PROG false ltac:(unfold PREAMBLE_BITS_PROG; lia)) as Hp.
  revert t Hm Hp. generalize (new_wave PREAMBLE_BITS_MAIN true), (new_wave PREAMBLE_BITS_PROG false).
  intros m p t Hm Hp Ha. revert m p t Hm Hp. induction Ha as [|a acts Ha Hacts IH]; intros m p t Hm Hp.
  - by exists t, m, p.
  - destruct (run_act_ok a t m p Ha Hm Hp) as (t' & m' & p' & Hr & Hm' & Hp').
    cbn [run_acts]. rewrite Hr. by apply IH.
Qed.

(** * Witnesses *)

(** The main track at a packet end, after one idle packet. *)
Definition ready : Wave :=
  mkWave false false 1 true [255; 0; 255; 0; 0; 0] 3 0 17 17 0 0 WAVE_START (replicate 6 0) 0 0.

Lemma ready_ok : wave_ok ready ∧ boundary ready.
Proof. split; [split; simpl; try done; lia|unfold boundary; simpl; lia]. Qed.

Lemma packet_on_the_track_witness : ∃ w1 m w2,
  schedulePacket [3; 63; 170] 3 2 ready = Some w1 ∧
  track_run true m w1 = Some (concat (pin_bit <$> transmissions 17 2 [3; 63; 170; 150]), w2).
Proof.
  destruct (packet_on_the_track true ready [3; 63; 170] 3 2) as [(w1 & m & w2 & H1 & H2 & _) _];
    [apply ready_ok|apply ready_ok|done..|unfold MAX_PACKET_SIZE; lia|simpl; lia|lia|
     repeat constructor; unfold is_byte; lia|]. exists w1, m, w2. split; [exact H1|exact H2].
Defined.

Lemma idle_or_reset_witness : ∃ m w2,
  track_run false m ready = Some (concat (pin_bit <$> transmissions 17 0 idlePacket), w2) ∧ getResets w2 = 2.
Proof.
  destruct (idle_or_reset false ready) as (m & w2 & H1 & _ & _ & H2);
    [apply ready_ok|apply ready_ok|done..|]. exists m, w2. split; [exact H1|exact H2].
Defined.

Lemma wave_run_safe_witness : ∃ t m p,
  run_acts [Tick false; Schedule true [3; 63; 170] 3 2; Tick true; Tick false; Schedule false [116; 7; 0] 3 5]
    (mkStatics true true false false, new_wave PREAMBLE_BITS_MAIN true, new_wave PREAMBLE_BITS_PROG false) =
  Some (t, m, p).
Proof.
  destruct (wave_run_safe (mkStatics true true false false)
    [Tick false; Schedule true [3; 63; 170] 3 2; Tick true; Tick false; Schedule false [116; 7; 0] 3 5])
    as (t & m & p & H & _); [repeat constructor; simpl; lia|eauto].
Defined.

End WaveProps.
