(* ===== verification/ConsistProps.v ===== *)
(** The invariant of the loco slots and their consist links, and the operations of consists over it. *)

From S2P Require Import Prelude Chain LocoSlot DCCConsist.

(** The invariant of the loco table with its consists: the table of LocoSlot,
    and consist links that always end, so that every loop along a consist
    terminates.  Every operation on the table keeps it. *)

Module LocoInv.
Import LocoSlot DCCConsist.DCCConsist.

(** The consist links as chains of their own. *)
Definition cnext : Linked LocoSlot.LocoSlot :=
  {| nx := consistNext; setnx := setConsistNext; nx_setnx _ _ := eq_refl |}.
Definition clead : Linked LocoSlot.LocoSlot :=
  {| nx := consistLead; setnx := setConsistLead; nx_setnx _ _ := eq_refl |}.

Record good (t : St) : Prop := {
  g_table : ∃ l r, table t l r;
  g_next : acyclic (H := cnext) (heap t);
  g_lead : acyclic (H := clead) (heap t);
  g_loco : ∀ x c, heap t !! x = Some c → is_u16 (loco c);
}.

Lemma good_init : good init.
Proof. split; [exists [], []; apply table_init|apply acyclic_empty..|done]. Qed.

(** Writing anything but the links and the loco. *)
Definition harmless (f : LocoSlot.LocoSlot → LocoSlot.LocoSlot) : Prop :=
  ∀ c, next (f c) = next c ∧ loco (f c) = loco c ∧
    consistNext (f c) = consistNext c ∧ consistLead (f c) = consistLead c.

Lemma table_write t x c d l r : heap t !! x = Some c → next d = next c → loco d = loco c →
  table t l r → table (store x d t) l r.
Proof.
  intros Hx Hn Hl T.
  assert (∀ y e, <[x:=d]> (heap t) !! y = Some e → ∃ e0, heap t !! y = Some e0 ∧ loco e0 = loco e) as Hloc.
  { intros y e. destruct (decide (x = y)) as [->|].
    - rewrite lookup_insert_eq. intros [= <-]. eauto.
    - rewrite lookup_insert_ne by done. eauto. }
  destruct T as [T1 T2 T3 T4 T5 T6 T7]. split; simpl; try done.
  - by eapply chain_insert_nx.
  - by eapply chain_insert_nx.
  - intros y. rewrite <-T4. destruct (decide (x = y)) as [->|].
    + rewrite lookup_insert_eq. split; eauto.
    + by rewrite lookup_insert_ne.
  - intros y z e f Hy Hz He Hf Heq.
    destruct (Hloc _ _ He) as (e0 & ? & ?), (Hloc _ _ Hf) as (f0 & ? & ?).
    eapply (T5 y z e0 f0); try done. congruence.
  - intros y e Hy He. destruct (Hloc _ _ He) as (e0 & ? & <-). by eapply T6.
Qed.

Lemma loco_write (h : gmap ptr LocoSlot.LocoSlot) x d : is_u16 (loco d) →
  (∀ y c, h !! y = Some c → is_u16 (loco c)) → ∀ y c, <[x := d]> h !! y = Some c → is_u16 (loco c).
Proof.
  intros Hd Hh y c. destruct (decide (x = y)) as [->|].
  - rewrite lookup_insert_eq. by intros [= <-].
  - rewrite lookup_insert_ne by done. apply Hh.
Qed.

Lemma modify_eq t x c f : heap t !! x = Some c → modify x f t = Some (store x (f c) t).
Proof. intros Hx. unfold modify, load. by rewrite Hx. Qed.

Lemma good_update t x c f : heap t !! x = Some c → harmless f → good t → good (store x (f c) t).
Proof.
  intros Hx Hf [(l & r & T) Gn Gl Go]. destruct (Hf c) as (H1 & H2 & H3 & H4). split.
  - exists l, r. by eapply table_write.
  - by eapply (acyclic_insert_nx (H := cnext)).
  - by eapply (acyclic_insert_nx (H := clead)).
  - apply loco_write; [rewrite H2; by eapply Go|done].
Qed.

(** ** Looking up and creating *)

Lemma good_getSlot `{Config} id create t : MAX_LOCOS < 65536 → 0 <= id < 65536 → good t →
  ∃ p t', getSlot id create t = Some (p, t') ∧ good t' ∧ (create = false → t' = t) ∧
    match p with
    | None => t' = t
    | Some x => ∃ c, heap t' !! x = Some c ∧ loco c = id ∧
        (t' = t ∨ consistNext c = None ∧ consistLead c = None ∧ ∀ y, y ≠ x → heap t' !! y = heap t !! y) ∧
        (∀ y, is_Some (heap t !! y) → is_Some (heap t' !! y))
    end.
Proof.
  intros Hmax Hid G. pose proof G as [(l & r & T) Gn Gl Go].
  destruct (decide (id = 0)) as [->|Hne]; [by exists None, t|].
  destruct (find_or_make_spec id create t l r Hmax T) as (p & t' & Hg & Got); [lia|].
  exists p, t'. split; [done|]. destruct Got as [x c Hx Hc Hl|_ _|x t' r' Hcr _ _ T' Hx Hout _].
  - split; [done|]. split; [done|]. exists c. eauto.
  - by split.
  - assert (heap t' = <[x := prepared id (firstSlot t)]> (heap t)) as Hh.
    { apply map_eq. intros y. destruct (decide (x = y)) as [->|].
      - by rewrite lookup_insert_eq.
      - rewrite lookup_insert_ne by done. by apply Hout. }
    split.
    + split; [eauto|rewrite Hh; by apply acyclic_cut..|].
      rewrite Hh. apply loco_write; [apply u16_range|done].
    + split; [by rewrite Hcr|]. eexists. split; [done|]. split; [simpl; apply u16_id; unfold is_u16; lia|]. split; [by right|].
      intros y Hy. rewrite Hh. destruct (decide (x = y)) as [->|].
      * rewrite lookup_insert_eq. eauto.
      * by rewrite lookup_insert_ne.
Qed.

(** ** Forgetting *)

Lemma good_forget t x c : good t → heap t !! x = Some c → (∃ l r, table t l r ∧ x ∈ l) →
  ∃ t', forget x t = Some t' ∧ good t' ∧ (∀ y, is_Some (heap t !! y) → is_Some (heap t' !! y)).
Proof.
  intros [_ Gn Gl Go] Hx (l & r & T & Hin).
  destruct (list_elem_of_split _ _ Hin) as (l1 & l2 & ->).
  destruct (forget_spec t l1 x l2 r T) as (t' & Hf & T' & Hdata & _). exists t'. split; [done|].
  assert (∀ y, consistNext <$> heap t' !! y = consistNext <$> heap t !! y ∧
    consistLead <$> heap t' !! y = consistLead <$> heap t !! y ∧
    loco <$> heap t' !! y = loco <$> heap t !! y) as Hsame.
  { intros y. specialize (Hdata y). destruct (heap t' !! y), (heap t !! y); try done.
    assert (setNext None l = setNext None l0) as He by (simpl in Hdata; congruence).
    pose proof (f_equal consistNext He). pose proof (f_equal consistLead He).
    pose proof (f_equal loco He). simpl in *. repeat split; congruence. }
  split; [split; [eauto|..]|].
  - eapply (acyclic_ext (H := cnext)); [|exact Gn]. intros y. symmetry. apply Hsame.
  - eapply (acyclic_ext (H := clead)); [|exact Gl]. intros y. symmetry. apply Hsame.
  - intros y d Hd. destruct (Hsame y) as (_ & _ & Hy). rewrite Hd in Hy.
    destruct (heap t !! y) as [d0|] eqn:E; [|done]. simpl in Hy. injection Hy as ->. by eapply Go.
  - intros y [d Hd]. destruct (Hsame y) as (_ & _ & Hy). rewrite Hd in Hy.
    destruct (heap t' !! y); [eauto|done].
Qed.

Lemma good_forgetAll t : good t → ∃ t', forgetAll t = Some t' ∧ good t'.
Proof.
  intros [(l & r & T) _ _ _]. destruct (forgetAll_spec t l r T) as (t' & Hf & Hh & T' & _).
  exists t'. split; [done|]. split; [eauto|rewrite Hh; apply acyclic_empty..|by rewrite Hh].
Qed.

(** The slot found under a loco is a slot in use. *)
Lemma getSlot_in_use `{Config} id t x : MAX_LOCOS < 65536 → 0 <= id < 65536 → good t →
  getSlot id false t = Some (Some x, t) → ∃ l r, table t l r ∧ x ∈ l.
Proof.
  intros Hmax Hid [(l & r & T) _ _ _] Hg.
  assert (0 < id < 65536) as Hid'.
  { destruct (decide (id = 0)) as [->|]; [done|lia]. }
  destruct (find_or_make_spec id false t l r Hmax T Hid') as (p & t' & Hg' & Got).
  rewrite Hg in Hg'. injection Hg' as <- <-. inversion Got; subst; [eauto|done].
Qed.

(** ** Consists *)

Definition cleared (c : LocoSlot.LocoSlot) : LocoSlot.LocoSlot :=
  LocoSlot.setConsistReverse false (setConsistNext None (setConsistLead None c)).

Lemma good_cleared t x c : heap t !! x = Some c → good t → good (store x (cleared c) t).
Proof.
  intros Hx [(l & r & T) Gn Gl Go]. split.
  - exists l, r. by eapply table_write.
  - by apply (acyclic_cut (H := cnext)).
  - by apply (acyclic_cut (H := clead)).
  - apply loco_write; [by apply (Go x c)|done].
Qed.

Lemma good_clear_loop : ∀ k p t fuel, chain (H := cnext) (heap t) p k → (length k < fuel)%nat → good t →
  ∃ t', clear_loop fuel p t = Some t' ∧ good t' ∧ (∀ y, is_Some (heap t !! y) ↔ is_Some (heap t' !! y)) ∧
    (∀ l r, table t l r → table t' l r).
Proof.
  induction k as [|x k IH]; intros p t fuel Hch Hf G; (destruct fuel; [simpl in *; lia|]).
  - simpl in Hch. subst p. by exists t.
  - destruct Hch as [-> (c & Hc & Hch)]. simpl. unfold load. rewrite Hc. simpl.
    unfold modify, load. rewrite Hc. simpl.
    pose proof (chain_not_elem (H := cnext) _ _ _ _ Hc Hch) as Hxk.
    destruct (IH (consistNext c) (store x (cleared c) t) fuel) as (t' & Hr & G' & Hd & Ht).
    + simpl. by apply (chain_insert_ne (H := cnext)).
    + simpl in Hf. lia.
    + by apply good_cleared.
    + exists t'. split; [exact Hr|]. split; [done|]. split.
      * intros y. rewrite <-Hd. simpl. destruct (decide (x = y)) as [->|].
        -- rewrite lookup_insert_eq, Hc. split; eauto.
        -- by rewrite lookup_insert_ne.
      * intros l r T. apply Ht. by eapply table_write.
Qed.

Lemma good_deleteAnyConsist `{Config} id t : MAX_LOCOS < 65536 → 0 <= u16 (Z.abs id) < 65536 → good t →
  ∃ t', deleteAnyConsist id t = Some t' ∧ good t' ∧ (∀ y, is_Some (heap t !! y) ↔ is_Some (heap t' !! y)) ∧
    (∀ l r, table t l r → table t' l r).
Proof.
  intros Hmax Hid G. unfold deleteAnyConsist.
  destruct (good_getSlot (u16 (Z.abs id)) false t Hmax Hid G) as (p & t1 & Hg & G1 & Hp).
  rewrite Hg. cbn [mbind option_bind]. destruct Hp as [Ht Hp]. rewrite (Ht eq_refl) in *. clear t1 Ht.
  destruct p as [x|]; [|by exists t]. destruct Hp as (c & Hc & _ & _ & _).
  unfold load. rewrite Hc. cbn [mbind option_bind].
  destruct (acyclic_nx (H := cnext) (heap t) (if isConsistLead c then Some x else consistLead c)) as [k Hk].
  - apply G.
  - intros y Hy. destruct (isConsistLead c); [simplify_eq; eauto|].
    exact (acyclic_valid (H := clead) (heap t) x c y (g_lead _ G) Hc Hy).
  - apply (good_clear_loop k); [done| |done].
    pose proof (chain_length (H := cnext) _ _ _ Hk). lia.
Qed.

Lemma follow_loop_spec (L : Linked LocoSlot.LocoSlot) t : ∀ k x fuel,
  chain (H := L) (heap t) (Some x) k → (length k < fuel)%nat →
  ∃ y c, follow_loop fuel (nx (Linked := L)) x t = Some y ∧ heap t !! y = Some c ∧ nx (Linked := L) c = None.
Proof.
  induction k as [|z k IH]; intros x fuel Hch Hf; [done|]. destruct fuel; [simpl in *; lia|].
  destruct Hch as [[= <-] (c & Hc & Hch)]. simpl. unfold load. rewrite Hc. simpl.
  destruct (nx c) as [y|] eqn:E; [apply IH; [done|simpl in *; lia]|eauto].
Qed.

#[local] Arguments follow_loop : simpl never.

(** Linking a slot outside every consist behind the tail of a consist. *)
Lemma good_link t a ca tl ctl lead cl rev : good t →
  heap t !! a = Some ca → consistNext ca = None → consistLead ca = None →
  heap t !! tl = Some ctl → consistNext ctl = None → heap t !! lead = Some cl → consistLead cl = None →
  ∃ t', (s ← modify a (LocoSlot.setConsistReverse rev) t;
         s ← (if decide (a = lead) then Some s else modify a (setConsistLead (Some lead)) s);
         s ← (if decide (tl = a) then Some s else modify tl (setConsistNext (Some a)) s);
         Some (true, s)) = Some (true, t') ∧ good t' ∧ (∀ y, is_Some (heap t !! y) → is_Some (heap t' !! y)).
Proof.
  intros G Ha Han Hal Ht Htn Hl Hll. rewrite (modify_eq t a ca) by done. cbn [mbind option_bind].
  set (ca1 := LocoSlot.setConsistReverse rev ca).
  assert (good (store a ca1 t)) as G1 by (by apply good_update).
  set (ca2 := if decide (a = lead) then ca1 else setConsistLead (Some lead) ca1).
  assert ((if decide (a = lead) then Some (store a ca1 t)
           else modify a (setConsistLead (Some lead)) (store a ca1 t)) = Some (store a ca2 t)) as Hm.
  { subst ca2. destruct (decide (a = lead)); [done|].
    rewrite (modify_eq _ a ca1) by (simpl; by rewrite lookup_insert_eq).
    unfold store. simpl. by rewrite insert_insert_eq. }
  assert (good (store a ca2 t)) as G2.
  { subst ca2. destruct (decide (a = lead)) as [|Hne]; [done|].
    destruct G as [(l & r & T) Gn Gl Go]. split.
    - exists l, r. by eapply table_write.
    - by eapply (acyclic_insert_nx (H := cnext)).
    - by eapply (acyclic_link (H := clead) _ a _ lead cl).
    - apply loco_write; [by apply (Go a ca)|done]. }
  assert (∀ (h : gmap ptr LocoSlot.LocoSlot) z d y, is_Some (h !! y) → is_Some (<[z:=d]> h !! y)) as Hdom.
  { intros h z d y Hy. destruct (decide (z = y)) as [->|]; [rewrite lookup_insert_eq; eauto|].
    by rewrite lookup_insert_ne. }
  rewrite Hm. cbn [mbind option_bind].
  destruct (decide (tl = a)) as [->|Hta]; cbn [mbind option_bind].
  { eexists. split; [done|]. split; [done|]. intros y. apply Hdom. }
  rewrite (modify_eq _ tl ctl) by (simpl; by rewrite lookup_insert_ne).
  eexists. split; [done|]. split; [|intros y Hy; do 2 apply Hdom; done].
  assert (consistNext ca2 = None) as Hn2 by (subst ca2; by destruct (decide (a = lead))).
  destruct G2 as [(l & r & T) Gn Gl Go]. split.
  - exists l, r. apply (table_write (store a ca2 t) tl ctl); try done. simpl. by rewrite lookup_insert_ne.
  - apply (acyclic_link (H := cnext) _ tl _ a ca2); try done. simpl. by rewrite lookup_insert_eq.
  - apply (acyclic_insert_nx (H := clead) _ tl ctl); try done. simpl. by rewrite lookup_insert_ne.
  - apply loco_write; [apply (g_loco _ G tl ctl); done|exact Go].
Qed.

(** Every slot's [next] chain ends, in use or recycled. *)
Lemma good_next_chain t x : good t → is_Some (heap t !! x) → ∃ k, chain (heap t) (Some x) k.
Proof.
  intros [(l & r & T) _ _ _] Hx. apply (t_dom _ _ _ T) in Hx.
  assert (∀ p k, chain (heap t) p k → x ∈ k → ∃ k', chain (heap t) (Some x) k') as Hsuf.
  { intros p k Hk Hin. apply list_elem_of_split in Hin as (k1 & k2 & ->).
    destruct (chain_suffix _ _ _ _ Hk) as [q Hq]. exists (x :: k2). by destruct Hq as [-> ?]. }
  apply elem_of_app in Hx as [Hx|Hx]; [exact (Hsuf _ _ (t_used _ _ _ T) Hx)|exact (Hsuf _ _ (t_free _ _ _ T) Hx)].
Qed.

Lemma good_addLocoToConsist `{Config} consistId id rev t : MAX_LOCOS < 65536 → good t →
  ∃ b t', addLocoToConsist consistId id rev t = Some (b, t') ∧ good t' ∧
    (∀ y, is_Some (heap t !! y) → is_Some (heap t' !! y)).
Proof.
  intros Hmax G. unfold addLocoToConsist.
  destruct ((consistId <? 1) || (consistId >? 10239)) eqn:E1; [eauto|].
  destruct ((id <? 1) || (id >? 10239)) eqn:E2; [eauto|]. destruct (id =? consistId); [eauto|].
  destruct (good_getSlot consistId true t Hmax) as (p & t1 & -> & G1 & _ & Hp); [lia|done|]. simpl.
  destruct p as [x|]; [|subst t1; eauto 6]. destruct Hp as (c & Hc & _ & _ & Hd1).
  destruct (g_lead _ G1 x) as [k Hk]; [eauto|].
  destruct (follow_loop_spec clead t1 k x (S (size (heap t1))) Hk) as (lead & cl & Hfl & Hl & Hll).
  { pose proof (chain_length (H := clead) _ _ _ Hk). lia. }
  change (nx (Linked := clead)) with consistLead in Hfl. rewrite Hfl. simpl.
  destruct (g_next _ G1 lead) as [k' Hk']; [eauto|].
  destruct (follow_loop_spec cnext t1 k' lead (S (size (heap t1))) Hk') as (tl & ct & Hft & Ht & Htn).
  { pose proof (chain_length (H := cnext) _ _ _ Hk'). lia. }
  change (nx (Linked := cnext)) with consistNext in Hft. rewrite Hft. simpl.
  destruct (good_getSlot id true t1 Hmax) as (q & t2 & -> & G2 & _ & Hq); [lia|done|]. simpl.
  destruct q as [a|]; [|subst t2; eauto 6]. destruct Hq as (ca & Hca & _ & Hsame & Hd2). unfold load. rewrite Hca. simpl.
  destruct (isConsistLead ca || isConsistFollower ca) eqn:E; [eauto 7|].
  apply orb_false_iff in E as [El Ef]. unfold isConsistLead, isConsistFollower in El, Ef.
  assert (consistLead ca = None) as Hal by (destruct (consistLead ca); [done|done]).
  assert (consistNext ca = None) as Han by (rewrite Hal in El; destruct (consistNext ca); [done|done]).
  assert (∃ ct2, heap t2 !! tl = Some ct2 ∧ consistNext ct2 = None) as (ct2 & Ht2 & Htn2).
  { destruct Hsame as [->|(_ & _ & Hsame)]; [eauto|].
    destruct (decide (tl = a)) as [->|]; [eauto|]. rewrite Hsame by done. eauto. }
  assert (∃ cl2, heap t2 !! lead = Some cl2 ∧ consistLead cl2 = None) as (cl2 & Hl2 & Hll2).
  { destruct Hsame as [->|(_ & _ & Hsame)]; [eauto|].
    destruct (decide (lead = a)) as [->|]; [eauto|]. rewrite Hsame by done. eauto. }
  destruct (good_link t2 a ca tl ct2 lead cl2 rev) as (t' & Hr & G' & Hd3); eauto.
  exists true, t'. eauto 7.
Qed.

End LocoInv.

(** The <^> command keeps the loco table and the consist links well formed; the
    only way it fails is a loco for which there is no slot. *)

Module ConsistProps.
Import LocoSlot DCCConsist.DCCConsist LocoInv.

Section consist.
Context `{Config} (Hmax : MAX_LOCOS < 65536).

Definition id_of (x : Z) : Z := u16 (Z.abs x).
Lemma id_range x : 0 <= id_of x < 65536.
Proof. apply u16_range. Qed.

(** There is a loco, in a table that is well formed, for which getSlot finds no
    memory: the caller goes on with a null pointer. *)
Definition no_slot : Prop := ∃ x t, good t ∧ getSlot (id_of x) true t = Some (None, t).
Definition fine {A} (t : St) (r : option (A * St)) : Prop :=
  match r with
  | Some (_, t') => good t' ∧ ∀ y, is_Some (heap t !! y) → is_Some (heap t' !! y)
  | None => no_slot
  end.

(** ** Reports *)

Lemma members_loop_some t : ∀ k p fuel, chain (H := cnext) (heap t) p k → (length k < fuel)%nat →
  is_Some (members_loop fuel p t).
Proof.
  induction k as [|x k IH]; intros p fuel Hch Hf; (destruct fuel; [simpl in *; lia|]).
  - simpl in Hch. subst p. by exists [].
  - destruct Hch as [-> (c & Hc & Hch)]. simpl. unfold load. rewrite Hc. simpl.
    destruct (IH (consistNext c) fuel) as [l Hl]; [done|simpl in *; lia|]. rewrite Hl. simpl. by eexists.
Qed.
Lemma list_loop_some t : acyclic (H := cnext) (heap t) → ∀ k p fuel, chain (heap t) p k → (length k < fuel)%nat →
  is_Some (list_loop fuel p t).
Proof.
  intros Hn. induction k as [|x k IH]; intros p fuel Hch Hf; (destruct fuel; [simpl in *; lia|]).
  - simpl in Hch. subst p. by exists [].
  - destruct Hch as [-> (c & Hc & Hch)]. cbn [list_loop]. unfold load. rewrite Hc. cbn [mbind option_bind].
    destruct (IH (next c) fuel) as [l Hl]; [done|simpl in *; lia|].
    destruct (isConsistLead c); [|rewrite Hl; by eexists].
    destruct (Hn x) as [k' Hk']; [by eexists|].
    destruct (members_loop_some t k' (Some x) (S (size (heap t))) Hk') as [m Hm].
    { pose proof (chain_length (H := cnext) _ _ _ Hk'). lia. }
    rewrite Hm. cbn [mbind option_bind]. rewrite Hl. by eexists.
Qed.

(** ** Locos outside of every consist *)

Definition unlinked (c : LocoSlot.LocoSlot) : Prop := consistNext c = None ∧ consistLead c = None.
Lemma unlinked_spec c : isConsistLead c || isConsistFollower c = false → unlinked c.
Proof.
  intros [El Ef]%orb_false_iff. unfold isConsistLead, isConsistFollower in *.
  assert (consistLead c = None) as Hl by (by destruct (consistLead c)).
  split; [|done]. rewrite Hl in El. by destruct (consistNext c).
Qed.
(** The slots in use of the locos of [p] are unlinked. *)
Definition free (p : list Z) (l : list ptr) (t : St) : Prop :=
  ∀ y c, y ∈ l → heap t !! y = Some c → loco c ∈ id_of <$> p → unlinked c.

Lemma getSlot_false id t l r : table t l r → 0 < id < 65536 →
  ∃ p, getSlot id false t = Some (p, t) ∧ match p with
    | Some x => x ∈ l ∧ ∃ c, heap t !! x = Some c ∧ loco c = id
    | None => ∀ x c, x ∈ l → heap t !! x = Some c → loco c ≠ id end.
Proof using All.
  intros T Hid. destruct (find_or_make_spec id false t l r Hmax T Hid) as (p & t' & -> & G). exists p.
  destruct G as [x c Hx Hc Hl|Hno _|]; [eauto 6|by eauto|done].
Qed.

Lemma in_other_spec p t l r : table t l r → Forall (λ x, 0 < id_of x) p →
  ∃ m, in_other p t = Some m ∧ (m = None → free p l t).
Proof using All.
  intros T. induction p as [|x p IH]; intros Hp.
  { exists None. split; [done|]. intros _ y c _ _ Hin. by apply not_elem_of_nil in Hin. }
  apply Forall_cons in Hp as [Hx Hp]. destruct (IH Hp) as (m & Hm & Hfree).
  destruct (getSlot_false (id_of x) t l r T) as (q & Hq & Hat); [pose proof (id_range x); lia|].
  cbn [in_other]. fold (id_of x). rewrite Hq. cbn [mbind option_bind]. destruct q as [a|].
  - destruct Hat as (Ha & c & Hc & Hl). unfold load. rewrite Hc. cbn [mbind option_bind].
    destruct (isConsistLead c || isConsistFollower c) eqn:E; [by eexists|].
    exists m. split; [done|]. intros Hn y d Hy Hd Hin. apply elem_of_cons in Hin as [Hin|Hin].
    + assert (y = a) as -> by (eapply (t_locos _ _ _ T); [done..|congruence]).
      rewrite Hc in Hd. injection Hd as <-. by apply unlinked_spec.
    + by apply (Hfree Hn y).
  - exists m. split; [done|]. intros Hn y d Hy Hd Hin. apply elem_of_cons in Hin as [Hin|Hin]; [|by apply (Hfree Hn y)].
    by destruct (Hat y d Hy Hd).
Qed.
Lemma invalid_spec p : Forall is_i16 p → invalid p = None → Forall (λ x, 0 < id_of x) p ∧ NoDup (id_of <$> p).
Proof.
  induction p as [|x p IH]; intros Hp; [split; constructor|]. apply Forall_cons in Hp as [Hx Hp]. cbn [invalid].
  fold (id_of x). destruct ((id_of x <? 1) || (id_of x >? 10239)) eqn:E1; [done|].
  destruct (existsb _ p) eqn:E2; [done|]. intros Hi. destruct (IH Hp Hi) as [H1 H2]. split; [constructor; [lia|done]|].
  cbn [fmap list_fmap]. constructor; [|done]. intros Hin. apply list_elem_of_fmap in Hin as (y & Hy & Hin).
  assert (existsb (λ y, Z.abs y =? id_of x) p = true); [|congruence].
  apply existsb_exists. exists y. split; [by apply list_elem_of_In|]. rewrite Hy.
  rewrite Forall_forall in Hp. specialize (Hp y Hin). unfold id_of. rewrite u16_id by (unfold is_i16, is_u16 in *; lia). lia.
Qed.
(** ** Chaining *)

(** While the followers are linked: the lead, the slot linked last, and the
    locos that are still to come, outside of every consist. *)
Record linking (lead prev : ptr) (p : list Z) (t : St) (l r : list ptr) : Prop := {
  lk_good : good t;
  lk_table : table t l r;
  lk_lead : ∃ c, lead ∈ l ∧ heap t !! lead = Some c ∧ consistLead c = None ∧ loco c ∉ id_of <$> p;
  lk_prev : ∃ c, prev ∈ l ∧ heap t !! prev = Some c ∧ consistNext c = None ∧ loco c ∉ id_of <$> p;
  lk_free : free p l t;
}.

(** getSlot for a loco that is to come: a slot of its own, unlinked. *)
Lemma own_slot x p t l r : good t → table t l r → 0 < id_of x → free (x :: p) l t →
  match getSlot (id_of x) true t with
  | Some (Some a, t') => ∃ l' r' c, good t' ∧ table t' l' r' ∧ a ∈ l' ∧ l ⊆ l' ∧ heap t' !! a = Some c ∧ loco c = id_of x ∧ unlinked c ∧
      (∀ y, is_Some (heap t !! y) → is_Some (heap t' !! y)) ∧ (∀ y, y ∈ l' → y ≠ a → y ∈ l ∧ heap t' !! y = heap t !! y) ∧
      (∀ y c, y ∈ l → heap t !! y = Some c → loco c ≠ id_of x → y ≠ a)
  | Some (None, t') => t' = t ∧ no_slot
  | None => False
  end.
Proof using All.
  intros G T Hx Hf. pose proof (id_range x) as Hr.
  destruct (good_getSlot (id_of x) true t Hmax Hr G) as (q & t1 & Hg & G1 & _ & Hq).
  destruct (find_or_make_spec (id_of x) true t l r Hmax T) as (q' & t1' & Hg' & Got); [lia|].
  rewrite Hg in Hg'. injection Hg' as <- <-. rewrite Hg. destruct Got as [a c Ha Hc Hl|_ _|a t1 r1 _ Hno Hout T1 Hc1 Hsame _].
  - destruct Hq as (c' & Hc' & _ & _ & Hdom). exists l, r, c. split_and!; try done.
    + apply (Hf a c); [done|done|]. rewrite Hl. left.
    + intros y d Hy Hd Hne ->. congruence.
  - split; [done|]. by exists x, t.
  - destruct Hq as (c' & Hc' & Hl & _ & Hdom). exists (a :: l), r1, (prepared (id_of x) (firstSlot t)). split_and!; try done.
    + left.
    + intros y Hy. by right.
    + simpl. apply u16_id. unfold is_u16. lia.
    + intros y Hy Hne. apply elem_of_cons in Hy as [?|?]; [done|]. split; [done|]. by apply Hsame.
    + intros y d Hy Hd Hne ->. done.
Qed.

Lemma link_step lead prev x p t l r : linking lead prev (x :: p) t l r → 0 < id_of x → NoDup (id_of <$> x :: p) →
  match getSlot (id_of x) true t with
  | Some (Some a, t1) => ∃ t2 l2 r2,
      (s ← modify a (λ c, LocoSlot.setConsistReverse (x <? 0) (setConsistLead (Some lead) c)) t1;
       modify prev (setConsistNext (Some a)) s) = Some t2 ∧
      linking lead a p t2 l2 r2 ∧ ∀ y, is_Some (heap t !! y) → is_Some (heap t2 !! y)
  | Some (None, t1) => no_slot
  | None => False
  end.
Proof using All.
  intros [G T (cl & Hleadl & Hcl & Hcln & Hclp) (ct & Hprevl & Hct & Hctn & Hctp) Hf] Hx Hnd.
  cbn [fmap list_fmap] in Hclp, Hctp, Hnd. apply not_elem_of_cons in Hclp as [Hclx Hclp], Hctp as [Hctx Hctp].
  apply NoDup_cons in Hnd as [Hxp Hnd].
  pose proof (own_slot x p t l r G T Hx Hf) as Hown. destruct (getSlot (id_of x) true t) as [[[a|] t1]|]; [|by destruct Hown|done].
  destruct Hown as (l1 & r1 & ca & G1 & T1 & Ha & Hsub & Hca & Hla & [Han Hal] & Hdom & Hold & Hne).
  assert (lead ≠ a) as Hleada by (by eapply Hne). assert (prev ≠ a) as Hpreva by (by eapply Hne).
  destruct (Hold lead) as [_ E1]; [by apply Hsub|done|]. destruct (Hold prev) as [_ E2]; [by apply Hsub|done|].
  assert (heap t1 !! lead = Some cl) as Hcl1 by congruence. assert (heap t1 !! prev = Some ct) as Hct1 by congruence.
  destruct (good_link t1 a ca prev ct lead cl (x <? 0) G1 Hca Han Hal Hct1 Hctn Hcl1 Hcln) as (t2 & Hlink & G2 & Hdom2).
  set (ca' := LocoSlot.setConsistReverse (x <? 0) (setConsistLead (Some lead) ca)) in *.
  set (ct' := setConsistNext (Some a) ct).
  assert (modify prev (setConsistNext (Some a)) (store a ca' t1) = Some (store prev ct' (store a ca' t1))) as Hm.
  { apply modify_eq. simpl. by rewrite lookup_insert_ne. }
  rewrite (modify_eq t1 a ca) by done. cbn [mbind option_bind]. fold ca'.
  assert (t2 = store prev ct' (store a ca' t1)) as ->.
  { revert Hlink. rewrite (modify_eq t1 a ca) by done. cbn [mbind option_bind]. rewrite !decide_False by done.
    rewrite (modify_eq _ a (LocoSlot.setConsistReverse (x <? 0) ca)) by (simpl; by rewrite lookup_insert_eq). cbn [mbind option_bind].
    rewrite (modify_eq _ prev ct) by (simpl; by rewrite !lookup_insert_ne). cbn [mbind option_bind].
    rewrite (decide_False (P := prev = a)) by done. intros E. injection E as <-. unfold store. simpl. by rewrite insert_insert_eq. }
  eexists _, l1, r1. split; [exact Hm|]. split; [|by auto]. constructor; [done| | | |].
  - apply (table_write (store a ca' t1) prev ct); try done; [simpl; by rewrite lookup_insert_ne|].
    by apply (table_write t1 a ca).
  - simpl. destruct (decide (prev = lead)) as [->|Hn].
    + exists ct'. rewrite lookup_insert_eq. split_and!; [by apply Hsub|done| |done]. simpl. rewrite Hct in Hcl. by injection Hcl as ->.
    + exists cl. rewrite !lookup_insert_ne by done. split_and!; [by apply Hsub|done..].
  - simpl. exists ca'. rewrite lookup_insert_ne, lookup_insert_eq by done. split_and!; [done|done|done|]. simpl. by rewrite Hla.
  - intros y c Hy. simpl. destruct (decide (prev = y)) as [->|Hn].
    { rewrite lookup_insert_eq. intros [= <-]. by intros Hin. }
    rewrite lookup_insert_ne by done. destruct (decide (a = y)) as [->|Hn'].
    { rewrite lookup_insert_eq. intros [= <-]. simpl. by rewrite Hla. }
    rewrite lookup_insert_ne by done. intros Hc Hin. destruct (Hold y Hy) as [Hyl E]; [done|].
    apply (Hf y c Hyl); [congruence|]. by right.
Qed.
Lemma link_loop_spec p : ∀ lead prev t l r, linking lead prev p t l r → Forall (λ x, 0 < id_of x) p → NoDup (id_of <$> p) →
  match link_loop lead prev p t with
  | Some t' => good t' ∧ ∀ y, is_Some (heap t !! y) → is_Some (heap t' !! y)
  | None => no_slot
  end.
Proof using All.
  induction p as [|x p IH]; intros lead prev t l r L Hp Hnd; [by split; [apply L|]|].
  apply Forall_cons in Hp as [Hx Hp]. pose proof (link_step lead prev x p t l r L Hx Hnd) as Hstep.
  cbn [link_loop]. fold (id_of x). destruct (getSlot (id_of x) true t) as [[[a|] t1]|]; [|done|done]. cbn [mbind option_bind].
  destruct Hstep as (t2 & l2 & r2 & Hrun & L2 & Hdom).
  destruct (modify a _ t1) as [ta|]; [|done]. cbn [mbind option_bind] in Hrun |- *. rewrite Hrun. cbn [mbind option_bind].
  apply NoDup_cons in Hnd as [_ Hnd]. specialize (IH lead a t2 l2 r2 L2 Hp Hnd).
  destruct (link_loop lead a p t2) as [t'|]; [|done]. destruct IH as [G' Hdom']. split; [done|]. auto.
Qed.

Lemma make_consist_fine p0 p t : good t → Forall (λ x, 0 < id_of x) (p0 :: p) → NoDup (id_of <$> p0 :: p) →
  fine t (make_consist p0 p t).
Proof using All.
  intros G Hp Hnd. destruct (g_table _ G) as (l & r & T). unfold make_consist.
  destruct (in_other_spec (p0 :: p) t l r T Hp) as (m & -> & Hfree). cbn [mbind option_bind].
  destruct m as [m|]; [by split|]. specialize (Hfree eq_refl). apply Forall_cons in Hp as [Hx Hp].
  pose proof (own_slot p0 p t l r G T Hx Hfree) as Hown. fold (id_of p0).
  destruct (getSlot (id_of p0) true t) as [[[a|] t1]|]; [|by destruct Hown|done]. cbn [mbind option_bind].
  destruct Hown as (l1 & r1 & ca & G1 & T1 & Ha & Hsub & Hca & Hla & [Han Hal] & Hdom & Hold & Hne).
  rewrite (modify_eq t1 a ca) by done. cbn [mbind option_bind].
  set (ca' := LocoSlot.setConsistReverse (p0 <? 0) ca). cbn [fmap list_fmap] in Hnd. apply NoDup_cons in Hnd as [Hxp Hnd].
  assert (linking a a p (store a ca' t1) l1 r1) as L.
  { constructor; [by apply good_update|by apply (table_write t1 a ca)| | |].
    - exists ca'. simpl. rewrite lookup_insert_eq. split_and!; try done. by rewrite Hla.
    - exists ca'. simpl. rewrite lookup_insert_eq. split_and!; try done. by rewrite Hla.
    - intros y c Hy. simpl. destruct (decide (a = y)) as [->|Hn].
      + rewrite lookup_insert_eq. intros [= <-]. simpl. by rewrite Hla.
      + rewrite lookup_insert_ne by done. intros Hc Hin. destruct (Hold y Hy) as [Hyl E]; [done|].
        apply (Hfree y c Hyl); [congruence|]. by right. }
  pose proof (link_loop_spec p a a _ l1 r1 L Hp Hnd) as Hl. destruct (link_loop a a p _) as [t'|]; [|done].
  destruct Hl as [G' Hdom']. split; [done|]. intros y Hy. apply Hdom'. simpl. destruct (decide (a = y)) as [->|].
  - rewrite lookup_insert_eq. by eexists.
  - rewrite lookup_insert_ne by done. by apply Hdom.
Qed.

Lemma parse_fine p t : good t → Forall is_i16 p → fine t (parse p t).
Proof using All.
  intros G Hp. destruct (g_table _ G) as (l & r & T). unfold parse. destruct p as [|p0 rest].
  { destruct (list_loop_some t (g_next _ G) l (firstSlot t) (S (size (heap t))) (t_used _ _ _ T) (chain_fuel _ _ _ T)) as [m ->]. by split. }
  destruct (invalid (p0 :: rest)) as [m|] eqn:Ei; [by split|]. destruct (invalid_spec _ Hp Ei) as [H1 H2].
  fold (id_of p0). destruct (getSlot_false (id_of p0) t l r T) as (q & -> & Hq).
  { apply Forall_cons in H1 as [? _]. pose proof (id_range p0). lia. }
  cbn [mbind option_bind].
  assert (∃ b, match q with Some x => c ← load t x; Some (isConsistLead c) | None => Some false end = Some b) as [b ->].
  { destruct q as [x|]; [|by eexists]. destruct Hq as (_ & c & Hc & _). unfold load. rewrite Hc. by eexists. }
  cbn [mbind option_bind].
  assert (∃ t1, (if b then deleteAnyConsist p0 t else Some t) = Some t1 ∧ good t1 ∧ ∀ y, is_Some (heap t !! y) → is_Some (heap t1 !! y))
    as (t1 & -> & G1 & Hdom).
  { destruct b; [|by exists t]. destruct (good_deleteAnyConsist p0 t Hmax) as (t1 & ? & ? & Hd & _); [apply id_range|done|].
    exists t1. split_and!; [done|done|]. intros y. apply Hd. }
  cbn [mbind option_bind]. destruct rest as [|p1 rest]; [by split|].
  pose proof (make_consist_fine p0 (p1 :: rest) t1 G1 H1 H2) as Hm. unfold fine in *.
  destruct (make_consist _ _ _) as [[[? ?] t']|]; [|done]. destruct Hm. auto.
Qed.
End consist.
End ConsistProps.
