(* ===== verification/DCC.v ===== *)
(** The DCC API (src/DCC.h, src/DCC.cpp): throttles, functions, accessories,
    writing to decoders on the main track, momentum, emergency stop and the
    reminder loop, over the loco table of LocoSlot.  What a call does to other
    parts of the program (the packet queues, DC tracks, throttle broadcasts,
    EXRAIL, Railcom) is an event of a log, in the order of the calls. *)

From S2P Require Import Prelude Chain LocoSlot DCCConsist DCCQueueSpec.

Module DCC.
Import LocoSlot DCCQueueSpec.DCCQueueSpec.

Definition HIGHEST_SHORT_ADDR : Z := 127.
Definition MOMENTUM_FACTOR : Z := 7.
Definition SET_SPEED : Z := 0x3f.
Definition WRITE_BYTE_MAIN : Z := 0xEC.
Definition READ_BYTE_MAIN : Z := 0xE4.
Definition WRITE_BIT_MAIN : Z := 0xE8.
Definition WRITE_BIT : Z := 0xF0.
Definition BIT_ON : Z := 0x08.
Definition BIT_OFF : Z := 0x00.
Definition FN_GROUP_1 : Z := 0x01.
Definition FN_GROUP_2 : Z := 0x02.
Definition FN_GROUP_3 : Z := 0x04.
Definition FN_GROUP_4 : Z := 0x08.
Definition FN_GROUP_5 : Z := 0x10.

Inductive ev :=
  | Queue (o : DCCQueueSpec.DCCQueueSpec.op)                  (* DCCQueue::schedule... *)
  | DCSignal (cab speed : Z)                     (* TrackManager::setDCSignal *)
  | BroadcastLoco (loco speed functions : Z)     (* CommandDistributor::broadcastLoco(slot) *)
  | BroadcastForgetLoco (loco : Z)
  | BroadcastEstopLock (locked : bool)
  | ActivateEvent (addr : Z) (gate : bool)       (* RMFT2::activateEvent *)
  | Anticipate (cab cv : Z).                     (* Railcom::anticipate *)

Record St := mkSt {
  slots : LocoSlot.St;
  nextLocoReminder : option ptr;
  globalSpeedsteps : Z;
  loopStatus : Z;
  defaultMomentumA : Z;
  defaultMomentumD : Z;
  linearAcceleration : bool;
  estopIsLocked : bool;
  out : list ev;
}.

Definition init : St := mkSt LocoSlot.init None 128 0 0 0 false false [].

Definition with_slots (t : LocoSlot.St) (s : St) : St :=
  mkSt t (nextLocoReminder s) (globalSpeedsteps s) (loopStatus s) (defaultMomentumA s)
    (defaultMomentumD s) (linearAcceleration s) (estopIsLocked s) (out s).
Definition with_next (p : option ptr) (s : St) : St :=
  mkSt (slots s) p (globalSpeedsteps s) (loopStatus s) (defaultMomentumA s)
    (defaultMomentumD s) (linearAcceleration s) (estopIsLocked s) (out s).
Definition with_loop (n : Z) (s : St) : St :=
  mkSt (slots s) (nextLocoReminder s) (globalSpeedsteps s) n (defaultMomentumA s)
    (defaultMomentumD s) (linearAcceleration s) (estopIsLocked s) (out s).
Definition with_defaults (a d : Z) (s : St) : St :=
  mkSt (slots s) (nextLocoReminder s) (globalSpeedsteps s) (loopStatus s) (u8 a) (u8 d)
    (linearAcceleration s) (estopIsLocked s) (out s).
Definition with_lock (b : bool) (s : St) : St :=
  mkSt (slots s) (nextLocoReminder s) (globalSpeedsteps s) (loopStatus s) (defaultMomentumA s)
    (defaultMomentumD s) (linearAcceleration s) b (out s).
Definition with_out (l : list ev) (s : St) : St :=
  mkSt (slots s) (nextLocoReminder s) (globalSpeedsteps s) (loopStatus s) (defaultMomentumA s)
    (defaultMomentumD s) (linearAcceleration s) (estopIsLocked s) l.
Definition setGlobalSpeedsteps (n : Z) (s : St) : St :=
  mkSt (slots s) (nextLocoReminder s) (u8 n) (loopStatus s) (defaultMomentumA s)
    (defaultMomentumD s) (linearAcceleration s) (estopIsLocked s) (out s).

(** ** Access to the loco table *)

Definition emit (e : ev) : M St unit := mmod (λ s, with_out (out s ++ [e]) s).
Definition deref (p : ptr) : M St LocoSlot.LocoSlot := λ s, c ← load (slots s) p; Some (c, s).
Definition update (p : ptr) (f : LocoSlot.LocoSlot → LocoSlot.LocoSlot) : M St unit :=
  λ s, t ← modify p f (slots s); Some (tt, with_slots t s).
Definition fuel_of : M St nat := mget (λ s, S (size (heap (slots s)))).
Definition broadcastLoco (p : ptr) : M St unit :=
  let! c := deref p in emit (BroadcastLoco (loco c) (targetSpeed c) (functions c)).

(** The address bytes that start a packet: a two-byte address has its two top
    bits set. *)
Definition address (cab : Z) : list Z :=
  (if cab >? HIGHEST_SHORT_ADDR then [highByte cab .| 0xC0] else []) ++ [lowByte cab].

Section dcc.
Context `{Config}.

Definition slot_of (cab : Z) (autoCreate : bool) : M St (option ptr) :=
  λ s, '(p, t) ← getSlot (u16 cab) autoCreate (slots s); Some (p, with_slots t s).

(** * Speed *)

Definition getMomentum (s : St) (c : LocoSlot.LocoSlot) : Z :=
  let target := targetSpeed c .& 0x7f in
  let current := speedCode c .& 0x7f in
  if target >? current then
    let momentum := if momentumA c =? MOMENTUM_USE_DEFAULT then defaultMomentumA s else momentumA c in
    if (momentum =? 0) || linearAcceleration s then momentum else
    let powerDifference := Z.quot (target - current) 8 in
    if momentum - powerDifference <? 0 then 0 else u8 (momentum - powerDifference)
  else if momentumD c =? MOMENTUM_USE_DEFAULT then defaultMomentumD s else momentumD c.

(** The 28-step code of a 128-step speed. *)
Definition code28 (speed128 : Z) : Z :=
  if (speed128 =? 0) || (speed128 =? 1) then speed128 else
  let speed28 := u8 (Z.quot (speed128 * 10 + 36) 46) in
  u8 (Z.quot (speed28 + 3) 2 .| (if tru (speed28 .& 1) then 0 else 0x10)).

(** The instruction bytes of a speed packet. *)
Definition speed_bytes (steps speedCode : Z) : list Z :=
  if steps <=? 28 then
    [u8 (0x40 .| code28 (speedCode .& 0x7F) .| (if tru (speedCode .& 0x80) then 0x20 else 0))]
  else [SET_SPEED; speedCode].

Definition setThrottleDCC (slot : option ptr) (speedCode : Z) : M St unit :=
  let! '(cab, speedCode) :=
    (match slot with
     | None => mreturn (0, speedCode)
     | Some x =>
       let! c := deref x in
       mreturn (loco c, if consistReverse c then u8 (speedCode .^ 0x80) else speedCode)
     end) in
  let! locked := mget estopIsLocked in
  let speedCode := if locked : bool then u8 (speedCode .& 0x80 .| 0x01) else speedCode in
  let! steps := mget globalSpeedsteps in
  let b := address cab ++ speed_bytes steps speedCode in
  emit (Queue (if speedCode .& 0x7F =? 1
               then OpEstop b (Z.of_nat (length b)) 4 cab
               else OpSpeed b (Z.of_nat (length b)) 0 cab)).

(** [for (auto follower=slot; follower; follower=follower->getConsistNext())] *)
Fixpoint throttle2_loop (fuel : nat) (follower : option ptr) (speed : Z) : M St unit :=
  match follower, fuel with
  | None, _ => mreturn tt
  | Some _, O => mfail
  | Some x, S fuel =>
    update x (setSpeedCode speed) ;;;
    setThrottleDCC (Some x) speed ;;;
    let! c := deref x in
    throttle2_loop fuel (consistNext c) speed
  end.

Definition setThrottle2 (slot : ptr) (speed : Z) : M St unit :=
  let! fuel := fuel_of in throttle2_loop fuel (Some slot) speed.

(** Copy target speed to consist followers. *)
Fixpoint targets_loop (fuel : nat) (follower : option ptr) (speed : Z) : M St unit :=
  match follower, fuel with
  | None, _ => mreturn tt
  | Some _, O => mfail
  | Some x, S fuel =>
    let! c := deref x in
    update x (setTargetSpeed (speed .^ (if consistReverse c then 0x80 else 0))) ;;;
    targets_loop fuel (consistNext c) speed
  end.

Fixpoint estop_all_loop (fuel : nat) (slot : option ptr) : M St unit :=
  match slot, fuel with
  | None, _ => mreturn tt
  | Some _, O => mfail
  | Some x, S fuel =>
    let! c := deref x in
    let newspeed := targetSpeed c .& 0x80 .| 0x01 in
    update x (setSpeedCode newspeed) ;;;
    update x (setTargetSpeed newspeed) ;;;
    broadcastLoco x ;;;
    estop_all_loop fuel (next c)
  end.

Definition estopAll : M St unit :=
  setThrottleDCC None 1 ;;;
  emit (DCSignal 0 1) ;;;
  let! fuel := fuel_of in
  let! first := mget (λ s, firstSlot (slots s)) in
  estop_all_loop fuel first.

Definition estopLock (lock : bool) : M St unit :=
  let! locked := mget estopIsLocked in
  if bool_decide (locked = lock) then mreturn tt else
  mmod (with_lock lock) ;;;
  (when lock do (setThrottleDCC None 1 ;;; emit (DCSignal 0 1))) ;;;
  emit (BroadcastEstopLock lock).

Definition setThrottle (now cab tSpeed : Z) (tDirection : bool) : M St bool :=
  if (tSpeed =? 1) && (cab =? 0) then estopAll ;;; mreturn true else
  let speed := u8 (tSpeed .& 0x7F + b2z tDirection * 128) in
  let! p := slot_of cab true in
  match p with
  | None => mreturn false (* speed table full, can not do anything *)
  | Some x =>
    let! c := deref x in
    if isConsistFollower c then mreturn true else
    if targetSpeed c =? speed then mreturn true else
    update x (setTargetSpeed speed) ;;;
    let! fuel := fuel_of in
    targets_loop fuel (consistNext c) speed ;;;
    let! c := deref x in
    let! momentum := mget (λ s, getMomentum s c) in
    (if tru momentum && negb (tSpeed =? 1) then update x (setMomentumBase now)
     else
       setThrottle2 x speed ;;;
       let! locked := mget estopIsLocked in
       when negb locked do emit (DCSignal cab speed)) ;;;
    broadcastLoco x ;;;
    mreturn true
  end.

Definition getThrottleSpeedByte (cab : Z) : M St Z :=
  let! p := slot_of cab false in
  match p with Some x => let! c := deref x in mreturn (targetSpeed c) | None => mreturn 128 end.
Definition getThrottleSpeed (cab : Z) : M St Z :=
  let! b := getThrottleSpeedByte cab in mreturn (b .& 0x7F).
Definition getThrottleDirection (cab : Z) : M St bool :=
  let! b := getThrottleSpeedByte cab in mreturn (tru (b .& 0x80)).
Definition getLocoSpeedByte (cab : Z) : M St Z :=
  let! p := slot_of cab false in
  match p with Some x => let! c := deref x in mreturn (speedCode c) | None => mreturn 128 end.
Definition getThrottleFrequency (cab : Z) : M St Z :=
  let! p := slot_of cab false in
  match p with Some x => let! c := deref x in mreturn (u8 (functions c >>' 29)) | None => mreturn 0 end.

Definition saveSpeed (cab : Z) : M St unit :=
  let! p := slot_of cab false in
  match p with Some x => update x LocoSlot.saveSpeed | None => mreturn tt end.
Definition restoreSpeed (now cab : Z) : M St unit :=
  let! p := slot_of cab false in
  match p with
  | Some x =>
    let! c := deref x in
    let speedCode := savedSpeedCode c in
    let! _ := setThrottle now cab (speedCode .& 0x7f) (tru (speedCode .& 0x80)) in mreturn tt
  | None => mreturn tt
  end.

(** * Functions *)

Definition setFunctionInternal (cab group byte1 byte2 : Z) : M St unit :=
  let b := address cab ++ (if tru byte1 then [byte1] else []) ++ [byte2] in
  emit (Queue (OpFunction b (Z.of_nat (length b)) (u16 cab) group)).

Definition group_mask (functionNumber : Z) : Z :=
  if functionNumber <=? 4 then FN_GROUP_1
  else if functionNumber <=? 8 then FN_GROUP_2
  else if functionNumber <=? 12 then FN_GROUP_3
  else if functionNumber <=? 20 then FN_GROUP_4
  else FN_GROUP_5.

Definition updateGroupflags (slot : ptr) (functionNumber : Z) : M St unit :=
  update slot (λ c, setGroupFlags (groupFlags c .| group_mask functionNumber) c).

(** The binary state control instruction of functions above 28. *)
Definition binary_state (functionNumber : Z) (on : bool) : list Z :=
  if functionNumber <=? 127
  then [0xDD; u8 (functionNumber .| (if on then 0x80 else 0))]
  else [0xC0; u8 ((functionNumber .& 0x7F) .| (if on then 0x80 else 0)); u8 (functionNumber >>' 7)].

(** The function map with one function changed ([~funcmask] on 32 bits). *)
Definition set_function_bit (previous functionNumber : Z) (on : bool) : Z :=
  let funcmask := u32 (1 <<' functionNumber) in
  if on then previous .| funcmask else previous .& (0xFFFFFFFF - funcmask).

Definition setFn (cab functionNumber : Z) (on : bool) : M St bool :=
  if cab <=? 0 then mreturn false else
  if functionNumber <? 0 then mreturn false else
  (when functionNumber >? 28 do
     let b := address cab ++ binary_state functionNumber on in
     emit (Queue (OpPacket b (Z.of_nat (length b)) 4 (u16 cab)))) ;;;
  if functionNumber >? 31 then mreturn true else
  let! p := slot_of cab true in
  match p with
  | None => mreturn false (* speed table full, can not do anything *)
  | Some x =>
    let! c := deref x in
    let newset := set_function_bit (functions c) functionNumber on in
    (when negb (newset =? functions c) do
       (update x (setFunctions newset) ;;;
        (when functionNumber <=? 28 do updateGroupflags x functionNumber) ;;;
        broadcastLoco x)) ;;;
    mreturn true
  end.

Definition getFn (cab functionNumber : Z) : M St Z :=
  if (cab <=? 0) || (functionNumber >? 31) then mreturn (-1) else
  if functionNumber <? 0 then mfail else (* shift by a negative count *)
  let! p := slot_of cab false in
  match p with
  | None => mreturn (-1)
  | Some x =>
    let! c := deref x in
    mreturn (if tru (functions c .& u32 (1 <<' functionNumber)) then 1 else 0)
  end.

Definition changeFn (cab functionNumber : Z) : M St unit :=
  let! currentValue := getFn cab functionNumber in
  if currentValue <? 0 then mreturn tt else
  let! _ := setFn cab functionNumber (negb (tru currentValue)) in mreturn tt.

Definition getFunctionMap (cab : Z) : M St Z :=
  if cab <=? 0 then mreturn 0 else
  let! p := slot_of cab false in
  match p with Some x => let! c := deref x in mreturn (functions c) | None => mreturn 0 end.

(** DC frequency (0..3) in spare functions 29, 30, 31. *)
Definition setDCFreq (cab freq : Z) : M St unit :=
  if (cab =? 0) || (freq >? 3) then mreturn tt else
  let! p := slot_of cab true in
  match p with
  | None => mreturn tt
  | Some x =>
    let! c := deref x in
    let newFunctions := functions c .& 0x1FFFFFFF in
    let newFunctions := if tru freq then newFunctions .| u32 (1 <<' (28 + freq)) else newFunctions in
    if newFunctions =? functions c then mreturn tt else
    update x (setFunctions newFunctions) ;;; broadcastLoco x
  end.

(** * Accessories *)

Definition accessory_bytes (address port : Z) (gate : bool) : list Z :=
  [u8 (address mod 64 + 128);
   u8 ((((Z.quot address 64 mod 8) <<' 4) + ((port mod 4) <<' 1) + b2z gate) .^ 0xF8)].

Definition setAccessory (address port : Z) (gate : bool) (onoff : Z) : M St unit :=
  if negb (address =? address .& 511) then mreturn tt else
  if negb (port =? port .& 3) then mreturn tt else
  let b := accessory_bytes address port gate in
  (if onoff =? 0 then emit (Queue (OpPacket (DCCQueue.DCCQueue.gate_off b) 2 3 0))
   else if onoff =? 1 then emit (Queue (OpPacket b 2 3 0))
   else emit (Queue (OpAcc b 2 3 100))) ;;;
  when negb (onoff =? 0) do emit (ActivateEvent (address <<' 2 .| port) gate).

Definition extended_bytes (address value : Z) : list Z :=
  [u8 (0x80 .| ((address >>' 2) .& 0x3F));
   u8 (0x01 .| ((Z.lnot (address >>' 8) .& 0x07) <<' 4) .| ((address .& 0x03) <<' 1));
   u8 value].

Definition setExtendedAccessory (address value repeats : Z) : M St bool :=
  if (address >? 2044) || (address <? -3) then mreturn false else
  if negb (value =? value .& 0x1F) then mreturn false else
  emit (Queue (OpPacket (extended_bytes (address + 3) value) 3 repeats 0)) ;;;
  mreturn true.

(** * Programming on the main track *)

Definition cv1 (opcode cv : Z) : Z := (highByte (cv - 1) .& 0x03) .| opcode.
Definition cv2 (cv : Z) : Z := lowByte (cv - 1).

Definition writeCVByteMain (cab cv bValue : Z) : M St unit :=
  let b := address cab ++ [cv1 WRITE_BYTE_MAIN cv; cv2 cv; bValue] in
  emit (Queue (OpPacket b (Z.of_nat (length b)) 4 (u16 cab))).

Definition readCVByteMain (cab cv : Z) : M St unit :=
  let b := address cab ++ [cv1 READ_BYTE_MAIN cv; cv2 cv; 0] in
  emit (Queue (OpPacket b (Z.of_nat (length b)) 2 (u16 cab))) ;;;
  emit (Anticipate cab cv).

Definition writeCVBitMain (cab cv bNum : Z) (bValue : bool) : M St unit :=
  let b := address cab ++
    [cv1 WRITE_BIT_MAIN cv; cv2 cv; WRITE_BIT .| (if bValue then BIT_ON else BIT_OFF) .| (bNum mod 8)] in
  emit (Queue (OpPacket b (Z.of_nat (length b)) 4 (u16 cab))).

Definition time_bytes (minutes speed : Z) (suddenChange : bool) : list Z :=
  [0; 0xC1; minutes mod 60; 0xE0 .| Z.quot minutes 60; (if suddenChange then 0x80 else 0) .| speed].

Definition setTime (minutes speed : Z) (suddenChange : bool) : M St bool :=
  if (minutes >=? 1440) || (speed >? 63) then mreturn false else
  emit (Queue (OpPacket (time_bytes minutes speed suddenChange) 5 2 0)) ;;;
  mreturn true.

(** * Momentum *)

Definition setMomentum (locoId accelerating decelerating : Z) : M St bool :=
  if locoId <? 0 then mreturn false else
  if locoId =? 0 then
    if (accelerating <? 0) || (decelerating <? 0) then mreturn false else
    mmod (with_defaults (Z.quot accelerating MOMENTUM_FACTOR) (Z.quot decelerating MOMENTUM_FACTOR)) ;;;
    mreturn true
  else
  if (accelerating <? -1) || (decelerating <? -1) then mreturn false else
  if (Z.quot accelerating MOMENTUM_FACTOR >=? MOMENTUM_USE_DEFAULT) ||
     (Z.quot decelerating MOMENTUM_FACTOR >=? MOMENTUM_USE_DEFAULT) then mreturn false else
  let! p := slot_of locoId true in
  match p with
  | None => mreturn false
  | Some x =>
    update x (setMomentumA (if accelerating <? 0 then MOMENTUM_USE_DEFAULT
                            else Z.quot accelerating MOMENTUM_FACTOR)) ;;;
    update x (setMomentumD (if decelerating <? 0 then MOMENTUM_USE_DEFAULT
                            else Z.quot decelerating MOMENTUM_FACTOR)) ;;;
    mreturn true
  end.

(** * Reminders *)

Definition normalize (speed : Z) : Z :=
  if tru (speed .& 0x80) then speed .& 0x7F else 0 - 1 - speed.

Definition dccalize (speed : Z) : Z :=
  if speed >? 127 then 0xFF
  else if speed <? -127 then 0x7F
  else if speed >=? 0 then u8 (speed .| 0x80)
  else u8 (-1 - speed).

(** The next speed code of a loco on its way to its target. *)
Definition approach (sc target ticks : Z) : Z :=
  let current := normalize sc in
  let target := normalize target in
  dccalize
    (if current <? target
     then (let current := i16 (current + ticks) in if current >? target then target else current)
     else (let current := i16 (current - ticks) in if current <? target then target else current)).

(** Cases 0, 2, 4, 6, 8 of [issueReminder]: speed, with any momentum change. *)
Definition remind_speed (now : Z) (slot : ptr) (c : LocoSlot.LocoSlot) : M St unit :=
  let sc := speedCode c in
  let! sc :=
    (if targetSpeed c =? sc then mreturn sc else
     let delay := i16 (now - momentum_base c) in
     let! momentum := mget (λ s, getMomentum s c) in
     let millisPerNotch := MOMENTUM_FACTOR * i16 momentum in
     let ticks := if millisPerNotch >? 0 then Z.quot delay millisPerNotch else 500 in
     if ticks >? 0 then
       let sc := approach sc (targetSpeed c) ticks in
       update slot (setSpeedCode sc) ;;;
       let! locked := mget estopIsLocked in
       (when negb locked do emit (DCSignal (loco c) sc)) ;;;
       update slot (setMomentumBase now) ;;;
       mreturn sc
     else mreturn sc) in
  setThrottle2 slot sc.

(** The function groups: flag, and the packet of the group's functions. *)
Definition remind_group (c : LocoSlot.LocoSlot) (n : Z) : option (Z * Z * Z * Z) :=
  let f := functions c in
  match n with
  | 1 => Some (FN_GROUP_1, 1, 0, 128 .| ((f >>' 1) .& 0x0F) .| ((f .& 0x01) <<' 4))
  | 3 => Some (FN_GROUP_2, 2, 0, 176 .| ((f >>' 5) .& 0x0F))
  | 5 => Some (FN_GROUP_3, 3, 0, 160 .| ((f >>' 9) .& 0x0F))
  | 7 => Some (FN_GROUP_4, 4, 222, (f >>' 13) .& 0xFF)
  | 9 => Some (FN_GROUP_5, 5, 223, (f >>' 21) .& 0xFF)
  | _ => None
  end.

Definition issueReminder (now : Z) (slot : ptr) : M St bool :=
  let! c := deref slot in
  let! n := mget loopStatus in
  if (n =? 0) || (n =? 2) || (n =? 4) || (n =? 6) || (n =? 8) then
    if isConsistFollower c then mreturn false
    else remind_speed now slot c ;;; mreturn true
  else
    match remind_group c n with
    | Some (flag, group, byte1, byte2) =>
      if tru (groupFlags c .& flag)
      then setFunctionInternal (loco c) group byte1 byte2 ;;; mreturn true
      else mreturn false
    | None => mreturn false
    end.

Fixpoint reminders_loop (fuel : nat) (now : Z) (slot : option ptr) : M St unit :=
  match slot, fuel with
  | None, _ => mmod (with_next None)
  | Some _, O => mfail
  | Some x, S fuel =>
    let! done := issueReminder now x in
    let! c := deref x in
    if done : bool then mmod (with_next (next c))
    else reminders_loop fuel now (next c)
  end.

(** Returns early when there are no locos at all. *)
Definition issueReminders (now : Z) : M St unit :=
  let! restart := mget (λ s, chainModified (slots s) || bool_decide (nextLocoReminder s = None)) in
  (when restart do
     (mmod (λ s, with_slots (with_modified false (slots s)) s) ;;;
      mmod (λ s, with_next (firstSlot (slots s)) s))) ;;;
  let! start := mget nextLocoReminder in
  if restart && bool_decide (start = None) then mreturn tt else
  (when restart do mmod (λ s, let n := u8 (loopStatus s + 1) in with_loop (if n >? 9 then 0 else n) s)) ;;;
  let! fuel := fuel_of in
  reminders_loop fuel now start.

(** * Forgetting *)

Definition forgetLoco (cab : Z) : M St unit :=
  let! p := slot_of cab false in
  match p with
  | None => mreturn tt
  | Some x =>
    setThrottleDCC (Some x) 1 ;;;
    let! c := deref x in
    mmod (λ s, if decide (nextLocoReminder s = Some x) then with_next (next c) s else s) ;;;
    (when isConsistLead c || isConsistFollower c do
       λ s, t ← DCCConsist.DCCConsist.deleteAnyConsist cab (slots s); Some (tt, with_slots t s)) ;;;
    (λ s, t ← forget x (slots s); Some (tt, with_slots t s)) ;;;
    emit (BroadcastForgetLoco cab)
  end.

Fixpoint forget_broadcast (fuel : nat) (slot : option ptr) : M St unit :=
  match slot, fuel with
  | None, _ => mreturn tt
  | Some _, O => mfail
  | Some x, S fuel =>
    let! c := deref x in
    emit (BroadcastForgetLoco (loco c)) ;;; forget_broadcast fuel (next c)
  end.

Definition forgetAllLocos : M St unit :=
  setThrottleDCC None 1 ;;;
  let! fuel := fuel_of in
  let! first := mget (λ s, firstSlot (slots s)) in
  forget_broadcast fuel first ;;;
  (λ s, t ← forgetAll (slots s); Some (tt, with_slots t s)) ;;;
  mmod (with_next None).

End dcc.
End DCC.
