(* ===== verification/DCCSafe.v ===== *)
(** The DCC API never fails: a program logic of the API over the loco table
    invariant, and its theorems for every sequence of calls. *)

From S2P Require Import Prelude Chain LocoSlot DCCConsist ConsistProps DCCQueueSpec DCC.

Module DCCSafe.
Import LocoSlot DCCQueueSpec.DCCQueueSpec LocoInv DCC.DCC.

#[local] Arguments throttle2_loop : simpl never.
#[local] Arguments targets_loop : simpl never.
#[local] Arguments reminders_loop : simpl never.
#[local] Arguments size : simpl never.

(** ** What an event may be: a packet the queues accept and, while the
    emergency stop is locked, no speed packet and no DC speed but a stop. *)
Definition ev_ok (locked : bool) (e : ev) : Prop :=
  match e with
  | Queue o => op_ok o ∧ (locked = true → match o with OpSpeed _ _ _ _ => False | _ => True end)
  | DCSignal _ speed => locked = true → speed = 1
  | _ => True
  end.

(** The invariant of the state of the API. *)
Definition inv (s : DCC.St) : Prop :=
  good (slots s) ∧ ∀ x, nextLocoReminder s = Some x → is_Some (heap (slots s) !! x).

(** From [s] to [s']: the invariant holds, the lock is as it was and the new
    events are acceptable. *)
Record steps (s s' : DCC.St) : Prop := {
  st_inv : inv s';
  st_lock : estopIsLocked s' = estopIsLocked s;
  st_out : ∃ new, out s' = out s ++ new ∧ Forall (ev_ok (estopIsLocked s)) new;
}.

(** The same, and no link of the table changed. *)
Record keeps (s s' : DCC.St) : Prop := {
  k_steps : steps s s';
  k_next : ∀ y, next <$> heap (slots s') !! y = next <$> heap (slots s) !! y;
  k_cons : ∀ y, consistNext <$> heap (slots s') !! y = consistNext <$> heap (slots s) !! y;
  k_first : firstSlot (slots s') = firstSlot (slots s);
}.

Lemma steps_refl s : inv s → steps s s.
Proof. intros H. split; [done..|]. exists []. by rewrite app_nil_r. Qed.
Lemma steps_trans s1 s2 s3 : steps s1 s2 → steps s2 s3 → steps s1 s3.
Proof.
  intros [H1 H2 (n1 & H3 & H4)] [H5 H6 (n2 & H7 & H8)]. split; [done|congruence|].
  exists (n1 ++ n2). rewrite H7, H3, app_assoc. split; [done|]. apply Forall_app.
  rewrite H2 in H8. done.
Qed.
Lemma keeps_refl s : inv s → keeps s s.
Proof. intros H. split; [by apply steps_refl|done..]. Qed.
Lemma keeps_trans s1 s2 s3 : keeps s1 s2 → keeps s2 s3 → keeps s1 s3.
Proof.
  intros [H1 H2 H3 H4] [H5 H6 H7 H8]. split; [by eapply steps_trans| | |congruence].
  - intros y. by rewrite H6, H2.
  - intros y. by rewrite H7, H3.
Qed.
Lemma keeps_inv s s' : keeps s s' → inv s'.
Proof. intros K. apply K. Qed.
Lemma keeps_valid s s' x : keeps s s' → is_Some (heap (slots s) !! x) → is_Some (heap (slots s') !! x).
Proof.
  intros K Hx. pose proof (k_next _ _ K x) as E. destruct Hx as [c Hc]. rewrite Hc in E.
  destruct (heap (slots s') !! x); [eauto|done].
Qed.
Lemma keeps_chain s s' p k : keeps s s' → chain (H := cnext) (heap (slots s)) p k →
  chain (H := cnext) (heap (slots s')) p k.
Proof. intros K. apply (chain_ext (H := cnext)). intros y _. symmetry. apply K. Qed.
Lemma keeps_next_chain s s' p k : keeps s s' → chain (heap (slots s)) p k → chain (heap (slots s')) p k.
Proof. intros K. apply chain_ext. intros y _. symmetry. apply K. Qed.

(** Chaining steps inside a proof. *)
Lemma wp_keeps {A} (m : M DCC.St A) s0 s (Q : A → DCC.St → Prop) :
  keeps s0 s → wp m (λ _ s', keeps s s') s → (∀ a s', keeps s0 s' → Q a s') → wp m Q s.
Proof.
  intros K Hm HQ. eapply wp_mono; [exact Hm|]. intros a s' K'. apply HQ. by eapply keeps_trans.
Qed.
Lemma wp_steps {A} (m : M DCC.St A) s0 s (Q : A → DCC.St → Prop) :
  steps s0 s → wp m (λ _ s', steps s s') s → (∀ a s', steps s0 s' → Q a s') → wp m Q s.
Proof.
  intros K Hm HQ. eapply wp_mono; [exact Hm|]. intros a s' K'. apply HQ. by eapply steps_trans.
Qed.

(** ** The primitives *)

Lemma wp_emit e s (Q : unit → DCC.St → Prop) :
  inv s → ev_ok (estopIsLocked s) e → (∀ s', keeps s s' → Q tt s') → wp (emit e) Q s.
Proof.
  intros I He HQ. apply HQ. split; [|done..]. split; [done..|]. simpl. exists [e]. split; [done|].
  by constructor.
Qed.

Lemma wp_deref x s (Q : LocoSlot.LocoSlot → DCC.St → Prop) c :
  heap (slots s) !! x = Some c → Q c s → wp (deref x) Q s.
Proof. intros Hx HQ. unfold wp, deref, load. by rewrite Hx. Qed.

Lemma wp_update x f s (Q : unit → DCC.St → Prop) : inv s → is_Some (heap (slots s) !! x) → harmless f →
  (∀ s', keeps s s' → Q tt s') → wp (update x f) Q s.
Proof.
  intros [G Hn] [c Hc] Hf HQ. unfold wp, update. rewrite (modify_eq _ x c f Hc). simpl. apply HQ.
  assert (∀ y, is_Some (heap (slots s) !! y) → is_Some (<[x:=f c]> (heap (slots s)) !! y)) as Hv.
  { intros y Hy. destruct (decide (x = y)) as [->|]; [rewrite lookup_insert_eq; eauto|].
    by rewrite lookup_insert_ne. }
  destruct (Hf c) as (H1 & _ & H2 & _). split; [split|..]; simpl; try done.
  - split; [by apply good_update|]. simpl. eauto.
  - exists []. by rewrite app_nil_r.
  - intros y. destruct (decide (x = y)) as [->|]; [|by rewrite lookup_insert_ne].
    rewrite lookup_insert_eq, Hc. simpl. by rewrite H1.
  - intros y. destruct (decide (x = y)) as [->|]; [|by rewrite lookup_insert_ne].
    rewrite lookup_insert_eq, Hc. simpl. by rewrite H2.
Qed.

Lemma broadcastLoco_wp x s : inv s → is_Some (heap (slots s) !! x) →
  wp (broadcastLoco x) (λ _ s', keeps s s') s.
Proof.
  intros I [c Hc]. unfold broadcastLoco. wp1. eapply wp_deref; [done|]. by apply wp_emit.
Qed.

Lemma harmless_fields f : (∀ c, next (f c) = next c ∧ loco (f c) = loco c ∧
    consistNext (f c) = consistNext c ∧ consistLead (f c) = consistLead c) → harmless f.
Proof. done. Qed.
Ltac harmless := by (intros ?; repeat split).

Lemma length_address cab : (length (address cab) <= 2)%nat.
Proof. unfold address. destruct (cab >? HIGHEST_SHORT_ADDR); simpl; lia. Qed.
Lemma length_speed_bytes n c : (length (speed_bytes n c) <= 2)%nat.
Proof. unfold speed_bytes. destruct (n <=? 28); simpl; lia. Qed.

Lemma packet_len l : (length l <= 5)%nat → packet_ok l (Z.of_nat (length l)).
Proof. intros. unfold packet_ok. change DCCQueue.DCCQueue.MAX_PACKET_SIZE with 5. lia. Qed.

#[local] Set Default Proof Using "All".

Section dcc.
Context `{Config} (Hmax : MAX_LOCOS < 65536).

Lemma setThrottleDCC_wp p speed s : inv s → (∀ x, p = Some x → is_Some (heap (slots s) !! x)) →
  (p = None → speed = 1) →
  wp (setThrottleDCC p speed) (λ _ s', keeps s s') s.
Proof.
  intros I Hp H1. unfold setThrottleDCC. wp1.
  assert (∃ cab sp, is_u16 cab ∧ wp (match p with
     | None => mreturn (0, speed)
     | Some x => let! c := deref x in
       mreturn (loco c, if consistReverse c then u8 (speed .^ 0x80) else speed)
     end) (λ r s', r = (cab, sp) ∧ s' = s) s) as (cab & sp & Hcab & Hw).
  { destruct p as [x|]; [|exists 0, speed; done]. destruct (Hp x eq_refl) as [c Hc].
    exists (loco c), (if consistReverse c then u8 (speed .^ 0x80) else speed).
    split; [by eapply (g_loco _ (proj1 I))|]. wp1. by eapply wp_deref. }
  eapply wp_mono; [exact Hw|]. intros r s' [-> ->]. cbn beta iota. do 2 wp1. do 2 wp1.
  apply wp_emit; [done| |done].
  assert (packet_ok (address cab ++ speed_bytes (globalSpeedsteps s)
    (if estopIsLocked s then u8 (sp .& 128 .| 1) else sp)) (Z.of_nat (length (address cab ++
    speed_bytes (globalSpeedsteps s) (if estopIsLocked s then u8 (sp .& 128 .| 1) else sp))))) as Hpk.
  { apply packet_len. rewrite length_app. pose proof (length_address cab).
    pose proof (length_speed_bytes (globalSpeedsteps s) (if estopIsLocked s then u8 (sp .& 128 .| 1) else sp)).
    lia. }
  split; [by destruct (_ =? 1)|]. intros Hl. rewrite Hl in *.
  replace (u8 (sp .& 128 .| 1) .& 127 =? 1) with true; [done|]. symmetry. apply Z.eqb_eq.
  unfold u8. change 127 with (Z.ones 7). change 256 with (2 ^ 8). rewrite <-Z.land_ones by lia.
  rewrite <-Z.land_assoc. change (Z.ones 8 .& Z.ones 7) with (Z.ones 7).
  rewrite Z.land_lor_distr_l, <-Z.land_assoc. change (128 .& Z.ones 7) with 0.
  by rewrite Z.land_0_r.
Qed.

Lemma throttle2_loop_wp sp : ∀ k p s fuel, inv s → chain (H := cnext) (heap (slots s)) p k →
  (length k < fuel)%nat → wp (throttle2_loop fuel p sp) (λ _ s', keeps s s') s.
Proof.
  induction k as [|x k IH]; intros p s fuel I Hch Hf; (destruct fuel; [simpl in *; lia|]).
  - simpl in Hch. subst p. by apply keeps_refl.
  - destruct Hch as [-> (c & Hc & Hch)]. unfold throttle2_loop; fold throttle2_loop. wp1.
    apply wp_update; [done|eauto|harmless|]. intros s1 K1. wp1.
    eapply (wp_keeps _ s s1); [done| |].
    { apply setThrottleDCC_wp; [by eapply keeps_inv|intros ? [= <-]; eapply keeps_valid; eauto|done]. }
    intros _ s2 K2. wp1.
    destruct (keeps_valid _ _ x K2) as [c2 Hc2]; [eauto|]. eapply wp_deref; [done|].
    assert (consistNext c2 = consistNext c) as ->.
    { pose proof (k_cons _ _ K2 x) as E. rewrite Hc2, Hc in E. simpl in E. congruence. }
    eapply (wp_keeps _ s s2); [done| |done].
    apply IH; [by eapply keeps_inv|by eapply keeps_chain|simpl in Hf; lia].
Qed.

Lemma setThrottle2_wp x sp s : inv s → is_Some (heap (slots s) !! x) →
  wp (setThrottle2 x sp) (λ _ s', keeps s s') s.
Proof.
  intros I Hx. unfold setThrottle2, fuel_of. do 2 wp1.
  destruct (g_next _ (proj1 I) x Hx) as [k Hk].
  eapply throttle2_loop_wp; [done|exact Hk|]. pose proof (chain_length (H := cnext) _ _ _ Hk). lia.
Qed.

Lemma targets_loop_wp sp : ∀ k p s fuel, inv s → chain (H := cnext) (heap (slots s)) p k →
  (length k < fuel)%nat → wp (targets_loop fuel p sp) (λ _ s', keeps s s') s.
Proof.
  induction k as [|x k IH]; intros p s fuel I Hch Hf; (destruct fuel; [simpl in *; lia|]).
  - simpl in Hch. subst p. by apply keeps_refl.
  - destruct Hch as [-> (c & Hc & Hch)]. unfold targets_loop; fold targets_loop. wp1.
    eapply wp_deref; [done|]. wp1.
    apply wp_update; [done|eauto|harmless|]. intros s1 K1.
    eapply (wp_keeps _ s s1); [done| |done].
    apply IH; [by eapply keeps_inv|by eapply keeps_chain|simpl in Hf; lia].
Qed.

Lemma estop_all_loop_wp : ∀ k p s fuel, inv s → chain (heap (slots s)) p k →
  (length k < fuel)%nat → wp (estop_all_loop fuel p) (λ _ s', keeps s s') s.
Proof.
  induction k as [|x k IH]; intros p s fuel I Hch Hf; (destruct fuel; [simpl in *; lia|]).
  - simpl in Hch. subst p. by apply keeps_refl.
  - destruct Hch as [-> (c & Hc & Hch)]. cbn [estop_all_loop]. wp1.
    eapply wp_deref; [done|]. wp1. apply wp_update; [done|eauto|harmless|]. intros s1 K1. wp1.
    apply wp_update; [by eapply keeps_inv|eapply keeps_valid; eauto|harmless|]. intros s2 K2. wp1.
    pose proof (keeps_trans _ _ _ K1 K2) as K12.
    eapply (wp_keeps _ s s2); [done|apply broadcastLoco_wp; [by eapply keeps_inv|eapply keeps_valid; eauto]|].
    intros _ s3 K3. eapply (wp_keeps _ s s3); [done| |done].
    apply IH; [by eapply keeps_inv|by eapply keeps_next_chain|simpl in Hf; lia].
Qed.

Lemma first_chain s : inv s → ∃ k, chain (heap (slots s)) (firstSlot (slots s)) k ∧
  (length k < S (size (heap (slots s))))%nat.
Proof.
  intros [[(l & r & T) _ _ _] _]. exists l. split; [apply T|].
  pose proof (chain_length _ _ _ (t_used _ _ _ T)). lia.
Qed.

Lemma keeps_size s s' : keeps s s' → size (heap (slots s')) = size (heap (slots s)).
Proof.
  intros K. rewrite <-!size_dom. f_equal. apply set_eq. intros x. rewrite !elem_of_dom.
  pose proof (k_next _ _ K x) as E.
  destruct (heap (slots s') !! x), (heap (slots s) !! x); try done; split; eauto.
Qed.

Lemma estopAll_wp s : inv s → wp estopAll (λ _ s', keeps s s') s.
Proof.
  intros I. unfold estopAll. wp1.
  eapply wp_mono; [by apply setThrottleDCC_wp|]. intros ? s1 K1. cbn beta in K1. wp1.
  apply wp_emit; [by eapply keeps_inv|done|]. intros s2 K2.
  pose proof (keeps_trans _ _ _ K1 K2) as K12. unfold fuel_of. do 4 wp1.
  destruct (first_chain s2 (keeps_inv _ _ K12)) as (k & Hk & Hf).
  eapply (wp_keeps _ s s2); [done| |done]. eapply estop_all_loop_wp; [by eapply keeps_inv|exact Hk|exact Hf].
Qed.

(** ** Finding and creating slots *)

Lemma slot_of_wp cab create s (Q : option ptr → DCC.St → Prop) : inv s →
  (∀ p s', steps s s' → (create = false → s' = s) →
     match p with Some x => is_Some (heap (slots s') !! x) | None => True end → Q p s') →
  wp (slot_of cab create) Q s.
Proof.
  intros I HQ. unfold wp, slot_of.
  destruct (good_getSlot (u16 cab) create (slots s) Hmax (u16_range cab) (proj1 I))
    as (p & t & -> & G & Hsame & Hp). simpl. apply HQ.
  - split; [|done|simpl; exists []; by rewrite app_nil_r]. split; [done|]. simpl. intros x Hx.
    pose proof (proj2 I x Hx) as Hv.
    destruct p as [y|]; [destruct Hp as (c & _ & _ & _ & Hdom); by apply Hdom|by subst t].
  - intros Hc. rewrite (Hsame Hc). by destruct s.
  - destruct p as [y|]; [|done]. simpl. destruct Hp as (c & -> & _). eauto.
Qed.

Lemma setThrottle_wp now cab sp dir s : inv s → wp (setThrottle now cab sp dir) (λ _ s', steps s s') s.
Proof.
  intros I. unfold setThrottle. destruct ((sp =? 1) && (cab =? 0)).
  { wp1. eapply wp_mono; [by apply estopAll_wp|]. intros ? s' K. cbn beta in K. apply K. }
  wp1. apply slot_of_wp; [done|]. intros [x|] s1 S1 _ Hx; [|exact S1]. destruct Hx as [c Hc].
  pose proof (st_inv _ _ S1) as I1.
  wp1. eapply wp_deref; [done|]. destruct (isConsistFollower c); [exact S1|].
  destruct (targetSpeed c =? _); [exact S1|]. wp1.
  set (code := u8 _). apply wp_update; [done|eauto|harmless|]. intros s2 K2.
  unfold fuel_of. do 3 wp1.
  destruct (acyclic_nx (H := cnext) (heap (slots s2)) (consistNext c)) as [k Hk].
  { apply (proj1 (keeps_inv _ _ K2)). }
  { intros y Hy. eapply keeps_valid; [exact K2|].
    exact (acyclic_valid (H := cnext) _ x c y (g_next _ (proj1 I1)) Hc Hy). }
  eapply (wp_keeps _ s1 s2); [done| |].
  { eapply targets_loop_wp; [by eapply keeps_inv|exact Hk|].
    pose proof (chain_length (H := cnext) _ _ _ Hk). lia. }
  intros _ s3 K3. destruct (keeps_valid _ _ x K3) as [c3 Hc3]; [eauto|]. wp1.
  eapply wp_deref; [done|]. do 3 wp1.
  eapply (wp_keeps _ s1 s3); [done| |].
  { destruct (tru _ && _).
    - apply wp_update; [by eapply keeps_inv|eauto|harmless|done].
    - wp1. eapply wp_mono; [apply setThrottle2_wp; [by eapply keeps_inv|eauto]|].
      intros ? s4 K4. cbn beta in K4. do 2 wp1. apply wp_when.
      + intros Hl. apply wp_emit; [by eapply keeps_inv|by destruct (estopIsLocked s4)|].
        intros s5 K5. by eapply keeps_trans.
      + intros _. done. }
  intros _ s4 K4. wp1.
  eapply (wp_keeps _ s1 s4); [done| |].
  { apply broadcastLoco_wp; [by eapply keeps_inv|eapply keeps_valid; eauto]. }
  intros _ s5 K5. wp1. eapply steps_trans; [exact S1|apply K5].
Qed.

Lemma wp_packet o s : inv s → op_ok o → (∀ b n r l, o ≠ OpSpeed b n r l) →
  wp (emit (Queue o)) (λ _ s', keeps s s') s.
Proof. intros I Ho Hn. apply wp_emit; [done| |done]. split; [done|]. intros _. destruct o; try done. by eapply Hn. Qed.

Lemma setFunctionInternal_wp cab g b1 b2 s : inv s →
  wp (setFunctionInternal cab g b1 b2) (λ _ s', keeps s s') s.
Proof.
  intros I. apply wp_packet; [done| |done]. split; [|apply u16_range]. apply packet_len.
  rewrite !length_app. pose proof (length_address cab). destruct (tru b1); simpl; lia.
Qed.

Lemma setFn_wp cab fn on s : inv s → wp (setFn cab fn on) (λ _ s', steps s s') s.
Proof.
  intros I. unfold setFn. destruct (cab <=? 0); [by apply steps_refl|].
  destruct (fn <? 0); [by apply steps_refl|]. wp1.
  apply (wp_mono _ (λ _ s', steps s s')).
  { apply wp_when; [|intros _; by apply steps_refl]. intros _.
    eapply wp_mono; [apply wp_packet; [done| |done]|].
    - split; [|apply u16_range]. apply packet_len. rewrite length_app. pose proof (length_address cab).
      unfold binary_state. destruct (fn <=? 127); simpl; lia.
    - intros ? s' K. apply K. }
  intros _ s1 S1. destruct (fn >? 31); [exact S1|]. wp1.
  apply slot_of_wp; [apply S1|]. intros p s2 S2 _ Hx.
  pose proof (steps_trans _ _ _ S1 S2) as S12. destruct p as [x|]; [|exact S12]. destruct Hx as [c Hc].
  wp1. eapply wp_deref; [done|]. wp1.
  apply (wp_mono _ (λ _ s', keeps s2 s')).
  { apply wp_when; [|intros _; apply keeps_refl; apply S2]. intros _. wp1.
    apply wp_update; [apply S2|eauto|harmless|]. intros s3 K3. wp1.
    eapply (wp_keeps _ s2 s3); [done| |].
    - apply wp_when; [|intros _; apply keeps_refl; by eapply keeps_inv]. intros _.
      apply wp_update; [by eapply keeps_inv|eapply keeps_valid; eauto|harmless|done].
    - intros _ s4 K4. eapply (wp_keeps _ s2 s4); [done| |done].
      apply broadcastLoco_wp; [by eapply keeps_inv|eapply keeps_valid; eauto]. }
  intros _ s3 K3. wp1. eapply steps_trans; [exact S12|apply K3].
Qed.

Lemma changeFn_wp cab fn s : inv s → 0 <= fn → wp (changeFn cab fn) (λ _ s', steps s s') s.
Proof.
  intros I Hfn. unfold changeFn, getFn. wp1.
  apply (wp_mono _ (λ _ s', s' = s)).
  { destruct (_ || _); [done|]. replace (fn <? 0) with false by lia. wp1. apply slot_of_wp; [done|].
    intros [x|] s1 _ Hs Hx; [|by rewrite Hs]. rewrite (Hs eq_refl) in *. destruct Hx as [c Hc].
    wp1. by eapply wp_deref. }
  intros v s1 ->. destruct (v <? 0); [by apply steps_refl|]. wp1.
  eapply wp_mono; [by apply setFn_wp|]. intros ? s1 S1. exact S1.
Qed.

Lemma setDCFreq_wp cab fr s : inv s → wp (setDCFreq cab fr) (λ _ s', steps s s') s.
Proof.
  intros I. unfold setDCFreq. destruct (_ || _); [by apply steps_refl|]. wp1.
  apply slot_of_wp; [done|]. intros [x|] s1 S1 _ Hx; [|exact S1]. destruct Hx as [c Hc].
  wp1. eapply wp_deref; [done|]. destruct (_ =? _); [exact S1|]. wp1.
  apply wp_update; [apply S1|eauto|harmless|]. intros s2 K2.
  eapply (wp_keeps _ s1 s2); [done|apply broadcastLoco_wp; [by eapply keeps_inv|eapply keeps_valid; eauto]|].
  intros _ s3 K3. eapply steps_trans; [exact S1|apply K3].
Qed.

Lemma setAccessory_wp a p g o s : inv s → wp (setAccessory a p g o) (λ _ s', steps s s') s.
Proof.
  intros I. unfold setAccessory. destruct (negb (a =? _)); [by apply steps_refl|].
  destruct (negb (p =? _)); [by apply steps_refl|]. wp1.
  assert (∀ l, length l = 2%nat → packet_ok l 2) as H2.
  { intros l Hl. unfold packet_ok. change DCCQueue.DCCQueue.MAX_PACKET_SIZE with 5. lia. }
  apply (wp_mono _ (λ _ s', keeps s s')).
  { destruct (o =? 0); [|destruct (o =? 1)]; (apply wp_packet; [done| |done]); try (split; [by apply H2|done]);
    by apply H2. }
  intros _ s1 K1. apply wp_when; [|intros _; apply K1]. intros _.
  apply wp_emit; [by eapply keeps_inv|done|]. intros s2 K2. eapply steps_trans; [apply K1|apply K2].
Qed.

Lemma setExtendedAccessory_wp a v r s : inv s → wp (setExtendedAccessory a v r) (λ _ s', steps s s') s.
Proof.
  intros I. unfold setExtendedAccessory. destruct (_ || _); [by apply steps_refl|].
  destruct (negb _); [by apply steps_refl|]. wp1.
  eapply wp_mono; [apply wp_packet; [done| |done]|intros ? s' K; wp1; apply K].
  split; [|done]. apply (packet_len (extended_bytes (a + 3) v)). simpl. lia.
Qed.

Lemma cv_main_ok cab l : length l = 3%nat →
  packet_ok (address cab ++ l) (Z.of_nat (length (address cab ++ l))) ∧ is_u16 (u16 cab).
Proof.
  intros Hl. split; [|apply u16_range]. apply packet_len. rewrite length_app. pose proof (length_address cab). lia.
Qed.

Lemma setTime_wp m sp c s : inv s → wp (setTime m sp c) (λ _ s', steps s s') s.
Proof.
  intros I. unfold setTime. destruct (_ || _); [by apply steps_refl|]. wp1.
  eapply wp_mono; [apply wp_packet; [done| |done]|intros ? s' K; wp1; apply K].
  split; [|done]. apply (packet_len (time_bytes m sp c)). simpl. lia.
Qed.

Lemma setMomentum_wp l a d s : inv s → wp (setMomentum l a d) (λ _ s', steps s s') s.
Proof.
  intros I. unfold setMomentum. destruct (l <? 0); [by apply steps_refl|]. destruct (l =? 0).
  { destruct (_ || _); [by apply steps_refl|]. do 2 wp1. wp1. split; [exact I|done|].
    exists []. by rewrite app_nil_r. }
  destruct (_ || _); [by apply steps_refl|]. destruct (_ || _); [by apply steps_refl|]. wp1.
  apply slot_of_wp; [done|]. intros [x|] s1 S1 _ Hx; [|exact S1]. wp1.
  apply wp_update; [apply S1|done|harmless|]. intros s2 K2. wp1.
  apply wp_update; [by eapply keeps_inv|by eapply keeps_valid|harmless|]. intros s3 K3. wp1.
  eapply steps_trans; [exact S1|]. eapply steps_trans; [apply K2|apply K3].
Qed.

Lemma saveSpeed_wp cab s : inv s → wp (DCC.DCC.saveSpeed cab) (λ _ s', steps s s') s.
Proof.
  intros I. unfold DCC.DCC.saveSpeed. wp1. apply slot_of_wp; [done|].
  intros [x|] s1 S1 _ Hx; [|exact S1].
  apply wp_update; [apply S1|done|harmless|]. intros s2 K2. eapply steps_trans; [exact S1|apply K2].
Qed.

Lemma restoreSpeed_wp now cab s : inv s → wp (restoreSpeed now cab) (λ _ s', steps s s') s.
Proof.
  intros I. unfold restoreSpeed. wp1. apply slot_of_wp; [done|].
  intros [x|] s1 S1 _ Hx; [|exact S1]. destruct Hx as [c Hc]. wp1. eapply wp_deref; [done|]. wp1.
  eapply (wp_steps _ s s1); [done|by apply setThrottle_wp, S1|]. intros b s2 S2. exact S2.
Qed.

Lemma estopLock_wp b s : inv s → wp (estopLock b)
  (λ _ s', inv s' ∧ estopIsLocked s' = b ∧ ∃ new, out s' = out s ++ new ∧ Forall (ev_ok b) new) s.
Proof.
  intros I. unfold estopLock. do 2 wp1. case_bool_decide.
  { split; [exact I|]. split; [done|]. exists []. by rewrite app_nil_r. }
  do 2 wp1. set (s1 := with_lock b s). assert (inv s1) as I1 by done. wp1.
  apply (wp_mono _ (λ _ s', keeps s1 s')).
  { apply wp_when; [|intros _; by apply keeps_refl]. intros _. wp1.
    eapply wp_mono; [by apply setThrottleDCC_wp|]. intros ? s2 K2. cbn beta in K2.
    apply wp_emit; [by eapply keeps_inv|done|]. intros s3 K3. by eapply keeps_trans. }
  intros _ s2 K2. apply wp_emit; [by eapply keeps_inv|done|]. intros s3 K3.
  pose proof (keeps_trans _ _ _ K2 K3) as [[I3 Hlock Hout] _ _ _]. split; [done|]. split; [exact Hlock|exact Hout].
Qed.

(** ** Reminders *)

Lemma remind_speed_wp now x c s : inv s → heap (slots s) !! x = Some c →
  wp (remind_speed now x c) (λ _ s', keeps s s') s.
Proof.
  intros I Hc. unfold remind_speed. wp1.
  apply (wp_mono _ (λ _ s', keeps s s')).
  { destruct (targetSpeed c =? speedCode c); [by apply keeps_refl|]. do 2 wp1.
    destruct (_ >? 0); [|by apply keeps_refl]. wp1. apply wp_update; [done|eauto|harmless|].
    intros s1 K1. do 2 wp1. wp1. eapply (wp_keeps _ s s1); [done| |].
    - apply wp_when; [|intros _; apply keeps_refl; by eapply keeps_inv]. intros Hl.
      apply wp_emit; [by eapply keeps_inv|by destruct (estopIsLocked s1)|done].
    - intros _ s2 K2. wp1. apply wp_update; [by eapply keeps_inv|eapply keeps_valid; eauto|harmless|].
      intros s3 K3. wp1. by eapply keeps_trans. }
  intros sc s1 K1. eapply (wp_keeps _ s s1); [done| |done].
  apply setThrottle2_wp; [by eapply keeps_inv|eapply keeps_valid; eauto].
Qed.

Lemma issueReminder_wp now x s : inv s → is_Some (heap (slots s) !! x) →
  wp (issueReminder now x) (λ _ s', keeps s s') s.
Proof.
  intros I [c Hc]. unfold issueReminder. wp1. eapply wp_deref; [done|]. do 2 wp1.
  destruct (_ || _).
  - destruct (isConsistFollower c); [by apply keeps_refl|]. wp1.
    eapply wp_mono; [by apply remind_speed_wp|]. intros ? s1 K1. exact K1.
  - destruct (remind_group c _) as [[[[f g] b1] b2]|]; [|by apply keeps_refl].
    destruct (tru _); [|by apply keeps_refl]. wp1.
    eapply wp_mono; [by apply setFunctionInternal_wp|]. intros ? s1 K1. exact K1.
Qed.

Lemma with_next_steps s p : inv s → (∀ x, p = Some x → is_Some (heap (slots s) !! x)) → steps s (with_next p s).
Proof. intros [G _] Hp. split; [split; done|done|]. exists []. by rewrite app_nil_r. Qed.

Lemma reminders_loop_wp now : ∀ k p s fuel, inv s → chain (heap (slots s)) p k →
  (length k < fuel)%nat → wp (reminders_loop fuel now p) (λ _ s', steps s s') s.
Proof.
  induction k as [|x k IH]; intros p s fuel I Hch Hf; (destruct fuel; [simpl in *; lia|]).
  - simpl in Hch. subst p. by apply with_next_steps.
  - destruct Hch as [-> (c & Hc & Hch)]. unfold reminders_loop; fold reminders_loop. wp1.
    eapply wp_mono; [by apply issueReminder_wp|]. intros d s1 K1. cbn beta in K1. wp1.
    destruct (keeps_valid _ _ x K1) as [c1 Hc1]; [eauto|]. eapply wp_deref; [done|].
    assert (next c1 = next c) as Hn.
    { pose proof (k_next _ _ K1 x) as E. rewrite Hc1, Hc in E. simpl in E. congruence. }
    pose proof (keeps_next_chain _ _ _ _ K1 Hch) as Hch1. change (nx c) with (next c) in Hch1. rewrite <-Hn in Hch1. destruct d.
    + eapply steps_trans; [apply K1|]. apply with_next_steps; [by eapply keeps_inv|].
      intros y Hy. rewrite Hy in Hch1. destruct k as [|z k]; [done|].
      destruct Hch1 as [[= <-] (e & He & _)]. eauto.
    + eapply (wp_steps _ s s1); [apply K1| |done]. apply IH; [by eapply keeps_inv|done|simpl in Hf; lia].
Qed.

Lemma issueReminders_wp now s : inv s → wp (issueReminders now) (λ _ s', steps s s') s.
Proof.
  intros I. unfold issueReminders. do 2 wp1. set (restart := _ || _). wp1.
  apply (wp_mono _ (λ _ s', steps s s')).
  { apply wp_when; [|intros _; by apply steps_refl]. intros _. do 2 wp1. wp1.
    destruct I as [[(l & r & T) Gn Gl Go] Hn]. split; [|done|exists []; by rewrite app_nil_r].
    split; [split; try done; exists l, r; by destruct T|]. simpl. intros x Hx.
    pose proof (t_used _ _ _ T) as Hch. rewrite Hx in Hch. destruct l as [|z l]; [done|].
    destruct Hch as [[= <-] (c & Hc & _)]. eauto. }
  intros _ s1 S1. do 2 wp1.
  destruct (restart && _); [exact S1|]. wp1.
  apply (wp_mono _ (λ _ s', steps s s' ∧ nextLocoReminder s' = nextLocoReminder s1)).
  { apply wp_when; [|done]. intros _. wp1. split; [|done]. eapply steps_trans; [exact S1|].
    pose proof (st_inv _ _ S1) as [G Hn]. split; [split; done|done|]. exists []. by rewrite app_nil_r. }
  intros _ s2 [S2 Hnext]. rewrite <-Hnext. unfold fuel_of. do 2 wp1.
  pose proof (st_inv _ _ S2) as I2.
  assert (∃ k, chain (heap (slots s2)) (nextLocoReminder s2) k) as [k Hk].
  { destruct (nextLocoReminder s2) as [x|] eqn:E; [|by exists []].
    apply good_next_chain; [apply I2|]. by apply I2. }
  eapply (wp_steps _ s s2); [done| |done]. eapply reminders_loop_wp; [done|exact Hk|].
  pose proof (chain_length _ _ _ Hk). lia.
Qed.

(** ** Forgetting *)

Lemma steps_slots s t : inv s → good t →
  (∀ x, nextLocoReminder s = Some x → is_Some (heap t !! x)) → steps s (with_slots t s).
Proof. intros [_ _] G Hn. split; [split; done|done|]. exists []. by rewrite app_nil_r. Qed.

Lemma forgetLoco_wp cab s : inv s → wp (forgetLoco cab) (λ _ s', steps s s') s.
Proof.
  intros I. unfold forgetLoco. wp1.
  unfold wp at 1, slot_of.
  destruct (good_getSlot (u16 cab) false (slots s) Hmax (u16_range cab) (proj1 I))
    as (p & t & Hg & _ & Hsame & Hp). pose proof (Hsame eq_refl) as ->. rewrite Hg. simpl.
  replace (with_slots (slots s) s) with s by (by destruct s).
  destruct p as [x|]; [|by apply steps_refl]. destruct Hp as (c & Hc & _).
  destruct (getSlot_in_use (u16 cab) (slots s) x Hmax (u16_range cab) (proj1 I) Hg) as (l & r & T & Hxl).
  wp1. eapply wp_mono; [apply setThrottleDCC_wp; [done|intros ? [= <-]; eauto|done]|].
  intros ? s1 K1. cbn beta in K1. wp1.
  destruct (keeps_valid _ _ x K1) as [c1 Hc1]; [eauto|]. eapply wp_deref; [done|]. do 2 wp1.
  pose proof (keeps_inv _ _ K1) as I1.
  set (s2 := if decide _ then _ else s1).
  assert (steps s1 s2 ∧ slots s2 = slots s1) as [S2 Hs2].
  { subst s2. destruct (decide _); [|split; [by apply steps_refl|done]]. split; [|done].
    apply with_next_steps; [done|]. intros y Hy.
    destruct (good_next_chain _ x (proj1 I1)) as [k Hk]; [eauto|].
    destruct k as [|z k]; [done|]. destruct Hk as [[= <-] (d & Hd & Hk)]. simplify_eq.
    simpl in Hk. rewrite Hy in Hk. destruct k as [|z k]; [done|]. destruct Hk as [[= <-] (e0 & He0 & _)]. eauto. }
  assert (∃ l r, table (slots s2) l r ∧ x ∈ l) as (l' & r' & T' & Hx').
  { rewrite Hs2. destruct (proj1 I1) as [(l1 & r1 & T1) _ _ _]. exists l1, r1. split; [done|].
    pose proof (k_first _ _ K1) as Hf.
    assert (chain (heap (slots s1)) (firstSlot (slots s1)) l) as Hl.
    { rewrite Hf. eapply keeps_next_chain; [done|]. apply T. }
    by rewrite (chain_det _ _ _ _ (t_used _ _ _ T1) Hl). }
  clear T Hxl l r. pose proof (steps_trans _ _ _ (k_steps _ _ K1) S2) as S12. wp1.
  apply (wp_mono _ (λ _ s', steps s s' ∧ ∃ l r, table (slots s') l r ∧ x ∈ l)).
  { apply wp_when; [|intros _; eauto]. intros _. unfold wp.
    destruct (good_deleteAnyConsist cab (slots s2) Hmax (u16_range _)) as (t & -> & G & Hd & Ht);
      [apply S2|]. simpl. split; [|eauto]. eapply steps_trans; [exact S12|].
    apply steps_slots; [apply S2|done|]. intros y Hy. apply Hd. by apply (st_inv _ _ S2). }
  intros _ s3 [S3 (l3 & r3 & T3 & Hx3)]. wp1. unfold wp at 1.
  pose proof (st_inv _ _ S3) as I3.
  destruct (proj2 (t_dom _ _ _ T3 x)) as [c3 Hc3]; [set_solver|].
  destruct (good_forget (slots s3) x c3 (proj1 I3) Hc3) as (t & Hf & G & Hd); [eauto|]. rewrite Hf. simpl.
  assert (steps s3 (with_slots t s3)) as S4.
  { apply steps_slots; [done|done|]. intros y Hy. apply Hd. by apply I3. }
  apply wp_emit; [apply S4|done|]. intros s5 K5.
  eapply steps_trans; [exact S3|]. eapply steps_trans; [exact S4|apply K5].
Qed.

Lemma forget_broadcast_wp : ∀ k p s fuel, inv s → chain (heap (slots s)) p k →
  (length k < fuel)%nat → wp (forget_broadcast fuel p) (λ _ s', keeps s s') s.
Proof.
  induction k as [|x k IH]; intros p s fuel I Hch Hf; (destruct fuel; [simpl in *; lia|]).
  - simpl in Hch. subst p. by apply keeps_refl.
  - destruct Hch as [-> (c & Hc & Hch)]. cbn [forget_broadcast]. wp1.
    eapply wp_deref; [done|]. wp1. apply wp_emit; [done|done|]. intros s1 K1.
    eapply (wp_keeps _ s s1); [done| |done].
    apply IH; [by eapply keeps_inv|by eapply keeps_next_chain|simpl in Hf; lia].
Qed.

Lemma forgetAllLocos_wp s : inv s → wp forgetAllLocos (λ _ s', steps s s') s.
Proof.
  intros I. unfold forgetAllLocos. wp1.
  eapply wp_mono; [by apply setThrottleDCC_wp|]. intros ? s1 K1. cbn beta in K1.
  unfold fuel_of. do 5 wp1. destruct (first_chain s1 (keeps_inv _ _ K1)) as (k & Hk & Hf).
  eapply (wp_keeps _ s s1); [done|eapply forget_broadcast_wp; [by eapply keeps_inv|exact Hk|exact Hf]|].
  intros _ s2 K2. wp1. unfold wp at 1.
  destruct (good_forgetAll (slots s2)) as (t & -> & G); [apply (keeps_inv _ _ K2)|]. simpl. wp1.
  eapply steps_trans; [apply K2|]. split; [split; done|done|]. exists []. by rewrite app_nil_r.
Qed.

End dcc.

(** * The calls of the API *)

Inductive api :=
  | SetThrottle (now cab speed : Z) (forward : bool)
  | EstopAll | EstopLock (lock : bool)
  | SetFn (cab fn : Z) (on : bool) | ChangeFn (cab fn : Z) | SetDCFreq (cab freq : Z)
  | SetAccessory (address port : Z) (gate : bool) (onoff : Z)
  | SetExtendedAccessory (address value repeats : Z)
  | WriteCVByteMain (cab cv v : Z) | ReadCVByteMain (cab cv : Z) | WriteCVBitMain (cab cv n : Z) (v : bool)
  | SetTime (minutes speed : Z) (sudden : bool)
  | SetMomentum (cab accelerating decelerating : Z)
  | SaveSpeed (cab : Z) | RestoreSpeed (now cab : Z)
  | SetSpeedSteps (n : Z)
  | Reminders (now : Z)
  | ForgetLoco (cab : Z) | ForgetAllLocos
  | AddLocoToConsist (consist loco : Z) (reversed : bool) | DeleteAnyConsist (loco : Z).

Definition run_api `{Config} (a : api) : M DCC.St unit :=
  let done {A} (m : M DCC.St A) : M DCC.St unit := let! _ := m in mreturn tt in
  match a with
  | SetThrottle now cab speed dir => done (setThrottle now cab speed dir)
  | EstopAll => estopAll
  | EstopLock b => estopLock b
  | SetFn cab fn on => done (setFn cab fn on)
  | ChangeFn cab fn => changeFn cab fn
  | SetDCFreq cab freq => setDCFreq cab freq
  | SetAccessory a p g o => setAccessory a p g o
  | SetExtendedAccessory a v r => done (setExtendedAccessory a v r)
  | WriteCVByteMain cab cv v => writeCVByteMain cab cv v
  | ReadCVByteMain cab cv => readCVByteMain cab cv
  | WriteCVBitMain cab cv n v => writeCVBitMain cab cv n v
  | SetTime m sp c => done (setTime m sp c)
  | SetMomentum l a d => done (setMomentum l a d)
  | SaveSpeed cab => DCC.DCC.saveSpeed cab
  | RestoreSpeed now cab => restoreSpeed now cab
  | SetSpeedSteps n => mmod (setGlobalSpeedsteps n)
  | Reminders now => issueReminders now
  | ForgetLoco cab => forgetLoco cab
  | ForgetAllLocos => forgetAllLocos
  | AddLocoToConsist c l r =>
    λ s, '(_, t) ← DCCConsist.DCCConsist.addLocoToConsist c l r (slots s); Some (tt, with_slots t s)
  | DeleteAnyConsist l =>
    λ s, t ← DCCConsist.DCCConsist.deleteAnyConsist l (slots s); Some (tt, with_slots t s)
  end.

(** The only condition on the arguments: EXRAIL and the throttle protocols
    never toggle a negative function number. *)
Definition api_ok (a : api) : Prop :=
  match a with ChangeFn _ fn => 0 <= fn | _ => True end.

Fixpoint run_all `{Config} (l : list api) : M DCC.St unit :=
  match l with [] => mreturn tt | a :: l => run_api a ;;; run_all l end.

End DCCSafe.
