(* ===== verification/DCCDecoder.v ===== *)
(** The DCC sniffer (src/DCCDecoder.cpp): decoding the packets another command
    station puts on the track into calls of the DCC API. *)

From S2P Require Import Prelude Chain LocoSlot DCC.

Module DCCDecoder.
Import LocoSlot DCC.DCC.

Section decoder.
Context `{Config}.

(** DCCEXParser::funcmap: sets functions [fstart] to [fstop] from the bits of
    [value]. *)
Fixpoint funcmap_loop (n : nat) (cab value i : Z) : M DCC.St bool :=
  match n with
  | O => mreturn true
  | S n =>
    let! ok := setFn cab i (tru (value .& 1)) in
    if negb ok then mreturn false else funcmap_loop n cab (value >>' 1) (i + 1)
  end.
Definition funcmap (cab value fstart fstop : Z) : M DCC.St bool :=
  funcmap_loop (Z.to_nat (fstop - fstart + 1)) cab value fstart.
Definition funcmap_ (cab value fstart fstop : Z) : M DCC.St unit :=
  let! _ := funcmap cab value fstart fstop in mreturn tt.

(** The slot is not checked: a full table is a null dereference. *)
Definition sniffer_slot (loco : Z) : M DCC.St ptr :=
  let! p := slot_of loco true in
  match p with Some x => mreturn x | None => mfail end.

Definition updateLoco (loco speedCode : Z) : M DCC.St bool :=
  if loco =? 0 then mreturn true else
  let! x := sniffer_slot loco in
  let! c := deref x in
  if speedCode =? snifferSpeedCode c then mreturn false
  else update x (setSnifferSpeedCode speedCode) ;;; mreturn true.

(** The sniffed function map with four functions (five for group 1) replaced. *)
Definition sniffed (previous func shift : Z) : Z :=
  let newfunc := if shift =? 1
    then (previous .& (0xFFFFFFFF - 1)) .| ((func .& 0x10) >>' 4) else previous in
  (newfunc .& (0xFFFFFFFF - (0xF <<' shift))) .| ((func .& 0xF) <<' shift).

Definition updateFunc (loco func shift : Z) : M DCC.St bool :=
  let! x := sniffer_slot loco in
  let! c := deref x in
  let newfunc := sniffed (snifferFunctions c) func shift in
  if newfunc =? snifferFunctions c then mreturn false
  else update x (setSnifferFunctions newfunc) ;;; mreturn true.

Definition byte_at (l : list Z) (n : nat) : M DCC.St Z := mlift (l !! n).

(** Speed and function instructions of a loco decoder. *)
Definition mobile (now addr : Z) (instr : list Z) : M DCC.St bool :=
  let! i0 := byte_at instr 0 in
  let group := i0 .& 0xE0 in
  if group =? 0x20 then
    if i0 =? 0x3F then
      let! i1 := byte_at instr 1 in
      let! changed := updateLoco addr i1 in
      (when changed do
         (let! _ := setThrottle now addr (i1 .& 0x7F) (tru (i1 .& 0x80)) in mreturn tt)) ;;;
      mreturn changed
    else mreturn false
  else if (group =? 0x40) || (group =? 0x60) then
    let! changed := updateLoco addr (i0 .& 0x3F) in
    let speed := i0 .& 0x0F in
    let speed := if speed >? 1
                 then u8 (Z.quot ((u8 (((i0 .& 0x0F) <<' 1) + bitRead i0 4) - 3) * 9) 2)
                 else speed in
    (when changed do
       (let! _ := setThrottle now addr speed (tru (i0 .& 0x20)) in mreturn tt)) ;;;
    mreturn changed
  else if group =? 0x80 then
    let! changed := updateFunc addr i0 1 in
    (when changed do funcmap_ addr (((i0 <<' 1) .& 0x1e) .| ((i0 >>' 4) .& 0x01)) 0 4) ;;;
    mreturn changed
  else if group =? 0xA0 then
    let '(low, high) := if tru (bitRead i0 4) then (5, 8) else (9, 12) in
    let! changed := updateFunc addr i0 low in
    (when changed do funcmap_ addr i0 low high) ;;;
    mreturn changed
  else if group =? 0xC0 then
    let two (f1 f2 : Z) : M DCC.St bool :=
      let! i1 := byte_at instr 1 in
      let! c1 := updateFunc addr i1 f1 in
      (when c1 do funcmap_ addr i1 f1 (f1 + 3)) ;;;
      let! c2 := updateFunc addr (i1 >>' 4) f2 in
      (when c2 do funcmap_ addr (i1 >>' 4) f2 (f2 + 3)) ;;;
      mreturn c2 in
    if i0 .& 0x1F =? 0x1E then two 13 17
    else if i0 .& 0x1F =? 0x1F then two 21 25
    else mreturn false
  else mreturn false.

Definition accessory (len addr : Z) (instr : list Z) : M DCC.St bool :=
  let! i0 := byte_at instr 0 in
  if tru (i0 .& 0x80) then
    let addr := u16 (((Z.lnot i0 .& 0x70) <<' 2) + addr) in
    let port := (i0 .& 0x06) >>' 1 in
    let activate := (i0 .& 0x08) >>' 3 in
    let coil := i0 .& 0x01 in
    if len =? 3 then setAccessory addr port (tru coil) activate ;;; mreturn true
    else mreturn false
  else mreturn false.

Definition parse (active : bool) (now : Z) (d : list Z) : M DCC.St bool :=
  if negb active then mreturn false else
  let! d0 := byte_at d 0 in
  if d0 =? 0xFF then mreturn false else
  let len := Z.of_nat (length d) in
  if (len <? 3) || (len >? 6) then mreturn false else
  if tru (fold_left Z.lxor d 0) then mreturn false else
  if bitRead d0 7 =? 0 then
    if d0 =? 0 then mreturn false else mobile now d0 (drop 1 d)
  else if bitRead d0 6 =? 1 then
    let! d1 := byte_at d 1 in
    let addr := 256 * (d0 .& 0x3F) + d1 in
    if addr =? 0 then mreturn false else mobile now addr (drop 2 d)
  else accessory len (d0 .& 0x3F) (drop 1 d).

End decoder.
End DCCDecoder.
