(* ===== verification/DCCProps.v ===== *)
(** What the DCC API guarantees: it never fails and only makes packets the
    queues accept, the emergency stop lock, functions, speeds and momentum,
    and the encodings of its packets as the sniffer decodes them. *)

From S2P Require Import Prelude Chain DCCQueue DCCQueueSpec DCCQueueProps LocoSlot ConsistProps DCC DCCSafe DCCDecoder.

Module DCCProps.
Import LocoSlot DCCQueueSpec.DCCQueueSpec LocoInv DCC.DCC DCCSafe.DCCSafe.

(** * The API never fails *)

Definition lock_after (a : api) (locked : bool) : bool :=
  match a with EstopLock b => b | _ => locked end.

Lemma run_api_wp `{Config} (Hmax : MAX_LOCOS < 65536) a s : inv s → api_ok a →
  wp (run_api a) (λ _ s', inv s' ∧ estopIsLocked s' = lock_after a (estopIsLocked s) ∧
    ∃ new, out s' = out s ++ new ∧ Forall (ev_ok (lock_after a (estopIsLocked s))) new) s.
Proof.
  intros I Ha.
  assert (∀ s', steps s s' → inv s' ∧ estopIsLocked s' = estopIsLocked s ∧
    ∃ new, out s' = out s ++ new ∧ Forall (ev_ok (estopIsLocked s)) new) as Hst
    by (intros s' [? ? ?]; done).
  assert (∀ {A} (m : M DCC.St A), wp m (λ _ s', steps s s') s →
    wp (let! _ := m in mreturn tt) (λ _ s', inv s' ∧ estopIsLocked s' = estopIsLocked s ∧
    ∃ new, out s' = out s ++ new ∧ Forall (ev_ok (estopIsLocked s)) new) s) as Hd.
  { intros A m Hm. apply wp_bind. eapply wp_mono; [exact Hm|]. intros x s' S. apply wp_ret. by apply Hst. }
  assert (∀ {A} (m : M DCC.St A), wp m (λ _ s', steps s s') s →
    wp m (λ _ s', inv s' ∧ estopIsLocked s' = estopIsLocked s ∧
    ∃ new, out s' = out s ++ new ∧ Forall (ev_ok (estopIsLocked s)) new) s) as Hm.
  { intros A m Hm. eapply wp_mono; [exact Hm|]. intros x s' S. by apply Hst. }
  assert (∀ (m : M DCC.St unit), wp m (λ _ s', keeps s s') s → wp m (λ _ s', steps s s') s) as Hk.
  { intros m Hmk. eapply wp_mono; [exact Hmk|]. intros x s' K. apply K. }
  assert (∀ cab l r, length l = 3%nat → wp (emit (Queue (OpPacket (address cab ++ l)
    (Z.of_nat (length (address cab ++ l))) r (u16 cab)))) (λ _ s', keeps s s') s) as Hcv
    by (intros; apply wp_packet; [done|done|by apply cv_main_ok|done]).
  destruct a as [| |lk| | | | | | | | | | | | | | | | |cs lc rv|lc]; cbn [run_api lock_after].
  - by apply Hd, setThrottle_wp.
  - by apply Hm, Hk, estopAll_wp.
  - eapply wp_mono; [by apply estopLock_wp|]. done.
  - by apply Hd, setFn_wp.
  - by apply Hm, changeFn_wp.
  - by apply Hm, setDCFreq_wp.
  - by apply Hm, setAccessory_wp.
  - by apply Hd, setExtendedAccessory_wp.
  - by apply Hm, Hk, Hcv.
  - apply Hm. unfold readCVByteMain. wp1. eapply wp_mono; [by apply Hcv|]. intros ? s1 K1. cbn beta in K1.
    apply wp_emit; [by eapply keeps_inv|done|]. intros s2 K2. by apply (keeps_trans _ _ _ K1 K2).
  - by apply Hm, Hk, Hcv.
  - by apply Hd, setTime_wp.
  - by apply Hd, setMomentum_wp.
  - by apply Hm, saveSpeed_wp.
  - by apply Hm, restoreSpeed_wp.
  - wp1. split; [exact I|]. split; [done|]. exists []. by rewrite app_nil_r.
  - by apply Hm, issueReminders_wp.
  - by apply Hm, forgetLoco_wp.
  - by apply Hm, forgetAllLocos_wp.
  - apply Hm. unfold wp.
    destruct (good_addLocoToConsist cs lc rv (slots s) Hmax (proj1 I)) as (b & t & -> & G & Hdom).
    simpl. apply steps_slots; [done..|]. intros x Hx. apply Hdom. by apply I.
  - apply Hm. unfold wp.
    destruct (good_deleteAnyConsist lc (slots s) Hmax (u16_range _) (proj1 I)) as (t & -> & G & Hdom & _).
    simpl. apply steps_slots; [done..|]. intros x Hx. apply Hdom. by apply I.
Qed.

Lemma inv_init : inv init.
Proof. split; [apply good_init|done]. Qed.

Lemma run_all_wp `{Config} (Hmax : MAX_LOCOS < 65536) l : ∀ s, inv s → Forall api_ok l →
  wp (run_all l) (λ _ s', inv s' ∧ ∃ new, out s' = out s ++ new ∧
    ∀ o, Queue o ∈ new → op_ok o) s.
Proof.
  induction l as [|a l IH]; intros s I Hl.
  - split; [done|]. exists []. rewrite app_nil_r. split; [done|]. by intros o ?%elem_of_nil.
  - apply Forall_cons in Hl as [Ha Hl]. cbn [run_all]. wp1.
    eapply wp_mono; [by apply run_api_wp|]. intros ? s1 (I1 & _ & n1 & H1 & F1). cbn beta in *.
    eapply wp_mono; [by apply IH|]. intros ? s2 (I2 & n2 & H2 & F2). cbn beta in *.
    split; [done|]. exists (n1 ++ n2). rewrite H2, H1, app_assoc. split; [done|].
    intros o [Ho|Ho]%elem_of_app; [|by apply F2].
    rewrite Forall_forall in F1. by destruct (F1 _ Ho).
Qed.

Lemma locked_wp `{Config} (Hmax : MAX_LOCOS < 65536) l : ∀ s, inv s → estopIsLocked s = true →
  Forall (λ a, api_ok a ∧ ∀ b, a ≠ EstopLock b) l →
  wp (run_all l) (λ _ s', estopIsLocked s' = true ∧ ∃ new, out s' = out s ++ new ∧
    Forall (ev_ok true) new) s.
Proof.
  induction l as [|a l IH]; intros s I Hlock Hl.
  - split; [done|]. exists []. by rewrite app_nil_r.
  - apply Forall_cons in Hl as [[Ha Hn] Hl]. cbn [run_all]. wp1.
    eapply wp_mono; [by apply run_api_wp|]. intros ? s1 (I1 & L1 & n1 & H1 & F1). cbn beta in *.
    assert (lock_after a (estopIsLocked s) = true) as Hla
      by (rewrite Hlock; destruct a; try done; by destruct (Hn lock)).
    rewrite Hla in *. eapply wp_mono; [by apply IH|]. intros ? s2 (L2 & n2 & H2 & F2). cbn beta in *.
    split; [done|]. exists (n1 ++ n2). rewrite H2, H1, app_assoc. split; [done|]. by apply Forall_app.
Qed.

(** The calls of the packet queues, in order. *)
Definition queue_ops (l : list ev) : list op :=
  omap (λ e, match e with Queue o => Some o | _ => None end) l.

Lemma queue_ops_ok l : (∀ o, Queue o ∈ l → op_ok o) → Forall op_ok (queue_ops l).
Proof.
  intros Hl. apply Forall_forall. intros o Ho. unfold queue_ops in Ho.
  apply list_elem_of_omap in Ho as (e & He & Heq). destruct e; simplify_eq. by apply Hl.
Qed.

(** * Locos and functions *)

(** A slot in use is the one found under its loco. *)
Lemma slot_of_found `{Config} (Hmax : MAX_LOCOS < 65536) cab create s x c l r : 0 < cab < 65536 →
  table (slots s) l r → x ∈ l → heap (slots s) !! x = Some c → loco c = cab →
  slot_of cab create s = Some (Some x, s).
Proof.
  intros Hc T Hx Hh Hl. unfold slot_of. rewrite u16_id by (unfold is_u16; lia).
  destruct (find_or_make_spec cab create (slots s) l r Hmax T Hc) as (p & t & -> & G). simpl.
  destruct G as [y d Hy Hd Hld|Hno _|y t r' _ Hno _ _ _ _ _]; [|by destruct (Hno x c)..].
  rewrite (t_locos _ _ _ T x y c d) by (done || congruence). by destruct s.
Qed.

(** Either the loco has a slot, or it is not found and may get a new one. *)
Lemma slot_of_cases `{Config} (Hmax : MAX_LOCOS < 65536) cab s : 0 < cab < 65536 → inv s →
  (∃ x c l r, table (slots s) l r ∧ x ∈ l ∧ heap (slots s) !! x = Some c ∧ loco c = cab ∧
     ∀ b, slot_of cab b s = Some (Some x, s)) ∨
  slot_of cab false s = Some (None, s) ∧
    (slot_of cab true s = Some (None, s) ∨
     ∃ x t c l r, slot_of cab true s = Some (Some x, with_slots t s) ∧ table t l r ∧ x ∈ l ∧
       heap t !! x = Some c ∧ loco c = cab ∧ functions c = 0 ∧ good t).
Proof.
  intros Hc [G _]. pose proof G as [(l & r & T) _ _ _].
  destruct (find_or_make_spec cab true (slots s) l r Hmax T Hc) as (p & t & Hg & Got).
  assert (∀ b, slot_of cab b s = '(p, t) ← getSlot cab b (slots s); Some (p, with_slots t s)) as Hso
    by (intros b; unfold slot_of; by rewrite u16_id by (unfold is_u16; lia)).
  destruct Got as [x c Hx Hh Hl|Hno _|x t r' _ Hno Hxl T' Hh _ _].
  - left. exists x, c, l, r. split; [done|]. split; [done|]. split; [done|]. split; [done|].
    intros b. by eapply slot_of_found.
  - right. split; [|left; rewrite Hso, Hg; by destruct s].
    destruct (find_or_make_spec cab false (slots s) l r Hmax T Hc) as (p & t & Hg' & Got).
    rewrite Hso, Hg'. destruct Got as [x c Hx Hh Hl| |]; [by destruct (Hno x c)|by destruct s|done].
  - right. split.
    + destruct (find_or_make_spec cab false (slots s) l r Hmax T Hc) as (p & t0 & Hg' & Got).
      rewrite Hso, Hg'. destruct Got as [y c Hx Hy Hl| |]; [by destruct (Hno y c)|by destruct s|done].
    + right. exists x, t, (prepared cab (firstSlot (slots s))), (x :: l), r'. rewrite Hso, Hg.
      split; [done|]. split; [done|]. split; [set_solver|]. split; [done|].
      split; [simpl; apply u16_id; unfold is_u16; lia|]. split; [done|].
      destruct (good_getSlot cab true (slots s) Hmax) as (p & t0 & Hg0 & G0 & _); [lia|done|].
      rewrite Hg in Hg0. by injection Hg0 as <- <-.
Qed.

Lemma funcmask g : 0 <= g < 32 → u32 (1 <<' g) = 2 ^ g.
Proof.
  intros Hg. apply Z.eqb_eq.
  by apply (range_check (λ g, u32 (1 <<' g) =? 2 ^ g) 0 32); [vm_compute|lia].
Qed.

Lemma set_function_bit_spec p f g on : 0 <= f < 32 → 0 <= g < 32 →
  tru (u32 (set_function_bit p f on) .& u32 (1 <<' g)) = if g =? f then on else tru (p .& u32 (1 <<' g)).
Proof.
  intros Hf Hg. rewrite funcmask, !testbit_mask by lia. unfold u32 at 1. change 4294967296 with (2 ^ 32).
  rewrite Z.mod_pow2_bits_low by lia. unfold set_function_bit. rewrite funcmask by lia.
  assert (Z.testbit (2 ^ f) g = (g =? f)) as H1.
  { destruct (g =? f) eqn:E; [apply Z.eqb_eq in E as ->; apply Z.pow2_bits_true; lia|apply Z.pow2_bits_false; lia]. }
  assert (Z.testbit (0xFFFFFFFF - 2 ^ f) g = negb (g =? f)) as H2.
  { apply eqb_prop. by apply (range_check2 (λ f g, Bool.eqb (Z.testbit (0xFFFFFFFF - 2 ^ f) g) (negb (g =? f))) 0 32 0 32);
      [vm_compute|lia..]. }
  destruct on; [rewrite Z.lor_spec, H1|rewrite Z.land_spec, H2]; destruct (g =? f), (Z.testbit p g); done.
Qed.

(** What getFn answers about a slot. *)
Definition fn_of (c : LocoSlot.LocoSlot) (g : Z) : Z := b2z (tru (functions c .& u32 (1 <<' g))).

Lemma getFn_found `{Config} (Hmax : MAX_LOCOS < 65536) cab g s x c l r : 0 < cab < 65536 → 0 <= g < 32 →
  table (slots s) l r → x ∈ l → heap (slots s) !! x = Some c → loco c = cab →
  getFn cab g s = Some (fn_of c g, s).
Proof.
  intros Hc Hg T Hx Hh Hl. unfold getFn. replace (cab <=? 0) with false by lia.
  replace (g >? 31) with false by lia. replace (g <? 0) with false by lia. simpl.
  unfold mthen. rewrite (slot_of_found Hmax cab false s x c l r) by done. simpl.
  unfold deref, load. rewrite Hh. simpl. unfold fn_of. by destruct (tru _).
Qed.

(** The part of setFn after the slot has been found. *)
Lemma setFn_slot `{Config} (Hmax : MAX_LOCOS < 65536) cab f on s s0 x t c l r :
  0 < cab < 65536 → 0 <= f < 32 →
  out s0 = out s ++ (if f >? 28 then [Queue (OpPacket (address cab ++ binary_state f on)
      (Z.of_nat (length (address cab ++ binary_state f on))) 4 (u16 cab))] else []) →
  slots s0 = slots s → slot_of cab true s0 = Some (Some x, with_slots t s0) →
  s0 = with_out (out s0) s → table t l r → x ∈ l → heap t !! x = Some c → loco c = cab →
  ∃ s1 c1, setFn cab f on s = Some (true, s1) ∧ table (slots s1) l r ∧
    heap (slots s1) !! x = Some c1 ∧ loco c1 = cab ∧
    ∀ g, 0 <= g < 32 → fn_of c1 g = if g =? f then b2z on else fn_of c g.
Proof.
  intros Hc Hf Ho Hs Hslot Hs0 T Hx Hh Hl. unfold setFn.
  replace (cab <=? 0) with false by lia. replace (f <? 0) with false by lia.
  assert ((when f >? 28 do emit (Queue (OpPacket (address cab ++ binary_state f on)
    (Z.of_nat (length (address cab ++ binary_state f on))) 4 (u16 cab)))) s = Some (tt, s0)) as He.
  { rewrite Hs0, Ho. destruct (f >? 28); [done|]. unfold mreturn. rewrite app_nil_r. by destruct s. }
  unfold mthen at 1. cbv zeta. rewrite He. cbn [mbind option_bind]. replace (f >? 31) with false by lia.
  unfold mthen at 1. rewrite Hslot. cbn [mbind option_bind].
  unfold mthen at 1, deref, load. simpl. rewrite Hh. cbn [mbind option_bind].
  destruct (set_function_bit (functions c) f on =? functions c) eqn:E.
  - simpl. exists (with_slots t s0), c. split; [done|]. split; [done|]. split; [done|]. split; [done|].
    intros g Hg. unfold fn_of. apply Z.eqb_eq in E.
    pose proof (set_function_bit_spec (functions c) f g on Hf Hg) as Hb. rewrite E in Hb.
    rewrite funcmask, testbit_mask in Hb |- * by lia.
    unfold u32 in Hb. change 4294967296 with (2 ^ 32) in Hb. rewrite Z.mod_pow2_bits_low in Hb by lia.
    rewrite Hb. by destruct (g =? f).
  - assert (∃ d, loco d = loco c ∧ next d = next c ∧ functions d = u32 (set_function_bit (functions c) f on) ∧
      ∃ e, (update x (setFunctions (set_function_bit (functions c) f on)) ;;;
        (when f <=? 28 do updateGroupflags x f) ;;; broadcastLoco x) (with_slots t s0) =
        Some (tt, with_out e (with_slots (store x d t) s0))) as (d & Hld & Hnd & Hfd & e & Hrun).
    { unfold mthen, update, broadcastLoco, updateGroupflags, update, deref, load, emit, mmod, mreturn.
      simpl. rewrite (modify_eq t x c) by done. simpl. destruct (f <=? 28); simpl.
      - eexists. split; [|split; [|split; [|eexists]]].
        4:{ rewrite (modify_eq _ x (setFunctions (set_function_bit (functions c) f on) c))
              by (simpl; by rewrite lookup_insert_eq).
            simpl. unfold mthen. simpl. rewrite lookup_insert_eq. simpl. unfold store. simpl.
            rewrite insert_insert_eq. reflexivity. }
        all: done.
      - unfold mthen. simpl. rewrite lookup_insert_eq. simpl.
        eexists. split; [|split; [|split; [|eexists; reflexivity]]]; done. }
    simpl. unfold mthen at 1. rewrite Hrun. cbn [mbind option_bind mreturn].
    eexists _, d. split; [done|]. simpl. split; [by eapply table_write|]. rewrite lookup_insert_eq.
    split; [done|]. split; [congruence|].
    intros g Hg. unfold fn_of. rewrite Hfd, set_function_bit_spec by lia. by destruct (g =? f).
Qed.

(** * Theorems *)


(** C8. Safety of the emergency stop lock: once it is locked, no sequence of
    other calls (throttles, reminders, momentum, consists, restored speeds)
    makes a speed packet or a DC track speed other than an emergency stop, and
    the lock stays. *)
Theorem estop_lock_holds `{Config} before l : MAX_LOCOS < 65536 → Forall api_ok before →
  Forall (λ a, api_ok a ∧ ∀ b, a ≠ EstopLock b) l →
  ∃ s0 s, (run_all before ;;; run_api (EstopLock true)) init = Some (tt, s0) ∧
    run_all l s0 = Some (tt, s) ∧ estopIsLocked s = true ∧
    ∃ new, out s = out s0 ++ new ∧
      (∀ b n r loco, Queue (OpSpeed b n r loco) ∉ new) ∧
      (∀ cab speed, DCSignal cab speed ∈ new → speed = 1).
Proof.
  intros Hmax Hb Hl.
  assert (wp (run_all before ;;; run_api (EstopLock true)) (λ _ s', inv s' ∧ estopIsLocked s' = true) init) as Hw.
  { wp1. eapply wp_mono; [by apply run_all_wp, Hb; [|apply inv_init]|]. intros ? s1 [I1 _]. cbn beta in *.
    eapply wp_mono; [by apply run_api_wp|]. intros ? s2 (I2 & L2 & _). done. }
  destruct (wp_run _ _ _ Hw) as ([] & s0 & H0 & I0 & L0).
  destruct (wp_run _ _ _ (locked_wp Hmax l s0 I0 L0 Hl)) as ([] & s & Hr & Hlock & new & Ho & Hn).
  exists s0, s. split; [done|]. split; [done|]. split; [done|]. exists new. split; [done|].
  rewrite Forall_forall in Hn. split.
  - intros b n r loco Hin. by apply (Hn _ Hin).
  - intros cab speed Hin. by apply (Hn _ Hin).
Qed.

(** Round trip of functions: whatever has happened before, setting
    function [f] (0 to 31) of a loco either fails for want of a slot, or makes
    getFn answer the value set for [f] and leaves every other function of the
    loco as it was (off for a loco not known before). *)
Lemma function_round_trip `{Config} before s cab f on : MAX_LOCOS < 65536 → Forall api_ok before →
  run_all before init = Some (tt, s) → 0 < cab < 65536 → 0 <= f < 32 →
  ∃ ok s1, setFn cab f on s = Some (ok, s1) ∧
    (ok = true → ∀ g, 0 <= g < 32 → ∃ old, getFn cab g s = Some (old, s) ∧
       getFn cab g s1 = Some ((if g =? f then b2z on else Z.max 0 old), s1)).
Proof.
  intros Hmax Hb Hrun Hc Hf.
  assert (inv s) as I.
  { pose proof (run_all_wp Hmax before init inv_init Hb) as Hw. unfold wp in Hw. rewrite Hrun in Hw. apply Hw. }
  set (e := if f >? 28 then [Queue (OpPacket (address cab ++ binary_state f on)
      (Z.of_nat (length (address cab ++ binary_state f on))) 4 (u16 cab))] else []).
  set (s0 := with_out (out s ++ e) s).
  assert (inv s0) as I0 by done.
  assert (∀ c g, 0 <= fn_of c g) as Hpos by (intros c g; unfold fn_of; by destruct (tru _)).
  destruct (slot_of_cases Hmax cab s0 Hc I0) as
    [(x & c & l & r & T & Hx & Hh & Hl & Hso)|(Hnone & [Hso|(x & t & c & l & r & Hso & T & Hx & Hh & Hl & Hz & _)])].
  - assert (slot_of cab true s0 = Some (Some x, with_slots (slots s0) s0)) as Hso'
      by (rewrite Hso; by destruct s0).
    destruct (setFn_slot Hmax cab f on s s0 x (slots s0) c l r) as (s1 & c1 & Hset & T1 & Hh1 & Hl1 & Hfn);
      try done.
    exists true, s1. split; [done|]. intros _ g Hg. exists (fn_of c g). split.
    + by apply (getFn_found Hmax cab g s x c l r).
    + rewrite (getFn_found Hmax cab g s1 x c1 l r) by done. rewrite Hfn by done.
      by rewrite Z.max_r by apply Hpos.
  - exists false, s0. split; [|done]. unfold setFn.
    replace (cab <=? 0) with false by lia. replace (f <? 0) with false by lia.
    unfold mthen. assert ((when f >? 28 do emit (Queue (OpPacket (address cab ++ binary_state f on)
      (Z.of_nat (length (address cab ++ binary_state f on))) 4 (u16 cab)))) s = Some (tt, s0)) as ->.
    { subst s0 e. destruct (f >? 28); [done|]. unfold mreturn. rewrite app_nil_r. by destruct s. }
    cbn [mbind option_bind]. replace (f >? 31) with false by lia. by rewrite Hso.
  - destruct (setFn_slot Hmax cab f on s s0 x t c l r) as (s1 & c1 & Hset & T1 & Hh1 & Hl1 & Hfn);
      try done.
    exists true, s1. split; [done|]. intros _ g Hg. exists (-1). split.
    + unfold getFn. replace (cab <=? 0) with false by lia. replace (g >? 31) with false by lia.
      replace (g <? 0) with false by lia. simpl. unfold mthen.
      assert (slot_of cab false s = Some (None, s)) as ->; [|done].
      revert Hnone. unfold slot_of. change (slots s0) with (slots s).
      destruct (getSlot (u16 cab) false (slots s)) as [[p t']|]; simpl; [|done].
      intros [= -> Ht]. f_equal. f_equal.
      rewrite Ht. by destruct s.
    + rewrite (getFn_found Hmax cab g s1 x c1 l r) by done. rewrite Hfn by done.
      assert (fn_of c g = 0) as -> by (unfold fn_of; rewrite Hz; by rewrite Z.land_0_l). done.
Qed.

(** ** Witnesses *)

Section witnesses.
#[local] Instance two_locos : Config := {| MAX_LOCOS := 2; new_ok _ := true |}.

Definition a_session : list api :=
  [SetThrottle 0 3 40 true; SetFn 300 30 true; AddLocoToConsist 3 300 true; Reminders 100;
   SetAccessory 10 1 true 2; ForgetLoco 3].


Lemma estop_lock_holds_witness : ∃ s0 s,
  (run_all a_session ;;; run_api (EstopLock true)) init = Some (tt, s0) ∧
  run_all a_session s0 = Some (tt, s) ∧ estopIsLocked s = true ∧
  ∃ new, out s = out s0 ++ new ∧ (∀ b n r loco, Queue (OpSpeed b n r loco) ∉ new) ∧
    (∀ cab speed, DCSignal cab speed ∈ new → speed = 1).
Proof.
  apply (estop_lock_holds a_session a_session); [done|unfold a_session; repeat constructor|].
  unfold a_session. repeat constructor; discriminate.
Defined.

Lemma function_round_trip_witness : ∃ s, run_all a_session init = Some (tt, s) ∧
  ∃ ok s1, setFn 300 5 true s = Some (ok, s1) ∧
    (ok = true → ∀ g, 0 <= g < 32 → ∃ old, getFn 300 g s = Some (old, s) ∧
       getFn 300 g s1 = Some ((if g =? 5 then b2z true else Z.max 0 old), s1)).
Proof.
  eexists. split; [vm_compute; reflexivity|].
  apply (function_round_trip a_session _ 300 5 true);
    [done|unfold a_session; repeat constructor|vm_compute; reflexivity|done|done].
Defined.
End witnesses.

End DCCProps.
