(* ===== verification/DCCCodec.v ===== *)
(** The encodings of the DCC API: its packets decoded by the sniffer or by the
    formats of the NMRA and RCN standards, and the momentum arithmetic. *)

From S2P Require Import Prelude Chain LocoSlot DCC DCCDecoder.

Module DCCCodec.
Import LocoSlot DCC.DCC DCCDecoder.DCCDecoder.

(** Facts of all accessory addresses, ports and gates, as one test. *)
Definition acc_test (a p : Z) (g : bool) (on : bool) : bool :=
  let b := if on then accessory_bytes a p g else DCCQueue.DCCQueue.gate_off (accessory_bytes a p g) in
  match b with
  | [b0; b1] =>
    negb (b0 =? 0xFF) && (bitRead b0 7 =? 1) && (bitRead b0 6 =? 0) && tru (b1 .& 0x80) &&
    (u16 (((Z.lnot b1 .& 0x70) <<' 2) + (b0 .& 0x3F)) =? a) && ((b1 .& 0x06) >>' 1 =? p) &&
    ((b1 .& 0x08) >>' 3 =? b2z on) && Bool.eqb (tru (b1 .& 0x01)) g
  | _ => false
  end.

Lemma acc_test_all a p g on : 0 <= a < 512 → 0 <= p < 4 → acc_test a p g on = true.
Proof.
  intros Ha Hp.
  assert (acc_test a p true true && acc_test a p true false && acc_test a p false true &&
    acc_test a p false false = true) as H.
  { apply (range_check2 (λ a p, acc_test a p true true && acc_test a p true false && acc_test a p false true &&
      acc_test a p false false) 0 512 0 4); [vm_compute; reflexivity|done|done]. }
  destruct g, on; lia.
Qed.

(** The checksum the waveform appends. *)
Definition with_checksum (b : list Z) : list Z := b ++ [xor_all b].

Lemma parse_mobile `{Config} now b0 l s : 0 <= b0 < 256 → (2 <= length l <= 5)%nat → xor_all (b0 :: l) = 0 →
  0 < b0 < 128 →
  parse true now (b0 :: l) s = mobile now b0 l s.
Proof.
  intros Hb Hl Hx Hs. unfold parse. change (fold_left Z.lxor (b0 :: l) 0) with (xor_all (b0 :: l)).
  rewrite Hx. unfold mthen, byte_at, mlift. simpl.
  replace (b0 =? 255) with false by lia.
  replace (Z.of_nat (S (length l)) <? 3) with false by lia.
  replace (Z.of_nat (S (length l)) >? 6) with false by lia. simpl.
  assert (bitRead b0 7 =? 0 = true) as ->.
  { by apply (range_check (λ b, bitRead b 7 =? 0) 0 128); [vm_compute|lia]. }
  by replace (b0 =? 0) with false by lia.
Qed.

Lemma parse_long `{Config} now b0 b1 l s : 192 <= b0 < 255 → (1 <= length l <= 4)%nat →
  xor_all (b0 :: b1 :: l) = 0 → 256 * (b0 .& 0x3F) + b1 ≠ 0 →
  parse true now (b0 :: b1 :: l) s = mobile now (256 * (b0 .& 0x3F) + b1) l s.
Proof.
  intros Hb Hl Hx Hs. unfold parse. change (fold_left Z.lxor (b0 :: b1 :: l) 0) with (xor_all (b0 :: b1 :: l)).
  rewrite Hx. unfold mthen, byte_at, mlift. simpl.
  replace (b0 =? 255) with false by lia.
  replace (Z.of_nat (S (S (length l))) <? 3) with false by lia.
  replace (Z.of_nat (S (S (length l))) >? 6) with false by lia. simpl.
  assert ((bitRead b0 7 =? 1) && (bitRead b0 6 =? 1) = true) as [H1 H2]%andb_true_iff.
  { by apply (range_check (λ b, (bitRead b 7 =? 1) && (bitRead b 6 =? 1)) 192 63); [vm_compute|lia]. }
  apply Z.eqb_eq in H1 as ->. rewrite H2. simpl.
  replace (256 * (b0 .& 0x3F) + b1 =? 0) with false by lia. done.
Qed.

(** The address bytes of a loco are decoded as that loco. *)
Lemma parse_address `{Config} now cab instr s : 0 < cab <= 10239 → (1 <= length instr <= 3)%nat →
  parse true now (with_checksum (address cab ++ instr)) s =
  mobile now cab (instr ++ [xor_all (address cab ++ instr)]) s.
Proof.
  intros Hc Hl. unfold with_checksum. pose proof (xor_all_checksum (address cab ++ instr)) as Hx.
  revert Hx. generalize (xor_all (address cab ++ instr)) as ck. intros ck Hx.
  unfold address, HIGHEST_SHORT_ADDR in *. destruct (cab >? 127) eqn:E; simpl in *.
  - assert ((192 <=? highByte cab .| 192) && (highByte cab .| 192 <? 255) &&
      (256 * ((highByte cab .| 192) .& 63) + lowByte cab =? cab) = true) as Hr.
    { by apply (range_check (λ c, (192 <=? highByte c .| 192) && (highByte c .| 192 <? 255) &&
        (256 * ((highByte c .| 192) .& 63) + lowByte c =? c)) 0 10240); [vm_compute|lia]. }
    assert (256 * ((highByte cab .| 192) .& 63) + lowByte cab = cab) as Heq by lia.
    rewrite parse_long; [by rewrite Heq|lia|rewrite length_app; simpl; lia|exact Hx|lia].
  - assert (lowByte cab = cab) as Hlow by (rewrite lowByte_mod; zlia). rewrite Hlow in *.
    rewrite parse_mobile; [done|lia|rewrite length_app; simpl; lia|exact Hx|lia].
Qed.

(** * Speeds *)

Definition norm_test (n : Z) : bool :=
  (normalize (dccalize n) =? n) && (0 <=? dccalize n) && (dccalize n <? 256).
Lemma normalize_dccalize n : -128 <= n <= 127 → normalize (dccalize n) = n ∧ is_byte (dccalize n).
Proof.
  intros Hn. assert (norm_test n = true) as H
    by (apply (range_check norm_test (-128) 256); [by vm_compute|lia]).
  unfold norm_test in H. unfold is_byte. lia.
Qed.
Lemma normalize_range b : is_byte b → -128 <= normalize b <= 127.
Proof.
  intros Hb. assert ((-128 <=? normalize b) && (normalize b <=? 127) = true) as H; [|lia].
  by apply (range_check (λ b, (-128 <=? normalize b) && (normalize b <=? 127)) 0 256); [vm_compute|].
Qed.

Lemma approach_spec sc target ticks : is_byte sc → is_byte target → 0 < ticks <= 4681 →
  normalize (approach sc target ticks) =
    (if normalize sc <? normalize target then Z.min (normalize target) (normalize sc + ticks)
     else Z.max (normalize target) (normalize sc - ticks)) ∧
  is_byte (approach sc target ticks).
Proof.
  intros Hs Ht Hk. pose proof (normalize_range _ Hs). pose proof (normalize_range _ Ht).
  unfold approach. set (n := if normalize sc <? normalize target then _ else _).
  assert (n = if normalize sc <? normalize target then Z.min (normalize target) (normalize sc + ticks)
     else Z.max (normalize target) (normalize sc - ticks)) as Hn.
  { subst n. rewrite !i16_id by (unfold is_i16; lia).
    destruct (normalize sc <? normalize target); [destruct (_ >? _) eqn:?|destruct (_ <? _) eqn:?]; lia. }
  rewrite <-Hn. apply normalize_dccalize.
  rewrite Hn. destruct (normalize sc <? normalize target); lia.
Qed.

(** The reminders of one loco: a change of speed at each of the ticks. *)
Definition reminded (target : Z) (ticks : list Z) (sc : Z) : Z :=
  fold_left (λ sc t, if target =? sc then sc else approach sc target t) ticks sc.

(** The speed step (1 to 28) of a five-bit code, as the standard reads it. *)
Definition step28 (code : Z) : Z := 2 * (code .& 0x0F) + ((code >>' 4) .& 1) - 3.

(** * Theorems *)

(** C9. Round trip of accessory packets: the on and off packets made for an
    accessory address (0 to 511), port and gate, with their checksum, are
    decoded by the sniffer as the same call for that address, port and gate. *)
Theorem accessory_round_trip `{Config} now a p gate (on : bool) : 0 <= a < 512 → 0 <= p < 4 →
  ∀ s, ∃ b, (∃ s1, setAccessory a p gate (b2z on) s = Some (tt, s1) ∧
         ∃ rest, out s1 = out s ++ Queue (DCCQueueSpec.DCCQueueSpec.OpPacket b 2 3 0) :: rest) ∧
    parse true now (with_checksum b) s = (setAccessory a p gate (b2z on) ;;; mreturn true) s.
Proof.
  intros Ha Hp s.
  set (b := if on then accessory_bytes a p gate else DCCQueue.DCCQueue.gate_off (accessory_bytes a p gate)).
  assert (a .& 511 = a ∧ p .& 3 = p) as [Ha' Hp'].
  { change 511 with (Z.ones 9). change 3 with (Z.ones 2). rewrite !Z.land_ones by lia.
    split; apply Z.mod_small; lia. }
  exists b. split.
  - unfold setAccessory. rewrite Ha', Hp', !Z.eqb_refl. subst b.
    destruct on; (eexists; split; [reflexivity|]); simpl; [|by exists []].
    eexists. rewrite <-app_assoc. reflexivity.
  - pose proof (acc_test_all a p gate on Ha Hp) as Ht. unfold acc_test in Ht. fold b in Ht.
    unfold with_checksum. pose proof (xor_all_checksum b) as Hx. revert Hx.
    destruct b as [|b0 [|b1 [|]]]; try done. generalize (xor_all [b0; b1]) as ck. intros ck Hx.
    unfold parse. change (fold_left Z.lxor ([b0; b1] ++ [ck]) 0) with (xor_all ([b0; b1] ++ [ck])). rewrite Hx.
    unfold mthen at 1, byte_at, mlift. simpl.
    replace (b0 =? 255) with false by lia. simpl.
    replace (bitRead b0 7) with 1 by lia. replace (bitRead b0 6) with 0 by lia. simpl.
    unfold accessory, byte_at, mlift, mthen at 1. simpl.
    replace (tru (b1 .& 128)) with true by lia.
    replace (u16 (((Z.lnot b1 .& 112) <<' 2) + (b0 .& 63))) with a by lia.
    replace ((b1 .& 6) >>' 1) with p by lia. replace ((b1 .& 8) >>' 3) with (b2z on) by lia.
    replace (tru (b1 .& 1)) with gate by (destruct gate, (tru (b1 .& 1)); simpl in Ht; lia). done.
Qed.

(** Round trip of speed packets: in 128-step mode the packet of a speed
    for any loco address 1 to 10239 is decoded by the sniffer as that loco and
    speed: if the sniffer has not already seen it, the throttle is set to the
    speed and direction of the packet. *)
Lemma speed_round_trip `{Config} now cab code : 0 < cab <= 10239 → is_byte code →
  ∀ s, globalSpeedsteps s > 28 →
  parse true now (with_checksum (address cab ++ speed_bytes (globalSpeedsteps s) code)) s =
  (let! changed := updateLoco cab code in
   (when changed do
      (let! _ := setThrottle now cab (code .& 0x7F) (tru (code .& 0x80)) in mreturn tt)) ;;;
   mreturn changed) s.
Proof.
  intros Hc Hb s Hs. unfold speed_bytes. replace (globalSpeedsteps s <=? 28) with false by lia.
  rewrite parse_address by (simpl; lia). done.
Qed.

(** Bounds of the 28-step speeds: a 128-step speed of 2 to 127 becomes a
    5-bit code whose step, read as the standard does (twice the low four bits
    plus the fifth, less three), is between 1 and 28, grows with the speed,
    and is 1 and 28 at the ends; stop and emergency stop stay themselves. *)
Lemma code28_steps speed : 2 <= speed <= 127 →
  0 <= code28 speed < 32 ∧ 1 <= step28 (code28 speed) <= 28 ∧
  (speed < 127 → step28 (code28 speed) <= step28 (code28 (speed + 1))) ∧
  step28 (code28 2) = 1 ∧ step28 (code28 127) = 28 ∧ code28 0 = 0 ∧ code28 1 = 1.
Proof.
  intros Hs.
  assert ((0 <=? code28 speed) && (code28 speed <? 32) && (1 <=? step28 (code28 speed)) &&
    (step28 (code28 speed) <=? 28) &&
    ((127 <=? speed) || (step28 (code28 speed) <=? step28 (code28 (speed + 1)))) = true) as H.
  { by apply (range_check (λ speed, (0 <=? code28 speed) && (code28 speed <? 32) && (1 <=? step28 (code28 speed)) &&
      (step28 (code28 speed) <=? 28) &&
      ((127 <=? speed) || (step28 (code28 speed) <=? step28 (code28 (speed + 1))))) 2 126); [vm_compute|lia]. }
  split; [lia|]. split; [lia|]. split; [lia|]. by vm_compute.
Qed.

(** Momentum: each reminder moves a loco from its speed towards the
    target by the ticks that have passed, stopping at the target and never
    beyond it, through zero when the direction changes. *)
Lemma momentum_moves_to_target sc target ticks : is_byte sc → is_byte target → 0 < ticks <= 4681 →
  normalize (approach sc target ticks) =
    (if normalize sc <? normalize target then Z.min (normalize target) (normalize sc + ticks)
     else Z.max (normalize target) (normalize sc - ticks)).
Proof. intros. by apply approach_spec. Qed.


(** Encodings of the other packets, read back as the standards define
    them: the address and aspect of an extended accessory (-3 to 2044), the
    CV number (1 to 1024) of a write or read on the main, and the minutes,
    clock speed and update flag of a time packet. *)
Lemma packet_fields :
  (∀ a v, -3 <= a <= 2044 → 0 <= v < 32 →
     match extended_bytes (a + 3) v with
     | [b0; b1; b2] => b0 .& 0xC0 = 0x80 ∧ b1 .& 0x89 = 0x01 ∧ b2 = v ∧
         ((b0 .& 0x3F) <<' 2) + ((b1 >>' 1) .& 3) + ((Z.lnot (b1 >>' 4) .& 7) <<' 8) = a + 3
     | _ => False
     end) ∧
  (∀ cv op, 1 <= cv <= 1024 → op = WRITE_BYTE_MAIN ∨ op = READ_BYTE_MAIN ∨ op = WRITE_BIT_MAIN →
     ((cv1 op cv .& 3) <<' 8) + cv2 cv + 1 = cv ∧ cv1 op cv .& 0xFC = op) ∧
  (∀ m sp u, 0 <= m < 1440 → 0 <= sp < 64 →
     match time_bytes m sp u with
     | [b0; b1; b2; b3; b4] => b0 = 0 ∧ b1 = 0xC1 ∧ (b3 .& 0x1F) * 60 + b2 = m ∧ b2 < 60 ∧
         b3 .& 0xE0 = 0xE0 ∧ b4 .& 0x3F = sp ∧ tru (b4 .& 0x80) = u
     | _ => False
     end).
Proof.
  split; [|split].
  - intros a v Ha Hv. simpl. split; [|split; [|split]].
    + apply Z.eqb_eq. by apply (range_check (λ a, u8 (0x80 .| (((a + 3) >>' 2) .& 63)) .& 192 =? 128) (-3) 2048);
        [vm_compute|lia].
    + apply Z.eqb_eq. by apply (range_check (λ a, u8 (1 .| ((Z.lnot ((a + 3) >>' 8) .& 7) <<' 4) .|
        (((a + 3) .& 3) <<' 1)) .& 137 =? 1) (-3) 2048); [vm_compute|lia].
    + zlia.
    + apply Z.eqb_eq. by apply (range_check (λ a, ((u8 (0x80 .| (((a + 3) >>' 2) .& 63)) .& 63) <<' 2) +
        ((u8 (1 .| ((Z.lnot ((a + 3) >>' 8) .& 7) <<' 4) .| (((a + 3) .& 3) <<' 1)) >>' 1) .& 3) +
        ((Z.lnot (u8 (1 .| ((Z.lnot ((a + 3) >>' 8) .& 7) <<' 4) .| (((a + 3) .& 3) <<' 1)) >>' 4) .& 7) <<' 8)
        =? a + 3) (-3) 2048); [vm_compute|lia].
  - intros cv op Hcv Hop.
    assert (∀ op, ((((cv1 op cv .& 3) <<' 8) + cv2 cv + 1 =? cv) && (cv1 op cv .& 0xFC =? op)) = true →
      ((cv1 op cv .& 3) <<' 8) + cv2 cv + 1 = cv ∧ cv1 op cv .& 0xFC = op) as Hb by (intros; lia).
    apply Hb. destruct Hop as [->|[->| ->]].
    + by apply (range_check (λ cv, (((cv1 WRITE_BYTE_MAIN cv .& 3) <<' 8) + cv2 cv + 1 =? cv) &&
        (cv1 WRITE_BYTE_MAIN cv .& 0xFC =? WRITE_BYTE_MAIN)) 1 1024); [vm_compute|lia].
    + by apply (range_check (λ cv, (((cv1 READ_BYTE_MAIN cv .& 3) <<' 8) + cv2 cv + 1 =? cv) &&
        (cv1 READ_BYTE_MAIN cv .& 0xFC =? READ_BYTE_MAIN)) 1 1024); [vm_compute|lia].
    + by apply (range_check (λ cv, (((cv1 WRITE_BIT_MAIN cv .& 3) <<' 8) + cv2 cv + 1 =? cv) &&
        (cv1 WRITE_BIT_MAIN cv .& 0xFC =? WRITE_BIT_MAIN)) 1 1024); [vm_compute|lia].
  - intros m sp u Hm Hsp. simpl.
    assert ((((0xE0 .| Z.quot m 60) .& 0x1F) * 60 + m mod 60 =? m) && (m mod 60 <? 60) &&
      ((0xE0 .| Z.quot m 60) .& 0xE0 =? 0xE0) = true) as H1.
    { by apply (range_check (λ m, (((0xE0 .| Z.quot m 60) .& 0x1F) * 60 + m mod 60 =? m) && (m mod 60 <? 60) &&
        ((0xE0 .| Z.quot m 60) .& 0xE0 =? 0xE0)) 0 1440); [vm_compute|lia]. }
    assert (((0x80 .| sp) .& 0x3F =? sp) && tru ((0x80 .| sp) .& 0x80) && ((0 .| sp) .& 0x3F =? sp) &&
      negb (tru ((0 .| sp) .& 0x80)) = true) as H2.
    { by apply (range_check (λ sp, ((0x80 .| sp) .& 0x3F =? sp) && tru ((0x80 .| sp) .& 0x80) &&
        ((0 .| sp) .& 0x3F =? sp) && negb (tru ((0 .| sp) .& 0x80))) 0 64); [vm_compute|lia]. }
    split; [done|]. split; [done|]. destruct u; repeat split; lia.
Qed.

(** ** Witnesses *)

Section witnesses.
#[local] Instance two_locos : Config := {| MAX_LOCOS := 2; new_ok _ := true |}.

Lemma accessory_round_trip_witness : 0 <= 300 < 512 ∧ ∃ b,
  (∃ s1, setAccessory 300 2 true (b2z true) init = Some (tt, s1) ∧
     ∃ rest, out s1 = out init ++ Queue (DCCQueueSpec.DCCQueueSpec.OpPacket b 2 3 0) :: rest) ∧
  parse true 0 (with_checksum b) init = (setAccessory 300 2 true (b2z true) ;;; mreturn true) init.
Proof. split; [done|]. by apply (accessory_round_trip 0 300 2 true true). Defined.

Lemma speed_round_trip_witness :
  parse true 7 (with_checksum (address 1000 ++ speed_bytes 128 0x8A)) init =
  (let! changed := updateLoco 1000 0x8A in
   (when changed do
      (let! _ := setThrottle 7 1000 (0x8A .& 0x7F) (tru (0x8A .& 0x80)) in mreturn tt)) ;;;
   mreturn changed) init.
Proof.
  assert (0 < 1000 <= 10239) as Hc by done. assert (is_byte 0x8A) as Hb by done.
  exact (speed_round_trip 7 1000 0x8A Hc Hb init eq_refl).
Defined.

Lemma code28_steps_witness : 2 <= 64 <= 127 ∧ 1 <= step28 (code28 64) <= 28.
Proof. split; [done|]. by apply (code28_steps 64). Defined.

Lemma momentum_moves_to_target_witness :
  normalize (approach 0x82 0x03 10) =
    (if normalize 0x82 <? normalize 0x03 then Z.min (normalize 0x03) (normalize 0x82 + 10)
     else Z.max (normalize 0x03) (normalize 0x82 - 10)) ∧ approach 0x82 0x03 10 = 0x03.
Proof. split; [by apply momentum_moves_to_target|by vm_compute]. Defined.

End witnesses.

End DCCCodec.
