(* ===== verification/Keywords.v ===== *)
(** Text and keywords: bytes of a string literal, and the keyword hash that the
    command parser and the compile time literals share
    (src/KeywordHasher.h, CompiletimeKeywordHasher and the _hk literal). *)

From S2P Require Import Prelude.
From stdpp Require Import strings.
From Stdlib Require Import Ascii.

#[local] Open Scope Z_scope.
#[local] Open Scope c_scope.

Module Keywords.

Definition byte_of (a : ascii) : Z := Z.of_N (N_of_ascii a).
Fixpoint bytes_of (s : string) : list Z :=
  match s with EmptyString => [] | String a s => byte_of a :: bytes_of s end.

Definition isdigit (c : Z) : bool := (48 <=? c) && (c <=? 57).

(** One character; the running value is a uint16_t. *)
Definition hash_step (running c : Z) : Z :=
  u16 (if isdigit c then 10 * running + c - 48 else ((running <<' 5) + running) .^ c).
Definition CompiletimeKeywordHasher (sv : list Z) (running : Z) : Z := fold_left hash_step sv running.

(** ["..."_hk] *)
Definition hk (keyword : string) : Z := i16 (CompiletimeKeywordHasher (bytes_of keyword) 0).

(** The static assertions of the header. *)
Example hk_values : (hk "MAIN", hk "SLOW", hk "SPEED28", hk "SPEED128") = (11339, -17209, -17064, 25816).
Proof. reflexivity. Qed.

End Keywords.
