(* ===== verification/MotorDriver.v ===== *)
(** The motor drivers (src/MotorDriver.h, src/MotorDriver.cpp, as compiled for
    AVR): power, brake, DC signal, current and fault measurement, and the
    overload state machine.  Readings of pins, of the analogue converter and of
    the clock are arguments of the operations that make them. *)

From S2P Require Import Prelude.

Module MotorDriver.

Definition UNUSED_PIN : Z := 255.

(** * Track modes: powers of two, combined with modifiers *)

Definition TRACK_MODE_NONE : Z := 1.
Definition TRACK_MODE_MAIN : Z := 2.
Definition TRACK_MODE_PROG : Z := 4.
Definition TRACK_MODE_DC : Z := 8.
Definition TRACK_MODE_EXT : Z := 16.
Definition TRACK_MODE_BOOST : Z := 0.
Definition TRACK_MODIFIER_INV : Z := 64.
Definition TRACK_MODIFIER_AUTO : Z := 128.
Definition TRACK_MODE_MAIN_INV : Z := TRACK_MODE_MAIN .| TRACK_MODIFIER_INV.
Definition TRACK_MODE_MAIN_AUTO : Z := TRACK_MODE_MAIN .| TRACK_MODIFIER_AUTO.
Definition TRACK_MODE_DC_INV : Z := TRACK_MODE_DC .| TRACK_MODIFIER_INV.

Inductive POWERMODE := OFF | ON | OVERLOAD | ALERT.
#[export] Instance POWERMODE_eq_dec : EqDecision POWERMODE.
Proof. solve_decision. Defined.

(** Times in microseconds. *)
Definition POWER_SAMPLE_OVERLOAD_WAIT : Z := 40000.
Definition POWER_SAMPLE_ALL_GOOD : Z := 5000000.
Definition POWER_SAMPLE_ALERT_GOOD : Z := 20000.
Definition POWER_SAMPLE_IGNORE_FAULT_LOW : Z := 100000.
Definition POWER_SAMPLE_IGNORE_FAULT_HIGH : Z := 5000.
Definition POWER_SAMPLE_IGNORE_CURRENT : Z := 100000.
Definition POWER_SAMPLE_RETRY_MAX : Z := 10000000.
Definition TRIP_CURRENT_PROG : Z := 250.
Definition senseScale : Z := 256.

(** The members of the class that decide what it does; pins keep the value UNUSED_PIN (255) when not wired. *)
Record MotorDriver := mkDriver {
  powerPin : Z;
  invertPower : bool;
  signalPin : Z;
  dualSignal : bool;
  brakePin : Z;
  invertBrake : bool;
  currentPin : Z;
  faultPin : Z;
  invertFault : bool;
  senseFactorInternal : Z;
  rawCurrentTripValue : Z;
  progTripValue : Z;
  commonFaultPin : bool;
  trackPWM : bool;
  isProgTrack : bool;
  invertPhase : bool;
  trackMode : Z;
  senseOffset : Z;
  powerMode : POWERMODE;
  lastPowerMode : POWERMODE;
  lastPowerChange : POWERMODE → Z;
  lastBadSample : Z;
  power_sample_overload_wait : Z;
  lastCurrent : Z;
  tripValue : Z;
}.

Definition with_powerPin (x : Z) (r : MotorDriver) : MotorDriver :=
  mkDriver x (invertPower r) (signalPin r) (dualSignal r) (brakePin r) (invertBrake r) (currentPin r)
    (faultPin r) (invertFault r) (senseFactorInternal r) (rawCurrentTripValue r) (progTripValue r)
    (commonFaultPin r) (trackPWM r) (isProgTrack r) (invertPhase r) (trackMode r) (senseOffset r)
    (powerMode r) (lastPowerMode r) (lastPowerChange r) (lastBadSample r) (power_sample_overload_wait r)
    (lastCurrent r) (tripValue r).
Definition with_invertPower (x : bool) (r : MotorDriver) : MotorDriver :=
  mkDriver (powerPin r) x (signalPin r) (dualSignal r) (brakePin r) (invertBrake r) (currentPin r)
    (faultPin r) (invertFault r) (senseFactorInternal r) (rawCurrentTripValue r) (progTripValue r)
    (commonFaultPin r) (trackPWM r) (isProgTrack r) (invertPhase r) (trackMode r) (senseOffset r)
    (powerMode r) (lastPowerMode r) (lastPowerChange r) (lastBadSample r) (power_sample_overload_wait r)
    (lastCurrent r) (tripValue r).
Definition with_signalPin (x : Z) (r : MotorDriver) : MotorDriver :=
  mkDriver (powerPin r) (invertPower r) x (dualSignal r) (brakePin r) (invertBrake r) (currentPin r)
    (faultPin r) (invertFault r) (senseFactorInternal r) (rawCurrentTripValue r) (progTripValue r)
    (commonFaultPin r) (trackPWM r) (isProgTrack r) (invertPhase r) (trackMode r) (senseOffset r)
    (powerMode r) (lastPowerMode r) (lastPowerChange r) (lastBadSample r) (power_sample_overload_wait r)
    (lastCurrent r) (tripValue r).
Definition with_dualSignal (x : bool) (r : MotorDriver) : MotorDriver :=
  mkDriver (powerPin r) (invertPower r) (signalPin r) x (brakePin r) (invertBrake r) (currentPin r)
    (faultPin r) (invertFault r) (senseFactorInternal r) (rawCurrentTripValue r) (progTripValue r)
    (commonFaultPin r) (trackPWM r) (isProgTrack r) (invertPhase r) (trackMode r) (senseOffset r)
    (powerMode r) (lastPowerMode r) (lastPowerChange r) (lastBadSample r) (power_sample_overload_wait r)
    (lastCurrent r) (tripValue r).
Definition with_brakePin (x : Z) (r : MotorDriver) : MotorDriver :=
  mkDriver (powerPin r) (invertPower r) (signalPin r) (dualSignal r) x (invertBrake r) (currentPin r)
    (faultPin r) (invertFault r) (senseFactorInternal r) (rawCurrentTripValue r) (progTripValue r)
    (commonFaultPin r) (trackPWM r) (isProgTrack r) (invertPhase r) (trackMode r) (senseOffset r)
    (powerMode r) (lastPowerMode r) (lastPowerChange r) (lastBadSample r) (power_sample_overload_wait r)
    (lastCurrent r) (tripValue r).
Definition with_invertBrake (x : bool) (r : MotorDriver) : MotorDriver :=
  mkDriver (powerPin r) (invertPower r) (signalPin r) (dualSignal r) (brakePin r) x (currentPin r)
    (faultPin r) (invertFault r) (senseFactorInternal r) (rawCurrentTripValue r) (progTripValue r)
    (commonFaultPin r) (trackPWM r) (isProgTrack r) (invertPhase r) (trackMode r) (senseOffset r)
    (powerMode r) (lastPowerMode r) (lastPowerChange r) (lastBadSample r) (power_sample_overload_wait r)
    (lastCurrent r) (tripValue r).
Definition with_currentPin (x : Z) (r : MotorDriver) : MotorDriver :=
  mkDriver (powerPin r) (invertPower r) (signalPin r) (dualSignal r) (brakePin r) (invertBrake r) x
    (faultPin r) (invertFault r) (senseFactorInternal r) (rawCurrentTripValue r) (progTripValue r)
    (commonFaultPin r) (trackPWM r) (isProgTrack r) (invertPhase r) (trackMode r) (senseOffset r)
    (powerMode r) (lastPowerMode r) (lastPowerChange r) (lastBadSample r) (power_sample_overload_wait r)
    (lastCurrent r) (tripValue r).
Definition with_faultPin (x : Z) (r : MotorDriver) : MotorDriver :=
  mkDriver (powerPin r) (invertPower r) (signalPin r) (dualSignal r) (brakePin r) (invertBrake r)
    (currentPin r) x (invertFault r) (senseFactorInternal r) (rawCurrentTripValue r) (progTripValue r)
    (commonFaultPin r) (trackPWM r) (isProgTrack r) (invertPhase r) (trackMode r) (senseOffset r)
    (powerMode r) (lastPowerMode r) (lastPowerChange r) (lastBadSample r) (power_sample_overload_wait r)
    (lastCurrent r) (tripValue r).
Definition with_invertFault (x : bool) (r : MotorDriver) : MotorDriver :=
  mkDriver (powerPin r) (invertPower r) (signalPin r) (dualSignal r) (brakePin r) (invertBrake r)
    (currentPin r) (faultPin r) x (senseFactorInternal r) (rawCurrentTripValue r) (progTripValue r)
    (commonFaultPin r) (trackPWM r) (isProgTrack r) (invertPhase r) (trackMode r) (senseOffset r)
    (powerMode r) (lastPowerMode r) (lastPowerChange r) (lastBadSample r) (power_sample_overload_wait r)
    (lastCurrent r) (tripValue r).
Definition with_senseFactorInternal (x : Z) (r : MotorDriver) : MotorDriver :=
  mkDriver (powerPin r) (invertPower r) (signalPin r) (dualSignal r) (brakePin r) (invertBrake r)
    (currentPin r) (faultPin r) (invertFault r) x (rawCurrentTripValue r) (progTripValue r)
    (commonFaultPin r) (trackPWM r) (isProgTrack r) (invertPhase r) (trackMode r) (senseOffset r)
    (powerMode r) (lastPowerMode r) (lastPowerChange r) (lastBadSample r) (power_sample_overload_wait r)
    (lastCurrent r) (tripValue r).
Definition with_rawCurrentTripValue (x : Z) (r : MotorDriver) : MotorDriver :=
  mkDriver (powerPin r) (invertPower r) (signalPin r) (dualSignal r) (brakePin r) (invertBrake r)
    (currentPin r) (faultPin r) (invertFault r) (senseFactorInternal r) x (progTripValue r)
    (commonFaultPin r) (trackPWM r) (isProgTrack r) (invertPhase r) (trackMode r) (senseOffset r)
    (powerMode r) (lastPowerMode r) (lastPowerChange r) (lastBadSample r) (power_sample_overload_wait r)
    (lastCurrent r) (tripValue r).
Definition with_progTripValue (x : Z) (r : MotorDriver) : MotorDriver :=
  mkDriver (powerPin r) (invertPower r) (signalPin r) (dualSignal r) (brakePin r) (invertBrake r)
    (currentPin r) (faultPin r) (invertFault r) (senseFactorInternal r) (rawCurrentTripValue r) x
    (commonFaultPin r) (trackPWM r) (isProgTrack r) (invertPhase r) (trackMode r) (senseOffset r)
    (powerMode r) (lastPowerMode r) (lastPowerChange r) (lastBadSample r) (power_sample_overload_wait r)
    (lastCurrent r) (tripValue r).
Definition with_commonFaultPin (x : bool) (r : MotorDriver) : MotorDriver :=
  mkDriver (powerPin r) (invertPower r) (signalPin r) (dualSignal r) (brakePin r) (invertBrake r)
    (currentPin r) (faultPin r) (invertFault r) (senseFactorInternal r) (rawCurrentTripValue r)
    (progTripValue r) x (trackPWM r) (isProgTrack r) (invertPhase r) (trackMode r) (senseOffset r)
    (powerMode r) (lastPowerMode r) (lastPowerChange r) (lastBadSample r) (power_sample_overload_wait r)
    (lastCurrent r) (tripValue r).
Definition with_trackPWM (x : bool) (r : MotorDriver) : MotorDriver :=
  mkDriver (powerPin r) (invertPower r) (signalPin r) (dualSignal r) (brakePin r) (invertBrake r)
    (currentPin r) (faultPin r) (invertFault r) (senseFactorInternal r) (rawCurrentTripValue r)
    (progTripValue r) (commonFaultPin r) x (isProgTrack r) (invertPhase r) (trackMode r) (senseOffset r)
    (powerMode r) (lastPowerMode r) (lastPowerChange r) (lastBadSample r) (power_sample_overload_wait r)
    (lastCurrent r) (tripValue r).
Definition with_isProgTrack (x : bool) (r : MotorDriver) : MotorDriver :=
  mkDriver (powerPin r) (invertPower r) (signalPin r) (dualSignal r) (brakePin r) (invertBrake r)
    (currentPin r) (faultPin r) (invertFault r) (senseFactorInternal r) (rawCurrentTripValue r)
    (progTripValue r) (commonFaultPin r) (trackPWM r) x (invertPhase r) (trackMode r) (senseOffset r)
    (powerMode r) (lastPowerMode r) (lastPowerChange r) (lastBadSample r) (power_sample_overload_wait r)
    (lastCurrent r) (tripValue r).
Definition with_invertPhase (x : bool) (r : MotorDriver) : MotorDriver :=
  mkDriver (powerPin r) (invertPower r) (signalPin r) (dualSignal r) (brakePin r) (invertBrake r)
    (currentPin r) (faultPin r) (invertFault r) (senseFactorInternal r) (rawCurrentTripValue r)
    (progTripValue r) (commonFaultPin r) (trackPWM r) (isProgTrack r) x (trackMode r) (senseOffset r)
    (powerMode r) (lastPowerMode r) (lastPowerChange r) (lastBadSample r) (power_sample_overload_wait r)
    (lastCurrent r) (tripValue r).
Definition with_trackMode (x : Z) (r : MotorDriver) : MotorDriver :=
  mkDriver (powerPin r) (invertPower r) (signalPin r) (dualSignal r) (brakePin r) (invertBrake r)
    (currentPin r) (faultPin r) (invertFault r) (senseFactorInternal r) (rawCurrentTripValue r)
    (progTripValue r) (commonFaultPin r) (trackPWM r) (isProgTrack r) (invertPhase r) x (senseOffset r)
    (powerMode r) (lastPowerMode r) (lastPowerChange r) (lastBadSample r) (power_sample_overload_wait r)
    (lastCurrent r) (tripValue r).
Definition with_senseOffset (x : Z) (r : MotorDriver) : MotorDriver :=
  mkDriver (powerPin r) (invertPower r) (signalPin r) (dualSignal r) (brakePin r) (invertBrake r)
    (currentPin r) (faultPin r) (invertFault r) (senseFactorInternal r) (rawCurrentTripValue r)
    (progTripValue r) (commonFaultPin r) (trackPWM r) (isProgTrack r) (invertPhase r) (trackMode r) x
    (powerMode r) (lastPowerMode r) (lastPowerChange r) (lastBadSample r) (power_sample_overload_wait r)
    (lastCurrent r) (tripValue r).
Definition with_powerMode (x : POWERMODE) (r : MotorDriver) : MotorDriver :=
  mkDriver (powerPin r) (invertPower r) (signalPin r) (dualSignal r) (brakePin r) (invertBrake r)
    (currentPin r) (faultPin r) (invertFault r) (senseFactorInternal r) (rawCurrentTripValue r)
    (progTripValue r) (commonFaultPin r) (trackPWM r) (isProgTrack r) (invertPhase r) (trackMode r)
    (senseOffset r) x (lastPowerMode r) (lastPowerChange r) (lastBadSample r) (power_sample_overload_wait
    r) (lastCurrent r) (tripValue r).
Definition with_lastPowerMode (x : POWERMODE) (r : MotorDriver) : MotorDriver :=
  mkDriver (powerPin r) (invertPower r) (signalPin r) (dualSignal r) (brakePin r) (invertBrake r)
    (currentPin r) (faultPin r) (invertFault r) (senseFactorInternal r) (rawCurrentTripValue r)
    (progTripValue r) (commonFaultPin r) (trackPWM r) (isProgTrack r) (invertPhase r) (trackMode r)
    (senseOffset r) (powerMode r) x (lastPowerChange r) (lastBadSample r) (power_sample_overload_wait r)
    (lastCurrent r) (tripValue r).
Definition with_lastPowerChange (x : POWERMODE → Z) (r : MotorDriver) : MotorDriver :=
  mkDriver (powerPin r) (invertPower r) (signalPin r) (dualSignal r) (brakePin r) (invertBrake r)
    (currentPin r) (faultPin r) (invertFault r) (senseFactorInternal r) (rawCurrentTripValue r)
    (progTripValue r) (commonFaultPin r) (trackPWM r) (isProgTrack r) (invertPhase r) (trackMode r)
    (senseOffset r) (powerMode r) (lastPowerMode r) x (lastBadSample r) (power_sample_overload_wait r)
    (lastCurrent r) (tripValue r).
Definition with_lastBadSample (x : Z) (r : MotorDriver) : MotorDriver :=
  mkDriver (powerPin r) (invertPower r) (signalPin r) (dualSignal r) (brakePin r) (invertBrake r)
    (currentPin r) (faultPin r) (invertFault r) (senseFactorInternal r) (rawCurrentTripValue r)
    (progTripValue r) (commonFaultPin r) (trackPWM r) (isProgTrack r) (invertPhase r) (trackMode r)
    (senseOffset r) (powerMode r) (lastPowerMode r) (lastPowerChange r) x (power_sample_overload_wait r)
    (lastCurrent r) (tripValue r).
Definition with_power_sample_overload_wait (x : Z) (r : MotorDriver) : MotorDriver :=
  mkDriver (powerPin r) (invertPower r) (signalPin r) (dualSignal r) (brakePin r) (invertBrake r)
    (currentPin r) (faultPin r) (invertFault r) (senseFactorInternal r) (rawCurrentTripValue r)
    (progTripValue r) (commonFaultPin r) (trackPWM r) (isProgTrack r) (invertPhase r) (trackMode r)
    (senseOffset r) (powerMode r) (lastPowerMode r) (lastPowerChange r) (lastBadSample r) x (lastCurrent
    r) (tripValue r).
Definition with_lastCurrent (x : Z) (r : MotorDriver) : MotorDriver :=
  mkDriver (powerPin r) (invertPower r) (signalPin r) (dualSignal r) (brakePin r) (invertBrake r)
    (currentPin r) (faultPin r) (invertFault r) (senseFactorInternal r) (rawCurrentTripValue r)
    (progTripValue r) (commonFaultPin r) (trackPWM r) (isProgTrack r) (invertPhase r) (trackMode r)
    (senseOffset r) (powerMode r) (lastPowerMode r) (lastPowerChange r) (lastBadSample r)
    (power_sample_overload_wait r) x (tripValue r).
Definition with_tripValue (x : Z) (r : MotorDriver) : MotorDriver :=
  mkDriver (powerPin r) (invertPower r) (signalPin r) (dualSignal r) (brakePin r) (invertBrake r)
    (currentPin r) (faultPin r) (invertFault r) (senseFactorInternal r) (rawCurrentTripValue r)
    (progTripValue r) (commonFaultPin r) (trackPWM r) (isProgTrack r) (invertPhase r) (trackMode r)
    (senseOffset r) (powerMode r) (lastPowerMode r) (lastPowerChange r) (lastBadSample r)
    (power_sample_overload_wait r) (lastCurrent r) x.

Inductive ev :=
  | Write (vpin : Z) (high : bool)        (* IODevice::write *)
  | BrakePin (high : bool)
  | SignalPin (high : bool)               (* the signal pins, or their PWM timer *)
  | EnableSignal (output : bool)          (* pinMode of the signal pins *)
  | BrakeFrequency (f : Z)                (* DCCTimer::DCCEXanalogWriteFrequency *)
  | BrakePWM (duty : Z)                   (* analogWrite on the brake pin *)
  | PauseRailcom (on : bool)              (* DCCWaveform::pauseRailcom *)
  | ClearResets                           (* DCCWaveform::progTrack.clearResets *)
  | PowerEvent.                           (* RMFT2::powerEvent(trackno, true) *)

(** A driver, the static shared by all drivers, and what has been done to the pins and to other components. *)
Record St := mkSt {
  driver : MotorDriver;
  globalOverloadStart : Z;
  out : list ev;
}.

Definition with_driver (x : MotorDriver) (r : St) : St :=
  mkSt x (globalOverloadStart r) (out r).
Definition with_globalOverloadStart (x : Z) (r : St) : St :=
  mkSt (driver r) x (out r).
Definition with_out (x : list ev) (r : St) : St :=
  mkSt (driver r) (globalOverloadStart r) x.

Definition emit (e : ev) (s : St) : St := with_out (out s ++ [e]) s.
Definition upd (f : MotorDriver → MotorDriver) (s : St) : St := with_driver (f (driver s)) s.

(** * Signals *)

(** [setSignal]: the phase may be inverted; timer and pins look the same here. *)
Definition setSignal (high : bool) (s : St) : St := emit (SignalPin (xorb high (invertPhase (driver s)))) s.

Definition setBrake (on : bool) (s : St) : St :=
  if brakePin (driver s) =? UNUSED_PIN then s else emit (BrakePin (xorb on (invertBrake (driver s)))) s.

(** The brake duty of a DC speed code. *)
Definition dc_brake (speedcode : Z) : Z :=
  let tSpeed := speedcode .& 0x7F in
  if tSpeed <=? 1 then 255 else if tSpeed >=? 127 then 0 else 2 * (128 - tSpeed).

Definition setDCSignal (speedcode frequency : Z) (s : St) : St :=
  if brakePin (driver s) =? UNUSED_PIN then s else
  let brake := dc_brake speedcode in
  let s := emit (BrakeFrequency frequency) s in
  let s := emit (BrakePWM (if invertBrake (driver s) then 255 - brake else brake)) s in
  setSignal (tru (speedcode .& 0x80)) s.

Definition detachDCSignal (s : St) : St := setDCSignal 128 0 s.

Definition throttleInrush (on : bool) (s : St) : St :=
  if brakePin (driver s) =? UNUSED_PIN then s else
  if negb (tru (trackMode (driver s) .& (TRACK_MODE_MAIN .| TRACK_MODE_PROG .| TRACK_MODE_EXT .| TRACK_MODE_BOOST)))
  then s else
  let duty := if on then 207 else 0 in
  let duty := if invertBrake (driver s) then 255 - duty else duty in
  let s := if on then emit (BrakeFrequency 7) s else s in
  emit (BrakePWM duty) (emit (PauseRailcom on) s).

Definition enableSignal (on : bool) (s : St) : St := emit (EnableSignal on) s.

(** [invertOutput(b)], [invertOutput()] and [setMode]. *)
Definition invertOutput (b : bool) (s : St) : St := upd (with_invertPhase b) s.
Definition toggleOutput (s : St) : St :=
  let s := upd (λ d, with_invertPhase (negb (invertPhase d)) d) s in
  invertOutput (invertPhase (driver s)) s.
Definition setMode (m : Z) (s : St) : St :=
  let s := upd (with_trackMode m) s in invertOutput (tru (m .& TRACK_MODIFIER_INV)) s.
Definition makeProgTrack (on : bool) (s : St) : St := upd (with_isProgTrack on) s.
Definition setCommonFaultPin (s : St) : St := upd (with_commonFaultPin true) s.

(** * Power *)

(** [now] is micros(), [adc] the reading of the current pin. *)
Definition setPower (now adc : Z) (mode : POWERMODE) (s : St) : St :=
  if decide (powerMode (driver s) = mode) then s else
  let s := upd (λ d, with_lastPowerChange (λ m, if decide (m = mode) then now else lastPowerChange d m) d) s in
  let s := if decide (mode = OVERLOAD) then with_globalOverloadStart now s else s in
  let d := driver s in
  let s :=
    if decide (mode = ON ∨ mode = ALERT) then
      let s := if decide (powerMode d = OFF) then
                 if currentPin d =? UNUSED_PIN then s else upd (with_senseOffset adc) s
               else s in
      let s := emit (Write (powerPin d) (negb (invertPower d))) s in
      if isProgTrack d then emit ClearResets s else s
    else emit (Write (powerPin d) (invertPower d)) s in
  upd (with_powerMode mode) s.

(** The constructor: power and brake pins given negative are inverted, the
    current limits are converted once, and a limit that the converter cannot
    read is lowered to its maximum.  [mode0] and [change0] stand for the members
    the constructor leaves as they are; [factor] is the sense factor times 256
    and [trip_milliamps] is already limited by MAX_CURRENT. *)
Definition construct (mode0 : POWERMODE) (change0 : POWERMODE → Z) (stamp0 : Z)
    (power_pin signal_pin signal_pin2 brake_pin current_pin factor trip_milliamps fault_pin adcmax : Z) (adc_ok : bool) : MotorDriver :=
  let trip := Z.quot (trip_milliamps * senseScale) factor in
  mkDriver (Z.abs power_pin) (power_pin <? 0) signal_pin (negb (signal_pin2 =? UNUSED_PIN))
    (if brake_pin =? UNUSED_PIN then UNUSED_PIN else u8 (Z.abs brake_pin))
    (negb (brake_pin =? UNUSED_PIN) && (brake_pin <? 0))
    (if adc_ok then current_pin else UNUSED_PIN)
    (if fault_pin =? UNUSED_PIN then UNUSED_PIN else u8 (Z.abs fault_pin))
    (negb (fault_pin =? UNUSED_PIN) && (fault_pin <? 0))
    factor (if trip >? adcmax then adcmax else trip) (Z.quot (TRIP_CURRENT_PROG * senseScale) factor)
    false false false false TRACK_MODE_NONE 0 mode0 mode0 change0 stamp0 POWER_SAMPLE_OVERLOAD_WAIT 0 0.

Definition new_driver (d : MotorDriver) (s : St) : St :=
  setBrake true (emit (Write (powerPin d) (invertPower d)) (with_driver d s)).

(** The pins of timer 1 of a Mega carry the high accuracy waveform; which brake
    pins have a PWM timer is a table of the board's core library. *)
Definition isPWMPin (pin : Z) : bool := (pin =? 11) || (pin =? 12) || (pin =? 13).
Definition isPWMCapable (d : MotorDriver) : bool := negb (dualSignal d) && isPWMPin (signalPin d).
Class Board := { digitalPinToTimer : Z → bool }.
Definition brakeCanPWM `{Board} (d : MotorDriver) : bool :=
  negb (brakePin d =? UNUSED_PIN) && digitalPinToTimer (brakePin d).
Definition setTrackPWM (b : bool) (s : St) : St := upd (with_trackPWM b) s.

Definition canMeasureCurrent (d : MotorDriver) : bool := negb (currentPin d =? UNUSED_PIN).

(** * Measuring *)

(** A reading of the converter and the level of the fault pin. *)
Record reading := mkReading { adc : Z; fault_high : bool }.

Definition getCurrentRaw (d : MotorDriver) (x : reading) : Z :=
  if currentPin d =? UNUSED_PIN then 0 else
  let current := adc x - senseOffset d in
  let current := if current <? 0 then 0 - current else current in
  if negb (faultPin d =? UNUSED_PIN) && tru (powerPin d) then
    if (if invertFault d then fault_high x else negb (fault_high x))
    then (if current =? 0 then -1 else - current) else current
  else current.

Definition raw2mA (d : MotorDriver) (raw : Z) : Z := Z.quot (raw * senseFactorInternal d) senseScale.
Definition mA2raw (d : MotorDriver) (mA : Z) : Z := Z.quot (mA * senseScale) (senseFactorInternal d).

Definition checkCurrent (useProgLimit : bool) (x : reading) (s : St) : bool * St :=
  let d := driver s in
  let trip := if useProgLimit then progTripValue d else rawCurrentTripValue d in
  let cur := getCurrentRaw d x in
  let cur := if cur <? 0 then - cur else cur in
  (cur >=? trip, upd (λ d, with_lastCurrent cur (with_tripValue trip d)) s).

Definition checkFault (x : reading) (s : St) : bool * St :=
  let cur := getCurrentRaw (driver s) x in
  (cur <? 0, upd (with_lastCurrent cur) s).

(** The time since a power change; after 268 seconds the stamp is moved so
    that it reads 30 seconds the next time. *)
Definition microsSinceLastPowerChange (now : Z) (mode : POWERMODE) (s : St) : Z * St :=
  let diff := u32 (now - lastPowerChange (driver s) mode) in
  (diff,
   if diff >? 1 <<' 28
   then upd (λ d, with_lastPowerChange
          (λ m, if decide (m = mode) then u32 (now - 30000000) else lastPowerChange d m) d) s
   else s).

(** * The overload state machine *)

(** What one call reads: the clock on entry, for the time since the last
    change, for the time since the last bad sample and in setPower; the
    readings of checkFault and of checkCurrent. *)
Record Inputs := mkInputs {
  t_entry : Z; t_since : Z; t_good : Z; t_set : Z;
  r_fault : reading; r_current : reading;
}.

Definition check_on (useProgLimit : bool) (i : Inputs) (s : St) : St :=
  let s := upd (with_lastPowerMode ON) s in
  let '(cF, s) := checkFault (r_fault i) s in
  let '(cC, s) := checkCurrent useProgLimit (r_current i) s in
  if cF || cC then
    let s := setPower (t_set i) 0 ALERT s in
    let m := trackMode (driver s) in
    if tru (m .& TRACK_MODIFIER_AUTO) && tru (m .& (TRACK_MODE_MAIN .| TRACK_MODE_EXT .| TRACK_MODE_BOOST))
    then toggleOutput s else s
  else
    let '(since, s) := microsSinceLastPowerChange (t_since i) ON s in
    if since >? POWER_SAMPLE_ALL_GOOD
    then upd (with_power_sample_overload_wait POWER_SAMPLE_OVERLOAD_WAIT) s else s.

Definition check_alert (useProgLimit : bool) (i : Inputs) (s : St) : St :=
  let now := t_entry i in
  let s := if decide (powerMode (driver s) = lastPowerMode (driver s)) then s else upd (with_lastBadSample now) s in
  let s := upd (with_lastPowerMode ALERT) s in
  let '(mslpc, s) := microsSinceLastPowerChange (t_since i) ALERT s in
  let '(cF, s) := checkFault (r_fault i) s in
  if cF : bool then
    let s := throttleInrush true s in
    let s := upd (with_lastBadSample now) s in
    let '(cC, s) := checkCurrent useProgLimit (r_current i) s in
    let timeout := if cC : bool then POWER_SAMPLE_IGNORE_FAULT_HIGH else POWER_SAMPLE_IGNORE_FAULT_LOW in
    if mslpc <? timeout then s
    else setPower (t_set i) 0 OVERLOAD (throttleInrush false s)
  else
  let '(cC, s) := checkCurrent useProgLimit (r_current i) s in
  if cC : bool then
    let s := upd (with_lastBadSample now) s in
    if mslpc <? POWER_SAMPLE_IGNORE_CURRENT then s
    else setPower (t_set i) 0 OVERLOAD (throttleInrush false s)
  else
  let goodtime := u32 (t_good i - lastBadSample (driver s)) in
  if goodtime >? POWER_SAMPLE_ALERT_GOOD then setPower (t_set i) 0 ON (throttleInrush false s)
  else if goodtime >? POWER_SAMPLE_ALERT_GOOD / 2 then throttleInrush false s
  else s.

(** With EXRAIL_ACTIVE. *)
Definition check_overload (i : Inputs) (s : St) : St :=
  let s := upd (with_lastPowerMode OVERLOAD) s in
  let '(mslpc, s) :=
    if commonFaultPin (driver s) then (u32 (t_since i - globalOverloadStart s), s)
    else microsSinceLastPowerChange (t_since i) OVERLOAD s in
  let wait := power_sample_overload_wait (driver s) in
  if mslpc >? wait then
    let s := upd (with_power_sample_overload_wait
      (if u32 (wait * 2) >? POWER_SAMPLE_RETRY_MAX then POWER_SAMPLE_RETRY_MAX else u32 (wait * 2))) s in
    setPower (t_set i) 0 ALERT (emit PowerEvent s)
  else s.

Definition checkPowerOverload (useProgLimit : bool) (i : Inputs) (s : St) : St :=
  match powerMode (driver s) with
  | OFF => upd (λ d, with_power_sample_overload_wait POWER_SAMPLE_OVERLOAD_WAIT (with_lastPowerMode OFF d)) s
  | ON => check_on useProgLimit i s
  | ALERT => check_alert useProgLimit i s
  | OVERLOAD => check_overload i s
  end.

End MotorDriver.
