(* ===== verification/MotorProps.v ===== *)
(** What the motor drivers guarantee: the power pin follows the power mode,
    the overload machine only makes the documented changes, a short circuit
    is cut off in time, and the pauses before power is tried again double. *)

From S2P Require Import Prelude MotorDriver.

Module MotorProps.
Import MotorDriver.MotorDriver.

Definition powered (m : POWERMODE) : bool :=
  match m with ON | ALERT => true | OFF | OVERLOAD => false end.

(** The last level written to the driver's power pin. *)
Definition pin_write (pin : Z) (e : ev) : option bool :=
  match e with Write p h => if p =? pin then Some h else None | _ => None end.
Definition power_level (s : St) : option bool := last (omap (pin_write (powerPin (driver s))) (out s)).

Definition pin_ok (s : St) : Prop :=
  power_level s = Some (xorb (powered (powerMode (driver s))) (invertPower (driver s))).

(** * What the operations leave alone *)

(** The wiring, and with it the readings of a driver, without its power. *)
Record same_wiring (d d' : MotorDriver) : Prop := {
  sw_power : powerPin d' = powerPin d;
  sw_invert : invertPower d' = invertPower d;
  sw_current : currentPin d' = currentPin d;
  sw_fault : faultPin d' = faultPin d;
  sw_invfault : invertFault d' = invertFault d;
  sw_raw : rawCurrentTripValue d' = rawCurrentTripValue d;
  sw_prog : progTripValue d' = progTripValue d;
  sw_common : commonFaultPin d' = commonFaultPin d;
}.

Lemma same_wiring_refl d : same_wiring d d.
Proof. done. Qed.
Lemma same_wiring_trans d1 d2 d3 : same_wiring d1 d2 → same_wiring d2 d3 → same_wiring d1 d3.
Proof. intros [] []. constructor; congruence. Qed.

(** An operation that neither writes the power pin nor changes the mode. *)
Record quiet (s s' : St) : Prop := {
  q_wiring : same_wiring (driver s) (driver s');
  q_mode : powerMode (driver s') = powerMode (driver s);
  q_offset : senseOffset (driver s') = senseOffset (driver s);
  q_out : ∃ l, out s' = out s ++ l ∧ omap (pin_write (powerPin (driver s))) l = [];
  q_global : globalOverloadStart s' = globalOverloadStart s;
}.

Lemma quiet_refl s : quiet s s.
Proof. constructor; try done. exists []. by rewrite app_nil_r. Qed.
Lemma quiet_trans s1 s2 s3 : quiet s1 s2 → quiet s2 s3 → quiet s1 s3.
Proof.
  intros [W1 M1 O1 (l1 & E1 & F1) G1] [W2 M2 O2 (l2 & E2 & F2) G2]. constructor; try congruence.
  - by eapply same_wiring_trans.
  - exists (l1 ++ l2). rewrite E2, E1, app_assoc. split; [done|].
    rewrite omap_app, F1. rewrite (sw_power _ _ W1) in F2. done.
Qed.
Lemma quiet_emit s e : pin_write (powerPin (driver s)) e = None → quiet s (emit e s).
Proof. intros He. constructor; try done. exists [e]. split; [done|]. simpl. by rewrite He. Qed.
Lemma quiet_upd s f : same_wiring (driver s) (f (driver s)) → powerMode (f (driver s)) = powerMode (driver s) →
  senseOffset (f (driver s)) = senseOffset (driver s) → quiet s (upd f s).
Proof. intros. constructor; try done. exists []. by rewrite app_nil_r. Qed.

#[local] Hint Resolve quiet_refl quiet_emit quiet_upd same_wiring_refl : quiet.
Ltac quiet := repeat first
  [ apply quiet_refl | eapply quiet_trans; [|apply quiet_emit; reflexivity]
  | eapply quiet_trans; [|apply quiet_upd; done] ].

Lemma quiet_setSignal b s : quiet s (setSignal b s).
Proof. unfold setSignal. quiet. Qed.
Lemma quiet_setBrake b s : quiet s (setBrake b s).
Proof. unfold setBrake. destruct (_ =? _); quiet. Qed.
Lemma quiet_setDCSignal a b s : quiet s (setDCSignal a b s).
Proof.
  unfold setDCSignal. destruct (_ =? _); [quiet|].
  eapply quiet_trans; [|apply quiet_setSignal]. quiet.
Qed.
Lemma quiet_throttleInrush b s : quiet s (throttleInrush b s).
Proof.
  unfold throttleInrush.
  repeat match goal with |- context [if ?c then _ else _] => destruct c end; quiet.
Qed.
Lemma quiet_setMode m s : quiet s (setMode m s).
Proof. unfold setMode, invertOutput. quiet. Qed.
Lemma quiet_toggleOutput s : quiet s (toggleOutput s).
Proof. unfold toggleOutput, invertOutput. quiet. Qed.
Lemma quiet_checkCurrent b x s : quiet s (checkCurrent b x s).2.
Proof. unfold checkCurrent. simpl. quiet. Qed.
Lemma quiet_checkFault x s : quiet s (checkFault x s).2.
Proof. unfold checkFault. simpl. quiet. Qed.
Lemma quiet_micros n m s : quiet s (microsSinceLastPowerChange n m s).2.
Proof. unfold microsSinceLastPowerChange. simpl. destruct (_ >? _); quiet. Qed.

Lemma quiet_pin s s' : quiet s s' → pin_ok s → pin_ok s'.
Proof.
  intros [W M _ (l & E & F) _]. unfold pin_ok, power_level.
  by rewrite M, (sw_invert _ _ W), (sw_power _ _ W), E, omap_app, F, app_nil_r.
Qed.

(** * Setting the power *)

Lemma setPower_mode now a m s : powerMode (driver (setPower now a m s)) = m.
Proof. unfold setPower. by destruct (decide _). Qed.

Lemma setPower_pin now a m s : pin_ok s → pin_ok (setPower now a m s).
Proof.
  intros Hp. unfold setPower. destruct (decide _) as [<-|Hne]; [done|].
  assert (∀ d l p, powerPin d = p → last (omap (pin_write p) (l ++ [Write p (xorb (powered m) (invertPower d))])) =
    Some (xorb (powered m) (invertPower d))) as Hlast.
  { intros d l p <-. rewrite omap_app. simpl. rewrite Z.eqb_refl. by rewrite last_snoc. }
  assert (∀ d l p, powerPin d = p → last (omap (pin_write p) ((l ++ [Write p (xorb (powered m) (invertPower d))]) ++ [ClearResets])) =
    Some (xorb (powered m) (invertPower d))) as Hlast2.
  { intros d l p Hd. rewrite omap_app. simpl. rewrite app_nil_r. by apply Hlast. }
  unfold pin_ok, power_level.
  destruct m; simpl; repeat (destruct (decide _); simpl); try (by exfalso; naive_solver);
    repeat (destruct (currentPin _ =? _); simpl); repeat (destruct (isProgTrack _); simpl);
    try (by apply (Hlast (driver s))); try (by apply (Hlast2 (driver s)));
    try (specialize (Hlast (driver s)); simpl in Hlast; rewrite xorb_false_l in Hlast; by apply Hlast).
Qed.

(** * The overload machine *)

(** The documented changes of power mode: OFF is left alone, ON may become
    ALERT, ALERT may become ON or OVERLOAD, OVERLOAD may become ALERT. *)
Definition documented (m m' : POWERMODE) : Prop :=
  m' = m ∨ (m = ON ∧ m' = ALERT) ∨ (m = ALERT ∧ (m' = ON ∨ m' = OVERLOAD)) ∨ (m = OVERLOAD ∧ m' = ALERT).

(** A call either only changes what it measures, or does so and then makes one
    change of power, after which it may invert the output. *)
Inductive checked (s : St) : St → Prop :=
  | checked_same s' : quiet s s' → checked s s'
  | checked_change s1 now m s' : quiet s s1 → documented (powerMode (driver s)) m →
      quiet (setPower now 0 m s1) s' → checked s s'.

Lemma checked_change' s s1 now m : quiet s s1 → documented (powerMode (driver s)) m →
  checked s (setPower now 0 m s1).
Proof. intros. eapply checked_change; [done|done|apply quiet_refl]. Qed.

Ltac pair_step := match goal with
  | |- context [checkFault ?x ?s] => let H := fresh "Q" in pose proof (quiet_checkFault x s) as H;
      destruct (checkFault x s); simpl in H
  | |- context [checkCurrent ?b ?x ?s] => let H := fresh "Q" in pose proof (quiet_checkCurrent b x s) as H;
      destruct (checkCurrent b x s); simpl in H
  | |- context [microsSinceLastPowerChange ?n ?m ?s] => let H := fresh "Q" in pose proof (quiet_micros n m s) as H;
      destruct (microsSinceLastPowerChange n m s); simpl in H
  end.
(** Chains the steps of a goal [quiet s s'] back to the hypotheses. *)
Ltac chain := repeat first
  [ apply quiet_refl | eassumption
  | eapply quiet_trans; [|apply quiet_throttleInrush]
  | eapply quiet_trans; [|apply quiet_emit; reflexivity]
  | match goal with |- quiet _ (upd _ _) => eapply quiet_trans; [|apply quiet_upd; done] end
  | eapply quiet_trans; [|eassumption] ].

Lemma check_on_checked b i s : powerMode (driver s) = ON → checked s (check_on b i s).
Proof.
  intros Hm. unfold check_on.
  assert (quiet s (upd (with_lastPowerMode ON) s)) as Q0 by (by apply quiet_upd).
  repeat pair_step. destruct (_ || _).
  - destruct (_ && _); [|apply checked_change'; [chain|]; rewrite Hm; right; left; done].
    eapply checked_change; [|rewrite Hm; right; left; done|apply quiet_toggleOutput]. chain.
  - apply checked_same. destruct (_ >? _); chain.
Qed.

Lemma check_alert_checked b i s : powerMode (driver s) = ALERT → checked s (check_alert b i s).
Proof.
  intros Hm. unfold check_alert.
  set (s0 := if decide (powerMode (driver s) = lastPowerMode (driver s)) then s else _).
  assert (quiet s s0) as Q0 by (subst s0; destruct (decide _); chain).
  assert (documented (powerMode (driver s)) OVERLOAD) as D1 by (rewrite Hm; right; right; left; auto).
  assert (documented (powerMode (driver s)) ON) as D2 by (rewrite Hm; right; right; left; auto).
  clearbody s0. repeat pair_step. destruct b0; repeat pair_step.
  - destruct (_ <? _); [apply checked_same; chain|]. apply checked_change'; [chain|done].
  - destruct b2.
    + destruct (_ <? _); [apply checked_same; chain|]. apply checked_change'; [chain|done].
    + destruct (_ >? POWER_SAMPLE_ALERT_GOOD); [apply checked_change'; [chain|done]|].
      apply checked_same. destruct (_ >? _); chain.
Qed.

Lemma check_overload_checked i s : powerMode (driver s) = OVERLOAD → checked s (check_overload i s).
Proof.
  intros Hm. unfold check_overload.
  assert (quiet s (upd (with_lastPowerMode OVERLOAD) s)) as Q0 by chain.
  assert (documented (powerMode (driver s)) ALERT) as D by (rewrite Hm; do 3 right; done).
  destruct (commonFaultPin _); repeat pair_step;
    (destruct (_ >? _); [apply checked_change'; [chain|done]|apply checked_same; chain]).
Qed.

Lemma check_checked b i s : checked s (checkPowerOverload b i s).
Proof.
  unfold checkPowerOverload. destruct (powerMode (driver s)) eqn:Hm.
  - apply checked_same. chain.
  - by apply check_on_checked.
  - by apply check_overload_checked.
  - by apply check_alert_checked.
Qed.

Lemma checked_pin s s' : checked s s' → pin_ok s → pin_ok s'.
Proof.
  intros [? Q|s1 now m ? Q _ Q'] Hp; [by eapply quiet_pin|].
  eapply quiet_pin; [exact Q'|]. apply setPower_pin. by eapply quiet_pin.
Qed.

Lemma checked_mode s s' : checked s s' → documented (powerMode (driver s)) (powerMode (driver s')).
Proof.
  intros [? Q|s1 now m ? Q D Q']; [left; apply Q|]. by rewrite (q_mode _ _ Q'), setPower_mode.
Qed.

(** * Runs of a driver *)

(** What the rest of the program does to a driver after it has been made. *)
Inductive op :=
  | Check (useProgLimit : bool) (i : Inputs)
  | SetPower (now adc : Z) (mode : POWERMODE)
  | SetMode (m : Z) | MakeProgTrack (b : bool) | CommonFault
  | SetBrake (b : bool) | SetDCSignal (speedcode freq : Z) | SetSignal (b : bool) | EnableSignalPins (b : bool).

Definition run_op (o : op) (s : St) : St :=
  match o with
  | Check b i => checkPowerOverload b i s
  | SetPower now a m => setPower now a m s
  | SetMode m => setMode m s
  | MakeProgTrack b => makeProgTrack b s
  | CommonFault => setCommonFaultPin s
  | SetBrake b => setBrake b s
  | SetDCSignal c f => setDCSignal c f s
  | SetSignal b => setSignal b s
  | EnableSignalPins b => enableSignal b s
  end.
Definition run (l : list op) (s : St) : St := fold_left (λ s o, run_op o s) l s.

Lemma run_op_pin o s : pin_ok s → pin_ok (run_op o s).
Proof.
  intros Hp. destruct o; cbn [run_op].
  - eapply checked_pin; [apply check_checked|done].
  - by apply setPower_pin.
  - by eapply quiet_pin; [apply quiet_setMode|].
  - eapply quiet_pin; [|done]. by apply quiet_upd.
  - exact Hp.
  - by eapply quiet_pin; [apply quiet_setBrake|].
  - by eapply quiet_pin; [apply quiet_setDCSignal|].
  - by eapply quiet_pin; [apply quiet_setSignal|].
  - eapply quiet_pin; [|done]. by apply quiet_emit.
Qed.

(** A new driver that has been switched off, as TrackManager does. *)
Definition fresh (d : MotorDriver) (now : Z) (s : St) : St := setPower now 0 OFF (new_driver d s).

Lemma fresh_pin d now s : pin_ok (fresh d now s).
Proof.
  assert (∀ x s0, power_level s0 = Some (invertPower (driver s0)) → powerMode (driver s0) = x →
    pin_ok (setPower now 0 OFF s0)) as H.
  { intros x s0 Hl Hx. destruct (powered x) eqn:Ep.
    - unfold setPower. destruct (decide _) as [Hd|Hd]; [by subst x; rewrite Hd in Ep|].
      unfold pin_ok, power_level. simpl. rewrite omap_app. simpl. rewrite Z.eqb_refl.
      by rewrite last_snoc.
    - destruct x; try done.
      + unfold setPower. destruct (decide _) as [_|Hd]; [|done]. unfold pin_ok. by rewrite Hx, Hl.
      + apply setPower_pin. unfold pin_ok. by rewrite Hx, Hl. }
  apply (H (powerMode d)).
  - unfold new_driver. pose proof (quiet_setBrake true (emit (Write (powerPin d) (invertPower d)) (with_driver d s)))
      as [W _ _ (l & E & F) _]. unfold power_level. rewrite (sw_power _ _ W), (sw_invert _ _ W), E, omap_app.
    simpl in F |- *. rewrite F, app_nil_r, omap_app. simpl. rewrite Z.eqb_refl. by rewrite last_snoc.
  - unfold new_driver. by rewrite (q_mode _ _ (quiet_setBrake _ _)).
Qed.

(** * Short circuits *)

(** The readings of a call show a fault or a current at the limit. *)
Definition bad (b : bool) (d : MotorDriver) (i : Inputs) : Prop :=
  getCurrentRaw d (r_fault i) < 0 ∨
  (if b then progTripValue d else rawCurrentTripValue d) <= Z.abs (getCurrentRaw d (r_current i)).

Lemma reading_same s s' x : quiet s s' → getCurrentRaw (driver s') x = getCurrentRaw (driver s) x.
Proof.
  intros [W _ O _ _]. unfold getCurrentRaw.
  by rewrite (sw_current _ _ W), (sw_fault _ _ W), (sw_power _ _ W), (sw_invfault _ _ W), O.
Qed.

Lemma checkFault_val x s : (checkFault x s).1 = (getCurrentRaw (driver s) x <? 0).
Proof. done. Qed.
Lemma checkCurrent_val b x s : (checkCurrent b x s).1 =
  ((if b then progTripValue (driver s) else rawCurrentTripValue (driver s)) <=? Z.abs (getCurrentRaw (driver s) x)).
Proof. unfold checkCurrent. simpl. destruct (_ <? 0) eqn:E, b; simpl; lia. Qed.

Lemma bad_same b s s' i : quiet s s' → bad b (driver s) i → bad b (driver s') i.
Proof.
  intros Q. pose proof Q as [W _ _ _ _]. unfold bad.
  by rewrite !(reading_same _ _ _ Q), (sw_prog _ _ W), (sw_raw _ _ W).
Qed.

(** Setting another power mode than from OFF does not change the readings. *)
Lemma setPower_bad b now m s i : powerMode (driver s) ≠ OFF → bad b (driver s) i →
  bad b (driver (setPower now 0 m s)) i.
Proof.
  intros Hm. unfold setPower. destruct (decide (powerMode (driver s) = m)); [done|].
  destruct (decide (m = OVERLOAD)), (decide (m = ON ∨ m = ALERT)); simpl;
    rewrite ?decide_False by done;
    repeat match goal with |- context [if ?c then _ else _] => destruct c; simpl end; done.
Qed.

Lemma setPower_stamp now m s : powerMode (driver s) ≠ m →
  lastPowerChange (driver (setPower now 0 m s)) m = now.
Proof.
  intros Hm. unfold setPower. rewrite decide_False by done.
  destruct (decide (m = OVERLOAD)), (decide (m = ON ∨ m = ALERT)); simpl;
    repeat match goal with |- context [if decide (powerMode _ = OFF) then _ else _] => destruct (decide _); simpl end;
    repeat match goal with |- context [if ?b then _ else _] => lazymatch type of b with bool => destruct b; simpl end end;
    by rewrite decide_True.
Qed.

(** The first bad readings raise the alert. *)
Lemma on_bad b i s : powerMode (driver s) = ON → bad b (driver s) i →
  let s' := checkPowerOverload b i s in
  powerMode (driver s') = ALERT ∧ lastPowerChange (driver s') ALERT = t_set i ∧
  ∀ j, bad b (driver s) j → bad b (driver s') j.
Proof.
  intros Hm Hb. cbv zeta. unfold checkPowerOverload. rewrite Hm. unfold check_on.
  set (s0 := upd (with_lastPowerMode ON) s).
  assert (quiet s s0) as Q0 by (by apply quiet_upd).
  pose proof (quiet_checkFault (r_fault i) s0) as Q1. pose proof (checkFault_val (r_fault i) s0) as V1.
  destruct (checkFault (r_fault i) s0) as [cF s1]. simpl in Q1, V1.
  pose proof (quiet_checkCurrent b (r_current i) s1) as Q2. pose proof (checkCurrent_val b (r_current i) s1) as V2.
  destruct (checkCurrent b (r_current i) s1) as [cC s2]. simpl in Q2, V2.
  assert (quiet s s1) as Q01 by chain. assert (quiet s s2) as Q02 by chain.
  assert (cF || cC = true) as ->.
  { rewrite V1, V2, (reading_same _ _ _ Q0), (reading_same _ _ _ Q01).
    rewrite (sw_prog _ _ (q_wiring _ _ Q01)), (sw_raw _ _ (q_wiring _ _ Q01)).
    destruct Hb as [Hb|Hb]; [|apply orb_true_iff; right]; lia. }
  assert (powerMode (driver s2) = ON) as Hm2 by (rewrite (q_mode _ _ Q02); done).
  assert (∀ s', quiet (setPower (t_set i) 0 ALERT s2) s' →
    lastPowerChange (driver s') = lastPowerChange (driver (setPower (t_set i) 0 ALERT s2)) →
    powerMode (driver s') = ALERT ∧ lastPowerChange (driver s') ALERT = t_set i ∧
    ∀ j, bad b (driver s) j → bad b (driver s') j) as Hend.
  { intros s' Q' Hl. split; [by rewrite (q_mode _ _ Q'), setPower_mode|].
    split; [rewrite Hl; apply setPower_stamp; by rewrite Hm2|].
    intros j Hj. eapply bad_same; [exact Q'|]. apply setPower_bad; [by rewrite Hm2|]. by eapply bad_same. }
  destruct (_ && _); apply Hend; try done; [apply quiet_toggleOutput|apply quiet_refl].
Qed.

(** Further bad readings either cut the power, or come within the time that is
    tolerated and leave the alert as it is. *)
Lemma alert_bad b i s : powerMode (driver s) = ALERT → bad b (driver s) i →
  u32 (t_since i - lastPowerChange (driver s) ALERT) < 1 <<' 28 →
  let s' := checkPowerOverload b i s in
  powerMode (driver s') = OVERLOAD ∨
  (powerMode (driver s') = ALERT ∧ lastPowerChange (driver s') ALERT = lastPowerChange (driver s) ALERT ∧
   u32 (t_since i - lastPowerChange (driver s) ALERT) < POWER_SAMPLE_IGNORE_CURRENT ∧
   ∀ j, bad b (driver s) j → bad b (driver s') j).
Proof.
  intros Hm Hb Ht. cbv zeta. unfold checkPowerOverload. rewrite Hm. unfold check_alert.
  set (s0 := if decide (powerMode (driver s) = lastPowerMode (driver s)) then s else _).
  assert (quiet s s0 ∧ lastPowerChange (driver s0) = lastPowerChange (driver s)) as [Q0 L0]
    by (subst s0; destruct (decide _); split; chain; done).
  clearbody s0. set (s1 := upd (with_lastPowerMode ALERT) s0).
  assert (microsSinceLastPowerChange (t_since i) ALERT s1 =
    (u32 (t_since i - lastPowerChange (driver s) ALERT), s1)) as ->.
  { unfold microsSinceLastPowerChange. simpl. rewrite L0.
    replace (u32 (t_since i - lastPowerChange (driver s) ALERT) >? 1 <<' 28) with false by lia. done. }
  set (t := u32 (t_since i - lastPowerChange (driver s) ALERT)) in *.
  assert (quiet s s1 ∧ lastPowerChange (driver s1) = lastPowerChange (driver s)) as [Q1 L1]
    by (subst s1; split; [chain|done]). clearbody s1.
  pose proof (quiet_checkFault (r_fault i) s1) as Q2. pose proof (checkFault_val (r_fault i) s1) as V2.
  assert (lastPowerChange (driver (checkFault (r_fault i) s1).2) = lastPowerChange (driver s1)) as L2 by done.
  destruct (checkFault (r_fault i) s1) as [cF s2]. simpl in Q2, V2, L2.
  assert (∀ s' x, quiet s s' → lastPowerChange (driver s') = lastPowerChange (driver s) → x <= POWER_SAMPLE_IGNORE_CURRENT →
    t < x → powerMode (driver s') = OVERLOAD ∨
    (powerMode (driver s') = ALERT ∧ lastPowerChange (driver s') ALERT = lastPowerChange (driver s) ALERT ∧
     t < POWER_SAMPLE_IGNORE_CURRENT ∧ ∀ j, bad b (driver s) j → bad b (driver s') j)) as Hstay.
  { intros s' x Q L Hx Htx. right. split; [by rewrite (q_mode _ _ Q)|]. split; [by rewrite L|]. split; [lia|].
    intros j. by apply bad_same. }
  assert (∀ on r, lastPowerChange (driver (throttleInrush on r)) = lastPowerChange (driver r)) as LT.
  { intros on r. unfold throttleInrush. by repeat match goal with |- context [if ?c then _ else _] => destruct c end. }
  destruct cF.
  - set (s3 := upd (with_lastBadSample (t_entry i)) (throttleInrush true s2)).
    assert (quiet s s3) as Q3 by (subst s3; chain).
    assert (lastPowerChange (driver s3) = lastPowerChange (driver s)) as L3 by (subst s3; simpl; rewrite LT; congruence).
    clearbody s3. pose proof (quiet_checkCurrent b (r_current i) s3) as Q4.
    assert (lastPowerChange (driver (checkCurrent b (r_current i) s3).2) = lastPowerChange (driver s3)) as L4 by done.
    destruct (checkCurrent b (r_current i) s3) as [cC s4]. simpl in Q4, L4.
    destruct (t <? _) eqn:E; [|left; apply setPower_mode].
    eapply (Hstay s4 (if cC then POWER_SAMPLE_IGNORE_FAULT_HIGH else POWER_SAMPLE_IGNORE_FAULT_LOW));
      [chain|congruence|by destruct cC|lia].
  - pose proof (quiet_checkCurrent b (r_current i) s2) as Q3. pose proof (checkCurrent_val b (r_current i) s2) as V3.
    assert (lastPowerChange (driver (checkCurrent b (r_current i) s2).2) = lastPowerChange (driver s2)) as L3 by done.
    assert (quiet s s2) as Q02 by chain.
    destruct (checkCurrent b (r_current i) s2) as [cC s3]. simpl in Q3, V3, L3.
    assert (cC = true) as ->.
    { rewrite V3, (reading_same _ _ _ Q02).
      rewrite (sw_prog _ _ (q_wiring _ _ Q02)), (sw_raw _ _ (q_wiring _ _ Q02)).
      rewrite (reading_same _ _ _ Q1) in V2. destruct Hb as [Hb|Hb]; lia. }
    destruct (t <? _) eqn:E; [|left; apply setPower_mode].
    eapply (Hstay _ POWER_SAMPLE_IGNORE_CURRENT); [chain|simpl; congruence|done|lia].
Qed.

Definition checks (b : bool) (l : list Inputs) (s : St) : St := fold_left (λ s i, checkPowerOverload b i s) l s.

Lemma alert_run b l : ∀ s i, powerMode (driver s) = ALERT →
  Forall (λ j, bad b (driver s) j ∧ u32 (t_since j - lastPowerChange (driver s) ALERT) < 1 <<' 28) (l ++ [i]) →
  POWER_SAMPLE_IGNORE_CURRENT <= u32 (t_since i - lastPowerChange (driver s) ALERT) →
  ∃ n, (n <= S (length l))%nat ∧ powerMode (driver (checks b (take n (l ++ [i])) s)) = OVERLOAD.
Proof.
  induction l as [|j l IH]; intros s i Hm Hl Ht.
  - apply Forall_cons in Hl as [[Hb H28] _]. exists 1%nat. split; [done|]. simpl.
    destruct (alert_bad b i s Hm Hb H28) as [?|(_ & _ & ? & _)]; [done|lia].
  - simpl in Hl. apply Forall_cons in Hl as [[Hb H28] Hl].
    destruct (alert_bad b j s Hm Hb H28) as [Hov|(Ha & Hs & _ & Hbad)]; [by exists 1%nat; split; [lia|]|].
    destruct (IH (checkPowerOverload b j s) i Ha) as (n & Hn & Hov); [|by rewrite Hs|].
    + eapply Forall_impl; [exact Hl|]. intros k [Hk1 Hk2]. split; [by apply Hbad|by rewrite Hs].
    + exists (S n). split; [simpl; lia|]. done.
Qed.

(** * Theorems *)

(** Safety of the power pins: whatever is done with a driver after it has
    been made and switched off, its power pin is at the level of its power
    mode (on in ON and ALERT, off in OFF and OVERLOAD), and the overload check
    makes only the documented changes: it never leaves OFF, and power that was
    cut comes back through ALERT only. *)
Lemma power_pin_follows_mode d now s l :
  let s1 := run l (fresh d now s) in
  pin_ok s1 ∧ ∀ b i, documented (powerMode (driver s1)) (powerMode (driver (checkPowerOverload b i s1))).
Proof.
  cbv zeta. split; [|intros b i; apply checked_mode, check_checked].
  unfold run. assert (∀ s, pin_ok s → pin_ok (fold_left (λ s o, run_op o s) l s)) as H; [|apply H, fresh_pin].
  induction l as [|o l IH]; intros s0 Hs0; [done|]. simpl. by apply IH, run_op_pin.
Qed.

(** C13. Liveness of the short circuit protection: if every check of a driver
    that is ON reads a fault or a current at its limit, and one of the checks
    comes 100 ms or more after the first one, the driver has been switched to
    OVERLOAD by then (the checks all within 268 s of the first). *)
Theorem short_circuit_is_cut b s first l i : powerMode (driver s) = ON →
  bad b (driver s) first → Forall (λ j, bad b (driver s) j ∧ u32 (t_since j - t_set first) < 1 <<' 28) (l ++ [i]) →
  POWER_SAMPLE_IGNORE_CURRENT <= u32 (t_since i - t_set first) →
  ∃ n, (n <= S (length l))%nat ∧
    powerMode (driver (checks b (first :: take n (l ++ [i])) s)) = OVERLOAD.
Proof.
  intros Hm Hb Hl Ht. destruct (on_bad b first s Hm Hb) as (Ha & Hs & Hbad).
  apply (alert_run b l (checkPowerOverload b first s) i Ha); [|by rewrite Hs].
  eapply Forall_impl; [exact Hl|]. intros k [Hk1 Hk2]. split; [by apply Hbad|by rewrite Hs].
Qed.

(** C14. Bounds of the pauses: while a driver that has its own fault pin is in
    OVERLOAD, the check keeps the power off until more than its waiting time
    has passed since the power was cut; then it goes to ALERT with the waiting
    time doubled, and 10 s at most. *)
Theorem overload_backoff b i s : powerMode (driver s) = OVERLOAD → commonFaultPin (driver s) = false →
  0 <= power_sample_overload_wait (driver s) <= POWER_SAMPLE_RETRY_MAX →
  let s' := checkPowerOverload b i s in
  let wait := power_sample_overload_wait (driver s) in
  if u32 (t_since i - lastPowerChange (driver s) OVERLOAD) >? wait
  then powerMode (driver s') = ALERT ∧
       power_sample_overload_wait (driver s') = Z.min (2 * wait) POWER_SAMPLE_RETRY_MAX
  else powerMode (driver s') = OVERLOAD ∧ power_sample_overload_wait (driver s') = wait ∧
       out s' = out s.
Proof.
  intros Hm Hc Hw. cbv zeta. unfold checkPowerOverload. rewrite Hm. unfold check_overload. simpl. rewrite Hc.
  unfold microsSinceLastPowerChange. simpl.
  assert (∀ n a m s, power_sample_overload_wait (driver (setPower n a m s)) = power_sample_overload_wait (driver s)) as Hset.
  { intros n a m s0. unfold setPower. destruct (decide _); [done|].
    repeat (destruct (decide _); simpl); repeat (destruct (currentPin _ =? _); simpl);
      by repeat (destruct (isProgTrack _); simpl). }
  unfold POWER_SAMPLE_RETRY_MAX in *. set (w := power_sample_overload_wait (driver s)) in *.
  assert (u32 (w * 2) = w * 2) as Ew by (apply u32_id; unfold is_u32; lia).
  destruct (u32 (t_since i - lastPowerChange (driver s) OVERLOAD) >? 1 <<' 28); simpl; fold w; rewrite ?Ew;
    (destruct (_ >? w) eqn:E; [split; [apply setPower_mode|]; rewrite Hset; simpl; destruct (w * 2 >? 10000000) eqn:?; lia|done]).
Qed.

(** ** Witnesses *)

Definition a_driver : MotorDriver := construct OFF (λ _, 0) 0 3 12 255 255 54 3000 2000 255 1023 true.
Definition an_input (t c : Z) : Inputs := mkInputs t t t t (mkReading c true) (mkReading c true).
Definition on_state : St := setPower 1000 0 ON (fresh a_driver 10 (mkSt a_driver 0 [])).

Lemma short_circuit_is_cut_witness : ∃ n, (n <= 3)%nat ∧
  powerMode (driver (checks false (an_input 2000 900 :: take n ([an_input 50000 900; an_input 90000 900] ++ [an_input 102000 900])) on_state)) = OVERLOAD.
Proof.
  apply (short_circuit_is_cut false on_state (an_input 2000 900) [an_input 50000 900; an_input 90000 900] (an_input 102000 900)).
  - reflexivity.
  - right. by vm_compute.
  - repeat constructor; try (right; by vm_compute); by vm_compute.
  - by vm_compute.
Defined.

Definition cut_state : St := setPower 2000 0 OVERLOAD on_state.
Lemma overload_backoff_witness :
  powerMode (driver (checkPowerOverload false (an_input 42001 0) cut_state)) = ALERT ∧
  power_sample_overload_wait (driver (checkPowerOverload false (an_input 42001 0) cut_state)) = 80000.
Proof. by apply (overload_backoff false (an_input 42001 0) cut_state). Defined.

End MotorProps.
