(* ===== verification/TrackManager.v ===== *)
(** The track manager (src/TrackManager.h, src/TrackManager.cpp, as compiled for
    a Mega): the list of tracks with their modes, power and DC addresses, the
    <= ...> command, joining, and the reports.  A driver is used through the
    operations of MotorDriver; what the throttles say is read through an
    interface.  Reading a track that does not exist is a failure ([mfail]). *)

From S2P Require Import Prelude Keywords MotorDriver.
From stdpp Require Import strings.
Import Keywords MotorDriver.

#[local] Open Scope Z_scope.
#[local] Open Scope c_scope.

Module TrackManager.

Definition MAX_TRACKS : Z := 8.

(** What the track manager does outside its own state: operations on the pins
    of a track, broadcasts and replies, and calls of other components. *)
Inductive ev :=
  | Track (t : Z) (e : MotorDriver.ev)
  | TrackState (to_stream : bool) (t : Z) (modename : string) (addr : option Z)
  | BroadcastPower
  | ClearPWM                              (* DCCTimer::clearPWM *)
  | SetRailcomPossible (b : bool)         (* DCCWaveform::setRailcomPossible *)
  | JoinRelay (high : bool)
  | NoSuchTrack (t : Z)                   (* the diagnostic of setTrackPower *)
  | Values (l : list Z)                   (* the numbers of a <j..> report *)
  | Screen (row : Z) (t : Z) (modename : string) (addr : option Z) (mA : option Z)
  | Districts (row n mA : Z).

(** The statics of the class, the static of the motor drivers, and the trace. *)
Record St := mkSt {
  track : list (option MotorDriver);
  trackDCAddr : list Z;
  trackPwrMA : list Z;
  lastTrack : Z;
  progTrackSyncMain : bool;
  progTrackBoosted : bool;
  joinRelay : Z;
  nextCycleTrack : Z;
  globalOverloadStart : Z;
  out : list ev;
}.

Definition with_track (x : list (option MotorDriver)) (r : St) : St :=
  mkSt x (trackDCAddr r) (trackPwrMA r) (lastTrack r) (progTrackSyncMain r) (progTrackBoosted r)
    (joinRelay r) (nextCycleTrack r) (globalOverloadStart r) (out r).
Definition with_trackDCAddr (x : list Z) (r : St) : St :=
  mkSt (track r) x (trackPwrMA r) (lastTrack r) (progTrackSyncMain r) (progTrackBoosted r) (joinRelay r)
    (nextCycleTrack r) (globalOverloadStart r) (out r).
Definition with_trackPwrMA (x : list Z) (r : St) : St :=
  mkSt (track r) (trackDCAddr r) x (lastTrack r) (progTrackSyncMain r) (progTrackBoosted r) (joinRelay r)
    (nextCycleTrack r) (globalOverloadStart r) (out r).
Definition with_lastTrack (x : Z) (r : St) : St :=
  mkSt (track r) (trackDCAddr r) (trackPwrMA r) x (progTrackSyncMain r) (progTrackBoosted r) (joinRelay
    r) (nextCycleTrack r) (globalOverloadStart r) (out r).
Definition with_progTrackSyncMain (x : bool) (r : St) : St :=
  mkSt (track r) (trackDCAddr r) (trackPwrMA r) (lastTrack r) x (progTrackBoosted r) (joinRelay r)
    (nextCycleTrack r) (globalOverloadStart r) (out r).
Definition with_progTrackBoosted (x : bool) (r : St) : St :=
  mkSt (track r) (trackDCAddr r) (trackPwrMA r) (lastTrack r) (progTrackSyncMain r) x (joinRelay r)
    (nextCycleTrack r) (globalOverloadStart r) (out r).
Definition with_joinRelay (x : Z) (r : St) : St :=
  mkSt (track r) (trackDCAddr r) (trackPwrMA r) (lastTrack r) (progTrackSyncMain r) (progTrackBoosted r)
    x (nextCycleTrack r) (globalOverloadStart r) (out r).
Definition with_nextCycleTrack (x : Z) (r : St) : St :=
  mkSt (track r) (trackDCAddr r) (trackPwrMA r) (lastTrack r) (progTrackSyncMain r) (progTrackBoosted r)
    (joinRelay r) x (globalOverloadStart r) (out r).
Definition with_globalOverloadStart (x : Z) (r : St) : St :=
  mkSt (track r) (trackDCAddr r) (trackPwrMA r) (lastTrack r) (progTrackSyncMain r) (progTrackBoosted r)
    (joinRelay r) (nextCycleTrack r) x (out r).
Definition with_out (x : list ev) (r : St) : St :=
  mkSt (track r) (trackDCAddr r) (trackPwrMA r) (lastTrack r) (progTrackSyncMain r) (progTrackBoosted r)
    (joinRelay r) (nextCycleTrack r) (globalOverloadStart r) x.

(** What is read from the pins and the clock during one operation. *)
Record Env := mkEnv {
  micros : Z;
  adcs : Z → Z;                           (* the current pin of a track *)
  faults : Z → bool;                      (* its fault pin *)
}.
Definition reading_of (e : Env) (t : Z) : reading := mkReading (adcs e t) (faults e t).
Definition inputs_of (e : Env) (t : Z) : Inputs :=
  mkInputs (micros e) (micros e) (micros e) (micros e) (reading_of e t) (reading_of e t).

(** DCC::getLocoSpeedByte and DCC::getThrottleFrequency. *)
Class Throttles := { getLocoSpeedByte : Z → Z; getThrottleFrequency : Z → Z }.

Section TrackManager.
Context `{Board} `{Throttles}.

Definition emit (e : ev) : M St unit := mmod (λ s, with_out (out s ++ [e]) s).

(** Dereference of [track[t]], and an operation on it. *)
Definition driver_at (s : St) (t : Z) : option MotorDriver := mjoin (track s !! Z.to_nat t).
Definition deref (t : Z) : M St MotorDriver := λ s, d ← driver_at s t; Some (d, s).
Definition on (t : Z) (f : MotorDriver.St → MotorDriver.St) : M St unit := λ s,
  d ← driver_at s t;
  let r := f (MotorDriver.mkSt d (globalOverloadStart s) []) in
  Some (tt, with_out (out s ++ (Track t <$> MotorDriver.out r))
    (with_globalOverloadStart (MotorDriver.globalOverloadStart r)
      (with_track (<[Z.to_nat t := Some (MotorDriver.driver r)]> (track s)) s))).
Definition dc_addr (t : Z) : M St Z := λ s, a ← trackDCAddr s !! Z.to_nat t; Some (a, s).
Definition set_dc_addr (t a : Z) : M St unit :=
  mmod (λ s, with_trackDCAddr (<[Z.to_nat t := a]> (trackDCAddr s)) s).

(** FOR_EACH_TRACK *)
Definition tracks (s : St) : list Z := rangeZ 0 (lastTrack s + 1).
Definition for_each_track (f : Z → M St unit) : M St unit :=
  let! l := mget tracks in mfor l f.
Definition has (d : MotorDriver) (m : Z) : bool := tru (trackMode d .& m).
Definition apply_by_mode (findmode : Z) (f : MotorDriver.St → MotorDriver.St) : M St unit :=
  for_each_track (λ t, let! d := deref t in when has d findmode do on t f).

(** * Signals *)

Definition setDCCSignal (b : bool) : M St unit := apply_by_mode TRACK_MODE_MAIN (setSignal b).
Definition setPROGSignal (b : bool) : M St unit := apply_by_mode TRACK_MODE_PROG (setSignal b).

Definition setDCSignal (cab speedbyte : Z) : M St unit :=
  for_each_track (λ t,
    let! a := dc_addr t in
    if negb (a =? cab) && negb (cab =? 0) then mreturn tt else
    let! d := deref t in
    when has d TRACK_MODE_DC do on t (MotorDriver.setDCSignal speedbyte (getThrottleFrequency a))).

Definition applyDCSpeed (t : Z) : M St unit :=
  let! a := dc_addr t in
  on t (MotorDriver.setDCSignal (getLocoSpeedByte a) (getThrottleFrequency a)).

(** * State of a track *)

Definition getModeName (tm : Z) : string :=
  let has_ m := tru (tm .& m) in
  if has_ TRACK_MODE_MAIN then
    if has_ TRACK_MODIFIER_AUTO then "MAIN A" else if has_ TRACK_MODIFIER_INV then "MAIN I" else "MAIN"
  else if has_ TRACK_MODE_PROG then "PROG"
  else if has_ TRACK_MODE_NONE then "NONE"
  else if has_ TRACK_MODE_EXT then "EXT"
  else if has_ TRACK_MODE_BOOST then
    if has_ TRACK_MODIFIER_AUTO then "BOOST A" else if has_ TRACK_MODIFIER_INV then "BOOST I" else "BOOST"
  else if has_ TRACK_MODE_DC then if has_ TRACK_MODIFIER_INV then "DCX" else "DC"
  else "---".

(** A reply on a stream, or a broadcast when there is none. *)
Definition streamTrackState (to_stream : bool) (t : Z) : M St unit :=
  let! d := mget (λ s, driver_at s t) in
  match d with
  | None => mreturn tt
  | Some d =>
    let! a := dc_addr t in
    emit (TrackState to_stream t (getModeName (trackMode d)) (if has d TRACK_MODE_DC then Some a else None)) ;;;
    when negb to_stream do emit BroadcastPower
  end.

(** * Changing the mode *)

(** "re-evaluate HighAccuracy mode": [None] is the break of the first loop. *)
Fixpoint ha_loop (l : list Z) (canDo : bool) : M St bool :=
  match l with
  | [] => mreturn canDo
  | t :: l =>
    let! d := deref t in
    if has d TRACK_MODE_DC then
      if isPWMCapable d then mreturn false
      else on t (setTrackPWM false) ;;; ha_loop l canDo
    else if has d (TRACK_MODE_MAIN .| TRACK_MODE_PROG) then
      on t (setTrackPWM (isPWMCapable d)) ;;; ha_loop l (canDo && isPWMCapable d)
    else ha_loop l canDo
  end.

Definition ha_mode : M St unit :=
  let! l := mget tracks in
  let! canDo := ha_loop l true in
  (when negb canDo do
     (for_each_track (λ t, on t (setTrackPWM false)) ;;;
      emit ClearPWM)) ;;;
  emit (SetRailcomPossible canDo).

(** "only allow 1 track to be prog" *)
Definition revoke_prog (e : Env) (trackToSet : Z) : M St unit :=
  for_each_track (λ t,
    let! d := deref t in
    when has d TRACK_MODE_PROG && negb (t =? trackToSet) do
      (on t (setPower (micros e) (adcs e t) OFF) ;;;
       on t (setMode TRACK_MODE_NONE) ;;;
       on t (makeProgTrack false) ;;;
       streamTrackState false t)).

Definition setTrackMode (e : Env) (trackToSet mode dcAddr : Z) (offAtChange : bool) : M St bool :=
  let! exists_ := mget (λ s, (trackToSet <=? lastTrack s) && bool_decide (is_Some (driver_at s trackToSet))) in
  if negb exists_ then mreturn false else
  let! d := deref trackToSet in
  let oldmode := trackMode d in
  let dc := tru (mode .& TRACK_MODE_DC) in
  if dc && negb (brakeCanPWM d) then mreturn false else
  (if tru (mode .& TRACK_MODE_PROG)
   then revoke_prog e trackToSet ;;; on trackToSet (makeProgTrack true)
   else on trackToSet (makeProgTrack false)) ;;;
  (if dc then
     let! a := dc_addr trackToSet in
     (when negb (a =? dcAddr) && negb (a =? 0) do on trackToSet detachDCSignal) ;;;
     set_dc_addr trackToSet dcAddr
   else
     on trackToSet detachDCSignal ;;;
     on trackToSet (setBrake false) ;;;
     set_dc_addr trackToSet 0) ;;;
  on trackToSet (setMode mode) ;;;
  (when negb (tru (mode .& TRACK_MODE_BOOST)) do
     on trackToSet (enableSignal (negb (tru (mode .& TRACK_MODE_EXT))))) ;;;
  ha_mode ;;;
  (when dc do applyDCSpeed trackToSet) ;;;
  (when negb (mode =? oldmode) && offAtChange do
     on trackToSet (setPower (micros e) (adcs e trackToSet) OFF)) ;;;
  streamTrackState false trackToSet ;;;
  mreturn true.

(** * Setting up *)

Definition addTrack (e : Env) (t : Z) (driver : option MotorDriver) : M St unit :=
  mmod (λ s, with_track (<[Z.to_nat t := driver]> (track s)) s) ;;;
  match driver with
  | None => mreturn tt
  | Some _ =>
    on t (setPower (micros e) (adcs e t) OFF) ;;;
    on t (setMode TRACK_MODE_NONE) ;;;
    mmod (with_lastTrack t)
  end.

(** The pairs of tracks with a common fault pin. *)
Definition common_fault (t s : Z) : M St unit :=
  let! dt := deref t in
  let! ds := deref s in
  when negb (faultPin dt =? UNUSED_PIN) && (faultPin dt =? faultPin ds) do
    (on t setCommonFaultPin ;;; on s setCommonFaultPin).

Definition Setup (e : Env) (drivers : list (option MotorDriver)) : M St unit :=
  mfor (rangeZ 0 MAX_TRACKS) (λ t, addTrack e t (mjoin (drivers !! Z.to_nat t))) ;;;
  setTrackMode e 0 TRACK_MODE_MAIN 0 true ;;;
  setTrackMode e 1 TRACK_MODE_PROG 0 true ;;;
  for_each_track (λ t,
    let! last := mget lastTrack in
    mfor (rangeZ (t + 1) (last - t)) (λ s, common_fault t s)).

(** * The <= ...> command; [p] are the parameters *)

Definition parseEqualSign (e : Env) (p : list Z) : M St bool :=
  let set t mode dc := setTrackMode e (u8 t) mode dc true in
  match p with
  | [] => for_each_track (streamTrackState true) ;;; mreturn true
  | p0 :: rest =>
    let p0 := i16 (p0 - hk "A") in
    if bool_decide (rest ≠ []) && ((p0 <? 0) || (p0 >=? MAX_TRACKS)) then mreturn false else
    match rest with
    | [p1] =>
      if p1 =? hk "MAIN" then set p0 TRACK_MODE_MAIN 0
      else if p1 =? hk "MAIN_INV" then set p0 TRACK_MODE_MAIN_INV 0
      else if p1 =? hk "MAIN_AUTO" then set p0 TRACK_MODE_MAIN_AUTO 0
      else if p1 =? hk "PROG" then set p0 TRACK_MODE_PROG 0
      else if (p1 =? hk "OFF") || (p1 =? hk "NONE") then set p0 TRACK_MODE_NONE 0
      else if p1 =? hk "EXT" then set p0 TRACK_MODE_EXT 0
      else if p1 =? hk "AUTO" then
        let! d := deref p0 in set p0 (trackMode d .| TRACK_MODIFIER_AUTO) 0
      else if p1 =? hk "INV" then
        let! d := deref p0 in set p0 (trackMode d .| TRACK_MODIFIER_INV) 0
      else mreturn false
    | [p1; p2] =>
      if (p1 =? hk "DC") && (p2 >? 0) then set p0 TRACK_MODE_DC p2
      else if ((p1 =? hk "DC_INV") || (p1 =? hk "DCX")) && (p2 >? 0) then set p0 TRACK_MODE_DC_INV p2
      else mreturn false
    | _ => mreturn false
    end
  end.

(** * Power *)

Definition TRACK_ALL : Z :=
  TRACK_MODE_MAIN .| TRACK_MODE_PROG .| TRACK_MODE_DC .| TRACK_MODE_EXT .| TRACK_MODE_BOOST.

(** What switching a track on does before the power pin is set. *)
Definition before_on (t : Z) (d : MotorDriver) : M St unit :=
  on t (setBrake true) ;;;
  if has d TRACK_MODE_DC then applyDCSpeed t else on t (setBrake false).

(** All tracks with one of the modes. *)
Definition setTrackPower (e : Env) (trackmodeToMatch : Z) (powermode : POWERMODE) : M St unit :=
  let! l := mget tracks in
  let! didChange := mfold (λ t (didChange : bool),
    let! d := deref t in
    if negb (has d trackmodeToMatch) then mreturn didChange else
    (when bool_decide (powermode = ON) do before_on t d) ;;;
    on t (setPower (micros e) (adcs e t) powermode) ;;;
    mreturn (didChange || bool_decide (powermode ≠ powerMode d))) l false in
  when didChange do emit BroadcastPower.

(** One track. *)
Definition setOneTrackPower (e : Env) (powermode : POWERMODE) (t : Z) : M St unit :=
  let! d := mget (λ s, track s !! Z.to_nat t) in
  match d with
  | None => Prelude.mfail
  | Some None => emit (NoSuchTrack t)
  | Some (Some d) =>
    let! powermode :=
      (if has d TRACK_MODE_NONE then on t (setBrake true) ;;; mreturn OFF
       else (when bool_decide (powermode = ON) do before_on t d) ;;; mreturn powermode) in
    on t (setPower (micros e) (adcs e t) powermode) ;;;
    let! d' := deref t in
    when bool_decide (powerMode d ≠ powerMode d') do emit BroadcastPower
  end.

Definition setMainPower (e : Env) (mode : POWERMODE) : M St unit := setTrackPower e TRACK_MODE_MAIN mode.
Definition setProgPower (e : Env) (mode : POWERMODE) : M St unit := setTrackPower e TRACK_MODE_PROG mode.
Definition setPower_ (e : Env) (mode : POWERMODE) : M St unit := setMainPower e mode ;;; setProgPower e mode.

Fixpoint prog_loop (l : list Z) : M St (option (Z * MotorDriver)) :=
  match l with
  | [] => mreturn None
  | t :: l => let! d := deref t in if has d TRACK_MODE_PROG then mreturn (Some (t, d)) else prog_loop l
  end.
Definition getProgDriver : M St (option (Z * MotorDriver)) := let! l := mget tracks in prog_loop l.
Definition getProgPower : M St POWERMODE :=
  let! r := getProgDriver in mreturn (match r with Some (_, d) => powerMode d | None => OFF end).

Fixpoint main_loop (l : list Z) (result : POWERMODE) : M St POWERMODE :=
  match l with
  | [] => mreturn result
  | t :: l =>
    let! d := deref t in
    if negb (has d TRACK_MODE_MAIN) then main_loop l result
    else if decide (powerMode d = OFF) then mreturn OFF
    else main_loop l (if decide (powerMode d = ON) then ON else result)
  end.
Definition getMainPower : M St POWERMODE := let! l := mget tracks in main_loop l OFF.

(** [getPower(t, s)]: the two characters it fills in. *)
Definition getPowerString (t : Z) (s : St) : option (bool * Z) :=
  if t >? lastTrack s then None else
  d ← driver_at s t; Some (bool_decide (powerMode d = ON), t).

Definition getPower (t : Z) : M St POWERMODE := let! d := deref t in mreturn (powerMode d).
Definition isPowerOn (t : Z) : M St bool := let! d := deref t in mreturn (bool_decide (powerMode d = ON)).
Definition isProg (t : Z) : M St bool := let! d := deref t in mreturn (has d TRACK_MODE_PROG).
Definition getMode (t : Z) : M St Z := let! d := deref t in mreturn (trackMode d).
Definition isActive (t : Z) : M St bool :=
  let! last := mget lastTrack in
  if t >? last then mreturn false else let! d := deref t in mreturn (has d TRACK_ALL).

(** * The loop: one driver is checked each time round; [ackActive] is
    DCCACK::isActive() after DCCACK::loop() *)

Definition loop (e : Env) (ackActive : bool) : M St unit :=
  let! dontLimitProg := mget (λ s, ackActive || progTrackSyncMain s || progTrackBoosted s) in
  mmod (λ s, with_nextCycleTrack (u8 (nextCycleTrack s + 1)) s) ;;;
  mmod (λ s, if nextCycleTrack s >? lastTrack s then with_nextCycleTrack 0 s else s) ;;;
  let! t := mget nextCycleTrack in
  let! d := mget (λ s, driver_at s t) in
  match d with
  | None => mreturn tt
  | Some d =>
    let useProgLimit := if dontLimitProg : bool then false else has d TRACK_MODE_PROG in
    on t (checkPowerOverload useProgLimit (inputs_of e t))
  end.

(** * Joining and reports *)

Definition setJoinRelayPin (pin : Z) : M St unit :=
  mmod (with_joinRelay pin) ;;; when negb (pin =? UNUSED_PIN) do emit (JoinRelay false).

Definition setJoin (joined : bool) : M St unit :=
  mmod (with_progTrackSyncMain joined) ;;;
  let! pin := mget joinRelay in
  when negb (pin =? UNUSED_PIN) do emit (JoinRelay joined).

Definition current_mA (e : Env) (t : Z) (d : MotorDriver) : Z := raw2mA d (getCurrentRaw d (reading_of e t)).
Definition report (f : Z → MotorDriver → Z) : M St unit :=
  let! l := mget tracks in
  let! v := mfold (λ t v, let! d := deref t in mreturn (v ++ [f t d])) l [] in
  emit (Values v).
Definition reportCurrent (e : Env) : M St unit :=
  report (λ t d, if decide (powerMode d = OVERLOAD) then -1 else current_mA e t d).
Definition reportGauges : M St unit := report (λ _ d, raw2mA d (rawCurrentTripValue d)).
Definition reportObsoleteCurrent (e : Env) : M St unit :=
  let! d := deref 0 in
  let maxCurrent := raw2mA d (rawCurrentTripValue d) in
  emit (Values [current_mA e 0 d; maxCurrent; maxCurrent]).

(** The meter of a track keeps four times a running average. *)
Definition smooth (old sample : Z) : Z := i16 (Z.shiftr (3 * old) 2 + sample).
Definition reportCurrentLCD (e : Env) (row : Z) : M St unit :=
  let! l := mget tracks in
  let! total := mfold (λ t total,
    let! d := deref t in
    let! a := dc_addr t in
    let addr := if has d TRACK_MODE_DC then Some a else None in
    let name := getModeName (trackMode d) in
    if bool_decide (powerMode d = ON) then
      let! old := (λ s, x ← trackPwrMA s !! Z.to_nat t; Some (x, s)) in
      let now := smooth old (current_mA e t d) in
      mmod (λ s, with_trackPwrMA (<[Z.to_nat t := now]> (trackPwrMA s)) s) ;;;
      emit (Screen (u8 (row + t)) t name addr (Some (Z.shiftr now 2))) ;;;
      mreturn (i16 (total + now))
    else
      mmod (λ s, with_trackPwrMA (<[Z.to_nat t := 0]> (trackPwrMA s)) s) ;;;
      emit (Screen (u8 (row + t)) t name addr None) ;;;
      mreturn total) l 0 in
  let! last := mget lastTrack in
  emit (Districts (u8 (row + last + 1)) (last + 1) (Z.shiftr total 2)).

End TrackManager.

Definition init : St :=
  mkSt (replicate 8 None) (replicate 8 0) (replicate 8 0) (-1) false false UNUSED_PIN MAX_TRACKS 0 [].

End TrackManager.
