(* ===== verification/TrackProps.v ===== *)
(** What the track manager guarantees: an invariant of the tracks that every
    operation keeps, and the effect of changing the mode of a track. *)

From S2P Require Import Prelude Keywords MotorDriver MotorProps TrackManager.
From stdpp Require Import strings.
Import Keywords MotorDriver MotorProps TrackManager.

#[local] Open Scope Z_scope.
#[local] Open Scope c_scope.

Module TrackProps.

(** * Driver operations only append to the trace *)

Definition pre (l : list MotorDriver.ev) (r : MotorDriver.St) : MotorDriver.St :=
  MotorDriver.with_out (l ++ MotorDriver.out r) r.
Definition framed (f : MotorDriver.St → MotorDriver.St) : Prop := ∀ l r, f (pre l r) = pre l (f r).

Lemma framed_start f d g l : framed f →
  f (MotorDriver.mkSt d g l) = pre l (f (MotorDriver.mkSt d g [])).
Proof. intros Hf. rewrite <-Hf. unfold pre, MotorDriver.with_out. simpl. by rewrite app_nil_r. Qed.
Lemma framed_emit e : framed (MotorDriver.emit e).
Proof. intros l r. unfold MotorDriver.emit, pre. simpl. by rewrite app_assoc. Qed.
Lemma framed_upd g : framed (upd g).
Proof. done. Qed.
Lemma framed_global g : framed (MotorDriver.with_globalOverloadStart g).
Proof. done. Qed.
Lemma framed_setSignal b : framed (setSignal b).
Proof. unfold setSignal. intros l r. apply framed_emit. Qed.
Lemma framed_setBrake b : framed (setBrake b).
Proof. unfold setBrake. intros l r. cbn. destruct (_ =? _); [done|apply framed_emit]. Qed.
Lemma framed_setDCSignal a b : framed (MotorDriver.setDCSignal a b).
Proof.
  unfold MotorDriver.setDCSignal. intros l r. cbn -[MotorDriver.emit setSignal dc_brake pre].
  change (driver (pre l r)) with (driver r). destruct (_ =? _); [done|].
  by rewrite !framed_emit, framed_setSignal.
Qed.
Lemma framed_throttleInrush b : framed (throttleInrush b).
Proof.
  unfold throttleInrush. intros l r. change (driver (pre l r)) with (driver r).
  destruct (_ =? _); [done|]. destruct (negb _); [done|]. by destruct b; rewrite !framed_emit.
Qed.
Lemma framed_setPower n a m : framed (setPower n a m).
Proof.
  unfold setPower. intros l r. change (driver (pre l r)) with (driver r).
  destruct (decide (powerMode (driver r) = m)); [done|]. rewrite framed_upd.
  set (r1 := upd _ r). clearbody r1.
  destruct (decide (m = OVERLOAD)); [rewrite framed_global; set (r2 := MotorDriver.with_globalOverloadStart n r1); clearbody r2; clear r1|rename r1 into r2];
  change (driver (pre l r2)) with (driver r2);
  (destruct (decide (m = ON ∨ m = ALERT)); [|by rewrite framed_emit]);
  (destruct (decide (powerMode (driver r2) = OFF)); [destruct (currentPin _ =? _)|]);
  rewrite ?framed_upd, !framed_emit; by destruct (isProgTrack _); rewrite ?framed_emit.
Qed.

Lemma frame_checkFault x l r : checkFault x (pre l r) = ((checkFault x r).1, pre l (checkFault x r).2).
Proof. done. Qed.
Lemma frame_checkCurrent b x l r :
  checkCurrent b x (pre l r) = ((checkCurrent b x r).1, pre l (checkCurrent b x r).2).
Proof. done. Qed.
Lemma frame_micros n m l r : microsSinceLastPowerChange n m (pre l r) =
  ((microsSinceLastPowerChange n m r).1, pre l (microsSinceLastPowerChange n m r).2).
Proof. unfold microsSinceLastPowerChange. simpl. by destruct (_ >? _). Qed.

Lemma framed_toggleOutput : framed toggleOutput.
Proof. done. Qed.

Lemma framed_check_on b i : framed (check_on b i).
Proof.
  intros l r. unfold check_on. rewrite framed_upd. set (r0 := upd _ r). clearbody r0.
  rewrite frame_checkFault. destruct (checkFault _ r0) as [cF r1]. cbn [fst snd].
  rewrite frame_checkCurrent. destruct (checkCurrent _ _ r1) as [cC r2]. cbn [fst snd].
  destruct (cF || cC).
  - rewrite !framed_setPower. set (r3 := setPower _ _ _ r2). clearbody r3. change (driver (pre l r3)) with (driver r3).
    by destruct (_ && _); [rewrite framed_toggleOutput|].
  - rewrite frame_micros. destruct (microsSinceLastPowerChange _ _ r2) as [w r3]. cbn [fst snd]. by destruct (_ >? _).
Qed.

Lemma framed_check_overload i : framed (check_overload i).
Proof.
  intros l r. unfold check_overload. rewrite framed_upd. set (r0 := upd _ r). clearbody r0.
  change (driver (pre l r0)) with (driver r0). change (MotorDriver.globalOverloadStart (pre l r0)) with (MotorDriver.globalOverloadStart r0).
  rewrite frame_micros.
  destruct (commonFaultPin _); [|destruct (microsSinceLastPowerChange _ _ r0) as [w r3]]; cbn [fst snd];
    match goal with |- context [driver (pre l ?x)] => change (driver (pre l x)) with (driver x) end;
    (destruct (_ >? power_sample_overload_wait _); [|done]); by rewrite framed_upd, framed_emit, framed_setPower.
Qed.

Lemma framed_check_alert b i : framed (check_alert b i).
Proof.
  intros l r. unfold check_alert. change (driver (pre l r)) with (driver r).
  set (r0 := if decide (powerMode (driver r) = lastPowerMode (driver r)) then r else _).
  replace (if decide (powerMode (driver r) = lastPowerMode (driver r)) then pre l r else _) with (pre l r0)
    by (subst r0; by destruct (decide _)).
  clearbody r0. rewrite framed_upd. set (r1 := upd _ r0). clearbody r1.
  rewrite frame_micros. destruct (microsSinceLastPowerChange _ _ r1) as [w r2]. cbn [fst snd].
  rewrite frame_checkFault. destruct (checkFault _ r2) as [cF r3]. cbn [fst snd]. destruct cF.
  - rewrite framed_throttleInrush, framed_upd. set (r4 := upd _ _). clearbody r4.
    rewrite frame_checkCurrent. destruct (checkCurrent _ _ r4) as [cC r5]. cbn [fst snd].
    destruct (w <? _); [done|]. by rewrite framed_throttleInrush, framed_setPower.
  - rewrite frame_checkCurrent. destruct (checkCurrent _ _ r3) as [cC r4]. cbn [fst snd]. destruct cC.
    + rewrite framed_upd. destruct (w <? _); [done|]. by rewrite framed_throttleInrush, framed_setPower.
    + change (driver (pre l r4)) with (driver r4).
      destruct (_ >? _); [by rewrite framed_throttleInrush, framed_setPower|].
      destruct (_ >? _); [by rewrite framed_throttleInrush|done].
Qed.

Lemma framed_checkPowerOverload b i : framed (checkPowerOverload b i).
Proof.
  intros l r. unfold checkPowerOverload. change (driver (pre l r)) with (driver r).
  destruct (powerMode (driver r));
    [done|apply framed_check_on|apply framed_check_overload|apply framed_check_alert].
Qed.

(** * What an operation of a driver may change of its role *)

Definition role (r : MotorDriver.St) : Z * bool * Z * Z * bool :=
  let d := driver r in (trackMode d, isProgTrack d, brakePin d, signalPin d, dualSignal d).

Lemma role_emit e r : role (MotorDriver.emit e r) = role r.
Proof. done. Qed.
Lemma role_setBrake b r : role (setBrake b r) = role r.
Proof. unfold setBrake. by destruct (_ =? _). Qed.
Lemma role_setDCSignal a b r : role (MotorDriver.setDCSignal a b r) = role r.
Proof. unfold MotorDriver.setDCSignal. by destruct (_ =? _). Qed.
Lemma role_throttleInrush b r : role (throttleInrush b r) = role r.
Proof. unfold throttleInrush. destruct (_ =? _); [done|]. destruct (negb _); [done|]. by destruct b. Qed.
Lemma role_setPower n a m r : role (setPower n a m r) = role r.
Proof.
  unfold setPower. destruct (decide _); [done|].
  repeat (match goal with |- context [if ?c then _ else _] => destruct c end; try done).
Qed.
Lemma role_toggleOutput r : role (toggleOutput r) = role r.
Proof. done. Qed.

Lemma role_upd g r : (∀ d, role (MotorDriver.with_driver (g d) r) = role (MotorDriver.with_driver d r)) → role (upd g r) = role r.
Proof. intros H. exact (H (driver r)). Qed.
Lemma role_checkFault x r : role (checkFault x r).2 = role r.
Proof. done. Qed.
Lemma role_checkCurrent b x r : role (checkCurrent b x r).2 = role r.
Proof. done. Qed.
Lemma role_micros n m r : role (microsSinceLastPowerChange n m r).2 = role r.
Proof. unfold microsSinceLastPowerChange. simpl. by destruct (_ >? _). Qed.

(** Rewrites with the facts above, taking the measurements apart one by one. *)
Ltac role_pair p lem :=
  let H := fresh "R" in pose proof lem as H; destruct p; cbn [snd] in H.
Ltac role := repeat first
  [ reflexivity | assumption
  | rewrite role_setPower | rewrite role_throttleInrush | rewrite role_toggleOutput | rewrite role_emit
  | rewrite role_upd by reflexivity
  | match goal with
    | |- context [checkFault ?x ?r] => role_pair constr:(checkFault x r) (role_checkFault x r)
    | |- context [checkCurrent ?b ?x ?r] => role_pair constr:(checkCurrent b x r) (role_checkCurrent b x r)
    | |- context [microsSinceLastPowerChange ?n ?m ?r] =>
      role_pair constr:(microsSinceLastPowerChange n m r) (role_micros n m r)
    | |- context [if ?c then _ else _] => destruct c
    | H : role ?r = _ |- role ?r = _ => rewrite H; clear H
    end ].

Lemma role_check b i r : role (checkPowerOverload b i r) = role r.
Proof.
  unfold checkPowerOverload, check_on, check_alert, check_overload. destruct (powerMode (driver r)); role.
Qed.

(** * The view of the tracks *)

Section tracks.
Context `{Board} `{Throttles}.

(** What matters of a driver: mode, whether it knows that it is the programming
    track, power, and whether it could run DC. *)
Record tv := mkV { v_mode : Z; v_prog : bool; v_power : POWERMODE; v_can : bool }.
Definition viewd (d : MotorDriver) : tv := mkV (trackMode d) (isProgTrack d) (powerMode d) (brakeCanPWM d).
Definition vat (s : St) (t : Z) : option tv := viewd <$> driver_at s t.

(** The operations done on a track, and its power pin. *)
Definition trace (t : Z) (l : list ev) : list MotorDriver.ev :=
  omap (λ e, match e with Track t' e' => if t' =? t then Some e' else None | _ => None end) l.
Definition pins_ok (s : St) : Prop :=
  ∀ t d, 0 <= t → driver_at s t = Some d → pin_ok (MotorDriver.mkSt d 0 (trace t (out s))).

(** The views change by [h], track by track, and the DC addresses by [fa]. *)
Record step (h : Z → tv → tv) (fa : list Z → list Z) (s s' : St) : Prop := {
  st_vat : ∀ t, 0 <= t → vat s' t = h t <$> vat s t;
  st_addr : trackDCAddr s' = fa (trackDCAddr s);
  st_last : lastTrack s' = lastTrack s;
  st_len : length (track s') = length (track s);
  st_pwr : length (trackPwrMA s') = length (trackPwrMA s);
  st_pins : pins_ok s → pins_ok s';
}.
Definition same : St → St → Prop := step (λ _ v, v) (λ l, l).

Lemma step_trans h1 h2 f1 f2 s1 s2 s3 : step h1 f1 s1 s2 → step h2 f2 s2 s3 →
  step (λ t v, h2 t (h1 t v)) (λ l, f2 (f1 l)) s1 s3.
Proof.
  intros [V1 A1 L1 N1 P1 Q1] [V2 A2 L2 N2 P2 Q2]. constructor; try congruence; [|auto].
  intros t Ht. rewrite V2, V1 by done. by destruct (vat s1 t).
Qed.
Lemma step_ext h h' f f' s s' : step h f s s' → (∀ t v, h t v = h' t v) → (∀ l, f l = f' l) → step h' f' s s'.
Proof.
  intros [V A L N P Q] Eh Ef. constructor; try done; [|by rewrite A].
  intros t Ht. rewrite V by done. destruct (vat s t); simpl; by rewrite ?Eh.
Qed.
Lemma track_same_refl s : same s s.
Proof. constructor; try done. intros t _. by destruct (vat s t). Qed.
Lemma track_same_trans s1 s2 s3 : same s1 s2 → same s2 s3 → same s1 s3.
Proof. intros H1 H2. exact (step_trans _ _ _ _ _ _ _ H1 H2). Qed.
Lemma step_same h f s1 s2 s3 : step h f s1 s2 → same s2 s3 → step h f s1 s3.
Proof. intros H1 H2. exact (step_trans _ _ _ _ _ _ _ H1 H2). Qed.
Lemma same_step h f s1 s2 s3 : same s1 s2 → step h f s2 s3 → step h f s1 s3.
Proof. intros H1 H2. exact (step_trans _ _ _ _ _ _ _ H1 H2). Qed.

(** A change of anything but the tracks, their addresses and the trace. *)
Lemma same_other s s' : track s' = track s → trackDCAddr s' = trackDCAddr s → lastTrack s' = lastTrack s →
  length (trackPwrMA s') = length (trackPwrMA s) → (∀ t, trace t (out s') = trace t (out s)) → same s s'.
Proof.
  intros Ht Ha Hl Hp Ho. constructor; try congruence.
  - intros t _. unfold vat, driver_at. rewrite Ht. by destruct (viewd <$> _).
  - unfold pins_ok, driver_at. intros Hok t d Hle Hd. rewrite Ho. apply Hok; [done|]. by rewrite <-Ht.
Qed.

Lemma driver_at_put s t t' d : 0 <= t → 0 <= t' → is_Some (driver_at s t) →
  driver_at (with_track (<[Z.to_nat t := Some d]> (track s)) s) t' = if decide (t' = t) then Some d else driver_at s t'.
Proof.
  intros Hle Hle1 [d0 Hd]. unfold driver_at in *. simpl.
  assert (Z.to_nat t < length (track s))%nat as Hlt.
  { destruct (track s !! Z.to_nat t) eqn:E; [by eapply lookup_lt_Some|done]. }
  destruct (decide (t' = t)) as [->|Hn].
  - by rewrite list_lookup_insert_eq.
  - by rewrite list_lookup_insert_ne by lia.
Qed.

Lemma trace_app t l k : trace t (l ++ k) = trace t l ++ trace t k.
Proof. unfold trace. by rewrite omap_app. Qed.
Lemma trace_same t l : trace t (Track t <$> l) = l.
Proof. induction l as [|e l IH]; [done|]. unfold trace in *. cbn. rewrite Z.eqb_refl. f_equal. exact IH. Qed.
Lemma trace_ne t t' l : t' ≠ t → trace t (Track t' <$> l) = [].
Proof.
  intros Hn. induction l as [|e l IH]; [done|]. unfold trace in *. cbn.
  replace (t' =? t) with false by lia. exact IH.
Qed.

(** An operation on a track that exists leaves there what it makes of the driver. *)
Record ran (t : Z) (r : MotorDriver.St) (s s' : St) : Prop := {
  rn_at : ∀ t', 0 <= t' → driver_at s' t' = if decide (t' = t) then Some (driver r) else driver_at s t';
  rn_out : out s' = out s ++ (Track t <$> MotorDriver.out r);
  rn_addr : trackDCAddr s' = trackDCAddr s;
  rn_last : lastTrack s' = lastTrack s;
  rn_len : length (track s') = length (track s);
  rn_pwr : length (trackPwrMA s') = length (trackPwrMA s);
}.
Lemma on_ran t f s d : 0 <= t → driver_at s t = Some d →
  wp (on t f) (λ _ s', ran t (f (MotorDriver.mkSt d (globalOverloadStart s) [])) s s') s.
Proof.
  intros Ht Hd. unfold wp, on. rewrite Hd. simpl. set (r := f _). constructor; simpl; try done; [|by rewrite length_insert].
  intros t' Ht'. apply (driver_at_put s t t' (driver r)); [done|done|by rewrite Hd].
Qed.

Lemma on_step t f s d h : 0 <= t → driver_at s t = Some d → framed f →
  (∀ g, viewd (driver (f (MotorDriver.mkSt d g []))) = h (viewd d)) → (∀ r, pin_ok r → pin_ok (f r)) →
  wp (on t f) (λ _ s', step (λ t' v, if decide (t' = t) then h v else v) (λ l, l) s s') s.
Proof.
  intros Ht Hd Hf Hv Hp. eapply wp_mono; [by apply (on_ran t f s d)|]. intros [] s' [Hat Ho A L N P].
  constructor; try done.
  - intros t' Ht'. unfold vat. rewrite Hat by done.
    destruct (decide (t' = t)) as [->|]; [|by destruct (driver_at s t')].
    rewrite Hd. simpl. by rewrite <-(Hv (globalOverloadStart s)).
  - intros Hok t' d' Ht'. rewrite Hat by done. rewrite Ho, trace_app.
    destruct (decide (t' = t)) as [->|Hn].
    + intros [= <-]. rewrite trace_same.
      specialize (Hp (MotorDriver.mkSt d (globalOverloadStart s) (trace t (out s)))).
      rewrite (framed_start f) in Hp by done. exact (Hp (Hok t d Ht Hd)).
    + intros Hd'. rewrite trace_ne, app_nil_r by done. by apply Hok.
Qed.

Lemma wp_driver t s d (Q : MotorDriver → St → Prop) : driver_at s t = Some d → Q d s → wp (deref t) Q s.
Proof. unfold wp, deref. by intros ->. Qed.
Lemma wp_track_emit e s : (∀ t e', e ≠ Track t e') → wp (emit e) (λ _ s', same s s') s.
Proof.
  intros Hne. apply wp_mod. apply same_other; try done. intros t. simpl. rewrite trace_app. unfold trace at 2. simpl.
  destruct e; try by rewrite app_nil_r. by destruct (Hne t0 e).
Qed.

(** ** The operations on one track *)

Lemma viewd_role r r' : role r' = role r → powerMode (driver r') = powerMode (driver r) →
  viewd (driver r') = viewd (driver r).
Proof. unfold role, viewd, brakeCanPWM. intros [= E1 E2 E3 _ _] ->. by rewrite E1, E2, E3. Qed.

Lemma on_quiet t f s d : 0 <= t → driver_at s t = Some d → framed f → (∀ r, quiet r (f r)) →
  (∀ r, role (f r) = role r) → wp (on t f) (λ _ s', same s s') s.
Proof.
  intros Ht Hd Hf Hq Hr. eapply wp_mono.
  - apply (on_step t f s d (λ v, v)); [done|done|done| |].
    + intros g. apply (viewd_role (MotorDriver.mkSt d g []) (f (MotorDriver.mkSt d g []))); [apply Hr|apply (q_mode _ _ (Hq _))].
    + intros r. apply quiet_pin, Hq.
  - intros [] s' Hs. apply (step_ext _ _ _ _ _ _ Hs); [|done].
    intros t' v. cbn beta. by destruct (decide (t' = t)).
Qed.

(** The same for an operation that changes the wiring the checks look at. *)
Lemma on_quiet_pin t f s d : 0 <= t → driver_at s t = Some d → framed f → (∀ r, pin_ok r → pin_ok (f r)) →
  (∀ r, role (f r) = role r) → (∀ r, powerMode (driver (f r)) = powerMode (driver r)) → wp (on t f) (λ _ s', same s s') s.
Proof.
  intros Ht Hd Hf Hq Hr Hm. eapply wp_mono.
  - apply (on_step t f s d (λ v, v)); [done|done|done| |done].
    intros g. apply (viewd_role (MotorDriver.mkSt d g []) (f (MotorDriver.mkSt d g []))); [apply Hr|apply Hm].
  - intros [] s' Hs. apply (step_ext _ _ _ _ _ _ Hs); [|done].
    intros t' v. cbn beta. by destruct (decide (t' = t)).
Qed.

(** The changes of one track. *)
Definition at_track (t : Z) (h : tv → tv) (t' : Z) (v : tv) : tv := if decide (t' = t) then h v else v.
Definition set_mode (m : Z) (v : tv) : tv := mkV m (v_prog v) (v_power v) (v_can v).
Definition set_prog (b : bool) (v : tv) : tv := mkV (v_mode v) b (v_power v) (v_can v).
Definition set_power (p : POWERMODE) (v : tv) : tv := mkV (v_mode v) (v_prog v) p (v_can v).

Lemma on_power n a m t s d : 0 <= t → driver_at s t = Some d →
  wp (on t (setPower n a m)) (λ _ s', step (at_track t (set_power m)) (λ l, l) s s') s.
Proof.
  intros Ht Hd. apply (on_step t _ s d (set_power m)); [done|done|apply framed_setPower| |intros r; apply setPower_pin].
  intros g. pose proof (role_setPower n a m (MotorDriver.mkSt d g [])) as R.
  pose proof (setPower_mode n a m (MotorDriver.mkSt d g [])) as P.
  revert R P. unfold role, viewd, brakeCanPWM, set_power. simpl. intros [= E1 E2 E3 _ _] ->. by rewrite E1, E2, E3.
Qed.
Lemma on_setMode m t s d : 0 <= t → driver_at s t = Some d →
  wp (on t (setMode m)) (λ _ s', step (at_track t (set_mode m)) (λ l, l) s s') s.
Proof.
  intros Ht Hd. apply (on_step t _ s d (set_mode m)); try done; intros r; apply quiet_pin, quiet_setMode.
Qed.
Lemma on_prog b t s d : 0 <= t → driver_at s t = Some d →
  wp (on t (makeProgTrack b)) (λ _ s', step (at_track t (set_prog b)) (λ l, l) s s') s.
Proof.
  intros Ht Hd. apply (on_step t _ s d (set_prog b)); try done; intros r; by apply quiet_pin, quiet_upd.
Qed.

Lemma on_setBrake b t s d : 0 <= t → driver_at s t = Some d → wp (on t (setBrake b)) (λ _ s', same s s') s.
Proof. intros. eapply on_quiet; eauto using framed_setBrake, quiet_setBrake, role_setBrake. Qed.
Lemma on_setDCSignal a b t s d : 0 <= t → driver_at s t = Some d →
  wp (on t (MotorDriver.setDCSignal a b)) (λ _ s', same s s') s.
Proof. intros. eapply on_quiet; eauto using framed_setDCSignal, quiet_setDCSignal, role_setDCSignal. Qed.
Lemma on_setSignal b t s d : 0 <= t → driver_at s t = Some d → wp (on t (setSignal b)) (λ _ s', same s s') s.
Proof. intros. eapply on_quiet; eauto using framed_setSignal, quiet_setSignal. Qed.
Lemma on_enableSignal b t s d : 0 <= t → driver_at s t = Some d → wp (on t (enableSignal b)) (λ _ s', same s s') s.
Proof. intros. eapply on_quiet; eauto; [intros l r; apply framed_emit|intros r; by apply quiet_emit]. Qed.
Lemma on_setTrackPWM b t s d : 0 <= t → driver_at s t = Some d → wp (on t (setTrackPWM b)) (λ _ s', same s s') s.
Proof. intros. eapply on_quiet; eauto; [intros l r; apply framed_upd|intros r; by apply quiet_upd]. Qed.

(** The check changes the power as documented only. *)
Lemma on_check b i t s d : 0 <= t → driver_at s t = Some d →
  wp (on t (checkPowerOverload b i)) (λ _ s', ∃ p, documented (powerMode d) p ∧
    step (at_track t (set_power p)) (λ l, l) s s') s.
Proof.
  intros Ht Hd. set (r0 := MotorDriver.mkSt d (globalOverloadStart s) []).
  (* the view does not depend on the trace, but may depend on the shared stamp *)
  assert (∀ r, role (checkPowerOverload b i r) = role r) as R by apply role_check.
  unfold wp, on. rewrite Hd. simpl.
  set (p := powerMode (driver (checkPowerOverload b i r0))).
  exists p. split; [apply (checked_mode r0), check_checked|].
  pose proof (on_step t (λ r, checkPowerOverload b i (MotorDriver.with_globalOverloadStart (globalOverloadStart s) r)) s d (set_power p) Ht Hd) as K.
  unfold wp, on in K. rewrite Hd in K. simpl in K. apply K; clear K.
  - intros l r. apply (framed_checkPowerOverload b i l (MotorDriver.with_globalOverloadStart _ r)).
  - intros g. change (MotorDriver.with_globalOverloadStart (globalOverloadStart s) (MotorDriver.mkSt d g [])) with r0.
    specialize (R r0). revert R. fold p. unfold role, viewd, brakeCanPWM, set_power. simpl.
    intros [= E1 E2 E3 _ _]. by rewrite E1, E2, E3.
  - intros r Hr. eapply checked_pin; [apply check_checked|exact Hr].
Qed.

(** ** Loops and replies *)

Lemma mfor_same (l : list Z) (f : Z → M St unit) s :
  (∀ t s', t ∈ l → same s s' → wp (f t) (λ _ s'', same s' s'') s') → wp (mfor l f) (λ _ s', same s s') s.
Proof.
  intros Hf. assert (∀ s', same s s' → wp (mfor l f) (λ _ s'', same s s'') s') as K; [|apply K, track_same_refl].
  induction l as [|t l IH]; intros s1 H1; [by apply wp_ret|]. unfold mfor in *. simpl. apply wp_bind.
  eapply wp_mono; [apply Hf; [left|done]|]. intros [] s2 H2. cbn beta in H2. apply IH; [|by eapply track_same_trans].
  intros t' s' Hin. apply Hf. by right.
Qed.

Lemma vat_driver s t v : vat s t = Some v → ∃ d, driver_at s t = Some d ∧ viewd d = v.
Proof. unfold vat. destruct (driver_at s t) as [d|]; simpl; [|done]. intros [= <-]. eauto. Qed.

(** The tracks there are: 0 to the last one, and none beyond. *)
Record shape (s : St) : Prop := {
  sh_last : -1 <= lastTrack s < 8;
  sh_len : length (track s) = 8%nat;
  sh_addr : length (trackDCAddr s) = 8%nat;
  sh_pwr : length (trackPwrMA s) = 8%nat;
  sh_vat : ∀ t, 0 <= t → is_Some (vat s t) ↔ t <= lastTrack s;
}.
Lemma step_shape h f s s' : step h f s s' → (∀ l, length (f l) = length l) → shape s → shape s'.
Proof.
  intros [V A L N P _] Hf [S1 S2 S3 S4 S5]. constructor.
  - by rewrite L.
  - by rewrite N.
  - by rewrite A, Hf.
  - by rewrite P.
  - intros t Ht. rewrite V, L by done. by rewrite fmap_is_Some, S5.
Qed.
Lemma same_shape s s' : same s s' → shape s → shape s'.
Proof. intros Hs. by apply (step_shape _ _ _ _ Hs). Qed.
Lemma shape_driver s t : shape s → 0 <= t <= lastTrack s → ∃ d, driver_at s t = Some d.
Proof.
  intros Hs Ht. destruct (proj2 (sh_vat s Hs t (proj1 Ht)) (proj2 Ht)) as [v Hv].
  destruct (vat_driver _ _ _ Hv) as (d & Hd & _). eauto.
Qed.
Lemma shape_addr s t : shape s → 0 <= t <= lastTrack s → ∃ a, trackDCAddr s !! Z.to_nat t = Some a.
Proof.
  intros Hs Ht. destruct (trackDCAddr s !! Z.to_nat t) as [a|] eqn:E; [eauto|].
  apply lookup_ge_None in E. rewrite (sh_addr s Hs) in E. pose proof (sh_last s Hs). lia.
Qed.

Definition alive (s : St) (t : Z) : Prop := 0 <= t ∧ ∃ d, driver_at s t = Some d.
Lemma step_alive h f s s' t : step h f s s' → alive s t → alive s' t.
Proof.
  intros [V _ _ _ _ _] (Ht & d & Hd). split; [done|]. specialize (V t Ht). unfold vat in V. rewrite Hd in V.
  destruct (driver_at s' t) as [d'|]; [eauto|done].
Qed.
Lemma shape_alive s t : shape s → 0 <= t <= lastTrack s → alive s t.
Proof. intros Hs Ht. split; [lia|]. by apply shape_driver. Qed.
Lemma tracks_alive s t : shape s → t ∈ tracks s → 0 <= t ∧ alive s t.
Proof. intros Hs Hin%elem_of_rangeZ. split; [lia|]. apply shape_alive; [done|lia]. Qed.

Lemma wp_alive_driver t s (Q : MotorDriver → St → Prop) : alive s t →
  (∀ d, driver_at s t = Some d → Q d s) → wp (deref t) Q s.
Proof. intros (_ & d & Hd) HQ. eapply wp_driver; eauto. Qed.
Lemma wp_addr t s (Q : Z → St → Prop) : shape s → alive s t →
  (∀ a, trackDCAddr s !! Z.to_nat t = Some a → Q a s) → wp (dc_addr t) Q s.
Proof.
  intros Hs (Ht & d & Hd) HQ. unfold wp, dc_addr.
  destruct (shape_addr s t Hs) as [a Ha].
  { split; [done|]. apply (sh_vat s Hs t Ht). unfold vat. by rewrite Hd. }
  rewrite Ha. by apply HQ.
Qed.

(** One operation of a sequence, leaving what it did as [H]. *)
Ltac does lem H := let u := fresh "u" in let s' := fresh "s" in
  eapply wp_mono; [eapply lem; (eassumption || eauto)|intros u s' H; cbn beta in H; try destruct u].

Lemma wp_stream b t s : shape s → alive s t → wp (streamTrackState b t) (λ _ s', same s s') s.
Proof.
  intros Hs Ha. unfold streamTrackState. apply wp_bind, wp_get. destruct Ha as (Ht & d & Hd). rewrite Hd.
  apply wp_bind, wp_addr; [done|by split; eauto|]. intros a _. apply wp_bind.
  eapply wp_mono; [by apply wp_track_emit|]. intros [] s1 H1. cbn beta in H1. apply wp_when; intros _; [|done].
  eapply wp_mono; [by apply wp_track_emit|]. intros [] s2 H2. by eapply track_same_trans.
Qed.

(** ** High accuracy mode *)

Lemma wp_ha_loop l : ∀ c s, shape s → (∀ t, t ∈ l → alive s t) → wp (ha_loop l c) (λ _ s', same s s') s.
Proof.
  induction l as [|t l IH]; intros c s Hs Hl; [apply wp_ret, track_same_refl|]. simpl. apply wp_bind.
  assert (alive s t) as Ha by (apply Hl; left). apply wp_alive_driver; [done|]. intros d Hd.
  assert (∀ b c', wp (on t (setTrackPWM b) ;;; ha_loop l c') (λ _ s', same s s') s) as K.
  { intros b c'. apply wp_bind. eapply wp_mono; [by apply (on_setTrackPWM b t s d); [apply Ha|]|].
    intros [] s1 H1. cbn beta in H1. eapply wp_mono; [apply IH; [by eapply same_shape|]|].
    - intros t' Hin. eapply step_alive; [exact H1|]. apply Hl. by right.
    - intros c1 s2 H2. by eapply track_same_trans. }
  destruct (has d TRACK_MODE_DC).
  - destruct (isPWMCapable d); [apply wp_ret, track_same_refl|apply K].
  - destruct (has d _); [apply K|]. apply IH; [done|]. intros t' Hin. apply Hl. by right.
Qed.

Lemma wp_ha_mode s : shape s → wp ha_mode (λ _ s', same s s') s.
Proof.
  intros Hs. unfold ha_mode. apply wp_bind, wp_get, wp_bind.
  eapply wp_mono; [apply wp_ha_loop; [done|intros t Hin; by apply tracks_alive]|].
  intros c s1 H1. cbn beta in H1. apply wp_bind.
  apply (wp_mono _ (λ _ s2, same s s2)).
  - apply wp_when; intros _; [|done]. apply wp_bind, wp_bind, wp_get.
    eapply wp_mono; [apply (mfor_same _ _ s1)|].
    + intros t s2 Hin H2. apply tracks_alive in Hin as [Ht Ha]; [|by eapply same_shape].
      destruct (step_alive _ _ _ _ _ H2 Ha) as (_ & d & Hd). by apply (on_setTrackPWM _ _ _ d).
    + intros [] s2 H2. cbn beta in H2. eapply wp_mono; [by apply wp_track_emit|]. intros [] s3 H3.
      by do 2 (eapply track_same_trans; [eassumption|]).
  - intros [] s2 H2. cbn beta in H2. eapply wp_mono; [by apply wp_track_emit|]. intros [] s3 H3. by eapply track_same_trans.
Qed.

(** ** Taking the programming track away *)

Definition is_prog (v : tv) : bool := tru (v_mode v .& TRACK_MODE_PROG).
Definition revoked (v : tv) : tv := mkV TRACK_MODE_NONE false OFF (v_can v).
Definition revoke (l : list Z) (tset : Z) (t : Z) (v : tv) : tv :=
  if bool_decide (t ∈ l) && is_prog v && negb (t =? tset) then revoked v else v.

Lemma revoke_cons x l tset t v :
  revoke l tset t (at_track x (λ v, if is_prog v && negb (x =? tset) then revoked v else v) t v) = revoke (x :: l) tset t v.
Proof.
  unfold revoke, at_track. destruct (decide (t = x)) as [->|Hn].
  - rewrite (bool_decide_eq_true_2 (x ∈ x :: l)) by left. simpl.
    destruct (is_prog v) eqn:Ep; simpl.
    + destruct (x =? tset) eqn:Ex; simpl; [by rewrite andb_false_r|]. by rewrite andb_false_r.
    + by rewrite Ep, andb_false_r.
  - replace (bool_decide (t ∈ x :: l)) with (bool_decide (t ∈ l)); [done|].
    apply bool_decide_ext. rewrite elem_of_cons. naive_solver.
Qed.

Lemma has_prog s t d v : driver_at s t = Some d → vat s t = Some v → has d TRACK_MODE_PROG = is_prog v.
Proof. unfold vat, has, is_prog. intros -> [= <-]. done. Qed.

Lemma wp_revoke_one e tset t s : shape s → alive s t →
  wp (let! d := deref t in
      when has d TRACK_MODE_PROG && negb (t =? tset) do
        (on t (setPower (micros e) (adcs e t) OFF) ;;;
         on t (setMode TRACK_MODE_NONE) ;;;
         on t (makeProgTrack false) ;;;
         streamTrackState false t))
    (λ _ s', step (at_track t (λ v, if is_prog v && negb (t =? tset) then revoked v else v)) (λ l, l) s s') s.
Proof.
  intros Hs Ha. apply wp_bind, wp_alive_driver; [done|]. intros d Hd.
  assert (vat s t = Some (viewd d)) as Hv by (unfold vat; by rewrite Hd).
  apply wp_when; intros Ep.
  - apply wp_bind. eapply wp_mono; [by apply (on_power _ _ _ _ _ d); [apply Ha|]|]. intros [] s1 H1. cbn beta in H1.
    apply wp_bind. destruct (step_alive _ _ _ _ _ H1 Ha) as (Ht & d1 & Hd1).
    eapply wp_mono; [by apply (on_setMode _ _ _ d1)|]. intros [] s2 H2. cbn beta in H2.
    apply wp_bind. pose proof (step_trans _ _ _ _ _ _ _ H1 H2) as H12.
    destruct (step_alive _ _ _ _ _ H12 Ha) as (_ & d2 & Hd2).
    eapply wp_mono; [by apply (on_prog _ _ _ d2)|]. intros [] s3 H3. cbn beta in H3.
    pose proof (step_trans _ _ _ _ _ _ _ H12 H3) as H13.
    eapply wp_mono; [apply wp_stream; [by eapply step_shape|by eapply step_alive]|].
    intros [] s4 H4. cbn beta in H4. pose proof (step_same _ _ _ _ _ H13 H4) as [V A L N P Q].
    constructor; try done. intros t' Ht'. rewrite V by done. unfold at_track.
    destruct (decide (t' = t)) as [->|]; [|done]. rewrite Hv. simpl.
    change (is_prog (viewd d)) with (has d TRACK_MODE_PROG). by rewrite Ep.
  - pose proof (track_same_refl s) as [V A L N P Q]. constructor; try done.
    intros t' Ht'. unfold at_track. destruct (decide (t' = t)) as [->|]; [|by destruct (vat s t')].
    rewrite Hv. simpl. change (is_prog (viewd d)) with (has d TRACK_MODE_PROG). by rewrite Ep.
Qed.

Lemma wp_revoke_loop e tset l : ∀ s, shape s → (∀ t, t ∈ l → alive s t) →
  wp (mfor l (λ t, let! d := deref t in
      when has d TRACK_MODE_PROG && negb (t =? tset) do
        (on t (setPower (micros e) (adcs e t) OFF) ;;;
         on t (setMode TRACK_MODE_NONE) ;;;
         on t (makeProgTrack false) ;;;
         streamTrackState false t))) (λ _ s', step (revoke l tset) (λ l, l) s s') s.
Proof.
  induction l as [|x l IH]; intros s Hs Hl.
  - apply wp_ret. apply (step_ext _ _ _ _ _ _ (track_same_refl s)); [|done]. intros t v. unfold revoke.
    by rewrite bool_decide_eq_false_2 by (apply not_elem_of_nil).
  - unfold mfor. simpl. apply wp_bind. eapply wp_mono; [apply wp_revoke_one; [done|apply Hl; left]|].
    intros [] s1 H1. cbn beta in H1. eapply wp_mono; [apply IH|].
    + by eapply step_shape.
    + intros t Hin. eapply step_alive; [exact H1|]. apply Hl. by right.
    + intros [] s2 H2. cbn beta in H2. apply (step_ext _ _ _ _ _ _ (step_trans _ _ _ _ _ _ _ H1 H2)); [|done].
      intros t v. apply revoke_cons.
Qed.

(** ** Changing the mode of a track *)

Definition can_dc (mode : Z) : bool := tru (mode .& TRACK_MODE_DC).
Definition to_prog (mode : Z) : bool := tru (mode .& TRACK_MODE_PROG).

(** What [setTrackMode] makes of each track. *)
Definition mode_step (last tset mode : Z) (off : bool) (t : Z) (v : tv) : tv :=
  if decide (t = tset) then mkV mode (to_prog mode) (if negb (mode =? v_mode v) && off then OFF else v_power v) (v_can v)
  else if to_prog mode && (t <=? last) && is_prog v then revoked v else v.
Definition addr_step (tset mode dcAddr : Z) (l : list Z) : list Z :=
  <[Z.to_nat tset := if can_dc mode then dcAddr else 0]> l.

Lemma wp_set_dc_addr t a s : wp (set_dc_addr t a) (λ _ s', step (λ _ v, v) (λ l, <[Z.to_nat t := a]> l) s s') s.
Proof.
  apply wp_mod. constructor; try done. intros t' _. unfold vat, driver_at. simpl. by destruct (viewd <$> _).
Qed.

Lemma wp_apply_speed t s : shape s → alive s t → wp (applyDCSpeed t) (λ _ s', same s s') s.
Proof.
  intros Hs Ha. unfold applyDCSpeed. apply wp_bind, wp_addr; [done|done|]. intros a _.
  destruct Ha as (Ht & d & Hd). by apply (on_setDCSignal _ _ _ _ d).
Qed.

(** The parts of [setTrackMode]: the flag of the programming track, the DC
    address, and the signals with the high accuracy mode. *)
Lemma wp_prog_part e tset mode s : shape s → alive s tset →
  wp (if to_prog mode then revoke_prog e tset ;;; on tset (makeProgTrack true) else on tset (makeProgTrack false))
    (λ _ s1, step (λ t v, at_track tset (set_prog (to_prog mode)) t
      (if to_prog mode then revoke (tracks s) tset t v else v)) (λ l, l) s s1) s.
Proof.
  intros Hs Ha. destruct (to_prog mode).
  - apply wp_bind. unfold revoke_prog, for_each_track.
    apply wp_bind, wp_get. eapply wp_mono; [apply wp_revoke_loop; [done|intros t Hin; by apply tracks_alive]|].
    intros [] s1 H1. cbn beta in H1. destruct (step_alive _ _ _ _ _ H1 Ha) as (Ht & d1 & Hd1).
    eapply wp_mono; [by apply (on_prog _ _ _ d1)|]. intros [] s2 H2. exact (step_trans _ _ _ _ _ _ _ H1 H2).
  - destruct Ha as (Ht & d & Hd). eapply wp_mono; [by apply (on_prog _ _ _ d)|]. intros [] s1 H1. exact H1.
Qed.

Lemma wp_addr_part tset mode a s : shape s → alive s tset →
  wp (if can_dc mode then
        let! a0 := dc_addr tset in
        (when negb (a0 =? a) && negb (a0 =? 0) do on tset detachDCSignal) ;;;
        set_dc_addr tset a
      else on tset detachDCSignal ;;; on tset (setBrake false) ;;; set_dc_addr tset 0)
    (λ _ s2, step (λ _ v, v) (addr_step tset mode a) s s2) s.
Proof.
  intros Hs Ha. destruct Ha as (Ht & d & Hd).
  assert (∀ b (Hb : b = if can_dc mode then a else 0) s2, same s s2 →
    wp (set_dc_addr tset b) (λ _ s3, step (λ _ v, v) (addr_step tset mode a) s s3) s2) as Hset.
  { intros b -> s2 H2. eapply wp_mono; [apply wp_set_dc_addr|]. intros [] s3 H3. cbn beta in H3.
    exact (same_step _ _ _ _ _ H2 H3). }
  destruct (can_dc mode).
  - apply wp_bind, wp_addr; [done|by split; eauto|]. intros a0 _. apply wp_bind.
    apply (wp_mono _ (λ _ s2, same s s2)).
    + apply wp_when; intros _; [by apply (on_setDCSignal _ _ _ _ d)|apply track_same_refl].
    + intros [] s2 H2. by apply Hset.
  - apply wp_bind. eapply wp_mono; [by apply (on_setDCSignal _ _ _ _ d)|].
    intros [] s2 H2. cbn beta in H2. apply wp_bind.
    destruct (step_alive _ _ _ _ _ H2 (conj Ht (ex_intro _ d Hd))) as (_ & d2 & Hd2).
    eapply wp_mono; [by apply (on_setBrake _ _ _ d2)|]. intros [] s3 H3. cbn beta in H3.
    apply Hset; [done|by eapply track_same_trans].
Qed.

Lemma wp_setTrackMode e tset mode a off s : shape s → 0 <= tset →
  wp (setTrackMode e tset mode a off) (λ r s',
    match vat s tset with
    | Some v => if negb (can_dc mode) || v_can v
                then r = true ∧ step (mode_step (lastTrack s) tset mode off) (addr_step tset mode a) s s'
                else r = false ∧ s' = s
    | None => r = false ∧ s' = s
    end) s.
Proof.
  intros Hs Ht. unfold setTrackMode. apply wp_bind, wp_get.
  destruct (vat s tset) as [v|] eqn:Hv; cycle 1.
  { assert (driver_at s tset = None) as -> by (revert Hv; unfold vat; by destruct (driver_at s tset)).
    rewrite bool_decide_eq_false_2 by (intros [? ?]; done). rewrite andb_false_r. simpl. by apply wp_ret. }
  destruct (vat_driver _ _ _ Hv) as (d & Hd & <-). rewrite Hd.
  assert (tset <= lastTrack s) as Hle by (apply (sh_vat s Hs); [done|by rewrite Hv]).
  replace (tset <=? lastTrack s) with true by lia. rewrite bool_decide_eq_true_2 by eauto. cbn [negb andb].
  assert (alive s tset) as Ha by (split; eauto).
  apply wp_bind. eapply wp_driver; [exact Hd|]. cbv zeta. fold (can_dc mode) (to_prog mode).
  change (v_can (viewd d)) with (brakeCanPWM d).
  destruct (can_dc mode && negb (brakeCanPWM d)) eqn:Ec.
  { replace (negb (can_dc mode) || brakeCanPWM d) with false by (destruct (can_dc mode), (brakeCanPWM d); done). by apply wp_ret. }
  replace (negb (can_dc mode) || brakeCanPWM d) with true by (destruct (can_dc mode), (brakeCanPWM d); done).
  (* the programming track *)
  apply wp_bind. eapply wp_mono; [by apply wp_prog_part|].
  intros [] s1 H1. cbn beta in H1.
  (* the DC address *)
  apply wp_bind. eapply wp_mono; [apply (wp_addr_part tset mode a); [by eapply step_shape|by eapply step_alive]|].
  intros [] s2 H2. cbn beta in H2. pose proof (step_trans _ _ _ _ _ _ _ H1 H2) as H12. clear s1 H1 H2. cbn beta in H12.
  (* the mode *)
  apply wp_bind. destruct (step_alive _ _ _ _ _ H12 Ha) as (_ & d2 & Hd2).
  eapply wp_mono; [by apply (on_setMode _ _ _ d2)|]. intros [] s3 H3. cbn beta in H3.
  pose proof (step_trans _ _ _ _ _ _ _ H12 H3) as H13. cbn beta in H13. clear s2 H12 H3 d2 Hd2.
  assert (∀ l, length (addr_step tset mode a l) = length l) as Hlen by (intros l; apply length_insert).
  pose proof (step_shape _ _ _ _ H13 Hlen Hs) as Hs3. pose proof (step_alive _ _ _ _ _ H13 Ha) as Ha3.
  (* signals *)
  apply wp_bind. apply (wp_mono _ (λ _ s4, same s3 s4)).
  { destruct Ha3 as (_ & d3 & Hd3). apply wp_when; intros _; [by apply (on_enableSignal _ _ _ d3)|apply track_same_refl]. }
  intros [] s4 H4. cbn beta in H4. apply wp_bind.
  eapply wp_mono; [apply wp_ha_mode; by eapply same_shape|]. intros [] s5 H5. cbn beta in H5.
  pose proof (track_same_trans _ _ _ H4 H5) as H45. apply wp_bind. apply (wp_mono _ (λ _ s6, same s5 s6)).
  { apply wp_when; intros _; [|apply track_same_refl]. apply wp_apply_speed; [by eapply same_shape|by eapply step_alive]. }
  intros [] s6 H6. cbn beta in H6. pose proof (track_same_trans _ _ _ H45 H6) as H46. clear s4 s5 H4 H5 H45 H6.
  (* power *)
  apply wp_bind. apply (wp_mono _ (λ _ s7, step (at_track tset (if negb (mode =? trackMode d) && off then set_power OFF else λ v, v)) (λ l, l) s6 s7)).
  { destruct (step_alive _ _ _ _ _ H46 Ha3) as (_ & d6 & Hd6). destruct (_ && off).
    - by apply (on_power _ _ _ _ _ d6).
    - apply (step_ext _ _ _ _ _ _ (track_same_refl s6)); [|done]. intros t v. unfold at_track. by destruct (decide _). }
  intros [] s7 H7. cbn beta in H7.
  pose proof (step_trans _ _ _ _ _ _ _ (step_same _ _ _ _ _ H13 H46) H7) as H17. clear s3 s6 H13 H46 H7 Hs3 Ha3.
  apply wp_bind. eapply wp_mono; [apply wp_stream; [by eapply step_shape|by eapply step_alive]|].
  intros [] s8 H8. cbn beta in H8. apply wp_ret. split; [done|].
  destruct (step_same _ _ _ _ _ H17 H8) as [V A L N P Q]. constructor; try done.
  intros t Ht'. rewrite V by done. unfold at_track, mode_step. destruct (decide (t = tset)) as [->|Hn].
  - rewrite Hv. cbn -[negb]. f_equal. unfold set_mode, set_prog, set_power, revoke. rewrite Z.eqb_refl, andb_false_r.
    by destruct (to_prog mode), (negb (mode =? trackMode d) && off).
  - destruct (vat s t) as [v|] eqn:Evt; [|done]. simpl. f_equal. unfold revoke. destruct (to_prog mode); [|done]. simpl.
    replace (t =? tset) with false by lia. rewrite andb_true_r.
    replace (bool_decide (t ∈ tracks s)) with (t <=? lastTrack s); [done|].
    symmetry. unfold tracks. destruct (t <=? lastTrack s) eqn:E.
    + apply bool_decide_eq_true_2, elem_of_rangeZ. lia.
    + apply bool_decide_eq_false_2. rewrite elem_of_rangeZ. lia.
Qed.

(** * The invariant *)

(** One of the main modes, with any modifiers. *)
Definition main_bits (m : Z) : Z := m .& 31.
Definition valid_mode (m : Z) : bool := bool_decide (main_bits m ∈ [1; 2; 4; 8; 16]).

Record view_ok (a : Z) (v : tv) : Prop := {
  vo_valid : valid_mode (v_mode v) = true;
  vo_prog : v_prog v = is_prog v;                                    (* the driver knows *)
  vo_addr : a ≠ 0 → can_dc (v_mode v) = true;                        (* only DC tracks have an address *)
  vo_none : tru (v_mode v .& TRACK_MODE_NONE) = true → v_power v = OFF;  (* unused tracks are dead *)
  vo_can : can_dc (v_mode v) = true → v_can v = true;
}.

Record inv (s : St) : Prop := {
  in_shape : shape s;
  in_view : ∀ t v a, 0 <= t → vat s t = Some v → trackDCAddr s !! Z.to_nat t = Some a → view_ok a v;
  in_one : ∀ t t' v v', 0 <= t → 0 <= t' → vat s t = Some v → vat s t' = Some v' →
    is_prog v = true → is_prog v' = true → t = t';
  in_pins : pins_ok s;
}.

Lemma mode_bit m k : 31 .& k = k → m .& k = main_bits m .& k.
Proof. intros Hk. unfold main_bits. by rewrite <-Z.land_assoc, Hk. Qed.
Lemma valid_cases m : valid_mode m = true → main_bits m = 1 ∨ main_bits m = 2 ∨ main_bits m = 4 ∨ main_bits m = 8 ∨ main_bits m = 16.
Proof. unfold valid_mode. intros H1%bool_decide_eq_true_1. set_solver. Qed.
Lemma valid_prog_dc m : valid_mode m = true → to_prog m = true → can_dc m = false ∧ tru (m .& TRACK_MODE_NONE) = false.
Proof.
  intros Hv. unfold to_prog, can_dc. rewrite !(mode_bit m) by done.
  by destruct (valid_cases m Hv) as [E|[E|[E|[E|E]]]]; rewrite E.
Qed.
Lemma modifier_bits m k : 31 .& k = 0 → main_bits (m .| k) = main_bits m.
Proof. intros Hk. unfold main_bits. rewrite Z.land_lor_distr_l, (Z.land_comm k), Hk. apply Z.lor_0_r. Qed.

(** A step that keeps modes and flags, and switches unused tracks off only. *)
Lemma inv_step h s s' : step h (λ l, l) s s' → inv s →
  (∀ t v, 0 <= t → vat s t = Some v → ∃ p, h t v = set_power p v ∧ (tru (v_mode v .& TRACK_MODE_NONE) = true → v_power v = OFF → p = OFF)) →
  inv s'.
Proof.
  intros Hst [Hs Hv Ho Hp] Hh. pose proof Hst as [V A L N P Q].
  assert (∀ t v', 0 <= t → vat s' t = Some v' → ∃ v p, vat s t = Some v ∧ v' = set_power p v ∧
    (tru (v_mode v .& TRACK_MODE_NONE) = true → v_power v = OFF → p = OFF)) as K.
  { intros t v' Ht. rewrite V by done. destruct (vat s t) as [v|] eqn:E; [|done]. intros [= <-].
    destruct (Hh t v Ht E) as (p & -> & Hn). eauto. }
  constructor.
  - by eapply step_shape.
  - intros t v' a Ht Hv'. rewrite A. intros Ha. destruct (K t v' Ht Hv') as (v & p & E & -> & Hn).
    destruct (Hv t v a Ht E Ha) as [O1 O2 O3 O4 O5]. constructor; try done. simpl. intros H1. by apply Hn, O4.
  - intros t t' v v' Ht Ht' E E'. destruct (K t v Ht E) as (v0 & p & E0 & -> & _).
    destruct (K t' v' Ht' E') as (v1 & p1 & E1 & -> & _). by apply (Ho t t' v0 v1).
  - by apply Q.
Qed.
Lemma inv_same s s' : same s s' → inv s → inv s'.
Proof. intros Hs Hi. eapply inv_step; [exact Hs|done|]. intros t v _ _. exists (v_power v). by destruct v. Qed.
Lemma inv_power t p s s' v : step (at_track t (set_power p)) (λ l, l) s s' → inv s → vat s t = Some v →
  (tru (v_mode v .& TRACK_MODE_NONE) = true → v_power v = OFF → p = OFF) → inv s'.
Proof.
  intros Hst Hi Hv Hn. eapply inv_step; [exact Hst|done|]. intros t' v' _ E. unfold at_track.
  destruct (decide (t' = t)) as [->|]; [|exists (v_power v'); by destruct v'].
  rewrite Hv in E. injection E as <-. by exists p.
Qed.

Lemma mode_step_view last tset mode t v a a' : valid_mode mode = true → (t = tset → can_dc mode = true → v_can v = true) →
  view_ok a v → (t = tset → a' = 0 ∨ can_dc mode = true) → (t ≠ tset → a' = a) → view_ok a' (mode_step last tset mode true t v).
Proof.
  intros Hm Hc [O1 O2 O3 O4 O5] Ha Ha'. unfold mode_step. destruct (decide (t = tset)) as [->|Hn].
  - constructor; cbn [v_mode v_prog v_power v_can]; try done; [| |by apply Hc].
    + intros Hne. by destruct (Ha eq_refl).
    + intros Hz. rewrite andb_true_r. destruct (mode =? v_mode v) eqn:E; [|done]. simpl.
      apply O4. apply Z.eqb_eq in E. by rewrite <-E.
  - rewrite Ha' by done. destruct (_ && is_prog v) eqn:Ep; [|done].
    apply andb_true_iff in Ep as [_ Ep]. destruct (valid_prog_dc (v_mode v) O1 Ep) as [Hd _].
    constructor; simpl; try done. intros Hne. exfalso. specialize (O3 Hne). by rewrite Hd in O3.
Qed.

Lemma inv_mode tset mode a s s' v : 0 <= tset → inv s → vat s tset = Some v → valid_mode mode = true →
  (can_dc mode = true → v_can v = true) →
  step (mode_step (lastTrack s) tset mode true) (addr_step tset mode a) s s' → inv s'.
Proof.
  intros Ht [Hs Hv Ho Hp] Hvt Hm Hc Hst. pose proof Hst as [V A L N P Q].
  assert (∀ t v', 0 <= t → vat s' t = Some v' → ∃ v, vat s t = Some v ∧ v' = mode_step (lastTrack s) tset mode true t v) as K.
  { intros t v' Ht'. rewrite V by done. destruct (vat s t) as [v0|]; [|done]. intros [= <-]. eauto. }
  assert (∀ t v0, 0 <= t → vat s t = Some v0 → is_prog (mode_step (lastTrack s) tset mode true t v0) = true →
    (t = tset ∧ to_prog mode = true) ∨ (t ≠ tset ∧ to_prog mode = false ∧ is_prog v0 = true)) as Kp.
  { intros t v0 Ht' E. unfold mode_step. destruct (decide (t = tset)) as [->|Hn]; [by left|].
    assert (t <= lastTrack s) as Hle by (apply (sh_vat s Hs); [done|by rewrite E]).
    replace (t <=? lastTrack s) with true by lia. rewrite andb_true_r.
    destruct (to_prog mode), (is_prog v0) eqn:Ep; simpl; try done; [rewrite Ep; done|by right|rewrite Ep; done]. }
  constructor.
  - eapply step_shape; [exact Hst| |done]. intros l. apply length_insert.
  - intros t v' b Ht' E. rewrite A. unfold addr_step. intros Hb. destruct (K t v' Ht' E) as (v0 & E0 & ->).
    assert (Z.to_nat tset < length (trackDCAddr s))%nat as Hlt.
    { rewrite (sh_addr s Hs). pose proof (sh_last s Hs).
      assert (tset <= lastTrack s) by (apply (sh_vat s Hs); [done|by rewrite Hvt]). lia. }
    destruct (decide (t = tset)) as [->|Hn].
    + rewrite list_lookup_insert_eq in Hb by done. injection Hb as <-.
      destruct (lookup_lt_is_Some_2 _ _ Hlt) as [a0 Ha0]. rewrite Hvt in E0. injection E0 as <-.
      apply (mode_step_view _ _ _ _ _ a0); try done; [by eapply Hv|].
      intros _. destruct (can_dc mode); [by right|by left].
    + rewrite list_lookup_insert_ne in Hb by lia. pose proof (Hv t v0 b Ht' E0 Hb) as Hok.
      by apply (mode_step_view _ _ _ _ _ b).
  - intros t t' v1 v1' Ht1 Ht1' E E' P1 P1'. destruct (K t v1 Ht1 E) as (v0 & E0 & ->).
    destruct (K t' v1' Ht1' E') as (v0' & E0' & ->).
    destruct (Kp t v0 Ht1 E0 P1) as [(Et & Hf)|(Hn & Hf & Hp1)], (Kp t' v0' Ht1' E0' P1') as [(Et' & Hf')|(Hn' & Hf' & Hp1')];
      try congruence. by apply (Ho t t' v0 v0').
  - by apply Q.
Qed.

(** * Every operation keeps the invariant and fails nowhere *)

(** The invariant with [n] for the last track. *)
Definition good (n : Z) (s : St) : Prop := inv s ∧ lastTrack s = n.

Lemma good_same n s s' : same s s' → good n s → good n s'.
Proof. intros Hs [Hi Hn]. split; [by eapply inv_same|]. by rewrite (st_last _ _ _ _ Hs). Qed.
Lemma good_alive n s t : good n s → 0 <= t <= n → alive s t.
Proof. intros [Hi <-] Ht. by apply shape_alive; [apply in_shape|]. Qed.
Lemma good_tracks n s t : good n s → t ∈ tracks s → alive s t.
Proof. intros [Hi _] Hin. by apply tracks_alive; [apply in_shape|]. Qed.

(** From an operation that leaves the tracks as they are. *)
Lemma wp_good_same n {A} (m : M St A) s : wp m (λ _ s', same s s') s → good n s → wp m (λ _ s', good n s') s.
Proof. intros Hm Hg. eapply wp_mono; [exact Hm|]. intros a s' Hs. exact (good_same n s s' Hs Hg). Qed.

Lemma good_setTrackMode n e t mode a s : good n s → 0 <= t → valid_mode mode = true →
  wp (setTrackMode e t mode a true) (λ _ s', good n s') s.
Proof.
  intros [Hi Hn] Ht Hm. eapply wp_mono; [apply wp_setTrackMode; [apply (in_shape s Hi)|done]|].
  intros r s' Hr. cbn beta in Hr. destruct (vat s t) as [v|] eqn:Hv; [|by destruct Hr as [_ ->]].
  destruct (negb (can_dc mode) || v_can v) eqn:Ec; [|by destruct Hr as [_ ->]].
  destruct Hr as [_ Hst]. split; [|by rewrite (st_last _ _ _ _ Hst)].
  eapply (inv_mode t mode a s s' v); try done. intros Hd. by rewrite Hd in Ec.
Qed.

Lemma before_on_same s t d : shape s → alive s t → driver_at s t = Some d →
  wp (before_on t d) (λ _ s', same s s') s.
Proof.
  intros Hs Ha Hd. unfold before_on. apply wp_bind. eapply wp_mono; [by apply (on_setBrake _ _ _ d); [apply Ha|]|].
  intros [] s1 H1. cbn beta in H1. pose proof (step_alive _ _ _ _ _ H1 Ha) as Ha1. destruct (has d _).
  - eapply wp_mono; [apply wp_apply_speed; [by eapply same_shape|done]|]. intros [] s2 H2. by eapply track_same_trans.
  - destruct Ha1 as (Ht & d1 & Hd1). eapply wp_mono; [by apply (on_setBrake _ _ _ d1)|].
    intros [] s2 H2. by eapply track_same_trans.
Qed.

(** Setting the power of a track, where an unused track may only be switched off. *)
Lemma good_power n e t p s v : good n s → alive s t → vat s t = Some v →
  (tru (v_mode v .& TRACK_MODE_NONE) = true → v_power v = OFF → p = OFF) →
  wp (on t (setPower (micros e) (adcs e t) p)) (λ _ s', good n s') s.
Proof.
  intros [Hi Hn] (Ht & d & Hd) Hv Hp. eapply wp_mono; [by apply (on_power _ _ _ _ _ d)|].
  intros [] s' Hs. cbn beta in Hs. split; [by eapply inv_power|]. by rewrite (st_last _ _ _ _ Hs).
Qed.

Lemma same_vat s s' t : same s s' → 0 <= t → vat s' t = vat s t.
Proof. intros Hs Ht. rewrite (st_vat _ _ _ _ Hs t Ht). by destruct (vat s t). Qed.

(** Main modes only: what the callers of [setTrackPower] select by. *)
Definition selects_used (m : Z) : bool := m .& TRACK_ALL =? m.
Lemma selects_not_none m mode : selects_used m = true → valid_mode mode = true → tru (mode .& m) = true →
  tru (mode .& TRACK_MODE_NONE) = false.
Proof.
  unfold selects_used. intros Hm%Z.eqb_eq Hv. rewrite (mode_bit mode TRACK_MODE_NONE) by done.
  assert (mode .& m = main_bits mode .& m) as ->.
  { rewrite <-Hm, (Z.land_comm m), !Z.land_assoc. f_equal. by apply mode_bit. }
  destruct (valid_cases mode Hv) as [E|[E|[E|[E|E]]]]; rewrite E; try done.
  rewrite <-Hm, (Z.land_comm m), Z.land_assoc. done.
Qed.

Lemma good_setTrackPower n e m p s : good n s → selects_used m = true →
  wp (setTrackPower e m p) (λ _ s', good n s') s.
Proof.
  intros Hg Hm. unfold setTrackPower. apply wp_bind, wp_get, wp_bind.
  eapply wp_mono; [apply (wp_mfold (good n))|].
  - intros t a s1 Hin Hg1. assert (alive s1 t) as Ha.
    { apply (good_tracks n); [done|]. unfold tracks in *. destruct Hg as [_ Hn], Hg1 as [_ Hn1]. by rewrite Hn1, <-Hn. }
    apply wp_bind, wp_alive_driver; [done|]. intros d Hd. destruct (has d m) eqn:Eh; simpl; [|by apply wp_ret].
    assert (vat s1 t = Some (viewd d)) as Hv by (unfold vat; by rewrite Hd).
    assert (tru (trackMode d .& TRACK_MODE_NONE) = false) as Hnn.
    { apply (selects_not_none m); [done| |exact Eh].
      destruct (shape_addr s1 t) as [b Hb]; [apply Hg1|split; [apply Ha|]|].
      - apply (sh_vat s1 (in_shape s1 (proj1 Hg1))); [apply Ha|by rewrite Hv].
      - exact (vo_valid _ _ (in_view s1 (proj1 Hg1) t (viewd d) b (proj1 Ha) Hv Hb)). }
    apply wp_bind. apply (wp_mono _ (λ _ s2, same s1 s2)).
    { apply wp_when; intros _; [apply before_on_same; try done; apply Hg1|apply track_same_refl]. }
    intros [] s2 H2. cbn beta in H2. apply wp_bind.
    eapply wp_mono; [apply (good_power n e t p s2 (viewd d))|].
    + by eapply good_same.
    + by eapply step_alive.
    + rewrite (same_vat s1 s2) by (done || apply Ha). exact Hv.
    + simpl. by rewrite Hnn.
    + intros [] s3 Hg3. by apply wp_ret.
  - done.
  - intros c s1 Hg1. cbn beta in Hg1. apply wp_when; intros _; [|done]. apply wp_good_same; [by apply wp_track_emit|done].
Qed.

Lemma good_setOneTrackPower n e p t s : good n s → 0 <= t < 8 →
  wp (setOneTrackPower e p t) (λ _ s', good n s') s.
Proof.
  intros Hg Ht. unfold setOneTrackPower. apply wp_bind, wp_get.
  destruct (track s !! Z.to_nat t) as [o|] eqn:E; cycle 1.
  { apply lookup_ge_None in E. rewrite (sh_len s (in_shape s (proj1 Hg))) in E. lia. }
  destruct o as [d|]; [|apply wp_good_same; [by apply wp_track_emit|done]].
  assert (driver_at s t = Some d) as Hd by (unfold driver_at; by rewrite E).
  assert (alive s t) as Ha by (split; [lia|eauto]).
  assert (vat s t = Some (viewd d)) as Hv by (unfold vat; by rewrite Hd).
  apply wp_bind. apply (wp_mono _ (λ q s1, same s s1 ∧ (has d TRACK_MODE_NONE = true → q = OFF))).
  { destruct (has d TRACK_MODE_NONE).
    - apply wp_bind. eapply wp_mono; [by apply (on_setBrake _ _ _ d); [lia|]|]. intros [] s1 H1. by apply wp_ret.
    - apply wp_bind. apply (wp_mono _ (λ _ s1, same s s1)).
      + apply wp_when; intros _; [apply before_on_same; try done; apply Hg|apply track_same_refl].
      + intros [] s1 H1. by apply wp_ret. }
  intros q s1 [H1 Hq]. apply wp_bind. eapply wp_mono; [apply (good_power n e t q s1 (viewd d))|].
  - by eapply good_same.
  - by eapply step_alive.
  - rewrite (same_vat s s1) by (done || lia). exact Hv.
  - intros Hx _. by apply Hq.
  - intros [] s2 Hg2. cbn beta in Hg2. apply wp_bind.
    apply wp_alive_driver; [|intros d' _; apply wp_when; intros _; [apply wp_good_same; [by apply wp_track_emit|done]|done]].
    apply (good_alive n); [done|]. split; [lia|]. destruct Hg as [Hi <-].
    apply (sh_vat s (in_shape s Hi)); [lia|by rewrite Hv].
Qed.

Lemma good_loop n e ack s : good n s → wp (loop e ack) (λ _ s', good n s') s.
Proof.
  intros Hg. unfold loop. apply wp_bind, wp_get. apply wp_bind, wp_mod. apply wp_bind, wp_mod. apply wp_bind, wp_get.
  set (s1 := if nextCycleTrack _ >? _ then _ else _).
  assert (same s s1 ∧ 0 <= nextCycleTrack s1) as [H1 Hc].
  { subst s1. destruct (_ >? _); (split; [by apply same_other|simpl; try apply u8_range; lia]). }
  clearbody s1. assert (good n s1) as Hg1 by (by eapply good_same). apply wp_bind, wp_get.
  destruct (driver_at s1 (nextCycleTrack s1)) as [d|] eqn:Hd; [|by apply wp_ret].
  eapply wp_mono; [by apply (on_check _ _ _ _ d)|]. intros [] s2 (p & Hp & Hst).
  assert (vat s1 (nextCycleTrack s1) = Some (viewd d)) as Hv by (unfold vat; by rewrite Hd).
  destruct Hg1 as [Hi Hn]. split; [|by rewrite (st_last _ _ _ _ Hst)].
  eapply inv_power; [exact Hst|exact Hi|exact Hv|]. intros _ Hoff. simpl in Hoff.
  destruct Hp as [-> |[[E _]|[[E _]|[E _]]]]; [done|by rewrite Hoff in E..].
Qed.


Lemma tracks_good n s s' t : good n s → good n s' → t ∈ tracks s → alive s' t.
Proof.
  intros [_ Hn] Hg Hin. apply (good_tracks n); [done|]. unfold tracks in *. destruct Hg as [_ Hn']. by rewrite Hn', <-Hn.
Qed.

(** Loops over the tracks. *)
Lemma good_for_each n f s : good n s → (∀ t s', alive s' t → good n s' → wp (f t) (λ _ s'', good n s'') s') →
  wp (for_each_track f) (λ _ s', good n s') s.
Proof.
  intros Hg Hf. unfold for_each_track. apply wp_bind, wp_get. apply wp_mfor; [|done].
  intros t s' Hin Hg'. apply Hf; [exact (tracks_good n s s' t Hg Hg' Hin)|done].
Qed.

Lemma good_apply_by_mode n m f s : good n s →
  (∀ t s' d, 0 <= t → driver_at s' t = Some d → wp (on t f) (λ _ s'', same s' s'') s') →
  wp (apply_by_mode m f) (λ _ s', good n s') s.
Proof.
  intros Hg Hf. apply good_for_each; [done|]. intros t s' Ha Hg'. apply wp_bind, wp_alive_driver; [done|].
  intros d Hd. apply wp_when; intros _; [|done]. apply wp_good_same; [|done]. eapply Hf; [apply Ha|done].
Qed.

Lemma good_setDCSignal n cab speed s : good n s → wp (setDCSignal cab speed) (λ _ s', good n s') s.
Proof.
  intros Hg. apply good_for_each; [done|]. intros t s' Ha Hg'. pose proof (in_shape s' (proj1 Hg')) as Hs.
  apply wp_bind, wp_addr; [done|done|]. intros a _. destruct (_ && _); [by apply wp_ret|].
  apply wp_bind, wp_alive_driver; [done|]. intros d Hd. apply wp_when; intros _; [|done].
  apply wp_good_same; [|done]. by apply (on_setDCSignal _ _ _ _ d); [apply Ha|].
Qed.

Lemma good_emit n e s : good n s → (∀ t e', e ≠ Track t e') → wp (emit e) (λ _ s', good n s') s.
Proof. intros Hg He. apply wp_good_same; [by apply wp_track_emit|done]. Qed.

Lemma good_setJoin n b s : good n s → wp (setJoin b) (λ _ s', good n s') s.
Proof.
  intros Hg. unfold setJoin. apply wp_bind, wp_mod, wp_bind, wp_get.
  assert (good n (with_progTrackSyncMain b s)) as Hg1 by (apply (good_same n s); [by apply same_other|done]).
  apply wp_when; intros _; [by apply good_emit|done].
Qed.

Lemma same_setJoin b s : wp (setJoin b) (λ _ s', same s s') s.
Proof.
  unfold setJoin. apply wp_bind, wp_mod, wp_bind, wp_get.
  assert (same s (with_progTrackSyncMain b s)) as H1 by by apply same_other.
  apply wp_when; intros _; [|done]. eapply wp_mono; [by apply wp_track_emit|]. intros [] s' H2.
  exact (track_same_trans _ _ _ H1 H2).
Qed.

(** There is a programming track. *)
Definition prog_at (s : St) : Prop := ∃ t v, t ∈ tracks s ∧ vat s t = Some v ∧ is_prog v = true.
Lemma wp_prog_loop s l : (∀ t, t ∈ l → alive s t) →
  wp (prog_loop l) (λ r s', s' = s ∧ match r with
    | Some (t, d) => t ∈ l ∧ driver_at s t = Some d ∧ has d TRACK_MODE_PROG = true
    | None => ∀ t v, t ∈ l → vat s t = Some v → is_prog v = false end) s.
Proof.
  induction l as [|t l IH]; intros Hl; [apply wp_ret; split; [done|]; intros t v Hin; by apply not_elem_of_nil in Hin|].
  simpl. assert (alive s t) as Ha by (apply Hl; left). apply wp_bind, wp_alive_driver; [done|]. intros d Hd.
  assert (vat s t = Some (viewd d)) as Hv by (unfold vat; by rewrite Hd).
  destruct (has d TRACK_MODE_PROG) eqn:E; [apply wp_ret; repeat split; [left|done|done]|].
  eapply wp_mono; [apply IH; intros u Hu; apply Hl; by right|]. intros r s' [-> Hr]. split; [done|].
  destruct r as [[u du]|]; [destruct Hr as (? & ? & ?); split; [by right|done]|].
  intros u v Hu. apply elem_of_cons in Hu as [->|Hu]; [|by apply Hr].
  rewrite Hv. intros [= <-]. by rewrite <-E, (has_prog s t d (viewd d)).
Qed.
Lemma wp_getProgDriver n s : good n s → wp getProgDriver (λ r s', s' = s ∧ match r with
    | Some (t, d) => t ∈ tracks s ∧ driver_at s t = Some d ∧ has d TRACK_MODE_PROG = true
    | None => ~ prog_at s end) s.
Proof.
  intros Hg. unfold getProgDriver. apply wp_bind, wp_get. eapply wp_mono; [apply wp_prog_loop; intros t; by apply (good_tracks n)|].
  intros [[t d]|] s' [-> Hr]; split; try done. intros (t & v & Hin & Hv & Hp). specialize (Hr t v Hin Hv). congruence.
Qed.
(** Switching the programming track, which is there. *)
Lemma good_prog_power n e p s : good n s → prog_at s →
  wp (let! d := getProgDriver in match d with Some (t, _) => on t (setPower (micros e) (adcs e t) p) | None => Prelude.mfail end)
     (λ _ s', good n s' ∧ prog_at s') s.
Proof.
  intros Hg Hp. apply wp_bind. eapply wp_mono; [by apply (wp_getProgDriver n)|]. intros [[t d]|] s1 [-> Hr]; [|done].
  destruct Hr as (Hin & Hd & Hh). assert (0 <= t) as Ht by (by apply (good_tracks n s t Hg) in Hin as [? _]).
  assert (vat s t = Some (viewd d)) as Hv by (unfold vat; by rewrite Hd).
  eapply wp_mono; [by apply (on_power _ _ _ _ _ d)|]. intros [] s' Hst. destruct Hg as [Hi Hn].
  destruct (shape_addr s t) as [a Ha]; [apply Hi|apply elem_of_rangeZ in Hin; lia|].
  pose proof (vo_valid _ _ (in_view s Hi t (viewd d) a Ht Hv Ha)) as Hok.
  split; [split; [|by rewrite (st_last _ _ _ _ Hst)]|].
  - eapply inv_power; [exact Hst|done|exact Hv|]. intros Hnone _.
    destruct (valid_prog_dc (trackMode d)) as [_ Hf]; [done| |by change (tru (trackMode d .& TRACK_MODE_NONE) = true) in Hnone; rewrite Hf in Hnone].
    by rewrite (has_prog s t d (viewd d)) in Hh by done.
  - exists t, (set_power p (viewd d)). split_and!.
    + unfold tracks in *. by rewrite (st_last _ _ _ _ Hst).
    + rewrite (st_vat _ _ _ _ Hst), Hv by done. unfold at_track. simpl. by rewrite decide_True.
    + rewrite (has_prog s t d (viewd d)) in Hh by done. exact Hh.
Qed.

Lemma good_report n f s : good n s → wp (report f) (λ _ s', good n s') s.
Proof.
  intros Hg. unfold report. apply wp_bind, wp_get, wp_bind.
  eapply wp_mono; [apply (wp_mfold (good n)); [|done]|].
  - intros t v s' Hin Hg'. apply wp_bind, wp_alive_driver; [exact (tracks_good n s s' t Hg Hg' Hin)|]. intros d _. by apply wp_ret.
  - intros v s' Hg'. by apply good_emit.
Qed.

Lemma good_reportCurrentLCD n e row s : good n s → wp (reportCurrentLCD e row) (λ _ s', good n s') s.
Proof.
  intros Hg. unfold reportCurrentLCD. apply wp_bind, wp_get, wp_bind.
  eapply wp_mono; [apply (wp_mfold (good n)); [|done]|].
  - intros t total s1 Hin Hg1. assert (alive s1 t) as Ha by exact (tracks_good n s s1 t Hg Hg1 Hin).
    pose proof (in_shape s1 (proj1 Hg1)) as Hs.
    apply wp_bind, wp_alive_driver; [done|]. intros d Hd. apply wp_bind, wp_addr; [done|done|]. intros a _.
    assert (∀ x, same s1 (with_trackPwrMA (<[Z.to_nat t := x]> (trackPwrMA s1)) s1)) as Hx
      by (intros x; apply same_other; try done; apply length_insert).
    destruct (bool_decide _).
    + apply wp_bind. destruct (trackPwrMA s1 !! Z.to_nat t) as [old|] eqn:E; cycle 1.
      { apply lookup_ge_None in E. rewrite (sh_pwr s1 Hs) in E. pose proof (sh_last s1 Hs).
        apply elem_of_rangeZ in Hin. destruct Hg as [_ Hn], Hg1 as [_ Hn1]. lia. }
      unfold wp at 1. rewrite E. apply wp_bind, wp_mod, wp_bind.
      eapply wp_mono; [apply (good_emit n); [by apply (good_same n s1)|done]|]. intros [] s2 Hg2. by apply wp_ret.
    + apply wp_bind, wp_mod, wp_bind.
      eapply wp_mono; [apply (good_emit n); [by apply (good_same n s1)|done]|]. intros [] s2 Hg2. by apply wp_ret.
  - intros v s' Hg'. cbn beta in Hg'. apply wp_bind, wp_get. by apply good_emit.
Qed.

(** The command: the modifiers need a track that exists. *)
Definition equal_ok (n : Z) (p : list Z) : Prop :=
  match p with
  | [p0; p1] => (p1 = hk "AUTO" ∨ p1 = hk "INV") → i16 (p0 - hk "A") <= n
  | _ => True
  end.

Lemma good_modifier n e t k s : good n s → 0 <= t < 8 → t <= n → 31 .& k = 0 →
  wp (let! d := deref t in setTrackMode e (u8 t) (trackMode d .| k) 0 true) (λ _ s', good n s') s.
Proof.
  intros Hg Ht Hn Hk. apply wp_bind, wp_alive_driver; [apply (good_alive n); [done|lia]|]. intros d Hd.
  assert (vat s t = Some (viewd d)) as Hv by (unfold vat; by rewrite Hd).
  apply good_setTrackMode; [done|apply u8_range|]. unfold valid_mode. rewrite modifier_bits by done.
  destruct (shape_addr s t) as [b Hb]; [apply Hg|destruct Hg; lia|].
  exact (vo_valid _ _ (in_view s (proj1 Hg) t (viewd d) b (proj1 Ht) Hv Hb)).
Qed.

Lemma good_parseEqualSign n e p s : good n s → equal_ok n p → wp (parseEqualSign e p) (λ _ s', good n s') s.
Proof.
  intros Hg Hok. unfold parseEqualSign. destruct p as [|p0 rest].
  - apply wp_bind. eapply wp_mono; [apply good_for_each; [done|]|intros [] s1 Hg1; by apply wp_ret].
    intros t s' Ha Hg'. apply wp_good_same; [|done]. apply wp_stream; [apply Hg'|done].
  - destruct (bool_decide (rest ≠ []) && _) eqn:Eb; [by apply wp_ret|].
    assert (rest ≠ [] → 0 <= i16 (p0 - hk "A") < 8) as Hr.
    { intros Hne. rewrite bool_decide_eq_true_2 in Eb by done. unfold MAX_TRACKS in Eb. lia. }
    destruct rest as [|p1 [|p2 [|p3 rest]]]; try by apply wp_ret.
    + specialize (Hr ltac:(done)). simpl in Hok.
      repeat (match goal with |- context [if ?c then _ else _] => destruct c eqn:?E end;
        [first [by apply good_setTrackMode; [|apply u8_range|]
               |apply good_modifier; try done; apply Hok; (left + right); lia]|]); by apply wp_ret.
    + repeat (match goal with |- context [if ?c then _ else _] => destruct c end;
        [by apply good_setTrackMode; [|apply u8_range|]|]); by apply wp_ret.
Qed.

(** * Setting up *)

(** The constructors of the drivers have switched their pins off. *)
Fixpoint made (i : Z) (ds : list MotorDriver) : list ev :=
  match ds with
  | [] => []
  | d :: ds => (Track i <$> MotorDriver.out (new_driver d (MotorDriver.mkSt d 0 []))) ++ made (i + 1) ds
  end.
Definition constructed (ds : list MotorDriver) : St := with_out (made 0 ds) init.

Lemma trace_made_before ds : ∀ j i, i < j → trace i (made j ds) = [].
Proof.
  induction ds as [|d ds IH]; intros j i Hj; [done|]. cbn [made]. rewrite trace_app, trace_ne by lia. apply IH. lia.
Qed.
Lemma trace_made ds : ∀ i t, i <= t → trace t (made i ds) =
  match ds !! Z.to_nat (t - i) with
  | Some d => MotorDriver.out (new_driver d (MotorDriver.mkSt d 0 []))
  | None => []
  end.
Proof.
  induction ds as [|d ds IH]; intros i t Hi; [done|]. cbn [made]. rewrite trace_app.
  destruct (decide (t = i)) as [->|Hn].
  - rewrite trace_same, Z.sub_diag. cbn [lookup list_lookup Z.to_nat].
    rewrite (trace_made_before ds (i + 1)), app_nil_r by lia. done.
  - rewrite trace_ne by lia. rewrite IH by lia. replace (Z.to_nat (t - i)) with (S (Z.to_nat (t - (i + 1)))) by lia. done.
Qed.

(** The state when the first [k] of the tracks have been added. *)
Record setting (ds : list MotorDriver) (k : nat) (s : St) : Prop := {
  se_len : length (track s) = 8%nat;
  se_pwr : length (trackPwrMA s) = 8%nat;
  se_addr : trackDCAddr s = replicate 8 0;
  se_last : lastTrack s = Z.of_nat (min k (length ds)) - 1;
  se_vat : ∀ t, 0 <= t → vat s t =
    if t <? Z.of_nat k then (λ d, mkV TRACK_MODE_NONE (isProgTrack d) OFF (brakeCanPWM d)) <$> ds !! Z.to_nat t else None;
  se_pins : pins_ok s;
  se_trace : ∀ t, Z.of_nat k <= t → trace t (out s) = trace t (made 0 ds);
}.

Lemma setting_0 ds : setting ds 0 (constructed ds).
Proof.
  assert (∀ t, driver_at (constructed ds) t = None) as Hn.
  { intros t. change (mjoin ((replicate 8 None : list (option MotorDriver)) !! Z.to_nat t) = None).
    destruct (_ !! Z.to_nat t) as [o|] eqn:E; [|done]. by apply lookup_replicate in E as [-> _]. }
  constructor; try done.
  - intros t Ht. unfold vat. rewrite Hn. by replace (t <? Z.of_nat 0) with false by lia.
  - intros t d _. by rewrite Hn.
Qed.

(** Switching off a driver whose constructor has run. *)
Lemma constructed_off d g n a : pin_ok (setPower n a OFF (MotorDriver.mkSt d g (MotorDriver.out (new_driver d (MotorDriver.mkSt d 0 []))))).
Proof.
  pose proof (fresh_pin d n (MotorDriver.mkSt d g [])) as Hf. unfold fresh in Hf.
  assert (setPower n a OFF (MotorDriver.mkSt d g (MotorDriver.out (new_driver d (MotorDriver.mkSt d 0 [])))) =
          setPower n 0 OFF (new_driver d (MotorDriver.mkSt d g []))) as ->; [|exact Hf].
  unfold new_driver, setBrake. simpl. by destruct (brakePin d =? UNUSED_PIN).
Qed.

Lemma lookup_put {A} (l : list A) k n x : (k < length l)%nat → <[k := x]> l !! n = if decide (n = k) then Some x else l !! n.
Proof. intros Hk. destruct (decide (n = k)) as [->|]; [by apply list_lookup_insert_eq|by apply list_lookup_insert_ne]. Qed.

(** The driver that is left when a track has been added. *)
Lemma added n a d g g' : let r := setPower n a OFF (MotorDriver.mkSt d g []) in
  viewd (driver (setMode TRACK_MODE_NONE (MotorDriver.mkSt (driver r) g' [])))
    = mkV TRACK_MODE_NONE (isProgTrack d) OFF (brakeCanPWM d).
Proof.
  cbv zeta. pose proof (role_setPower n a OFF (MotorDriver.mkSt d g [])) as R.
  pose proof (setPower_mode n a OFF (MotorDriver.mkSt d g [])) as M.
  revert R M. unfold role, viewd, brakeCanPWM. simpl. intros [= E1 E2 E3 _ _] ->. by rewrite E2, E3.
Qed.

Lemma wp_addTrack_some e ds k s d : (k < 8)%nat → setting ds k s → ds !! k = Some d →
  wp (addTrack e (Z.of_nat k) (Some d)) (λ _ s', setting ds (S k) s') s.
Proof.
  intros Hk [L P A La V Q T] Ed. unfold addTrack. apply wp_bind, wp_mod. rewrite Nat2Z.id. set (s1 := with_track _ s).
  assert (∀ t, 0 <= t → driver_at s1 t = if decide (t = Z.of_nat k) then Some d else driver_at s t) as Hat.
  { intros t Ht. unfold driver_at, s1. simpl. rewrite lookup_put by lia.
    destruct (decide (t = Z.of_nat k)) as [->|]; [by rewrite Nat2Z.id, decide_True|by rewrite decide_False by lia]. }
  apply wp_bind. eapply wp_mono; [apply (on_ran _ _ s1 d); [lia|by rewrite Hat, decide_True by lia]|].
  set (r := setPower _ _ _ _). intros [] s2 [At2 O2 A2 L2 N2 P2].
  apply wp_bind. eapply wp_mono; [apply (on_ran _ _ s2 (driver r)); [lia|by rewrite At2, decide_True by lia]|].
  intros [] s3 [At3 O3 A3 L3 N3 P3]. set (r3 := setMode _ _) in *. apply wp_mod.
  assert (Z.of_nat k = Z.of_nat (min (S k) (length ds)) - 1) as Hlast by (apply lookup_lt_Some in Ed; lia).
  assert (MotorDriver.out r3 = []) as Er3 by done. rewrite Er3, app_nil_r in O3.
  constructor; simpl.
  - rewrite N3, N2. unfold s1. simpl. by rewrite length_insert.
  - by rewrite P3, P2.
  - by rewrite A3, A2.
  - exact Hlast.
  - intros t Ht. change (vat (with_lastTrack (Z.of_nat k) s3) t) with (vat s3 t). unfold vat. rewrite At3 by done.
    destruct (decide (t = Z.of_nat k)) as [->|Hn].
    + rewrite Nat2Z.id, Ed. replace (Z.of_nat k <? Z.of_nat (S k)) with true by lia. simpl. f_equal.
      exact (added (micros e) (adcs e (Z.of_nat k)) d (globalOverloadStart s1) (globalOverloadStart s2)).
    + rewrite At2, decide_False, Hat, decide_False by done. fold (vat s t). rewrite V by done.
      replace (t <? Z.of_nat (S k)) with (t <? Z.of_nat k) by lia. done.
  - intros t d' Ht. change (driver_at (with_lastTrack (Z.of_nat k) s3) t) with (driver_at s3 t). rewrite At3 by done.
    simpl. rewrite O3, O2, trace_app. destruct (decide (t = Z.of_nat k)) as [->|Hn].
    + intros [= <-]. rewrite trace_same. change (out s1) with (out s). rewrite T, trace_made, Z.sub_0_r, Nat2Z.id, Ed by lia.
      apply (quiet_pin (MotorDriver.mkSt (driver r) 0 (MotorDriver.out (new_driver d (MotorDriver.mkSt d 0 [])) ++ MotorDriver.out r))
               (setMode TRACK_MODE_NONE (MotorDriver.mkSt (driver r) 0 (MotorDriver.out (new_driver d (MotorDriver.mkSt d 0 [])) ++ MotorDriver.out r)))).
      { apply quiet_setMode. }
      pose proof (constructed_off d (globalOverloadStart s1) (micros e) (adcs e (Z.of_nat k))) as Hc.
      rewrite (framed_start (setPower _ _ _)) in Hc by apply framed_setPower. exact Hc.
    + rewrite At2, decide_False, Hat, decide_False by done. rewrite trace_ne, app_nil_r by lia. by apply Q.
  - intros t Ht. rewrite O3, O2, trace_app, trace_ne, app_nil_r by lia. apply T. lia.
Qed.

Lemma wp_addTrack e ds k s : (k < 8)%nat → setting ds k s →
  wp (addTrack e (Z.of_nat k) (ds !! k)) (λ _ s', setting ds (S k) s') s.
Proof.
  intros Hk Hs. destruct (ds !! k) as [d|] eqn:Ed; [by apply wp_addTrack_some|].
  destruct Hs as [L P A La V Q T]. pose proof (proj1 (lookup_ge_None _ _) Ed) as Hge.
  unfold addTrack. apply wp_bind, wp_mod. rewrite Nat2Z.id. set (s1 := with_track _ s). apply wp_ret.
  assert (∀ t, 0 <= t → driver_at s1 t = if decide (t = Z.of_nat k) then None else driver_at s t) as Hat.
  { intros t Ht. unfold driver_at, s1. simpl. rewrite lookup_put by lia.
    destruct (decide (t = Z.of_nat k)) as [->|]; [by rewrite Nat2Z.id, decide_True|by rewrite decide_False by lia]. }
  assert (lastTrack s = Z.of_nat (min (S k) (length ds)) - 1) as Hlast by (rewrite La; lia).
  constructor; simpl; try done.
  - by rewrite length_insert.
  - intros t Ht. unfold vat. rewrite Hat by done. destruct (decide (t = Z.of_nat k)) as [->|Hn].
    + replace (Z.of_nat k <? Z.of_nat (S k)) with true by lia. by rewrite Nat2Z.id, Ed.
    + fold (vat s t). rewrite V by done. by replace (t <? Z.of_nat (S k)) with (t <? Z.of_nat k) by lia.
  - intros t d Ht. rewrite Hat by done. destruct (decide _); [done|]. by apply Q.
  - intros t Ht. apply T. lia.
Qed.

(** Drivers as the constructor leaves them. *)
Definition fresh_drivers (ds : list MotorDriver) : Prop :=
  (1 <= length ds <= 8)%nat ∧ Forall (λ d, isProgTrack d = false) ds.

Lemma wp_addTracks e ds (k : nat) s : (k <= 8)%nat → setting ds k s →
  wp (mfor (rangeZ (Z.of_nat k) (8 - Z.of_nat k)) (λ t, addTrack e t (mjoin ((Some <$> ds) !! Z.to_nat t))))
    (λ _ s', setting ds 8 s') s.
Proof.
  remember (8 - k)%nat as n eqn:En. revert k s En. induction n as [|n IH]; intros k s En Hk Hs.
  - replace k with 8%nat in * by lia. by apply wp_ret.
  - assert (rangeZ (Z.of_nat k) (8 - Z.of_nat k) = Z.of_nat k :: rangeZ (Z.of_nat (S k)) (8 - Z.of_nat (S k))) as ->.
    { unfold rangeZ. replace (Z.to_nat (8 - Z.of_nat k)) with (S n) by lia.
      replace (Z.to_nat (8 - Z.of_nat (S k))) with n by lia. simpl. f_equal; [lia|].
      rewrite <-(fmap_S_seq 0). rewrite <-list_fmap_compose. apply list_fmap_ext. intros i x _. simpl. lia. }
    unfold mfor. simpl. apply wp_bind. rewrite Nat2Z.id, list_lookup_fmap.
    replace (mjoin (Some <$> ds !! k)) with (ds !! k) by (by destruct (ds !! k)).
    eapply wp_mono; [apply wp_addTrack; [lia|exact Hs]|]. intros [] s1 H1. cbn beta in H1. by apply IH; [lia|lia|].
Qed.

Lemma setting_good ds s : fresh_drivers ds → setting ds 8 s → good (Z.of_nat (length ds) - 1) s.
Proof.
  intros [Hl Hf] [L P A La V Q T].
  assert (∀ t v, 0 <= t → vat s t = Some v → ∃ d, ds !! Z.to_nat t = Some d ∧ v = mkV TRACK_MODE_NONE false OFF (brakeCanPWM d)) as K.
  { intros t v Ht. rewrite V by done. destruct (t <? _); [|done].
    destruct (ds !! Z.to_nat t) as [d|] eqn:E; [|done]. intros [= <-]. exists d. split; [done|].
    by rewrite (Forall_lookup_1 _ _ _ _ Hf E). }
  split; [|rewrite La; lia]. constructor; [| | |done].
  - constructor; [rewrite La; lia|done|by rewrite A|done|]. intros t Ht. rewrite V, La by done. split.
    + intros [v Hv]. destruct (t <? _); [|done]. destruct (ds !! Z.to_nat t) eqn:E; [|done].
      apply lookup_lt_Some in E. lia.
    + intros Hle. replace (t <? Z.of_nat 8) with true by lia.
      destruct (lookup_lt_is_Some_2 ds (Z.to_nat t) ltac:(lia)) as [d ->]. eauto.
  - intros t v a Ht Hv Ha. destruct (K t v Ht Hv) as (d & _ & ->). rewrite A in Ha.
    apply lookup_replicate in Ha as [-> _]. by constructor.
  - intros t t' v v' Ht Ht' Hv Hv' Hp. destruct (K t v Ht Hv) as (d & _ & ->). done.
Qed.

Lemma good_Setup e ds : fresh_drivers ds →
  wp (Setup e (Some <$> ds)) (λ _ s', good (Z.of_nat (length ds) - 1) s') (constructed ds).
Proof.
  intros Hd. unfold Setup. apply wp_bind. eapply wp_mono; [apply (wp_addTracks e ds 0); [lia|apply setting_0]|].
  intros [] s1 H1. cbn beta in H1. apply (setting_good ds s1 Hd) in H1.
  apply wp_bind. eapply wp_mono; [by apply good_setTrackMode|]. intros b s2 H2. cbn beta in H2.
  apply wp_bind. eapply wp_mono; [by apply good_setTrackMode|]. intros b' s3 H3. cbn beta in H3.
  apply good_for_each; [done|]. intros t s4 Ha4 H4. apply wp_bind, wp_get.
  assert (lastTrack s4 = Z.of_nat (length ds) - 1) as Hl by apply H4.
  apply (wp_mfor (good (Z.of_nat (length ds) - 1))); [|done]. intros u s5 Hu%elem_of_rangeZ H5.
  unfold common_fault. apply wp_bind. assert (alive s5 t) as Ha5.
  { destruct Ha4 as (Ht & d & Hd4). apply (good_alive _ _ _ H5). split; [done|]. rewrite <-Hl.
    apply (sh_vat s4 (in_shape s4 (proj1 H4))); [done|]. unfold vat. by rewrite Hd4. }
  apply wp_alive_driver; [done|]. intros dt Hdt. apply wp_bind, wp_alive_driver.
  { apply (good_alive _ _ _ H5). destruct Ha4. lia. }
  intros du Hdu. apply wp_when; intros _; [|done].
  assert (∀ x s dx, 0 <= x → driver_at s x = Some dx → wp (on x setCommonFaultPin) (λ _ s', same s s') s) as Hc.
  { intros x s dx Hx Hdx. apply (on_quiet_pin x setCommonFaultPin s dx); try done. }
  apply wp_bind. eapply wp_mono; [apply wp_good_same; [apply (Hc t s5 dt); [apply Ha5|done]|done]|].
  intros [] s6 H6. cbn beta in H6.
  assert (alive s6 u) as (Hu0 & du' & Hdu') by (apply (good_alive _ _ _ H6); destruct Ha4; lia).
  apply wp_good_same; [by apply (Hc u s6 du')|done].
Qed.

(** * Runs *)

Inductive op :=
  | SetTrackMode (e : Env) (t mode dcAddr : Z)
  | Equal (e : Env) (p : list Z)                            (* <= ...> *)
  | ModePower (e : Env) (m : Z) (p : POWERMODE) | OnePower (e : Env) (p : POWERMODE) (t : Z)
  | Loop (e : Env) (ackActive : bool) | Join (b : bool)
  | DCC (b : bool) | PROG (b : bool) | Throttle (cab speedbyte : Z)
  | Current (e : Env) | Gauges | LCD (e : Env) (row : Z).

Definition run_op (o : op) : M St unit :=
  match o with
  | SetTrackMode e t mode a => let! _ := setTrackMode e t mode a true in mreturn tt
  | Equal e p => let! _ := parseEqualSign e p in mreturn tt
  | ModePower e m p => setTrackPower e m p
  | OnePower e p t => setOneTrackPower e p t
  | Loop e ack => loop e ack
  | Join b => setJoin b
  | DCC b => setDCCSignal b
  | PROG b => setPROGSignal b
  | Throttle cab speed => setDCSignal cab speed
  | Current e => reportCurrent e
  | Gauges => reportGauges
  | LCD e row => reportCurrentLCD e row
  end.

(** What the callers guarantee: modes have one main mode, tracks are selected
    by main modes, track numbers stay within the array, and a modifier is
    given to a track that exists. *)
Definition ok_op (n : Z) (o : op) : Prop :=
  match o with
  | SetTrackMode _ t mode _ => 0 <= t ∧ valid_mode mode = true
  | Equal _ p => equal_ok n p
  | ModePower _ m _ => selects_used m = true
  | OnePower _ _ t => 0 <= t < 8
  | _ => True
  end.

Lemma good_run_op n o s : ok_op n o → good n s → wp (run_op o) (λ _ s', good n s') s.
Proof.
  intros Ho Hg. destruct o; simpl in *.
  - apply wp_bind. eapply wp_mono; [apply (good_setTrackMode n); tauto|]. intros b s1 H1. by apply wp_ret.
  - apply wp_bind. eapply wp_mono; [by apply (good_parseEqualSign n)|]. intros b s1 H1. by apply wp_ret.
  - by apply good_setTrackPower.
  - by apply good_setOneTrackPower.
  - by apply good_loop.
  - by apply good_setJoin.
  - apply good_apply_by_mode; [done|]. intros t s' d Ht Hd. by apply (on_setSignal _ _ _ d).
  - apply good_apply_by_mode; [done|]. intros t s' d Ht Hd. by apply (on_setSignal _ _ _ d).
  - by apply good_setDCSignal.
  - by apply good_report.
  - by apply good_report.
  - by apply good_reportCurrentLCD.
Qed.

Definition run_all (e : Env) (ds : list MotorDriver) (l : list op) : option (unit * St) :=
  (Setup e (Some <$> ds) ;;; mfor l run_op) (constructed ds).

Lemma run_good e ds l : fresh_drivers ds → Forall (ok_op (Z.of_nat (length ds) - 1)) l →
  wp (Setup e (Some <$> ds) ;;; mfor l run_op) (λ _ s, good (Z.of_nat (length ds) - 1) s) (constructed ds).
Proof.
  intros Hd Hl. apply wp_bind. eapply wp_mono; [by apply good_Setup|]. intros [] s1 H1. cbn beta in H1.
  apply wp_mfor; [|done]. intros o s2 Hin H2. apply good_run_op; [|done].
  rewrite Forall_forall in Hl. by apply Hl.
Qed.

(** * Theorems *)


(** C16. Changing the mode of a track that exists: refused, with nothing
    changed, when DC is asked of a driver that cannot run it; otherwise the track
    has the mode, its flag of the programming track, the cab (0 unless DC), and
    no power if the mode is a new one, and of the other tracks only a former
    programming track changes, which becomes unused and off. *)
Theorem set_track_mode e s t mode a v : inv s → 0 <= t → vat s t = Some v →
  if can_dc mode && negb (v_can v) then setTrackMode e t mode a true s = Some (false, s) else
  ∃ s', setTrackMode e t mode a true s = Some (true, s') ∧
    vat s' t = Some (mkV mode (to_prog mode) (if mode =? v_mode v then v_power v else OFF) (v_can v)) ∧
    trackDCAddr s' !! Z.to_nat t = Some (if can_dc mode then a else 0) ∧
    ∀ u w, 0 <= u → u ≠ t → vat s u = Some w →
      vat s' u = Some (if to_prog mode && is_prog w then mkV TRACK_MODE_NONE false OFF (v_can w) else w) ∧
      trackDCAddr s' !! Z.to_nat u = trackDCAddr s !! Z.to_nat u.
Proof.
  intros Hi Ht Hv. pose proof (in_shape s Hi) as Hs.
  pose proof (wp_setTrackMode e t mode a true s Hs Ht) as Hw. rewrite Hv in Hw.
  apply wp_run in Hw as (r & s' & E & K).
  destruct (can_dc mode) eqn:Ec, (v_can v) eqn:Ev; simpl in K |- *; destruct K as [-> K]; try (by subst s');
    exists s'; (split; [exact E|]); destruct K as [V A L N P Q];
    (assert (Z.to_nat t < length (trackDCAddr s))%nat as Hlt;
      [rewrite (sh_addr s Hs); pose proof (sh_last s Hs);
       assert (t <= lastTrack s) by (apply (sh_vat s Hs); [done|by rewrite Hv]); lia|]);
    (split; [rewrite V, Hv by done; simpl; unfold mode_step; rewrite decide_True by done; rewrite Ev;
             by destruct (mode =? v_mode v)|]);
    (split; [rewrite A; unfold addr_step; rewrite Ec; by rewrite list_lookup_insert_eq|]);
    intros u w Hu Hn Hw; (split; [|rewrite A; unfold addr_step; by rewrite list_lookup_insert_ne by lia]);
    rewrite V, Hw by done; simpl; unfold mode_step; rewrite decide_False by done;
    (replace (u <=? lastTrack s) with true by (symmetry; apply Z.leb_le, (sh_vat s Hs); [done|by rewrite Hw]));
    by rewrite andb_true_r.
Qed.

(** The commands that add a modifier to the mode of a track give no cab, so
    on a DC track they take its cab away: a track that ran under cab [a] stays a
    DC track, but no throttle moves it any more. *)
Lemma modifier_drops_the_cab e s t v a : inv s → 0 <= t <= lastTrack s → vat s t = Some v →
  can_dc (v_mode v) = true → trackDCAddr s !! Z.to_nat t = Some a →
  ∃ s' v', parseEqualSign e [t + hk "A"; hk "INV"] s = Some (true, s') ∧
    vat s' t = Some v' ∧ can_dc (v_mode v') = true ∧ trackDCAddr s' !! Z.to_nat t = Some 0.
Proof.
  intros Hi Ht Hv Hd Ha. pose proof (in_shape s Hi) as Hs. pose proof (sh_last s Hs) as Hl.
  destruct (vat_driver _ _ _ Hv) as (d & Hdr & Ed).
  pose proof (in_view s Hi t v a (proj1 Ht) Hv Ha) as [O1 _ _ _ O5].
  set (mode := trackMode d .| TRACK_MODIFIER_INV).
  assert (v_mode v = trackMode d) as Em by (by rewrite <-Ed).
  assert (valid_mode mode = true ∧ can_dc mode = true) as [Hm Hc].
  { rewrite Em in O1, Hd. unfold valid_mode, can_dc in *. rewrite (mode_bit mode) by done. rewrite (mode_bit (trackMode d)) in Hd by done.
    unfold mode. by rewrite modifier_bits. }
  pose proof (wp_setTrackMode e t mode 0 true s Hs (proj1 Ht)) as Hw. rewrite Hv, O5, orb_true_r in Hw by done.
  apply wp_run in Hw as (r & s' & E & -> & [V A L N P Q]).
  exists s', (mode_step (lastTrack s) t mode true t v). split.
  { assert (i16 (t + hk "A" - hk "A") = t) as E16 by (replace (t + hk "A" - hk "A") with t by lia; apply i16_id; unfold is_i16; lia).
    assert (u8 t = t) as E8 by (apply u8_id; unfold is_byte; lia).
    unfold parseEqualSign. rewrite E16. rewrite bool_decide_eq_true_2 by done. unfold MAX_TRACKS.
    replace ((t <? 0) || (t >=? 8)) with false by lia. cbn [andb].
    do 7 (match goal with |- context [if ?c then setTrackMode _ _ _ _ _ else _] => replace c with false by reflexivity
                        | |- context [if ?c then mthen (deref _) _ else _] => replace c with false by reflexivity end; cbv iota).
    rewrite Z.eqb_refl, E8.
    unfold mthen at 1, deref at 1. rewrite Hdr. exact E. }
  split; [by rewrite V, Hv by lia|]. unfold mode_step. rewrite decide_True by done. split; [exact Hc|].
  rewrite A. unfold addr_step. rewrite Hc. apply list_lookup_insert_eq. rewrite (sh_addr s Hs). lia.
Qed.

End tracks.

(** ** Witnesses: a shield with two tracks, the second one run in DC *)

#[local] Instance a_board : Board := {| digitalPinToTimer p := (p =? 9) || (p =? 8) |}.
#[local] Instance a_throttles : Throttles := {|
  getLocoSpeedByte cab := if cab =? 3 then 228 else 128; getThrottleFrequency _ := 0 |}.

Definition an_env : Env := mkEnv 1000 (λ _, 0) (λ _, true).
Definition two_drivers : list MotorDriver :=
  [construct OFF (λ _, 0) 0 3 12 255 9 54 3000 2000 255 1023 true;
   construct ON (λ _, 0) 0 (-11) 13 255 8 55 3000 2000 255 1023 true].
Definition some_ops : list op :=
  [Equal an_env [66; hk "DC"; 3]; ModePower an_env TRACK_ALL ON; Throttle 3 100; Loop an_env false;
   Equal an_env [65; hk "PROG"]; OnePower an_env ON 0; LCD an_env 2; PROG true].

Lemma two_drivers_fresh : fresh_drivers two_drivers.
Proof. split; [simpl; lia|]. by repeat constructor. Qed.
Lemma some_ops_ok : Forall (ok_op 1) some_ops.
Proof. repeat constructor; try done; vm_compute; tauto || lia. Qed.


Definition after_run : St := match run_all an_env two_drivers some_ops with Some (_, s) => s | None => init end.
Lemma after_run_inv : inv after_run.
Proof.
  destruct (wp_run _ _ _ (run_good an_env two_drivers some_ops two_drivers_fresh some_ops_ok)) as ([] & s & E & Hg & _).
  unfold after_run, run_all. by rewrite E.
Qed.

Definition a_view : tv := mkV TRACK_MODE_DC false ON true.

Lemma set_track_mode_witness : ∃ s', setTrackMode an_env 1 TRACK_MODE_PROG 0 true after_run = Some (true, s') ∧
  vat s' 1 = Some (mkV TRACK_MODE_PROG true OFF true) ∧ trackDCAddr s' !! 1%nat = Some 0 ∧
  ∀ u w, 0 <= u → u ≠ 1 → vat after_run u = Some w →
    vat s' u = Some (if is_prog w then mkV TRACK_MODE_NONE false OFF (v_can w) else w) ∧
    trackDCAddr s' !! Z.to_nat u = trackDCAddr after_run !! Z.to_nat u.
Proof.
  apply (set_track_mode an_env after_run 1 TRACK_MODE_PROG 0 a_view after_run_inv); [done|by vm_compute].
Defined.

Lemma modifier_drops_the_cab_witness : ∃ s' v', parseEqualSign an_env [66; hk "INV"] after_run = Some (true, s') ∧
  vat s' 1 = Some v' ∧ can_dc (v_mode v') = true ∧ trackDCAddr s' !! 1%nat = Some 0.
Proof.
  apply (modifier_drops_the_cab an_env after_run 1 a_view 3 after_run_inv); [by vm_compute..].
Defined.

End TrackProps.
