(* ===== verification/DCCACK.v ===== *)
(** The programming track (src/DCCACK.h, src/DCCACK.cpp and the programs and
    calls of src/DCC.cpp): the interpreter of the acknowledge programs, the
    retry and power sequence of the callback, the detection of the
    acknowledge pulse, and the calls that read and write CVs and addresses.
    The track is the waveform generator of DCCWaveform; the motor driver's
    current, power and the clock are fields that the environment changes. *)

From S2P Require Import Prelude DCCWaveform LocoSlot DCC.

Module DCCACK.

(** * Opcodes *)

Inductive ackOp :=
  | BASELINE | W0 | W1 | WB | VB | V0 | V1 | WACK | ITC1 | ITC0 | ITCB | ITCBV | ITCB7
  | NAKFAIL | CALLFAIL | BIV | STARTMERGE | MERGE | SETBIT | SETCV | SETBYTE | SETBYTEH | SETBYTEL
  | STASHLOCOID | COMBINELOCOID | ITSKIP | NAKSKIP | COMBINE1920 | BAD20SKIP | FAIL_IF_NONZERO_NAK
  | SKIPTARGET.

#[export] Instance ackOp_eq_dec : EqDecision ackOp.
Proof. solve_decision. Defined.

Definition opcodes : list ackOp :=
  [BASELINE; W0; W1; WB; VB; V0; V1; WACK; ITC1; ITC0; ITCB; ITCBV; ITCB7; NAKFAIL; CALLFAIL; BIV;
   STARTMERGE; MERGE; SETBIT; SETCV; SETBYTE; SETBYTEH; SETBYTEL; STASHLOCOID; COMBINELOCOID; ITSKIP;
   NAKSKIP; COMBINE1920; BAD20SKIP; FAIL_IF_NONZERO_NAK].

(** The byte of an opcode: its position in the enumeration. *)
Definition code (o : ackOp) : Z :=
  match o with
  | BASELINE => 0 | W0 => 1 | W1 => 2 | WB => 3 | VB => 4 | V0 => 5 | V1 => 6 | WACK => 7
  | ITC1 => 8 | ITC0 => 9 | ITCB => 10 | ITCBV => 11 | ITCB7 => 12 | NAKFAIL => 13 | CALLFAIL => 14
  | BIV => 15 | STARTMERGE => 16 | MERGE => 17 | SETBIT => 18 | SETCV => 19 | SETBYTE => 20
  | SETBYTEH => 21 | SETBYTEL => 22 | STASHLOCOID => 23 | COMBINELOCOID => 24 | ITSKIP => 25
  | NAKSKIP => 26 | COMBINE1920 => 27 | BAD20SKIP => 28 | FAIL_IF_NONZERO_NAK => 29
  | SKIPTARGET => 255
  end.
#[warnings="-uniform-inheritance"] Coercion code : ackOp >-> Z.

Definition opcode_of (b : Z) : option ackOp :=
  if b =? 255 then Some SKIPTARGET else if b <? 0 then None else opcodes !! Z.to_nat b.

Inductive CALLBACK_STATE := AFTER_READ | AFTER_WRITE | WAITING_100 | WAITING_30 | READY.
Inductive POWERMODE := OFF | ON | OVERLOAD | ALERT.
#[export] Instance POWERMODE_eq_dec : EqDecision POWERMODE.
Proof. solve_decision. Defined.

Definition WRITE_BYTE : Z := 0x7C.
Definition VERIFY_BYTE : Z := 0x74.
Definition BIT_MANIPULATE : Z := 0x78.
Definition WRITE_BIT : Z := 0xF0.
Definition VERIFY_BIT : Z := 0xE0.
Definition BIT_ON : Z := 0x08.
Definition BIT_OFF : Z := 0x00.
Definition PROG_REPEATS : Z := 8.
Definition RESET_MIN : Z := 8.
Definition LONG_ADDR_MARKER : Z := 0x4000.

(** * State *)

(** The registers of the ack manager. *)
Record Mgr := mkMgr {
  ackManagerByte : Z;
  ackManagerByteVerify : Z;
  ackManagerBitNum : Z;
  ackManagerCv : Z;
  ackManagerStash : Z;
  ackManagerWord : Z;
  ackReceived : bool;
}.

(** The detection of the acknowledge pulse. *)
Record Pulse := mkPulse {
  ackPending : bool;
  ackDetected : bool;
  ackThreshold : Z;
  ackMaxCurrent : Z;
  ackCheckStart : Z;
  ackCheckDuration : Z;
  ackPulseStart : Z;
  ackPulseDuration : Z;
  numAckGaps : Z;
  numAckSamples : Z;
  trailingEdgeCounter : Z;
}.

(** What the rest of the program sees. *)
Inductive ev :=
  | Scheduled (message : list Z)   (* DCCWaveform::progTrack.schedulePacket *)
  | Power (mode : POWERMODE)       (* progDriver->setPower, when it changes the mode *)
  | Join (joined : bool)           (* TrackManager::setJoin *)
  | Callback (result : Z).         (* ackManagerCallback *)

Record Env := mkEnv {
  progDriver : bool;            (* there is a programming track *)
  canMeasure : bool;
  power : POWERMODE;
  joined : bool;
  current : Z;                  (* progDriver->getCurrentRaw() *)
  senseFactor : Z;              (* senseFactorInternal of the motor driver *)
  millis : Z;
  track : DCCWaveform.DCCWaveform.Wave;
}.

Record Settings := mkSettings {
  ackRetry : Z;
  ackRetrySum : Z;
  ackRetryPSum : Z;
  ackLimitmA : Z;
  minAckPulseDuration : Z;
  maxAckPulseDuration : Z;
}.

Record St := mkSt {
  ackManagerProg : option nat;      (* position in the program *)
  ackManagerProgStart : list Z;
  mgr : Mgr;
  ackManagerRetry : Z;
  ackManagerRejoin : bool;
  autoPowerOff : bool;
  callbackState : CALLBACK_STATE;
  callbackStart : Z;
  pulse : Pulse;
  settings : Settings;
  env : Env;
  out : list ev;
}.

Definition init_mgr : Mgr := mkMgr 0 0 0 0 0 0 false.
Definition init_pulse : Pulse := mkPulse false false 0 0 0 0 0 0 0 0 0.
Definition init_settings : Settings := mkSettings 2 0 0 50 2000 20000.
Definition init (e : Env) : St :=
  mkSt None [] init_mgr 0 false false READY 0 init_pulse init_settings e [].

Definition with_prog (p : option nat) (s : St) : St :=
  mkSt p (ackManagerProgStart s) (mgr s) (ackManagerRetry s) (ackManagerRejoin s) (autoPowerOff s)
    (callbackState s) (callbackStart s) (pulse s) (settings s) (env s) (out s).
Definition with_start (l : list Z) (s : St) : St :=
  mkSt (Some 0%nat) l (mgr s) (ackManagerRetry s) (ackManagerRejoin s) (autoPowerOff s)
    (callbackState s) (callbackStart s) (pulse s) (settings s) (env s) (out s).
Definition with_mgr (m : Mgr) (s : St) : St :=
  mkSt (ackManagerProg s) (ackManagerProgStart s) m (ackManagerRetry s) (ackManagerRejoin s) (autoPowerOff s)
    (callbackState s) (callbackStart s) (pulse s) (settings s) (env s) (out s).
Definition with_retry (r : Z) (s : St) : St :=
  mkSt (ackManagerProg s) (ackManagerProgStart s) (mgr s) r (ackManagerRejoin s) (autoPowerOff s)
    (callbackState s) (callbackStart s) (pulse s) (settings s) (env s) (out s).
Definition with_rejoin (b : bool) (s : St) : St :=
  mkSt (ackManagerProg s) (ackManagerProgStart s) (mgr s) (ackManagerRetry s) b (autoPowerOff s)
    (callbackState s) (callbackStart s) (pulse s) (settings s) (env s) (out s).
Definition with_autoPowerOff (b : bool) (s : St) : St :=
  mkSt (ackManagerProg s) (ackManagerProgStart s) (mgr s) (ackManagerRetry s) (ackManagerRejoin s) b
    (callbackState s) (callbackStart s) (pulse s) (settings s) (env s) (out s).
Definition with_callback (c : CALLBACK_STATE) (t : Z) (s : St) : St :=
  mkSt (ackManagerProg s) (ackManagerProgStart s) (mgr s) (ackManagerRetry s) (ackManagerRejoin s) (autoPowerOff s)
    c t (pulse s) (settings s) (env s) (out s).
Definition with_pulse (p : Pulse) (s : St) : St :=
  mkSt (ackManagerProg s) (ackManagerProgStart s) (mgr s) (ackManagerRetry s) (ackManagerRejoin s) (autoPowerOff s)
    (callbackState s) (callbackStart s) p (settings s) (env s) (out s).
Definition with_settings (c : Settings) (s : St) : St :=
  mkSt (ackManagerProg s) (ackManagerProgStart s) (mgr s) (ackManagerRetry s) (ackManagerRejoin s) (autoPowerOff s)
    (callbackState s) (callbackStart s) (pulse s) c (env s) (out s).
Definition with_env (e : Env) (s : St) : St :=
  mkSt (ackManagerProg s) (ackManagerProgStart s) (mgr s) (ackManagerRetry s) (ackManagerRejoin s) (autoPowerOff s)
    (callbackState s) (callbackStart s) (pulse s) (settings s) e (out s).
Definition with_out (l : list ev) (s : St) : St :=
  mkSt (ackManagerProg s) (ackManagerProgStart s) (mgr s) (ackManagerRetry s) (ackManagerRejoin s) (autoPowerOff s)
    (callbackState s) (callbackStart s) (pulse s) (settings s) (env s) l.

Definition with_track (w : DCCWaveform.DCCWaveform.Wave) (e : Env) : Env :=
  mkEnv (progDriver e) (canMeasure e) (power e) (joined e) (current e) (senseFactor e) (millis e) w.
Definition with_power (p : POWERMODE) (e : Env) : Env :=
  mkEnv (progDriver e) (canMeasure e) p (joined e) (current e) (senseFactor e) (millis e) (track e).
Definition with_joined (b : bool) (e : Env) : Env :=
  mkEnv (progDriver e) (canMeasure e) (power e) b (current e) (senseFactor e) (millis e) (track e).

Definition with_byte (b : Z) (m : Mgr) : Mgr :=
  mkMgr b (ackManagerByteVerify m) (ackManagerBitNum m) (ackManagerCv m) (ackManagerStash m)
    (ackManagerWord m) (ackReceived m).
Definition with_bitNum (b : Z) (m : Mgr) : Mgr :=
  mkMgr (ackManagerByte m) (ackManagerByteVerify m) b (ackManagerCv m) (ackManagerStash m)
    (ackManagerWord m) (ackReceived m).
Definition with_cv (c : Z) (m : Mgr) : Mgr :=
  mkMgr (ackManagerByte m) (ackManagerByteVerify m) (ackManagerBitNum m) c (ackManagerStash m)
    (ackManagerWord m) (ackReceived m).
Definition with_stash (b : Z) (m : Mgr) : Mgr :=
  mkMgr (ackManagerByte m) (ackManagerByteVerify m) (ackManagerBitNum m) (ackManagerCv m) b
    (ackManagerWord m) (ackReceived m).
Definition with_word (w : Z) (m : Mgr) : Mgr :=
  mkMgr (ackManagerByte m) (ackManagerByteVerify m) (ackManagerBitNum m) (ackManagerCv m)
    (ackManagerStash m) w (ackReceived m).
Definition with_received (b : bool) (m : Mgr) : Mgr :=
  mkMgr (ackManagerByte m) (ackManagerByteVerify m) (ackManagerBitNum m) (ackManagerCv m)
    (ackManagerStash m) (ackManagerWord m) b.

Definition emit (e : ev) : M St unit := mmod (λ s, with_out (out s ++ [e]) s).
Definition setMgr (f : Mgr → Mgr) : M St unit := mmod (λ s, with_mgr (f (mgr s)) s).
Definition setEnv (f : Env → Env) : M St unit := mmod (λ s, with_env (f (env s)) s).

(** MotorDriver::setPower as far as the programming track sees it: switching
    the track on clears its reset count. *)
Definition setPower (mode : POWERMODE) : M St unit :=
  let! e := mget env in
  if decide (power e = mode) then mreturn tt else
  (if decide (mode = ON ∨ mode = ALERT)
   then setEnv (λ e, with_track (DCCWaveform.DCCWaveform.clearResets (track e)) e)
   else mreturn tt) ;;;
  setEnv (with_power mode) ;;;
  emit (Power mode).

Definition setJoin (b : bool) : M St unit := setEnv (with_joined b) ;;; emit (Join b).

(** MotorDriver::mA2raw. *)
Definition mA2raw (factor mA : Z) : Z := Z.quot (mA * 256) factor.

(** * Starting *)

Definition isActive (s : St) : bool := bool_decide (ackManagerProg s ≠ None).

Definition setAckRetry (retry : Z) : M St Z :=
  let! c := mget settings in
  mmod (with_settings (mkSettings retry 0 (ackRetrySum c) (ackLimitmA c)
    (minAckPulseDuration c) (maxAckPulseDuration c))) ;;;
  mreturn (ackRetrySum c).
Definition setAckLimit (mA : Z) : M St unit :=
  mmod (λ s, let c := settings s in with_settings (mkSettings (ackRetry c) (ackRetrySum c) (ackRetryPSum c) mA
    (minAckPulseDuration c) (maxAckPulseDuration c)) s).
Definition setMinAckPulseDuration (i : Z) : M St unit :=
  mmod (λ s, let c := settings s in with_settings (mkSettings (ackRetry c) (ackRetrySum c) (ackRetryPSum c)
    (ackLimitmA c) i (maxAckPulseDuration c)) s).
Definition setMaxAckPulseDuration (i : Z) : M St unit :=
  mmod (λ s, let c := settings s in with_settings (mkSettings (ackRetry c) (ackRetrySum c) (ackRetryPSum c)
    (ackLimitmA c) (minAckPulseDuration c) i) s).

(** [Setup(cv, byteValueOrBitnum, program, callback)]. *)
Definition Setup (cv byteValueOrBitnum : Z) (program : list Z) : M St unit :=
  let! rejoin := mget (λ s, joined (env s)) in
  mmod (with_rejoin rejoin) ;;;
  (when rejoin do
     (setJoin false ;;;
      setEnv (λ e, with_track (DCCWaveform.DCCWaveform.clearResets (track e)) e))) ;;;
  let! driver := mget (λ s, progDriver (env s)) in
  if negb driver then
    (when rejoin do setJoin false) ;;; emit (Callback (-3))
  else
  let! measure := mget (λ s, canMeasure (env s)) in
  if negb measure then setJoin rejoin ;;; emit (Callback (-2)) else
  mmod (with_autoPowerOff false) ;;;
  let! p := mget (λ s, power (env s)) in
  (if decide (p = OFF) then mmod (with_autoPowerOff true) ;;; setPower ON else mreturn tt) ;;;
  let! retry := mget (λ s, ackRetry (settings s)) in
  setMgr (with_cv cv) ;;;
  mmod (with_start program) ;;;
  mmod (with_retry retry) ;;;
  setMgr (λ m, mkMgr byteValueOrBitnum byteValueOrBitnum byteValueOrBitnum (ackManagerCv m)
    (ackManagerStash m) (ackManagerWord m) (ackReceived m)).

(** [Setup(wordval, program, callback)]. *)
Definition SetupWord (wordval : Z) (program : list Z) : M St unit :=
  setMgr (with_word wordval) ;;; Setup 0 0 program.

(** * Acknowledge *)

(** True when the caller should come back later. *)
Definition checkResets (numResets : Z) : M St bool :=
  mget (λ s, DCCWaveform.DCCWaveform.getResets (track (env s)) <? numResets).

Definition setAckBaseline : M St unit :=
  mmod (λ s, let p := pulse s in
    with_pulse (mkPulse (ackPending p) (ackDetected p)
      (current (env s) + mA2raw (senseFactor (env s)) (ackLimitmA (settings s)))
      (ackMaxCurrent p) (ackCheckStart p) (ackCheckDuration p) (ackPulseStart p) (ackPulseDuration p)
      (numAckGaps p) (numAckSamples p) (trailingEdgeCounter p)) s).

Definition setAckPending : M St unit :=
  mmod (λ s, let p := pulse s in
    with_pulse (mkPulse true false (ackThreshold p) 0 (millis (env s)) (ackCheckDuration p) 0 0
      0 0 (trailingEdgeCounter p)) s).

Definition getAck (p : Pulse) : Z :=
  if ackPending p then 2 else if ackDetected p then 1 else 0.

(** [checkAck(sentResetsSincePacket)], in interrupt time: [cur] is the current
    read from the motor driver.  True when the packet's repeats are cut short. *)
Definition checkAck (minPulse maxPulse millis micros cur resets : Z) (p : Pulse) : Pulse * bool :=
  if negb (ackPending p) then (p, false) else
  if resets >? 6 then
    (mkPulse false (ackDetected p) (ackThreshold p) (ackMaxCurrent p) (ackCheckStart p)
       (u32 (millis - ackCheckStart p)) (ackPulseStart p) (ackPulseDuration p) (numAckGaps p)
       (numAckSamples p) (trailingEdgeCounter p), false)
  else
  let p := mkPulse true (ackDetected p) (ackThreshold p)
    (if cur >? ackMaxCurrent p then cur else ackMaxCurrent p) (ackCheckStart p) (ackCheckDuration p)
    (ackPulseStart p) (ackPulseDuration p) (numAckGaps p) (u8 (numAckSamples p + 1)) (trailingEdgeCounter p) in
  if cur >? ackThreshold p then
    let gap := trailingEdgeCounter p >? 0 in
    (mkPulse true (ackDetected p) (ackThreshold p) (ackMaxCurrent p) (ackCheckStart p) (ackCheckDuration p)
       (if ackPulseStart p =? 0 then micros else ackPulseStart p) (ackPulseDuration p)
       (if gap then u8 (numAckGaps p + 1) else numAckGaps p) (numAckSamples p)
       (if gap then 0 else trailingEdgeCounter p), false)
  else if ackPulseStart p =? 0 then (p, false) (* keep waiting for leading edge *)
  else
  let duration := if trailingEdgeCounter p =? 0 then u32 (micros - ackPulseStart p) else ackPulseDuration p in
  if trailingEdgeCounter p <? 2 then
    (mkPulse true (ackDetected p) (ackThreshold p) (ackMaxCurrent p) (ackCheckStart p) (ackCheckDuration p)
       (ackPulseStart p) duration (numAckGaps p) (numAckSamples p) (trailingEdgeCounter p + 1), false)
  else if (duration >=? minPulse) && ((duration <=? maxPulse) || (maxPulse =? 0)) then
    (mkPulse false true (ackThreshold p) (ackMaxCurrent p) (ackCheckStart p)
       (u32 (millis - ackCheckStart p)) (ackPulseStart p) duration (numAckGaps p) (numAckSamples p) 0, true)
  else
    (mkPulse true (ackDetected p) (ackThreshold p) (ackMaxCurrent p) (ackCheckStart p) (ackCheckDuration p)
       0 duration (numAckGaps p) (numAckSamples p) 0, false).

(** * Callback: retries, then the power sequence, then the result. *)

Definition count_retry : M St unit :=
  mmod (λ s, let c := settings s in with_settings (mkSettings (ackRetry c) (i16 (ackRetrySum c + 1))
    (ackRetryPSum c) (ackLimitmA c) (minAckPulseDuration c) (maxAckPulseDuration c)) s).

Definition callback (value : Z) : M St unit :=
  let! s := mget id in
  if (value =? -1) && (ackManagerRetry s >? 0) then
    count_retry ;;;
    mmod (with_retry (ackManagerRetry s - 1)) ;;;
    mmod (with_prog (Some 0%nat))
  else
  let now := millis (env s) in
  match callbackState s with
  | AFTER_READ =>
    if ackManagerRejoin s && negb (autoPowerOff s) then
      setPower OFF ;;; mmod (with_callback WAITING_30 now)
    else mmod (with_callback READY (callbackStart s))
  | AFTER_WRITE =>
    if negb (ackManagerRejoin s) && negb (autoPowerOff s) then
      mmod (with_callback READY (callbackStart s))
    else mmod (with_callback WAITING_100 now)
  | WAITING_100 =>
    if u32 (now - callbackStart s) <? 100 then mreturn tt
    else if autoPowerOff s then mmod (with_callback READY (callbackStart s))
    else setPower OFF ;;; mmod (with_callback WAITING_30 now)
  | WAITING_30 =>
    if u32 (now - callbackStart s) <? 30 then mreturn tt
    else setPower ON ;;; mmod (with_callback READY (callbackStart s))
  | READY =>
    (when autoPowerOff s do setPower OFF) ;;;
    (when ackManagerRejoin s do setJoin true) ;;;
    mmod (with_prog None) ;;;
    emit (Callback (i16 value))
  end.

(** * The interpreter *)

(** [break] steps to the next entry, [return] stays on this one. *)
Inductive flow := Next | Stay.

Definition fetch (pc : nat) : M St Z := λ s, b ← ackManagerProgStart s !! pc; Some (b, s).

(** Skip opcodes until SKIPTARGET is found. *)
Fixpoint skip_loop (l : list Z) (pc : nat) : option nat :=
  match l with
  | [] => None
  | b :: l => if b =? SKIPTARGET then Some pc else skip_loop l (S pc)
  end.
Definition skip (pc : nat) : M St flow :=
  λ s, p ← skip_loop (drop (S pc) (ackManagerProgStart s)) (S pc); Some (Next, with_prog (Some p) s).

Definition message (op1 cv b : Z) : list Z := [DCC.DCC.cv1 op1 cv; DCC.DCC.cv2 cv; b].

(** [DCCWaveform::progTrack.schedulePacket(message, 3, PROG_REPEATS)]. *)
Definition schedule (m : list Z) : M St unit :=
  (λ s, w ← DCCWaveform.DCCWaveform.schedulePacket m 3 PROG_REPEATS (track (env s));
        Some (tt, with_env (with_track w (env s)) s)) ;;;
  emit (Scheduled m).

(** Sends a packet when enough resets have been sent. *)
Definition send (write : bool) (m : Mgr → list Z) : M St flow :=
  let! wait := checkResets RESET_MIN in
  if wait : bool then mreturn Stay else
  let! g := mget mgr in
  schedule (m g) ;;;
  setAckPending ;;;
  (when write do mmod (λ s, with_callback AFTER_WRITE (callbackStart s) s)) ;;;
  mreturn Next.

Definition finish (value : Z) : M St flow := callback value ;;; mreturn Stay.

Definition write_bit (on : bool) (g : Mgr) : list Z :=
  message BIT_MANIPULATE (ackManagerCv g)
    (u8 (WRITE_BIT .| (if on then BIT_ON else BIT_OFF) .| ackManagerBitNum g)).
Definition verify_bit (on : bool) (g : Mgr) : list Z :=
  message BIT_MANIPULATE (ackManagerCv g)
    (u8 (VERIFY_BIT .| (if on then BIT_ON else BIT_OFF) .| ackManagerBitNum g)).
Definition write_byte (g : Mgr) : list Z := message WRITE_BYTE (ackManagerCv g) (ackManagerByte g).
Definition verify_byte (g : Mgr) : list Z := message VERIFY_BYTE (ackManagerCv g) (ackManagerByte g).

Definition merged (g : Mgr) : Mgr :=
  let b := u8 (ackManagerByte g <<' 1) in
  with_bitNum (u8 (ackManagerBitNum g - 1))
    (with_byte (if ackReceived g then b else b .| 1) g).

(** The operand of an opcode: the pointer moves on to it. *)
Definition operand (pc : nat) : M St Z :=
  mmod (with_prog (Some (S pc))) ;;; fetch (S pc).

Definition exec (pc : nat) (opcode : option ackOp) : M St flow :=
  let! s := mget id in
  let g := mgr s in
  match opcode with
  | Some BASELINE =>
    if decide (power (env s) = OVERLOAD) then mreturn Stay else
    let! wait := checkResets (if autoPowerOff s || ackManagerRejoin s then 20 else 3) in
    if wait : bool then mreturn Stay else
    setAckBaseline ;;; mmod (with_callback AFTER_READ (callbackStart s)) ;;; mreturn Next
  | Some W0 => send true (write_bit false)
  | Some W1 => send true (write_bit true)
  | Some WB => send true write_byte
  | Some VB => send false verify_byte
  | Some V0 => send false (verify_bit false)
  | Some V1 => send false (verify_bit true)
  | Some WACK =>
    let ackState := getAck (pulse s) in
    if ackState =? 2 then mreturn Stay
    else setMgr (with_received (ackState =? 1)) ;;; mreturn Next
  | Some ITC0 => if ackReceived g then finish 0 else mreturn Next
  | Some ITC1 => if ackReceived g then finish 1 else mreturn Next
  | Some ITCB => if ackReceived g then finish (ackManagerByte g) else mreturn Next
  | Some ITCBV =>
    if ackReceived g then
      (when ackManagerByte g =? ackManagerByteVerify g do count_retry) ;;; finish (ackManagerByte g)
    else mreturn Next
  | Some ITCB7 => if ackReceived g then finish (ackManagerByte g .& 0x7F) else mreturn Next
  | Some NAKFAIL => if negb (ackReceived g) then finish (-1) else mreturn Next
  | Some CALLFAIL => finish (-1)
  | Some BIV => setMgr (with_byte (ackManagerByteVerify g)) ;;; mreturn Next
  | Some STARTMERGE => setMgr (λ g, with_byte 0 (with_bitNum 7 g)) ;;; mreturn Next
  | Some MERGE => setMgr merged ;;; mreturn Next
  | Some SETBIT => let! b := operand pc in setMgr (with_bitNum b) ;;; mreturn Next
  | Some SETCV => let! b := operand pc in setMgr (with_cv b) ;;; mreturn Next
  | Some SETBYTE => let! b := operand pc in setMgr (with_byte b) ;;; mreturn Next
  | Some SETBYTEH => setMgr (with_byte (highByte (ackManagerWord g))) ;;; mreturn Next
  | Some SETBYTEL => setMgr (with_byte (lowByte (ackManagerWord g))) ;;; mreturn Next
  | Some STASHLOCOID => setMgr (with_stash (ackManagerByte g)) ;;; mreturn Next
  | Some COMBINELOCOID =>
    finish (LONG_ADDR_MARKER .| (ackManagerByte g + ((ackManagerStash g - 192) <<' 8)))
  | Some COMBINE1920 =>
    let b := (ackManagerByte g .& 0x7F) mod 100 in
    setMgr (with_byte b) ;;; finish (ackManagerStash g * 100 + b)
  | Some ITSKIP => if negb (ackReceived g) then mreturn Next else skip pc
  | Some NAKSKIP => if ackReceived g then mreturn Next else skip pc
  | Some BAD20SKIP => if ackManagerByte g >? 120 then skip pc else mreturn Next
  | Some FAIL_IF_NONZERO_NAK => if ackManagerByte g =? 0 then mreturn Next else finish (-4)
  | Some SKIPTARGET => mreturn Next
  | None => finish (-1)
  end.

(** [while (ackManagerProg)]: every turn that goes on moves the pointer
    forward, so the length of the program bounds the turns. *)
Fixpoint turns (fuel : nat) : M St unit :=
  let! p := mget ackManagerProg in
  match p, fuel with
  | None, _ => mreturn tt
  | Some _, O => mfail
  | Some pc, S fuel =>
    let! b := fetch pc in
    let! f := exec pc (opcode_of b) in
    match f with
    | Stay => mreturn tt
    | Next => mmod (λ s, with_prog (S <$> ackManagerProg s) s) ;;; turns fuel
    end
  end.

Definition loop : M St unit :=
  let! n := mget (λ s, length (ackManagerProgStart s)) in turns (S n).

(** * Programs *)

#[local] Notation "{{ x ; .. ; y }}" := (@cons Z x .. (@cons Z y nil) ..).

Definition WRITE_BIT0_PROG : list Z :=
  {{BASELINE; W0; WACK; V0; WACK; ITC1; CALLFAIL}}.

Definition WRITE_BIT1_PROG : list Z :=
  {{BASELINE; W1; WACK; V1; WACK; ITC1; CALLFAIL}}.

Definition VERIFY_BIT0_PROG : list Z :=
  {{BASELINE; V0; WACK; ITC0; V1; WACK; ITC1; CALLFAIL}}.

Definition VERIFY_BIT1_PROG : list Z :=
  {{BASELINE; V1; WACK; ITC1; V0; WACK; ITC0; CALLFAIL}}.

Definition READ_BIT_PROG : list Z :=
  {{BASELINE; V1; WACK; ITC1; V0; WACK; ITC0; CALLFAIL}}.

Definition WRITE_BYTE_PROG : list Z :=
  {{BASELINE; WB; WACK; ITC1; VB; WACK; ITC1; CALLFAIL}}.

Definition VERIFY_BYTE_PROG : list Z :=
  {{BASELINE; BIV; VB; WACK; ITCB; STARTMERGE; V0; WACK; MERGE; ITSKIP; SETBIT; 7; V1; WACK; NAKFAIL;
   SETBIT; 6; SKIPTARGET; V0; WACK; MERGE; V0; WACK; MERGE; V0; WACK; MERGE; V0; WACK; MERGE; V0;
   WACK; MERGE; V0; WACK; MERGE; V0; WACK; MERGE; VB; WACK; ITCBV; CALLFAIL}}.

Definition READ_CV_PROG : list Z :=
  {{BASELINE; STARTMERGE; V0; WACK; MERGE; ITSKIP; SETBIT; 7; V1; WACK; NAKFAIL; SETBIT; 6;
   SKIPTARGET; V0; WACK; MERGE; V0; WACK; MERGE; V0; WACK; MERGE; V0; WACK; MERGE; V0; WACK; MERGE;
   V0; WACK; MERGE; V0; WACK; MERGE; VB; WACK; ITCB; CALLFAIL}}.

Definition LOCO_DRIVEAWAY_PROG : list Z :=
  {{BASELINE; SETCV; 20; SETBYTE; 0; VB; WACK; ITSKIP; STARTMERGE; V0; WACK; MERGE; V0; WACK; MERGE;
   V0; WACK; MERGE; V0; WACK; MERGE; V0; WACK; MERGE; V0; WACK; MERGE; V0; WACK; MERGE; V0; WACK;
   MERGE; VB; WACK; NAKSKIP; BAD20SKIP; STASHLOCOID; SETCV; 19; STARTMERGE; V0; WACK; MERGE; V0;
   WACK; MERGE; V0; WACK; MERGE; V0; WACK; MERGE; V0; WACK; MERGE; V0; WACK; MERGE; V0; WACK;
   MERGE; V0; WACK; MERGE; VB; WACK; NAKFAIL; COMBINE1920; SKIPTARGET; SETCV; 19; SETBYTE; 0; VB;
   WACK; ITSKIP; SETBYTE; 128; VB; WACK; ITSKIP; STARTMERGE; V0; WACK; MERGE; V0; WACK; MERGE; V0;
   WACK; MERGE; V0; WACK; MERGE; V0; WACK; MERGE; V0; WACK; MERGE; V0; WACK; MERGE; V0; WACK;
   MERGE; VB; WACK; ITCB7; SKIPTARGET; SETCV; 29; SETBIT; 5; V0; WACK; ITSKIP; SETCV; 17;
   STARTMERGE; V0; WACK; MERGE; V0; WACK; MERGE; V0; WACK; MERGE; V0; WACK; MERGE; V0; WACK; MERGE;
   V0; WACK; MERGE; V0; WACK; MERGE; V0; WACK; MERGE; VB; WACK; NAKFAIL; STASHLOCOID; SETCV; 18;
   STARTMERGE; V0; WACK; MERGE; V0; WACK; MERGE; V0; WACK; MERGE; V0; WACK; MERGE; V0; WACK; MERGE;
   V0; WACK; MERGE; V0; WACK; MERGE; V0; WACK; MERGE; VB; WACK; NAKFAIL; COMBINELOCOID; SKIPTARGET;
   SETCV; 1; STARTMERGE; SETBIT; 6; V0; WACK; MERGE; V0; WACK; MERGE; V0; WACK; MERGE; V0; WACK;
   MERGE; V0; WACK; MERGE; V0; WACK; MERGE; V0; WACK; MERGE; VB; WACK; ITCB; CALLFAIL}}.

Definition LOCO_READ_ID_PROG : list Z :=
  {{BASELINE; SETCV; 29; SETBIT; 5; V0; WACK; ITSKIP; SETCV; 17; STARTMERGE; V0; WACK; MERGE; V0;
   WACK; MERGE; V0; WACK; MERGE; V0; WACK; MERGE; V0; WACK; MERGE; V0; WACK; MERGE; V0; WACK;
   MERGE; V0; WACK; MERGE; VB; WACK; NAKFAIL; STASHLOCOID; SETCV; 18; STARTMERGE; V0; WACK; MERGE;
   V0; WACK; MERGE; V0; WACK; MERGE; V0; WACK; MERGE; V0; WACK; MERGE; V0; WACK; MERGE; V0; WACK;
   MERGE; V0; WACK; MERGE; VB; WACK; NAKFAIL; COMBINELOCOID; SKIPTARGET; SETCV; 1; STARTMERGE;
   SETBIT; 6; V0; WACK; MERGE; V0; WACK; MERGE; V0; WACK; MERGE; V0; WACK; MERGE; V0; WACK; MERGE;
   V0; WACK; MERGE; V0; WACK; MERGE; VB; WACK; ITCB; CALLFAIL}}.

Definition LOCO_READ_CONSIST_PROG : list Z :=
  {{BASELINE; SETCV; 20; SETBYTE; 0; VB; WACK; ITSKIP; STARTMERGE; V0; WACK; MERGE; V0; WACK; MERGE;
   V0; WACK; MERGE; V0; WACK; MERGE; V0; WACK; MERGE; V0; WACK; MERGE; V0; WACK; MERGE; V0; WACK;
   MERGE; VB; WACK; NAKSKIP; BAD20SKIP; STASHLOCOID; SETCV; 19; STARTMERGE; V0; WACK; MERGE; V0;
   WACK; MERGE; V0; WACK; MERGE; V0; WACK; MERGE; V0; WACK; MERGE; V0; WACK; MERGE; V0; WACK;
   MERGE; V0; WACK; MERGE; VB; WACK; NAKFAIL; COMBINE1920; SKIPTARGET; SETCV; 19; SETBYTE; 0; VB;
   WACK; ITC0; SETBYTE; 128; VB; WACK; ITC0; STARTMERGE; V0; WACK; MERGE; V0; WACK; MERGE; V0;
   WACK; MERGE; V0; WACK; MERGE; V0; WACK; MERGE; V0; WACK; MERGE; V0; WACK; MERGE; V0; WACK;
   MERGE; VB; WACK; ITCB7; CALLFAIL}}.

Definition SHORT_LOCO_ID_PROG : list Z :=
  {{BASELINE; SETCV; 20; SETBYTE; 0; WB; WACK; SETCV; 19; SETBYTE; 0; WB; WACK; SETCV; 29; SETBIT; 5;
   W0; WACK; V0; WACK; NAKFAIL; SETCV; 1; SETBYTEL; WB; WACK; ITC1; VB; WACK; ITC1; CALLFAIL}}.

Definition CONSIST_ID_PROG : list Z :=
  {{BASELINE; SETCV; 20; SETBYTEH; WB; WACK; ITSKIP; FAIL_IF_NONZERO_NAK; SKIPTARGET; SETCV; 19;
   SETBYTEL; WB; WACK; ITC1; VB; WACK; ITC1; CALLFAIL}}.

Definition LONG_LOCO_ID_PROG : list Z :=
  {{BASELINE; SETCV; 20; SETBYTE; 0; WB; WACK; SETCV; 19; SETBYTE; 0; WB; WACK; SETCV; 29; SETBIT; 5;
   W1; WACK; V1; WACK; NAKFAIL; SETCV; 17; SETBYTEH; WB; WACK; ITSKIP; VB; WACK; ITSKIP; CALLFAIL;
   SKIPTARGET; SETCV; 18; SETBYTEL; WB; WACK; ITC1; VB; WACK; ITC1; CALLFAIL}}.

(** * Calls *)

Definition writeCVByte (cv byteValue : Z) : M St unit := Setup cv byteValue WRITE_BYTE_PROG.
Definition writeCVBit (cv bitNum : Z) (bitValue : bool) : M St unit :=
  if bitNum >=? 8 then emit (Callback (-1))
  else Setup cv bitNum (if bitValue then WRITE_BIT1_PROG else WRITE_BIT0_PROG).
Definition verifyCVByte (cv byteValue : Z) : M St unit := Setup cv byteValue VERIFY_BYTE_PROG.
Definition verifyCVBit (cv bitNum : Z) (bitValue : bool) : M St unit :=
  if bitNum >=? 8 then emit (Callback (-1))
  else Setup cv bitNum (if bitValue then VERIFY_BIT1_PROG else VERIFY_BIT0_PROG).
Definition readCVBit (cv bitNum : Z) : M St unit :=
  if bitNum >=? 8 then emit (Callback (-1)) else Setup cv bitNum READ_BIT_PROG.
Definition readCV (cv : Z) : M St unit := Setup cv 0 READ_CV_PROG.
Definition getDriveawayLocoId : M St unit := Setup 0 0 LOCO_DRIVEAWAY_PROG.
Definition getLocoId : M St unit := Setup 0 0 LOCO_READ_ID_PROG.
Definition getConsistId : M St unit := Setup 0 0 LOCO_READ_CONSIST_PROG.
Definition setLocoId (id : Z) : M St unit :=
  if (id <? 1) || (id >? 10239) then emit (Callback (-1))
  else if id <=? DCC.DCC.HIGHEST_SHORT_ADDR then SetupWord id SHORT_LOCO_ID_PROG
  else SetupWord (id .| 0xc000) LONG_LOCO_ID_PROG.
Definition consist_word (id : Z) (reverse : bool) : Z :=
  let cv19 := if id <=? DCC.DCC.HIGHEST_SHORT_ADDR then id else id mod 100 in
  let cv20 := if id <=? DCC.DCC.HIGHEST_SHORT_ADDR then 0 else u8 (Z.quot id 100) in
  (cv20 <<' 8) .| (if reverse then cv19 .| 0x80 else cv19).
Definition setConsistId (id : Z) (reverse : bool) : M St unit :=
  if (id <? 0) || (id >? 10239) then emit (Callback (-1))
  else SetupWord (consist_word id reverse) CONSIST_ID_PROG.

End DCCACK.
