(* ===== verification/DCCACKSim.v ===== *)
(** What a decoder on the programming track answers, and the run of the acknowledge programs
    against it, step by step. *)

From S2P Require Import Prelude DCCWaveform DCC DCCACK.

(** What the acknowledge programs mean: an abstract interpreter in which a
    packet is answered at once by the decoder on the programming track.
    Waiting, resets, the power sequence and the callback's delays, which
    DCCACK has and this interpreter has not, are refined away in DCCACKSim. *)

Module DCCACKSpec.
Import DCCACK.DCCACK.

(** What one opcode does: go on at a position, send a packet and go on, or
    call back. *)
Inductive outcome :=
  | Go (pc : nat) (g : Mgr)
  | Ask (m : list Z) (write : bool)
  | Done (value : Z) (g : Mgr).

Definition ifack (b : bool) (value : Z) (pc : nat) (g : Mgr) : option outcome :=
  Some (if b then Done value g else Go (S pc) g).
Definition skip_to (prog : list Z) (pc : nat) (g : Mgr) : option outcome :=
  p ← skip_loop (drop (S pc) prog) (S pc); Some (Go (S p) g).
Definition with_operand (prog : list Z) (pc : nat) (f : Z → Mgr) : option outcome :=
  b ← prog !! S pc; Some (Go (S (S pc)) (f b)).

Definition opsem (prog : list Z) (pc : nat) (ack : bool) (g : Mgr) : option outcome :=
  b ← prog !! pc;
  match opcode_of b with
  | Some BASELINE | Some SKIPTARGET => Some (Go (S pc) g)
  | Some W0 => Some (Ask (write_bit false g) true)
  | Some W1 => Some (Ask (write_bit true g) true)
  | Some WB => Some (Ask (write_byte g) true)
  | Some VB => Some (Ask (verify_byte g) false)
  | Some V0 => Some (Ask (verify_bit false g) false)
  | Some V1 => Some (Ask (verify_bit true g) false)
  | Some WACK => Some (Go (S pc) (with_received ack g))
  | Some ITC0 => ifack (ackReceived g) 0 pc g
  | Some ITC1 => ifack (ackReceived g) 1 pc g
  | Some ITCB | Some ITCBV => ifack (ackReceived g) (ackManagerByte g) pc g
  | Some ITCB7 => ifack (ackReceived g) (ackManagerByte g .& 0x7F) pc g
  | Some NAKFAIL => ifack (negb (ackReceived g)) (-1) pc g
  | Some CALLFAIL | None => Some (Done (-1) g)
  | Some BIV => Some (Go (S pc) (with_byte (ackManagerByteVerify g) g))
  | Some STARTMERGE => Some (Go (S pc) (with_byte 0 (with_bitNum 7 g)))
  | Some MERGE => Some (Go (S pc) (merged g))
  | Some SETBIT => with_operand prog pc (λ b, with_bitNum b g)
  | Some SETCV => with_operand prog pc (λ b, with_cv b g)
  | Some SETBYTE => with_operand prog pc (λ b, with_byte b g)
  | Some SETBYTEH => Some (Go (S pc) (with_byte (highByte (ackManagerWord g)) g))
  | Some SETBYTEL => Some (Go (S pc) (with_byte (lowByte (ackManagerWord g)) g))
  | Some STASHLOCOID => Some (Go (S pc) (with_stash (ackManagerByte g) g))
  | Some COMBINELOCOID =>
    Some (Done (LONG_ADDR_MARKER .| (ackManagerByte g + ((ackManagerStash g - 192) <<' 8))) g)
  | Some COMBINE1920 =>
    let b := (ackManagerByte g .& 0x7F) mod 100 in
    Some (Done (ackManagerStash g * 100 + b) (with_byte b g))
  | Some ITSKIP => if ackReceived g then skip_to prog pc g else Some (Go (S pc) g)
  | Some NAKSKIP => if ackReceived g then Some (Go (S pc) g) else skip_to prog pc g
  | Some BAD20SKIP => if ackManagerByte g >? 120 then skip_to prog pc g else Some (Go (S pc) g)
  | Some FAIL_IF_NONZERO_NAK => ifack (negb (ackManagerByte g =? 0)) (-4) pc g
  end.

(** * Well-formed programs *)

Definition has_operand (b : Z) : bool :=
  match opcode_of b with Some SETBIT | Some SETCV | Some SETBYTE => true | _ => false end.
Definition skips (b : Z) : bool :=
  match opcode_of b with Some ITSKIP | Some NAKSKIP | Some BAD20SKIP => true | _ => false end.
Definition sends (b : Z) : bool :=
  match opcode_of b with
  | Some W0 | Some W1 | Some WB | Some VB | Some V0 | Some V1 => true | _ => false
  end.
Definition always_calls (b : Z) : bool :=
  match opcode_of b with
  | Some CALLFAIL | Some COMBINELOCOID | Some COMBINE1920 | None => true | _ => false
  end.

(** The positions of the opcodes. *)
Fixpoint starts (fuel : nat) (prog : list Z) (pc : nat) : list nat :=
  match fuel with
  | O => []
  | S fuel =>
    match prog !! pc with
    | None => []
    | Some b => pc :: starts fuel prog (if has_operand b then S (S pc) else S pc)
    end
  end.
Definition positions (prog : list Z) : list nat := starts (length prog) prog 0.

Definition mem_nat (n : nat) (l : list nat) : bool := existsb (Nat.eqb n) l.

(** From every opcode, every way on leads to an opcode, and every packet is
    followed by the wait for its acknowledge. *)
Definition position_ok (prog : list Z) (pc : nat) : bool :=
  match prog !! pc with
  | None => false
  | Some b =>
    let ps := positions prog in
    (always_calls b || mem_nat (if has_operand b then S (S pc) else S pc) ps) &&
    (if skips b then
       match skip_loop (drop (S pc) prog) (S pc) with Some p => mem_nat (S p) ps | None => false end
     else true) &&
    (if sends b then bool_decide (prog !! S pc = Some (code WACK)) else true)
  end.

Definition wf_prog (prog : list Z) : bool :=
  bool_decide (prog !! 0%nat = Some (code BASELINE)) && forallb (position_ok prog) (positions prog).

Lemma mem_nat_spec n l : mem_nat n l = true ↔ n ∈ l.
Proof.
  unfold mem_nat. rewrite existsb_exists. split.
  - intros (x & Hx%list_elem_of_In & ->%Nat.eqb_eq). done.
  - intros H. exists n. split; [by apply list_elem_of_In|by apply Nat.eqb_eq].
Qed.

Lemma starts_range fuel prog pc p : p ∈ starts fuel prog pc → (pc <= p < length prog)%nat.
Proof.
  revert pc. induction fuel as [|fuel IH]; intros pc; simpl; [by intros ?%elem_of_nil|].
  destruct (prog !! pc) as [b|] eqn:E; [|by intros ?%elem_of_nil].
  apply lookup_lt_Some in E. intros [->|Hp]%elem_of_cons; [lia|].
  apply IH in Hp. destruct (has_operand b); lia.
Qed.

Lemma skip_loop_ge l pc p : skip_loop l pc = Some p → (pc <= p)%nat.
Proof.
  revert pc. induction l as [|b l IH]; intros pc; simpl; [done|].
  destruct (b =? _); [intros [= ->]; lia|]. intros ?%IH. lia.
Qed.

Lemma wf_position prog p : wf_prog prog = true → p ∈ positions prog → position_ok prog p = true.
Proof.
  intros [_ H]%andb_true_iff Hp. rewrite forallb_forall in H. apply H. by apply list_elem_of_In.
Qed.

Lemma wf_first prog : wf_prog prog = true → prog !! 0%nat = Some (code BASELINE) ∧ 0%nat ∈ positions prog.
Proof.
  intros [H _]%andb_true_iff. apply bool_decide_eq_true in H. split; [done|].
  unfold positions. destruct prog as [|b l]; [done|]. simpl. apply elem_of_cons. by left.
Qed.

(** Where an opcode of a well-formed program goes. *)
Definition leads (prog : list Z) (pc : nat) (o : outcome) : Prop :=
  match o with
  | Go pc' _ => (pc < pc')%nat ∧ pc' ∈ positions prog
  | Ask _ _ => S pc ∈ positions prog
  | Done _ _ => True
  end.

Lemma opsem_total prog pc ack g : wf_prog prog = true → pc ∈ positions prog →
  ∃ o, opsem prog pc ack g = Some o ∧ leads prog pc o.
Proof.
  intros Hwf Hpc. pose proof (wf_position _ _ Hwf Hpc) as Hok. unfold position_ok in Hok.
  unfold opsem. destruct (prog !! pc) as [b|]; [|done]. simpl.
  apply andb_true_iff in Hok as [[Hn Hs]%andb_true_iff _]. unfold always_calls, has_operand, skips in *.
  assert (∀ v b0 g, S pc ∈ positions prog → ∃ o, ifack b0 v pc g = Some o ∧ leads prog pc o) as Hif.
  { intros v b0 g' H. unfold ifack. destruct b0; eexists; (split; [done|]); simpl; [done|]. split; [lia|done]. }
  assert (∀ g, S pc ∈ positions prog → ∃ o, Some (Go (S pc) g) = Some o ∧ leads prog pc o) as Hgo.
  { intros g' H. eexists. split; [done|]. simpl. split; [lia|done]. }
  assert (∀ m w, S pc ∈ positions prog → ∃ o, Some (Ask m w) = Some o ∧ leads prog pc o) as Hask
    by (intros; eexists; done).
  assert (∀ f, S (S pc) ∈ positions prog → ∃ o, with_operand prog pc f = Some o ∧ leads prog pc o) as Hop.
  { intros f H. unfold with_operand. pose proof (starts_range _ _ _ _ H).
    destruct (lookup_lt_is_Some_2 prog (S pc)) as [b' ->]; [lia|]. simpl. eexists. split; [done|].
    simpl. split; [lia|done]. }
  assert (match skip_loop (drop (S pc) prog) (S pc) with Some p => mem_nat (S p) (positions prog) | None => false end
    = true → ∀ g, ∃ o, skip_to prog pc g = Some o ∧ leads prog pc o) as Hsk.
  { intros H g'. unfold skip_to. destruct (skip_loop _ _) as [p|] eqn:E; [|done]. simpl.
    apply mem_nat_spec in H. apply skip_loop_ge in E. eexists. split; [done|]. simpl. split; [lia|done]. }
  destruct (opcode_of b) as [[]|]; simpl in *; try apply mem_nat_spec in Hn;
    try (destruct (ackReceived g)); try (destruct (_ >? _)); eauto; (eexists; done).
Qed.

(** * Running a program against a decoder *)

Section decoder.
Context {D : Type} (respond : D → list Z → bool * D).

Record Abs := mkAbs { a_pc : nat; a_mgr : Mgr; a_ack : bool; a_dec : D }.

Inductive ares := Going (a : Abs) | Called (value : Z) (g : Mgr) (ack : bool) (d : D).

Definition astep (prog : list Z) (a : Abs) : option ares :=
  o ← opsem prog (a_pc a) (a_ack a) (a_mgr a);
  Some (match o with
  | Go pc g => Going (mkAbs pc g (a_ack a) (a_dec a))
  | Ask m _ => let '(ack, d) := respond (a_dec a) m in Going (mkAbs (S (a_pc a)) (a_mgr a) ack d)
  | Done v g => Called v g (a_ack a) (a_dec a)
  end).

(** One pass over the program: the value called back, the registers, the last
    answer and the decoder. *)
Fixpoint aeval (fuel : nat) (prog : list Z) (a : Abs) : option (Z * Mgr * bool * D) :=
  match fuel with
  | O => None
  | S fuel =>
    r ← astep prog a;
    match r with
    | Going a => aeval fuel prog a
    | Called v g ack d => Some (v, g, ack, d)
    end
  end.

(** Passes until one does not fail or the retries are used up. *)
Fixpoint session (retry : nat) (prog : list Z) (g : Mgr) (ack : bool) (d : D) : option (Z * Mgr * D) :=
  '(v, g, ack, d) ← aeval (length prog) prog (mkAbs 0 g ack d);
  match retry with
  | S retry => if v =? -1 then session retry prog g ack d else Some (v, g, d)
  | O => Some (v, g, d)
  end.

Lemma aeval_total prog fuel : wf_prog prog = true → ∀ a, a_pc a ∈ positions prog →
  (length prog <= fuel + a_pc a)%nat → ∃ r, aeval fuel prog a = Some r.
Proof.
  intros Hwf. induction fuel as [|fuel IH]; intros a Ha Hf.
  - apply starts_range in Ha. lia.
  - destruct (opsem_total prog (a_pc a) (a_ack a) (a_mgr a) Hwf Ha) as (o & Ho & Hl).
    cbn [aeval]. unfold astep. rewrite Ho. simpl.
    destruct o as [pc g|m w|v g]; simpl in *.
    + apply IH; simpl; [tauto|lia].
    + destruct (respond (a_dec a) m) as [ack d]. simpl. apply IH; simpl; [done|lia].
    + eauto.
Qed.

(** Every program run in a session ends with a value: as many retries as are
    allowed, each pass at most the length of the program. *)
Lemma session_total prog retry : wf_prog prog = true → ∀ g ack d,
  ∃ r, session retry prog g ack d = Some r.
Proof.
  intros Hwf. induction retry as [|retry IH]; intros g ack d; simpl;
    (destruct (aeval_total prog (length prog) Hwf (mkAbs 0 g ack d)) as [[[[v g'] ack'] d'] ->];
      [by apply wf_first|simpl; lia|]); simpl; [eauto|]. destruct (v =? -1); eauto.
Qed.

Lemma aeval_more fuel fuel' prog a r : (fuel <= fuel')%nat → aeval fuel prog a = Some r → aeval fuel' prog a = Some r.
Proof.
  revert fuel' a. induction fuel as [|fuel IH]; intros [|fuel'] a Hf; try done; try lia.
  cbn [aeval]. destruct (astep prog a) as [[a'|]|]; simpl; [|done|done]. apply IH. lia.
Qed.

End decoder.

(** The programs of DCC are well-formed. *)
Definition all_programs : list (list Z) :=
  [WRITE_BIT0_PROG; WRITE_BIT1_PROG; VERIFY_BIT0_PROG; VERIFY_BIT1_PROG; READ_BIT_PROG; WRITE_BYTE_PROG;
   VERIFY_BYTE_PROG; READ_CV_PROG; LOCO_DRIVEAWAY_PROG; LOCO_READ_ID_PROG; LOCO_READ_CONSIST_PROG;
   SHORT_LOCO_ID_PROG; CONSIST_ID_PROG; LONG_LOCO_ID_PROG].

Lemma all_programs_wf prog : prog ∈ all_programs → wf_prog prog = true.
Proof.
  intros Hp. assert (forallb wf_prog all_programs = true) as H by (vm_compute; reflexivity).
  rewrite forallb_forall in H. apply H. by apply list_elem_of_In.
Qed.

End DCCACKSpec.

(** The acknowledge manager of DCCACK implements the interpreter of
    DCCACKSpec: whatever the timing, the current readings and the state of the
    track generator between two calls of its loop, it sends the same packets,
    retries, and calls back once with the interpreter's value, then leaves the
    power and the join of the track as it found them. *)

Module DCCACKSim.
Import DCCACK.DCCACK DCCACKSpec.

(** * The environment between two calls of the loop *)

Record move := mkMove {
  m_track : DCCWaveform.DCCWaveform.Wave;
  m_current : Z;
  m_elapsed : Z;
}.

(** The packet has been taken and at least 20 resets sent, and 100 ms are past. *)
Definition move_ok (m : move) : Prop :=
  DCCWaveform.DCCWaveform.packetPending (m_track m) = false ∧
  20 <= DCCWaveform.DCCWaveform.sentResetsSincePacket (m_track m) ∧
  100 <= m_elapsed m < 4294967296.

(** The acknowledge of a packet is settled by the interrupts; the clock, the
    current and the track generator have moved. *)
Definition settle (m : move) (ack : bool) (s : St) : St :=
  let p := pulse s in
  let e := env s in
  with_env (mkEnv (progDriver e) (canMeasure e) (power e) (joined e) (m_current m) (senseFactor e)
      (u32 (millis e + m_elapsed m)) (m_track m))
    (with_pulse (mkPulse false (if ackPending p then ack else ackDetected p) (ackThreshold p) (ackMaxCurrent p)
      (ackCheckStart p) (ackCheckDuration p) (ackPulseStart p) (ackPulseDuration p) (numAckGaps p)
      (numAckSamples p) (trailingEdgeCounter p)) s).

Definition sched (e : ev) : option (list Z) := match e with Scheduled m => Some m | _ => None end.
Definition result (e : ev) : option Z := match e with Callback v => Some v | _ => None end.
Definition last_message (s : St) : list Z := default [] (last (omap sched (out s))).
Definition results (s : St) : list Z := omap result (out s).

Lemma last_message_snoc l m : default [] (last (omap sched (l ++ [Scheduled m]))) = m.
Proof. rewrite omap_app. simpl. by rewrite last_snoc. Qed.
Lemma omap_snoc_none {A B} (f : A → option B) l x : f x = None → omap f (l ++ [x]) = omap f l.
Proof. intros H. rewrite omap_app. simpl. rewrite H. by rewrite app_nil_r. Qed.

(** The test for another pass. *)
Lemma again_spec v (r : nat) : (v =? -1) && (Z.of_nat r >? 0) = true → ∃ r', r = S r' ∧ v = -1 ∧
  Z.of_nat r - 1 = Z.of_nat r'.
Proof. intros H. exists (pred r). lia. Qed.
Lemma no_more_spec v (r : nat) : (v =? -1) && (Z.of_nat r >? 0) = false →
  (v ≠ -1 ∨ Z.of_nat r = 0) ∧ (r = O ∨ v ≠ -1).
Proof. lia. Qed.
Lemma last_call v z : v ≠ -1 ∨ z = 0 → (v =? -1) && (z >? 0) = false.
Proof. lia. Qed.
Lemma elapsed_spec now e : 100 <= e < 4294967296 → 100 <= u32 (u32 (now + e) - now).
Proof. zlia. Qed.
Lemma elapsed_test x n : 100 <= x → n <= 100 → (x <? n) = false.
Proof. lia. Qed.

Section sim.
Context {D : Type} (respond : D → list Z → bool * D).

(** Calls of the loop, with the decoder answering the packets in between. *)
Fixpoint drun (ms : list move) (d : D) : M St D :=
  match ms with
  | [] => mreturn d
  | m :: ms =>
    let! s := mget id in
    let '(ack, d) := if ackPending (pulse s) then respond d (last_message s) else (false, d) in
    mmod (settle m ack) ;;;
    loop ;;;
    drun ms d
  end.

(** * Invariant of a running program *)

Section run.
Context (prog : list Z) (rj ap : bool) (rt : Z) (res0 : list Z).
Hypothesis Hwf : wf_prog prog = true.
#[local] Set Default Proof Using "All".

Definition settled (s : St) : Prop :=
  ackPending (pulse s) = false ∧
  20 <= DCCWaveform.DCCWaveform.sentResetsSincePacket (track (env s)).

(** What every state of the session has. *)
Record Base (s : St) : Prop := {
  b_start : ackManagerProgStart s = prog;
  b_rejoin : ackManagerRejoin s = rj;
  b_auto : autoPowerOff s = ap;
  b_joined : joined (env s) = false;
  b_driver : progDriver (env s) = true;
  b_measure : canMeasure (env s) = true;
  b_set : ackRetry (settings s) = rt;
  b_quiet : DCCWaveform.DCCWaveform.packetPending (track (env s)) = true →
    DCCWaveform.DCCWaveform.sentResetsSincePacket (track (env s)) = 0;
  b_res : results s = res0;
}.

Record Inv (retry : nat) (s : St) (a : Abs) (d : D) : Prop := {
  i_base : Base s;
  i_prog : ackManagerProg s = Some (a_pc a);
  i_pos : a_pc a ∈ positions prog;
  i_mgr : mgr s = a_mgr a;
  i_ack : if ackPending (pulse s) then respond d (last_message s) = (a_ack a, a_dec a)
          else ackDetected (pulse s) = a_ack a ∧ a_dec a = d;
  i_pend : ackPending (pulse s) = true → prog !! a_pc a = Some (code WACK);
  i_retry : ackManagerRetry s = Z.of_nat retry;
  i_cb : callbackState s = AFTER_READ ∨ callbackState s = AFTER_WRITE ∨ a_pc a = 0%nat;
  i_ready : callbackState s ≠ WAITING_100 ∧ callbackState s ≠ WAITING_30;
  i_power : power (env s) = ON;
}.

(** The opcode calls back with [v]; [waited], the clock has moved since. *)
Record Calling (waited : bool) (s : St) (v : Z) : Prop := {
  c_base : Base s;
  c_prog : ∃ pc, ackManagerProg s = Some pc ∧ pc ∈ positions prog ∧
    ∀ ack, opsem prog pc ack (mgr s) = Some (Done v (mgr s));
  c_pend : ackPending (pulse s) = false;
  c_retry : v ≠ -1 ∨ ackManagerRetry s = 0;
  c_cb : match callbackState s with
    | WAITING_100 => power (env s) = ON ∧ rj || ap = true
    | WAITING_30 => power (env s) = OFF ∧ ap = false
    | READY => power (env s) = ON
    | _ => False
    end;
  c_time : callbackState s ≠ READY →
    if waited then 100 <= u32 (millis (env s) - callbackStart s) else callbackStart s = millis (env s);
}.

Definition phase (c : CALLBACK_STATE) : nat :=
  match c with AFTER_READ | AFTER_WRITE => 4 | WAITING_100 => 3 | WAITING_30 => 2 | READY => 1 end.

Record Finished (v : Z) (s : St) : Prop := {
  f_prog : ackManagerProg s = None;
  f_pend : ackPending (pulse s) = false;
  f_joined : joined (env s) = rj;
  f_power : power (env s) = if ap then OFF else ON;
  f_ready : callbackState s = READY;
  f_driver : progDriver (env s) = true;
  f_measure : canMeasure (env s) = true;
  f_set : ackRetry (settings s) = rt;
  f_quiet : DCCWaveform.DCCWaveform.packetPending (track (env s)) = true →
    DCCWaveform.DCCWaveform.sentResetsSincePacket (track (env s)) = 0;
  f_res : results s = res0 ++ [i16 v];
}.

(** After a callback: another pass, or on the way to the result. *)
Definition called (retry : nat) (s : St) (v : Z) (g : Mgr) (ack : bool) (d : D) : Prop :=
  (∃ r, retry = S r ∧ v = -1 ∧ Inv r s (mkAbs 0 g ack d) d) ∨
  ((retry = O ∨ v ≠ -1) ∧ Calling false s v).

Lemma inv_settle retry s a d m : Inv retry s a d → move_ok m →
  let '(ack, d') := if ackPending (pulse s) then respond d (last_message s) else (false, d) in
  Inv retry (settle m ack s) a d' ∧ settled (settle m ack s).
Proof.
  intros [[] ] (Hp & Hr & He). destruct (if ackPending (pulse s) then _ else _) as [ack d'] eqn:E.
  split; [|done]. constructor; simpl; try done.
  - constructor; simpl; try done. by rewrite Hp.
  - destruct (ackPending (pulse s)); [|by simplify_eq]. rewrite E in i_ack0. by simplify_eq.
Qed.

Lemma calling_settle s v m ack : Calling false s v → move_ok m → Calling true (settle m ack s) v.
Proof.
  intros [[]] (Hp & Hr & He). constructor; simpl; try done.
  - constructor; simpl; try done. by rewrite Hp.
  - intros Hc. specialize (c_time0 Hc). rewrite c_time0. by apply elapsed_spec.
Qed.

Lemma finished_settle s v m ack : Finished v s → move_ok m → Finished v (settle m ack s).
Proof. intros [] (Hp & Hr & He). constructor; simpl; try done. by rewrite Hp. Qed.

(** ** Callbacks *)

Lemma results_snoc l e s : out s = l ++ [e] → result e = None → results s = omap result l.
Proof. unfold results. intros ->. by apply omap_snoc_none. Qed.

Ltac solve_base := try constructor; simpl; try done; try congruence;
  try (unfold results in *; simpl; rewrite omap_snoc_none by done; congruence).

Lemma callback_phase waited s v : Calling waited s v → waited = true ∨ callbackState s = READY →
  wp (callback v) (λ _ s', Finished v s' ∨
    (Calling false s' v ∧ (phase (callbackState s') < phase (callbackState s))%nat)) s.
Proof.
  intros [B Hpr Hpd Hrt Hcb Ht] Hw. pose proof B as []. unfold callback. wp1. apply wp_get. unfold id.
  rewrite (last_call _ _ Hrt).
  destruct (callbackState s) eqn:Ec; try done.
  - assert (waited = true) as -> by naive_solver. specialize (Ht ltac:(done)).
    destruct Hcb as [Hon Hor]. rewrite (elapsed_test _ 100 Ht) by done.
    destruct (autoPowerOff s) eqn:Eap; [|unfold setPower; repeat wp1; rewrite Hon; simpl; repeat wp1];
      right; (split; [|simpl; lia]); constructor; simpl; try done; solve_base.
  - assert (waited = true) as -> by naive_solver. specialize (Ht ltac:(done)).
    destruct Hcb as [Hoff Hap]. rewrite (elapsed_test _ 30 Ht) by done.
    unfold setPower. repeat wp1. rewrite Hoff. simpl. repeat wp1. right.
    split; [|simpl; lia]. constructor; simpl; try done; solve_base.
  - unfold setPower, setJoin, emit, setEnv.
    destruct (autoPowerOff s) eqn:Eap, (ackManagerRejoin s) eqn:Erj; simpl; repeat (wp1; simpl);
      rewrite ?Hcb; simpl; repeat (wp1; simpl); left; constructor; simpl; try congruence; try assumption;
      try (rewrite <-b_auto0; congruence);
      unfold results in *; simpl; rewrite !omap_app, b_res0; simpl; by rewrite ?app_nil_r.
Qed.

Lemma finish_inv retry s a d v : Inv retry s a d → ackPending (pulse s) = false →
  (∀ ack, opsem prog (a_pc a) ack (a_mgr a) = Some (Done v (a_mgr a))) →
  wp (finish v) (λ f s', f = Stay ∧ called retry s' v (a_mgr a) (a_ack a) d) s.
Proof.
  intros [B Hpr Hpos Hm Ha Hpd Hrt Hcb Hrd Hpw] Hnp Hdone. pose proof B as []. unfold finish, callback. repeat wp1. unfold id.
  rewrite Hnp in Ha. destruct Ha as [Had Had'].
  assert (a_pc a ≠ 0%nat) as H0.
  { intros H0. specialize (Hdone false). rewrite H0 in Hdone. unfold opsem in Hdone.
    by rewrite (proj1 (wf_first _ Hwf)) in Hdone. }
  rewrite Hrt. destruct ((v =? -1) && (Z.of_nat retry >? 0)) eqn:E.
  - apply again_spec in E as (r' & Er & Ev & Hr'). unfold count_retry. repeat wp1. split; [done|]. left.
    exists r'. split; [done|]. split; [done|]. constructor; simpl; try done.
    + by apply wf_first.
    + by rewrite Hnp.
    + by rewrite Hnp.
    + auto.
  - apply no_more_spec in E as [Hv Hv']. rewrite <-Hrt in Hv.
    assert (∃ pc, ackManagerProg s = Some pc ∧ pc ∈ positions prog ∧
      ∀ ack, opsem prog pc ack (mgr s) = Some (Done v (mgr s))) as Hc by (rewrite Hm; eauto).
    destruct Hcb as [Hcb|[Hcb|?]]; [| |done]; rewrite Hcb.
    + destruct (ackManagerRejoin s && negb (autoPowerOff s)) eqn:Erj;
        [unfold setPower; repeat wp1; rewrite Hpw; simpl|]; repeat wp1; (split; [done|]); right;
        (split; [done|]); constructor; simpl; try done; solve_base.
      rewrite <-b_auto0. by destruct (ackManagerRejoin s), (autoPowerOff s).
    + destruct (negb (ackManagerRejoin s) && negb (autoPowerOff s)) eqn:Erj; repeat wp1; (split; [done|]);
        right; (split; [done|]); constructor; simpl; try done; solve_base.
      rewrite <-b_rejoin0, <-b_auto0. by destruct (ackManagerRejoin s), (autoPowerOff s).
Qed.

(** ** One opcode *)

Definition advance (s : St) : St := with_prog (S <$> ackManagerProg s) s.

(** What is known after one opcode. *)
Definition stepped (retry : nat) (s : St) (a : Abs) (d : D) (o : outcome) (f : flow) (s' : St) : Prop :=
  match f with
  | Stay => (s' = s ∧ ¬ settled s) ∨
      (∃ v g, o = Done v g ∧ a_dec a = d ∧ called retry s' v g (a_ack a) d)
  | Next => ∃ a', astep respond prog a = Some (Going a') ∧ Inv retry (advance s') a' d
  end.

Lemma inv_go retry s a d g' pc' : Inv retry s a d → ackPending (pulse s) = false → pc' ∈ positions prog →
  callbackState s = AFTER_READ ∨ callbackState s = AFTER_WRITE →
  Inv retry (with_mgr g' (with_prog (Some pc') s)) (mkAbs pc' g' (a_ack a) (a_dec a)) d.
Proof.
  intros [[] Hpr Hpos Hm Ha Hpd Hrt Hcb Hrd Hpw] Hnp Hpc Hc. rewrite Hnp in Ha.
  constructor; simpl; rewrite ?Hnp; try done; tauto.
Qed.

Lemma inv_send retry s a d m w : Inv retry s a d → opsem prog (a_pc a) (a_ack a) (a_mgr a) = Some (Ask (m (a_mgr a)) w) →
  ackPending (pulse s) = false → callbackState s = AFTER_READ ∨ callbackState s = AFTER_WRITE →
  prog !! S (a_pc a) = Some (code WACK) → S (a_pc a) ∈ positions prog → length (m (a_mgr a)) = 3%nat →
  wp (send w m) (stepped retry s a d (Ask (m (a_mgr a)) w)) s.
Proof.
  intros I Ho Hnp Hc Hw Hpos Hlen. pose proof I as [B Hpr _ Hm Ha Hpd Hrt Hcb Hrd Hpw]. pose proof B as [].
  unfold send, checkResets. repeat wp1. unfold DCCWaveform.DCCWaveform.getResets.
  destruct (_ <? RESET_MIN) eqn:Er.
  - apply wp_ret. left. split; [done|]. intros [_ Hs]. unfold RESET_MIN in Er. lia.
  - wp1. apply wp_get. unfold schedule. repeat wp1. unfold wp, DCCWaveform.DCCWaveform.schedulePacket, DCCWaveform.DCCWaveform.load_pending.
    rewrite Hm, Hlen. simpl.
    destruct (DCCWaveform.DCCWaveform.packetPending (track (env s))) eqn:Ep;
      [rewrite b_quiet0 in Er by done; discriminate Er|]. simpl.
    unfold astep. destruct (respond (a_dec a) (m (a_mgr a))) as [ack d'] eqn:Ed.
    rewrite Hnp in Ha. destruct Ha as [_ Had].
    destruct w; unfold wp, stepped, setAckPending; simpl; unfold astep; rewrite Ho; simpl; rewrite Ed;
      (eexists; split; [done|]); (constructor; simpl; [constructor; simpl|..]); try done;
      rewrite ?Hpr; try done; try tauto;
      try (unfold results in *; simpl; by rewrite omap_snoc_none);
      unfold last_message; simpl; rewrite last_message_snoc; by rewrite <-Had.
Qed.

Lemma first_is_baseline retry s a d b : Inv retry s a d → prog !! a_pc a = Some b →
  opcode_of b ≠ Some BASELINE → callbackState s = AFTER_READ ∨ callbackState s = AFTER_WRITE.
Proof.
  intros [] Hb Hop. destruct i_cb0 as [|[|H0]]; [tauto..|]. rewrite H0 in Hb.
  rewrite (proj1 (wf_first _ Hwf)) in Hb. by simplify_eq.
Qed.

Lemma pending_is_wack retry s a d b : Inv retry s a d → prog !! a_pc a = Some b →
  opcode_of b ≠ Some WACK → ackPending (pulse s) = false.
Proof.
  intros [] Hb Hop. destruct (ackPending (pulse s)) eqn:E; [|done]. rewrite i_pend0 in Hb by done.
  by simplify_eq.
Qed.

(** An opcode that only changes the registers and goes on. *)
Lemma step_go retry s a d g' o pc' s' : Inv retry s a d →
  opsem prog (a_pc a) (a_ack a) (a_mgr a) = Some o → o = Go pc' g' → leads prog (a_pc a) o →
  ackPending (pulse s) = false → callbackState s = AFTER_READ ∨ callbackState s = AFTER_WRITE →
  advance s' = with_mgr g' (with_prog (Some pc') s) →
  stepped retry s a d o Next s'.
Proof.
  intros I Ho -> [_ Hpos] Hnp Hc Hs. unfold stepped, astep. rewrite Ho. simpl. eexists. split; [done|].
  rewrite Hs. by apply inv_go.
Qed.

Lemma step_finish retry s a d v : Inv retry s a d → ackPending (pulse s) = false →
  (∀ ack, opsem prog (a_pc a) ack (a_mgr a) = Some (Done v (a_mgr a))) →
  wp (finish v) (stepped retry s a d (Done v (a_mgr a))) s.
Proof.
  intros I Hnp Hd. eapply wp_mono; [by apply finish_inv|]. intros f s' [-> Hc]. right.
  exists v, (a_mgr a). split; [done|]. split; [|done]. destruct I. rewrite Hnp in i_ack0. tauto.
Qed.

(** The same after the registers or the retry sum have been changed. *)
Lemma step_finish_mgr retry s a d v g' c : Inv retry s a d → ackRetry c = ackRetry (settings s) → ackPending (pulse s) = false →
  (∀ ack, opsem prog (a_pc a) ack g' = Some (Done v g')) →
  wp (finish v) (stepped retry s a d (Done v g')) (with_settings c (with_mgr g' s)).
Proof.
  intros I Hset Hnp Hd.
  assert (Inv retry (with_settings c (with_mgr g' s)) (mkAbs (a_pc a) g' (a_ack a) (a_dec a)) d) as I'.
  { destruct I as [[] ]. constructor; simpl; try done. constructor; simpl; (assumption || congruence). }
  eapply wp_mono; [by apply (finish_inv _ _ _ _ _ I')|]. intros f s' [-> Hc]. right.
  exists v, g'. split; [done|]. split; [|done]. destruct I. rewrite Hnp in i_ack0. tauto.
Qed.

Lemma step_skip retry s a d p : Inv retry s a d → ackPending (pulse s) = false →
  callbackState s = AFTER_READ ∨ callbackState s = AFTER_WRITE →
  skip_loop (drop (S (a_pc a)) prog) (S (a_pc a)) = Some p →
  opsem prog (a_pc a) (a_ack a) (a_mgr a) = Some (Go (S p) (a_mgr a)) → S p ∈ positions prog →
  wp (skip (a_pc a)) (stepped retry s a d (Go (S p) (a_mgr a))) s.
Proof.
  intros I Hnp Hc Hs Ho Hp. unfold skip, wp. rewrite (b_start _ (i_base _ _ _ _ I)), Hs. simpl.
  unfold astep. rewrite Ho. simpl. eexists. split; [done|].
  rewrite <-(i_mgr _ _ _ _ I). by apply (inv_go retry s a d (mgr s) (S p)).
Qed.

Lemma combine_idempotent b : ((b .& 0x7F) mod 100 .& 0x7F) mod 100 = (b .& 0x7F) mod 100.
Proof.
  assert ((b .& 0x7F) mod 100 .& 0x7F = (b .& 0x7F) mod 100) as ->; [|by rewrite Z.mod_mod].
  change 0x7F with (Z.ones 7). rewrite !Z.land_ones by done. apply Z.mod_small.
  pose proof (Z.mod_pos_bound ((b mod 2 ^ 7)) 100 ltac:(done)). lia.
Qed.

(** The goal is reached by a change of the registers. *)
Ltac go I := eapply (step_go _ _ _ _ _ _ _ _ I); [eassumption|reflexivity|eassumption|auto|
  auto|unfold advance; simpl; rewrite ?(i_prog _ _ _ _ I), <-?(i_mgr _ _ _ _ I); reflexivity].
(** The opcode always calls back like this. *)
Ltac same_call Hb Eop := intros ack; unfold opsem; rewrite Hb; cbn [mbind option_bind]; rewrite Eop; unfold ifack; simpl;
  repeat match goal with H : ?b = true |- context [?b] => rewrite H | H : ?b = false |- context [?b] => rewrite H end;
  reflexivity.

(** The opcode takes an operand from the program. *)
Ltac go_operand I Ho' Ho :=
  unfold with_operand in Ho'; destruct (prog !! S _) as [b'|] eqn:Eb; [|done]; simpl in Ho';
  injection Ho' as <-; unfold operand, fetch; repeat wp1; unfold wp; simpl;
  rewrite (b_start _ (i_base _ _ _ _ I)), Eb; simpl; unfold astep; rewrite Ho; simpl;
  (eexists; split; [done|]); rewrite ?(i_mgr _ _ _ _ I);
  match goal with |- Inv ?r _ (mkAbs ?p ?g _ _) ?d =>
    match type of I with Inv _ ?s ?a _ =>
      change (Inv r (with_mgr g (with_prog (Some p) s)) (mkAbs p g (a_ack a) (a_dec a)) d) end end;
  match goal with H : leads _ _ _ |- _ => destruct H end; apply inv_go; auto.

Lemma exec_inv retry s a d b o : Inv retry s a d → prog !! a_pc a = Some b →
  opsem prog (a_pc a) (a_ack a) (a_mgr a) = Some o → leads prog (a_pc a) o →
  wp (exec (a_pc a) (opcode_of b)) (stepped retry s a d o) s.
Proof.
  intros I Hb Ho Hl. pose proof I as [B Hpr Hpos Hm Ha Hpd Hrt Hcb Hrd Hpw].
  pose proof (first_is_baseline _ _ _ _ _ I Hb) as Hc.
  pose proof (pending_is_wack _ _ _ _ _ I Hb) as Hnp.
  pose proof (wf_position _ _ Hwf Hpos) as Hok. unfold position_ok in Hok. rewrite Hb in Hok.
  apply andb_true_iff in Hok as [Hok Hsend]. apply andb_true_iff in Hok as [_ Hskip].
  unfold sends in Hsend. unfold skips in Hskip.
  pose proof Ho as Ho'. unfold opsem in Ho'. rewrite Hb in Ho'. simpl in Ho'.
  assert (∀ v, opcode_of b ≠ Some WACK → (∀ ack, opsem prog (a_pc a) ack (a_mgr a) = Some (Done v (a_mgr a))) →
    Done v (a_mgr a) = o → wp (finish v) (stepped retry s a d o) s) as Hfin.
  { intros v Hw Hd <-. apply step_finish; auto. }
  assert (∀ v c, (∀ ack, opsem prog (a_pc a) ack (a_mgr a) = Some (Done v (a_mgr a))) → Done v (a_mgr a) = o →
    opcode_of b ≠ Some WACK → ackRetry c = ackRetry (settings s) →
    wp (finish v) (stepped retry s a d o) (with_settings c s)) as Hfin2.
  { intros v c Hd <- Hw Hset. change (with_settings c s) with (with_settings c (with_mgr (mgr s) s)).
    rewrite Hm. apply step_finish_mgr; auto. }
  assert (∀ w m, opcode_of b ≠ Some WACK → opcode_of b ≠ Some BASELINE → Ask (m (a_mgr a)) w = o →
    length (m (a_mgr a)) = 3%nat → bool_decide (prog !! S (a_pc a) = Some (code WACK)) = true →
    wp (send w m) (stepped retry s a d o) s) as Hsd.
  { intros w m Hw Hbl <- Hlen Hwk%bool_decide_eq_true. apply inv_send; auto. }
  assert (opcode_of b ≠ Some WACK → opcode_of b ≠ Some BASELINE →
    skip_to prog (a_pc a) (a_mgr a) = Some o → wp (skip (a_pc a)) (stepped retry s a d o) s) as Hsk.
  { intros Hw Hbl Hs. unfold skip_to in Hs.
    destruct (skip_loop _ _) as [p|] eqn:E; [|done]. simpl in Hs. simplify_eq. destruct Hl.
    apply step_skip; auto. }
  unfold exec. wp1. apply wp_get. unfold id. rewrite Hm.
  destruct (opcode_of b) as [op|] eqn:Eop.
  - assert (op ≠ WACK → Some op ≠ Some WACK) as Hw1 by congruence.
    assert (op ≠ BASELINE → Some op ≠ Some BASELINE) as Hw2 by congruence.
    destruct op; simpl in Ho'; unfold ifack in Ho';
      try (injection Ho' as <-; eapply Hsd; (done || reflexivity));
      try (destruct (ackReceived (a_mgr a)) eqn:Er; injection Ho' as <-;
           [apply Hfin; [done|same_call Hb Eop|reflexivity]|go I]);
      try (injection Ho' as <-; go I).
    + (* BASELINE *)
      injection Ho' as <-. simpl in Hl. rewrite Hpw. destruct (decide (ON = OVERLOAD)); [done|].
      unfold checkResets. repeat wp1. unfold DCCWaveform.DCCWaveform.getResets.
      destruct (_ <? _) eqn:Er.
      * left. split; [done|]. intros [_ H20].
        destruct (autoPowerOff s || ackManagerRejoin s); lia.
      * unfold setAckBaseline. repeat wp1. simpl. unfold astep. rewrite Ho. simpl. eexists. split; [done|].
        unfold advance. simpl. rewrite Hpr. specialize (Hnp ltac:(done)). rewrite Hnp in Ha.
        destruct B. constructor; simpl; rewrite ?Hnp; try done; try tauto; by constructor.
    + (* WACK *)
      unfold getAck. destruct (ackPending (pulse s)) eqn:Ep.
      * left. split; [done|]. by intros [? _]; congruence.
      * destruct Ha as [Had Ha2]. injection Ho' as <-. rewrite Had.
        assert (((if a_ack a then 1 else 0) =? 2) = false) as -> by (by destruct (a_ack a)).
        assert (((if a_ack a then 1 else 0) =? 1) = a_ack a) as -> by (by destruct (a_ack a)).
        go I.
    + (* ITCBV *)
      destruct (ackReceived (a_mgr a)) eqn:Er; injection Ho' as <-; [|go I].
      destruct (_ =? _); repeat wp1; simpl;
        [apply Hfin2|apply Hfin]; try done; same_call Hb Eop.
    + (* NAKFAIL *)
      destruct (ackReceived (a_mgr a)) eqn:Er; injection Ho' as <-; simpl; [go I|].
      apply Hfin; [done|same_call Hb Eop|done].
    + injection Ho' as <-. apply Hfin; [done|same_call Hb Eop|done].
    + go_operand I Ho' Ho.
    + go_operand I Ho' Ho.
    + go_operand I Ho' Ho.
    + injection Ho' as <-. apply Hfin; [done|same_call Hb Eop|done].
    + destruct (ackReceived (a_mgr a)) eqn:Er; simpl; [by apply Hsk|injection Ho' as <-; go I].
    + destruct (ackReceived (a_mgr a)) eqn:Er; simpl; [injection Ho' as <-; go I|by apply Hsk].
    + (* COMBINE1920 *)
      injection Ho' as <-. unfold setMgr. repeat wp1. rewrite Hm.
      apply (step_finish_mgr _ _ _ _ _ _ (settings s) I); [done|by apply Hnp|].
      intros ack. unfold opsem. rewrite Hb. cbn [mbind option_bind]. rewrite Eop. simpl.
      by rewrite combine_idempotent.
    + destruct (_ >? 120) eqn:Er; simpl; [by apply Hsk|injection Ho' as <-; go I].
    + destruct (ackManagerByte (a_mgr a) =? 0) eqn:Er; simpl in Ho'; injection Ho' as <-; [go I|].
      apply Hfin; [done|same_call Hb Eop|done].
  - injection Ho' as <-. apply Hfin; [done| |done]. intros ack. unfold opsem. rewrite Hb. simpl. by rewrite Eop.
Qed.

(** ** Calls of the loop *)

(** Where a call of the loop leaves a running program, seen from a pass that
    still has [n] steps to its value. *)
Definition looped (retry : nat) (n : nat) (s : St) (d : D) (res : Z * Mgr * bool * D) (progress : Prop) : Prop :=
  let '(v, g, ack, df) := res in
  (∃ a n', Inv retry s a d ∧ aeval respond n' prog a = Some res ∧ (n' <= n)%nat ∧ (progress → (n' < n)%nat)) ∨
  (df = d ∧ called retry s v g ack d).

Lemma turns_inv fuel : ∀ retry s a d n res, Inv retry s a d → aeval respond n prog a = Some res →
  (length prog < fuel + a_pc a)%nat →
  wp (turns fuel) (λ _ s', looped retry n s' d res (settled s)) s.
Proof.
  induction fuel as [|fuel IH]; intros retry s a d n res I He Hf.
  - pose proof (starts_range _ _ _ _ (i_pos _ _ _ _ I)). lia.
  - cbn [turns]. wp1. apply wp_get. rewrite (i_prog _ _ _ _ I).
    destruct (opsem_total prog (a_pc a) (a_ack a) (a_mgr a) Hwf (i_pos _ _ _ _ I)) as (o & Ho & Hl).
    pose proof Ho as Hb. unfold opsem in Hb. destruct (prog !! a_pc a) as [b|] eqn:Eb; [clear Hb|done].
    wp1. unfold fetch, wp. rewrite (b_start _ (i_base _ _ _ _ I)), Eb. simpl.
    change (wp (let! f := exec (a_pc a) (opcode_of b) in match f with
      | Next => mmod (λ s, with_prog (S <$> ackManagerProg s) s) ;;; turns fuel
      | Stay => mreturn tt end) (λ _ s', looped retry n s' d res (settled s)) s).
    wp1. eapply wp_mono; [by apply exec_inv|]. intros f s1 H1. cbn beta in H1. destruct f.
    + destruct H1 as (a' & Ha' & I'). wp1. apply wp_mod.
      destruct n as [|n]; [done|]. cbn [aeval] in He. rewrite Ha' in He. simpl in He.
      assert (a_pc a < a_pc a')%nat as Hlt.
      { unfold astep in Ha'. rewrite Ho in Ha'. simpl in Ha'. destruct o as [pc g|m w|v g]; simpl in *.
        - simplify_eq. simpl. tauto.
        - destruct (respond _ _). simplify_eq. simpl. lia.
        - done. }
      eapply wp_mono; [apply (IH retry (advance s1) a' d n res); [done|done|lia]|].
      intros ? s2 H2. cbn beta in H2. destruct res as [[[v g] ack] df].
      destruct H2 as [(a2 & n2 & I2 & E2 & Hn & _)|H2]; [left; exists a2, n2; split; [done|]; split; [done|]; split; [|intros _]; lia|by right].
    + apply wp_ret. destruct res as [[[v g] ack] df]. destruct H1 as [[-> Hns]|(v' & g' & -> & Hd & Hc)].
      * left. exists a, n. split; [done|]. split; [done|]. split; [lia|]. by intros ?%Hns.
      * destruct n as [|n]; [done|]. cbn [aeval] in He. unfold astep in He. rewrite Ho in He. simpl in He.
        simplify_eq. by right.
Qed.

Lemma loop_inv retry s a d n res : Inv retry s a d → aeval respond n prog a = Some res →
  wp loop (λ _ s', looped retry n s' d res (settled s)) s.
Proof.
  intros I He. unfold loop. wp1. apply wp_get. rewrite (b_start _ (i_base _ _ _ _ I)).
  apply (turns_inv _ _ _ a _ _ _ I He). lia.
Qed.

Lemma exec_calling s v pc b : opsem prog pc (ackDetected (pulse s)) (mgr s) = Some (Done v (mgr s)) →
  prog !! pc = Some b →
  ∃ c, exec pc (opcode_of b) s = finish v (with_settings c s) ∧ ackRetry c = ackRetry (settings s).
Proof.
  intros Ho Hb. unfold opsem in Ho. rewrite Hb in Ho. cbn [mbind option_bind] in Ho.
  assert (∀ r, r = finish v s → ∃ c, r = finish v (with_settings c s) ∧
    ackRetry c = ackRetry (settings s)) as Hs.
  { intros r ->. exists (settings s). split; [by destruct s|done]. }
  destruct (opcode_of b) as [op|]; [|injection Ho as <-; by apply Hs].
  destruct op; simpl in Ho; unfold ifack, with_operand, skip_to in Ho;
    try done; try (injection Ho as <-; by apply Hs);
    try (destruct (prog !! S pc); done);
    try (destruct (ackReceived (mgr s)) eqn:E; simpl in Ho; simplify_eq; apply Hs;
         unfold exec, mthen at 1, mget, id; cbn [mbind option_bind]; by rewrite E).
  - destruct (ackReceived (mgr s)) eqn:E; simpl in Ho; simplify_eq.
    unfold exec, mthen at 1, mget, id. cbn [mbind option_bind]. rewrite E.
    destruct (ackManagerByte (mgr s) =? ackManagerByteVerify (mgr s)); [|by apply Hs].
    unfold count_retry, mthen at 1, mmod. cbn [mbind option_bind]. eexists. split; [reflexivity|done].
  - destruct (ackReceived (mgr s)); [|done]. by destruct (skip_loop _ _).
  - destruct (ackReceived (mgr s)); [done|]. by destruct (skip_loop _ _).
  - injection Ho as <- Hg. exists (settings s).
    unfold exec, mthen at 1, mget, id. cbn [mbind option_bind]. unfold setMgr, mthen at 1, mmod.
    cbn [mbind option_bind]. rewrite Hg. split; [by destruct s|done].
  - destruct (_ >? 120); [|done]. by destruct (skip_loop _ _).
  - destruct (ackManagerByte (mgr s) =? 0) eqn:E; simpl in Ho; simplify_eq. apply Hs.
    unfold exec, mthen at 1, mget, id. cbn [mbind option_bind]. by rewrite E.
Qed.

Lemma loop_calling waited s v : Calling waited s v → waited = true ∨ callbackState s = READY →
  wp loop (λ _ s', Finished v s' ∨
    (Calling false s' v ∧ (phase (callbackState s') < phase (callbackState s))%nat)) s.
Proof.
  intros C Hw. destruct (c_prog _ _ _ C) as (pc & Hpc & Hpos & Hd).
  destruct (opsem_total prog pc (ackDetected (pulse s)) (mgr s) Hwf Hpos) as (o & Ho & _).
  destruct (prog !! pc) as [b|] eqn:Eb; [|unfold opsem in Ho; by rewrite Eb in Ho].
  destruct (exec_calling s v pc b (Hd _) Eb) as (c & Hc & Hset).
  unfold loop. wp1. apply wp_get. cbn [turns]. wp1. apply wp_get. rewrite Hpc.
  wp1. unfold fetch, wp. rewrite (b_start _ (c_base _ _ _ C)), Eb. simpl.
  apply wp_bind. unfold wp at 1. rewrite Hc.
  assert (Calling waited (with_settings c s) v) as C' by (destruct C as [[]]; constructor; simpl; auto; constructor; simpl; (assumption || congruence)).
  assert (wp (finish v) (λ f s', f = Stay ∧ (Finished v s' ∨
    (Calling false s' v ∧ (phase (callbackState s') < phase (callbackState s))%nat))) (with_settings c s)) as Hf.
  { unfold finish. wp1. eapply wp_mono; [by apply (callback_phase waited)|]. intros ? s1 H1. cbn beta in H1.
    apply wp_ret. done. }
  unfold wp in Hf. destruct (finish v (with_settings c s)) as [[f s1]|]; [|done]. by destruct Hf as [-> ?].
Qed.

Lemma drun_finished ms : ∀ s v d, Finished v s → Forall move_ok ms → wp (drun ms d) (λ d' s', Finished v s' ∧ d' = d) s.
Proof.
  induction ms as [|m ms IH]; intros s v d F Hm; [done|]. apply Forall_cons in Hm as [Hm Hms]. cbn [drun]. wp1. apply wp_get. unfold id.
  rewrite (f_pend _ _ F). do 2 wp1.
  apply (finished_settle _ _ m false) in F; [|done]. wp1. unfold loop. wp1. apply wp_get. cbn [turns]. wp1. apply wp_get.
  rewrite (f_prog _ _ F). apply wp_ret. by apply IH.
Qed.

Lemma drun_calling ms : ∀ s v d, Calling false s v → Forall move_ok ms →
  (phase (callbackState s) <= length ms)%nat → wp (drun ms d) (λ d' s', Finished v s' ∧ d' = d) s.
Proof.
  induction ms as [|m ms IH]; intros s v d C Hm Hlen.
  - simpl in Hlen. by destruct (callbackState s); simpl in Hlen; lia.
  - apply Forall_cons in Hm as [Hm Hms]. cbn [drun]. wp1. apply wp_get. unfold id.
    rewrite (c_pend _ _ _ C). do 2 wp1.
    apply (calling_settle _ _ m false) in C; [|done]. wp1.
    eapply wp_mono; [apply (loop_calling true _ _ C); by left|]. intros ? s1 [F|[C1 Hp]]; cbn beta.
    + by apply drun_finished.
    + apply IH; [done|done|]. simpl in Hp, Hlen. lia.
Qed.

(** A session: the value of the interpreter, in a bounded number of calls. *)
Definition outcome_of (retry : nat) (res : Z * Mgr * bool * D) : option (Z * Mgr * D) :=
  let '(v, g, ack, d) := res in
  match retry with
  | S retry => if v =? -1 then session respond retry prog g ack d else Some (v, g, d)
  | O => Some (v, g, d)
  end.

Lemma drun_inv ms : ∀ retry s a d n res v g df, Inv retry s a d → aeval respond n prog a = Some res →
  outcome_of retry res = Some (v, g, df) → Forall move_ok ms →
  (n + retry * S (length prog) + 5 <= length ms)%nat →
  wp (drun ms d) (λ d' s', Finished v s' ∧ d' = df) s.
Proof.
  induction ms as [|m ms IH]; intros retry s a d n res v g df I He Ho Hm Hlen; [simpl in Hlen; lia|].
  apply Forall_cons in Hm as [Hm Hms]. cbn [drun]. wp1. apply wp_get. unfold id.
  pose proof (inv_settle _ _ _ _ m I Hm) as Hs.
  destruct (if ackPending (pulse s) then _ else _) as [ack d1]. destruct Hs as [I1 S1].
  do 2 wp1. wp1.
  eapply wp_mono; [by apply (loop_inv _ _ _ _ _ _ I1 He)|]. intros ? s1 H1. cbn beta in H1.
  destruct res as [[[v1 g1] ack1] d2]. simpl in Hlen.
  destruct H1 as [(a2 & n2 & I2 & E2 & Hn & Hlt)|[-> [(r & -> & -> & I2)|[Hr C]]]].
  - specialize (Hlt S1). eapply (IH retry s1 a2 d1 n2); [done|done|done|done|lia].
  - unfold outcome_of in Ho. simpl in Ho.
    destruct (aeval_total respond prog (length prog) Hwf (mkAbs 0 g1 ack1 d1)) as [res' He'];
      [by apply wf_first|simpl; lia|].
    assert (outcome_of r res' = Some (v, g, df)) as Ho'.
    { destruct r as [|r]; simpl in Ho; rewrite He' in Ho; simpl in Ho; destruct res' as [[[? ?] ?] ?]; done. }
    simpl in Hlen. eapply (IH r s1 _ d1 (length prog)); [done|done|done|done|lia].
  - assert (v = v1 ∧ d1 = df) as [-> ->].
    { unfold outcome_of in Ho. destruct retry as [|r]; [by simplify_eq|].
      destruct Hr as [?|Hv]; [done|]. apply Z.eqb_neq in Hv. rewrite Hv in Ho. by simplify_eq. }
    apply drun_calling; [done|done|]. destruct (callbackState s1); simpl; lia.
Qed.

End run.
End sim.
End DCCACKSim.
