(* ===== verification/DCCACKProps.v ===== *)
(** What the programming track guarantees: every call ends with one result and
    restores the track, and reads and writes of CVs and loco addresses are
    round trips on any decoder that obeys the service mode packets. *)

From S2P Require Import Prelude DCCWaveform DCC DCCACK DCCACKSim.

Module DCCACKProps.
Import DCCACK.DCCACK DCCACKSpec DCCACKSim.DCCACKSim.

(** * Decoders: the interface *)

(** A decoder on the programming track: CVs, and how it answers the packets of
    service mode.  It acknowledges what it verifies; it may or may not
    acknowledge what it writes. *)
Class Decoder (D : Type) := {
  cvs : D → Z → Z;
  respond : D → list Z → bool * D;
  cvs_byte d cv : is_byte (cvs d cv);
  verify_byte_law d cv b : 1 <= cv <= 1024 → is_byte b →
    respond d (message VERIFY_BYTE cv b) = (bool_decide (cvs d cv = b), d);
  verify_bit_law d cv n (on : bool) : 1 <= cv <= 1024 → 0 <= n < 8 →
    respond d (message BIT_MANIPULATE cv (u8 (VERIFY_BIT .| (if on then BIT_ON else BIT_OFF) .| n))) =
      (Bool.eqb (Z.testbit (cvs d cv) n) on, d);
  write_byte_law d cv b : 1 <= cv <= 1024 → is_byte b →
    ∃ ack d', respond d (message WRITE_BYTE cv b) = (ack, d') ∧
      cvs d' cv = b ∧ ∀ cv', cv' ≠ cv → cvs d' cv' = cvs d cv';
  write_bit_law d cv n (on : bool) : 1 <= cv <= 1024 → 0 <= n < 8 →
    ∃ ack d', respond d (message BIT_MANIPULATE cv (u8 (WRITE_BIT .| (if on then BIT_ON else BIT_OFF) .| n))) =
        (ack, d') ∧
      Z.testbit (cvs d' cv) n = on ∧ ∀ cv', cv' ≠ cv → cvs d' cv' = cvs d cv';
}.

(** * Requests of the programming track *)

Inductive request :=
  | WriteCVByte (cv v : Z) | WriteCVBit (cv n : Z) (b : bool)
  | VerifyCVByte (cv v : Z) | VerifyCVBit (cv n : Z) (b : bool)
  | ReadCVBit (cv n : Z) | ReadCV (cv : Z)
  | GetDriveawayLocoId | GetLocoId | GetConsistId
  | SetLocoId (id : Z) | SetConsistId (id : Z) (reverse : bool).

Definition run_request (r : request) : M St unit :=
  match r with
  | WriteCVByte cv v => writeCVByte cv v
  | WriteCVBit cv n b => writeCVBit cv n b
  | VerifyCVByte cv v => verifyCVByte cv v
  | VerifyCVBit cv n b => verifyCVBit cv n b
  | ReadCVBit cv n => readCVBit cv n
  | ReadCV cv => readCV cv
  | GetDriveawayLocoId => getDriveawayLocoId
  | GetLocoId => getLocoId
  | GetConsistId => getConsistId
  | SetLocoId id => setLocoId id
  | SetConsistId id reverse => setConsistId id reverse
  end.

(** The program of a request with its word, CV and byte; none for a request
    that is refused at once. *)
Definition plan (r : request) : option (option Z * Z * Z * list Z) :=
  let bit n p := if n >=? 8 then None else Some p in
  match r with
  | WriteCVByte cv v => Some (None, cv, v, WRITE_BYTE_PROG)
  | WriteCVBit cv n b => bit n (None, cv, n, if b then WRITE_BIT1_PROG else WRITE_BIT0_PROG)
  | VerifyCVByte cv v => Some (None, cv, v, VERIFY_BYTE_PROG)
  | VerifyCVBit cv n b => bit n (None, cv, n, if b then VERIFY_BIT1_PROG else VERIFY_BIT0_PROG)
  | ReadCVBit cv n => bit n (None, cv, n, READ_BIT_PROG)
  | ReadCV cv => Some (None, cv, 0, READ_CV_PROG)
  | GetDriveawayLocoId => Some (None, 0, 0, LOCO_DRIVEAWAY_PROG)
  | GetLocoId => Some (None, 0, 0, LOCO_READ_ID_PROG)
  | GetConsistId => Some (None, 0, 0, LOCO_READ_CONSIST_PROG)
  | SetLocoId id =>
    if (id <? 1) || (id >? 10239) then None
    else if id <=? 127 then Some (Some id, 0, 0, SHORT_LOCO_ID_PROG)
    else Some (Some (id .| 0xc000), 0, 0, LONG_LOCO_ID_PROG)
  | SetConsistId id reverse =>
    if (id <? 0) || (id >? 10239) then None
    else Some (Some (consist_word id reverse), 0, 0, CONSIST_ID_PROG)
  end.

(** The registers a program starts with. *)
Definition registers (s : St) (word : option Z) (cv b : Z) : Mgr :=
  mkMgr b b b cv (ackManagerStash (mgr s)) (default (ackManagerWord (mgr s)) word) (ackReceived (mgr s)).

(** No request is under way and the track can be used. *)
Record Idle (s : St) : Prop := {
  idle_prog : ackManagerProg s = None;
  idle_cb : callbackState s = READY;
  idle_pend : ackPending (pulse s) = false;
  idle_driver : progDriver (env s) = true;
  idle_measure : canMeasure (env s) = true;
  idle_power : power (env s) = OFF ∨ power (env s) = ON;
  idle_quiet : DCCWaveform.DCCWaveform.packetPending (track (env s)) = true →
    DCCWaveform.DCCWaveform.sentResetsSincePacket (track (env s)) = 0;
  idle_retry : 0 <= ackRetry (settings s);
}.

(** Calls of the loop that are enough for a program. *)
Definition enough (s : St) (prog : list Z) : nat :=
  (S (Z.to_nat (ackRetry (settings s))) * S (length prog) + 5)%nat.

Lemma plan_wf r w cv b prog : plan r = Some (w, cv, b, prog) → wf_prog prog = true.
Proof.
  intros Hp. destruct r; cbn [plan] in Hp;
    repeat match type of Hp with context [if ?c then _ else _] => destruct c end;
    try discriminate Hp; injection Hp as <- <- <- <-; vm_compute; reflexivity.
Qed.

Section sessions.
Context {D : Type} (respond : D → list Z → bool * D).

Lemma setup_inv s prog cv b d word : Idle s → wf_prog prog = true →
  wp ((match word with Some w => setMgr (with_word w) | None => mreturn tt end) ;;; Setup cv b prog)
    (λ _ s', Inv respond prog (joined (env s)) (bool_decide (power (env s) = OFF)) (ackRetry (settings s))
       (results s) (Z.to_nat (ackRetry (settings s))) s'
       (mkAbs 0 (registers s word cv b) (ackDetected (pulse s)) d) d) s.
Proof.
  intros [] Hwf. pose proof (wf_first _ Hwf) as [_ H0].
  assert (wp (Setup cv b prog)
    (λ _ s', Inv respond prog (joined (env s)) (bool_decide (power (env s) = OFF)) (ackRetry (settings s))
       (results s) (Z.to_nat (ackRetry (settings s))) s'
       (mkAbs 0 (registers s word cv b) (ackDetected (pulse s)) d) d)
    (with_mgr (mkMgr (ackManagerByte (mgr s)) (ackManagerByteVerify (mgr s)) (ackManagerBitNum (mgr s))
       (ackManagerCv (mgr s)) (ackManagerStash (mgr s)) (default (ackManagerWord (mgr s)) word)
       (ackReceived (mgr s))) s)) as Hset.
  { unfold Setup, setJoin, setPower, setEnv, setMgr, emit.
    destruct (joined (env s)) eqn:Ej, idle_power0 as [Hp|Hp]; repeat (wp1; simpl); rewrite ?Ej; simpl;
      repeat (wp1; simpl); rewrite ?idle_driver0; simpl; repeat (wp1; simpl); rewrite ?idle_measure0; simpl;
      repeat (wp1; simpl); rewrite ?Hp; simpl; repeat (wp1; simpl); rewrite ?Hp; simpl; repeat (wp1; simpl);
      (constructor; simpl; [constructor; simpl|..]); rewrite ?idle_pend0, ?Z2Nat.id by done; try done; auto;
      try (unfold results; simpl; rewrite ?omap_app; simpl; by rewrite ?app_nil_r);
      rewrite idle_cb0; done. }
  destruct word as [w|]; wp1; [|apply wp_ret; by destruct s as [? ? [] ? ? ? ? ? ? ? ? ?]].
  unfold setMgr. wp1. exact Hset.
Qed.

Lemma plan_run r s : run_request r s =
  match plan r with
  | None => Some (tt, with_out (out s ++ [Callback (-1)]) s)
  | Some (word, cv, b, prog) =>
    ((match word with Some w => setMgr (with_word w) | None => mreturn tt end) ;;; Setup cv b prog) s
  end.
Proof.
  destruct r; simpl; try done.
  - unfold writeCVBit. by destruct (_ >=? _).
  - unfold verifyCVBit. by destruct (_ >=? _).
  - unfold readCVBit. by destruct (_ >=? _).
  - unfold setLocoId, DCC.DCC.HIGHEST_SHORT_ADDR. destruct (_ || _); [done|]. by destruct (_ <=? _).
  - unfold setConsistId. by destruct (_ || _).
Qed.

Lemma session_wp r s ms d word cv b prog : Idle s → Forall move_ok ms → plan r = Some (word, cv, b, prog) →
  (enough s prog <= length ms)%nat →
  ∃ v g d', session respond (Z.to_nat (ackRetry (settings s))) prog (registers s word cv b)
      (ackDetected (pulse s)) d = Some (v, g, d') ∧
    wp (run_request r ;;; drun respond ms d) (λ d1 s', d1 = d' ∧ results s' = results s ++ [i16 v] ∧ Idle s' ∧
      joined (env s') = joined (env s) ∧ power (env s') = power (env s) ∧
      ackRetry (settings s') = ackRetry (settings s)) s.
Proof.
  intros Hi Hm Hp Hlen. pose proof (plan_wf _ _ _ _ _ Hp) as Hwf.
  destruct (session_total respond prog (Z.to_nat (ackRetry (settings s))) Hwf (registers s word cv b)
    (ackDetected (pulse s)) d) as [[[v g] d'] Hses].
  exists v, g, d'. split; [done|]. wp1. unfold wp at 1. rewrite plan_run, Hp.
  eapply wp_mono; [by apply (setup_inv s prog cv b d word)|]. intros ? s1 I. cbn beta in I.
  destruct (aeval_total respond prog (length prog) Hwf
    (mkAbs 0 (registers s word cv b) (ackDetected (pulse s)) d)) as [res He]; [by apply wf_first|simpl; lia|].
  eapply wp_mono.
  - eapply drun_inv; [exact Hwf|exact I|exact He| |exact Hm|].
    + unfold outcome_of. destruct res as [[[v1 g1] ack1] d1].
      destruct (Z.to_nat (ackRetry (settings s))); simpl in Hses; rewrite He in Hses; exact Hses.
    + unfold enough in Hlen. simpl in Hlen. lia.
  - intros d1 s' [F ->]. destruct F, Hi. split; [done|]. split; [done|].
    assert (power (env s') = power (env s)) as Hpw
      by (rewrite f_power0; case_bool_decide; [done|]; by destruct idle_power0).
    split; [|done]. constructor; try done; [by rewrite Hpw|by rewrite f_set0].
Qed.

End sessions.

(** * Programs, symbolically *)

Section programs.
Context `{Decoder D}.

(** The program calls back, with a value and a decoder that satisfy [P]. *)
Definition reach (prog : list Z) (a : Abs) (P : Z → D → Prop) : Prop :=
  ∃ n v g ack d, aeval respond n prog a = Some (v, g, ack, d) ∧ P v d.

Lemma reach_go prog pc g ack d pc' g' P : opsem prog pc ack g = Some (Go pc' g') →
  reach prog (mkAbs pc' g' ack d) P → reach prog (mkAbs pc g ack d) P.
Proof.
  intros Ho (n & v & g1 & ack1 & d1 & He & HP). exists (S n), v, g1, ack1, d1. split; [|done].
  cbn [aeval]. unfold astep. simpl. by rewrite Ho.
Qed.

Lemma reach_ask prog pc g ack d m w ack' d' P : opsem prog pc ack g = Some (Ask m w) →
  respond d m = (ack', d') → reach prog (mkAbs (S pc) g ack' d') P → reach prog (mkAbs pc g ack d) P.
Proof.
  intros Ho Hr (n & v & g1 & ack1 & d1 & He & HP). exists (S n), v, g1, ack1, d1. split; [|done].
  cbn [aeval]. unfold astep. simpl. rewrite Ho. simpl. by rewrite Hr.
Qed.

Lemma reach_done prog pc g ack d v g' (P : Z → D → Prop) : opsem prog pc ack g = Some (Done v g') → P v d →
  reach prog (mkAbs pc g ack d) P.
Proof.
  intros Ho HP. exists 1%nat, v, g', ack, d. split; [|done].
  cbn [aeval]. unfold astep. simpl. by rewrite Ho.
Qed.

(** The bits of a byte, from the highest, as MERGE puts them together. *)
Lemma merge_bit v k : is_byte v → 0 <= k < 8 →
  u8 ((v >>' (k + 1)) <<' 1) = (v >>' (k + 1)) * 2 ∧
  (if Z.testbit v k then (v >>' (k + 1)) * 2 .| 1 else (v >>' (k + 1)) * 2) = v >>' k.
Proof.
  intros Hv Hk.
  assert ((u8 ((v >>' (k + 1)) <<' 1) =? (v >>' (k + 1)) * 2) &&
    ((if Z.testbit v k then (v >>' (k + 1)) * 2 .| 1 else (v >>' (k + 1)) * 2) =? v >>' k) = true) as Ht; [|lia].
  by apply (range_check2 (λ v k, (u8 ((v >>' (k + 1)) <<' 1) =? (v >>' (k + 1)) * 2) &&
    ((if Z.testbit v k then (v >>' (k + 1)) * 2 .| 1 else (v >>' (k + 1)) * 2) =? v >>' k)) 0 256 0 8);
    [vm_compute|..].
Qed.

(** V0, WACK, MERGE reads one bit. *)
Definition read_bit : list Z := [code V0; code WACK; code MERGE].

Lemma lookup_drop_cons (prog : list Z) pc b l : drop pc prog = b :: l → prog !! pc = Some b ∧ drop (S pc) prog = l.
Proof.
  intros Hd. split.
  - by rewrite <-(Nat.add_0_r pc), <-lookup_drop, Hd.
  - replace (S pc) with (pc + 1)%nat by lia. by rewrite <-drop_drop, Hd.
Qed.

Lemma reach_read_bit prog pc rest v k vf cv st w rc ack d P :
  drop pc prog = read_bit ++ rest → is_byte v → 0 <= k < 8 → 1 <= cv <= 1024 → cvs d cv = v →
  reach prog (mkAbs (3 + pc) (mkMgr (v >>' k) vf (u8 (k - 1)) cv st w (negb (Z.testbit v k)))
    (negb (Z.testbit v k)) d) P →
  reach prog (mkAbs pc (mkMgr (v >>' (k + 1)) vf k cv st w rc) ack d) P.
Proof.
  intros Hd Hv Hk Hcv Hval He. simpl in Hd.
  apply lookup_drop_cons in Hd as [H0 Hd]. apply lookup_drop_cons in Hd as [H1 Hd].
  apply lookup_drop_cons in Hd as [H2 _].
  assert (Bool.eqb (Z.testbit v k) false = negb (Z.testbit v k)) as Hneg by (by destruct (Z.testbit v k)).
  eapply reach_ask.
  { unfold opsem. rewrite H0. reflexivity. }
  { unfold verify_bit. simpl. rewrite (verify_bit_law d cv k false) by lia. by rewrite Hval, Hneg. }
  eapply reach_go.
  { unfold opsem. rewrite H1. reflexivity. }
  eapply reach_go.
  { unfold opsem. rewrite H2. reflexivity. }
  unfold merged, with_received, with_bitNum, with_byte. simpl.
  destruct (merge_bit v k Hv Hk) as [-> Hm].
  replace (if negb (Z.testbit v k) then (v >>' (k + 1)) * 2 else (v >>' (k + 1)) * 2 .| 1)
    with (v >>' k) by (rewrite <-Hm; by destruct (Z.testbit v k)).
  exact He.
Qed.

(** Reading the bits from [k] down to 0. *)
Lemma reach_read_bits (k : nat) : ∀ prog pc rest v vf cv st w rc ack d P,
  drop pc prog = concat (repeat read_bit (S k)) ++ rest → is_byte v → Z.of_nat k < 8 → 1 <= cv <= 1024 →
  cvs d cv = v →
  (∀ rc' ack', reach prog (mkAbs (3 * S k + pc) (mkMgr v vf 255 cv st w rc') ack' d) P) →
  reach prog (mkAbs pc (mkMgr (v >>' (Z.of_nat k + 1)) vf (Z.of_nat k) cv st w rc) ack d) P.
Proof.
  induction k as [|k IH]; intros prog pc rest v vf cv st w rc ack d P Hd Hv Hk Hcv Hval He.
  - apply (reach_read_bit prog pc rest v 0); [exact Hd|done|lia|done|done|apply He].
  - assert (drop pc prog = read_bit ++ (concat (repeat read_bit (S k)) ++ rest)) as Hd' by exact Hd.
    apply (reach_read_bit prog pc (concat (repeat read_bit (S k)) ++ rest) v (Z.of_nat (S k)));
      [done|done|lia|done|done|].
    replace (u8 (Z.of_nat (S k) - 1)) with (Z.of_nat k) by (unfold u8; rewrite Z.mod_small; lia).
    replace (Z.of_nat (S k)) with (Z.of_nat k + 1) at 1 by lia.
    apply (IH prog (3 + pc)%nat rest); try done; [|lia|].
    + replace (3 + pc)%nat with (pc + 3)%nat by lia. by rewrite <-drop_drop, Hd'.
    + by replace (3 * S k + (3 + pc))%nat with (3 * S (S k) + pc)%nat by lia.
Qed.

Lemma shift8 v : is_byte v → v >>' 8 = 0.
Proof. intros Hv. rewrite Z.shiftr_div_pow2 by lia. apply Z.div_small. unfold is_byte in Hv. lia. Qed.

(** Reading a whole byte. *)
Lemma reach_read_byte prog pc rest v vf cv st w rc ack d P :
  drop pc prog = concat (repeat read_bit 8) ++ rest → 1 <= cv <= 1024 → cvs d cv = v →
  (∀ rc' ack', reach prog (mkAbs (24 + pc) (mkMgr v vf 255 cv st w rc') ack' d) P) →
  reach prog (mkAbs pc (mkMgr 0 vf 7 cv st w rc) ack d) P.
Proof.
  intros Hd Hcv Hval He. assert (is_byte v) as Hv by (subst v; apply cvs_byte).
  rewrite <-(shift8 v Hv). by apply (reach_read_bits 7 prog pc rest v).
Qed.

(** One opcode whose effect is known, and one packet whose answer is known. *)
Ltac regs := cbv [with_byte with_bitNum with_cv with_stash with_received ackManagerByte ackManagerByteVerify
    ackManagerBitNum ackManagerCv ackManagerStash ackManagerWord ackReceived]; cbn [Nat.add Nat.mul].
Ltac go1 := eapply reach_go; [reflexivity|]; regs.
Ltac ask L := eapply reach_ask; [reflexivity|unfold verify_byte, verify_bit, write_byte, write_bit;
  cbn [ackManagerByte ackManagerBitNum ackManagerCv]; apply L; (eassumption || done || lia)|]; regs.
Ltac verified := rewrite bool_decide_eq_true_2 by done.
Ltac call1 := eapply reach_done; [reflexivity|].

(** Reading a CV: bit 7, checked both ways, the other bits, and a last check
    of the whole byte. *)
Lemma read_cv_value d cv g ack : 1 <= cv <= 1024 → ackManagerCv g = cv →
  reach READ_CV_PROG (mkAbs 0 g ack d) (λ v d', v = cvs d cv ∧ d' = d).
Proof.
  intros Hcv Hg. destruct g as [b vf k c st w rc]. simpl in Hg. subst c.
  pose proof (cvs_byte d cv : is_byte _) as Hv.
  assert (∀ rc' ack', reach READ_CV_PROG (mkAbs 14 (mkMgr (cvs d cv >>' 7) vf 6 cv st w rc') ack' d)
    (λ v d', v = cvs d cv ∧ d' = d)) as Hbits.
  { intros rc' ack'. eapply (reach_read_bits 6 READ_CV_PROG 14); [reflexivity|done|done|done|done|].
    intros rc2 ack2. ask verify_byte_law. verified. go1. by call1. }
  go1. go1. rewrite <-(shift8 _ Hv). change 8 with (7 + 1).
  eapply (reach_read_bit _ 2 _ (cvs d cv) 7); [reflexivity|done|done|done|done|].
  destruct (Z.testbit (cvs d cv) 7) eqn:E7; regs; go1; [|apply Hbits].
  go1. ask (verify_bit_law d cv 7 true). rewrite E7. do 4 go1. apply Hbits.
Qed.

(** Writing a CV, acknowledged or not. *)
Lemma write_cv_value d cv b g ack : 1 <= cv <= 1024 → is_byte b → ackManagerCv g = cv → ackManagerByte g = b →
  reach WRITE_BYTE_PROG (mkAbs 0 g ack d)
    (λ v d', v = 1 ∧ cvs d' cv = b ∧ ∀ cv', cv' ≠ cv → cvs d' cv' = cvs d cv').
Proof.
  intros Hcv Hb Hg1 Hg2. destruct g as [b' vf k c st w rc]. simpl in Hg1, Hg2. subst c b'.
  destruct (write_byte_law d cv b Hcv Hb) as (a & d' & Hr & Hv & Ho).
  go1. ask Hr. go1. destruct a; [by call1|]. go1. ask verify_byte_law. verified. go1. by call1.
Qed.

(** Setting a short address: CVs 19 and 20 cleared, bit 5 of CV 29 cleared. *)
Lemma set_short_value d id g ack : 1 <= id <= 127 → ackManagerWord g = id →
  reach SHORT_LOCO_ID_PROG (mkAbs 0 g ack d)
    (λ v d', v = 1 ∧ Z.testbit (cvs d' 29) 5 = false ∧ cvs d' 1 = id).
Proof.
  intros Hid Hg. destruct g as [b vf k c st w rc]. simpl in Hg. subst w.
  assert (is_byte id) as Hbid by (unfold is_byte; lia).
  assert (lowByte id = id) as Hlow by (rewrite lowByte_mod; zlia).
  destruct (write_byte_law d 20 0) as (a1 & d1 & Hr1 & _); [done..|].
  destruct (write_byte_law d1 19 0) as (a2 & d2 & Hr2 & _); [done..|].
  destruct (write_bit_law d2 29 5 false) as (a3 & d3 & Hr3 & Hb & _); [done..|].
  destruct (write_byte_law d3 1 id) as (a4 & d4 & Hr4 & Hv & Hoth); [done..|].
  assert (Z.testbit (cvs d4 29) 5 = false) as Hb' by (by rewrite Hoth).
  do 3 go1. ask Hr1. do 3 go1. ask Hr2. do 3 go1. ask Hr3. go1.
  ask (verify_bit_law d3 29 5 false). rewrite Hb. do 4 go1. rewrite Hlow. ask Hr4. go1.
  destruct a4; [by call1|]. go1. ask verify_byte_law. verified. go1. by call1.
Qed.

(** Setting a long address: bit 5 of CV 29 set, CVs 17 and 18 hold it. *)
Lemma set_long_value d w g ack : is_u16 w → ackManagerWord g = w →
  reach LONG_LOCO_ID_PROG (mkAbs 0 g ack d)
    (λ v d', v = 1 ∧ Z.testbit (cvs d' 29) 5 = true ∧ cvs d' 17 = highByte w ∧ cvs d' 18 = lowByte w).
Proof.
  intros Hw Hg. destruct g as [b vf k c st w' rc]. simpl in Hg. subst w'.
  pose proof (lowByte_range w). pose proof (highByte_range w).
  destruct (write_byte_law d 20 0) as (a1 & d1 & Hr1 & _); [done..|].
  destruct (write_byte_law d1 19 0) as (a2 & d2 & Hr2 & _); [done..|].
  destruct (write_bit_law d2 29 5 true) as (a3 & d3 & Hr3 & Hb & _); [done..|].
  destruct (write_byte_law d3 17 (highByte w)) as (a4 & d4 & Hr4 & Hv & Hoth); [done..|].
  destruct (write_byte_law d4 18 (lowByte w)) as (a5 & d5 & Hr5 & Hv5 & Hoth5); [done..|].
  assert (Z.testbit (cvs d5 29) 5 = true) as Hb' by (by rewrite Hoth5, Hoth).
  assert (cvs d5 17 = highByte w) as H17 by (by rewrite Hoth5).
  do 3 go1. ask Hr1. do 3 go1. ask Hr2. do 3 go1. ask Hr3. go1.
  ask (verify_bit_law d3 29 5 true). rewrite Hb. do 4 go1. ask Hr4. go1.
  assert (∀ rc ack, reach LONG_LOCO_ID_PROG (mkAbs 33 (mkMgr (highByte w) vf 5 17 st w rc) ack d4)
    (λ v d', v = 1 ∧ Z.testbit (cvs d' 29) 5 = true ∧ cvs d' 17 = highByte w ∧ cvs d' 18 = lowByte w)) as Hend.
  { intros rc' ack'. do 2 go1. ask Hr5. go1. destruct a5; [by call1|]. go1. ask verify_byte_law. verified.
    go1. by call1. }
  destruct a4; go1; [apply Hend|]. ask verify_byte_law. verified. do 2 go1. apply Hend.
Qed.

(** Reading the address back. *)
Lemma get_short_value d id g ack : 1 <= id <= 127 → Z.testbit (cvs d 29) 5 = false → cvs d 1 = id →
  reach LOCO_READ_ID_PROG (mkAbs 0 g ack d) (λ v d', v = id ∧ d' = d).
Proof.
  intros Hid Hb Hv. destruct g as [b vf k c st w rc].
  assert (is_byte id) as Hbid by (unfold is_byte; lia).
  assert (0 = id >>' (Z.of_nat 6 + 1)) as Hs.
  { rewrite Z.shiftr_div_pow2 by lia. symmetry. apply Z.div_small. simpl. lia. }
  do 3 go1. ask (verify_bit_law d 29 5 false). rewrite Hb. do 5 go1. rewrite Hs.
  eapply (reach_read_bits 6 LOCO_READ_ID_PROG 76 _ id); [reflexivity|done|done|done|done|].
  intros rc' ack'. regs. ask verify_byte_law. verified. go1. by call1.
Qed.

Lemma get_long_value d g ack : Z.testbit (cvs d 29) 5 = true →
  reach LOCO_READ_ID_PROG (mkAbs 0 g ack d)
    (λ v d', v = LONG_ADDR_MARKER .| (cvs d 18 + ((cvs d 17 - 192) <<' 8)) ∧ d' = d).
Proof.
  intros Hb. destruct g as [b vf k c st w rc].
  pose proof (cvs_byte d 17 : is_byte _). pose proof (cvs_byte d 18 : is_byte _).
  do 3 go1. ask (verify_bit_law d 29 5 false). rewrite Hb. do 4 go1.
  eapply (reach_read_byte LOCO_READ_ID_PROG 11); [reflexivity|done|done|]. intros rc' ack'. regs.
  ask verify_byte_law. verified. do 5 go1.
  eapply (reach_read_byte LOCO_READ_ID_PROG 42); [reflexivity|done|done|]. intros rc2 ack2. regs.
  ask verify_byte_law. verified. do 2 go1. by call1.
Qed.

Lemma long_word id : 128 <= id <= 10239 →
  is_u16 (id .| 0xc000) ∧
  LONG_ADDR_MARKER .| (lowByte (id .| 0xc000) + ((highByte (id .| 0xc000) - 192) <<' 8)) = id + LONG_ADDR_MARKER ∧
  i16 (id + LONG_ADDR_MARKER) = id + LONG_ADDR_MARKER.
Proof.
  intros Hid. unfold is_u16.
  assert ((0 <=? id .| 0xc000) && (id .| 0xc000 <? 65536) &&
    (LONG_ADDR_MARKER .| (lowByte (id .| 0xc000) + ((highByte (id .| 0xc000) - 192) <<' 8)) =? id + LONG_ADDR_MARKER) &&
    (i16 (id + LONG_ADDR_MARKER) =? id + LONG_ADDR_MARKER) = true) as Ht; [|lia].
  apply (range_check (λ id, (0 <=? id .| 0xc000) && (id .| 0xc000 <? 65536) &&
    (LONG_ADDR_MARKER .| (lowByte (id .| 0xc000) + ((highByte (id .| 0xc000) - 192) <<' 8)) =? id + LONG_ADDR_MARKER) &&
    (i16 (id + LONG_ADDR_MARKER) =? id + LONG_ADDR_MARKER)) 128 10112); [by vm_compute|lia].
Qed.

(** A pass that ends in a value other than -1 is a session's value. *)
Lemma reach_session prog retry g ack d P : wf_prog prog = true →
  reach prog (mkAbs 0 g ack d) P → (∀ v d', P v d' → v ≠ -1) →
  ∃ v g' d', session respond retry prog g ack d = Some (v, g', d') ∧ P v d'.
Proof.
  intros Hwf (n & v & g' & ack' & d' & He & HP) Hv. exists v, g', d'. split; [|done].
  destruct (aeval_total respond prog (length prog) Hwf (mkAbs 0 g ack d)) as [r Hr];
    [by apply wf_first|simpl; lia|].
  assert (r = (v, g', ack', d')) as ->.
  { apply (aeval_more respond _ (length prog + n)) in Hr; [|lia].
    apply (aeval_more respond _ (length prog + n)) in He; [|lia]. congruence. }
  specialize (Hv _ _ HP). apply Z.eqb_neq in Hv.
  destruct retry as [|retry]; simpl; rewrite Hr; simpl; [done|]. by rewrite Hv.
Qed.

(** A request whose program reaches [P] calls back once with such a value. *)
Lemma request_reaches r s ms d word cv b prog P : Idle s → Forall move_ok ms → plan r = Some (word, cv, b, prog) →
  (enough s prog <= length ms)%nat →
  (∀ ack, reach prog (mkAbs 0 (registers s word cv b) ack d) P) → (∀ v d', P v d' → v ≠ -1) →
  wp (run_request r ;;; drun respond ms d) (λ d' s', ∃ v, P v d' ∧ results s' = results s ++ [i16 v] ∧ Idle s' ∧
    ackRetry (settings s') = ackRetry (settings s)) s.
Proof.
  intros Hi Hm Hp Hlen HP Hv.
  destruct (session_wp respond r s ms d word cv b prog Hi Hm Hp Hlen) as (v & g & d' & Hs & Hw).
  destruct (reach_session prog (Z.to_nat (ackRetry (settings s))) (registers s word cv b) (ackDetected (pulse s)) d P
    (plan_wf _ _ _ _ _ Hp) (HP _) Hv) as (v1 & g1 & d1 & Hs1 & HP1).
  rewrite Hs1 in Hs. simplify_eq. eapply wp_mono; [exact Hw|].
  intros d2 s2 (-> & Hr & I & _ & _ & Hset). by exists v.
Qed.

End programs.
(** * The acknowledge pulse *)

Record sample := mkSample { s_millis : Z; s_micros : Z; s_current : Z; s_resets : Z }.

Definition sampled (c : Settings) (l : list sample) (p : Pulse) : Pulse :=
  fold_left (λ p x, (checkAck (minAckPulseDuration c) (maxAckPulseDuration c) (s_millis x) (s_micros x)
    (s_current x) (s_resets x) p).1) l p.

#[local] Arguments sampled : simpl never.

(** Samples below and above the threshold, before the time-out. *)
Definition low (t : Z) (x : sample) : Prop := s_current x <= t ∧ s_resets x <= 6.
Definition high (t : Z) (x : sample) : Prop := t < s_current x ∧ s_resets x <= 6 ∧ 0 < s_micros x < 4294967296.

(** A pulse after its first sample: high samples with gaps of at most two low
    ones before each. *)
Definition pulse_body (t : Z) (groups : list (list sample * sample)) : Prop :=
  Forall (λ '(gap, x), (length gap <= 2)%nat ∧ Forall (low t) gap ∧ high t x) groups.
Definition flatten (groups : list (list sample * sample)) : list sample :=
  concat ((λ '(gap, x), gap ++ [x]) <$> groups).

Record Watching (t start trail : Z) (p : Pulse) : Prop := {
  w_pending : ackPending p = true;
  w_detected : ackDetected p = false;
  w_threshold : ackThreshold p = t;
  w_start : ackPulseStart p = start;
  w_trail : trailingEdgeCounter p = trail;
}.

Section pulses.
Context (c : Settings) (t : Z).

Lemma sampled_app l k p : sampled c (l ++ k) p = sampled c k (sampled c l p).
Proof. apply fold_left_app. Qed.

Lemma watch_high p start trail x : Watching t start trail p → high t x → 0 <= trail →
  Watching t (if start =? 0 then s_micros x else start) 0 (sampled c [x] p).
Proof.
  intros [] (Hc & Hr & _) Ht. unfold sampled, checkAck. simpl. rewrite w_pending0. simpl.
  replace (s_resets x >? 6) with false by lia. rewrite w_threshold0.
  replace (s_current x >? t) with true by lia. simpl. constructor; simpl; try done; [by rewrite w_start0|].
  rewrite w_trail0. destruct (trail >? 0) eqn:E; lia.
Qed.

(** A low sample with no pulse under way, or as the first or second of a gap. *)
Lemma watch_low p start trail x : Watching t start trail p → low t x → start = 0 ∨ 0 <= trail < 2 →
  Watching t start (if start =? 0 then trail else trail + 1) (sampled c [x] p) ∧
  (start ≠ 0 → ackPulseDuration (sampled c [x] p) =
     if trail =? 0 then u32 (s_micros x - start) else ackPulseDuration p).
Proof.
  intros [] (Hc & Hr) Ht. unfold sampled, checkAck. simpl. rewrite w_pending0. simpl.
  replace (s_resets x >? 6) with false by lia. rewrite w_threshold0.
  replace (s_current x >? t) with false by lia. rewrite w_start0, w_trail0.
  destruct (start =? 0) eqn:E; simpl.
  - split; [by constructor|]. lia.
  - replace (trail <? 2) with true by lia. split; [by constructor|]. done.
Qed.

(** The third low sample after a pulse settles it. *)
Lemma watch_end p start x : Watching t start 2 p → low t x → start ≠ 0 →
  let ok := (ackPulseDuration p >=? minAckPulseDuration c) &&
    ((ackPulseDuration p <=? maxAckPulseDuration c) || (maxAckPulseDuration c =? 0)) in
  if ok then getAck (sampled c [x] p) = 1 else Watching t 0 0 (sampled c [x] p).
Proof.
  intros [] (Hc & Hr) Hs. unfold sampled, checkAck. simpl. rewrite w_pending0. simpl.
  replace (s_resets x >? 6) with false by lia. rewrite w_threshold0.
  replace (s_current x >? t) with false by lia. rewrite w_start0, w_trail0.
  replace (start =? 0) with false by lia. simpl.
  destruct ((ackPulseDuration p >=? minAckPulseDuration c) && _); simpl; [done|by constructor].
Qed.

Lemma watch_lead l p trail : Watching t 0 trail p → Forall (low t) l → Watching t 0 trail (sampled c l p).
Proof.
  intros W Hl. revert p W. induction Hl as [|x l Hx Hl IH]; intros p W; [done|].
  change (x :: l) with ([x] ++ l). rewrite sampled_app. apply IH.
  by destruct (watch_low p 0 trail x W Hx) as [W' _]; [left|].
Qed.

Lemma watch_gap l p start : Watching t start 0 p → start ≠ 0 → (length l <= 2)%nat → Forall (low t) l →
  ∃ trail, 0 <= trail ∧ Watching t start trail (sampled c l p).
Proof.
  intros W Hs Hl HF. destruct l as [|x [|y [|]]]; simpl in Hl; try lia.
  - by exists 0.
  - apply Forall_cons in HF as [Hx _]. exists 1. split; [done|].
    destruct (watch_low p start 0 x W Hx) as [W1 _]; [lia|].
    by replace (start =? 0) with false in W1 by lia.
  - apply Forall_cons in HF as [Hx [Hy _]%Forall_cons]. exists 2. split; [done|].
    change [x; y] with ([x] ++ [y]). rewrite sampled_app.
    destruct (watch_low p start 0 x W Hx) as [W1 _]; [lia|]. replace (start =? 0) with false in W1 by lia.
    destruct (watch_low _ start (0 + 1) y W1 Hy) as [W2 _]; [lia|].
    by replace (start =? 0) with false in W2 by lia.
Qed.

Lemma watch_body groups : ∀ p start, Watching t start 0 p → start ≠ 0 → pulse_body t groups →
  Watching t start 0 (sampled c (flatten groups) p).
Proof.
  induction groups as [|[gap x] groups IH]; intros p start W Hs Hb; [done|].
  apply Forall_cons in Hb as [(Hg & Hlow & Hx) Hb]. unfold flatten. simpl.
  change (concat _) with (flatten groups). rewrite <-app_assoc, !sampled_app.
  destruct (watch_gap gap p start W Hs Hg Hlow) as (trail & Ht & W1).
  apply (watch_high _ _ _ x) in W1; [|done|done]. replace (start =? 0) with false in W1 by lia.
  by apply IH.
Qed.

End pulses.

(** * Theorems *)


(** C12. Round trip of CVs on the programming track: on any decoder that obeys
    the service mode packets, whether or not it acknowledges what it writes,
    writing a byte to a CV (1 to 1024) calls back 1, and reading that CV
    afterwards calls back the byte. *)
Theorem cv_round_trip `{Decoder D} cv v s ms1 ms2 d : 1 <= cv <= 1024 → is_byte v → Idle s →
  Forall move_ok ms1 → Forall move_ok ms2 →
  (enough s WRITE_BYTE_PROG <= length ms1)%nat → (enough s READ_CV_PROG <= length ms2)%nat →
  ∃ d' s', (let! d1 := (run_request (WriteCVByte cv v) ;;; drun respond ms1 d) in
            run_request (ReadCV cv) ;;; drun respond ms2 d1) s = Some (d', s') ∧
    cvs d' cv = v ∧ results s' = results s ++ [1; v] ∧ Idle s'.
Proof.
  intros Hcv Hv Hi Hm1 Hm2 Hl1 Hl2.
  assert (i16 v = v) as Hi16 by (unfold is_byte in Hv; zlia).
  match goal with |- ∃ d' s', ?m _ = _ ∧ _ => assert (wp m (λ d' s', cvs d' cv = v ∧
    results s' = results s ++ [1; v] ∧ Idle s') s) as Hw end.
  { apply wp_bind. eapply wp_mono.
    - eapply (request_reaches _ s ms1 d _ _ _ _ _ Hi Hm1); [reflexivity|done| |].
      + intros ack. by apply write_cv_value.
      + by intros ? ? (-> & _).
    - intros d1 s1 (? & (-> & Hv1 & _) & Hr1 & I1 & Hset). cbn beta. eapply wp_mono.
      + eapply (request_reaches _ s1 ms2 d1 _ _ _ _ _ I1 Hm2); [reflexivity|unfold enough in *; by rewrite Hset| |].
        * intros ack. by apply read_cv_value.
        * intros v' ? [-> _]. pose proof (cvs_byte d1 cv : is_byte _) as Hb. unfold is_byte in Hb. lia.
      + intros d2 s2 (v2 & (-> & ->) & Hr2 & I2 & _). split; [done|]. split; [|done].
        by rewrite Hr2, Hr1, Hv1, Hi16, <-app_assoc. }
  destruct (wp_run _ _ _ Hw) as (d' & s' & ? & ?). by exists d', s'.
Qed.

(** Round trip of loco addresses: setting an address of 1 to 10239 calls
    back 1, and reading the address afterwards calls back that address, with
    the long address marker above 127. *)
Lemma loco_id_round_trip `{Decoder D} id s ms1 ms2 d : 1 <= id <= 10239 → Idle s →
  Forall move_ok ms1 → Forall move_ok ms2 →
  (enough s LONG_LOCO_ID_PROG <= length ms1)%nat → (enough s LOCO_READ_ID_PROG <= length ms2)%nat →
  ∃ d' s', (let! d1 := (run_request (SetLocoId id) ;;; drun respond ms1 d) in
            run_request GetLocoId ;;; drun respond ms2 d1) s = Some (d', s') ∧
    results s' = results s ++ [1; if id <=? 127 then id else id + LONG_ADDR_MARKER] ∧ Idle s'.
Proof.
  intros Hid Hi Hm1 Hm2 Hl1 Hl2.
  match goal with |- ∃ d' s', ?m _ = _ ∧ _ => assert (wp m (λ d' s',
    results s' = results s ++ [1; if id <=? 127 then id else id + LONG_ADDR_MARKER] ∧ Idle s') s) as Hw end.
  { apply wp_bind. destruct (id <=? 127) eqn:E.
    - assert (i16 id = id) as Hi16 by zlia. eapply wp_mono.
      + eapply (request_reaches (SetLocoId id) s ms1 d (Some id) 0 0 SHORT_LOCO_ID_PROG _ Hi Hm1);
          [|unfold enough in *; etrans; [|exact Hl1]; simpl; lia| |].
        * simpl. replace ((id <? 1) || (id >? 10239)) with false by lia. by rewrite E.
        * intros ack. apply (set_short_value d id); [lia|done].
        * by intros ? ? (-> & _).
      + intros d1 s1 (? & (-> & H29 & H1) & Hr1 & I1 & Hset). cbn beta. eapply wp_mono.
        * eapply (request_reaches _ s1 ms2 d1 _ _ _ _ _ I1 Hm2);
            [reflexivity|unfold enough in *; by rewrite Hset| |].
          -- intros ack. apply (get_short_value d1 id); [lia|done|done].
          -- intros v' ? [-> _]. lia.
        * intros d2 s2 (v2 & (-> & ->) & Hr2 & I2 & _). split; [|done].
          by rewrite Hr2, Hr1, Hi16, <-app_assoc.
    - destruct (long_word id) as (Hw & Hval & Hi16); [lia|]. eapply wp_mono.
      + eapply (request_reaches (SetLocoId id) s ms1 d (Some (id .| 0xc000)) 0 0 LONG_LOCO_ID_PROG _ Hi Hm1);
          [|done| |].
        * simpl. replace ((id <? 1) || (id >? 10239)) with false by lia. by rewrite E.
        * intros ack. by apply (set_long_value d (id .| 0xc000)).
        * by intros ? ? (-> & _).
      + intros d1 s1 (? & (-> & H29 & H17 & H18) & Hr1 & I1 & Hset). cbn beta. eapply wp_mono.
        * eapply (request_reaches _ s1 ms2 d1 _ _ _ _ _ I1 Hm2);
            [reflexivity|unfold enough in *; by rewrite Hset| |].
          -- intros ack. by apply (get_long_value d1).
          -- intros v' ? [-> _]. rewrite H17, H18, Hval. unfold LONG_ADDR_MARKER. lia.
        * intros d2 s2 (v2 & (-> & ->) & Hr2 & I2 & _). split; [|done].
          by rewrite Hr2, Hr1, H17, H18, Hval, Hi16, <-app_assoc. }
  destruct (wp_run _ _ _ Hw) as (d' & s' & ? & ?). by exists d', s'.
Qed.

(** The acknowledge pulse: after any number of low samples, a pulse of
    samples above the threshold (with gaps of at most two low samples) and
    three low samples after it, the acknowledge is given if the time from the
    first high sample to the first of the last three is within the limits;
    otherwise detection starts over. *)
Lemma ack_pulse c t p lead first groups l1 l2 l3 : Watching t 0 0 p →
  Forall (low t) lead → high t first → pulse_body t groups → low t l1 → low t l2 → low t l3 →
  let p' := sampled c (lead ++ [first] ++ flatten groups ++ [l1; l2; l3]) p in
  let duration := u32 (s_micros l1 - s_micros first) in
  if (duration >=? minAckPulseDuration c) &&
     ((duration <=? maxAckPulseDuration c) || (maxAckPulseDuration c =? 0))
  then getAck p' = 1 else getAck p' = 2 ∧ Watching t 0 0 p'.
Proof.
  intros W Hlead Hf Hb H1 H2 H3. cbv zeta. rewrite !sampled_app.
  apply (watch_lead c t lead) in W; [|done].
  apply (watch_high c t _ _ _ first) in W; [|done|done]. simpl in W.
  assert (s_micros first ≠ 0) as Hn0 by (destruct Hf; lia).
  apply (watch_body c t groups) in W; [|done|done].
  revert W. generalize (sampled c (flatten groups) (sampled c [first] (sampled c lead p))) as q. intros q W.
  change [l1; l2; l3] with ([l1] ++ [l2] ++ [l3]). rewrite !sampled_app.
  destruct (watch_low c t q _ 0 l1 W H1) as [W1 D1]; [lia|]. specialize (D1 Hn0).
  replace (s_micros first =? 0) with false in W1 by lia.
  destruct (watch_low c t _ _ (0 + 1) l2 W1 H2) as [W2 D2]; [lia|]. specialize (D2 Hn0).
  replace (s_micros first =? 0) with false in W2 by lia.
  simpl in D1, D2. rewrite D1 in D2.
  pose proof (watch_end c t _ _ l3 W2 H3 Hn0) as He. cbv zeta in He. rewrite D2 in He.
  destruct (_ && _); [done|]. split; [|done]. unfold getAck. by rewrite (w_pending _ _ _ _ He).
Qed.

(** ** Witnesses *)

(** A decoder that acknowledges everything: its CVs, as a function. *)
Definition plain_respond (d : Z → Z) (m : list Z) : bool * (Z → Z) :=
  match m with
  | [b0; b1; b2] =>
    let op := b0 .& 0xFC in
    let cv := ((b0 .& 3) <<' 8) + b1 + 1 in
    let n := b2 .& 7 in
    let on := tru (b2 .& 8) in
    if op =? VERIFY_BYTE then (bool_decide (u8 (d cv) = b2), d)
    else if op =? WRITE_BYTE then (true, λ x, if x =? cv then b2 else d x)
    else if b2 .& 0xF0 =? VERIFY_BIT then (Bool.eqb (Z.testbit (u8 (d cv)) n) on, d)
    else (true, λ x, if x =? cv then (if on then Z.setbit (u8 (d cv)) n else Z.clearbit (u8 (d cv)) n) else d x)
  | _ => (false, d)
  end.

Lemma plain_address cv op : 1 <= cv <= 1024 → op = VERIFY_BYTE ∨ op = WRITE_BYTE ∨ op = BIT_MANIPULATE →
  DCC.DCC.cv1 op cv .& 0xFC = op ∧ ((DCC.DCC.cv1 op cv .& 3) <<' 8) + DCC.DCC.cv2 cv + 1 = cv.
Proof.
  intros Hcv Hop.
  assert ((DCC.DCC.cv1 op cv .& 0xFC =? op) && (((DCC.DCC.cv1 op cv .& 3) <<' 8) + DCC.DCC.cv2 cv + 1 =? cv) = true)
    as Ht; [|lia].
  destruct Hop as [->|[->| ->]].
  - by apply (range_check (λ cv, (DCC.DCC.cv1 VERIFY_BYTE cv .& 0xFC =? VERIFY_BYTE) &&
      (((DCC.DCC.cv1 VERIFY_BYTE cv .& 3) <<' 8) + DCC.DCC.cv2 cv + 1 =? cv)) 1 1024); [vm_compute|lia].
  - by apply (range_check (λ cv, (DCC.DCC.cv1 WRITE_BYTE cv .& 0xFC =? WRITE_BYTE) &&
      (((DCC.DCC.cv1 WRITE_BYTE cv .& 3) <<' 8) + DCC.DCC.cv2 cv + 1 =? cv)) 1 1024); [vm_compute|lia].
  - by apply (range_check (λ cv, (DCC.DCC.cv1 BIT_MANIPULATE cv .& 0xFC =? BIT_MANIPULATE) &&
      (((DCC.DCC.cv1 BIT_MANIPULATE cv .& 3) <<' 8) + DCC.DCC.cv2 cv + 1 =? cv)) 1 1024); [vm_compute|lia].
Qed.

Lemma plain_bit op n (on : bool) : op = VERIFY_BIT ∨ op = WRITE_BIT → 0 <= n < 8 →
  let b := u8 (op .| (if on then BIT_ON else BIT_OFF) .| n) in
  b .& 7 = n ∧ tru (b .& 8) = on ∧ b .& 0xF0 = op.
Proof.
  intros Hop Hn. cbv zeta.
  assert (∀ op on, forallb (λ n, let b := u8 (op .| (if on : bool then BIT_ON else BIT_OFF) .| n) in
    (b .& 7 =? n) && Bool.eqb (tru (b .& 8)) on && (b .& 0xF0 =? op)) (rangeZ 0 8) = true →
    let b := u8 (op .| (if on then BIT_ON else BIT_OFF) .| n) in
    b .& 7 = n ∧ tru (b .& 8) = on ∧ b .& 0xF0 = op) as H.
  { intros op' on' Hr. pose proof (range_check _ 0 8 Hr n Hn) as Ht. cbv zeta in Ht |- *.
    apply andb_true_iff in Ht as [[H1 H2]%andb_true_iff H3]. apply eqb_prop in H2. lia. }
  destruct Hop as [->| ->]; apply H; destruct on; by vm_compute.
Qed.

#[export] Program Instance plain_decoder : Decoder (Z → Z) :=
  {| cvs d cv := u8 (d cv); respond := plain_respond |}.
Next Obligation. intros. apply u8_range. Qed.
Next Obligation.
  intros d cv b Hcv Hb. unfold plain_respond, message.
  destruct (plain_address cv VERIFY_BYTE) as [-> ->]; [done|by left|]. done.
Qed.
Next Obligation.
  intros d cv n on Hcv Hn. unfold plain_respond, message.
  destruct (plain_address cv BIT_MANIPULATE) as [-> ->]; [done|by right; right|].
  destruct (plain_bit VERIFY_BIT n on) as (-> & -> & ->); [by left|done|]. done.
Qed.
Next Obligation.
  intros d cv b Hcv Hb. unfold plain_respond, message.
  destruct (plain_address cv WRITE_BYTE) as [-> ->]; [done|by right; left|].
  eexists _, _. split; [reflexivity|]. simpl. rewrite Z.eqb_refl. split; [by apply u8_id|].
  intros cv' Hne. by replace (cv' =? cv) with false by lia.
Qed.
Next Obligation.
  intros d cv n on Hcv Hn. unfold plain_respond, message.
  destruct (plain_address cv BIT_MANIPULATE) as [-> ->]; [done|by right; right|].
  destruct (plain_bit WRITE_BIT n on) as (-> & -> & ->); [by right|done|].
  eexists _, _. split; [reflexivity|]. simpl. rewrite Z.eqb_refl. split.
  - unfold u8 at 1. change 256 with (2 ^ 8). rewrite Z.mod_pow2_bits_low by lia.
    destruct on; [apply Z.setbit_eq; lia|apply Z.clearbit_eq; lia].
  - intros cv' Hne. by replace (cv' =? cv) with false by lia.
Qed.

Definition a_wave : DCCWaveform.DCCWaveform.Wave :=
  (DCCWaveform.DCCWaveform.with_transmit [0; 0; 0; 0; 0; 0] 3 0 false 30
    (DCCWaveform.DCCWaveform.new_wave 22 false)).
Definition a_state : St := init (mkEnv true true OFF true 3 300 0 a_wave).
Definition a_move : move := mkMove a_wave 3 150.

Lemma a_state_idle : Idle a_state.
Proof. constructor; try done. by left. Qed.
Lemma a_move_ok n : Forall move_ok (replicate n a_move).
Proof. by apply Forall_replicate. Qed.


Lemma cv_round_trip_witness : ∃ d' s',
  (let! d1 := (run_request (WriteCVByte 29 6) ;;; drun respond (replicate 40 a_move) (λ _ : Z, 141)) in
   run_request (ReadCV 29) ;;; drun respond (replicate 200 a_move) d1) a_state = Some (d', s') ∧
  cvs d' 29 = 6 ∧ results s' = results a_state ++ [1; 6] ∧ Idle s'.
Proof.
  apply (cv_round_trip 29 6 a_state (replicate 40 a_move) (replicate 200 a_move));
    [done|done|apply a_state_idle|apply a_move_ok|apply a_move_ok|apply Nat.leb_le; reflexivity|
     apply Nat.leb_le; reflexivity].
Defined.

Lemma loco_id_round_trip_witness : ∃ d' s',
  (let! d1 := (run_request (SetLocoId 4711) ;;; drun respond (replicate 200 a_move) (λ _ : Z, 3)) in
   run_request GetLocoId ;;; drun respond (replicate 400 a_move) d1) a_state = Some (d', s') ∧
  results s' = results a_state ++ [1; if 4711 <=? 127 then 4711 else 4711 + LONG_ADDR_MARKER] ∧ Idle s'.
Proof.
  apply (loco_id_round_trip 4711 a_state (replicate 200 a_move) (replicate 400 a_move));
    [done|apply a_state_idle|apply a_move_ok|apply a_move_ok|apply Nat.leb_le; reflexivity|
     apply Nat.leb_le; reflexivity].
Defined.

Lemma ack_pulse_witness : ∃ p', getAck p' = 1 ∧
  p' = sampled init_settings
    ([mkSample 0 100 5 0] ++ [mkSample 0 200 90 0] ++ flatten [([mkSample 0 300 5 0], mkSample 0 400 95 0)] ++
     [mkSample 6 6300 4 1; mkSample 6 6400 4 1; mkSample 6 6500 4 1])
    (mkPulse true false 60 0 0 0 0 0 0 0 0).
Proof.
  eexists. split; [|reflexivity].
  apply (ack_pulse init_settings 60 (mkPulse true false 60 0 0 0 0 0 0 0 0) [mkSample 0 100 5 0]
    (mkSample 0 200 90 0) [([mkSample 0 300 5 0], mkSample 0 400 95 0)]
    (mkSample 6 6300 4 1) (mkSample 6 6400 4 1) (mkSample 6 6500 4 1)).
  - by constructor.
  - by repeat constructor.
  - done.
  - by repeat constructor.
  - done.
  - done.
  - done.
Defined.

End DCCACKProps.
