(* ===== verification/Layout.v ===== *)
(** The state that the layout components share: the EEPROM and its header
    (src/EEStore.h), the turnouts (src/Turnouts.h), the sensors (src/Sensors.h)
    and the outputs (src/Outputs.h); the layout of their records in EEPROM as the
    AVR compiler packs them; and what they ask of other components. *)

From S2P Require Import Prelude.
From stdpp Require Import strings.

#[local] Open Scope Z_scope.
#[local] Open Scope c_scope.

Module Layout.

Definition VPIN_MAX : Z := 32767.
Definition VPIN_NONE : Z := 65535.

(** * Objects *)

(** The classes derived from Turnout, with the data of each. *)
Inductive TurnoutKind :=
  | DCCTurnout (address subAddress : Z)
  | ServoTurnout (vpin thrownPosition closedPosition profile : Z)
  | VpinTurnout (vpin : Z)
  | LCNTurnout.

Definition turnoutType (k : TurnoutKind) : Z :=
  match k with DCCTurnout _ _ => 1 | ServoTurnout _ _ _ _ => 2 | VpinTurnout _ => 3 | LCNTurnout => 4 end.

(** A turnout of any class: the common data and the data of its class. *)
Record Turnout := mkTurnout {
  id : Z;
  closed : bool;
  hidden : bool;
  eepromAddress : Z;
  kind : TurnoutKind;
}.

Definition with_id (x : Z) (r : Turnout) : Turnout :=
  mkTurnout x (closed r) (hidden r) (eepromAddress r) (kind r).
Definition with_closed (x : bool) (r : Turnout) : Turnout :=
  mkTurnout (id r) x (hidden r) (eepromAddress r) (kind r).
Definition with_hidden (x : bool) (r : Turnout) : Turnout :=
  mkTurnout (id r) (closed r) x (eepromAddress r) (kind r).
Definition with_eepromAddress (x : Z) (r : Turnout) : Turnout :=
  mkTurnout (id r) (closed r) (hidden r) x (kind r).
Definition with_kind (x : TurnoutKind) (r : Turnout) : Turnout :=
  mkTurnout (id r) (closed r) (hidden r) (eepromAddress r) x.

(** OutputData and the rest of an Output. *)
Record Output := mkOutput {
  oid : Z;
  opin : Z;
  oStatus : Z;   (* bit 0 invert, 1 setDefault, 2 defaultValue, 7 active *)
  num : Z;   (* EEPROM address of oStatus, or 0 *)
}.

Definition with_oid (x : Z) (r : Output) : Output :=
  mkOutput x (opin r) (oStatus r) (num r).
Definition with_opin (x : Z) (r : Output) : Output :=
  mkOutput (oid r) x (oStatus r) (num r).
Definition with_oStatus (x : Z) (r : Output) : Output :=
  mkOutput (oid r) (opin r) x (num r).
Definition with_num (x : Z) (r : Output) : Output :=
  mkOutput (oid r) (opin r) (oStatus r) x.

(** SensorData and the rest of a Sensor. *)
Record Sensor := mkSensor {
  sptr : positive;   (* the object *)
  snum : Z;
  spin : Z;
  pullUp : Z;
  active : bool;
  inputState : bool;
  latchDelay : Z;
  pollingRequired : bool;
}.

Definition with_sptr (x : positive) (r : Sensor) : Sensor :=
  mkSensor x (snum r) (spin r) (pullUp r) (active r) (inputState r) (latchDelay r) (pollingRequired r).
Definition with_snum (x : Z) (r : Sensor) : Sensor :=
  mkSensor (sptr r) x (spin r) (pullUp r) (active r) (inputState r) (latchDelay r) (pollingRequired r).
Definition with_spin (x : Z) (r : Sensor) : Sensor :=
  mkSensor (sptr r) (snum r) x (pullUp r) (active r) (inputState r) (latchDelay r) (pollingRequired r).
Definition with_pullUp (x : Z) (r : Sensor) : Sensor :=
  mkSensor (sptr r) (snum r) (spin r) x (active r) (inputState r) (latchDelay r) (pollingRequired r).
Definition with_active (x : bool) (r : Sensor) : Sensor :=
  mkSensor (sptr r) (snum r) (spin r) (pullUp r) x (inputState r) (latchDelay r) (pollingRequired r).
Definition with_inputState (x : bool) (r : Sensor) : Sensor :=
  mkSensor (sptr r) (snum r) (spin r) (pullUp r) (active r) x (latchDelay r) (pollingRequired r).
Definition with_latchDelay (x : Z) (r : Sensor) : Sensor :=
  mkSensor (sptr r) (snum r) (spin r) (pullUp r) (active r) (inputState r) x (pollingRequired r).
Definition with_pollingRequired (x : bool) (r : Sensor) : Sensor :=
  mkSensor (sptr r) (snum r) (spin r) (pullUp r) (active r) (inputState r) (latchDelay r) x.

(** * EEPROM *)

(** The EEPROM, the header that is kept in memory, and the address where the next record is read or written. *)
Record Store := mkStore {
  cells : Z → Z;
  storeId : list Z;
  nTurnouts : Z;
  nSensors : Z;
  nOutputs : Z;
  eeAddress : Z;
}.

Definition with_cells (x : Z → Z) (r : Store) : Store :=
  mkStore x (storeId r) (nTurnouts r) (nSensors r) (nOutputs r) (eeAddress r).
Definition with_storeId (x : list Z) (r : Store) : Store :=
  mkStore (cells r) x (nTurnouts r) (nSensors r) (nOutputs r) (eeAddress r).
Definition with_nTurnouts (x : Z) (r : Store) : Store :=
  mkStore (cells r) (storeId r) x (nSensors r) (nOutputs r) (eeAddress r).
Definition with_nSensors (x : Z) (r : Store) : Store :=
  mkStore (cells r) (storeId r) (nTurnouts r) x (nOutputs r) (eeAddress r).
Definition with_nOutputs (x : Z) (r : Store) : Store :=
  mkStore (cells r) (storeId r) (nTurnouts r) (nSensors r) x (eeAddress r).
Definition with_eeAddress (x : Z) (r : Store) : Store :=
  mkStore (cells r) (storeId r) (nTurnouts r) (nSensors r) (nOutputs r) x.

(** The size of the EEPROM, which the library bounds, and the answers of the
    memory allocator, by the number of objects there are. *)
Class Machine := {
  EEPROM_length : Z;
  alloc_ok : nat → bool;
  hasCallback : Z → bool;                 (* IODevice::hasCallback *)
}.

(** EEPROM.put and EEPROM.get of a record of some bytes. *)
Definition put `{Machine} (a : Z) (bytes : list Z) (m : Z → Z) : Z → Z := λ x,
  if (a <=? x) && (x <? a + Z.of_nat (length bytes)) && (x <? EEPROM_length)
  then nth (Z.to_nat (x - a)) bytes 0 else m x.
Definition get (a n : Z) (m : Z → Z) : list Z := m <$> rangeZ a n.

Definition le16 (z : Z) : list Z := [lowByte z; highByte z].
Definition of16 (lo hi : Z) : Z := hi * 256 + lo.

(** TurnoutData: the flags, and the id. *)
Definition flags (t : Turnout) : Z := b2z (closed t) + 2 * b2z (hidden t) + 8 * turnoutType (kind t).
Definition enc_turnout (t : Turnout) : list Z := flags t :: le16 (id t).
(** ServoTurnoutData, with its two 12 bit positions packed; DCCTurnoutData and
    VpinTurnoutData. *)
Definition enc_kind (k : TurnoutKind) : list Z :=
  match k with
  | ServoTurnout vpin thrown closed profile =>
    let w := closed + 4096 * thrown in
    le16 vpin ++ [lowByte w; highByte w; lowByte (w / 65536); profile]
  | DCCTurnout address sub => le16 (address + 16384 * sub)
  | VpinTurnout vpin => le16 vpin
  | LCNTurnout => []
  end.
Definition enc_sensor (s : Sensor) : list Z := le16 (u16 (snum s)) ++ le16 (spin s) ++ [pullUp s].
Definition enc_output (o : Output) : list Z := oStatus o :: le16 (oid o) ++ le16 (opin o).
Definition enc_header (e : Store) : list Z :=
  storeId e ++ le16 (nTurnouts e) ++ le16 (nSensors e) ++ le16 (nOutputs e).

Definition sizeof_EEStore : Z := 13.
Definition sizeof_TurnoutData : Z := 3.
Definition sizeof_SensorData : Z := 5.
Definition sizeof_OutputData : Z := 5.
(** "DCC++1" and its terminator. *)
Definition EESTORE_ID : list Z := [68; 67; 67; 43; 43; 49; 0].

(** * What the components ask of others *)

Inductive ev :=
  | PinWrite (vpin value : Z)                        (* IODevice::write *)
  | WriteAnalogue (vpin value profile : Z)           (* IODevice::writeAnalogue *)
  | ConfigureServo (vpin thrown closed profile : Z) (state : bool)
  | ConfigureInput (vpin pullUp : Z)
  | SetAccessory (address number : Z) (gate : bool)  (* DCC::setAccessory *)
  | LCNSend (opcode id : Z) (state : bool)           (* on the LCN stream *)
  | BroadcastTurnout (id : Z) (closed : bool)        (* CommandDistributor *)
  | TurnoutEvent (id : Z) (closed : bool)            (* RMFT2::turnoutEvent *)
  | BroadcastSensor (id : Z) (on : bool)
  | Send (format : string) (args : list Z).          (* StringFormatter::send *)

(** All that the layout components keep, and the trace. *)
Record St := mkSt {
  store : Store;
  turnouts : list Turnout;   (* in the order of the chain *)
  turnoutlistHash : Z;
  sensors : list Sensor;   (* in the order of the list *)
  readingSensor : option positive;
  lastReadCycle : Z;
  nextSensorPtr : positive;
  outputs : list Output;
  out : list ev;
}.

Definition with_store (x : Store) (r : St) : St :=
  mkSt x (turnouts r) (turnoutlistHash r) (sensors r) (readingSensor r) (lastReadCycle r) (nextSensorPtr
    r) (outputs r) (out r).
Definition with_turnouts (x : list Turnout) (r : St) : St :=
  mkSt (store r) x (turnoutlistHash r) (sensors r) (readingSensor r) (lastReadCycle r) (nextSensorPtr r)
    (outputs r) (out r).
Definition with_turnoutlistHash (x : Z) (r : St) : St :=
  mkSt (store r) (turnouts r) x (sensors r) (readingSensor r) (lastReadCycle r) (nextSensorPtr r)
    (outputs r) (out r).
Definition with_sensors (x : list Sensor) (r : St) : St :=
  mkSt (store r) (turnouts r) (turnoutlistHash r) x (readingSensor r) (lastReadCycle r) (nextSensorPtr r)
    (outputs r) (out r).
Definition with_readingSensor (x : option positive) (r : St) : St :=
  mkSt (store r) (turnouts r) (turnoutlistHash r) (sensors r) x (lastReadCycle r) (nextSensorPtr r)
    (outputs r) (out r).
Definition with_lastReadCycle (x : Z) (r : St) : St :=
  mkSt (store r) (turnouts r) (turnoutlistHash r) (sensors r) (readingSensor r) x (nextSensorPtr r)
    (outputs r) (out r).
Definition with_nextSensorPtr (x : positive) (r : St) : St :=
  mkSt (store r) (turnouts r) (turnoutlistHash r) (sensors r) (readingSensor r) (lastReadCycle r) x
    (outputs r) (out r).
Definition with_outputs (x : list Output) (r : St) : St :=
  mkSt (store r) (turnouts r) (turnoutlistHash r) (sensors r) (readingSensor r) (lastReadCycle r)
    (nextSensorPtr r) x (out r).
Definition with_out (x : list ev) (r : St) : St :=
  mkSt (store r) (turnouts r) (turnoutlistHash r) (sensors r) (readingSensor r) (lastReadCycle r)
    (nextSensorPtr r) (outputs r) x.

Definition emit (e : ev) : M St unit := mmod (λ s, with_out (out s ++ [e]) s).
Definition on_store (f : Store → Store) : M St unit := mmod (λ s, with_store (f (store s)) s).

(** ** EEStore::pointer, advance and reset, and the EEPROM at the pointer *)

Section Store.
Context `{Machine}.

Definition pointer : M St Z := mget (λ s, eeAddress (store s)).
Definition advance (n : Z) : M St unit := on_store (λ e, with_eeAddress (i16 (eeAddress e + n)) e).
Definition reset : M St unit := on_store (with_eeAddress sizeof_EEStore).
Definition eeprom_put (a : Z) (bytes : list Z) : M St unit := on_store (λ e, with_cells (put a bytes (cells e)) e).
Definition eeprom_get (a n : Z) : M St (list Z) := mget (λ s, get a n (cells (store s))).
(** A record at the pointer, which then moves past it. *)
Definition put_next (bytes : list Z) : M St unit :=
  let! a := pointer in eeprom_put a bytes ;;; advance (Z.of_nat (length bytes)).
Definition get_next (n : Z) : M St (list Z) :=
  let! a := pointer in let! b := eeprom_get a n in advance n ;;; mreturn b.

End Store.
End Layout.
