(* ===== verification/Outputs.v ===== *)
(** Outputs (src/Outputs.h, src/Outputs.cpp): pins with an inversion and a
    default, kept in a list and in EEPROM. *)

From S2P Require Import Prelude Layout.
From stdpp Require Import strings.
Import Layout.

#[local] Open Scope Z_scope.
#[local] Open Scope c_scope.

Module Outputs.
Section Outputs.
Context `{Machine}.

(** * The bit fields of the status byte *)

Definition invert (o : Output) : Z := oStatus o .& 1.
Definition setDefault (o : Output) : Z := (oStatus o >>' 1) .& 1.
Definition defaultValue (o : Output) : Z := (oStatus o >>' 2) .& 1.
Definition activeBit (o : Output) : Z := (oStatus o >>' 7) .& 1.
Definition set_flags (iFlag : Z) (o : Output) : Output := with_oStatus ((oStatus o .& 0x80) .| (iFlag .& 0x7F)) o.
Definition set_active (b : Z) (o : Output) : Output := with_oStatus ((oStatus o .& 0x7F) .| ((b .& 1) <<' 7)) o.

(** * Operations; an output is named by its id, which is unique in the list *)

Definition get_output (n : Z) (s : St) : option Output := List.find (λ o, oid o =? n) (outputs s).
Definition update (n : Z) (f : Output → Output) : M St unit :=
  mmod (λ s, with_outputs ((λ o, if oid o =? n then f o else o) <$> outputs s) s).
(** [tt->...] of a pointer that [get] or [create] returned. *)
Definition deref (n : Z) : M St Output := λ s, o ← get_output n s; Some (o, s).

Definition printAll : M St unit :=
  let! l := mget outputs in mfor l (λ o, emit (Send "<Y %d %d>" [oid o; activeBit o])).

Definition activate (n v : Z) : M St unit :=
  let v := b2z (v >? 0) in
  update n (set_active v) ;;;
  let! o := deref n in
  emit (PinWrite (opin o) (v .^ invert o)) ;;;
  let! stored := mget (λ s, nOutputs (store s) >? 0) in
  when stored && (num o >? 0) do eeprom_put (num o) [oStatus o].

Fixpoint remove_first (n : Z) (l : list Output) : option (list Output) :=
  match l with
  | [] => None
  | o :: l => if oid o =? n then Some l else l' ← remove_first n l; Some (o :: l')
  end.
Definition remove (n : Z) : M St bool := λ s,
  match remove_first n (outputs s) with
  | None => Some (false, s)
  | Some l => Some (true, with_outputs l s)
  end.

(** [create]: [None] is a null result.  A new object is all zeros and goes to
    the end of the list. *)
Definition create (id pin iFlag : Z) (v : Z) : M St (option Z) :=
  if pin >? VPIN_MAX then mreturn None else
  let! old := mget (get_output id) in
  let! ok := mget (λ s, bool_decide (is_Some old) || alloc_ok (length (outputs s))) in
  if negb ok then mreturn None else
  (match old with
   | Some _ => mreturn tt
   | None => mmod (λ s, with_outputs (outputs s ++ [mkOutput id 0 0 0]) s)
   end) ;;;
  update id (λ o, set_flags iFlag (with_opin pin (with_num 0 o))) ;;;
  (when v =? 1 do update id (λ o, set_active (if tru (setDefault o) then defaultValue o else 0) o)) ;;;
  let! o := deref id in
  emit (PinWrite (opin o) (activeBit o .^ invert o)) ;;;
  mreturn (Some id).

(** * EEPROM *)

Definition offsetof_oStatus : Z := 0.

(** One round of [load]; the result of [create] is used without a check. *)
Definition load_one : M St unit :=
  let! a := pointer in
  let! d := eeprom_get a sizeof_OutputData in
  match d with
  | [status; i0; i1; p0; p1] =>
    let data := mkOutput (of16 i0 i1) (of16 p0 p1) status 0 in
    let! t := create (oid data) (opin data) (oStatus data .& 0x7F) 0 in
    match t with
    | None => Prelude.mfail
    | Some t =>
      activate t (if tru (setDefault data) then defaultValue data else activeBit data) ;;;
      update t (with_num (u16 (a + offsetof_oStatus))) ;;;
      advance sizeof_OutputData
    end
  | _ => Prelude.mfail
  end.
Definition load : M St unit :=
  let! n := mget (λ s, nOutputs (store s)) in mfor (rangeZ 0 n) (λ _, load_one).

Definition store_one (o : Output) : M St unit :=
  let! a := pointer in
  eeprom_put a (enc_output o) ;;;
  update (oid o) (with_num (u16 (a + offsetof_oStatus))) ;;;
  advance sizeof_OutputData ;;;
  on_store (λ e, with_nOutputs (u16 (nOutputs e + 1)) e).
Definition store_all : M St unit :=
  on_store (with_nOutputs 0) ;;;
  let! l := mget outputs in mfor l store_one.

End Outputs.
End Outputs.
