(* ===== verification/Turnouts.v ===== *)
(** Turnouts (src/Turnouts.h, src/Turnouts.cpp): the chain of turnouts of all
    classes, their operation, and their records in EEPROM.  The unused bit of
    the flags is 0. *)

From S2P Require Import Prelude Layout.
From stdpp Require Import strings.
Import Layout.

#[local] Open Scope Z_scope.
#[local] Open Scope c_scope.

Module Turnouts.
Section Turnouts.
Context `{Machine}.

(** * The chain *)

Definition get_turnout (n : Z) (s : St) : option Turnout := List.find (λ t, id t =? n) (turnouts s).
Fixpoint update_first (n : Z) (f : Turnout → Turnout) (l : list Turnout) : list Turnout :=
  match l with
  | [] => []
  | t :: l => if id t =? n then f t :: l else t :: update_first n f l
  end.
Definition update (n : Z) (f : Turnout → Turnout) : M St unit :=
  mmod (λ s, with_turnouts (update_first n f (turnouts s)) s).
Definition bump_hash : M St unit := mmod (λ s, with_turnoutlistHash (i16 (turnoutlistHash s + 1)) s).

(** The constructors: the object is added to the end of the chain. *)
Definition add (t : Turnout) : M St unit :=
  mmod (λ s, with_turnouts (turnouts s ++ [t]) s) ;;; bump_hash.
Definition new_turnout (n : Z) (closed : bool) (k : TurnoutKind) : Turnout := mkTurnout n closed false 0 k.

Fixpoint remove_first (n : Z) (l : list Turnout) : option (list Turnout) :=
  match l with
  | [] => None
  | t :: l => if id t =? n then Some l else l' ← remove_first n l; Some (t :: l')
  end.
Definition remove (n : Z) : M St bool :=
  let! l := mget (λ s, remove_first n (turnouts s)) in
  match l with
  | None => mreturn false
  | Some l => mmod (with_turnouts l) ;;; bump_hash ;;; mreturn true
  end.

Definition isClosed (n : Z) : M St bool :=
  let! t := mget (get_turnout n) in mreturn (match t with Some t => closed t | None => false end).
Definition exists_ (n : Z) : M St bool := let! t := mget (get_turnout n) in mreturn (bool_decide (is_Some t)).

(** * Operating a turnout *)

Definition setClosedStateOnly (n : Z) (closeFlag : bool) : M St bool :=
  let! t := mget (get_turnout n) in
  match t with
  | None => mreturn false
  | Some t =>
    (when xorb (closed t) closeFlag do
       (update n (with_closed closeFlag) ;;; emit (BroadcastTurnout n closeFlag))) ;;;
    emit (TurnoutEvent n closeFlag) ;;;
    mreturn true
  end.

(** The virtual function of each class. *)
Definition setClosedInternal (t : Turnout) (close : bool) : M St bool :=
  (match kind t with
   | ServoTurnout vpin thrown closed profile =>
     emit (WriteAnalogue vpin (if close then closed else thrown) profile)
   | DCCTurnout address sub => emit (SetAccessory address sub (negb close))
   | VpinTurnout vpin => emit (PinWrite vpin (b2z close))
   | LCNTurnout => emit (LCNSend 84 (id t) (negb close))
   end) ;;; mreturn true.

Definition setClosed (n : Z) (closeFlag : bool) : M St bool :=
  let! t := mget (get_turnout n) in
  match t with
  | None => mreturn false
  | Some t =>
    let! ok := setClosedInternal t closeFlag in
    (when ok do
       (setClosedStateOnly n closeFlag ;;;
        let! some := mget (λ s, nTurnouts (store s) >? 0) in
        let! t := mget (get_turnout n) in
        match t with
        | None => Prelude.mfail
        | Some t => when some && (eepromAddress t >? 0) do eeprom_put (eepromAddress t) [flags t]
        end)) ;;;
    mreturn ok
  end.

(** * Creating *)

(** A turnout of the id that is of another class is removed; [reuse] is told
    whether one of the same class is left. *)
Definition same_class (k k' : TurnoutKind) : bool := turnoutType k =? turnoutType k'.
Definition reuse (n : Z) (k : TurnoutKind) : M St bool :=
  let! t := mget (get_turnout n) in
  match t with
  | None => mreturn false
  | Some t => if same_class (kind t) k then mreturn true else remove n ;;; mreturn false
  end.

Definition servo (vpin thrown closed_ profile : Z) : TurnoutKind :=
  ServoTurnout vpin (thrown .& 0xFFF) (closed_ .& 0xFFF) profile.

Definition createServo (n vpin thrown closed_ profile : Z) (closed : bool) : M St bool :=
  let k := servo vpin thrown closed_ profile in
  let! old := reuse n k in
  (if old : bool
   then update n (with_kind k) ;;; emit (ConfigureServo vpin thrown closed_ profile closed)
   else add (new_turnout n closed k)) ;;;
  emit (WriteAnalogue vpin (if closed then closed_ else thrown) 0) ;;;
  mreturn true.

Definition createDCC (n address sub : Z) : M St bool :=
  let k := DCCTurnout (address .& 0x3FFF) (sub .& 3) in
  let! old := reuse n k in
  (if old : bool then update n (with_kind k) else add (new_turnout n false k)) ;;;
  mreturn true.

Definition createVpin (n vpin : Z) (closed : bool) : M St bool :=
  let k := VpinTurnout vpin in
  let! old := reuse n k in
  (if old : bool then update n (with_kind k) else add (new_turnout n closed k)) ;;;
  mreturn true.

Definition createLCN (n : Z) (closed : bool) : M St bool :=
  let! old := reuse n LCNTurnout in
  (if old : bool then mreturn tt else add (new_turnout n closed LCNTurnout)) ;;;
  mreturn true.

(** * EEPROM *)

(** Records are read back with the same bit fields; the object remembers the
    address [a] of its flags. *)
Definition load_servo (a n : Z) (closed : bool) : M St unit :=
  let! d := get_next 6 in
  match d with
  | [v0; v1; w0; w1; w2; profile] =>
    let w := w0 + 256 * w1 + 65536 * w2 in
    createServo n (of16 v0 v1) (w / 4096) (w mod 4096) profile closed ;;;
    update n (with_eepromAddress a)
  | _ => Prelude.mfail
  end.
Definition load_dcc (a n : Z) : M St unit :=
  let! d := get_next 2 in
  match d with
  | [a0; a1] =>
    let w := of16 a0 a1 in
    add (with_eepromAddress a (new_turnout n false (DCCTurnout (w mod 16384) (w / 16384))))
  | _ => Prelude.mfail
  end.
Definition load_vpin (a n : Z) (closed : bool) : M St unit :=
  let! d := get_next 2 in
  match d with
  | [v0; v1] => add (with_eepromAddress a (new_turnout n closed (VpinTurnout (of16 v0 v1))))
  | _ => Prelude.mfail
  end.

(** A record of an unknown type has no known length: only its head is skipped. *)
Definition loadTurnout : M St unit :=
  let! a := pointer in
  let! d := get_next sizeof_TurnoutData in
  match d with
  | [fl; i0; i1] =>
    let n := of16 i0 i1 in
    let closed := Z.testbit fl 0 in
    let type := fl >>' 3 in
    if type =? 2 then load_servo (u16 a) n closed
    else if type =? 1 then load_dcc (u16 a) n
    else if type =? 3 then load_vpin (u16 a) n closed
    else mreturn tt
  | _ => Prelude.mfail
  end.

Definition load : M St unit :=
  let! n := mget (λ s, nTurnouts (store s)) in
  mfor (rangeZ 0 n) (λ _, loadTurnout).

(** [save]: an LCN turnout saves nothing. *)
Definition save (t : Turnout) : M St unit :=
  match kind t with
  | LCNTurnout => mreturn tt
  | k => put_next (enc_turnout t) ;;; put_next (enc_kind k)
  end.
Definition store_all : M St unit :=
  on_store (with_nTurnouts 0) ;;;
  let! l := mget turnouts in
  mfor l (λ t, save t ;;; on_store (λ e, with_nTurnouts (u16 (nTurnouts e + 1)) e)).

(** * Reports *)

Definition print (t : Turnout) : M St unit :=
  let thrown := b2z (negb (closed t)) in
  match kind t with
  | ServoTurnout vpin th cl profile => emit (Send "<H %d SERVO %d %d %d %d %d>" [id t; vpin; th; cl; profile; thrown])
  | DCCTurnout a sub =>
    emit (Send "<H %d DCC %d %d %d>" [id t; a; sub; thrown]) ;;; emit (Send "<H %d %d %d %d>" [id t; a; sub; thrown])
  | VpinTurnout vpin => emit (Send "<H %d VPIN %d %d>" [id t; vpin; thrown])
  | LCNTurnout => emit (Send "<H %d LCN %d>" [id t; thrown])
  end.
Definition printAll : M St bool :=
  let! l := mget turnouts in
  mfor l (λ t, when negb (hidden t) do emit (Send "<H %d %d>" [id t; b2z (negb (closed t))])) ;;;
  mreturn (existsb (λ t, negb (hidden t)) l).

End Turnouts.
End Turnouts.
