(* ===== verification/Sensors.v ===== *)
(** Sensors (src/Sensors.h, src/Sensors.cpp), sensor groups (src/SensorGroup.cpp)
    and the LCN connection (src/LCN.cpp), which drives turnouts and sensors.
    [input] is what IODevice::read returns for a pin. *)

From S2P Require Import Prelude Layout Turnouts.
From stdpp Require Import strings.
Import Layout.

#[local] Open Scope Z_scope.
#[local] Open Scope c_scope.

Module Sensors.
Section Sensors.
Context `{Machine}.

Definition cycleInterval : Z := 10000.
Definition minReadCount : Z := 1.

Definition get_sensor (n : Z) (s : St) : option Sensor := List.find (λ t, snum t =? n) (sensors s).
Definition at_ptr (p : positive) (s : St) : option Sensor := List.find (λ t, bool_decide (sptr t = p)) (sensors s).
Definition update_ptr (p : positive) (f : Sensor → Sensor) : M St unit :=
  mmod (λ s, with_sensors ((λ t, if bool_decide (sptr t = p) then f t else t) <$> sensors s) s).

(** The next sensor of the list. *)
Fixpoint next_of (p : positive) (l : list Sensor) : option positive :=
  match l with
  | [] => None
  | t :: l => if bool_decide (sptr t = p) then sptr <$> head l else next_of p l
  end.

(** [remove]: the sensor that is read next moves on if it is the one removed. *)
Fixpoint remove_first (n : Z) (l : list Sensor) : option (Sensor * list Sensor) :=
  match l with
  | [] => None
  | t :: l => if snum t =? n then Some (t, l) else '(x, l') ← remove_first n l; Some (x, t :: l')
  end.
Definition remove (n : Z) : M St bool :=
  let! l := mget sensors in
  match remove_first n l with
  | None => mreturn false
  | Some (t, l') =>
    mmod (with_sensors l') ;;;
    mmod (λ s, if bool_decide (readingSensor s = Some (sptr t)) then with_readingSensor (next_of (sptr t) l) s else s) ;;;
    mreturn true
  end.

(** [create]: [None] is a null result.  New sensors go to the front. *)
Definition create (n pin pull : Z) : M St (option positive) :=
  if (pin >? VPIN_MAX) && negb (pin =? VPIN_NONE) then mreturn None else
  remove n ;;;
  let! ok := mget (λ s, alloc_ok (length (sensors s))) in
  if negb ok then mreturn None else
  let! p := mget nextSensorPtr in
  let polling := if pin =? VPIN_NONE then false else negb (hasCallback pin) in
  mmod (λ s, with_nextSensorPtr (Pos.succ p)
    (with_sensors (mkSensor p n pin (u8 pull) false false minReadCount polling :: sensors s) s)) ;;;
  (when negb (pin =? VPIN_NONE) do emit (ConfigureInput pin pull)) ;;;
  mreturn (Some p).

Definition createMultiple (firstPin count : Z) : M St unit :=
  mfor (rangeZ 0 count) (λ i, create (firstPin + i) (u16 (firstPin + i)) 1 ;;; mreturn tt).

Definition setState (p : positive) (value : Z) : M St unit :=
  update_ptr p (λ t, with_latchDelay 0 (with_inputState (tru value) t)).

(** A change reported by a driver: the first sensor on the pin takes it. *)
Fixpoint change_first (vpin : Z) (b : bool) (l : list Sensor) : list Sensor :=
  match l with
  | [] => []
  | t :: l => if spin t =? vpin then with_inputState b t :: l else t :: change_first vpin b l
  end.
Definition inputChangeCallback (vpin state : Z) : M St unit :=
  mmod (λ s, with_sensors (change_first vpin (tru state) (sensors s)) s).

(** * Polling *)

(** One sensor of [checkAll]: whether a change is reported. *)
Definition poll (input : Z → Z) (t : Sensor) : Sensor * bool :=
  let t := if pollingRequired t && negb (spin t =? VPIN_NONE) then with_inputState (tru (input (spin t) .& 1)) t else t in
  if eqb (inputState t) (active t) then (with_latchDelay minReadCount t, false)
  else if latchDelay t >? 0 then (with_latchDelay (latchDelay t - 1) t, false)
  else (with_latchDelay minReadCount (with_active (inputState t) t), true).

(** The while loop: 16 sensors at most, and no more after a change. *)
Fixpoint check_loop (fuel : nat) (input : Z → Z) : M St unit :=
  match fuel with
  | O => mreturn tt
  | S fuel =>
    let! p := mget readingSensor in
    match p with
    | None => mreturn tt
    | Some p =>
      let! t := mget (at_ptr p) in
      match t with
      | None => Prelude.mfail
      | Some t =>
        let '(t', change) := poll input t in
        update_ptr p (λ _, t') ;;;
        (when change do emit (BroadcastSensor (snum t) (active t'))) ;;;
        mmod (λ s, with_readingSensor (next_of p (sensors s)) s) ;;;
        if change then mreturn tt else check_loop fuel input
      end
    end
  end.

Definition checkAll (now : Z) (input : Z → Z) : M St unit :=
  let! l := mget sensors in
  match l with
  | [] => mreturn tt
  | first :: _ =>
    let! start := mget (λ s, bool_decide (readingSensor s = None) && (u32 (now - lastReadCycle s) >=? cycleInterval)) in
    (when start do
       mmod (λ s, with_lastReadCycle now (with_readingSensor (Some (sptr first)) s))) ;;;
    check_loop 16 input
  end.

(** * Reports and EEPROM *)

Definition printAll : M St unit :=
  let! l := mget sensors in
  mfor l (λ t, emit (Send "<%c %d>" [if active t then 81 else 113; snum t])).
Definition dumpAll : M St unit :=
  let! l := mget sensors in mfor l (λ t, emit (Send "<Q %d %d %d>" [snum t; spin t; pullUp t])).

Definition load_one : M St unit :=
  let! a := pointer in
  let! d := eeprom_get a sizeof_SensorData in
  match d with
  | [n0; n1; p0; p1; pull] =>
    create (i16 (of16 n0 n1)) (of16 p0 p1) pull ;;; advance sizeof_SensorData
  | _ => Prelude.mfail
  end.
Definition load : M St unit :=
  let! n := mget (λ s, nSensors (store s)) in mfor (rangeZ 0 n) (λ _, load_one).

Definition store_one (t : Sensor) : M St unit :=
  put_next (enc_sensor t) ;;; on_store (λ e, with_nSensors (u16 (nSensors e + 1)) e).
Definition store_all : M St unit :=
  on_store (with_nSensors 0) ;;;
  let! l := mget sensors in mfor l store_one.

(** * Sensor groups: one bit per pin of a range, changed at once *)

Inductive GroupProcess := prepare | check | print | dump.

Definition group_bit (bits : list Z) (i : nat) : bool := Z.testbit (nth (i / 8) bits 0) (Z.of_nat (i mod 8)).
Definition flip_bit (i : nat) (bits : list Z) : list Z :=
  alter (λ b, b .^ (1 <<' Z.of_nat (i mod 8))) (i / 8)%nat bits.
Definition group_pin (firstVpin : Z) (action : GroupProcess) (input : Z → Z) (pullup : bool) (i : nat) (bits : list Z)
    : M St (list Z) :=
  let vpin := u16 (firstVpin + Z.of_nat i) in
  match action with
  | prepare =>
    emit (ConfigureInput vpin (b2z pullup)) ;;;
    mreturn (if tru (input vpin) then alter (λ b, b .| (1 <<' Z.of_nat (i mod 8))) (i / 8)%nat bits else bits)
  | check =>
    if b2z (group_bit bits i) =? input vpin then mreturn bits else
    let bits := flip_bit i bits in
    emit (BroadcastSensor vpin (group_bit bits i)) ;;; mreturn bits
  | print => emit (Send "<%c %d>" [if group_bit bits i then 81 else 113; vpin]) ;;; mreturn bits
  | dump => emit (Send "<Q %d %d %c>" [vpin; vpin; if pullup then 49 else 48]) ;;; mreturn bits
  end.
Definition doSensorGroup (firstVpin : Z) (nPins : nat) (bits : list Z) (action : GroupProcess) (input : Z → Z) (pullup : bool)
    : M St (list Z) := mfold (group_pin firstVpin action input pullup) (seq 0 nPins) bits.

(** * LCN: postfix commands, a number and then a letter; [id] is carried over *)

Definition lcn_char (ch : Z) (n : Z) : M St Z :=
  if (48 <=? ch) && (ch <=? 57) then mreturn (i16 (10 * n + ch - 48))
  else if (ch =? 116) || (ch =? 84) then                              (* t T *)
    let! there := Turnouts.exists_ (u16 n) in
    (when negb there do (Turnouts.createLCN (u16 n) true ;;; mreturn tt)) ;;;
    Turnouts.setClosedStateOnly (u16 n) (ch =? 116) ;;; mreturn 0
  else if (ch =? 121) || (ch =? 89) then                              (* y Y *)
    Turnouts.setClosed (u16 n) (ch =? 121) ;;; mreturn 0
  else if (ch =? 83) || (ch =? 115) then                              (* S s *)
    let! t := mget (get_sensor n) in
    let! p := match t with Some t => mreturn (Some (sptr t)) | None => create n VPIN_NONE 0 end in
    match p with
    | None => Prelude.mfail
    | Some p => setState p (b2z (ch =? 83)) ;;; mreturn 0
    end
  else mreturn 0.
Definition lcn_loop (input : list Z) (n : Z) : M St Z := mfold lcn_char input n.

End Sensors.
End Sensors.
