(* ===== verification/EEStore.v ===== *)
(** The EEPROM store (src/EEStore.h, src/EEStore.cpp): the header, and the
    turnouts, sensors and outputs that are saved and loaded one after another. *)

From S2P Require Import Prelude Layout Outputs Turnouts Sensors.
Import Layout.

Module EEStore.
Section EEStore.
Context `{Machine}.

Definition put_header : M St unit := let! e := mget store in eeprom_put 0 (enc_header e).
Definition blank (e : Store) : Store :=
  mkStore (cells e) EESTORE_ID 0 0 0 (eeAddress e).

(** [init]: a header without the right mark is replaced by an empty one. *)
Definition init : M St unit :=
  let! d := eeprom_get 0 sizeof_EEStore in
  match d with
  | [c0; c1; c2; c3; c4; c5; c6; t0; t1; s0; s1; o0; o1] =>
    on_store (λ e, mkStore (cells e) [c0; c1; c2; c3; c4; c5; c6] (of16 t0 t1) (of16 s0 s1) (of16 o0 o1) (eeAddress e)) ;;;
    (when bool_decide ([c0; c1; c2; c3; c4; c5; c6] ≠ EESTORE_ID) do (on_store blank ;;; put_header)) ;;;
    reset ;;; Turnouts.load ;;; Sensors.load ;;; Outputs.load
  | _ => Prelude.mfail
  end.

Definition clear : M St unit := on_store blank ;;; put_header.

Definition store_layout : M St unit :=
  reset ;;; Turnouts.store_all ;;; Sensors.store_all ;;; Outputs.store_all ;;; put_header.

(** What is left when the power goes: the EEPROM, and zeros. *)
Definition power_off (s : St) : St :=
  mkSt (mkStore (cells (store s)) (replicate 7 0) 0 0 0 0) [] 0 [] None 0 1%positive [] [].

End EEStore.
End EEStore.
