(* ===== verification/EEStoreProps.v ===== *)
(** Saving the layout and loading it again: what comes back after a power cut,
    and where the addresses that turnouts remember go wrong. *)

From S2P Require Import Prelude Layout Outputs Turnouts Sensors EEStore.
From stdpp Require Import strings.
Import Layout.

#[local] Open Scope Z_scope.
#[local] Open Scope c_scope.

Module EEStoreProps.

(** * Bytes in EEPROM *)

Definition holds (a : Z) (l : list Z) (m : Z → Z) : Prop := ∀ i b, l !! i = Some b → m (a + Z.of_nat i) = b.

Lemma holds_app a l k m : holds a (l ++ k) m ↔ holds a l m ∧ holds (a + Z.of_nat (length l)) k m.
Proof.
  split.
  - intros Hm. split; intros i b Hi.
    + apply Hm. by rewrite lookup_app_l by (by eapply lookup_lt_Some).
    + rewrite <-(Hm (length l + i)%nat b); [f_equal; lia|]. by rewrite lookup_app_r, Nat.add_sub' by lia.
  - intros [Hl Hk] i b [Hi|[Hle Hi]]%lookup_app_Some; [by apply Hl|].
    rewrite <-(Hk _ _ Hi). f_equal. lia.
Qed.

Lemma holds_get a l m : holds a l m → get a (Z.of_nat (length l)) m = l.
Proof.
  intros Hm. apply list_eq. intros i. unfold get, rangeZ. rewrite !list_lookup_fmap, Nat2Z.id.
  destruct (l !! i) as [b|] eqn:E.
  - rewrite lookup_seq_lt by (by eapply lookup_lt_Some). simpl. f_equal. by apply Hm.
  - rewrite lookup_seq_ge by (by apply lookup_ge_None). done.
Qed.

Section store.
Context `{Machine}.

Lemma put_other a l m x : x < a ∨ a + Z.of_nat (length l) <= x → put a l m x = m x.
Proof. intros Hx. unfold put. by replace ((a <=? x) && (x <? a + Z.of_nat (length l)) && (x <? EEPROM_length)) with false by lia. Qed.
Lemma put_holds a l m : a + Z.of_nat (length l) <= EEPROM_length → holds a l (put a l m).
Proof.
  intros Hle i b Hi. pose proof (lookup_lt_Some _ _ _ Hi) as Hlt. unfold put.
  replace ((a <=? a + Z.of_nat i) && (a + Z.of_nat i <? a + Z.of_nat (length l)) && (a + Z.of_nat i <? EEPROM_length)) with true by lia.
  replace (Z.to_nat (a + Z.of_nat i - a)) with i by lia. by apply nth_lookup_Some.
Qed.
Lemma put_keeps a l b k m : a + Z.of_nat (length l) <= b ∨ b + Z.of_nat (length k) <= a → holds a l m → holds a l (put b k m).
Proof.
  intros Hd Hm i c Hi. pose proof (lookup_lt_Some _ _ _ Hi). rewrite put_other by lia. by apply Hm.
Qed.

(** * Writing *)

(** The bytes [done] have been written from the first free address on. *)
Definition room (n : nat) : Prop := sizeof_EEStore + Z.of_nat n <= EEPROM_length ∧ EEPROM_length <= 32767.
Record wr (done : list Z) (e : Store) : Prop := {
  wr_addr : eeAddress e = sizeof_EEStore + Z.of_nat (length done);
  wr_holds : holds sizeof_EEStore done (cells e);
}.
Definition counts (e : Store) : list Z * Z * Z * Z := (storeId e, nTurnouts e, nSensors e, nOutputs e).

Lemma room_le n n' : (n <= n')%nat → room n' → room n.
Proof. unfold room. lia. Qed.

Lemma wp_put_next l done s Q : wr done (store s) → room (length (done ++ l)) →
  (∀ e, wr (done ++ l) e → counts e = counts (store s) → Q tt (with_store e s)) → wp (put_next l) Q s.
Proof.
  intros [Ha Hh] [R1 R2] HQ. rewrite length_app in R1.
  unfold put_next, pointer, advance, eeprom_put, on_store. apply wp_bind, wp_get, wp_bind, wp_mod, wp_mod. apply HQ; [|done].
  constructor; simpl.
  - rewrite i16_id by (unfold is_i16, sizeof_EEStore in *; lia). rewrite length_app. lia.
  - rewrite Ha. apply holds_app. split; [apply put_keeps; [lia|done]|apply put_holds; lia].
Qed.

(** The counter of a component after some records. *)
Lemma u16_count n k : 0 <= n → n + Z.of_nat (S k) < 65536 → u16 (n + 1) + Z.of_nat k = n + Z.of_nat (S k).
Proof. intros Hn Hk. rewrite u16_id by (unfold is_u16; lia). lia. Qed.

Definition enc_turnouts (l : list Turnout) : list Z := concat ((λ t, enc_turnout t ++ enc_kind (kind t)) <$> l).
Definition enc_sensors (l : list Sensor) : list Z := concat (enc_sensor <$> l).
Definition enc_outputs (l : list Output) : list Z := concat (enc_output <$> l).
Definition not_LCN (t : Turnout) : Prop := kind t ≠ LCNTurnout.

(** The records of a list, written one after another. *)
Lemma wp_store_turnouts l : ∀ done s, wr done (store s) → Forall not_LCN l → room (length (done ++ enc_turnouts l)) →
  0 <= nTurnouts (store s) → nTurnouts (store s) + Z.of_nat (length l) < 65536 →
  wp (mfor l (λ t, Turnouts.save t ;;; on_store (λ e, with_nTurnouts (u16 (nTurnouts e + 1)) e)))
    (λ _ s', ∃ e, s' = with_store e s ∧ wr (done ++ enc_turnouts l) e ∧
      counts e = (storeId (store s), nTurnouts (store s) + Z.of_nat (length l), nSensors (store s), nOutputs (store s))) s.
Proof.
  induction l as [|t l IH]; intros done s Hw Hl Hr Hn Hc.
  - apply wp_ret. exists (store s). split; [by destruct s|]. unfold enc_turnouts. simpl. by rewrite app_nil_r, Z.add_0_r.
  - apply Forall_cons in Hl as [Ht Hl]. unfold enc_turnouts in Hr |- *. cbn [fmap list_fmap concat] in Hr |- *.
    fold (enc_turnouts l) in Hr |- *.
    assert (∀ b, (length (done ++ b) <= length (done ++ (enc_turnout t ++ enc_kind (kind t)) ++ enc_turnouts l))%nat → room (length (done ++ b))) as Hrb
      by (intros b Hle; by eapply room_le).
    unfold mfor. simpl. apply wp_bind, wp_bind.
    assert (Turnouts.save t = (put_next (enc_turnout t) ;;; put_next (enc_kind (kind t)))) as ->
      by (unfold Turnouts.save; unfold not_LCN in Ht; by destruct (kind t)).
    apply wp_bind. apply (wp_put_next _ done); [done|apply Hrb; rewrite !length_app; lia|]. intros e1 Hw1 C1.
    apply (wp_put_next _ (done ++ enc_turnout t)); [done|rewrite <-app_assoc; apply Hrb; rewrite !length_app; lia|].
    intros e2 Hw2 C2. apply wp_mod. rewrite <-app_assoc in Hw2. set (e3 := with_nTurnouts _ _).
    change (with_store e3 _) with (with_store e3 s). unfold counts in C1, C2. simpl in C1, C2.
    injection C1 as D1 D2 D3 D4. injection C2 as E1 E2 E3 E4.
    assert (nTurnouts e3 = u16 (nTurnouts (store s) + 1)) as En by (unfold e3; simpl; by rewrite E2, D2).
    assert (storeId e3 = storeId (store s) ∧ nSensors e3 = nSensors (store s) ∧ nOutputs e3 = nOutputs (store s)) as (F1 & F3 & F4)
      by (unfold e3; simpl; by rewrite E1, D1, E3, D3, E4, D4).
    eapply wp_mono; [apply (IH (done ++ enc_turnout t ++ enc_kind (kind t)) (with_store e3 s))|].
    + destruct Hw2. by constructor.
    + done.
    + rewrite <-app_assoc. exact Hr.
    + change (0 <= nTurnouts e3). rewrite En. apply u16_range.
    + change (nTurnouts e3 + Z.of_nat (length l) < 65536). rewrite En. pose proof (u16_count (nTurnouts (store s)) (length l) Hn). simpl length in Hc. lia.
    + intros [] s' (e & -> & Hwe & Ce). exists e. split; [done|]. rewrite <-app_assoc in Hwe. split; [done|].
      rewrite Ce. change (store (with_store e3 s)) with e3. rewrite En, F1, F3, F4.
      rewrite (u16_count _ (length l)); [done|done|exact Hc].
Qed.

Lemma wp_store_sensors l : ∀ done s, wr done (store s) → room (length (done ++ enc_sensors l)) →
  0 <= nSensors (store s) → nSensors (store s) + Z.of_nat (length l) < 65536 →
  wp (mfor l Sensors.store_one)
    (λ _ s', ∃ e, s' = with_store e s ∧ wr (done ++ enc_sensors l) e ∧
      counts e = (storeId (store s), nTurnouts (store s), nSensors (store s) + Z.of_nat (length l), nOutputs (store s))) s.
Proof.
  induction l as [|t l IH]; intros done s Hw Hr Hn Hc.
  - apply wp_ret. exists (store s). split; [by destruct s|]. unfold enc_sensors. simpl. by rewrite app_nil_r, Z.add_0_r.
  - unfold enc_sensors in Hr |- *. cbn [fmap list_fmap concat] in Hr |- *. fold (enc_sensors l) in Hr |- *.
    unfold mfor. simpl. apply wp_bind, wp_bind.
    apply (wp_put_next _ done); [done|by eapply room_le; [|exact Hr]; rewrite !length_app; lia|]. intros e1 Hw1 C1.
    apply wp_mod. set (e3 := with_nSensors _ _). change (with_store e3 _) with (with_store e3 s).
    unfold counts in C1. simpl in C1. injection C1 as D1 D2 D3 D4.
    assert (nSensors e3 = u16 (nSensors (store s) + 1)) as En by (unfold e3; simpl; by rewrite D3).
    eapply wp_mono; [apply (IH (done ++ enc_sensor t) (with_store e3 s))|].
    + destruct Hw1. by constructor.
    + rewrite <-app_assoc. exact Hr.
    + change (0 <= nSensors e3). rewrite En. apply u16_range.
    + change (nSensors e3 + Z.of_nat (length l) < 65536). rewrite En.
      pose proof (u16_count (nSensors (store s)) (length l) Hn). simpl length in Hc. lia.
    + intros [] s' (e & -> & Hwe & Ce). exists e. split; [done|]. rewrite <-app_assoc in Hwe. split; [done|].
      rewrite Ce. change (store (with_store e3 s)) with e3. rewrite En. unfold e3. simpl. rewrite D1, D2, D4.
      rewrite (u16_count _ (length l)); [done|done|exact Hc].
Qed.

(** An output remembers its address; its record has no room for it. *)
Lemma wp_store_outputs l : ∀ done s, wr done (store s) → room (length (done ++ enc_outputs l)) →
  0 <= nOutputs (store s) → nOutputs (store s) + Z.of_nat (length l) < 65536 →
  wp (mfor l Outputs.store_one)
    (λ _ s', ∃ e o, s' = with_outputs o (with_store e s) ∧ wr (done ++ enc_outputs l) e ∧
      counts e = (storeId (store s), nTurnouts (store s), nSensors (store s), nOutputs (store s) + Z.of_nat (length l))) s.
Proof.
  induction l as [|t l IH]; intros done s Hw Hr Hn Hc.
  - apply wp_ret. exists (store s), (outputs s). split; [by destruct s|]. unfold enc_outputs. simpl. by rewrite app_nil_r, Z.add_0_r.
  - unfold enc_outputs in Hr |- *. cbn [fmap list_fmap concat] in Hr |- *. fold (enc_outputs l) in Hr |- *.
    unfold mfor. simpl. apply wp_bind.
    assert (∀ s, Outputs.store_one t s = (put_next (enc_output t) ;;; Outputs.update (oid t) (with_num (u16 (eeAddress (store s) + 0))) ;;;
      on_store (λ e, with_nOutputs (u16 (nOutputs e + 1)) e)) s) as Heq by done.
    apply (wp_mono _ (λ _ s1, ∃ e o, s1 = with_outputs o (with_store e s) ∧ wr (done ++ enc_output t) e ∧
      counts e = (storeId (store s), nTurnouts (store s), nSensors (store s), u16 (nOutputs (store s) + 1)))).
    { apply (wp_ext _ _ _ _ (Heq s)), wp_bind.
      apply (wp_put_next _ done); [done|by eapply room_le; [|exact Hr]; rewrite !length_app; lia|]. intros e1 Hw1 C1.
      apply wp_bind, wp_mod, wp_mod. eexists _, _. split; [reflexivity|]. split; [by destruct Hw1; constructor|].
      unfold counts in *. simpl in *. by injection C1 as -> -> -> ->. }
    intros [] s1 (e3 & o & -> & Hw3 & C3). unfold counts in C3. injection C3 as F1 F2 F3 En.
    eapply wp_mono; [apply (IH (done ++ enc_output t) (with_outputs o (with_store e3 s)))|].
    + done.
    + rewrite <-app_assoc. exact Hr.
    + change (0 <= nOutputs e3). rewrite En. apply u16_range.
    + change (nOutputs e3 + Z.of_nat (length l) < 65536). rewrite En.
      pose proof (u16_count (nOutputs (store s)) (length l) Hn). simpl length in Hc. lia.
    + intros [] s' (e & o' & -> & Hwe & Ce). exists e, o'. split; [done|]. rewrite <-app_assoc in Hwe. split; [done|].
      rewrite Ce. change (store (with_outputs o (with_store e3 s))) with e3. rewrite En, F1, F2, F3.
      rewrite (u16_count _ (length l)); [done|done|exact Hc].
Qed.

(** All of the layout, behind the header. *)
Definition image (s : St) : list Z := enc_turnouts (turnouts s) ++ enc_sensors (sensors s) ++ enc_outputs (outputs s).

Record storable (s : St) : Prop := {
  so_room : room (length (image s));
  so_lcn : Forall not_LCN (turnouts s);
  so_id : storeId (store s) = EESTORE_ID;
}.

Lemma enc_kind_length t : not_LCN t → (2 <= length (enc_kind (kind t)))%nat.
Proof. unfold not_LCN. destruct (kind t); simpl; try done; lia. Qed.
Lemma enc_turnouts_length l : Forall not_LCN l → (5 * length l <= length (enc_turnouts l))%nat.
Proof.
  induction 1 as [|t l Ht Hl IH]; [done|].
  change (enc_turnouts (t :: l)) with ((enc_turnout t ++ enc_kind (kind t)) ++ enc_turnouts l). rewrite !length_app.
  pose proof (enc_kind_length t Ht). simpl. lia.
Qed.
Lemma enc_sensors_length l : length (enc_sensors l) = (5 * length l)%nat.
Proof.
  induction l as [|t l IH]; [done|]. change (enc_sensors (t :: l)) with (enc_sensor t ++ enc_sensors l).
  rewrite length_app, IH. simpl. lia.
Qed.
Lemma enc_outputs_length l : length (enc_outputs l) = (5 * length l)%nat.
Proof.
  induction l as [|t l IH]; [done|]. change (enc_outputs (t :: l)) with (enc_output t ++ enc_outputs l).
  rewrite length_app, IH. simpl. lia.
Qed.

(** What [store] leaves in EEPROM. *)
Record saved (s : St) (m : Z → Z) : Prop := {
  sv_header : holds 0 (EESTORE_ID ++ le16 (Z.of_nat (length (turnouts s))) ++ le16 (Z.of_nat (length (sensors s))) ++
                       le16 (Z.of_nat (length (outputs s)))) m;
  sv_image : holds sizeof_EEStore (image s) m;
}.

Lemma wp_store_layout s : storable s → wp EEStore.store_layout (λ _ s', saved s (cells (store s'))) s.
Proof.
  intros [Hr Hl Hid]. pose proof Hr as [R1 R2]. unfold image in R1. rewrite !length_app in R1.
  pose proof (enc_turnouts_length _ Hl). pose proof (enc_sensors_length (sensors s)). pose proof (enc_outputs_length (outputs s)).
  unfold sizeof_EEStore in R1.
  unfold EEStore.store_layout. apply wp_bind, wp_mod, wp_bind. unfold Turnouts.store_all. apply wp_bind, wp_mod, wp_bind, wp_get.
  set (s0 := with_store _ (with_store _ s)). change (turnouts s0) with (turnouts s).
  eapply wp_mono; [apply (wp_store_turnouts (turnouts s) [] s0)|].
  { by constructor. } { done. } { eapply room_le; [|exact Hr]. unfold image. rewrite !length_app. simpl. lia. }
  { done. } { change (0 + Z.of_nat (length (turnouts s)) < 65536). lia. }
  intros [] s1 (e1 & -> & Hw1 & C1). unfold counts in C1. simpl in C1, Hw1. injection C1 as A1 A2 A3 A4.
  apply wp_bind. unfold Sensors.store_all. apply wp_bind, wp_mod, wp_bind, wp_get.
  set (s2 := with_store _ (with_store e1 s0)). change (sensors s2) with (sensors s).
  eapply wp_mono; [apply (wp_store_sensors (sensors s) (enc_turnouts (turnouts s)) s2)|].
  { by destruct Hw1; constructor. } { eapply room_le; [|exact Hr]. unfold image. rewrite !length_app. lia. }
  { done. } { change (0 + Z.of_nat (length (sensors s)) < 65536). lia. }
  intros [] s3 (e3 & -> & Hw3 & C3). unfold counts in C3. simpl in C3. injection C3 as B1 B2 B3 B4.
  apply wp_bind. unfold Outputs.store_all. apply wp_bind, wp_mod, wp_bind, wp_get.
  set (s4 := with_store _ (with_store e3 s2)). change (outputs s4) with (outputs s).
  eapply wp_mono; [apply (wp_store_outputs (outputs s) (enc_turnouts (turnouts s) ++ enc_sensors (sensors s)) s4)|].
  { by destruct Hw3; constructor. } { rewrite <-app_assoc. exact Hr. }
  { done. } { change (0 + Z.of_nat (length (outputs s)) < 65536). lia. }
  intros [] s5 (e5 & o & -> & Hw5 & C5). unfold counts in C5. simpl in C5. injection C5 as D1 D2 D3 D4.
  unfold EEStore.put_header. apply wp_bind, wp_get, wp_mod. simpl.
  assert (enc_header e5 = EESTORE_ID ++ le16 (Z.of_nat (length (turnouts s))) ++ le16 (Z.of_nat (length (sensors s))) ++
    le16 (Z.of_nat (length (outputs s)))) as ->.
  { unfold enc_header. by rewrite D1, B1, A1, Hid, D2, B2, A2, D3, B3, D4. }
  constructor; simpl.
  - apply put_holds. simpl. lia.
  - apply put_keeps; [right; simpl; unfold sizeof_EEStore; lia|]. destruct Hw5 as [_ Hh]. by rewrite <-app_assoc in Hh.
Qed.

(** * Reading *)

(** The bytes [rest] are at the pointer. *)
Record rd (rest : list Z) (e : Store) : Prop := {
  rd_holds : holds (eeAddress e) rest (cells e);
  rd_addr : 0 <= eeAddress e;
  rd_end : eeAddress e + Z.of_nat (length rest) <= 32767;
}.

Lemma wp_get_next n l rest s Q : n = Z.of_nat (length l) → rd (l ++ rest) (store s) →
  (∀ e, rd rest e → counts e = counts (store s) → eeAddress e = eeAddress (store s) + n → Q l (with_store e s)) →
  wp (get_next n) Q s.
Proof.
  intros -> [Hh Ha He] HQ. rewrite length_app in He. apply holds_app in Hh as [H1 H2].
  unfold get_next, pointer, eeprom_get, advance. apply wp_bind, wp_get, wp_bind, wp_get.
  rewrite (holds_get _ _ _ H1). apply wp_bind, wp_mod, wp_ret.
  assert (i16 (eeAddress (store s) + Z.of_nat (length l)) = eeAddress (store s) + Z.of_nat (length l)) as E
    by (apply i16_id; unfold is_i16; lia).
  apply HQ; [|done|exact E]. constructor; cbn [eeAddress with_eeAddress cells]; rewrite E; [done|lia|lia].
Qed.

Lemma of16_le16 z : is_u16 z → of16 (lowByte z) (highByte z) = z.
Proof. apply high_low_join. Qed.

(** ** Turnouts *)

Definition kind_ok (k : TurnoutKind) : Prop :=
  match k with
  | DCCTurnout a sub => 0 <= a < 16384 ∧ 0 <= sub < 4
  | ServoTurnout v th cl p => is_u16 v ∧ 0 <= th < 4096 ∧ 0 <= cl < 4096 ∧ is_byte p
  | VpinTurnout v => is_u16 v
  | LCNTurnout => False
  end.
Definition turnout_ok (t : Turnout) : Prop := is_u16 (id t) ∧ kind_ok (kind t).

(** What comes back: it is shown again, remembers where it is kept, and a DCC
    turnout is thrown. *)
Definition is_DCC (k : TurnoutKind) : bool := match k with DCCTurnout _ _ => true | _ => false end.
Definition reloaded (a : Z) (t : Turnout) : Turnout :=
  mkTurnout (id t) (if is_DCC (kind t) then false else closed t) false a (kind t).
Fixpoint reloaded_all (a : Z) (l : list Turnout) : list Turnout :=
  match l with
  | [] => []
  | t :: l => reloaded a t :: reloaded_all (a + 3 + Z.of_nat (length (enc_kind (kind t)))) l
  end.

(** A state that differs from [s] in the store, the turnouts and the trace. *)
Definition keeps_rest (s s' : St) : Prop :=
  counts (store s') = counts (store s) ∧ sensors s' = sensors s ∧ outputs s' = outputs s ∧ nextSensorPtr s' = nextSensorPtr s ∧
  readingSensor s' = readingSensor s.

Lemma find_none n l : n ∉ id <$> l → List.find (λ t, id t =? n) l = None.
Proof.
  induction l as [|t l IH]; intros Hn; [done|]. simpl in *. rewrite elem_of_cons in Hn.
  replace (id t =? n) with false by (symmetry; apply Z.eqb_neq; naive_solver). apply IH. naive_solver.
Qed.
Lemma update_snoc n f l t : n ∉ id <$> l → id t = n → Turnouts.update_first n f (l ++ [t]) = l ++ [f t].
Proof.
  induction l as [|x l IH]; intros Hn Ht; simpl.
  - by rewrite (proj2 (Z.eqb_eq _ _) Ht).
  - rewrite fmap_cons, elem_of_cons in Hn. replace (id x =? n) with false by (symmetry; apply Z.eqb_neq; naive_solver).
    f_equal. apply IH; naive_solver.
Qed.

Lemma flags_type t : flags t >>' 3 = turnoutType (kind t).
Proof. unfold flags. by destruct (closed t), (hidden t), (kind t). Qed.
Lemma flags_closed t : Z.testbit (flags t) 0 = closed t.
Proof. unfold flags. by destruct (closed t), (hidden t), (kind t). Qed.

Lemma wp_load_servo a n c vp th cl pr l rest s : kind_ok (ServoTurnout vp th cl pr) → n ∉ id <$> l → turnouts s = l →
  rd (enc_kind (ServoTurnout vp th cl pr) ++ rest) (store s) →
  wp (Turnouts.load_servo a n c) (λ _ s', rd rest (store s') ∧ eeAddress (store s') = eeAddress (store s) + 6 ∧ keeps_rest s s' ∧
    turnouts s' = l ++ [mkTurnout n c false a (ServoTurnout vp th cl pr)]) s.
Proof.
  intros (Hv & Ht & Hc & Hp) Hn Hl Hr. unfold Turnouts.load_servo. apply wp_bind.
  eapply wp_get_next; [|exact Hr|]; [done|]. intros e Hrd Ce Ae. cbn [enc_kind le16 app].
  set (w := cl + 4096 * th). assert (0 <= w < 16777216) as Hw by (subst w; lia).
  assert (lowByte w + 256 * highByte w + 65536 * lowByte (w / 65536) = w) as ->.
  { rewrite !lowByte_mod, highByte_mod. zlia. }
  assert (w / 4096 = th ∧ w mod 4096 = cl) as [-> ->] by (subst w; zlia). rewrite of16_le16 by done.
  apply wp_bind. unfold Turnouts.createServo, Turnouts.reuse. apply wp_bind, wp_bind, wp_get.
  unfold Turnouts.get_turnout. change (turnouts (with_store e s)) with (turnouts s). rewrite Hl, (find_none n l Hn).
  apply wp_ret. apply wp_bind. unfold Turnouts.add. apply wp_bind, wp_mod, wp_mod.
  apply wp_bind, wp_mod, wp_ret, wp_mod. simpl. rewrite Hl.
  split; [done|]. split; [done|]. split; [by repeat split|].
  rewrite update_snoc by done. unfold Turnouts.new_turnout, Turnouts.servo, with_eepromAddress. simpl. do 3 f_equal.
  change 4095 with (Z.ones 12). rewrite !land_mask by lia. change (2 ^ 12) with 4096. f_equal; apply Z.mod_small; lia.
Qed.

Lemma wp_load_one l t rest s : turnout_ok t → id t ∉ id <$> l → turnouts s = l →
  rd ((enc_turnout t ++ enc_kind (kind t)) ++ rest) (store s) → is_u16 (eeAddress (store s)) →
  wp Turnouts.loadTurnout (λ _ s', rd rest (store s') ∧
    eeAddress (store s') = eeAddress (store s) + 3 + Z.of_nat (length (enc_kind (kind t))) ∧ keeps_rest s s' ∧
    turnouts s' = l ++ [reloaded (eeAddress (store s)) t]) s.
Proof.
  intros [Hid Hk] Hn Hl Hr Ha. rewrite <-app_assoc in Hr. unfold Turnouts.loadTurnout, pointer. apply wp_bind, wp_get, wp_bind.
  eapply wp_get_next; [|exact Hr|]; [done|]. intros e Hrd Ce Ae. unfold sizeof_TurnoutData in Ae. cbn [enc_turnout le16].
  rewrite of16_le16 by done. rewrite flags_type, flags_closed, u16_id by done.
  destruct (kind t) as [a sub|vp th cl pr|vp|] eqn:Ek; cbn [turnoutType]; [| | |done].
  - (* DCC *) change (1 =? 2) with false. change (1 =? 1) with true. cbv iota. unfold Turnouts.load_dcc. apply wp_bind.
    eapply wp_get_next; [|exact Hrd|]; [done|]. intros e2 Hrd2 Ce2 Ae2. cbn [enc_kind le16].
    destruct Hk as [Hk1 Hk2]. rewrite of16_le16 by (unfold is_u16; lia).
    assert ((a + 16384 * sub) mod 16384 = a ∧ (a + 16384 * sub) / 16384 = sub) as [-> ->] by (clear -Hk1 Hk2; zlia).
    unfold Turnouts.add. apply wp_bind, wp_mod, wp_mod. simpl in *. split; [done|]. split; [lia|].
    split; [split; [exact (eq_trans Ce2 Ce)|by repeat split]|]. rewrite Hl. unfold reloaded. by rewrite Ek.
  - (* servo *) change (2 =? 2) with true. cbv iota.
    eapply wp_mono; [apply (wp_load_servo _ _ _ vp th cl pr l rest (with_store e s)); done|].
    intros [] s' (Hr' & Ha' & (K1 & K2) & Ht'). simpl in *. split; [done|]. split; [lia|].
    split; [split; [exact (eq_trans K1 Ce)|done]|]. rewrite Ht'. unfold reloaded. by rewrite Ek.
  - (* vpin *) change (3 =? 2) with false. change (3 =? 1) with false. change (3 =? 3) with true. cbv iota.
    unfold Turnouts.load_vpin. apply wp_bind.
    eapply wp_get_next; [|exact Hrd|]; [done|]. intros e2 Hrd2 Ce2 Ae2. cbn [enc_kind le16]. rewrite of16_le16 by done.
    unfold Turnouts.add. apply wp_bind, wp_mod, wp_mod. simpl in *. split; [done|]. split; [lia|].
    split; [split; [exact (eq_trans Ce2 Ce)|by repeat split]|]. rewrite Hl. unfold reloaded. by rewrite Ek.
Qed.

Lemma length_rangeZ lo n : length (rangeZ lo (Z.of_nat n)) = n.
Proof. unfold rangeZ. by rewrite length_fmap, length_seq, Nat2Z.id. Qed.

Lemma keeps_rest_trans s1 s2 s3 : keeps_rest s1 s2 → keeps_rest s2 s3 → keeps_rest s1 s3.
Proof. intros (A & B & C & D & E) (A' & B' & C' & D' & E'). repeat split; congruence. Qed.

Lemma enc_turnouts_cons t l : Z.of_nat (length (enc_turnouts (t :: l))) =
  3 + Z.of_nat (length (enc_kind (kind t))) + Z.of_nat (length (enc_turnouts l)).
Proof.
  change (enc_turnouts (t :: l)) with ((enc_turnout t ++ enc_kind (kind t)) ++ enc_turnouts l).
  rewrite length_app, (length_app (enc_turnout t)). change (length (enc_turnout t)) with 3%nat. lia.
Qed.

Lemma wp_load_turnouts l : ∀ xs l0 rest s, length xs = length l → Forall turnout_ok l → NoDup (id <$> (l0 ++ l)) → turnouts s = l0 →
  rd (enc_turnouts l ++ rest) (store s) →
  wp (mfor xs (λ _ : Z, Turnouts.loadTurnout)) (λ _ s', rd rest (store s') ∧ keeps_rest s s' ∧
    eeAddress (store s') = eeAddress (store s) + Z.of_nat (length (enc_turnouts l)) ∧
    turnouts s' = l0 ++ reloaded_all (eeAddress (store s)) l) s.
Proof.
  induction l as [|t l IH]; intros xs l0 rest s Hx Hl Hnd Hs Hr.
  - destruct xs; [|done]. apply wp_ret. split; [done|]. split; [by repeat split|]. split; [exact (eq_sym (Z.add_0_r _))|]. by rewrite app_nil_r.
  - destruct xs as [|x xs]; [done|]. injection Hx as Hx. apply Forall_cons in Hl as [Ht Hl].
    change (enc_turnouts (t :: l)) with ((enc_turnout t ++ enc_kind (kind t)) ++ enc_turnouts l) in Hr. rewrite <-app_assoc in Hr.
    unfold mfor. cbn [mfold]. apply wp_bind.
    assert (id t ∉ id <$> l0) as Hn.
    { rewrite fmap_app, fmap_cons in Hnd. apply NoDup_app in Hnd as (_ & Hd & _). intros Hin. apply (Hd _ Hin). by left. }
    eapply wp_mono; [apply (wp_load_one l0 t (enc_turnouts l ++ rest)); try done|].
    { destruct Hr as [_ H0 H1]. unfold is_u16. lia. }
    intros [] s1 (Hr1 & Ha1 & K1 & T1). eapply wp_mono.
    + apply (IH xs (l0 ++ [reloaded (eeAddress (store s)) t]) rest s1); try done.
      rewrite <-app_assoc, fmap_app. rewrite fmap_app in Hnd. simpl in *. exact Hnd.
    + intros [] s2 (Hr2 & K2 & A2 & T2). split; [done|]. split; [by eapply keeps_rest_trans|].
      split; [rewrite A2, Ha1, enc_turnouts_cons; lia|].
      rewrite T2, Ha1, <-app_assoc. done.
Qed.

(** ** Sensors *)

Definition sensor_ok (t : Sensor) : Prop :=
  is_i16 (snum t) ∧ (0 <= spin t <= VPIN_MAX ∨ spin t = VPIN_NONE) ∧ is_byte (pullUp t).

(** A sensor that has just been created. *)
Definition sensor_new (p : positive) (t : Sensor) : Sensor :=
  mkSensor p (snum t) (spin t) (pullUp t) false false Sensors.minReadCount
    (if spin t =? VPIN_NONE then false else negb (hasCallback (spin t))).
Fixpoint sensors_new (p : positive) (l : list Sensor) : list Sensor :=
  match l with [] => [] | t :: l => sensor_new p t :: sensors_new (Pos.succ p) l end.

Lemma remove_first_none n l : n ∉ snum <$> l → Sensors.remove_first n l = None.
Proof.
  induction l as [|t l IH]; intros Hn; [done|]. simpl. rewrite fmap_cons, elem_of_cons in Hn.
  replace (snum t =? n) with false by (symmetry; apply Z.eqb_neq; naive_solver). rewrite IH; [done|naive_solver].
Qed.

Lemma i16_of16 z : is_i16 z → i16 (of16 (lowByte (u16 z)) (highByte (u16 z))) = z.
Proof. intros Hz. rewrite of16_le16 by apply u16_range. zlia. Qed.

Lemma wp_load_sensor t rest s : (∀ n, alloc_ok n = true) → sensor_ok t → snum t ∉ snum <$> sensors s →
  rd (enc_sensor t ++ rest) (store s) →
  wp Sensors.load_one (λ _ s', rd rest (store s') ∧ eeAddress (store s') = eeAddress (store s) + sizeof_SensorData ∧ counts (store s') = counts (store s) ∧ turnouts s' = turnouts s ∧ outputs s' = outputs s ∧
    readingSensor s' = readingSensor s ∧ nextSensorPtr s' = Pos.succ (nextSensorPtr s) ∧
    sensors s' = sensor_new (nextSensorPtr s) t :: sensors s) s.
Proof.
  intros Hok (Hn & Hp & Hu) Hnew Hr. destruct Hr as [Hh H0 He]. pose proof Hh as Hh'. rewrite length_app in He. simpl in He.
  apply holds_app in Hh' as [H1 H2]. simpl in H2.
  unfold Sensors.load_one, pointer, eeprom_get. apply wp_bind, wp_get, wp_bind, wp_get.
  assert (get (eeAddress (store s)) sizeof_SensorData (cells (store s)) = enc_sensor t) as -> by exact (holds_get _ _ _ H1).
  cbn [enc_sensor le16 app length]. rewrite i16_of16 by done.
  rewrite of16_le16 by (unfold is_u16, VPIN_MAX, VPIN_NONE in *; lia). apply wp_bind.
  assert ((spin t >? VPIN_MAX) && negb (spin t =? VPIN_NONE) = false) as Ev by (unfold VPIN_MAX, VPIN_NONE in *; lia).
  unfold Sensors.create. rewrite Ev. apply wp_bind. unfold Sensors.remove. apply wp_bind, wp_get.
  rewrite remove_first_none by done. apply wp_ret, wp_bind, wp_get. rewrite Hok. cbv iota. simpl negb. cbv iota.
  apply wp_bind, wp_get, wp_bind, wp_mod.
  assert (∀ s1, wp ((when negb (spin t =? VPIN_NONE) do emit (ConfigureInput (spin t) (pullUp t))) ;;; mreturn (Some (nextSensorPtr s)))
    (λ _ s2, store s2 = store s1 ∧ turnouts s2 = turnouts s1 ∧ outputs s2 = outputs s1 ∧ readingSensor s2 = readingSensor s1 ∧
      nextSensorPtr s2 = nextSensorPtr s1 ∧ sensors s2 = sensors s1) s1) as Hc.
  { intros s1. by destruct (negb _); repeat split. }
  eapply wp_mono; [apply Hc|]. intros _ s2 (E1 & E2 & E3 & E4 & E5 & E6). apply wp_mod. simpl in *.
  rewrite E1, E2, E3, E4, E5, E6. 
  assert (i16 (eeAddress (store s) + sizeof_SensorData) = eeAddress (store s) + sizeof_SensorData) as Ea
    by (apply i16_id; unfold is_i16, sizeof_SensorData; lia).
  split; [constructor; cbn [eeAddress with_eeAddress cells]; rewrite Ea; unfold sizeof_SensorData; [done|lia|lia]|]. split; [exact Ea|]. repeat split.
  unfold sensor_new. do 2 f_equal. unfold u8. apply Z.mod_small. exact Hu.
Qed.

Lemma wp_load_sensors l : ∀ xs rest s, length xs = length l → (∀ n, alloc_ok n = true) → Forall sensor_ok l →
  NoDup (snum <$> (sensors s ++ l)) → rd (enc_sensors l ++ rest) (store s) →
  wp (mfor xs (λ _ : Z, Sensors.load_one)) (λ _ s', rd rest (store s') ∧
    eeAddress (store s') = eeAddress (store s) + Z.of_nat (length (enc_sensors l)) ∧ counts (store s') = counts (store s) ∧
    turnouts s' = turnouts s ∧ outputs s' = outputs s ∧ readingSensor s' = readingSensor s ∧
    sensors s' = rev (sensors_new (nextSensorPtr s) l) ++ sensors s) s.
Proof.
  induction l as [|t l IH]; intros xs rest s Hx Hok Hl Hnd Hr.
  - destruct xs; [|done]. apply wp_ret. split; [done|]. split; [exact (eq_sym (Z.add_0_r _))|done].
  - destruct xs as [|x xs]; [done|]. injection Hx as Hx. apply Forall_cons in Hl as [Ht Hl].
    change (enc_sensors (t :: l)) with (enc_sensor t ++ enc_sensors l) in Hr. rewrite <-app_assoc in Hr.
    rewrite fmap_app, fmap_cons in Hnd. unfold mfor. cbn [mfold]. apply wp_bind. eapply wp_mono.
    + apply (wp_load_sensor t (enc_sensors l ++ rest) s Hok Ht); [|exact Hr].
      apply NoDup_app in Hnd as (_ & Hd & _). intros Hin. apply (Hd _ Hin). by left.
    + intros [] s1 (Hr1 & A1 & C1 & T1 & O1 & R1 & P1 & S1). eapply wp_mono.
      * apply (IH xs rest s1 Hx Hok Hl); [|exact Hr1]. rewrite S1. rewrite fmap_app, fmap_cons.
        change (snum (sensor_new (nextSensorPtr s) t)) with (snum t).
        rewrite <-Permutation_middle in Hnd. exact Hnd.
      * intros [] s2 (Hr2 & A2 & C2 & T2 & O2 & R2 & S2). split; [done|].
        split; [rewrite A2, A1, !enc_sensors_length; unfold sizeof_SensorData; cbn [length]; lia|]. repeat split; try congruence.
        rewrite S2, S1, P1. simpl. by rewrite <-app_assoc.
Qed.

(** ** Outputs *)

Definition output_ok (o : Output) : Prop := is_u16 (oid o) ∧ 0 <= opin o <= VPIN_MAX ∧ is_byte (oStatus o).

(** What comes back: the pin and flags, the default state if there is one and
    the last state if not, and the address where the state is kept. *)
Definition output_back (a : Z) (o : Output) : Output :=
  Outputs.set_active (if tru (Outputs.setDefault o) then Outputs.defaultValue o else Outputs.activeBit o)
    (mkOutput (oid o) (opin o) (oStatus o) a).
Fixpoint outputs_back (a : Z) (l : list Output) : list Output :=
  match l with [] => [] | o :: l => output_back a o :: outputs_back (a + sizeof_OutputData) l end.

(** The status byte after [create] and [activate]. *)
Lemma status_back st : is_byte st →
  let o := mkOutput 0 0 st 0 in
  let v := if tru (Outputs.setDefault o) then Outputs.defaultValue o else Outputs.activeBit o in
  oStatus (Outputs.set_active (b2z (v >? 0)) (Outputs.set_flags (st .& 0x7F) (mkOutput 0 0 0 0))) = oStatus (Outputs.set_active v o).
Proof.
  intros Hs. cbv zeta. apply Z.eqb_eq.
  apply (range_check (λ st, let o := mkOutput 0 0 st 0 in
    let v := if tru (Outputs.setDefault o) then Outputs.defaultValue o else Outputs.activeBit o in
    oStatus (Outputs.set_active (b2z (v >? 0)) (Outputs.set_flags (st .& 0x7F) (mkOutput 0 0 0 0))) =?
    oStatus (Outputs.set_active v o)) 0 256); [by vm_compute|exact Hs].
Qed.

Lemma update_absent n f l o : n ∉ oid <$> l → oid o = n →
  ((λ o, if oid o =? n then f o else o) <$> (l ++ [o])) = l ++ [f o].
Proof.
  intros Hn Ho. rewrite fmap_app. simpl. rewrite (proj2 (Z.eqb_eq _ _) Ho). f_equal.
  induction l as [|x l IH]; [done|]. rewrite fmap_cons, elem_of_cons in Hn. simpl.
  replace (oid x =? n) with false by (symmetry; apply Z.eqb_neq; naive_solver). f_equal. apply IH. naive_solver.
Qed.
Lemma find_output_none n l : n ∉ oid <$> l → List.find (λ o, oid o =? n) l = None.
Proof.
  induction l as [|t l IH]; intros Hn; [done|]. simpl in *. rewrite elem_of_cons in Hn.
  replace (oid t =? n) with false by (symmetry; apply Z.eqb_neq; naive_solver). apply IH. naive_solver.
Qed.
Lemma find_output_snoc n l o : n ∉ oid <$> l → oid o = n → List.find (λ o, oid o =? n) (l ++ [o]) = Some o.
Proof.
  intros Hn Ho. induction l as [|t l IH]; simpl in *; [by rewrite (proj2 (Z.eqb_eq _ _) Ho)|].
  rewrite elem_of_cons in Hn. replace (oid t =? n) with false by (symmetry; apply Z.eqb_neq; naive_solver).
  apply IH. naive_solver.
Qed.

(** The last output of the list is [o]; the rest of the state but the trace is as in [s]. *)
Record building (s : St) (o : Output) (s' : St) : Prop := {
  bu_store : store s' = store s;
  bu_turnouts : turnouts s' = turnouts s;
  bu_sensors : sensors s' = sensors s;
  bu_outputs : outputs s' = outputs s ++ [o];
}.
Lemma wp_update_last s o s' f (Q : unit → St → Prop) : building s o s' → oid o ∉ oid <$> outputs s →
  (building s (f o) (with_outputs (outputs s ++ [f o]) s') → Q tt (with_outputs (outputs s ++ [f o]) s')) →
  wp (Outputs.update (oid o) f) Q s'.
Proof.
  intros [B1 B2 B3 B4] Hn HQ. apply wp_mod. rewrite B4, (update_absent (oid o)) by done. by apply HQ.
Qed.
Lemma wp_deref_last s o s' (Q : Output → St → Prop) : building s o s' → oid o ∉ oid <$> outputs s → Q o s' →
  wp (Outputs.deref (oid o)) Q s'.
Proof.
  intros B Hn HQ. unfold wp, Outputs.deref, Outputs.get_output. rewrite (bu_outputs _ _ _ B).
  by rewrite (find_output_snoc (oid o)).
Qed.
Lemma building_emit s o s' e : building s o s' → building s o (with_out (out s' ++ [e]) s').
Proof. by intros []. Qed.

(** Creating an output that is not there yet, with the default state left alone. *)
Lemma wp_create n pin fl s : (∀ n, alloc_ok n = true) → 0 <= pin <= VPIN_MAX → n ∉ oid <$> outputs s →
  wp (Outputs.create n pin fl 0) (λ r s', r = Some n ∧ building s (Outputs.set_flags fl (mkOutput n pin 0 0)) s') s.
Proof.
  intros Hok Hp Hn. unfold Outputs.create. replace (pin >? VPIN_MAX) with false by lia.
  apply wp_bind, wp_get. unfold Outputs.get_output. rewrite find_output_none by done. apply wp_bind, wp_get.
  rewrite Hok, orb_true_r. cbn [negb]. apply wp_bind, wp_mod. set (o0 := mkOutput n 0 0 0).
  set (s1 := with_outputs _ s). assert (building s o0 s1) as B1 by done. clearbody s1.
  apply wp_bind. apply (wp_update_last s o0 s1); [done|done|]. intros B2. set (s2 := with_outputs _ s1) in *. clearbody s2.
  apply wp_bind. change (0 =? 1) with false. apply wp_ret. set (o2 := Outputs.set_flags fl (mkOutput n pin 0 0)) in *.
  apply wp_bind. apply (wp_deref_last s o2 s2); [done|done|]. apply wp_bind, wp_mod, wp_ret.
  split; [done|]. by apply building_emit.
Qed.

Lemma wp_load_output o rest s : (∀ n, alloc_ok n = true) → output_ok o → oid o ∉ oid <$> outputs s →
  is_u16 (eeAddress (store s)) → rd (enc_output o ++ rest) (store s) →
  wp Outputs.load_one (λ _ s', rd rest (store s') ∧ eeAddress (store s') = eeAddress (store s) + sizeof_OutputData ∧
    turnouts s' = turnouts s ∧ sensors s' = sensors s ∧
    outputs s' = outputs s ++ [output_back (eeAddress (store s)) o]) s.
Proof.
  intros Hok (Hi & Hp & Hst) Hn Ha Hr. destruct Hr as [Hh H0 He]. pose proof Hh as Hh'. rewrite length_app in He. simpl in He.
  apply holds_app in Hh' as [H1 H2]. simpl in H2.
  unfold Outputs.load_one, pointer, eeprom_get. apply wp_bind, wp_get, wp_bind, wp_get.
  assert (get (eeAddress (store s)) sizeof_OutputData (cells (store s)) = enc_output o) as -> by exact (holds_get _ _ _ H1).
  cbn [enc_output le16 app]. rewrite !of16_le16 by (unfold is_u16, VPIN_MAX in *; lia). cbn [oid opin oStatus].
  set (d := mkOutput (oid o) (opin o) (oStatus o) 0). apply wp_bind.
  eapply wp_mono; [by apply wp_create|]. intros r s1 [-> B1].
  set (o1 := Outputs.set_flags (oStatus o .& 127) (mkOutput (oid o) (opin o) 0 0)) in B1.
  set (v := if tru (Outputs.setDefault d) then _ else _). unfold Outputs.activate.
  apply wp_bind, wp_bind. apply (wp_update_last s o1 s1); [done|done|]. intros B2. set (s2 := with_outputs _ s1) in *. clearbody s2.
  apply wp_bind. apply (wp_deref_last s (Outputs.set_active (b2z (v >? 0)) o1) s2); [done|done|].
  apply wp_bind, wp_mod, wp_bind, wp_get. change (num (Outputs.set_active (b2z (v >? 0)) o1)) with 0. rewrite andb_false_r. apply wp_ret.
  apply (building_emit _ _ _ (PinWrite (opin (Outputs.set_active (b2z (v >? 0)) o1)) (b2z (v >? 0) .^ Outputs.invert (Outputs.set_active (b2z (v >? 0)) o1)))) in B2.
  set (s3 := with_out _ s2) in *. clearbody s3. apply wp_bind.
  apply (wp_update_last s (Outputs.set_active (b2z (v >? 0)) o1) s3); [done|done|]. intros [C1 C2 C3 C4]. apply wp_mod.
  set (s4 := with_outputs _ s3) in *. clearbody s4. simpl. rewrite C1, C2, C3, C4.
  assert (i16 (eeAddress (store s) + sizeof_OutputData) = eeAddress (store s) + sizeof_OutputData) as Ea
    by (apply i16_id; unfold is_i16, sizeof_OutputData; lia).
  split; [constructor; cbn [eeAddress with_eeAddress cells]; rewrite Ea; unfold sizeof_OutputData; [done|lia|lia]|].
  split; [exact Ea|]. repeat split. do 2 f_equal. unfold Outputs.offsetof_oStatus. rewrite Z.add_0_r, u16_id by done.
  unfold output_back, Outputs.set_active at 2, with_oStatus, with_num. cbn [oid opin oStatus num].
  f_equal. exact (status_back (oStatus o) Hst).
Qed.

Lemma wp_load_outputs l : ∀ xs rest s, length xs = length l → (∀ n, alloc_ok n = true) → Forall output_ok l →
  NoDup (oid <$> (outputs s ++ l)) → rd (enc_outputs l ++ rest) (store s) →
  wp (mfor xs (λ _ : Z, Outputs.load_one)) (λ _ s', turnouts s' = turnouts s ∧ sensors s' = sensors s ∧
    outputs s' = outputs s ++ outputs_back (eeAddress (store s)) l) s.
Proof.
  induction l as [|t l IH]; intros xs rest s Hx Hok Hl Hnd Hr.
  - destruct xs; [|done]. apply wp_ret. by rewrite app_nil_r.
  - destruct xs as [|x xs]; [done|]. injection Hx as Hx. apply Forall_cons in Hl as [Ht Hl].
    change (enc_outputs (t :: l)) with (enc_output t ++ enc_outputs l) in Hr. rewrite <-app_assoc in Hr.
    rewrite fmap_app, fmap_cons in Hnd. unfold mfor. cbn [mfold]. apply wp_bind. eapply wp_mono.
    + apply (wp_load_output t (enc_outputs l ++ rest) s Hok Ht); [| |exact Hr].
      * apply NoDup_app in Hnd as (_ & Hd & _). intros Hin. apply (Hd _ Hin). by left.
      * destruct Hr as [_ H0 H1]. unfold is_u16. lia.
    + intros [] s1 (Hr1 & A1 & T1 & S1 & O1). eapply wp_mono.
      * apply (IH xs rest s1 Hx Hok Hl); [|exact Hr1]. rewrite O1, <-app_assoc, fmap_app. exact Hnd.
      * intros [] s2 (T2 & S2 & O2). split; [congruence|]. split; [congruence|].
        rewrite O2, O1, A1, <-app_assoc. done.
Qed.

(** * The power cycle *)

Record layout_ok (s : St) : Prop := {
  lo_turnouts : Forall turnout_ok (turnouts s);
  lo_sensors : Forall sensor_ok (sensors s);
  lo_outputs : Forall output_ok (outputs s);
  lo_turnout_ids : NoDup (id <$> turnouts s);
  lo_sensor_ids : NoDup (snum <$> sensors s);
  lo_output_ids : NoDup (oid <$> outputs s);
}.

Lemma turnout_ok_LCN l : Forall turnout_ok l → Forall not_LCN l.
Proof. intros Hl. eapply Forall_impl; [exact Hl|]. intros t [_ Hk] E. by rewrite E in Hk. Qed.

Lemma wp_load_all s s0 : (∀ n, alloc_ok n = true) → layout_ok s → room (length (image s)) →
  turnouts s0 = [] → sensors s0 = [] → outputs s0 = [] → nextSensorPtr s0 = 1%positive → eeAddress (store s0) = sizeof_EEStore →
  holds sizeof_EEStore (image s) (cells (store s0)) →
  counts (store s0) = (EESTORE_ID, Z.of_nat (length (turnouts s)), Z.of_nat (length (sensors s)), Z.of_nat (length (outputs s))) →
  wp (Turnouts.load ;;; Sensors.load ;;; Outputs.load) (λ _ s', turnouts s' = reloaded_all sizeof_EEStore (turnouts s) ∧
    sensors s' = rev (sensors_new 1 (sensors s)) ∧
    outputs s' = outputs_back (sizeof_EEStore + Z.of_nat (length (enc_turnouts (turnouts s))) + Z.of_nat (length (enc_sensors (sensors s)))) (outputs s)) s0.
Proof.
  intros Hok [L1 L2 L3 N1 N2 N3] [R1 R2] T0 S0 O0 P0 A0 Hh C0. unfold counts in C0. injection C0 as C1 C2 C3 C4.
  assert (rd (image s ++ []) (store s0)) as Hr.
  { rewrite app_nil_r. unfold sizeof_EEStore in *. constructor; [by rewrite A0|rewrite A0; lia|rewrite A0; lia]. }
  unfold image in Hr. rewrite <-!app_assoc in Hr. unfold Turnouts.load. apply wp_bind, wp_bind, wp_get. rewrite C2.
  eapply wp_mono; [apply (wp_load_turnouts (turnouts s) _ [] (enc_sensors (sensors s) ++ enc_outputs (outputs s) ++ []) s0); try done; apply length_rangeZ|].
  intros [] s1 (Hr1 & (K1 & K2 & K3 & K4 & K5) & A1 & T1). unfold counts in K1. injection K1 as D1 D2 D3 D4.
  unfold Sensors.load. apply wp_bind, wp_bind, wp_get. rewrite D3, C3.
  eapply wp_mono; [apply (wp_load_sensors (sensors s) _ (enc_outputs (outputs s) ++ []) s1); try done;
    [apply length_rangeZ|by rewrite K2, S0]|].
  intros [] s2 (Hr2 & A2 & E1 & T2 & O2 & _ & S2). unfold counts in E1. injection E1 as F1 F2 F3 F4.
  unfold Outputs.load. apply wp_bind, wp_get. rewrite F4, D4, C4.
  eapply wp_mono; [apply (wp_load_outputs (outputs s) _ [] s2); try done; [apply length_rangeZ|by rewrite O2, K3, O0]|].
  intros [] s3 (T3 & S3 & O3). split; [by rewrite T3, T2, T1, A0|]. split; [by rewrite S3, S2, K2, K4, S0, P0, app_nil_r|].
  rewrite O3, O2, K3, O0. simpl. by rewrite A2, A1, A0.
Qed.

(** C17. Saving the layout and switching the power off and on again brings back
    every turnout, sensor and output: the turnouts in their order with their
    classes, ids, pins and states (hidden ones are shown again, and DCC turnouts
    come back thrown), the sensors newly created and in reverse order, and the
    outputs with their pins and flags and their default or last state.  The
    records must fit into the EEPROM, no turnout may be an LCN turnout, and
    memory must not run out. *)
Theorem eeprom_round_trip s : (∀ n, alloc_ok n = true) → storable s → layout_ok s →
  ∃ s1 s2, EEStore.store_layout s = Some (tt, s1) ∧ EEStore.init (EEStore.power_off s1) = Some (tt, s2) ∧
    turnouts s2 = reloaded_all sizeof_EEStore (turnouts s) ∧
    sensors s2 = rev (sensors_new 1 (sensors s)) ∧
    outputs s2 = outputs_back (sizeof_EEStore + Z.of_nat (length (enc_turnouts (turnouts s))) +
                               Z.of_nat (length (enc_sensors (sensors s)))) (outputs s).
Proof.
  intros Hok Hs Hl. destruct (wp_run _ _ _ (wp_store_layout s Hs)) as ([] & s1 & E1 & [Hh Hi]).
  exists s1. enough (wp EEStore.init (λ _ s2, turnouts s2 = reloaded_all sizeof_EEStore (turnouts s) ∧
    sensors s2 = rev (sensors_new 1 (sensors s)) ∧
    outputs s2 = outputs_back (sizeof_EEStore + Z.of_nat (length (enc_turnouts (turnouts s))) +
      Z.of_nat (length (enc_sensors (sensors s)))) (outputs s)) (EEStore.power_off s1)) as Hw.
  { destruct (wp_run _ _ _ Hw) as ([] & s2 & E2 & HQ). by exists s2. }
  pose proof (so_room s Hs) as Hr. pose proof (so_lcn s Hs) as Hn.
  pose proof Hr as [R1 R2]. unfold image in R1. rewrite !length_app in R1. unfold sizeof_EEStore in R1.
  pose proof (enc_turnouts_length _ Hn). pose proof (enc_sensors_length (sensors s)). pose proof (enc_outputs_length (outputs s)).
  unfold EEStore.init, eeprom_get. apply wp_bind, wp_get.
  assert (get 0 sizeof_EEStore (cells (store (EEStore.power_off s1))) = EESTORE_ID ++ le16 (Z.of_nat (length (turnouts s))) ++
    le16 (Z.of_nat (length (sensors s))) ++ le16 (Z.of_nat (length (outputs s)))) as -> by exact (holds_get _ _ _ Hh).
  cbn [EESTORE_ID le16 app]. rewrite !of16_le16 by (unfold is_u16; lia).
  apply wp_bind, wp_mod, wp_bind. rewrite bool_decide_eq_false_2 by (intros Hx; by apply Hx). apply wp_ret.
  apply wp_bind, wp_mod. by apply wp_load_all.
Qed.

End store.

(** ** A board with the EEPROM of a Mega, and a small layout *)

#[local] Instance mega : Machine := {| EEPROM_length := 4096; alloc_ok _ := true; hasCallback _ := false |}.

Definition small_layout : St :=
  mkSt (mkStore (λ _, 255) EESTORE_ID 0 0 0 0)
    [mkTurnout 1 true false 0 (VpinTurnout 100); mkTurnout 2 true true 0 (ServoTurnout 101 300 200 1);
     mkTurnout 3 true false 0 (DCCTurnout 17 2)] 0
    [mkSensor 1 40 22 1 true true 1 true; mkSensor 2 (-7) VPIN_NONE 0 false false 0 false] None 0 3%positive
    [mkOutput 5 30 129 0; mkOutput 6 31 6 0] [].

Lemma eeprom_round_trip_witness : ∃ s1 s2, EEStore.store_layout small_layout = Some (tt, s1) ∧
  EEStore.init (EEStore.power_off s1) = Some (tt, s2) ∧
  turnouts s2 = [mkTurnout 1 true false 13 (VpinTurnout 100); mkTurnout 2 true false 18 (ServoTurnout 101 300 200 1);
                 mkTurnout 3 false false 27 (DCCTurnout 17 2)] ∧
  sensors s2 = [mkSensor 2 (-7) VPIN_NONE 0 false false 1 false; mkSensor 1 40 22 1 false false 1 true] ∧
  outputs s2 = [mkOutput 5 30 129 42; mkOutput 6 31 134 47].
Proof.
  destruct (eeprom_round_trip small_layout) as (s1 & s2 & E1 & E2 & E3 & E4 & E5).
  - done.
  - constructor; [split; vm_compute; done|repeat constructor; discriminate|done].
  - constructor; [repeat constructor; vm_compute; tauto || (split; done) || done..| | |];
      apply (bool_decide_unpack _); by vm_compute.
  - exists s1, s2. split; [exact E1|]. split; [exact E2|]. split; [rewrite E3; by vm_compute|].
    split; [rewrite E4; by vm_compute|rewrite E5; by vm_compute].
Defined.

(** The address that a turnout remembers is not brought up to date when the
    layout is saved again: with two turnouts loaded from EEPROM, removing the
    first, saving, and then throwing the second overwrites the record that
    follows it, and after the next power cycle sensor 40 has become sensor 24. *)
Lemma stale_turnout_address :
  let l := mkSt (mkStore (λ _, 255) EESTORE_ID 0 0 0 0)
    [mkTurnout 1 true false 0 (VpinTurnout 100); mkTurnout 2 true false 0 (VpinTurnout 101)] 0
    [mkSensor 1 40 22 1 false false 1 true] None 0 2%positive [] [] in
  let run (m : M St unit) (s : option St) := '(_, s) ← s ≫= m; Some s in
  let cycle s := run EEStore.init (EEStore.power_off <$> run EEStore.store_layout s) in
  let s1 := cycle (Some l) in
  let s2 := run (let! _ := Turnouts.remove 1 in EEStore.store_layout ;;; let! _ := Turnouts.setClosed 2 false in mreturn tt) s1 in
  let s3 := run EEStore.init (EEStore.power_off <$> s2) in
  (snum <$> default [] (sensors <$> s1)) = [40] ∧ (snum <$> default [] (sensors <$> s2)) = [40] ∧
  (snum <$> default [] (sensors <$> s3)) = [24].
Proof. vm_compute. repeat split. Qed.

End EEStoreProps.
