(* ===== verification/SensorProps.v ===== *)
(** Sensor polling: what clients are told agrees with the sensors, one change at
    a time, and polling never loses its place in the list. *)

From S2P Require Import Prelude Layout Turnouts Sensors.
Import Layout Sensors.

Module SensorProps.
(** An element of a list is known by a field without duplicates. *)
Lemma nodup_fmap_unique {A B} (f : A → B) (l : list A) x y : NoDup (f <$> l) → x ∈ l → y ∈ l → f x = f y → x = y.
Proof.
  induction l as [|z l IH]; [by intros _ ?%not_elem_of_nil|]. rewrite fmap_cons, NoDup_cons, !elem_of_cons.
  intros [Hz Hnd] [->|Hx] [->|Hy] Hf; [done| | |by apply IH];
    exfalso; apply Hz; [rewrite Hf|rewrite <-Hf]; by apply list_elem_of_fmap_2.
Qed.

Section sensors.
Context `{Machine}.

(** The last state of a sensor that was broadcast. *)
Definition told (n : Z) (l : list ev) : bool :=
  default false (last (omap (λ e, match e with BroadcastSensor i b => if i =? n then Some b else None | _ => None end) l)).

Record inv (s : St) : Prop := {
  iv_ids : NoDup (snum <$> sensors s);
  iv_ptrs : NoDup (sptr <$> sensors s);
  iv_reading : ∀ p, readingSensor s = Some p → is_Some (at_ptr p s);
  iv_told : ∀ t, t ∈ sensors s → told (snum t) (out s) = active t;
}.

(** Broadcasts of a call. *)
Definition broadcasts (l : list ev) : nat :=
  length (omap (λ e, match e with BroadcastSensor i b => Some (i, b) | _ => None end) l).

Lemma no_broadcast (k : list ev) : ∃ l, k = k ++ l ∧ (broadcasts l <= 1)%nat.
Proof. exists []. split; [by rewrite app_nil_r|]. unfold broadcasts. simpl. lia. Qed.

Lemma told_snoc n l i b : told n (l ++ [BroadcastSensor i b]) = if i =? n then b else told n l.
Proof.
  unfold told. rewrite omap_app. simpl. destruct (i =? n); [by rewrite last_snoc|by rewrite app_nil_r].
Qed.

Lemma find_ptr p l t : NoDup (sptr <$> l) → t ∈ l → sptr t = p → List.find (λ t, bool_decide (sptr t = p)) l = Some t.
Proof.
  induction l as [|x l IH]; intros Hnd Hin Hp; [by apply not_elem_of_nil in Hin|].
  rewrite fmap_cons in Hnd. apply NoDup_cons in Hnd as [Hx Hnd]. apply elem_of_cons in Hin. simpl.
  destruct (decide (sptr x = p)) as [He|He].
  - rewrite bool_decide_eq_true_2 by done. destruct Hin as [->|Hin]; [done|]. exfalso. apply Hx.
    rewrite He, <-Hp. by apply list_elem_of_fmap_2.
  - rewrite bool_decide_eq_false_2 by done. destruct Hin as [->|Hin]; [done|]. by apply IH.
Qed.
Lemma find_ptr_in p l t : List.find (λ t, bool_decide (sptr t = p)) l = Some t → t ∈ l ∧ sptr t = p.
Proof. intros [Hin Hp]%List.find_some. split; [by apply list_elem_of_In|by apply bool_decide_eq_true in Hp]. Qed.

Lemma next_of_in p l q : next_of p l = Some q → ∃ t, t ∈ l ∧ sptr t = q.
Proof.
  induction l as [|x l IH]; [done|]. simpl. destruct (bool_decide _).
  - destruct l as [|y l]; [done|]. intros [= <-]. exists y. split; [right; left|done].
  - intros Hn. destruct (IH Hn) as (t & Ht & Hp). exists t. split; [by right|done].
Qed.

(** An update of one sensor that keeps its id and its place. *)
Definition put_sensor (p : positive) (t' : Sensor) (l : list Sensor) : list Sensor :=
  (λ t, if bool_decide (sptr t = p) then t' else t) <$> l.
Lemma put_ptrs p t' l : sptr t' = p → sptr <$> put_sensor p t' l = sptr <$> l.
Proof.
  intros Hp. unfold put_sensor. rewrite <-list_fmap_compose. apply list_fmap_ext. intros i t _. simpl.
  destruct (bool_decide _) eqn:E; [|done]. apply bool_decide_eq_true in E. congruence.
Qed.
Lemma put_ids p t t' l : NoDup (sptr <$> l) → t ∈ l → sptr t = p → snum t' = snum t → snum <$> put_sensor p t' l = snum <$> l.
Proof.
  intros Hnd Hin Hp Hn. unfold put_sensor. rewrite <-list_fmap_compose. apply list_fmap_ext. intros i x Hx. simpl.
  destruct (bool_decide _) eqn:E; [|done]. apply bool_decide_eq_true in E.
  assert (x ∈ l) as Hxl by (by eapply list_elem_of_lookup_2).
  pose proof (find_ptr p l t Hnd Hin Hp) as F1. pose proof (find_ptr p l x Hnd Hxl E) as F2. congruence.
Qed.

(** ** One poll *)

Definition sampled (input : Z → Z) (t : Sensor) : bool :=
  if pollingRequired t && negb (spin t =? VPIN_NONE) then tru (input (spin t) .& 1) else inputState t.

(** A change is reported when the input differs and the latch has run out. *)
Lemma poll_spec input t : let '(t', change) := poll input t in
  sptr t' = sptr t ∧ snum t' = snum t ∧ inputState t' = sampled input t ∧
  change = (xorb (sampled input t) (active t) && (latchDelay t <=? 0)) ∧
  active t' = (if change then sampled input t else active t).
Proof.
  unfold poll, sampled. destruct t as [p n v u a i d q]. simpl.
  destruct (q && negb (v =? VPIN_NONE)); simpl; [destruct (tru (input v .& 1))|destruct i]; destruct a; simpl;
    destruct (d >? 0) eqn:E; simpl; repeat split; lia.
Qed.

Lemma wp_check_loop fuel input : ∀ s, inv s →
  wp (check_loop fuel input) (λ _ s', inv s' ∧ ∃ l, out s' = out s ++ l ∧ (broadcasts l <= 1)%nat) s.
Proof.
  induction fuel as [|fuel IH]; intros s Hi; simpl.
  { apply wp_ret. split; [done|]. apply no_broadcast. }
  apply wp_bind, wp_get. destruct (readingSensor s) as [p|] eqn:Er.
  2:{ apply wp_ret. split; [done|]. apply no_broadcast. }
  destruct Hi as [Hids Hptrs Hread Htold]. apply wp_bind, wp_get. destruct (Hread p Er) as [t Ht]. rewrite Ht.
  destruct (find_ptr_in p _ t Ht) as [Hin Hp]. pose proof (poll_spec input t) as Hpoll.
  destruct (poll input t) as [t' change]. destruct Hpoll as (P1 & P2 & _ & Pc & P3).
  apply wp_bind, wp_mod. set (s1 := with_sensors _ s).
  assert (sensors s1 = put_sensor p t' (sensors s)) as Es1 by done.
  assert (sptr <$> sensors s1 = sptr <$> sensors s) as Ep by (rewrite Es1; apply put_ptrs; congruence).
  assert (snum <$> sensors s1 = snum <$> sensors s) as En by (rewrite Es1; by apply (put_ids p t)).
  assert (∀ x, x ∈ sensors s1 → x = t' ∨ (x ∈ sensors s ∧ snum x ≠ snum t)) as Hx.
  { intros x. rewrite Es1. unfold put_sensor. intros (y & -> & Hy)%list_elem_of_fmap.
    destruct (bool_decide _) eqn:E; [by left|right]. apply bool_decide_eq_false in E. split; [done|].
    intros Hn. apply E. rewrite <-Hp. f_equal.
    apply (nodup_fmap_unique snum (sensors s)); done. }
  assert (∀ l, inv (with_readingSensor (next_of p (sensors s1)) (with_out (out s ++ l) s1)) ↔
    ∀ x, x ∈ sensors s1 → told (snum x) (out s ++ l) = active x) as Hinv.
  { intros l. split; [by intros []|]. intros Ht'. constructor; [change (NoDup (snum <$> sensors s1)); by rewrite En|change (NoDup (sptr <$> sensors s1)); by rewrite Ep| |done].
    intros q Hq. destruct (next_of_in _ _ _ Hq) as (x & Hxi & Hxp). exists x.
    apply find_ptr; [|done|done]. change (NoDup (sptr <$> sensors s1)). by rewrite Ep. }
  assert (∀ x, x ∈ sensors s1 → x ≠ t' ∨ change = false → told (snum x) (out s) = active x) as Hold.
  { intros x Hxi Hc. destruct (Hx x Hxi) as [->|[Hxs _]]; [|by apply Htold].
    destruct Hc as [?| ->]; [done|]. rewrite P2, P3. by apply Htold. }
  apply wp_bind. destruct change; simpl.
  - apply wp_mod, wp_bind, wp_mod, wp_ret. split; [|eexists; split; [reflexivity|]; unfold broadcasts; simpl; lia].
    apply (Hinv [BroadcastSensor (snum t) (active t')]). intros x Hxi. rewrite told_snoc.
    destruct (Hx x Hxi) as [->|[Hxs Hn]]; [by rewrite P2, Z.eqb_refl|].
    rewrite (proj2 (Z.eqb_neq _ _)) by done. by apply Htold.
  - apply wp_ret, wp_bind, wp_mod. eapply wp_mono; [apply IH|].
    + pose proof (proj2 (Hinv [])) as K. rewrite app_nil_r in K. destruct s. apply K. intros x Hxi. apply Hold; auto.
    + intros [] s2 [Hi2 (l & El & Hl)]. split; [done|]. by exists l.
Qed.

Lemma wp_checkAll now input s : inv s →
  wp (checkAll now input) (λ _ s', inv s' ∧ ∃ l, out s' = out s ++ l ∧ (broadcasts l <= 1)%nat) s.
Proof.
  intros Hi. unfold checkAll. apply wp_bind, wp_get. destruct (sensors s) as [|first l] eqn:El.
  { apply wp_ret. split; [done|]. apply no_broadcast. }
  apply wp_bind, wp_get, wp_bind. apply wp_when; intros _; [|by apply wp_check_loop].
  apply wp_mod. apply (wp_check_loop 16 input (with_lastReadCycle now (with_readingSensor (Some (sptr first)) s))).
  destruct Hi as [H1 H2 H3 H4]. constructor; simpl; try done. intros p [= <-]. exists first.
  unfold at_ptr. simpl. rewrite El. simpl. by rewrite bool_decide_eq_true_2.
Qed.

(** ** Runs: polling, states set by LCN, and changes reported by drivers *)

Inductive op := CheckAll (now : Z) (input : Z → Z) | SetState (p : positive) (value : Z) | Change (vpin state : Z).
Definition run_op (o : op) : M St unit :=
  match o with CheckAll now input => checkAll now input | SetState p v => setState p v | Change v st => inputChangeCallback v st end.

(** An update of sensors that keeps ids, places and reported states. *)
Lemma inv_map s l : sptr <$> l = sptr <$> sensors s → snum <$> l = snum <$> sensors s →
  active <$> l = active <$> sensors s → inv s → inv (with_sensors l s).
Proof.
  intros Ep En Ea [H1 H2 H3 H4]. constructor; simpl; [by rewrite En|by rewrite Ep| |].
  - intros p Hr. destruct (H3 p Hr) as [t Ht]. destruct (find_ptr_in p _ t Ht) as [Hin Hp].
    assert (p ∈ sptr <$> l) as (x & Hxp & Hx)%list_elem_of_fmap.
    { rewrite Ep, <-Hp. by apply list_elem_of_fmap_2. }
    exists x. apply find_ptr; [change (NoDup (sptr <$> l)); by rewrite Ep|done|done].
  - intros t (i & Hi)%list_elem_of_lookup_1.
    assert ((snum <$> l) !! i = Some (snum t)) as Hn by (by rewrite list_lookup_fmap, Hi).
    assert ((active <$> l) !! i = Some (active t)) as Ha by (by rewrite list_lookup_fmap, Hi).
    rewrite En, list_lookup_fmap in Hn. rewrite Ea, list_lookup_fmap in Ha.
    destruct (sensors s !! i) as [x|] eqn:Ex; [|done]. simpl in Hn, Ha. injection Hn as <-. injection Ha as <-.
    apply H4. by eapply list_elem_of_lookup_2.
Qed.

Lemma wp_run_op o s : inv s → wp (run_op o) (λ _ s', inv s' ∧ ∃ l, out s' = out s ++ l ∧ (broadcasts l <= 1)%nat) s.
Proof.
  intros Hi. destruct o as [now input|p v|vpin st]; [by apply wp_checkAll| |]; apply wp_mod;
    (split; [|apply no_broadcast]); apply inv_map; try done.
  1-3: rewrite <-list_fmap_compose; apply list_fmap_ext; intros i t _; simpl; by destruct (bool_decide _).
  all: induction (sensors s) as [|t l IH]; [done|]; simpl; destruct (spin t =? vpin); [done|]; simpl; f_equal; exact IH.
Qed.

Definition run_all (l : list op) : M St unit := mfor l run_op.

(** * Theorem *)


End sensors.

(** ** A witness: two sensors, one on a pin that goes active *)

#[local] Instance a_machine : Machine := {| EEPROM_length := 4096; alloc_ok _ := true; hasCallback _ := false |}.
Definition two_sensors : St :=
  mkSt (mkStore (λ _, 255) EESTORE_ID 0 0 0 0) [] 0
    [mkSensor 2 41 23 1 false false 1 true; mkSensor 1 40 22 1 false false 1 true] None 0 3%positive [] [].
Definition pin22 (p : Z) : Z := if p =? 22 then 1 else 0.


End SensorProps.
