(* ===== verification/RingStream.v ===== *)
(** The ring buffer between the command processors and the network interfaces
    (src/RingStream.cpp), one Definition per member function. A stream holds
    messages: a client number, the length of the text in two bytes, and the text,
    in which a string in flash memory may stand as a marker and its address. The
    program memory and the width of a pointer are the parameters of the file:
    the AVR boards have two byte pointers and insert addresses, the others copy
    the text. *)

From S2P Require Import Prelude.

(** Program memory by byte address, and sizeof(void* ). *)
Class Flash := { flash_byte : Z → Z; ptr_size : Z }.

Module RingStream.

Definition FLASH_INSERT_MARKER : Z := 255.
Definition NO_CLIENT : Z := 255.

(** The members of a RingStream. *)
Record St := mkSt {
  len : Z;
  buffer : list Z;   (* _len bytes *)
  pos_write : Z;
  pos_read : Z;
  overflow : bool;
  mark_pos : Z;   (* _mark *)
  count_ : Z;
  flashInsert : Z;   (* an address in flash, or 0 *)
  ringClient : Z;
}.

Definition with_len (x : Z) (r : St) : St :=
  mkSt x (buffer r) (pos_write r) (pos_read r) (overflow r) (mark_pos r) (count_ r) (flashInsert r)
    (ringClient r).
Definition with_buffer (x : list Z) (r : St) : St :=
  mkSt (len r) x (pos_write r) (pos_read r) (overflow r) (mark_pos r) (count_ r) (flashInsert r)
    (ringClient r).
Definition with_pos_write (x : Z) (r : St) : St :=
  mkSt (len r) (buffer r) x (pos_read r) (overflow r) (mark_pos r) (count_ r) (flashInsert r) (ringClient
    r).
Definition with_pos_read (x : Z) (r : St) : St :=
  mkSt (len r) (buffer r) (pos_write r) x (overflow r) (mark_pos r) (count_ r) (flashInsert r)
    (ringClient r).
Definition with_overflow (x : bool) (r : St) : St :=
  mkSt (len r) (buffer r) (pos_write r) (pos_read r) x (mark_pos r) (count_ r) (flashInsert r)
    (ringClient r).
Definition with_mark_pos (x : Z) (r : St) : St :=
  mkSt (len r) (buffer r) (pos_write r) (pos_read r) (overflow r) x (count_ r) (flashInsert r)
    (ringClient r).
Definition with_count_ (x : Z) (r : St) : St :=
  mkSt (len r) (buffer r) (pos_write r) (pos_read r) (overflow r) (mark_pos r) x (flashInsert r)
    (ringClient r).
Definition with_flashInsert (x : Z) (r : St) : St :=
  mkSt (len r) (buffer r) (pos_write r) (pos_read r) (overflow r) (mark_pos r) (count_ r) x (ringClient
    r).
Definition with_ringClient (x : Z) (r : St) : St :=
  mkSt (len r) (buffer r) (pos_write r) (pos_read r) (overflow r) (mark_pos r) (count_ r) (flashInsert r)
    x.

(** The constructor: new does not clear the memory it returns. *)
Definition new (garbage : list Z) (n : Z) : St :=
  mkSt n (<[0%nat := 0]> garbage) 0 0 false 0 0 0 NO_CLIENT.

(** Access to the array, which fails out of bounds. *)
Definition put (i b : Z) : M St unit := λ s,
  if (0 <=? i) && (i <? Z.of_nat (length (buffer s)))
  then Some (tt, with_buffer (<[Z.to_nat i := u8 b]> (buffer s)) s) else None.
Definition fetch (i : Z) : M St Z := λ s,
  if 0 <=? i then b ← buffer s !! Z.to_nat i; Some (b, s) else None.
Definition advance (s : St) (i : Z) : Z := if i + 1 =? len s then 0 else i + 1.

Section flash.
Context `{Flash}.

(** An int has the width of a pointer on these boards. *)
Definition int (z : Z) : Z := if 2 <? ptr_size then i32 z else i16 z.

Definition write (b : Z) : M St Z :=
  let! s := mget id in
  if overflow s then mreturn 0 else
  (put (pos_write s) b ;;;
   let w := advance s (pos_write s) in
   mmod (with_pos_write w) ;;;
   if w =? pos_read s then (mmod (with_overflow true) ;;; mreturn 0)
   else (mmod (λ s, with_count_ (int (count_ s + 1)) s) ;;; mreturn 1)).

(** Print::print of a string: it stops at the first byte that is refused. *)
Fixpoint print (text : list Z) : M St Z :=
  match text with
  | [] => mreturn 0
  | b :: text =>
    let! n := write b in
    if tru n then (let! k := print text in mreturn (n + k)) else mreturn 0
  end.

(** The characters up to the terminating zero, 32K of them at most: the
    length is kept in an int16_t. *)
Fixpoint flash_from (fuel : nat) (a : Z) : option (list Z) :=
  match fuel with
  | O => None
  | S fuel => if flash_byte a =? 0 then Some []
              else l ← flash_from fuel (a + 1); Some (flash_byte a :: l)
  end.
Definition flash_limit : nat := Z.to_nat 32768.
Definition flash_string (a : Z) : option (list Z) := flash_from flash_limit a.

Definition printFlash (a : Z) : M St Z :=
  let! text := mlift (flash_string a) in
  if 2 <? ptr_size then print text else
  let plength := i16 (Z.of_nat (length text)) in
  if plength =? 0 then mreturn 0 else
  (let! prevCount := mget count_ in
   write FLASH_INSERT_MARKER ;;;
   mfor (rangeZ 0 ptr_size) (λ f, write ((a >>' (8 * f)) .& 255) ;;; mreturn tt) ;;;
   mmod (with_count_ (int (prevCount + plength))) ;;;
   mreturn plength).

Definition readRawByte : M St Z :=
  let! s := mget id in
  let! b := fetch (pos_read s) in
  mmod (λ s, with_overflow false (with_pos_read (advance s (pos_read s)) s)) ;;;
  mreturn b.

(** The next byte of the flash string that is being read, or 0. *)
Definition read_insert : M St Z :=
  let! a := mget flashInsert in
  if negb (tru a) then mreturn 0 else
  if tru (flash_byte a) then (mmod (with_flashInsert (a + 1)) ;;; mreturn (flash_byte a))
  else (mmod (with_flashInsert 0) ;;; mreturn 0).

Definition read_address : M St Z :=
  mfold (λ f a, let! bf := readRawByte in mreturn (a .| ((bf .& 255) <<' (8 * f)))) (rangeZ 0 ptr_size) 0.

(** Two rounds are enough unless an empty string was inserted. *)
Fixpoint read_loop (fuel : nat) : M St Z :=
  match fuel with
  | O => mfail
  | S fuel =>
    let! fb := read_insert in
    if tru fb then mreturn fb else
    let! s := mget id in
    if (pos_read s =? pos_write s) && negb (overflow s) then mreturn (-1) else
    let! b := readRawByte in
    if negb (b =? FLASH_INSERT_MARKER) then mreturn b else
    if 2 <? ptr_size then mreturn 63 else
    (let! a := read_address in
     mmod (with_flashInsert a) ;;;
     read_loop fuel)
  end.
Definition read : M St Z := read_loop 2.

(** The high byte is the first operand, and is read first. *)
Definition count : M St Z :=
  let! h := readRawByte in
  let! l := readRawByte in
  mreturn (int ((h <<' 8) .| l)).

Definition freeSpace (s : St) : Z :=
  if pos_write s <? pos_read s then pos_read s - pos_write s - 3
  else len s - pos_write s + pos_read s - 3.

Definition mark (b : Z) : M St unit :=
  mmod (with_ringClient b) ;;;
  mmod (λ s, with_mark_pos (pos_write s) s) ;;;
  write b ;;;
  write 0 ;;;
  write 0 ;;;
  mmod (with_count_ 0).

Definition peekTargetMark (s : St) : Z := ringClient s.

Definition commit : M St bool :=
  mmod (with_flashInsert 0) ;;;
  let! s := mget id in
  if overflow s then
    (mmod (λ s, with_overflow false (with_pos_write (mark_pos s) s)) ;;; mreturn false)
  else if count_ s =? 0 then
    (mmod (λ s, with_ringClient NO_CLIENT (with_pos_write (mark_pos s) s)) ;;; mreturn true)
  else
    (mmod (λ s, with_mark_pos (advance s (mark_pos s)) s) ;;;
     let! m := mget mark_pos in
     put m (highByte (count_ s)) ;;;
     mmod (λ s, with_mark_pos (advance s (mark_pos s)) s) ;;;
     let! m := mget mark_pos in
     put m (lowByte (count_ s)) ;;;
     mmod (with_ringClient NO_CLIENT) ;;;
     mreturn true).

Definition flush : M St unit :=
  mmod (with_pos_write 0) ;;;
  mmod (with_pos_read 0) ;;;
  put 0 0 ;;;
  mmod (with_flashInsert 0) ;;;
  mmod (with_ringClient NO_CLIENT).

Definition peek : M St Z :=
  let! s := mget id in
  if (pos_read s =? pos_write s) && negb (overflow s) then mreturn (-1) else fetch (pos_read s).

(** * The two ends of a stream *)

(** What a producer prints between mark and commit. *)
Inductive piece := Text (l : list Z) | FlashStr (a : Z).
Definition put_piece (p : piece) : M St unit :=
  match p with Text l => print l ;;; mreturn tt | FlashStr a => printFlash a ;;; mreturn tt end.
Definition send (client : Z) (ps : list piece) : M St bool :=
  mark client ;;;
  mfor ps put_piece ;;;
  commit.

(** The consumer, as EthernetInterface::loop and the WiFi handlers take a
    message out: the client, the length, and that many bytes. *)
Fixpoint read_n (n : nat) : M St (list Z) :=
  match n with
  | O => mreturn []
  | S n => let! c := read in let! l := read_n n in mreturn (c :: l)
  end.
Definition receive : M St (option (Z * list Z)) :=
  let! client := read in
  if client <? 0 then mreturn None else
  let! n := count in
  let! text := read_n (Z.to_nat n) in
  mreturn (Some (client, text)).
End flash.

End RingStream.
