(* ===== verification/RingProps.v ===== *)
(** The ring buffer streams refine a bounded queue of messages: what the
    producer marked, printed and committed comes out complete and in order, or
    is dropped as a whole when it does not fit. *)

From S2P Require Import Prelude RingStream.

Module RingProps.
Import RingStream.

(** * Bytes of a circular array *)

(** The bytes [l] lie in the array [buf] of [n] cells from position [p] on. *)
Definition lies (buf : list Z) (n p : Z) (l : list Z) : Prop :=
  ∀ i b, l !! i = Some b → buf !! Z.to_nat ((p + Z.of_nat i) mod n) = Some b.

Lemma mod_apart n p i j : 0 < n → 0 <= i < j → j < n → (p + i) mod n ≠ (p + j) mod n.
Proof.
  intros Hn Hi Hj E.
  assert ((p + j - (p + i)) mod n = 0) as K by (by rewrite Zminus_mod, E, Z.sub_diag, Zmod_0_l).
  rewrite Z.mod_small in K by lia. lia.
Qed.

Lemma lies_app buf n p l k : lies buf n p (l ++ k) ↔ lies buf n p l ∧ lies buf n (p + Z.of_nat (length l)) k.
Proof.
  split.
  - intros Hl. split; intros i b Hi.
    + apply Hl. by apply lookup_app_l_Some.
    + rewrite <- Z.add_assoc, <- Nat2Z.inj_add. apply Hl.
      rewrite lookup_app_r by lia. by replace (length l + i - length l)%nat with i by lia.
  - intros [Hl Hk] i b [Hi|[Hle Hi]]%lookup_app_Some; [by apply Hl|].
    specialize (Hk _ _ Hi). by replace (p + Z.of_nat i) with (p + Z.of_nat (length l) + Z.of_nat (i - length l)) by lia.
Qed.

Lemma lies_cons buf n p x l :
  lies buf n p (x :: l) ↔ buf !! Z.to_nat (p mod n) = Some x ∧ lies buf n (p + 1) l.
Proof.
  rewrite (lies_app _ _ _ [x] l). cbn [length]. split; intros [Hx Hl]; (split; [|done]).
  - rewrite <- (Hx 0%nat x) by done. by rewrite Z.add_0_r.
  - intros [|i] b Hi; [|done]. simplify_eq/=. by rewrite Z.add_0_r.
Qed.

Lemma lies_mod buf n p l : 0 < n → lies buf n (p mod n) l ↔ lies buf n p l.
Proof. intros Hn. unfold lies. by setoid_rewrite Zplus_mod_idemp_l. Qed.

(** Writing a cell leaves the bytes in the others. *)
Lemma lies_insert_far buf n p l q b : 0 < n → 0 <= q →
  (∀ i, (i < length l)%nat → (p + Z.of_nat i) mod n ≠ q) →
  lies buf n p l → lies (<[Z.to_nat q := b]> buf) n p l.
Proof.
  intros Hn Hq Hi Hl i c Hc. pose proof (lookup_lt_Some _ _ _ Hc) as Hlt. rewrite list_lookup_insert_ne; [by apply Hl|].
  intros E. apply (Hi i Hlt). pose proof (Z.mod_pos_bound (p + Z.of_nat i) n Hn). lia.
Qed.

Lemma lies_insert buf n p l q b : 0 < n → 0 <= p → Z.of_nat (length buf) = n → Z.of_nat (length l) < n →
  q = (p + Z.of_nat (length l)) mod n → lies buf n p l → lies (<[Z.to_nat q := b]> buf) n p (l ++ [b]).
Proof.
  intros Hn Hp Hb Hlen Hq Hl. apply lies_app. split.
  - apply lies_insert_far; [done| |intros i Hi|done]; subst q; [by apply Z.mod_pos_bound|apply mod_apart; lia].
  - intros [|i] c Hc; [|done]. simplify_eq/=. rewrite Z.add_0_r. apply list_lookup_insert_eq.
    pose proof (Z.mod_pos_bound (p + Z.of_nat (length l)) _ Hn). lia.
Qed.

(** The bound on strings is never to be computed. *)
Lemma flash_limit_eq : Z.of_nat flash_limit = 32768.
Proof. unfold flash_limit. by rewrite Z2Nat.id. Qed.
Opaque flash_limit.

(** * The queue of messages *)

Section ring.
Context `{Flash}.

(** The text in flash memory is where the compiler put it. *)
Definition flash_ok (a : Z) : Prop :=
  ∃ t, flash_string a = Some t ∧ Forall is_byte t ∧ (ptr_size = 2 ∧ 0 < a < 65536 ∨ 2 < ptr_size ∧ Forall (λ c, c ≠ 255) t).
Definition char_ok (c : Z) : Prop := is_byte c ∧ c ≠ FLASH_INSERT_MARKER.
Definition piece_ok (p : piece) : Prop :=
  match p with Text l => Forall char_ok l | FlashStr a => flash_ok a end.

(** The characters of a piece, and the bytes that hold them. *)
Definition shown (p : piece) : list Z :=
  match p with Text l => l | FlashStr a => default [] (flash_string a) end.
Definition raw (p : piece) : list Z :=
  match p with
  | Text l => l
  | FlashStr a =>
    if 2 <? ptr_size then shown p else
    match shown p with [] => [] | _ => [FLASH_INSERT_MARKER; a .& 255; (a >>' 8) .& 255] end
  end.

Record Msg := mkMsg { client : Z; pieces : list piece }.
Definition text (m : Msg) : list Z := concat (shown <$> pieces m).
Definition body (m : Msg) : list Z := concat (raw <$> pieces m).
Definition Msg_ok (m : Msg) : Prop :=
  char_ok (client m) ∧ Forall piece_ok (pieces m) ∧ Z.of_nat (length (text m)) < 32768.

Definition frame (m : Msg) : list Z :=
  client m :: highByte (Z.of_nat (length (text m))) :: lowByte (Z.of_nat (length (text m))) :: body m.
Definition frames (q : list Msg) : list Z := concat (frame <$> q).

(** A message is accepted when its frame leaves one byte free. *)
Definition fits (n : Z) (q : list Msg) (m : Msg) : bool :=
  Z.of_nat (length (frames q) + length (frame m)) <? n.
Definition spec_send (n : Z) (m : Msg) (q : list Msg) : list Msg * bool :=
  if fits n q m then (if bool_decide (text m = []) then q else q ++ [m], true) else (q, false).
Definition spec_receive (q : list Msg) : list Msg * option (Z * list Z) :=
  match q with [] => ([], None) | m :: q => (q, Some (client m, text m)) end.

(** * Writing *)

Definition sane (n : Z) (s : St) : Prop :=
  0 < n ∧ len s = n ∧ Z.of_nat (length (buffer s)) = n ∧ 0 <= pos_read s < n ∧ 0 <= pos_write s < n.

(** The committed bytes are [base]; since the mark, [l] was written, unless
    that was too much. *)
Definition Writing (n : Z) (base l : list Z) (c : Z) (s : St) : Prop :=
  sane n s ∧ mark_pos s = (pos_read s + Z.of_nat (length base)) mod n ∧
  lies (buffer s) n (pos_read s) base ∧
  if decide (Z.of_nat (length (base ++ l)) < n)
  then overflow s = false ∧ pos_write s = (pos_read s + Z.of_nat (length (base ++ l))) mod n ∧
       lies (buffer s) n (pos_read s) (base ++ l) ∧ count_ s = c
  else overflow s = true.

Lemma advance_mod n s i : 0 < n → len s = n → 0 <= i < n → advance s i = (i + 1) mod n.
Proof.
  intros Hn Hl Hi. unfold advance. rewrite Hl. destruct (Z.eqb_spec (i + 1) n) as [->|].
  - by rewrite Z.mod_same by lia.
  - by rewrite Z.mod_small by lia.
Qed.

Lemma int_id z : -32768 <= z < 32768 → int z = z.
Proof. intros Hz. unfold int. destruct (_ <? _); zlia. Qed.

Lemma wp_put i b (Q : unit → St → Prop) s : 0 <= i < Z.of_nat (length (buffer s)) →
  Q tt (with_buffer (<[Z.to_nat i := u8 b]> (buffer s)) s) → wp (put i b) Q s.
Proof. intros Hi HQ. unfold wp, put. by replace (_ && _) with true by lia. Qed.

Lemma write_ok n base l c b s : Writing n base l c s →
  wp (write b) (λ r s', Writing n base (l ++ [u8 b]) (int (c + 1)) s' ∧
    r = if decide (Z.of_nat (length (base ++ l ++ [u8 b])) < n) then 1 else 0) s.
Proof.
  intros (Hs & Hm & Hb & Hst). destruct (Hs) as (Hn & Hlen & Hbuf & Hr & Hw). unfold write. apply wp_bind, wp_get.
  unfold Writing. rewrite (app_assoc base l), (length_app (base ++ l)). cbn [length].
  destruct (decide (Z.of_nat (length (base ++ l)) < n)) as [Hlt|Hge]; simpl in Hst |- *.
  2:{ rewrite Hst. apply wp_ret. rewrite !decide_False by lia. split; [|done]. by split_and!. }
  destruct Hst as (Ho & Hpw & Hl & Hcnt). rewrite Ho. apply wp_bind, wp_put; [lia|].
  apply wp_bind, wp_mod.
  assert (advance s (pos_write s) = (pos_read s + Z.of_nat (length (base ++ l) + 1)) mod n) as Hadv.
  { rewrite (advance_mod n) by done. rewrite Hpw, Zplus_mod_idemp_l. f_equal. lia. }
  rewrite !Hadv. pose proof (lies_insert _ _ _ _ _ (u8 b) Hn (proj1 Hr) Hbuf Hlt Hpw Hl) as Hl'.
  assert (lies (<[Z.to_nat (pos_write s) := u8 b]> (buffer s)) n (pos_read s) base) as Hb'
    by (rewrite <- app_assoc in Hl'; by apply lies_app in Hl' as [? _]).
  pose proof (Z.mod_pos_bound (pos_read s + Z.of_nat (length (base ++ l) + 1)) n Hn).
  assert (sane n (with_pos_write ((pos_read s + Z.of_nat (length (base ++ l) + 1)) mod n)
     (with_buffer (<[Z.to_nat (pos_write s) := u8 b]> (buffer s)) s))) as Hs'.
  { repeat split; simpl; try done; rewrite ?length_insert; lia. }
  destruct (decide (Z.of_nat (length (base ++ l) + 1) < n)) as [Hlt'|Hge'].
  - assert ((pos_read s + Z.of_nat (length (base ++ l) + 1)) mod n ≠ pos_read s) as Hne.
    { rewrite <- (Z.mod_small (pos_read s) n) at 2 by done. rewrite <- (Z.add_0_r (pos_read s)) at 2.
      symmetry. apply mod_apart; lia. }
    rewrite (proj2 (Z.eqb_neq _ _) Hne). apply wp_bind, wp_mod, wp_ret. cbn beta.
    split; [|done]. split_and!; try done. simpl. by rewrite Hcnt.
  - assert ((pos_read s + Z.of_nat (length (base ++ l) + 1)) mod n = pos_read s) as E.
    { replace (Z.of_nat (length (base ++ l) + 1)) with n by lia.
      rewrite <- (Z.mul_1_l n) at 1. by rewrite Z.mod_add, Z.mod_small by lia. }
    rewrite E in Hs' |- *. rewrite Z.eqb_refl. apply wp_bind, wp_mod, wp_ret. cbn beta.
    split; [|done]. split_and!; try done.
Qed.

(** Once the stream is full the count and the rest do not matter. *)
Lemma Writing_more n base l k c c' s : ¬ Z.of_nat (length (base ++ l)) < n →
  Writing n base l c s → Writing n base (l ++ k) c' s.
Proof.
  intros Hge (Hs & Hm & Hb & Hst). split_and!; try done. rewrite decide_False in Hst by done.
  rewrite decide_False; [done|]. rewrite app_assoc, length_app. lia.
Qed.

Lemma Writing_count n base l c c' s : (Z.of_nat (length (base ++ l)) < n → c = c') →
  Writing n base l c s → Writing n base l c' s.
Proof. intros Hc (Hs & Hm & Hb & Hst). split_and!; try done. destruct (decide _); [by rewrite <- Hc|done]. Qed.

Lemma print_ok n base k : Forall is_byte k → ∀ l c s, 0 <= c → c + Z.of_nat (length k) < 32768 →
  Writing n base l c s →
  wp (print k) (λ _ s', Writing n base (l ++ k) (c + Z.of_nat (length k)) s') s.
Proof.
  induction 1 as [|b k Hb Hk IH]; intros l c s H0 Hc Hs; cbn [print length].
  { apply wp_ret. by rewrite app_nil_r, Z.add_0_r. }
  cbn [length] in Hc.
  apply wp_bind. eapply wp_mono; [by apply write_ok|]. intros r s1 [Hs1 ->].
  rewrite u8_id, int_id in Hs1 by (done || lia). rewrite u8_id by done.
  destruct (decide _) as [_|Hge]; simpl.
  - apply wp_bind. eapply wp_mono; [apply IH; [| |exact Hs1]; lia|]. intros r s2 Hs2. cbn beta in Hs2. apply wp_ret.
    rewrite <- app_assoc in Hs2. eapply Writing_count; [|exact Hs2]. lia.
  - apply wp_ret. change (b :: k) with ([b] ++ k). rewrite app_assoc. by eapply Writing_more.
Qed.

Lemma address_bytes a : 0 < a < 65536 → (a .& 255) .| ((a >>' 8) .& 255) <<' 8 = a.
Proof.
  intros Ha. apply Z.bits_inj'. intros i Hi. rewrite Z.lor_spec, Z.land_spec. change 255 with (Z.ones 8).
  destruct (Z.lt_ge_cases i 8).
  - by rewrite Z.shiftl_spec_low, Z.testbit_ones_nonneg, (proj2 (Z.ltb_lt i 8)), andb_true_r, orb_false_r by lia.
  - rewrite Z.testbit_ones_nonneg, (proj2 (Z.ltb_ge i 8)), andb_false_r by lia.
    rewrite Z.shiftl_spec, Z.land_spec, Z.shiftr_spec, Z.sub_add, Z.testbit_ones_nonneg by lia.
    destruct (Z.ltb_spec (i - 8) 8); [by rewrite andb_true_r|]. rewrite andb_false_r.
    symmetry. apply Z.bits_above_log2; [lia|]. apply (Z.lt_le_trans _ 16); [|lia]. apply Z.log2_lt_pow2; lia.
Qed.

Lemma flash_from_length fuel a t : flash_from fuel a = Some t → (length t < fuel)%nat.
Proof.
  revert a t. induction fuel as [|fuel IH]; intros a t; simpl; [done|]. destruct (_ =? 0); [intros [= <-]; simpl; lia|].
  destruct (flash_from fuel (a + 1)) as [l|] eqn:E; simpl; [|done]. intros [= <-]. apply IH in E. simpl. lia.
Qed.
Lemma flash_string_length a t : flash_string a = Some t → Z.of_nat (length t) < 32768.
Proof. intros E%flash_from_length. pose proof flash_limit_eq. lia. Qed.

Lemma land_255_byte a : is_byte (a .& 255).
Proof. apply lowByte_range. Qed.

Lemma printFlash_ok n base l c a s : flash_ok a → 0 <= c →
  c + Z.of_nat (length (shown (FlashStr a))) < 32768 → Writing n base l c s →
  wp (printFlash a) (λ _ s', Writing n base (l ++ raw (FlashStr a)) (c + Z.of_nat (length (shown (FlashStr a)))) s') s.
Proof.
  intros (t & Ht & Hb & Hp) H0. unfold raw, shown, printFlash. rewrite Ht. cbn [default from_option id]. intros Hc Hs.
  apply wp_bind. apply (wp_eq _ _ _ t s); [done|].
  destruct (Z.ltb_spec 2 ptr_size) as [Hps|Hps]; [by apply print_ok|].
  rewrite i16_id by (pose proof (flash_string_length _ _ Ht); unfold is_i16; lia).
  destruct Hp as [[Hps2 Ha]|[? _]]; [|lia]. clear Hps.
  destruct t as [|x t']; cbn [length]; [apply wp_ret; by rewrite app_nil_r, Z.add_0_r|].
  replace (_ =? 0) with false by lia. set (t := x :: t') in *. change (S (length t')) with (length t) in *. clearbody t. apply wp_bind, wp_get. rewrite Hps2.
  set (p := count_ s). assert (Z.of_nat (length (base ++ l)) < n → p = c) as Hpc.
  { destruct Hs as (_ & _ & _ & Hs). intros Hlt. rewrite decide_True in Hs by done. by destruct Hs as (_ & _ & _ & ?). }
  clearbody p. apply wp_bind. eapply wp_mono; [by apply write_ok|]. intros r1 s1 [H1 _]. apply wp_bind.
  change (rangeZ 0 2) with [0; 1]. unfold mfor. cbn [mfold]. apply wp_bind, wp_bind.
  eapply wp_mono; [by apply write_ok|]. intros r2 s2 [H2 _]. apply wp_ret, wp_bind, wp_bind.
  eapply wp_mono; [by apply write_ok|]. intros r3 s3 [H3 _]. apply wp_ret, wp_ret, wp_bind, wp_mod, wp_ret.
  clear H1 H2. rewrite <- !app_assoc in H3. rewrite !(u8_id (_ .& 255)) in H3 by apply land_255_byte.
  rewrite Z.shiftr_0_r in H3. change (u8 FLASH_INSERT_MARKER) with FLASH_INSERT_MARKER in H3. cbn [app] in H3.
  destruct H3 as (Hsane & Hm & Hl & Hst). split_and!; try done. destruct (decide _) as [Hlt|]; [|done].
  destruct Hst as (? & ? & ? & _). split_and!; try done. simpl.
  rewrite length_app, length_app in Hlt. rewrite length_app in Hpc. rewrite Hpc by lia. apply int_id. lia.
Qed.

Lemma put_piece_ok n base l c p s : piece_ok p → 0 <= c → c + Z.of_nat (length (shown p)) < 32768 →
  Writing n base l c s →
  wp (put_piece p) (λ _ s', Writing n base (l ++ raw p) (c + Z.of_nat (length (shown p))) s') s.
Proof.
  destruct p as [k|a]; intros Hp H0 Hc Hs; apply wp_bind.
  - eapply wp_mono; [apply print_ok; try done|]; [|intros r s' Hs'; by apply wp_ret].
    eapply Forall_impl; [exact Hp|]. by intros x [? _].
  - eapply wp_mono; [by apply printFlash_ok|]. intros r s' Hs'. by apply wp_ret.
Qed.

Lemma put_pieces_ok n base ps : Forall piece_ok ps → ∀ l c s, 0 <= c →
  c + Z.of_nat (length (concat (shown <$> ps))) < 32768 → Writing n base l c s →
  wp (mfor ps put_piece) (λ _ s', Writing n base (l ++ concat (raw <$> ps))
    (c + Z.of_nat (length (concat (shown <$> ps)))) s') s.
Proof.
  induction 1 as [|p ps Hp Hps IH]; intros l c s H0; cbn [fmap list_fmap concat].
  { intros _ Hs. apply wp_ret. by rewrite app_nil_r, Z.add_0_r. }
  rewrite length_app. intros Hc Hs. unfold mfor. cbn [mfold]. apply wp_bind.
  eapply wp_mono; [apply put_piece_ok; try done; lia|]. intros [] s1 Hs1. cbn beta in Hs1.
  eapply wp_mono; [apply IH; [| |exact Hs1]; lia|]. intros [] s2 Hs2. cbn beta in Hs2.
  rewrite <- app_assoc in Hs2. eapply Writing_count; [|exact Hs2]. lia.
Qed.

(** ** From mark to commit *)

Definition Contents (n : Z) (base : list Z) (s : St) : Prop :=
  sane n s ∧ overflow s = false ∧ pos_write s = (pos_read s + Z.of_nat (length base)) mod n ∧
  lies (buffer s) n (pos_read s) base ∧ Z.of_nat (length base) < n.

Lemma mark_ok n base b s : Contents n base s →
  wp (mark b) (λ _ s', Writing n base [u8 b; 0; 0] 0 s') s.
Proof.
  intros (Hs & Ho & Hw & Hl & Hlt). unfold mark. apply wp_bind, wp_mod, wp_bind, wp_mod.
  eassert (Writing n base [] _ _) as Hs0; [|apply wp_bind; eapply wp_mono; [apply write_ok; exact Hs0|]].
  { split_and!; [exact Hs|exact Hw|exact Hl|]. rewrite app_nil_r. rewrite decide_True by done. by split_and!. }
  intros r1 s1 [H1 _]. apply wp_bind. eapply wp_mono; [by apply write_ok|]. intros r2 s2 [H2 _].
  apply wp_bind. eapply wp_mono; [by apply write_ok|]. intros r3 s3 [H3 _]. apply wp_mod.
  destruct H3 as (H3 & Hm & Hb & Hst). split_and!; try done.
  destruct (decide _); [|done]. by destruct Hst as (? & ? & ? & _).
Qed.

(** Filling in the length of an open message. *)
Lemma lies_patch buf n p base x b0 k b q : 0 < n → 0 <= p → Z.of_nat (length buf) = n →
  Z.of_nat (length base + S (length k)) < n → q = (p + Z.of_nat (length base)) mod n →
  lies buf n p (base ++ b0 :: k) → b = u8 x → lies (<[Z.to_nat q := b]> buf) n p (base ++ b :: k).
Proof.
  intros Hn Hp Hb Hlen Hq Hl ->. apply lies_app in Hl as [Hbase Hl]. apply lies_cons in Hl as [_ Hk].
  pose proof (Z.mod_pos_bound (p + Z.of_nat (length base)) n Hn) as Hqn. rewrite <- Hq in Hqn.
  apply lies_app. split; [|apply lies_cons; split].
  - apply lies_insert_far; [done|lia| |done]. intros i Hi. subst q. apply mod_apart; lia.
  - subst q. apply list_lookup_insert_eq. lia.
  - apply lies_insert_far; [done|lia| |done]. intros i Hi. subst q. apply not_eq_sym.
    rewrite <- !Z.add_assoc. apply mod_apart; lia.
Qed.

Lemma commit_ok n base x k c s : Z.of_nat (length base) < n → 0 <= c < 32768 → (c = 0 → k = []) →
  Writing n base (x :: 0 :: 0 :: k) c s →
  wp commit (λ r s', flashInsert s' = 0 ∧
    (r, true) = (bool_decide (Z.of_nat (length base + 3 + length k) < n), true) ∧
    Contents n (if bool_decide (Z.of_nat (length base + 3 + length k) < n) && negb (c =? 0)
                then base ++ x :: highByte c :: lowByte c :: k else base) s') s.
Proof.
  intros Hbase Hc Hk (Hs & Hm & Hb & Hst). destruct (Hs) as (Hn & Hlen & Hbuf & Hr & Hw).
  unfold commit. apply wp_bind, wp_mod, wp_bind, wp_get.
  replace (Z.of_nat (length (base ++ x :: 0 :: 0 :: k))) with (Z.of_nat (length base + 3 + length k)) in Hst
    by (rewrite length_app; cbn [length]; lia).
  pose proof (Z.mod_pos_bound (pos_read s + Z.of_nat (length base)) n Hn) as Hmb.
  destruct (decide _) as [Hlt|Hge].
  2:{ rewrite bool_decide_false by done. simpl. rewrite Hst. apply wp_bind, wp_mod, wp_ret.
      do 2 (split; [done|]). split_and!; simpl; try done. repeat split; simpl; lia. }
  rewrite bool_decide_true by done. destruct Hst as (Ho & Hpw & Hl & Hcnt). simpl. rewrite Ho, Hcnt.
  destruct (Z.eqb_spec c 0) as [->|Hc0]; simpl.
  { apply wp_bind, wp_mod, wp_ret. do 2 (split; [done|]). split_and!; simpl; try done. repeat split; simpl; lia. }
  apply wp_bind, wp_mod, wp_bind, wp_get. rewrite (advance_mod n) by (done || simpl; lia). simpl. rewrite Hm, Zplus_mod_idemp_l.
  pose proof (Z.mod_pos_bound (pos_read s + Z.of_nat (length base) + 1) n Hn) as Hmb1.
  apply wp_bind, wp_put; [simpl; lia|]. apply wp_bind, wp_mod, wp_bind, wp_get. simpl.
  rewrite (advance_mod n) by (done || simpl; lia). simpl. rewrite Zplus_mod_idemp_l.
  pose proof (Z.mod_pos_bound (pos_read s + Z.of_nat (length base) + 1 + 1) n Hn) as Hmb2.
  apply wp_bind, wp_put; [simpl; rewrite length_insert; lia|]. simpl. apply wp_bind, wp_mod, wp_ret.
  do 2 (split; [done|]). change (base ++ x :: 0 :: 0 :: k) with (base ++ [x] ++ 0 :: 0 :: k) in Hl.
  rewrite app_assoc in Hl.
  eapply (lies_patch _ _ _ _ (highByte c)) in Hl; [| | | | | |reflexivity]; [|exact Hn|lia|exact Hbuf| |reflexivity].
  2:{ rewrite length_app. cbn [length]. lia. }
  change (?a ++ ?b :: 0 :: k) with (a ++ [b] ++ 0 :: k) in Hl. rewrite app_assoc in Hl.
  eapply (lies_patch _ _ _ _ (lowByte c)) in Hl; [| | | | | |reflexivity]; [|exact Hn|lia|by rewrite length_insert| |reflexivity].
  2:{ rewrite !length_app. cbn [length]. lia. }
  rewrite <- !app_assoc in Hl. cbn [app] in Hl.
  split_and!; simpl; try done.
  - repeat split; simpl; try lia. rewrite !length_insert. lia.
  - rewrite Hpw. do 3 f_equal. rewrite !length_app. simpl. lia.
  - revert Hl. rewrite !u8_id, !length_app by auto with cs. cbn [length].
    replace (pos_read s + Z.of_nat (length base + 1)) with (pos_read s + Z.of_nat (length base) + 1) by lia.
    replace (pos_read s + Z.of_nat (length base) + 1 + 1) with (pos_read s + Z.of_nat (length base + 2)) by lia. done.
  - rewrite length_app. cbn [length]. lia.
Qed.

(** ** Reading *)

(** [pend] is what is left of a flash string, [l] the bytes after it. *)
Definition Reading (n : Z) (pend l : list Z) (s : St) : Prop :=
  Contents n l s ∧ 0 <= flashInsert s ∧ (if tru (flashInsert s) then ∃ fuel, flash_from fuel (flashInsert s) = Some pend else pend = []).

Lemma readRawByte_ok n b l s : Contents n (b :: l) s →
  wp readRawByte (λ r s', r = b ∧ Contents n l s' ∧ flashInsert s' = flashInsert s) s.
Proof.
  intros ((Hn & Hlen & Hbuf & Hr & Hw) & Ho & Hpw & Hl & Hlt). cbn [length] in *.
  unfold readRawByte. apply wp_bind, wp_get, wp_bind. cbv [id].
  apply lies_cons in Hl as [Hb Hl]. rewrite Z.mod_small in Hb by done.
  apply (wp_eq _ _ _ b s). { unfold fetch, id. rewrite (proj2 (Z.leb_le 0 (pos_read s))) by lia. by rewrite Hb. }
  apply wp_bind, wp_mod, wp_ret. split; [done|]. split; [|done]. simpl.
  rewrite (advance_mod n) by (done || lia). pose proof (Z.mod_pos_bound (pos_read s + 1) n Hn).
  split_and!; simpl; try done; [|by apply lies_mod|lia].
  rewrite Hpw, Zplus_mod_idemp_l. f_equal. lia.
Qed.

Lemma read_insert_ok n pend l s : Reading n pend l s →
  wp read_insert (λ r s', match pend with
    | [] => r = 0 ∧ Contents n l s' ∧ flashInsert s' = 0
    | c :: t => r = c ∧ tru c = true ∧ Reading n t l s' end) s.
Proof.
  intros (Hc & H0 & Hf). unfold read_insert. apply wp_bind, wp_get. destruct (tru (flashInsert s)) eqn:Ea; simpl.
  2:{ subst. apply wp_ret. split; [done|]. split; [done|]. unfold tru in Ea. lia. }
  destruct Hf as [fuel Hf]. destruct fuel as [|fuel]; [done|]. simpl in Hf. unfold tru at 1.
  destruct (flash_byte (flashInsert s) =? 0) eqn:Ez; simplify_eq/=.
  { apply wp_bind, wp_mod, wp_ret. by split_and!. }
  destruct (flash_from fuel (flashInsert s + 1)) as [t|] eqn:Et; simplify_eq/=.
  apply wp_bind, wp_mod, wp_ret. split; [done|]. split; [by unfold tru; rewrite Ez|]. split; [done|]. simpl.
  split; [lia|]. replace (tru (flashInsert s + 1)) with true by (unfold tru; lia). by exists fuel.
Qed.

Lemma read_pend n c t l f s : Reading n (c :: t) l s → wp (read_loop (S f)) (λ r s', r = c ∧ Reading n t l s') s.
Proof.
  intros Hs. cbn [read_loop]. apply wp_bind. eapply wp_mono; [by apply read_insert_ok|]. intros r s1 (-> & -> & H1).
  by apply wp_ret.
Qed.

Lemma empty_iff n l s : Contents n l s → ((pos_read s =? pos_write s) && negb (overflow s)) = bool_decide (l = []).
Proof.
  intros ((Hn & _ & _ & Hr & _) & -> & -> & _ & Hlt). rewrite andb_true_r. destruct l as [|b l]; cbn [length] in *.
  - rewrite Z.add_0_r, Z.mod_small by lia. by rewrite Z.eqb_refl.
  - rewrite bool_decide_false by done. apply Z.eqb_neq. rewrite <- (Z.mod_small (pos_read s) n) at 1 by lia.
    rewrite <- (Z.add_0_r (pos_read s)) at 1. apply mod_apart; lia.
Qed.

(** What read does when no flash string is pending. *)
Lemma read_next n l f s (Q : Z → St → Prop) : Reading n [] l s →
  (∀ s', Contents n l s' → flashInsert s' = 0 → match l with
   | [] => Q (-1) s'
   | b :: l => wp (let! b := readRawByte in
       if negb (b =? FLASH_INSERT_MARKER) then mreturn b else
       if 2 <? ptr_size then mreturn 63 else
       (let! a := read_address in mmod (with_flashInsert a) ;;; read_loop f)) Q s' end) →
  wp (read_loop (S f)) Q s.
Proof.
  intros Hs HQ. cbn [read_loop]. apply wp_bind. eapply wp_mono; [by apply read_insert_ok|].
  intros r s1 (-> & H1 & Hf). cbn [tru negb Z.eqb]. apply wp_bind, wp_get. specialize (HQ s1 H1 Hf). cbv [id].
  rewrite (empty_iff n l) by done. destruct l as [|b l]; [by apply wp_ret|]. by rewrite bool_decide_false.
Qed.

Lemma read_char n b l f s : b ≠ FLASH_INSERT_MARKER → Reading n [] (b :: l) s →
  wp (read_loop (S f)) (λ r s', r = b ∧ Reading n [] l s') s.
Proof.
  intros Hb Hs. eapply read_next; [done|]. intros s1 H1 Hf. apply wp_bind.
  eapply wp_mono; [by apply readRawByte_ok|]. intros r s2 (-> & H2 & Hf2). rewrite (proj2 (Z.eqb_neq _ _) Hb). apply wp_ret.
  split; [done|]. split; [done|]. rewrite Hf2, Hf. done.
Qed.

Lemma read_none n f s : Reading n [] [] s → wp (read_loop (S f)) (λ r s', r = -1 ∧ Reading n [] [] s') s.
Proof. intros Hs. eapply read_next; [done|]. intros s1 H1 Hf. split; [done|]. split; [done|]. by rewrite Hf. Qed.

Lemma read_flash n a c t l f s : ptr_size = 2 → 0 < a < 65536 → flash_string a = Some (c :: t) →
  Reading n [] (FLASH_INSERT_MARKER :: a .& 255 :: (a >>' 8) .& 255 :: l) s →
  wp (read_loop (S (S f))) (λ r s', r = c ∧ Reading n t l s') s.
Proof.
  intros Hp Ha Ht Hs. eapply read_next; [done|]. intros s1 H1 _. apply wp_bind.
  eapply wp_mono; [by apply readRawByte_ok|]. intros r s2 (-> & H2 & _). rewrite Z.eqb_refl, Hp. cbn [negb Z.ltb Z.compare Pos.compare Pos.compare_cont].
  apply wp_bind. unfold read_address. rewrite Hp. change (rangeZ 0 2) with [0; 1]. cbn [mfold].
  apply wp_bind, wp_bind. eapply wp_mono; [by apply readRawByte_ok|]. intros r s3 (-> & H3 & _). apply wp_ret.
  apply wp_bind, wp_bind. eapply wp_mono; [by apply readRawByte_ok|]. intros r s4 (-> & H4 & _). apply wp_ret, wp_ret.
  apply wp_bind, wp_mod. apply read_pend. split; [done|]. simpl.
  replace (0 .| _ .| _) with a.
  2:{ rewrite Z.lor_0_l, Z.shiftl_0_r, <- !Z.land_assoc. cbn [Z.mul]. symmetry. by apply address_bytes. }
  split; [lia|]. replace (tru a) with true by (unfold tru; lia). by exists flash_limit.
Qed.

(** Reading as many bytes as a list of pieces shows takes exactly their bytes. *)
Lemma read_n_pend n t l : ∀ s k (Q : list Z → St → Prop), Reading n t l s →
  (∀ s', Reading n [] l s' → wp (read_n k) (λ r, Q (t ++ r)) s') → wp (read_n (length t + k)) Q s.
Proof.
  induction t as [|c t IH]; intros s k Q Hs HQ; simpl; [by apply HQ|]. apply wp_bind.
  eapply wp_mono; [by eapply read_pend|]. intros r s1 [-> H1]. apply wp_bind.
  apply (IH _ _ _ H1). intros s2 H2. eapply wp_mono; [by apply HQ|]. intros r s3 H3. by apply wp_ret.
Qed.

Lemma read_n_chars n k l : ∀ t s (Q : list Z → St → Prop), Forall (λ c, c ≠ FLASH_INSERT_MARKER) t → Reading n [] (t ++ l) s →
  (∀ s', Reading n [] l s' → wp (read_n k) (λ r, Q (t ++ r)) s') → wp (read_n (length t + k)) Q s.
Proof.
  induction t as [|c t IH]; intros s Q Ht Hs HQ; simpl; [by apply HQ|]. apply Forall_cons in Ht as [Hc Ht]. apply wp_bind.
  eapply wp_mono; [by apply read_char|]. intros r s1 [-> H1]. apply wp_bind.
  apply (IH _ _ Ht H1). intros s2 H2. eapply wp_mono; [by apply HQ|]. intros r s3 H3. by apply wp_ret.
Qed.

Lemma read_n_piece n k l p s (Q : list Z → St → Prop) : piece_ok p → Reading n [] (raw p ++ l) s →
  (∀ s', Reading n [] l s' → wp (read_n k) (λ r, Q (shown p ++ r)) s') → wp (read_n (length (shown p) + k)) Q s.
Proof.
  destruct p as [t|a]; simpl; intros Hp Hs HQ.
  { eapply read_n_chars; [|done|done]. eapply Forall_impl; [exact Hp|]. by intros x [_ ?]. }
  destruct Hp as (t & Ht & _ & Hp). rewrite Ht in *. cbn [default from_option id] in *.
  destruct Hp as [[Hp Ha]|[Hp Hne]].
  - rewrite Hp in Hs. cbn [Z.ltb Z.compare Pos.compare Pos.compare_cont] in Hs.
    destruct t as [|c t]; [by apply HQ|]. simpl. apply wp_bind.
    eapply wp_mono; [by apply (read_flash n a c t l 0)|]. intros r s1 [-> H1]. apply wp_bind.
    eapply read_n_pend; [exact H1|]. intros s2 H2. eapply wp_mono; [by apply HQ|]. intros r s3 H3. by apply wp_ret.
  - rewrite (proj2 (Z.ltb_lt 2 ptr_size)) in Hs by done. by eapply read_n_chars.
Qed.

Lemma read_n_pieces n ps : Forall piece_ok ps → ∀ l s, Reading n [] (concat (raw <$> ps) ++ l) s →
  wp (read_n (length (concat (shown <$> ps)))) (λ r s', r = concat (shown <$> ps) ∧ Reading n [] l s') s.
Proof.
  induction 1 as [|p ps Hp Hps IH]; intros l s; cbn [fmap list_fmap concat]; [by intros Hs; apply wp_ret|].
  rewrite <- app_assoc, length_app. intros Hs. eapply read_n_piece; [done|exact Hs|]. intros s1 H1.
  eapply wp_mono; [by apply IH|]. intros r s2 [-> H2]. done.
Qed.

(** ** The stream refines the queue of messages *)

Definition Ring (n : Z) (q : list Msg) (s : St) : Prop := Reading n [] (frames q) s ∧ Forall Msg_ok q.

Lemma Ring_send n q m s : Msg_ok m → Ring n q s →
  wp (send (client m) (pieces m)) (λ r s', r = (spec_send n m q).2 ∧ Ring n (spec_send n m q).1 s') s.
Proof.
  intros Hm [[Hc _] Hq]. destruct (Hm) as (Hcl & Hps & Hlen). unfold send. apply wp_bind.
  eapply wp_mono; [by apply mark_ok|]. intros [] s1 H1. cbn beta in H1. rewrite u8_id in H1 by apply Hcl. apply wp_bind.
  eapply wp_mono; [by eapply put_pieces_ok|]. intros [] s2 H2. cbn beta in H2. rewrite Z.add_0_l in H2.
  fold (text m) (body m) in H2. cbn [app] in H2.
  eapply wp_mono; [eapply commit_ok; [apply Hc|..|exact H2]|].
  - lia.
  - intros E. unfold body. assert (text m = []) as Ht by (apply nil_length_inv; lia). clear -Ht Hps.
    unfold text in Ht. induction Hps as [|p ps Hp Hps IH]; [done|]. cbn [fmap list_fmap concat] in *.
    apply app_nil in Ht as [Hp0 Ht]. rewrite (IH Ht), app_nil_r. destruct p as [k|a]; [done|].
    unfold raw. rewrite Hp0. by destruct (_ <? _).
  - intros r s3 (Hf & [= ->] & H3). unfold spec_send, fits, frame. cbn [length].
    replace (Z.of_nat (length (frames q) + S (S (S (length (body m)))))) with (Z.of_nat (length (frames q) + 3 + length (body m))) by lia.
    destruct (Z.ltb_spec (Z.of_nat (length (frames q) + 3 + length (body m))) n) as [Hlt|Hge].
    + rewrite bool_decide_true in H3 by done. rewrite bool_decide_true by done. split; [done|]. simpl in H3 |- *.
      destruct (bool_decide_reflect (text m = [])) as [Ht|Ht].
      * rewrite Ht in H3. simpl in H3. split; [|done]. split; [done|]. by rewrite Hf.
      * replace (_ =? 0) with false in H3 by (destruct (text m); simpl; [done|lia]). simpl in H3.
        split; [|by apply Forall_app_2; [|constructor]]. split; [|by rewrite Hf].
        unfold frames in *. rewrite fmap_app, concat_app. simpl. by rewrite app_nil_r.
    + rewrite bool_decide_false in H3 by lia. rewrite bool_decide_false by lia. split; [done|]. split; [|done]. split; [done|]. by rewrite Hf.
Qed.

Lemma count_join c : 0 <= c < 32768 → (highByte c <<' 8) .| lowByte c = c.
Proof.
  intros Hc. destruct (Z.eq_dec c 0) as [->|]; [done|]. rewrite Z.lor_comm. unfold highByte, lowByte. apply address_bytes. lia.
Qed.

Lemma Ring_receive n q s : Ring n q s →
  wp receive (λ r s', r = (spec_receive q).2 ∧ Ring n (spec_receive q).1 s') s.
Proof.
  intros [Hs Hq]. unfold receive, read. apply wp_bind. destruct q as [|m q].
  { eapply wp_mono; [by apply read_none|]. intros r s1 [-> H1]. apply wp_ret. by split_and!. }
  apply Forall_cons in Hq as [((Hb & Hcl) & Hps & Hlen) Hq].
  change (frames (m :: q)) with (client m :: highByte (Z.of_nat (length (text m))) ::
    lowByte (Z.of_nat (length (text m))) :: (body m ++ frames q)) in Hs.
  eapply wp_mono; [by apply read_char|]. intros r s1 [-> [H1 [H0 Hf]]].
  replace (_ <? 0) with false by (unfold is_byte in Hb; lia). apply wp_bind. unfold count. apply wp_bind.
  eapply wp_mono; [by apply readRawByte_ok|]. intros r s2 (-> & H2 & Hf2). apply wp_bind.
  eapply wp_mono; [by apply readRawByte_ok|]. intros r s3 (-> & H3 & Hf3). apply wp_ret, wp_bind.
  rewrite count_join, int_id by lia. rewrite Nat2Z.id.
  eapply wp_mono; [eapply read_n_pieces; [done|split; [exact H3|by rewrite Hf3, Hf2]]|].
  intros r s4 [-> H4]. apply wp_ret. split; [done|]. by split.
Qed.

Lemma Ring_room n q s : Ring n q s → freeSpace s = n - Z.of_nat (length (frames q)) - 3.
Proof.
  intros [[((Hn & Hlen & _ & Hr & Hw) & _ & Hpw & _ & Hlt) _] _]. unfold freeSpace. rewrite Hlen.
  assert (pos_write s = pos_read s + Z.of_nat (length (frames q)) ∨
          pos_write s = pos_read s + Z.of_nat (length (frames q)) - n ∧ n <= pos_read s + Z.of_nat (length (frames q))) as Hcase.
  { rewrite Hpw. destruct (Z.lt_ge_cases (pos_read s + Z.of_nat (length (frames q))) n).
    - left. apply Z.mod_small. lia.
    - right. split; [|done]. rewrite <- (Z.mod_small (pos_read s + Z.of_nat (length (frames q)) - n) n) by lia.
      rewrite <- (Z.mod_add _ (-1) n) by lia. f_equal; lia. }
  destruct (Z.ltb_spec (pos_write s) (pos_read s)); lia.
Qed.

Lemma Ring_flush n q s : Ring n q s → wp flush (λ _ s', Ring n [] s') s.
Proof.
  intros [[((Hn & Hlen & Hb & Hr & Hw) & Ho & _) _] _]. unfold flush.
  do 2 apply wp_bind, wp_mod. apply wp_bind, wp_put; [simpl; lia|]. apply wp_bind, wp_mod, wp_mod.
  split; [|constructor]. split; [|done]. split_and!; simpl; try done; rewrite ?length_insert; try lia. repeat split; simpl; rewrite ?length_insert; lia.
Qed.

(** ** Whole runs *)

Inductive op := Send (m : Msg) | Receive | Room | Flush.
Inductive res := Sent (ok : bool) | Received (r : option (Z * list Z)) | Space (n : Z) | Flushed.

Definition step (o : op) : M St res :=
  match o with
  | Send m => let! ok := send (client m) (pieces m) in mreturn (Sent ok)
  | Receive => let! r := receive in mreturn (Received r)
  | Room => let! s := mget id in mreturn (Space (freeSpace s))
  | Flush => flush ;;; mreturn Flushed
  end.
Definition spec_step (n : Z) (o : op) (q : list Msg) : list Msg * res :=
  match o with
  | Send m => let '(q, ok) := spec_send n m q in (q, Sent ok)
  | Receive => let '(q, r) := spec_receive q in (q, Received r)
  | Room => (q, Space (n - Z.of_nat (length (frames q)) - 3))
  | Flush => ([], Flushed)
  end.
Fixpoint run (ops : list op) : M St (list res) :=
  match ops with
  | [] => mreturn []
  | o :: ops => let! r := step o in let! rs := run ops in mreturn (r :: rs)
  end.
Fixpoint spec_run (n : Z) (ops : list op) (q : list Msg) : list res :=
  match ops with [] => [] | o :: ops => let '(q, r) := spec_step n o q in r :: spec_run n ops q end.
Definition op_ok (o : op) : Prop := match o with Send m => Msg_ok m | _ => True end.

Lemma Ring_step n o q s : op_ok o → Ring n q s →
  wp (step o) (λ r s', r = (spec_step n o q).2 ∧ Ring n (spec_step n o q).1 s') s.
Proof.
  intros Ho Hs. destruct o as [m| | |]; simpl; apply wp_bind.
  - eapply wp_mono; [by apply Ring_send|]. intros r s' [-> Hs']. apply wp_ret. by destruct (spec_send n m q).
  - eapply wp_mono; [by apply Ring_receive|]. intros r s' [-> Hs']. apply wp_ret. by destruct (spec_receive q).
  - apply wp_get, wp_ret. split; [|done]. by erewrite Ring_room.
  - eapply wp_mono; [by eapply Ring_flush|]. intros r s' Hs'. by apply wp_ret.
Qed.

Lemma Ring_run n ops : Forall op_ok ops → ∀ q s, Ring n q s → wp (run ops) (λ r _, r = spec_run n ops q) s.
Proof.
  induction 1 as [|o ops Ho Hops IH]; intros q s Hs; [by apply wp_ret|]. simpl. apply wp_bind.
  eapply wp_mono; [by eapply Ring_step|]. intros r s1 [-> H1]. apply wp_bind.
  eapply wp_mono; [by eapply IH|]. intros rs s2 ->. apply wp_ret. by destruct (spec_step n o q).
Qed.

(** C19. A ring stream refines a bounded queue of messages: any sequence of
    sends (mark, print of texts and of flash strings, commit), receives (read the
    client, the count and that many bytes) and flushes succeeds and gives the
    results of the queue. Messages come out whole, in order, for the client they
    were marked with and with flash strings expanded; one that does not fit is
    refused and leaves no trace; an empty one is accepted and not sent. A frame
    fits when its bytes are fewer than freeSpace(), which counts one too many. *)
Theorem ring_refines (n : Z) (garbage : list Z) (ops : list op) :
  0 < n → Z.of_nat (length garbage) = n → Forall op_ok ops →
  ∃ s', run ops (new garbage n) = Some (spec_run n ops [], s').
Proof.
  intros Hn Hg Hops. assert (Ring n [] (new garbage n)) as Hs.
  { split; [|constructor]. split; [|done]. split_and!; simpl; try done. repeat split; simpl; rewrite ?length_insert; lia. }
  destruct (wp_run _ _ _ (Ring_run n ops Hops [] _ Hs)) as (r & s' & E & ->). by exists s'.
Qed.
End ring.

(** An AVR board with the string abc at address 300: the third message does
    not fit before one is taken out. *)
Definition avr_flash : Flash :=
  {| flash_byte a := if a =? 300 then 97 else if a =? 301 then 98 else if a =? 302 then 99 else 0; ptr_size := 2 |}.
Lemma ring_refines_witness :
  let ops := [Send (mkMsg 1 [Text [60]; FlashStr 300; Text [62]]); Room; Send (mkMsg 2 [Text [65; 66; 67; 68]]);
              Send (mkMsg 3 [Text [65; 66; 67; 68]]); Send (mkMsg 3 []); Receive; Send (mkMsg 3 [Text [65; 66; 67; 68]]);
              Receive; Receive; Receive] in
  spec_run (H := avr_flash) 20 ops [] =
    [Sent true; Space 9; Sent true; Sent false; Sent true; Received (Some (1, [60; 97; 98; 99; 62])); Sent true;
     Received (Some (2, [65; 66; 67; 68])); Received (Some (3, [65; 66; 67; 68])); Received None] ∧
  ∃ s', run (H := avr_flash) ops (new (replicate 20 7) 20) = Some (spec_run (H := avr_flash) 20 ops [], s').
Proof.
  intros ops. split; [vm_compute; reflexivity|]. apply ring_refines; [done|done|].
  assert (flash_ok (H := avr_flash) 300) as Hf.
  { exists [97; 98; 99]. split; [vm_compute; reflexivity|]. split; [|left; by split]. by repeat constructor. }
  repeat constructor; done.
Defined.
End RingProps.
