(* ===== verification/Format.v ===== *)
(** Text output: the formatter that every reply goes through
    (src/StringFormatter.cpp), as compiled for AVR (an int has 16 bits and a
    long 32), and the buffer in which broadcasts are built
    (src/StringBuffer.cpp). A call gives the sequence of what it prints; an
    argument that does not match its conversion, or a format that ends within a
    conversion, is undefined behaviour and gives [None]. *)

From S2P Require Import Prelude Keywords RingStream.
From stdpp Require Import strings.

#[local] Open Scope Z_scope.
#[local] Open Scope c_scope.

Module StringFormatter.
Import RingStream Keywords.

(** * Numbers, as the Arduino Print class writes them *)

Definition hexchar (d : Z) : Z := if d <? 10 then 48 + d else 65 + d - 10.
(** The digits of an unsigned long in a base; 32 are enough. *)
Fixpoint number_loop (fuel : nat) (base n : Z) : list Z :=
  match fuel with
  | O => []
  | S fuel => (if n / base =? 0 then [] else number_loop fuel base (n / base)) ++ [hexchar (n mod base)]
  end.
Definition number (base n : Z) : list Z := number_loop 32 base n.
Definition dec (n : Z) : list Z := if n <? 0 then 45 :: number 10 (- n) else number 10 n.

(** * The formatter *)

Inductive arg :=
  | AInt (z : Z)          (* an int or unsigned int *)
  | ALong (z : Z)         (* a long or unsigned long *)
  | APtr (a : Z)          (* a pointer, as a number *)
  | AStr (text : list Z)  (* a string in memory *)
  | AFlash (a : Z).       (* a string in flash memory, by address *)

(** The digits of a value, with its sign; zero counts one. *)
Fixpoint count_digits (fuel : nat) (v digits : Z) : Z :=
  match fuel with
  | O => digits
  | S fuel => if v =? 0 then digits else count_digits fuel (Z.quot v 10) (digits + 1)
  end.
Definition printPadded (value width : Z) (formatLeft : bool) : list Z :=
  if width =? 0 then dec value else
  let digits := count_digits 32 value (b2z (value <=? 0)) in
  let blanks := replicate (Z.to_nat (width - digits)) 32 in
  if formatLeft then dec value ++ blanks else blanks ++ dec value.

Definition printHex (value : Z) : list Z :=
  let v := u16 value in
  [hexchar ((v >>' 12) .& 15); hexchar ((v >>' 8) .& 15); hexchar ((v >>' 4) .& 15); hexchar (v .& 15)].

Definition printEscape (c : Z) : list Z :=
  if c =? 10 then bytes_of "\n" else
  if c =? 13 then bytes_of "\r" else
  if c =? 0 then bytes_of "\0" else
  if c =? 9 then bytes_of "\t" else
  if c =? 92 then bytes_of "\\" else [c].
(** The terminating zero is shown too. *)
Definition printEscapes (input : list Z) : list Z := concat (printEscape <$> input ++ [0]).

(** A time in microseconds. *)
Definition print_time (time width : Z) (left : bool) : list Z :=
  if time <? 2000 then printPadded time width left ++ bytes_of "usec" else
  let time := time / 1000 in
  if time <? 2000 then printPadded time width left ++ bytes_of "msec"
  else printPadded (time / 1000) width left ++ bytes_of "sec".

Section flash.
Context `{Flash}.

(** One conversion, without its flags: what it prints and the arguments left. *)
Definition convert (c : Z) (width : Z) (left : bool) (args : list arg) : option (list piece * list arg) :=
  if c =? 37 then Some ([Text [37]], args) else                                             (* %% *)
  match args with
  | AInt z :: rest =>
    if c =? 99 then Some ([Text [u8 z]], rest) else                                         (* %c *)
    if c =? 100 then Some ([Text (printPadded (i16 z) width left)], rest) else              (* %d *)
    if c =? 117 then Some ([Text (printPadded (u16 z) width left)], rest) else              (* %u *)
    if c =? 98 then Some ([Text (number 2 (u32 (i16 z)))], rest) else                       (* %b *)
    if c =? 111 then Some ([Text (number 8 (u32 (i16 z)))], rest) else                      (* %o *)
    if c =? 120 then Some ([Text (number 16 (u16 z))], rest) else                           (* %x *)
    if c =? 104 then Some ([Text (printHex z)], rest) else None                             (* %h *)
  | ALong z :: rest =>
    if c =? 108 then Some ([Text (printPadded (i32 z) width left)], rest) else              (* %l *)
    if c =? 76 then Some ([Text (number 10 (u32 z))], rest) else                            (* %L *)
    if c =? 88 then Some ([Text (number 16 (u32 z))], rest) else                            (* %X *)
    if c =? 77 then Some ([Text (print_time (u32 z) width left)], rest) else None           (* %M *)
  | APtr a :: rest =>
    if c =? 80 then Some ([Text (number 16 (u16 a))], rest) else None                       (* %P *)
  | AStr t :: rest =>
    if c =? 115 then Some ([Text t], rest) else                                             (* %s *)
    if c =? 101 then Some ([Text (printEscapes t)], rest) else None                         (* %e *)
  | AFlash a :: rest =>
    if c =? 83 then Some ([FlashStr a], rest) else                                          (* %S *)
    if c =? 69 then t ← flash_string a; Some ([Text (printEscapes t)], rest) else None      (* %E *)
  | [] => None
  end.

Definition conversions : list Z := bytes_of "%cdubxohlLXMPseSE".

(** [conv] is the width and the alignment while a conversion is being read; a
    letter that is no conversion prints nothing and takes no argument. *)
Fixpoint send_loop (format : list Z) (conv : option (Z * bool)) (args : list arg) : option (list piece) :=
  match format, conv with
  | [], None => Some []
  | [], Some _ => None
  | c :: format, None =>
    if c =? 37 then send_loop format (Some (0, false)) args
    else out ← send_loop format None args; Some (Text [c] :: out)
  | c :: format, Some (width, lj) =>
    if c =? 45 then send_loop format (Some (width, true)) args else
    if isdigit c then send_loop format (Some (u8 (width * 10 + (c - 48)), lj)) args else
    if bool_decide (c ∈ conversions) then
      '(out, args) ← convert c width lj args;
      out' ← send_loop format None args; Some (out ++ out')
    else send_loop format None args
  end.
Definition send2 (format : string) (args : list arg) : option (list piece) := send_loop (bytes_of format) None args.

(** What a reader of the stream gets. *)
Definition printed (p : piece) : option (list Z) :=
  match p with Text l => Some l | FlashStr a => flash_string a end.
Fixpoint text_of (out : list piece) : option (list Z) :=
  match out with [] => Some [] | p :: out => t ← printed p; l ← text_of out; Some (t ++ l) end.
Definition text (format : string) (args : list arg) : option (list Z) :=
  out ← send2 format args; text_of out.

(** Sent to a stream that is a ring. *)
Definition send (format : string) (args : list arg) : M RingStream.St unit :=
  let! out := mlift (send2 format args) in mfor out put_piece.

Definition diag (format : string) (args : list arg) : option (list Z) :=
  t ← text format args; Some (bytes_of "<* " ++ t ++ bytes_of " *>" ++ [10]).
End flash.
End StringFormatter.

Module StringBuffer.

(** [buffer] has size bytes; [buffer_max] leaves room for the terminator. *)
Record St := mkSt { buffer : list Z; buffer_max : Z; pos_write : Z }.

Definition put (i b : Z) (s : St) : option (list Z) :=
  if (0 <=? i) && (i <? Z.of_nat (length (buffer s))) then Some (<[Z.to_nat i := u8 b]> (buffer s)) else None.
Definition flush (s : St) : option St := l ← put 0 0 s; Some (mkSt l (buffer_max s) 0).
Definition new (garbage : list Z) (size : Z) : option St := flush (mkSt garbage (i16 (size - 2)) 0).
Definition getLength (s : St) : Z := pos_write s.

Definition write (b : Z) (s : St) : option (Z * St) :=
  if pos_write s >=? buffer_max s then Some (0, s) else
  l ← put (pos_write s) b s;
  let s := mkSt l (buffer_max s) (pos_write s + 1) in
  l ← put (pos_write s) 0 s;
  Some (1, mkSt l (buffer_max s) (pos_write s)).

(** getString(): the characters up to the terminator. *)
Fixpoint c_string (l : list Z) : option (list Z) :=
  match l with [] => None | c :: l => if c =? 0 then Some [] else t ← c_string l; Some (c :: t) end.
Definition getString (s : St) : option (list Z) := c_string (buffer s).

(** Print::print of a string: it stops at the first byte that is refused. *)
Fixpoint print (text : list Z) (s : St) : option St :=
  match text with
  | [] => Some s
  | b :: text => '(n, s) ← write b s; if tru n then print text s else Some s
  end.
End StringBuffer.
