(* ===== verification/Split.v ===== *)
(** Splitting a command into parameters (src/DCCEXParser.cpp, splitValues), as
    compiled for boards with enough memory. The command is the rest of a buffer
    from its opcode on; the function overwrites the closing > and the closing
    quotes of strings with zeros. *)

From S2P Require Import Prelude Keywords.
From stdpp Require Import strings.

#[local] Open Scope Z_scope.
#[local] Open Scope c_scope.

Module Split.
Import Keywords.

Definition MAX_COMMAND_PARAMS : Z := 10.
Definition STRING_MARKER : Z := 0x7777.

(** The variables of the function; [pos] is remainingCmd - cmd. *)
Record St := mkSt {
  cmd : list Z;
  pos : nat;
  state : Z;
  parameterCount : Z;
  runningValue : Z;
  signNegative : bool;
  result : list Z;
}.

(** result[parameterCount]=v; parameterCount++; with the bounds of the array. *)
Definition push (v : Z) (s : St) : option St :=
  if parameterCount s <? MAX_COMMAND_PARAMS
  then Some (mkSt (cmd s) (pos s) (state s) (parameterCount s + 1) (runningValue s) (signNegative s)
               (<[Z.to_nat (parameterCount s) := i16 v]> (result s)))
  else None.
Definition next (s : St) : St :=
  mkSt (cmd s) (S (pos s)) (state s) (parameterCount s) (runningValue s) (signNegative s) (result s).
Definition goto (n : Z) (s : St) : St :=
  mkSt (cmd s) (pos s) n (parameterCount s) (runningValue s) (signNegative s) (result s).
Definition set_value (v : Z) (s : St) : St :=
  mkSt (cmd s) (pos s) (state s) (parameterCount s) (i16 v) (signNegative s) (result s).
Definition set_sign (b : bool) (s : St) : St :=
  mkSt (cmd s) (pos s) (state s) (parameterCount s) (runningValue s) b (result s).
(** *remainingCmd='\0' *)
Definition terminate (s : St) : St :=
  mkSt (<[pos s := 0]> (cmd s)) (pos s) (state s) (parameterCount s) (runningValue s) (signNegative s) (result s).

Definition uppercase (hot : Z) : Z := if (97 <=? hot) && (hot <=? 122) then hot - 97 + 65 else hot.
Definition isletter (hot : Z) : bool := (hot =? 95) || (65 <=? hot) && (hot <=? 90).

(** State 3: a character of a parameter, if it is one. *)
Definition build (usehex : bool) (running hot : Z) : option Z :=
  if isdigit hot then Some ((if usehex then 16 else 10) * running + (hot - 48)) else
  let hot := uppercase hot in
  if usehex && (65 <=? hot) && (hot <=? 70) then Some (16 * running + (hot - 65 + 10)) else
  if isletter hot then Some (((running <<' 5) + running) .^ hot) else None.

(** One turn of the loop: a new state, or the value returned. *)
Definition step (usehex : bool) (s : St) : option (St + Z * St) :=
  hot ← cmd s !! pos s;
  match state s with
  | 1 =>
    if hot =? 32 then Some (inl (next s)) else
    if hot =? 0 then Some (inr (-1, s)) else
    if hot =? 62 then Some (inr (parameterCount s, terminate s)) else
    Some (inl (goto 2 s))
  | 2 =>
    if hot =? 34 then
      s ← push STRING_MARKER s;
      s ← push (Z.of_nat (pos s) + 1) s;
      Some (inl (next (goto 4 s)))
    else
      let s := goto 3 (set_value 0 (set_sign false s)) in
      if negb (hot =? 45) then Some (inl s) else Some (inl (next (set_sign true s)))
  | 3 =>
    match build usehex (runningValue s) hot with
    | Some v => Some (inl (next (set_value v s)))
    | None =>
      s ← push (runningValue s * (if signNegative s then -1 else 1)) s;
      Some (inl (goto 1 s))
    end
  | 4 =>
    if hot =? 0 then Some (inr (-1, s)) else
    Some (inl (next (if hot =? 34 then goto 1 (terminate s) else s)))
  | _ => Some (inl (next s))
  end.

Fixpoint loop (fuel : nat) (usehex : bool) (s : St) : option (Z * St) :=
  match fuel with
  | O => None
  | S fuel =>
    if parameterCount s <? MAX_COMMAND_PARAMS then
      r ← step usehex s;
      match r with inl s => loop fuel usehex s | inr r => Some r end
    else Some (parameterCount s, s)
  end.

(** Every turn takes a character or is one of three for a parameter. *)
Definition fuel_for (cmd : list Z) : nat := length cmd + 40.

(** The value returned, the parameters, and the command as it is left. *)
Definition splitValues (cmd : list Z) (usehex : bool) : option (Z * list Z * list Z) :=
  '(r, s) ← loop (fuel_for cmd) usehex (mkSt cmd 1 1 0 0 false (replicate 10 0));
  Some (r, result s, Split.cmd s).
End Split.
