(* ===== verification/SplitProps.v ===== *)
(** The grammar that splitValues accepts, and the numbers that the formatter prints and the
    parser reads back. *)

From S2P Require Import Prelude Keywords RingStream Format Split.
From stdpp Require Import strings.
From Stdlib Require Import Ascii.

#[local] Open Scope Z_scope.
#[local] Open Scope c_scope.

(** What splitValues accepts: a grammar of commands, and the proof that the
    function follows it on every input that is terminated by a zero. *)

Module SplitProps.
Import Split Keywords.

(** * The grammar *)

Inductive token := Num (z : Z) | Quoted (t : list Z).
(** [Complete] up to the closing >, [Broken] by the end of the text, or
    [TooMany]: ten cells of the array are used. *)
Inductive outcome := Complete (ts : list token) | Broken | TooMany.

Definition size (t : token) : Z := match t with Num _ => 1 | Quoted _ => 2 end.
Definition sizes (ts : list token) : Z := foldr (λ t n, size t + n) 0 ts.
Definition cons_token (t : token) (o : option outcome) : option outcome :=
  match o with Some (Complete ts) => Some (Complete (t :: ts)) | _ => o end.

Definition wordchar (c : Z) : bool := isdigit c || isletter (uppercase c).
Definition value_step (hex : bool) (v c : Z) : Z := i16 (default 0 (build hex v c)).
Definition value (hex : bool) (w : list Z) : Z := fold_left (value_step hex) w 0.
Definition signed (neg : bool) (v : Z) : Z := i16 (v * (if neg then -1 else 1)).
Definition plain (c : Z) : Prop := c ≠ 0 ∧ c ≠ 34.
Definition special (c : Z) : bool := bool_decide (c ∈ [32; 0; 62; 34; 45]).

(** [Tokens hex k l o]: with [k] cells used, the text [l] gives [o]; [None] is a
    write outside the array. *)
Inductive Tokens (hex : bool) : Z → list Z → option outcome → Prop :=
  | T_full k l : 10 <= k → Tokens hex k l (Some TooMany)
  | T_blank k l o : k < 10 → Tokens hex k l o → Tokens hex k (32 :: l) o
  | T_end k l : k < 10 → Tokens hex k (0 :: l) (Some Broken)
  | T_close k l : k < 10 → Tokens hex k (62 :: l) (Some (Complete []))
  | T_overrun l : Tokens hex 9 (34 :: l) None
  | T_quote_last l : Tokens hex 8 (34 :: l) (Some TooMany)
  | T_unclosed k t l : k < 8 → Forall plain t → Tokens hex k (34 :: t ++ 0 :: l) (Some Broken)
  | T_quote k t l o : k < 8 → Forall plain t → Tokens hex (k + 2) l o →
      Tokens hex k (34 :: t ++ 34 :: l) (cons_token (Quoted t) o)
  | T_num k (w : list Z) c l o : k < 10 → w ≠ [] → Forall (λ c, wordchar c = true) w → wordchar c = false →
      Tokens hex (k + 1) (c :: l) o → Tokens hex k (w ++ c :: l) (cons_token (Num (value hex w)) o)
  | T_neg k (w : list Z) c l o : k < 10 → Forall (λ c, wordchar c = true) w → wordchar c = false →
      Tokens hex (k + 1) (c :: l) o → Tokens hex k (45 :: w ++ c :: l) (cons_token (Num (signed true (value hex w))) o)
  | T_other k c l : k < 10 → wordchar c = false → special c = false → Tokens hex k (c :: l) (Some TooMany).

(** * Runs of the loop *)

Section runs.
Context (hex : bool).

Definition runs (n : nat) (s s' : St) : Prop := ∀ f, loop (n + f) hex s = loop f hex s'.

Lemma runs_refl s : runs 0 s s.
Proof. done. Qed.
Lemma runs_trans n m s1 s2 s3 : runs n s1 s2 → runs m s2 s3 → runs (n + m) s1 s3.
Proof. intros H1 H2 f. by rewrite <- Nat.add_assoc, H1. Qed.
Lemma loop_step s f : parameterCount s < 10 →
  loop (S f) hex s = r ← step hex s; match r with inl s => loop f hex s | inr r => Some r end.
Proof. intros Hk. cbn [loop]. unfold MAX_COMMAND_PARAMS. by rewrite (proj2 (Z.ltb_lt _ _) Hk). Qed.
Lemma runs_step s s' : parameterCount s < 10 → step hex s = Some (inl s') → runs 1 s s'.
Proof. intros Hk Hs f. cbn [Nat.add]. by rewrite loop_step, Hs. Qed.

Lemma build_word v c : is_Some (build hex v c) ↔ wordchar c = true.
Proof.
  unfold build, wordchar. destruct (isdigit c); simpl; [by split|].
  destruct hex; simpl.
  - destruct ((65 <=? uppercase c) && (uppercase c <=? 70)) eqn:E; simpl.
    + split; [|by eauto]. intros _. unfold isletter. lia.
    + destruct (isletter (uppercase c)); split; try done; by intros [].
  - destruct (isletter (uppercase c)); split; try done; by intros [].
Qed.
Lemma build_none v c : wordchar c = false → build hex v c = None.
Proof.
  intros Hc. destruct (build hex v c) eqn:E; [|done]. assert (wordchar c = true); [|congruence].
  apply (build_word v). by eexists.
Qed.

Lemma run_word w : ∀ pre l s, Forall (λ c, wordchar c = true) w → cmd s = pre ++ w ++ l → pos s = length pre →
  state s = 3 → parameterCount s < 10 →
  runs (length w) s (mkSt (cmd s) (length (pre ++ w)) 3 (parameterCount s)
    (fold_left (value_step hex) w (runningValue s)) (signNegative s) (result s)).
Proof.
  induction w as [|c w IH]; intros pre l s Hw Hcmd Hpos Hst Hk.
  { rewrite app_nil_r, <- Hpos, <- Hst. destruct s; apply runs_refl. }
  apply Forall_cons in Hw as [Hc Hw]. cbn [length]. cbn [app] in Hcmd. apply (runs_trans 1 (length w) _ (next (set_value (default 0 (build hex (runningValue s) c)) s))).
  - apply runs_step; [done|]. unfold step. rewrite Hst, Hcmd, Hpos, list_lookup_middle by done. simpl.
    destruct (build hex (runningValue s) c) eqn:E; [done|]. apply (build_word (runningValue s)) in Hc as [? Hc]. congruence.
  - specialize (IH (pre ++ [c]) l (next (set_value (default 0 (build hex (runningValue s) c)) s))). rewrite <- app_assoc in IH.
    simpl in IH. rewrite length_app in IH. simpl in IH. rewrite <- app_assoc in IH. apply IH; try done. rewrite Hpos. simpl. lia.
Qed.

Lemma run_text t : ∀ pre l s, Forall plain t → cmd s = pre ++ t ++ l → pos s = length pre →
  state s = 4 → parameterCount s < 10 →
  runs (length t) s (mkSt (cmd s) (length (pre ++ t)) 4 (parameterCount s) (runningValue s) (signNegative s) (result s)).
Proof.
  induction t as [|c t IH]; intros pre l s Hw Hcmd Hpos Hst Hk.
  { rewrite app_nil_r, <- Hpos, <- Hst. destruct s; apply runs_refl. }
  apply Forall_cons in Hw as [[Hc0 Hc1] Hw]. cbn [length]. cbn [app] in Hcmd. apply (runs_trans 1 (length t) _ (next s)).
  - apply runs_step; [done|]. unfold step. rewrite Hst, Hcmd, Hpos, list_lookup_middle by done. simpl.
    rewrite (proj2 (Z.eqb_neq _ _) Hc0), (proj2 (Z.eqb_neq _ _) Hc1). done.
  - specialize (IH (pre ++ [c]) l (next s)). rewrite <- app_assoc in IH.
    simpl in IH. rewrite length_app in IH. simpl in IH. rewrite <- app_assoc in IH. apply IH; try done. rewrite Hpos. simpl. lia.
Qed.
End runs.

(** * What a run gives *)

(** Only zeros were written, and none before [p]. *)
Definition zeroed (l l' : list Z) (p : nat) : Prop :=
  length l' = length l ∧ ∀ i, l' !! i = l !! i ∨ (p <= i)%nat ∧ l' !! i = Some 0.

(** The cells from [k] on hold the tokens; a string is marked, and found in the
    command at the offset that follows the mark. *)
Fixpoint Cells (cmd res : list Z) (k : Z) (ts : list token) : Prop :=
  match ts with
  | [] => True
  | Num z :: ts => res !! Z.to_nat k = Some z ∧ Cells cmd res (k + 1) ts
  | Quoted t :: ts =>
    (res !! Z.to_nat k = Some STRING_MARKER ∧
     ∃ off : nat, res !! Z.to_nat (k + 1) = Some (Z.of_nat off) ∧ StringBuffer.c_string (drop off cmd) = Some t) ∧
    Cells cmd res (k + 2) ts
  end.

Definition Gives (cmd0 : list Z) (p : nat) (res0 : list Z) (k : Z) (o : option outcome) (r : option (Z * St)) : Prop :=
  match o with
  | None => r = None
  | Some out => ∃ n s', r = Some (n, s') ∧ zeroed cmd0 (cmd s') p ∧ length (result s') = 10%nat ∧
    match out with
    | Broken => n = -1
    | TooMany => n = 10
    | Complete ts => n = k + sizes ts ∧ Cells (cmd s') (result s') k ts ∧
        ∀ i, (Z.of_nat i < k ∨ k + sizes ts <= Z.of_nat i) → result s' !! i = res0 !! i
    end
  end.

Lemma zeroed_refl l p : zeroed l l p.
Proof. split; [done|]. by left. Qed.
Lemma zeroed_weaken l l' p q : (p <= q)%nat → zeroed l l' q → zeroed l l' p.
Proof. intros Hpq [Hl H]. split; [done|]. intros i. destruct (H i) as [|[]]; [by left|right; split; [lia|done]]. Qed.
Lemma zeroed_insert l l' p q : (p <= q < length l)%nat → zeroed (<[q := 0]> l) l' p → zeroed l l' p.
Proof.
  intros Hpq [Hl H]. rewrite length_insert in Hl. split; [done|]. intros i. destruct (H i) as [Hi|Hi]; [|by right].
  rewrite Hi. destruct (decide (i = q)) as [->|]; [right; rewrite list_lookup_insert_eq by lia; split; [lia|done]|].
  left. by rewrite list_lookup_insert_ne.
Qed.
Lemma zeroed_take l l' p : zeroed l l' p → take p l' = take p l.
Proof.
  intros [Hl H]. apply list_eq. intros i. destruct (decide (i < p)%nat).
  - rewrite !lookup_take_lt by done. destruct (H i) as [|[]]; [done|lia].
  - by rewrite !lookup_take_ge by lia.
Qed.
Lemma c_string_text t l : Forall (λ c, c ≠ 0) t → StringBuffer.c_string (t ++ 0 :: l) = Some t.
Proof.
  induction 1 as [|c t Hc Ht IH]; [done|]. cbn [app StringBuffer.c_string]. by rewrite (proj2 (Z.eqb_neq _ _) Hc), IH.
Qed.

Lemma drop_text (pre t x : list Z) : drop (S (length pre)) ((pre ++ 34 :: t ++ [0]) ++ x) = t ++ 0 :: x.
Proof.
  replace ((pre ++ 34 :: t ++ [0]) ++ x) with ((pre ++ [34]) ++ t ++ 0 :: x) by (rewrite <- !app_assoc; simpl; by rewrite <- app_assoc).
  apply drop_app_length'. rewrite length_app. simpl. lia.
Qed.

Lemma sizes_nonneg ts : 0 <= sizes ts.
Proof. induction ts as [|[] ts IH]; simpl; lia. Qed.

Lemma Gives_num cmd0 p q res0 k v o r : 0 <= k < 10 → length res0 = 10%nat → (p <= q)%nat →
  Gives cmd0 q (<[Z.to_nat k := v]> res0) (k + 1) o r → Gives cmd0 p res0 k (cons_token (Num v) o) r.
Proof.
  intros Hk Hres Hpq. destruct o as [[ts| |]|]; simpl;
    [|intros (n & s' & -> & Hz & Hl & ->); eexists _, s'; split_and!; try done; by eapply zeroed_weaken..|done].
  intros (n & s' & -> & Hz & Hl & -> & Hc & Hr). exists (k + 1 + sizes ts), s'.
  split; [done|]. split; [by eapply zeroed_weaken|]. split; [done|]. split; [lia|]. split.
  - split; [|done]. rewrite Hr by lia. apply list_lookup_insert_eq. lia.
  - intros i Hi. pose proof (sizes_nonneg ts). rewrite Hr by lia. rewrite list_lookup_insert_ne; [done|lia].
Qed.

Lemma Gives_quote pre t l p res0 k o r : 0 <= k < 8 → length res0 = 10%nat → (p <= length pre)%nat → Forall plain t →
  Z.of_nat (length (pre ++ 34 :: t ++ 34 :: l)) < 32768 →
  Gives (pre ++ 34 :: t ++ 0 :: l) (length pre + length t + 2)
    (<[Z.to_nat (k + 1) := Z.of_nat (S (length pre))]> (<[Z.to_nat k := STRING_MARKER]> res0)) (k + 2) o r →
  Gives (pre ++ 34 :: t ++ 34 :: l) p res0 k (cons_token (Quoted t) o) r.
Proof.
  intros Hk Hres Hp Ht Hlen.
  assert (pre ++ 34 :: t ++ 0 :: l = <[(length pre + S (length t))%nat := 0]> (pre ++ 34 :: t ++ 34 :: l)) as E.
  { rewrite insert_app_r_alt by lia. f_equal. replace (length pre + S (length t) - length pre)%nat with (S (length t + 0))%nat by lia.
    simpl. by rewrite insert_app_r. }
  assert (∀ l', zeroed (pre ++ 34 :: t ++ 0 :: l) l' (length pre + length t + 2) → zeroed (pre ++ 34 :: t ++ 34 :: l) l' p) as Hzz.
  { intros l' Hz. rewrite E in Hz. eapply zeroed_insert; [|eapply zeroed_weaken; [|exact Hz]]; [|lia].
    rewrite length_app. cbn [length]. rewrite length_app. simpl. lia. }
  destruct o as [[ts| |]|]; simpl;
    [|intros (n & s' & -> & Hz & Hl & ->); eexists _, s'; split_and!; try done; by apply Hzz..|done].
  intros (n & s' & -> & Hz & Hl & -> & Hc & Hr). exists (k + 2 + sizes ts), s'.
  split; [done|]. split; [by apply Hzz|]. split; [done|]. split; [lia|]. split.
  - split; [|done]. split.
    + rewrite Hr by lia. rewrite list_lookup_insert_ne by lia. apply list_lookup_insert_eq. lia.
    + exists (S (length pre)). rewrite Hr by lia. rewrite list_lookup_insert_eq by (rewrite length_insert; lia). split; [done|].
      apply zeroed_take in Hz. rewrite <- (take_drop (length pre + length t + 2) (cmd s')), Hz.
      rewrite take_app_ge by lia. replace (length pre + length t + 2 - length pre)%nat with (S (length t + 1)) by lia.
      cbn [take]. rewrite take_app_ge by lia. replace (length t + 1 - length t)%nat with 1%nat by lia. cbn [take].
      rewrite drop_text. apply c_string_text. eapply Forall_impl; [exact Ht|]. by intros c [? _].
  - intros i Hi. pose proof (sizes_nonneg ts). rewrite Hr by lia. rewrite !list_lookup_insert_ne by lia. done.
Qed.

(** ** The loop follows the grammar *)

Section follows.
Context (hex : bool).

(** At the start of a parameter, with the text [l] ahead. *)
Definition Ready (pre l : list Z) (k : Z) (s : St) : Prop :=
  cmd s = pre ++ l ∧ pos s = length pre ∧ state s = 1 ∧ parameterCount s = k ∧ 0 <= k <= 10 ∧
  length (result s) = 10%nat ∧ Z.of_nat (length (cmd s)) < 32768.
Definition enough (l : list Z) (k : Z) : nat := (length l + 3 * Z.to_nat (10 - k) + 1)%nat.

Lemma full_stop f s : (0 < f)%nat → parameterCount s = 10 → loop f hex s = Some (10, s).
Proof. intros Hf Hk. destruct f; [lia|]. simpl. by rewrite Hk. Qed.

Lemma step_ready pre c l k s : Ready pre (c :: l) k s → k < 10 → special c = false ∨ c = 34 ∨ c = 45 →
  runs hex 1 s (goto 2 s).
Proof.
  intros (Hc & Hp & Hst & Hk & _) Hlt Hs. apply runs_step; [lia|]. unfold step. rewrite Hc, Hp, list_lookup_middle, Hst by done. simpl.
  unfold special in Hs. assert (c ≠ 32 ∧ c ≠ 0 ∧ c ≠ 62) as (H1 & H2 & H3).
  { destruct Hs as [Hs|[->| ->]]; [|done..]. apply bool_decide_eq_false in Hs. set_solver. }
  by rewrite (proj2 (Z.eqb_neq _ _) H1), (proj2 (Z.eqb_neq _ _) H2), (proj2 (Z.eqb_neq _ _) H3).
Qed.

Lemma runs_start pre c l k s : Ready pre (c :: l) k s → k < 10 → special c = false →
  runs hex 2 s (goto 3 (set_value 0 (set_sign false (goto 2 s)))).
Proof.
  intros Hs Hlt Hc. apply (runs_trans hex 1 1 _ (goto 2 s)); [by eapply step_ready; eauto|].
  destruct Hs as (Hcmd & Hp & Hst & Hk & _). apply runs_step; [simpl; lia|].
  unfold step. simpl. rewrite Hcmd, Hp, list_lookup_middle by done. simpl. unfold special in Hc. apply bool_decide_eq_false in Hc.
  assert (c ≠ 34 ∧ c ≠ 45) as [H1 H2] by set_solver.
  by rewrite (proj2 (Z.eqb_neq _ _) H1), (proj2 (Z.eqb_neq _ _) H2).
Qed.

Lemma runs_minus pre l k s : Ready pre (45 :: l) k s → k < 10 →
  runs hex 2 s (next (set_sign true (goto 3 (set_value 0 (set_sign false (goto 2 s)))))).
Proof.
  intros Hs Hlt. apply (runs_trans hex 1 1 _ (goto 2 s)); [by eapply step_ready; eauto|].
  destruct Hs as (Hcmd & Hp & Hst & Hk & _). apply runs_step; [simpl; lia|].
  unfold step. simpl. by rewrite Hcmd, Hp, list_lookup_middle.
Qed.

Lemma runs_quote pre l k s : Ready pre (34 :: l) k s → k <= 8 →
  runs hex 2 s (mkSt (cmd s) (length (pre ++ [34])) 4 (k + 2) (runningValue s) (signNegative s)
    (<[Z.to_nat (k + 1) := Z.of_nat (S (length pre))]> (<[Z.to_nat k := STRING_MARKER]> (result s)))).
Proof.
  intros Hs Hlt. apply (runs_trans hex 1 1 _ (goto 2 s)); [eapply step_ready; eauto; lia|].
  destruct Hs as (Hcmd & Hp & Hst & Hk & Hkk & Hr & Hlen). rewrite Hcmd, length_app in Hlen. cbn [length] in Hlen.
  apply runs_step; [simpl; lia|].
  unfold step. cbn [cmd pos goto]. rewrite Hcmd, Hp, list_lookup_middle by done. simpl. unfold push, MAX_COMMAND_PARAMS. simpl.
  rewrite Hk, (proj2 (Z.ltb_lt k 10)) by lia. simpl. rewrite (proj2 (Z.ltb_lt (k + 1) 10)) by lia. simpl.
  unfold next, goto. simpl. rewrite Hcmd, Hp, length_app. cbn [length].
  unfold STRING_MARKER. rewrite !i16_id by (unfold is_i16; lia). rewrite <- Z.add_assoc, Nat.add_1_r, Nat2Z.inj_succ. done.
Qed.

(** The word is taken and its value goes into the next cell. *)
Lemma runs_word pre w c l k s : Forall (λ c, wordchar c = true) w → wordchar c = false →
  cmd s = pre ++ w ++ c :: l → pos s = length pre → state s = 3 → parameterCount s = k → 0 <= k < 10 → runningValue s = 0 →
  length (result s) = 10%nat → Z.of_nat (length (cmd s)) < 32768 →
  ∃ s', runs hex (length w + 1) s s' ∧ Ready (pre ++ w) (c :: l) (k + 1) s' ∧ cmd s' = cmd s ∧
    result s' = <[Z.to_nat k := signed (signNegative s) (value hex w)]> (result s).
Proof.
  intros Hw Hc Hcmd Hp Hst Hk Hlt Hv Hr Hlen. eexists. split.
  - eapply runs_trans; [eapply run_word; try done; lia|]. apply runs_step; [simpl; lia|]. unfold step. cbn [cmd pos state].
    rewrite Hcmd, app_assoc, list_lookup_middle by done. cbn [mbind option_bind]. rewrite build_none by done.
    cbn [parameterCount runningValue signNegative]. unfold push. cbn [parameterCount]. unfold MAX_COMMAND_PARAMS.
    rewrite (proj2 (Z.ltb_lt _ _)) by lia. reflexivity.
  - split; [|split; [cbn; by rewrite Hcmd, app_assoc|cbn; by rewrite Hv, Hk]].
    rewrite Hcmd, app_assoc in Hlen. split_and!; simpl; try lia; try done. by rewrite length_insert.
Qed.

Lemma other_gives c l : wordchar c = false → special c = false → ∀ m k pre s f, m = Z.to_nat (10 - k) →
  Ready pre (c :: l) k s → (enough (c :: l) k <= f)%nat →
  ∃ s', loop f hex s = Some (10, s') ∧ cmd s' = cmd s ∧ length (result s') = 10%nat.
Proof.
  intros Hc Hs. induction m as [|m IH]; intros k pre s f Hm HR Hf.
  - destruct (HR) as (_ & _ & _ & Hk & Hkk & Hr & _). exists s. rewrite full_stop; [done|unfold enough in Hf; lia|lia].
  - assert (k < 10) as Hlt by lia. unfold enough in Hf. destruct (HR) as (Hcmd & Hp & Hst & Hk & Hkk & Hr & Hlen).
    destruct (runs_word pre [] c l k (goto 3 (set_value 0 (set_sign false (goto 2 s))))) as (s' & Hrun & HR' & Hcmd' & Hres');
      try done; [lia|]. rewrite app_nil_r in HR'.
    replace f with (2 + (1 + (f - 3)))%nat by lia. rewrite (runs_start pre c l k s HR Hlt Hs), Hrun.
    destruct (IH (k + 1) pre s' (f - 3)%nat) as (s2 & -> & Hcmd2 & Hres2); [lia|done|unfold enough; lia|].
    exists s2. split; [done|]. split; [by rewrite Hcmd2, Hcmd'|done].
Qed.

Lemma value_range w : ∀ v, is_i16 v → is_i16 (fold_left (value_step hex) w v).
Proof. induction w as [|c w IH]; intros v Hv; [done|]. simpl. apply IH. apply i16_range. Qed.

Lemma wordchar_special c : wordchar c = true → special c = false.
Proof.
  intros Hc. apply bool_decide_eq_false. rewrite !elem_of_cons, elem_of_nil.
  intros [->|[->|[->|[->|[->|[]]]]]]; done.
Qed.

Lemma tokens_run k l o : Tokens hex k l o → ∀ pre s f, Ready pre l k s → (enough l k <= f)%nat →
  Gives (cmd s) (pos s) (result s) k o (loop f hex s).
Proof.
  induction 1 as [k l Hk|k l o Hk Ht IH|k l Hk|k l Hk|l|l|k t l Hk Hpl|k t l o Hk Hpl Ht IH|k w c l o Hk Hne Hw Hc Ht IH
                 |k w c l o Hk Hw Hc Ht IH|k c l Hk Hc Hs]; intros pre s f HR Hf;
    destruct (HR) as (Hcmd & Hp & Hst & Hpk & Hkk & Hres & Hlen); unfold enough in Hf; cbn [length] in Hf.
  - exists 10, s. rewrite full_stop by lia. split_and!; try done. apply zeroed_refl.
  - destruct f as [|f]; [lia|]. rewrite loop_step by lia. unfold step. rewrite Hcmd, Hp, list_lookup_middle, Hst by done. cbn [mbind option_bind Z.eqb Pos.eqb].
    rewrite <- Hcmd, <- Hp.
    specialize (IH (pre ++ [32]) (next s) f). simpl in IH. 
    assert (Gives (cmd s) (S (pos s)) (result s) k o (loop f hex (next s))) as HG.
    { apply IH; [|unfold enough; lia]. split_and!; simpl; try done; [by rewrite <- app_assoc|rewrite length_app, Hp; simpl; lia|lia..]. }
    destruct o as [out|]; [|done]. destruct HG as (n & s' & E & Hz & HG). exists n, s'. split; [done|]. split; [|done].
    eapply zeroed_weaken; [|exact Hz]. lia.
  - exists (-1), s. destruct f as [|f]; [lia|]. rewrite loop_step by lia.
    unfold step. rewrite Hcmd, Hp, list_lookup_middle, Hst by done. split_and!; try done. apply zeroed_refl.
  - exists k, (terminate s). destruct f as [|f]; [lia|]. rewrite loop_step by lia.
    unfold step. rewrite Hcmd, Hp, list_lookup_middle, Hst, Hpk by done. split; [done|].
    split; [|split; [done|split; [simpl; lia|done]]]. simpl. rewrite Hcmd, Hp. eapply zeroed_insert; [|apply zeroed_refl].
    rewrite length_app. simpl. lia.
  - destruct f as [|[|f]]; [lia..|].
    pose proof (step_ready pre 34 l 9 s HR ltac:(lia) ltac:(auto) (S f)) as E. cbn [Nat.add] in E. rewrite E.
    rewrite loop_step by (simpl; lia). unfold step. simpl.
    rewrite Hcmd, Hp, list_lookup_middle by done. simpl. unfold push, MAX_COMMAND_PARAMS. simpl. by rewrite Hpk.
  - replace f with (2 + (f - 2))%nat by lia. rewrite (runs_quote pre l 8 s HR) by lia. eexists 10, _.
    split; [apply full_stop; simpl; lia|]. split_and!; [apply zeroed_refl|cbn [result]; by rewrite !length_insert|done].
  - rewrite length_app in Hf. cbn [length] in Hf. replace f with (2 + (length t + (f - 2 - length t)))%nat by lia.
    rewrite (runs_quote pre (t ++ 0 :: l) k s HR) by lia.
    rewrite (run_text hex t (pre ++ [34]) (0 :: l)) by first [done | simpl; lia | simpl; by rewrite Hcmd, <- app_assoc].
    destruct (f - 2 - length t)%nat as [|f'] eqn:Ef; [lia|]. rewrite loop_step by (simpl; lia). unfold step. cbn [cmd pos state].
    rewrite Hcmd. change (pre ++ 34 :: t ++ 0 :: l) with (pre ++ [34] ++ t ++ 0 :: l). rewrite !(app_assoc pre), (app_assoc _ t), list_lookup_middle by done.
    eexists (-1), _. split; [reflexivity|]. split_and!; [apply zeroed_refl|cbn [result]; by rewrite !length_insert|done].
  - rewrite length_app in Hf. cbn [length] in Hf. replace f with (2 + (length t + (1 + (f - 3 - length t))))%nat by lia.
    rewrite (runs_quote pre (t ++ 34 :: l) k s HR) by lia.
    rewrite (run_text hex t (pre ++ [34]) (34 :: l)) by first [done | simpl; lia | simpl; by rewrite Hcmd, <- app_assoc].
    cbn [Nat.add]. rewrite loop_step by (simpl; lia). unfold step. cbn [cmd pos state].
    assert (pre ++ 34 :: t ++ 34 :: l = ((pre ++ [34]) ++ t) ++ 34 :: l) as Happ by (rewrite <- !app_assoc; done).
    rewrite Hcmd in Hlen |- *. rewrite Happ at 2. rewrite list_lookup_middle by done. cbn [mbind option_bind Z.eqb Pos.eqb].
    eapply Gives_quote; [lia|done|lia|done|exact Hlen|]. simpl.
    match goal with |- Gives _ _ _ _ _ (loop _ _ ?s1) => set (s1' := s1) end.
    assert (cmd s1' = pre ++ 34 :: t ++ 0 :: l) as Hc1.
    { subst s1'. unfold terminate. cbn [cmd pos next goto]. rewrite Happ, insert_app_r_alt, Nat.sub_diag by lia. cbn [insert list_insert].
      by rewrite <- !app_assoc. }
    assert (pos s1' = (length pre + length t + 2)%nat) as Hp1 by (simpl; rewrite !length_app; simpl; lia).
    rewrite <- Hc1, <- Hp1. apply (IH (pre ++ 34 :: t ++ [0])); [|unfold enough; lia].
    split_and!; try done; [by rewrite Hc1, <- !app_assoc; simpl; rewrite <- app_assoc| |lia..| |].
    + rewrite Hp1, length_app. cbn [length]. rewrite length_app. simpl. lia.
    + subst s1'. cbn [result next goto terminate]. by rewrite !length_insert.
    + rewrite Hc1. revert Hlen. rewrite !length_app. cbn [length]. rewrite !length_app. simpl. lia.
  - destruct w as [|x w0]; [done|]. set (w := x :: w0) in *.
    assert (special x = false) as Hsx by (apply Forall_cons in Hw as [Hx _]; by apply wordchar_special).
    set (s2 := goto 3 (set_value 0 (set_sign false (goto 2 s)))).
    destruct (runs_word pre w c l k s2) as (s' & Hrun & HR' & Hcmd' & Hres'); try done; [lia|].
    rewrite length_app in Hf. cbn [length] in Hf. replace f with (2 + (length w + 1 + (f - 3 - length w)))%nat by lia.
    rewrite (runs_start pre x (w0 ++ c :: l) k s HR) by (done || lia). fold s2. rewrite Hrun.
    apply (Gives_num _ _ (pos s')); [lia|done|destruct HR' as (_ & -> & _); rewrite length_app; lia|].
    replace (value hex w) with (signed false (value hex w)).
    2:{ unfold signed. rewrite Z.mul_1_r. apply i16_id. by apply value_range. }
    rewrite <- (Hcmd' : cmd s' = cmd s).
    rewrite <- (Hres' : result s' = <[Z.to_nat k := signed false (value hex w)]> (result s)). apply (IH (pre ++ w)); [done|unfold enough; cbn [length]; lia].
  - set (s2 := next (set_sign true (goto 3 (set_value 0 (set_sign false (goto 2 s)))))).
    destruct (runs_word (pre ++ [45]) w c l k s2) as (s' & Hrun & HR' & Hcmd' & Hres'); try done;
      [simpl; by rewrite Hcmd, <- app_assoc|simpl; rewrite length_app; simpl; lia|lia|].
    rewrite length_app in Hf. cbn [length] in Hf. replace f with (2 + (length w + 1 + (f - 3 - length w)))%nat by lia.
    rewrite (runs_minus pre (w ++ c :: l) k s HR) by lia. fold s2. rewrite Hrun.
    apply (Gives_num _ _ (pos s')); [lia|done|destruct HR' as (_ & -> & _); rewrite !length_app; lia|].
    rewrite <- (Hcmd' : cmd s' = cmd s).
    rewrite <- (Hres' : result s' = <[Z.to_nat k := signed true (value hex w)]> (result s)). apply (IH ((pre ++ [45]) ++ w)); [done|unfold enough; cbn [length]; lia].
  - destruct (other_gives c l Hc Hs _ k pre s f eq_refl HR) as (s' & E & Hcmd' & Hres'); [unfold enough; cbn [length]; lia|].
    exists 10, s'. split_and!; try done. rewrite Hcmd'. apply zeroed_refl.
Qed.

(** ** Every terminated text is covered *)

Lemma first_failing (P : Z → Prop) `{!∀ x, Decision (P x)} (l : list Z) : Exists (λ c, ¬ P c) l →
  ∃ w c l', l = w ++ c :: l' ∧ Forall P w ∧ ¬ P c.
Proof.
  induction l as [|x l IH]; intros Hex; [by inversion Hex|]. destruct (decide (P x)) as [Hx|Hx].
  - inversion Hex; [done|]. destruct IH as (w & c & l' & -> & Hw & Hc); [done|]. exists (x :: w), c, l'. by split_and!; [|constructor|].
  - exists [], x, l. by split_and!.
Qed.

#[local] Instance plain_dec c : Decision (plain c).
Proof. unfold plain. apply _. Defined.

Lemma zero_after (w : list Z) c l : 0 ∈ w ++ c :: l → Forall (λ x, x ≠ 0) w → c = 0 ∨ 0 ∈ l.
Proof.
  intros [Hin|Hin]%elem_of_app Hw; [|set_solver]. rewrite Forall_forall in Hw. by destruct (Hw 0 Hin).
Qed.

Lemma tokens_total n : ∀ l k, (length l <= n)%nat → 0 ∈ l → 0 <= k <= 10 → ∃ o, Tokens hex k l o.
Proof.
  induction n as [|n IH]; intros l k Hn Hin Hk; [destruct l; [set_solver|simpl in Hn; lia]|].
  destruct (Z.eq_dec k 10) as [->|Hk10]; [eexists; by apply T_full|].
  destruct l as [|c l]; [set_solver|]. cbn [length] in Hn.
  assert (c ≠ 0 → 0 ∈ l) as Hin' by set_solver.
  destruct (Z.eq_dec c 32) as [->|H32].
  { destruct (IH l k) as [o Ho]; [lia|auto|lia|]. eexists. apply T_blank; [lia|exact Ho]. }
  destruct (Z.eq_dec c 0) as [->|H0]; [eexists; apply T_end; lia|]. specialize (Hin' H0).
  destruct (Z.eq_dec c 62) as [->|H62]; [eexists; apply T_close; lia|].
  assert (∀ (w : list Z) c l, (length (w ++ c :: l) <= n)%nat → 0 ∈ w ++ c :: l → Forall (λ c, wordchar c = true) w →
    0 ∈ c :: l) as Hrest.
  { intros w c' l' _ [?|?]%elem_of_app Hw; [|done]. rewrite Forall_forall in Hw. by specialize (Hw 0 ltac:(done)). }
  assert (∀ l, 0 ∈ l → Exists (λ c, ¬ wordchar c = true) l) as Hex.
  { intros l' Hl. apply Exists_exists. by exists 0. }
  destruct (Z.eq_dec c 34) as [->|H34].
  { destruct (Z.eq_dec k 9) as [->|H9]; [eexists; apply T_overrun|].
    destruct (Z.eq_dec k 8) as [->|H8]; [eexists; apply T_quote_last|].
    destruct (first_failing plain l) as (t & c & l' & -> & Ht & Hc).
    { apply Exists_exists. exists 0. split; [done|]. by intros [? _]. }
    destruct (Z.eq_dec c 0) as [->|Hc0]; [eexists; apply T_unclosed; [lia|done]|].
    assert (c = 34) as -> by (unfold plain in Hc; destruct (Z.eq_dec c 34); [done|tauto]).
    destruct (zero_after t 34 l' Hin') as [|Hl']; [|done|].
    { eapply Forall_impl; [exact Ht|]. by intros x [? _]. }
    rewrite length_app in Hn. cbn [length] in Hn.
    destruct (IH l' (k + 2)) as [o Ho]; [lia|done|lia|]. eexists. apply T_quote; [lia|done|exact Ho]. }
  destruct (Z.eq_dec c 45) as [->|H45].
  { destruct (first_failing _ l (Hex l Hin')) as (w & c & l' & -> & Hw & Hc).
    destruct (IH (c :: l') (k + 1)) as [o Ho]; [rewrite length_app in Hn; lia| |lia|].
    { eapply Hrest; [|exact Hin'|done]. lia. }
    eexists. apply T_neg; [lia|done|by apply not_true_is_false|exact Ho]. }
  destruct (wordchar c) eqn:Ec.
  - destruct (first_failing _ l (Hex l Hin')) as (w & c' & l' & -> & Hw & Hc).
    destruct (IH (c' :: l') (k + 1)) as [o Ho]; [rewrite length_app in Hn; lia| |lia|].
    { eapply Hrest; [|exact Hin'|done]. lia. }
    eexists. apply (T_num _ _ (c :: w)); [lia|done|by constructor|by apply not_true_is_false|exact Ho].
  - eexists. apply T_other; [lia|done|]. unfold special. apply bool_decide_eq_false. set_solver.
Qed.
End follows.

(** * The function *)

(** What a call of the function means, when the grammar says [o]. *)
Definition answers (cmd : list Z) (o : option outcome) (r : option (Z * list Z * list Z)) : Prop :=
  match o with
  | None => r = None
  | Some out => ∃ n ps cmd', r = Some (n, ps, cmd') ∧ zeroed cmd cmd' 1 ∧ length ps = 10%nat ∧
    match out with
    | Broken => n = -1
    | TooMany => n = 10
    | Complete ts => n = sizes ts ∧ Cells cmd' ps 0 ts ∧ ∀ i, sizes ts <= Z.of_nat i < 10 → ps !! i = Some 0
    end
  end.

Lemma split_answers hex opcode text o : Z.of_nat (length text) < 32767 → Tokens hex 0 text o →
  answers (opcode :: text) o (splitValues (opcode :: text) hex).
Proof.
  intros Hlen Ho. unfold splitValues.
  set (s0 := mkSt (opcode :: text) 1 1 0 0 false (replicate 10 0)).
  assert (Gives (cmd s0) (pos s0) (result s0) 0 o (loop (fuel_for (opcode :: text)) hex s0)) as HG.
  { apply (tokens_run hex 0 text o Ho [opcode]); [|unfold enough, fuel_for; cbn [length]; lia].
    split_and!; try done. cbn [s0 cmd length]. lia. }
  cbn [Gives] in HG. destruct o as [out|]; [|by rewrite HG]. destruct HG as (n & s' & -> & Hz & Hr & HG).
  cbn [mbind option_bind]. exists n, (result s'), (cmd s'). split_and!; try done. destruct out as [ts| |]; try done.
  destruct HG as (-> & Hc & Hres). split_and!; [lia|done|]. intros i Hi. rewrite Hres by lia. apply lookup_replicate_2. lia.
Qed.

(** The parameters are 16 bit integers. *)
Lemma loop_int16 hex f : ∀ s k s', loop f hex s = Some (k, s') → Forall is_i16 (result s) → Forall is_i16 (result s').
Proof.
  induction f as [|f IH]; intros s k s'; [done|]. cbn [loop].
  destruct (parameterCount s <? MAX_COMMAND_PARAMS); [|by intros [= _ <-]].
  intros Hr Hs. assert (∀ v t t', push v t = Some t' → Forall is_i16 (result t) → Forall is_i16 (result t')) as Hpush.
  { intros v t t'. unfold push. destruct (_ <? _); [|done]. intros [= <-] Ht. apply Forall_insert; [done|apply i16_range]. }
  assert (∀ r, step hex s = Some r → Forall is_i16 (result (match r with inl s => s | inr (_, s) => s end))) as Hstep.
  { intros r. unfold step. destruct (cmd s !! pos s) as [c|]; [|done]. cbn [mbind option_bind].
    repeat case_match; try done; repeat (simplify_option_eq; try done); intros; simplify_option_eq; try done; eauto. }
  destruct (step hex s) as [r|]; [|done]. cbn [mbind option_bind] in Hr. specialize (Hstep r eq_refl).
  destruct r as [t|[k' t]]; [by eapply IH|]. by injection Hr as _ <-.
Qed.
Lemma split_int16 cmd hex k ps cmd' : splitValues cmd hex = Some (k, ps, cmd') → Forall is_i16 ps.
Proof.
  unfold splitValues. destruct (loop _ _ _) as [[r s]|] eqn:E; [|done]. intros [= _ <- _].
  apply (loop_int16 _ _ _ _ _ E). by apply Forall_replicate.
Qed.


End SplitProps.

(** The formatter and the parameter splitter are inverse on numbers: what one
    side of a connection prints with %d, the other side reads back. *)

Module FormatProps.
Import StringFormatter Keywords Split SplitProps.

(** ** Decimal numbers as words of the grammar *)

Lemma number_loop_value fuel : ∀ n, 0 <= n < 10 ^ Z.of_nat fuel →
  value false (number_loop fuel 10 n) = i16 n.
Proof.
  induction fuel as [|fuel IH]; intros n Hn; [by replace n with 0 by lia|].
  cbn [number_loop]. unfold value. rewrite fold_left_app. cbn [fold_left].
  assert (0 <= n mod 10 < 10) as Hd by (apply Z.mod_pos_bound; lia).
  assert (∀ v, value_step false v (hexchar (n mod 10)) = i16 (10 * v + n mod 10)) as Hstep.
  { intros v. unfold value_step, build, hexchar. rewrite (proj2 (Z.ltb_lt _ _)) by lia.
    replace (isdigit (48 + n mod 10)) with true by (unfold isdigit; lia). simpl. f_equal. lia. }
  rewrite Hstep. destruct (Z.eqb_spec (n / 10) 0) as [E|E]; cbn [fold_left].
  - f_equal. pose proof (Z.div_mod n 10 ltac:(lia)). lia.
  - fold (value false (number_loop fuel 10 (n / 10))). rewrite IH.
    + pose proof (Z.div_mod n 10 ltac:(lia)) as Hdm. rewrite Hdm at 3. set (q := n / 10) in *. set (d := n mod 10) in *. clearbody q d. zlia.
    + split; [apply Z.div_pos; lia|]. apply Z.div_lt_upper_bound; [lia|]. rewrite Nat2Z.inj_succ, Z.pow_succ_r in Hn by lia. lia.
Qed.

Lemma number_loop_word fuel : ∀ n, Forall (λ c, wordchar c = true) (number_loop fuel 10 n).
Proof.
  induction fuel as [|fuel IH]; intros n; [constructor|]. cbn [number_loop]. apply Forall_app_2.
  - destruct (_ =? 0); [constructor|apply IH].
  - constructor; [|constructor]. assert (0 <= n mod 10 < 10) as Hd by (apply Z.mod_pos_bound; lia).
    unfold hexchar. rewrite (proj2 (Z.ltb_lt _ _)) by lia. unfold wordchar, isdigit. by replace (_ && _) with true by lia.
Qed.

Lemma number_loop_length fuel base : ∀ n, (length (number_loop fuel base n) <= fuel)%nat.
Proof.
  induction fuel as [|fuel IH]; intros n; [done|]. cbn [number_loop]. rewrite length_app. cbn [length].
  destruct (_ =? 0); [simpl; lia|]. specialize (IH (n / base)). lia.
Qed.
Lemma number_ne base n : number base n ≠ [].
Proof. unfold number. cbn [number_loop]. intros [_ ?]%app_nil. done. Qed.
Lemma number_value n : 0 <= n <= 32768 → value false (number 10 n) = i16 n.
Proof. intros Hn. apply number_loop_value. change (10 ^ Z.of_nat 32) with 100000000000000000000000000000000. lia. Qed.

Lemma dec_word v : is_i16 v → ∃ w, dec v = (if v <? 0 then 45 :: w else w) ∧ w ≠ [] ∧
  Forall (λ c, wordchar c = true) w ∧ signed (v <? 0) (value false w) = v.
Proof.
  intros Hv. unfold is_i16 in Hv. unfold dec, signed. destruct (Z.ltb_spec v 0).
  - exists (number 10 (- v)). split_and!; [done|apply number_ne|apply number_loop_word|]. rewrite number_value by lia. zlia.
  - exists (number 10 v). split_and!; [done|apply number_ne|apply number_loop_word|]. rewrite number_value by lia. zlia.
Qed.
Lemma dec_length v : (length (dec v) <= 33)%nat.
Proof. unfold dec, number. destruct (_ <? _); cbn [length]; pose proof (number_loop_length 32 10); [specialize (H (- v))|specialize (H v)]; lia. Qed.

(** The text of the parameters. *)
Definition params_text (vs : list Z) : list Z := concat ((λ v, 32 :: dec v) <$> vs).

Lemma tokens_params vs : ∀ k, Forall is_i16 vs → 0 <= k → k + Z.of_nat (length vs) <= 9 →
  Tokens false k (params_text vs ++ [62; 0]) (Some (Complete (Num <$> vs))).
Proof.
  induction vs as [|v vs IH]; intros k Hvs Hk Hlen; [by apply T_close; simpl in Hlen; lia|].
  apply Forall_cons in Hvs as [Hv Hvs]. cbn [length] in Hlen.
  unfold params_text. cbn [fmap list_fmap concat]. fold (params_text vs). rewrite <- app_assoc.
  cbn [app]. apply T_blank; [lia|]. destruct (dec_word v Hv) as (w & -> & Hne & Hw & Hval).
  specialize (IH (k + 1) Hvs ltac:(lia) ltac:(lia)).
  assert (∃ c l, params_text vs ++ [62; 0] = c :: l ∧ wordchar c = false) as (c & l & E & Hc).
  { destruct vs as [|v' vs]; [by exists 62, [0]|]. by eexists 32, _. }
  rewrite E in *. change (Some (Complete (Num v :: (Num <$> vs)))) with (cons_token (Num v) (Some (Complete (Num <$> vs)))).
  destruct (v <? 0).
  - rewrite <- Hval. apply T_neg; [lia|done..].
  - rewrite <- Hval. unfold signed. rewrite Z.mul_1_r, i16_id by (by apply value_range). apply T_num; [lia|done..].
Qed.

Lemma Cells_num cmd res vs : ∀ k, 0 <= k → Cells cmd res k (Num <$> vs) →
  ∀ i v, vs !! i = Some v → res !! (Z.to_nat k + i)%nat = Some v.
Proof.
  induction vs as [|v vs IH]; intros k Hk Hc i x Hx; [done|]. destruct Hc as [Hv Hc]. destruct i as [|i]; simplify_eq/=.
  - by rewrite Nat.add_0_r.
  - specialize (IH (k + 1) ltac:(lia) Hc i x Hx). by replace (Z.to_nat k + S i)%nat with (Z.to_nat (k + 1) + i)%nat by lia.
Qed.

Lemma sizes_num vs : sizes (Num <$> vs) = Z.of_nat (length vs).
Proof. induction vs; cbn [fmap list_fmap sizes foldr size length] in *; [done|]. unfold sizes in *. lia. Qed.

(** ** The format of such a command *)

Fixpoint params_format (n : nat) : string := match n with O => ">" | S n => " %d" +:+ params_format n end.
Definition command_format (opcode : ascii) (n : nat) : string := "<" +:+ String opcode (params_format n).

Section flash.
Context `{Flash}.

Lemma text_params vs : Forall is_i16 vs → text (params_format (length vs)) (AInt <$> vs) = Some (params_text vs ++ [62]).
Proof.
  unfold text, send2. induction 1 as [|v vs Hv Hvs IH]; [done|].
  cbn [length params_format fmap list_fmap].
  change (bytes_of (" %d" +:+ ?f)) with (32 :: 37 :: 100 :: bytes_of f).
  cbn [send_loop Z.eqb Pos.eqb]. change (isdigit 100) with false. rewrite bool_decide_true by (vm_compute; set_solver).
  cbn [convert Z.eqb Pos.eqb mbind option_bind]. unfold printPadded. cbn [Z.eqb]. rewrite i16_id by done.
  destruct (send_loop (bytes_of (params_format (length vs))) None (AInt <$> vs)) as [out|]; [|done].
  cbn [mbind option_bind app text_of printed] in *. rewrite IH. cbn [mbind option_bind app].
  unfold params_text. cbn [fmap list_fmap concat]. by rewrite <- app_assoc.
Qed.

(** A message of numbers survives a connection: a command or report that
    StringFormatter::send prints from the format <x %d ... %d>, with up to nine
    16 bit arguments of any sign, is split into exactly these arguments by
    splitValues, when it reads decimal numbers as it does for every opcode but M
    and P. *)
Lemma numbers_round_trip (opcode : ascii) (vs : list Z) :
  opcode ≠ "%"%char → Forall is_i16 vs → (length vs <= 9)%nat →
  ∃ command, text (command_format opcode (length vs)) (AInt <$> vs) = Some (60 :: command) ∧
  ∃ command', splitValues (command ++ [0]) false = Some (Z.of_nat (length vs), vs ++ replicate (10 - length vs) 0, command').
Proof.
  intros Hop Hvs Hlen. exists (byte_of opcode :: params_text vs ++ [62]). split.
  - pose proof (text_params vs Hvs) as E. unfold text, send2 in *. unfold command_format.
    change (bytes_of ("<" +:+ String opcode ?f)) with (60 :: byte_of opcode :: bytes_of f). cbn [send_loop Z.eqb Pos.eqb].
    replace (byte_of opcode =? 37) with false.
    2:{ symmetry. apply Z.eqb_neq. intros Heq. apply Hop. rewrite <- (ascii_N_embedding opcode). unfold byte_of in Heq.
        replace (N_of_ascii opcode) with 37%N by lia. done. }
    destruct (send_loop (bytes_of (params_format (length vs))) None (AInt <$> vs)) as [out|]; [|done].
    cbn [mbind option_bind text_of printed] in *. by rewrite E.
  - cbn [app]. rewrite <- app_assoc. cbn [app].
    pose proof (split_answers false (byte_of opcode) (params_text vs ++ [62; 0]) (Some (Complete (Num <$> vs)))) as HA.
    destruct HA as (n & ps & cmd' & -> & _ & Hl & -> & Hc & Hz); [|apply tokens_params; try done; lia|].
    { assert (length (params_text vs) <= 34 * length vs)%nat as Hp; [|rewrite length_app; simpl; lia].
      clear. induction vs as [|v vs IH]; [done|]. unfold params_text in *. cbn [fmap list_fmap concat length].
      rewrite length_app. cbn [length]. pose proof (dec_length v). lia. }
    rewrite sizes_num in *. exists cmd'. do 3 f_equal. apply list_eq. intros i.
    destruct (decide (i < length vs)%nat) as [Hi|Hi].
    + destruct (lookup_lt_is_Some_2 vs i Hi) as [x Hx]. rewrite lookup_app_l, Hx by done. by apply (Cells_num cmd' ps vs 0).
    + rewrite lookup_app_r by lia. destruct (decide (i < 10)%nat).
      * rewrite Hz by lia. symmetry. apply lookup_replicate_2. lia.
      * rewrite !lookup_ge_None_2; [done|rewrite length_replicate; lia|lia].
Qed.
End flash.

Lemma numbers_round_trip_witness :
  let F := {| flash_byte _ := 0; ptr_size := 2 |} in
  text (H := F) (command_format "t" 3) (AInt <$> [3; -32768; 126]) = Some (bytes_of "<t 3 -32768 126>") ∧
  ∃ command, text (H := F) (command_format "t" 3) (AInt <$> [3; -32768; 126]) = Some (60 :: command) ∧
  ∃ command', splitValues (command ++ [0]) false = Some (3, [3; -32768; 126; 0; 0; 0; 0; 0; 0; 0], command').
Proof.
  intros F. split; [vm_compute; reflexivity|].
  apply (numbers_round_trip (H := F) "t" [3; -32768; 126]); [done| |simpl; lia]. repeat constructor; done.
Defined.
End FormatProps.
