(* ===== verification/Turntables.v ===== *)
(** Turntables (src/Turntables.cpp, src/Turntables.h): the list of objects, the
    positions of each, and moving one by the EX-Turntable device or by a DCC
    accessory. *)

From S2P Require Import Prelude.
From stdpp Require Import strings.

#[local] Open Scope Z_scope.
#[local] Open Scope c_scope.

(** IODevice::exists, and getStatus compared with DEVSTATE_FAILED. *)
Class Devices := { device_exists : Z → bool; device_failed : Z → bool }.

Module Turntables.

Inductive ev :=
  | WriteTurntable (vpin value activity : Z)               (* EXTurntable::writeAnalogue *)
  | SetAccessory (address number : Z) (gate : bool)        (* DCC::setAccessory *)
  | BroadcastTurntable (id position : Z) (moving : bool)   (* CommandDistributor *)
  | RotateEvent (id : Z) (rotated : bool)                  (* RMFT2::rotateEvent *)
  | Send (format : string) (args : list Z).                (* StringFormatter::send *)

(** TurntableData, EXTTTurntableData and the other members of an object. *)
Record Turntable := mkTurntable {
  tid : Z;
  hidden : bool;
  isEXTT : bool;
  position : Z;   (* 6 bits *)
  positions : list (Z * Z * Z);   (* index, value and angle; the newest first *)
  previousPosition : Z;
  isMoving : bool;
  vpin : Z;   (* of an EX-Turntable *)
}.

Definition with_tid (x : Z) (r : Turntable) : Turntable :=
  mkTurntable x (hidden r) (isEXTT r) (position r) (positions r) (previousPosition r) (isMoving r) (vpin
    r).
Definition with_hidden (x : bool) (r : Turntable) : Turntable :=
  mkTurntable (tid r) x (isEXTT r) (position r) (positions r) (previousPosition r) (isMoving r) (vpin r).
Definition with_isEXTT (x : bool) (r : Turntable) : Turntable :=
  mkTurntable (tid r) (hidden r) x (position r) (positions r) (previousPosition r) (isMoving r) (vpin r).
Definition with_position (x : Z) (r : Turntable) : Turntable :=
  mkTurntable (tid r) (hidden r) (isEXTT r) x (positions r) (previousPosition r) (isMoving r) (vpin r).
Definition with_positions (x : list (Z * Z * Z)) (r : Turntable) : Turntable :=
  mkTurntable (tid r) (hidden r) (isEXTT r) (position r) x (previousPosition r) (isMoving r) (vpin r).
Definition with_previousPosition (x : Z) (r : Turntable) : Turntable :=
  mkTurntable (tid r) (hidden r) (isEXTT r) (position r) (positions r) x (isMoving r) (vpin r).
Definition with_isMoving (x : bool) (r : Turntable) : Turntable :=
  mkTurntable (tid r) (hidden r) (isEXTT r) (position r) (positions r) (previousPosition r) x (vpin r).
Definition with_vpin (x : Z) (r : Turntable) : Turntable :=
  mkTurntable (tid r) (hidden r) (isEXTT r) (position r) (positions r) (previousPosition r) (isMoving r)
    x.

(** The statics of the class, and the trace. *)
Record St := mkSt {
  turntables : list Turntable;   (* in the order of the list *)
  turntablelistHash : Z;
  out : list ev;
}.

Definition with_turntables (x : list Turntable) (r : St) : St :=
  mkSt x (turntablelistHash r) (out r).
Definition with_turntablelistHash (x : Z) (r : St) : St :=
  mkSt (turntables r) x (out r).
Definition with_out (x : list ev) (r : St) : St :=
  mkSt (turntables r) (turntablelistHash r) x.

Definition init : St := mkSt [] 0 [].
Definition emit (e : ev) : M St unit := mmod (λ s, with_out (out s ++ [e]) s).

Definition get_turntable (n : Z) (s : St) : option Turntable := List.find (λ t, tid t =? u16 n) (turntables s).
Definition getByVpin (v : Z) (s : St) : option Turntable := List.find (λ t, isEXTT t && (vpin t =? u16 v)) (turntables s).
Fixpoint update_first (n : Z) (f : Turntable → Turntable) (l : list Turntable) : list Turntable :=
  match l with
  | [] => []
  | t :: l => if tid t =? u16 n then f t :: l else t :: update_first n f l
  end.
Definition update (n : Z) (f : Turntable → Turntable) : M St unit :=
  mmod (λ s, with_turntables (update_first n f (turntables s)) s).

Definition add (t : Turntable) : M St unit :=
  mmod (λ s, with_turntables (turntables s ++ [t]) s) ;;;
  mmod (λ s, with_turntablelistHash (i16 (turntablelistHash s + 1)) s).

(** A position is inserted at the head, where it hides an older one. *)
Definition addPosition (n idx value angle : Z) : M St unit :=
  update n (λ t, with_positions ((u8 idx, u16 value, u16 angle) :: positions t) t).
Definition find_position (p : Z) (t : Turntable) : option (Z * Z * Z) :=
  List.find (λ x, x.1.1 =? u8 p) (positions t).
Definition getPositionValue (p : Z) (t : Turntable) : Z :=
  match find_position p t with Some x => x.1.2 | None => 0 end.
Definition getPositionAngle (p : Z) (t : Turntable) : Z :=
  match find_position p t with Some x => x.2 | None => 0 end.
Definition getPositionCount (t : Turntable) : Z := u8 (Z.of_nat (length (positions t))).

Definition getPosition (n : Z) (s : St) : Z := match get_turntable n s with Some t => position t | None => 0 end.
Definition ttMoving (n : Z) (s : St) : bool := match get_turntable n s with Some t => isMoving t | None => false end.
Definition setMoving (n : Z) (moving : bool) : M St unit := update n (with_isMoving moving).

Definition moved (p : Z) (t : Turntable) : Turntable := with_position (p mod 64) (with_previousPosition (position t) t).

(** EXTTTurntable::setPositionInternal *)
Definition setPositionEXTT (n : Z) (t : Turntable) (p activity : Z) : M St bool :=
  if negb (p =? 0) && (activity >? 1) then mreturn false else
  let value := if p =? 0 then 0 else i16 (getPositionValue p t) in
  if (p >? 0) && negb (tru value) then mreturn false else
  (update n (moved p) ;;;
   emit (WriteTurntable (vpin t) value activity) ;;;
   mreturn true).

(** DCCTurntable::setPositionInternal *)
Definition setPositionDCC (n : Z) (t : Turntable) (p : Z) : M St bool :=
  let value := i16 (getPositionValue p t) in
  if (p =? 0) || negb (tru value) then mreturn false else
  (update n (moved p) ;;;
   emit (SetAccessory (value >>' 3) ((value >>' 1) .& 3) (tru (value .& 1))) ;;;
   mreturn true).

(** Turntable::setPosition, on uint8_t arguments. *)
Definition setPosition (n p activity : Z) : M St bool :=
  let p := u8 p in
  let activity := u8 activity in
  let! t := mget (get_turntable n) in
  match t with
  | None => mreturn false
  | Some t =>
    if isMoving t then mreturn false else
    let! ok := if isEXTT t then setPositionEXTT n t p activity else setPositionDCC n t p in
    (when ok do
       ((when negb (isEXTT t) do emit (BroadcastTurntable (u16 n) p false)) ;;;
        let! t := mget (get_turntable n) in
        match t with
        | None => Prelude.mfail
        | Some t => emit (RotateEvent (u16 n) (negb (p =? previousPosition t)))
        end)) ;;;
    mreturn ok
  end.

Section Devices.
Context `{Devices}.

Definition createEXTT (n v : Z) : M St bool :=
  let! t := mget (get_turntable n) in
  let existing := match t with Some t => isEXTT t | None => false end in
  if existing then (update n (with_vpin (u16 v)) ;;; mreturn true) else
  if negb (device_exists v) then mreturn false else
  if device_failed v then mreturn false else
  let! other := mget (getByVpin v) in
  match other with
  | Some _ => mreturn false
  | None => add (mkTurntable (u16 n) false true 0 [] 0 false (u16 v)) ;;; mreturn true
  end.
End Devices.

Definition createDCC (n : Z) : M St bool :=
  let! t := mget (get_turntable n) in
  match t with
  | Some _ => mreturn true
  | None => add (mkTurntable (u16 n) false false 0 [] 0 false 0) ;;; mreturn true
  end.

Definition print (t : Turntable) : M St unit :=
  emit (if isEXTT t then Send "<i %d EXTURNTABLE %d>" [tid t; vpin t] else Send "<i %d DCCTURNTABLE>" [tid t]).

Definition printAll : M St bool :=
  let! l := mget turntables in
  mfold (λ t gotOne, if hidden t then mreturn gotOne else (emit (Send "<I %d %d>" [tid t; position t]) ;;; mreturn true)) l false.

End Turntables.
