(* ===== verification/Stash.v ===== *)
(** Stashes (src/Stash.cpp): which loco waits where, by stash number. A record
    whose loco is 0 is free; records are never deleted. *)

From S2P Require Import Prelude.

Module Stash.

(** The chain from first on: stashId and locoId. *)
Definition St : Type := list (Z * Z).

Definition cabs (z : Z) : Z := i16 (Z.abs z).

Definition clearAll (s : St) : St := (λ _, (0, 0)) <$> s.
Definition clearAny (loco : Z) (s : St) : St := (λ c, if cabs c.2 =? cabs loco then (0, 0) else c) <$> s.

Fixpoint get (id : Z) (s : St) : Z :=
  match s with [] => 0 | (i, l) :: s => if i =? id then l else get id s end.

Fixpoint replace_existing (id loco : Z) (s : St) : option St :=
  match s with
  | [] => None
  | (i, l) :: s => if i =? id then Some ((if loco =? 0 then 0 else i, loco) :: s)
                   else s' ← replace_existing id loco s; Some ((i, l) :: s')
  end.
Fixpoint replace_empty (id loco : Z) (s : St) : option St :=
  match s with
  | [] => None
  | (i, l) :: s => if l =? 0 then Some ((id, loco) :: s) else s' ← replace_empty id loco s; Some ((i, l) :: s')
  end.
Definition set (id loco : Z) (s : St) : St :=
  match replace_existing id loco s with
  | Some s => s
  | None =>
    if loco =? 0 then s else
    match replace_empty id loco s with
    | Some s => s
    | None => (id, loco) :: s
    end
  end.
Definition clear (id : Z) (s : St) : St := set id 0 s.

(** The pairs that <JM> reports; when there is none, the number with loco 0. *)
Definition list_stashes (id : Z) (s : St) : list (Z * Z) :=
  let sent := List.filter (λ c, tru c.2 && ((id =? 0) || (c.1 =? id))) s in
  match sent with [] => [(id, 0)] | _ => sent end.
End Stash.
