(* ===== verification/Station.v ===== *)
(** The station as a whole: the states of the components side by side, and what
    happens when one of them calls another. A component keeps a trace of its
    calls; here the trace is delivered: DC signals of the DCC API go to the track
    manager, accessories of turnouts and turntables to the DCC API, the power and
    join requests of the programming track to the track manager, and its results
    to the callback that is waiting. What is left is the trace of the station. *)

From S2P Require Import Prelude Keywords LocoSlot DCCConsist DCC MotorDriver TrackManager DCCACK Layout Turntables Stash.
From stdpp Require Import strings.

#[local] Open Scope Z_scope.
#[local] Open Scope c_scope.

Module Station.

(** ** Data *)

(** The result functions of the parser, of EXRAIL and of WiThrottle, that the programming track may call. *)
Inductive Callback :=
  | CB_W | CB_W4 | CB_B | CB_Vbit | CB_Vbyte | CB_R | CB_r | CB_Rloco | CB_Wloco | CB_Wconsist
  | CB_Exrail       (* RMFT2::readLocoCallback *)
  | CB_WiThrottle.  (* WiThrottle::getLocoCallback *)

(** An argument of a printed line; %S and %s take a text. *)
Inductive arg := I (z : Z) | L (z : Z) | T (text : string) | B (text : list Z).

(** What reaches the outside. The line feed at the end of a format is left out. *)
Inductive ev :=
  | OfDCC (e : DCC.DCC.ev)
  | OfTracks (e : TrackManager.TrackManager.ev)
  | OfLayout (e : Layout.Layout.ev)
  | OfTurntables (e : Turntables.Turntables.ev)
  | OfProg (e : DCCACK.DCCACK.ev)
  | Consists (m : DCCConsist.DCCConsist.msg)
  | Reply (format : string) (args : list arg)                            (* on the stream of the command *)
  | AsyncReply (client : option Z) (format : string) (args : list arg)   (* on the stashed stream *)
  | Lcd (display row : Z) (format : string) (args : list arg)
  | PinWrite (vpin value : Z)                                            (* IODevice::write *)
  | WriteRange (vpin value count : Z)
  | WriteAnalogue (vpin value profile duration : Z)
  | WriteAnalogueRange (vpin value profile duration count : Z)
  | ReadAnalogue (vpin : Z)
  | SchedulePacket (main : bool) (bytes : list Z) (repeats : Z)          (* DCCWaveform *)
  | BroadcastPower                                                       (* CommandDistributor *)
  | ClockEvent (time : Z) (change : bool)                                (* RMFT2::clockEvent *)
  | ReadLoco (cv : Z)                                                    (* RMFT2::readLocoCallback *)
  | LocoForThrottle (locoid : Z)                                         (* WiThrottle::getLocoCallback *)
  | BroadcastClockTime (time rate : Z)
  | SetVirtualLCD
  | SetDiag (flag : string) (on : bool)
  | Reset                                                                (* DCCTimer::reset *)
  | DisplayCabList | DumpEEPROM (n : Z) | ShowHAL | ResetHAL
  | AtCommand (com : list Z).                                            (* atCommandCallback *)

(** The state of the station, and the trace of what it does to the outside. *)
Record World := mkWorld {
  dcc : DCC.DCC.St;
  tracks : TrackManager.TrackManager.St;
  layout : Layout.Layout.St;
  turntables : Turntables.Turntables.St;
  stashes : Stash.Stash.St;
  prog : DCCACK.DCCACK.St;
  ackCallback : Callback;   (* ackManagerCallback *)
  stashBusy : bool;
  stashP : list Z;
  stashTarget : option Z;   (* the client of stashRingStream, if there is one *)
  lastclocktime : Z;
  lastclockrate : Z;
  railcomPossible : bool;
  railcomActive : bool;
  out : list ev;
}.

Definition with_dcc (x : DCC.DCC.St) (r : World) : World :=
  mkWorld x (tracks r) (layout r) (turntables r) (stashes r) (prog r) (ackCallback r) (stashBusy r)
    (stashP r) (stashTarget r) (lastclocktime r) (lastclockrate r) (railcomPossible r) (railcomActive r)
    (out r).
Definition with_tracks (x : TrackManager.TrackManager.St) (r : World) : World :=
  mkWorld (dcc r) x (layout r) (turntables r) (stashes r) (prog r) (ackCallback r) (stashBusy r) (stashP
    r) (stashTarget r) (lastclocktime r) (lastclockrate r) (railcomPossible r) (railcomActive r) (out r).
Definition with_layout (x : Layout.Layout.St) (r : World) : World :=
  mkWorld (dcc r) (tracks r) x (turntables r) (stashes r) (prog r) (ackCallback r) (stashBusy r) (stashP
    r) (stashTarget r) (lastclocktime r) (lastclockrate r) (railcomPossible r) (railcomActive r) (out r).
Definition with_turntables (x : Turntables.Turntables.St) (r : World) : World :=
  mkWorld (dcc r) (tracks r) (layout r) x (stashes r) (prog r) (ackCallback r) (stashBusy r) (stashP r)
    (stashTarget r) (lastclocktime r) (lastclockrate r) (railcomPossible r) (railcomActive r) (out r).
Definition with_stashes (x : Stash.Stash.St) (r : World) : World :=
  mkWorld (dcc r) (tracks r) (layout r) (turntables r) x (prog r) (ackCallback r) (stashBusy r) (stashP
    r) (stashTarget r) (lastclocktime r) (lastclockrate r) (railcomPossible r) (railcomActive r) (out r).
Definition with_prog (x : DCCACK.DCCACK.St) (r : World) : World :=
  mkWorld (dcc r) (tracks r) (layout r) (turntables r) (stashes r) x (ackCallback r) (stashBusy r)
    (stashP r) (stashTarget r) (lastclocktime r) (lastclockrate r) (railcomPossible r) (railcomActive r)
    (out r).
Definition with_ackCallback (x : Callback) (r : World) : World :=
  mkWorld (dcc r) (tracks r) (layout r) (turntables r) (stashes r) (prog r) x (stashBusy r) (stashP r)
    (stashTarget r) (lastclocktime r) (lastclockrate r) (railcomPossible r) (railcomActive r) (out r).
Definition with_stashBusy (x : bool) (r : World) : World :=
  mkWorld (dcc r) (tracks r) (layout r) (turntables r) (stashes r) (prog r) (ackCallback r) x (stashP r)
    (stashTarget r) (lastclocktime r) (lastclockrate r) (railcomPossible r) (railcomActive r) (out r).
Definition with_stashP (x : list Z) (r : World) : World :=
  mkWorld (dcc r) (tracks r) (layout r) (turntables r) (stashes r) (prog r) (ackCallback r) (stashBusy r)
    x (stashTarget r) (lastclocktime r) (lastclockrate r) (railcomPossible r) (railcomActive r) (out r).
Definition with_stashTarget (x : option Z) (r : World) : World :=
  mkWorld (dcc r) (tracks r) (layout r) (turntables r) (stashes r) (prog r) (ackCallback r) (stashBusy r)
    (stashP r) x (lastclocktime r) (lastclockrate r) (railcomPossible r) (railcomActive r) (out r).
Definition with_lastclocktime (x : Z) (r : World) : World :=
  mkWorld (dcc r) (tracks r) (layout r) (turntables r) (stashes r) (prog r) (ackCallback r) (stashBusy r)
    (stashP r) (stashTarget r) x (lastclockrate r) (railcomPossible r) (railcomActive r) (out r).
Definition with_lastclockrate (x : Z) (r : World) : World :=
  mkWorld (dcc r) (tracks r) (layout r) (turntables r) (stashes r) (prog r) (ackCallback r) (stashBusy r)
    (stashP r) (stashTarget r) (lastclocktime r) x (railcomPossible r) (railcomActive r) (out r).
Definition with_railcomPossible (x : bool) (r : World) : World :=
  mkWorld (dcc r) (tracks r) (layout r) (turntables r) (stashes r) (prog r) (ackCallback r) (stashBusy r)
    (stashP r) (stashTarget r) (lastclocktime r) (lastclockrate r) x (railcomActive r) (out r).
Definition with_railcomActive (x : bool) (r : World) : World :=
  mkWorld (dcc r) (tracks r) (layout r) (turntables r) (stashes r) (prog r) (ackCallback r) (stashBusy r)
    (stashP r) (stashTarget r) (lastclocktime r) (lastclockrate r) (railcomPossible r) x (out r).
Definition with_out (x : list ev) (r : World) : World :=
  mkWorld (dcc r) (tracks r) (layout r) (turntables r) (stashes r) (prog r) (ackCallback r) (stashBusy r)
    (stashP r) (stashTarget r) (lastclocktime r) (lastclockrate r) (railcomPossible r) (railcomActive r)
    x.

Definition emit (e : ev) : M World unit := mmod (λ w, with_out (out w ++ [e]) w).
Definition reply (format : string) (args : list arg) : M World unit := emit (Reply format args).

(** ** What a call of the station sees of the hardware and the time *)

Record Inputs := mkInputs {
  now : Z;                                (* millis() *)
  track_env : TrackManager.TrackManager.Env;
  prog_current : Z;
  prog_wave : DCCWaveform.DCCWaveform.Wave;
  freeMemory : Z;                         (* DCCTimer::getMinimumFreeMemory *)
  sizeof_LocoSlot : Z;
}.

Section station.
Context `{!Config} `{!MotorDriver.MotorDriver.Board} `{!Layout.Layout.Machine} `{!Devices}.
Variable i : Inputs.

(** Running a component on its part of the world; what it adds to its trace is
    given to [deliver]. *)
Definition run {S E A : Type} (get : World → S) (set : S → World → World) (trace : S → list E)
    (deliver : E → M World unit) (m : M S A) : M World A := λ w,
  '(a, s) ← m (get w);
  '(_, w) ← mfor (drop (length (trace (get w))) (trace s)) deliver (set s w);
  Some (a, w).

(** *** Tracks *)

(** DCC::getLocoSpeedByte and getThrottleFrequency, as the track manager calls them. *)
Definition throttles (d : DCC.DCC.St) : TrackManager.TrackManager.Throttles :=
  {| TrackManager.TrackManager.getLocoSpeedByte cab := match DCC.DCC.getLocoSpeedByte cab d with Some (b, _) => b | None => 0 end;
     TrackManager.TrackManager.getThrottleFrequency cab := match DCC.DCC.getThrottleFrequency cab d with Some (f, _) => f | None => 0 end |}.

Definition deliver_tracks (e : TrackManager.TrackManager.ev) : M World unit :=
  match e with
  | TrackManager.TrackManager.SetRailcomPossible b =>
    mmod (λ w, with_railcomActive (b && railcomActive w) (with_railcomPossible b w))
  | TrackManager.TrackManager.BroadcastPower => emit BroadcastPower
  | e => emit (OfTracks e)
  end.
Definition on_tracks {A} (m : TrackManager.TrackManager.Throttles → M TrackManager.TrackManager.St A) : M World A := λ w,
  run tracks with_tracks TrackManager.TrackManager.out deliver_tracks
    (m (throttles (dcc w))) w.

(** *** The DCC API *)

Definition deliver_dcc (e : DCC.DCC.ev) : M World unit :=
  match e with
  | DCC.DCC.DCSignal cab speed => on_tracks (λ t, TrackManager.TrackManager.setDCSignal cab speed)
  | e => emit (OfDCC e)
  end.
Definition on_dcc {A} (m : M DCC.DCC.St A) : M World A :=
  run dcc with_dcc DCC.DCC.out deliver_dcc m.

(** *** Layout and turntables *)

Definition deliver_layout (e : Layout.Layout.ev) : M World unit :=
  match e with
  | Layout.Layout.SetAccessory address number gate => on_dcc (DCC.DCC.setAccessory address number gate 2)
  | e => emit (OfLayout e)
  end.
Definition on_layout {A} (m : M Layout.Layout.St A) : M World A :=
  run layout with_layout Layout.Layout.out deliver_layout m.

Definition deliver_turntables (e : Turntables.Turntables.ev) : M World unit :=
  match e with
  | Turntables.Turntables.SetAccessory address number gate => on_dcc (DCC.DCC.setAccessory address number gate 2)
  | e => emit (OfTurntables e)
  end.
Definition on_turntables {A} (m : M Turntables.Turntables.St A) : M World A :=
  run turntables with_turntables Turntables.Turntables.out deliver_turntables m.

(** ** The replies of programming commands *)

Definition nthp (p : list Z) (n : nat) : Z := nth n p 0.

(** getAsyncReplyStream, the reply, and commitAsyncReplyStream. *)
Definition async_reply (format : string) (args : list arg) : M World unit :=
  let! target := mget stashTarget in
  emit (AsyncReply target format args) ;;;
  mmod (with_stashBusy false).

Definition rloco_tag (p0 : Z) : string :=
  if p0 =? Keywords.hk "LOCOID" then "LOCOID " else if p0 =? Keywords.hk "CONSIST" then "CONSIST " else "".

Definition callback (c : Callback) (result : Z) : M World unit :=
  let! p := mget stashP in
  let p := nthp p in
  match c with
  | CB_W => async_reply "<r %d %d>" [I (p 0%nat); I (if result =? 1 then p 1%nat else -1)]
  | CB_W4 => async_reply "<r%d|%d|%d %d>" [I (p 2%nat); I (p 3%nat); I (p 0%nat); I (if result =? 1 then p 1%nat else -1)]
  | CB_B => async_reply "<r%d|%d|%d %d %d>" [I (p 3%nat); I (p 4%nat); I (p 0%nat); I (p 1%nat); I (if result =? 1 then p 2%nat else -1)]
  | CB_Vbit => async_reply "<v %d %d %d>" [I (p 0%nat); I (p 1%nat); I result]
  | CB_Vbyte => async_reply "<v %d %d>" [I (p 0%nat); I result]
  | CB_R => async_reply "<r%d|%d|%d %d>" [I (p 1%nat); I (p 2%nat); I (p 0%nat); I result]
  | CB_r => async_reply "<r %d %d %d >" [I (p 0%nat); I (p 1%nat); I result]
  | CB_Rloco =>
    let tag := rloco_tag (p 0%nat) in
    if result <=? 0 then async_reply "<r %S%d>" [T tag; I result] else
    let longAddr := tru (result .& DCCACK.DCCACK.LONG_ADDR_MARKER) in
    let result := if longAddr then result .^ DCCACK.DCCACK.LONG_ADDR_MARKER else result in
    async_reply (if longAddr && (result <=? DCC.DCC.HIGHEST_SHORT_ADDR) then "<r LONG %S%d UNSUPPORTED>" else "<r %S%d>") [T tag; I result]
  | CB_Wloco => async_reply "<w %d>" [I (if result =? 1 then p 0%nat else result)]
  | CB_Wconsist =>
    async_reply "<w CONSIST %d%S>" [I (if result =? 1 then p 1%nat else result); T (if p 2%nat =? Keywords.hk "REVERSE" then " REVERSE" else "")]
  | CB_Exrail => emit (ReadLoco result)
  | CB_WiThrottle => emit (LocoForThrottle result)
  end.

(** *** The programming track *)

Definition prog_power (m : MotorDriver.MotorDriver.POWERMODE) : DCCACK.DCCACK.POWERMODE :=
  match m with
  | MotorDriver.MotorDriver.OFF => DCCACK.DCCACK.OFF | MotorDriver.MotorDriver.ON => DCCACK.DCCACK.ON
  | MotorDriver.MotorDriver.OVERLOAD => DCCACK.DCCACK.OVERLOAD | MotorDriver.MotorDriver.ALERT => DCCACK.DCCACK.ALERT
  end.
Definition track_power (m : DCCACK.DCCACK.POWERMODE) : MotorDriver.MotorDriver.POWERMODE :=
  match m with
  | DCCACK.DCCACK.OFF => MotorDriver.MotorDriver.OFF | DCCACK.DCCACK.ON => MotorDriver.MotorDriver.ON
  | DCCACK.DCCACK.OVERLOAD => MotorDriver.MotorDriver.OVERLOAD | DCCACK.DCCACK.ALERT => MotorDriver.MotorDriver.ALERT
  end.

(** What the ack manager sees: the first programming track, if any. *)
Definition prog_env (w : World) : option DCCACK.DCCACK.Env :=
  '(d, _) ← TrackManager.TrackManager.getProgDriver (tracks w);
  let view p can sense := DCCACK.DCCACK.mkEnv (bool_decide (is_Some d)) can p
    (TrackManager.TrackManager.progTrackSyncMain (tracks w)) (prog_current i) sense (now i) (prog_wave i) in
  Some match d with
       | Some (_, m) => view (prog_power (MotorDriver.MotorDriver.powerMode m)) (MotorDriver.MotorDriver.canMeasureCurrent m)
                          (MotorDriver.MotorDriver.senseFactorInternal m)
       | None => view DCCACK.DCCACK.OFF false 1
       end.

Definition deliver_prog (e : DCCACK.DCCACK.ev) : M World unit :=
  match e with
  | DCCACK.DCCACK.Join b => on_tracks (λ _, TrackManager.TrackManager.setJoin b)
  | DCCACK.DCCACK.Power m =>
    on_tracks (λ _, let! d := TrackManager.TrackManager.getProgDriver in
      match d with
      | Some (t, _) => TrackManager.TrackManager.on t (MotorDriver.MotorDriver.setPower (TrackManager.TrackManager.micros (track_env i))
                         (TrackManager.TrackManager.adcs (track_env i) t) (track_power m))
      | None => Prelude.mfail
      end)
  | DCCACK.DCCACK.Callback result => let! c := mget ackCallback in callback c result
  | e => emit (OfProg e)
  end.
Definition on_prog {A} (m : M DCCACK.DCCACK.St A) : M World A := λ w,
  e ← prog_env w;
  run prog with_prog DCCACK.DCCACK.out deliver_prog
    (mmod (DCCACK.DCCACK.with_env e) ;;; m) w.
(** A call of the DCC API that ends in a callback. *)
Definition programming (c : Callback) (m : M DCCACK.DCCACK.St unit) : M World unit :=
  mmod (with_ackCallback c) ;;; on_prog m.

(** The main loop's share of the ack manager. *)
Definition ack_loop : M World unit := on_prog DCCACK.DCCACK.loop.

(** *** CommandDistributor::setClockTime *)

Definition setClockTime (clocktime clockrate : Z) : M World unit :=
  let clockrate := i8 clockrate in
  let! last := mget lastclocktime in
  if clocktime =? last then mreturn tt else
  let difference := i16 (clocktime - last) in
  let difference := if difference <? 0 then difference + 1440 else difference in
  on_dcc (DCC.DCC.setTime (u16 clocktime) (u8 clockrate) (difference >? 2)) ;;;
  let hh := u8 (Z.quot clocktime 60) in
  let mm := u8 (Z.rem clocktime 60) in
  let hh := if hh >? 23 then 0 else hh in
  emit (Lcd 0 6 (if clockrate <=? 1 then "Time %d%d:%d%d" else "Time %d%d:%d%d (%d)")
    [I (hh / 10); I (hh mod 10); I (mm / 10); I (mm mod 10); I clockrate]) ;;;
  emit (ClockEvent clocktime true) ;;;
  emit (BroadcastClockTime clocktime clockrate) ;;;
  mmod (with_lastclocktime clocktime) ;;;
  mmod (with_lastclockrate clockrate).

End station.
End Station.
