(* ===== verification/StationProps.v ===== *)
(** The station never fails: what each component guarantees, lifted to the
    whole, where a call of one component runs another. *)

From S2P Require Import Prelude Keywords Chain LocoSlot ConsistProps DCCConsist DCC DCCSafe MotorDriver TrackManager TrackProps DCCACK Layout Outputs Turnouts Sensors EEStore Turntables Stash Station.
From stdpp Require Import strings.

#[local] Open Scope Z_scope.
#[local] Open Scope c_scope.

Module StationProps.
Import Station.

Section safe.
Context `{!MotorDriver.MotorDriver.Board}.

(** The loco table is well formed, and so are the tracks, the last of which is [n]. *)
Definition WInv (n : Z) (w : World) : Prop := DCCSafe.DCCSafe.inv (dcc w) ∧ TrackProps.TrackProps.good n (tracks w).

(** A command is stashed, and the programming track works on none: nothing is
    left that could unstash it, and what is safe keeps it so. *)
Definition locked (w : World) : Prop := stashBusy w = true ∧ DCCACK.DCCACK.ackManagerProg (prog w) = None.
Definition ok (n : Z) (w w' : World) : Prop := WInv n w' ∧ (locked w → locked w').
Definition safe (n : Z) {A} (m : M World A) : Prop := ∀ w, WInv n w → wp m (λ _ w', ok n w w') w.

Context (n : Z).

Lemma ok_refl w : WInv n w → ok n w w.
Proof. by split. Qed.
Lemma ok_trans w1 w2 w3 : ok n w1 w2 → ok n w2 w3 → ok n w1 w3.
Proof. intros [_ H1] [H2 H3]. split; auto. Qed.

Lemma safe_ret {A} (a : A) : safe n (mreturn a).
Proof. intros w Hw. apply wp_ret. by apply ok_refl. Qed.
Lemma safe_get {A} (f : World → A) : safe n (mget f).
Proof. intros w Hw. apply wp_get. by apply ok_refl. Qed.
Lemma safe_bind {A B} (m : M World B) (k : B → M World A) : safe n m → (∀ b, safe n (k b)) → safe n (mthen m k).
Proof.
  intros Hm Hk w Hw. apply wp_bind. eapply wp_mono; [by apply Hm|]. intros b w1 H1. cbn beta in H1.
  eapply wp_mono; [apply Hk, H1|]. intros a w2 H2. by eapply ok_trans.
Qed.
Lemma safe_mod f : (∀ w, dcc (f w) = dcc w ∧ tracks (f w) = tracks w ∧ stashBusy (f w) = stashBusy w ∧ prog (f w) = prog w) →
  safe n (mmod f).
Proof.
  intros Hf w Hw. apply wp_mod. destruct (Hf w) as (Hd & Ht & Hb & Hp). unfold ok, locked, WInv. by rewrite Hd, Ht, Hb, Hp.
Qed.
Lemma safe_emit e : safe n (emit e).
Proof. by apply safe_mod. Qed.
Lemma safe_if {A} (b : bool) (m k : M World A) : safe n m → safe n k → safe n (if b then m else k).
Proof. by destruct b. Qed.
Lemma safe_mfold {A B} (f : B → A → M World A) l : (∀ x a, safe n (f x a)) → ∀ a, safe n (mfold f l a).
Proof.
  intros Hf. induction l as [|x l IH]; intros a; [apply safe_ret|]. simpl. apply safe_bind; [apply Hf|done].
Qed.
Lemma safe_mfor {B} (l : list B) f : (∀ x, safe n (f x)) → safe n (mfor l f).
Proof. intros Hf. apply safe_mfold. by intros. Qed.

(** Running a component, when its operation and the delivery are safe. *)
Lemma wp_component {S E A} (get : World → S) set (trace : S → list E) deliver (m : M S A) (P : A → S → Prop) w :
  wp m P (get w) →
  (∀ a s, P a s → ok n w (set s w)) →
  (∀ e, safe n (deliver e)) →
  wp (run get set trace deliver m) (λ a w', ok n w w' ∧ ∃ s, P a s) w.
Proof.
  intros Hm Hset Hd. unfold run, wp in *. destruct (m (get w)) as [[a s]|]; [|done]. simpl.
  specialize (Hset a s Hm). pose proof (safe_mfor (drop (length (trace (get w))) (trace s)) deliver Hd (set s w)) as Hf.
  unfold wp in Hf. destruct (mfor _ _ (set s w)) as [[[] w']|]; simpl; [|apply Hf, Hset].
  split; [|by exists s]. eapply ok_trans; [exact Hset|]. apply Hf, Hset.
Qed.
Lemma safe_run {S E A} (get : World → S) set (trace : S → list E) deliver (m : M S A) (I : S → Prop) :
  (∀ w, WInv n w → I (get w)) → (∀ s, I s → wp m (λ _ s', I s') s) →
  (∀ w s, WInv n w → I s → ok n w (set s w)) → (∀ e, safe n (deliver e)) → safe n (run get set trace deliver m).
Proof.
  intros HI Hm Hset Hd w Hw. eapply wp_mono; [apply wp_component; [apply Hm, HI, Hw|intros a s Hs; by apply Hset|done]|]. by intros a w' [? _].
Qed.
End safe.

Create HintDb safe.
#[export] Hint Resolve safe_ret safe_get safe_emit : safe.
#[export] Hint Extern 1 (safe _ (mmod _)) => (apply safe_mod; by intros) : safe.
#[export] Hint Extern 2 (safe _ (mthen _ _)) => (apply safe_bind; [|intros]) : safe.
#[export] Hint Extern 2 (safe _ (if _ then _ else _)) => apply safe_if : safe.
#[export] Hint Extern 2 (safe _ (mfor _ _)) => (apply safe_mfor; intros) : safe.

Section components.
Context `{!Config} `{!MotorDriver.MotorDriver.Board} `{!Layout.Layout.Machine} `{!Devices} (Hmax : MAX_LOCOS < 65536).
Context (n : Z).

(** What the tracks deliver changes none of the other components. *)
Definition beside (w w' : World) : Prop := dcc w' = dcc w ∧ stashBusy w' = stashBusy w ∧ prog w' = prog w.
Lemma wp_on_tracks {A} (m : TrackManager.TrackManager.Throttles → M TrackManager.TrackManager.St A) (P : TrackManager.TrackManager.St → Prop) w :
  (∀ t, wp (m t) (λ _ s', P s') (tracks w)) → wp (on_tracks m) (λ _ w', P (tracks w') ∧ beside w w') w.
Proof.
  intros Hm. unfold on_tracks, run. specialize (Hm (throttles (dcc w))). unfold wp in *.
  destruct (m _ (tracks w)) as [[a s]|]; [|done]. simpl.
  enough (wp (mfor (drop (length (TrackManager.TrackManager.out (tracks w))) (TrackManager.TrackManager.out s)) deliver_tracks)
    (λ _ w', P (tracks w') ∧ beside w w') (with_tracks s w)) as Hf.
  { unfold wp in Hf. by destruct (mfor _ _ _) as [[[] w']|]. }
  apply (wp_mfor (λ w', P (tracks w') ∧ beside w w')); [|by repeat split].
  intros e w1 _ Hw. destruct e; exact Hw.
Qed.
Lemma safe_on_tracks {A} (m : TrackManager.TrackManager.Throttles → M TrackManager.TrackManager.St A) :
  (∀ t s, TrackProps.TrackProps.good n s → wp (m t) (λ _ s', TrackProps.TrackProps.good n s') s) → safe n (on_tracks m).
Proof.
  intros Hm w [Hd Ht]. eapply wp_mono; [apply (wp_on_tracks _ (TrackProps.TrackProps.good n)); intros t; by apply Hm|].
  intros a w' [Hg (E1 & E2 & E3)]. unfold ok, WInv, locked. by rewrite E1, E2, E3.
Qed.

Lemma safe_deliver_dcc e : safe n (deliver_dcc e).
Proof.
  destruct e; simpl; auto with safe. apply safe_on_tracks. intros t s Hs. by apply TrackProps.TrackProps.good_setDCSignal.
Qed.
Lemma safe_on_dcc {A} (m : M DCC.DCC.St A) :
  (∀ s, DCCSafe.DCCSafe.inv s → wp m (λ _ s', DCCSafe.DCCSafe.inv s') s) → safe n (on_dcc m).
Proof.
  intros Hm. apply (safe_run n _ _ _ _ _ DCCSafe.DCCSafe.inv); try done.
  - by intros w' [? _].
  - intros w' s [_ Ht] Hs. by split.
  - apply safe_deliver_dcc.
Qed.
Lemma safe_dcc_steps {A} (m : M DCC.DCC.St A) :
  (∀ s, DCCSafe.DCCSafe.inv s → wp m (λ _ s', DCCSafe.DCCSafe.steps s s') s) → safe n (on_dcc m).
Proof. intros Hm. apply safe_on_dcc. intros s Hs. eapply wp_mono; [by apply Hm|]. intros a s' Hs'. apply Hs'. Qed.
Lemma safe_dcc_keeps {A} (m : M DCC.DCC.St A) :
  (∀ s, DCCSafe.DCCSafe.inv s → wp m (λ _ s', DCCSafe.DCCSafe.keeps s s') s) → safe n (on_dcc m).
Proof. intros Hm. apply safe_dcc_steps. intros s Hs. eapply wp_mono; [by apply Hm|]. intros a s' Hs'. apply Hs'. Qed.

Lemma safe_accessory a p g o : safe n (on_dcc (DCC.DCC.setAccessory a p g o)).
Proof using All. apply safe_dcc_steps. intros s Hs. by apply DCCSafe.DCCSafe.setAccessory_wp. Qed.

(** The layout and the turntables need no invariant: their operations are total. *)
Definition total {S A} (m : M S A) : Prop := ∀ s, wp m (λ _ _, True) s.

Lemma total_bind {S A B} (m : M S B) (k : B → M S A) : total m → (∀ b, total (k b)) → total (mthen m k).
Proof. intros Hm Hk s. apply wp_bind. eapply wp_mono; [apply Hm|]. intros b s' _. apply Hk. Qed.
Lemma total_ret {S A} (a : A) : total (mreturn (S := S) a).
Proof. done. Qed.
Lemma total_get {S A} (f : S → A) : total (mget f).
Proof. done. Qed.
Lemma total_mod {S} (f : S → S) : total (mmod f).
Proof. done. Qed.
Lemma total_mfold {S A B} (f : B → A → M S A) l : (∀ x a, total (f x a)) → ∀ a, total (mfold f l a).
Proof. intros Hf. induction l as [|x l IH]; intros a; [done|]. simpl. by apply total_bind; [apply Hf|]. Qed.
Lemma total_mfor {S B} (l : list B) (f : B → M S unit) : (∀ x, total (f x)) → total (mfor l f).
Proof. intros Hf. apply total_mfold. by intros. Qed.

Lemma safe_on_layout {A} (m : M Layout.Layout.St A) : total m → safe n (on_layout m).
Proof using All.
  intros Hm. apply (safe_run n _ _ _ _ _ (λ _, True)); try done. intros e. destruct e; simpl; auto with safe. apply safe_accessory.
Qed.
Lemma safe_on_turntables {A} (m : M Turntables.Turntables.St A) : total m → safe n (on_turntables m).
Proof using All.
  intros Hm. apply (safe_run n _ _ _ _ _ (λ _, True)); try done. intros e. destruct e; simpl; auto with safe. apply safe_accessory.
Qed.
End components.

(** ** The operations of the layout and the turntables are total *)

Ltac total1 :=
  match goal with
  | |- total (mthen _ _) => apply total_bind; [|intros]
  | |- total (mreturn _) => apply total_ret
  | |- total (mget _) => apply total_get
  | |- total (mmod _) => apply total_mod
  | |- total (Layout.Layout.emit _) => apply total_mod
  | |- total (Layout.Layout.on_store _) => apply total_mod
  | |- total (Turntables.Turntables.emit _) => apply total_mod
  | |- total (mfold _ _ _) => apply total_mfold; intros
  | |- total (mfor _ _) => apply total_mfor; intros
  | |- total (if ?b then _ else _) => destruct b
  | |- total (match ?x with _ => _ end) => destruct x
  | |- total (let x := _ in _) => cbv zeta
  end.
Ltac total_tac := repeat total1.

Section layout.
Context `{!Layout.Layout.Machine}.
Import Layout.Layout.

Lemma total_put_next l : total (put_next l).
Proof. unfold put_next, pointer, eeprom_put, advance, on_store. total_tac. Qed.

Section turnouts.
Import Turnouts.Turnouts.
Lemma get_update m f l : (∀ t, id (f t) = id t) →
  List.find (λ t, id t =? m) (update_first m f l) = f <$> List.find (λ t, id t =? m) l.
Proof.
  intros Hf. induction l as [|t l IH]; [done|]. simpl. destruct (id t =? m) eqn:E; simpl; [by rewrite Hf, E|by rewrite E].
Qed.
Lemma total_remove m : total (remove m).
Proof. unfold remove, bump_hash. total_tac. Qed.
Lemma total_add t : total (add t).
Proof. unfold add, bump_hash. total_tac. Qed.
Lemma total_reuse m k : total (reuse m k).
Proof. unfold reuse. total_tac. apply total_remove. Qed.
Lemma total_print t : total (print t).
Proof. unfold print. total_tac. Qed.
Lemma total_printAll : total printAll.
Proof. unfold printAll. total_tac. Qed.
Lemma total_setClosed m b : total (setClosed m b).
Proof.
  intros s. unfold setClosed. apply wp_bind, wp_get. destruct (get_turnout m s) as [t|] eqn:Et; [|by apply wp_ret].
  apply wp_bind. eapply (wp_mono _ (λ (_ : bool) s', turnouts s' = turnouts s)).
  { unfold setClosedInternal. apply wp_bind. destruct (kind t); apply wp_mod, wp_ret; done. }
  intros r s1 H1. cbn beta in H1. apply wp_bind. apply (wp_mono _ (λ _ _, True)); [|by intros; apply wp_ret].
  apply wp_when; intros _; [|done]. apply wp_bind. unfold setClosedStateOnly. apply wp_bind, wp_get.
  assert (get_turnout m s1 = Some t) as -> by (unfold get_turnout in *; by rewrite H1).
  apply wp_bind. apply (wp_mono _ (λ _ s2, is_Some (get_turnout m s2))).
  { apply wp_when; intros _; [|unfold get_turnout in *; rewrite H1, Et; by eexists].
    apply wp_bind, wp_mod, wp_mod. unfold get_turnout in *. simpl. rewrite get_update by done. rewrite H1, Et. by eexists. }
  intros [] s2 [t2 H2]. cbn beta in *. apply wp_bind, wp_mod, wp_ret, wp_bind, wp_get, wp_bind, wp_get.
  unfold get_turnout in *. simpl. rewrite H2. apply wp_when; intros _; done.
Qed.
Lemma total_createServo a b c d e f : total (createServo a b c d e f).
Proof. unfold createServo, update. total_tac; [apply total_reuse|apply total_add]. Qed.
Lemma total_createDCC a b c : total (createDCC a b c).
Proof. unfold createDCC, update. total_tac; [apply total_reuse|apply total_add]. Qed.
Lemma total_createVpin a b c : total (createVpin a b c).
Proof. unfold createVpin, update. total_tac; [apply total_reuse|apply total_add]. Qed.
End turnouts.

Section outputs.
Import Outputs.Outputs.
Lemma find_update m f l : (∀ o, oid (f o) = oid o) → is_Some (List.find (λ o, oid o =? m) l) →
  is_Some (List.find (λ o, oid o =? m) ((λ o, if oid o =? m then f o else o) <$> l)).
Proof.
  intros Hf. induction l as [|o l IH]; [done|]. simpl. destruct (oid o =? m) eqn:E; simpl.
  - by rewrite Hf, E.
  - rewrite E. apply IH.
Qed.
Lemma activate_wp m v s : is_Some (get_output m s) → wp (activate m v) (λ _ _, True) s.
Proof.
  intros Hs. unfold activate. apply wp_bind, wp_mod, wp_bind. 
  match goal with |- wp _ _ ?s1 => assert (is_Some (get_output m s1)) as [o Ho] by (by apply find_update) end.
  unfold deref. unfold wp at 1. rewrite Ho. simpl. apply wp_bind, wp_mod, wp_bind, wp_get, wp_when; intros _; done.
Qed.
Lemma total_remove_output m : total (remove m).
Proof. intros s. unfold wp, remove. by destruct (remove_first _ _). Qed.
Lemma find_last m l o : oid o = m → is_Some (List.find (λ o, oid o =? m) (l ++ [o])).
Proof. intros Ho. induction l as [|x l IH]; simpl; [rewrite Ho, Z.eqb_refl; by eexists|]. by destruct (oid x =? m). Qed.
Lemma total_create_output a b c d : total (create a b c d).
Proof.
  intros s. unfold create. destruct (b >? VPIN_MAX); [by apply wp_ret|]. apply wp_bind, wp_get, wp_bind, wp_get.
  destruct (negb _); [by apply wp_ret|]. apply wp_bind. apply (wp_mono _ (λ _ s', is_Some (get_output a s'))).
  { destruct (get_output a s) as [o|] eqn:E; [by apply wp_ret; exists o|]. apply wp_mod. by apply find_last. }
  intros _ s1 H1. cbn beta in H1. apply wp_bind, wp_mod, wp_bind.
  match goal with |- wp _ _ ?s2 => assert (is_Some (get_output a s2)) as H2 by (by apply find_update) end.
  apply (wp_mono _ (λ _ s', is_Some (get_output a s'))); [apply wp_when; intros _; [|done]; apply wp_mod; by apply find_update|].
  intros _ s3 [o Ho]. cbn beta in Ho. apply wp_bind. unfold deref. unfold wp at 1. rewrite Ho. simpl.
  apply wp_bind, wp_mod. by apply wp_ret.
Qed.
Lemma total_store_output o : total (store_one o).
Proof. unfold store_one, pointer, eeprom_put, advance, on_store, update. total_tac. Qed.
End outputs.

Section sensors.
Import Sensors.Sensors.
Lemma total_remove_sensor m : total (remove m).
Proof. unfold remove. total_tac. Qed.
Lemma total_create_sensor a b c : total (create a b c).
Proof. unfold create. total_tac. apply total_remove_sensor. Qed.
Lemma total_dump : total dumpAll.
Proof. unfold dumpAll. total_tac. Qed.
Lemma total_print_sensors : total printAll.
Proof. unfold printAll. total_tac. Qed.
End sensors.

Lemma total_save t : total (Turnouts.Turnouts.save t).
Proof. unfold Turnouts.Turnouts.save. total_tac; apply total_put_next. Qed.
Lemma total_store_sensor t : total (Sensors.Sensors.store_one t).
Proof. unfold Sensors.Sensors.store_one. total_tac. apply total_put_next. Qed.
Lemma total_header : total EEStore.EEStore.put_header.
Proof. unfold EEStore.EEStore.put_header, eeprom_put. total_tac. Qed.
Lemma total_store_layout : total EEStore.EEStore.store_layout.
Proof.
  unfold EEStore.EEStore.store_layout, reset, Turnouts.Turnouts.store_all, Sensors.Sensors.store_all, Outputs.Outputs.store_all.
  total_tac; [apply total_save|apply total_store_sensor|apply total_store_output|apply total_header].
Qed.
Lemma total_clear : total EEStore.EEStore.clear.
Proof. unfold EEStore.EEStore.clear. total_tac. apply total_header. Qed.
End layout.

Section turntables.
Context `{!Devices}.
Import Turntables.Turntables.
Lemma total_addPosition a b c d : total (addPosition a b c d).
Proof. unfold addPosition, update. total_tac. Qed.
(** A move leaves the turntable in the list. *)
Lemma find_moved m f l : (∀ t, tid (f t) = tid t) →
  is_Some (List.find (λ t, tid t =? u16 m) l) → is_Some (List.find (λ t, tid t =? u16 m) (update_first m f l)).
Proof.
  intros Hf. induction l as [|t l IH]; [done|]. simpl. destruct (tid t =? u16 m) eqn:E; simpl; [by rewrite Hf, E|by rewrite E].
Qed.
Lemma moved_wp m t p a s : is_Some (get_turntable m s) →
  wp (if isEXTT t then setPositionEXTT m t p a else setPositionDCC m t p) (λ _ s', is_Some (get_turntable m s')) s.
Proof.
  intros Hs. unfold setPositionEXTT, setPositionDCC. repeat split_if; try (by apply wp_ret);
    do 2 apply wp_bind, wp_mod; apply wp_ret; by apply find_moved.
Qed.
Lemma total_setPosition a b c : total (setPosition a b c).
Proof.
  intros s. unfold setPosition. cbv zeta. apply wp_bind, wp_get. destruct (get_turntable a s) as [t|] eqn:E; [|by apply wp_ret].
  destruct (isMoving t); [by apply wp_ret|]. apply wp_bind. eapply wp_mono; [apply moved_wp; by exists t|].
  intros ok s1 H1. cbn beta in H1. apply wp_bind, (wp_mono _ (λ _ _, True)); [|by intros].
  apply wp_when; intros _; [|done]. apply wp_bind. apply (wp_mono _ (λ _ s', is_Some (get_turntable a s'))).
  - apply wp_when; intros _; [by apply wp_mod|done].
  - intros _ s2 [t2 H2]. cbn beta in H2. apply wp_bind, wp_get. by rewrite H2.
Qed.
Lemma total_createEXTT a b : total (createEXTT a b).
Proof. unfold createEXTT, update, add. total_tac. Qed.
Lemma total_createDCC_turntable a : total (createDCC a).
Proof. unfold createDCC, add. total_tac. Qed.
Lemma total_print_turntables : total printAll.
Proof. unfold printAll. total_tac. Qed.
End turntables.

(** ** The programming track *)

Section programming.
Context `{!Config} `{!MotorDriver.MotorDriver.Board} `{!Layout.Layout.Machine} `{!Devices}.
Context (n : Z) (i : Inputs).
Import DCCACK.DCCACK.

(** An operation of the ack manager asks for power only where there is a
    programming track. *)
Definition asks (b : bool) (e : ev) : Prop := match e with Power _ => b = true | _ => True end.
Definition asked (s s' : St) : Prop :=
  progDriver (env s') = progDriver (env s) ∧ ∃ l, out s' = out s ++ l ∧ Forall (asks (progDriver (env s))) l.
Definition prog_op {A} (m : M St A) : Prop := ∀ s, wp m (λ _ s', asked s s') s.

Lemma asked_same s s' : progDriver (env s') = progDriver (env s) → out s' = out s → asked s s'.
Proof. intros He Ho. split; [done|]. exists []. by rewrite app_nil_r. Qed.
Lemma asked_trans s1 s2 s3 : asked s1 s2 → asked s2 s3 → asked s1 s3.
Proof.
  intros [E1 (l1 & O1 & F1)] [E2 (l2 & O2 & F2)]. split; [congruence|]. exists (l1 ++ l2).
  rewrite O2, O1, (app_assoc (out s1)). split; [done|]. apply Forall_app. split; [done|]. by rewrite <-E1.
Qed.
Lemma asked_emit s0 s e : asked s0 s → asks (progDriver (env s)) e → wp (emit e) (λ _ s', asked s0 s') s.
Proof. intros K0 He. apply wp_mod. eapply asked_trans; [exact K0|]. split; [done|]. exists [e]. split; [done|]. by constructor. Qed.
Lemma asked_mod s0 s f : asked s0 s → (∀ s, progDriver (env (f s)) = progDriver (env s) ∧ out (f s) = out s) →
  wp (mmod f) (λ _ s', asked s0 s') s.
Proof. intros K0 Hf. apply wp_mod. eapply asked_trans; [exact K0|]. destruct (Hf s). by apply asked_same. Qed.
Lemma asked_then {A B} (m : M St B) (k : B → M St A) s0 s :
  wp m (λ _ s', asked s0 s') s → (∀ b s', asked s0 s' → wp (k b) (λ _ s'', asked s0 s'') s') → wp (mthen m k) (λ _ s', asked s0 s') s.
Proof. intros Hm Hk. apply wp_bind. eapply wp_mono; [exact Hm|]. intros b s' K1. by apply Hk. Qed.
Lemma asked_join s0 s b : asked s0 s → wp (setJoin b) (λ _ s', asked s0 s') s.
Proof. intros K0. unfold setJoin. apply asked_then; [by apply asked_mod|]. intros [] s' K1. by apply asked_emit. Qed.
Lemma asked_power s0 s p : asked s0 s → progDriver (env s0) = true → wp (setPower p) (λ _ s', asked s0 s') s.
Proof.
  intros K0 Hp. unfold setPower. apply wp_bind, wp_get. destruct (decide _); [by apply wp_ret|].
  apply asked_then; [destruct (decide _); [by apply asked_mod|by apply wp_ret]|]. intros _ s1 K1.
  apply asked_then; [by apply asked_mod|]. intros _ s2 K2. apply asked_emit; [done|]. simpl. by rewrite (proj1 K2).
Qed.

Lemma prog_Setup cv b program : prog_op (Setup cv b program).
Proof.
  intros s. unfold Setup. assert (asked s s) as K0 by by apply asked_same.
  apply wp_bind, wp_get. set (r := joined _). clearbody r.
  apply asked_then; [by apply asked_mod|]. intros _ s1 K1.
  apply asked_then; [apply wp_when; intros _; [|done]; apply asked_then; [by apply asked_join|]; intros _ s2 K2; by apply asked_mod|].
  intros _ s2 K2. apply wp_bind, wp_get. destruct (negb _) eqn:E.
  { apply asked_then; [apply wp_when; intros _; [by apply asked_join|done]|]. intros _ s3 K3. by apply asked_emit. }
  assert (progDriver (env s) = true) as Hp by (rewrite <-(proj1 K2); by destruct (progDriver _)).
  apply wp_bind, wp_get. destruct (negb (canMeasure _)).
  { apply asked_then; [by apply asked_join|]. intros _ s3 K3. by apply asked_emit. }
  apply asked_then; [by apply asked_mod|]. intros _ s3 K3. apply wp_bind, wp_get.
  apply asked_then.
  { destruct (decide _); [|by apply wp_ret]. apply asked_then; [by apply asked_mod|]. intros _ s4 K4. by apply asked_power. }
  intros _ s4 K4. repeat (first [by apply asked_mod|apply asked_then; [by apply asked_mod|intros _ ? ?]|apply wp_bind, wp_get]).
Qed.
Lemma prog_word v program : prog_op (SetupWord v program).
Proof.
  intros s. unfold SetupWord. apply asked_then; [apply asked_mod; [by apply asked_same|done]|]. intros _ s1 K1.
  eapply wp_mono; [apply prog_Setup|]. intros ? s2 K2. by eapply asked_trans.
Qed.
Lemma prog_callback r : prog_op (emit (Callback r)).
Proof. intros s. apply asked_emit; [by apply asked_same|done]. Qed.
Lemma prog_if {A} (b : bool) (m k : M St A) : prog_op m → prog_op k → prog_op (if b then m else k).
Proof. by destruct b. Qed.

(** ** Delivering it *)

Definition holds (b : bool) (w : World) : Prop :=
  WInv n w ∧ (b = true → TrackProps.TrackProps.prog_at (tracks w)).
Lemma holds_same b w w' : dcc w' = dcc w → tracks w' = tracks w → holds b w → holds b w'.
Proof. unfold holds, WInv. by intros -> ->. Qed.
Lemma holds_reply b format args w : holds b w → wp (async_reply format args) (λ _ w', holds b w') w.
Proof. intros Hw. exact Hw. Qed.
Lemma holds_callback b c r w : holds b w → wp (Station.callback c r) (λ _ w', holds b w') w.
Proof.
  intros Hw. apply wp_bind, wp_get. cbv zeta.
  destruct c; try exact Hw. destruct (r <=? 0); exact Hw.
Qed.
Lemma holds_deliver b e w : asks b e → holds b w → wp (deliver_prog i e) (λ _ w', holds b w') w.
Proof.
  intros Ha [[Hd Ht] Hp].
  destruct e; simpl; try (apply wp_mod; by split); try (apply wp_bind, wp_get; by apply holds_callback).
  - simpl in Ha. eapply wp_mono; [apply (wp_on_tracks _ (λ s, TrackProps.TrackProps.good n s ∧ TrackProps.TrackProps.prog_at s))|].
    + intros t. by apply TrackProps.TrackProps.good_prog_power; [|apply Hp].
    + intros ? w' [[K1 K2] (E & _)]. unfold holds, WInv. by rewrite E.
  - eapply wp_mono; [apply (wp_on_tracks _ (λ s, TrackProps.TrackProps.good n s ∧ (b = true → TrackProps.TrackProps.prog_at s)))|].
    + intros t. eapply wp_mono; [apply TrackProps.TrackProps.same_setJoin|]. intros [] s' Hs.
      split; [by eapply TrackProps.TrackProps.good_same|]. intros Hb. destruct (Hp Hb) as (u & v & Hin & Hv & E).
      exists u, v. split_and!; [|rewrite (TrackProps.TrackProps.same_vat _ _ u Hs)|done]; [|done|].
      * unfold TrackManager.TrackManager.tracks in *. by rewrite (TrackProps.TrackProps.st_last _ _ _ _ Hs).
      * by apply (TrackProps.TrackProps.good_tracks n _ _ Ht) in Hin as [? _].
    + intros ? w' [[K1 K2] (E & _)]. unfold holds, WInv. by rewrite E.
Qed.

Lemma prog_env_some w : WInv n w → ∃ e, prog_env i w = Some e ∧
  (progDriver e = true → TrackProps.TrackProps.prog_at (tracks w)).
Proof.
  intros [_ Ht]. pose proof (TrackProps.TrackProps.wp_getProgDriver n (tracks w) Ht) as Hg. unfold wp in Hg. unfold prog_env.
  destruct (TrackManager.TrackManager.getProgDriver (tracks w)) as [[r s]|]; [|done]. destruct Hg as [-> Hr]. simpl.
  eexists. split; [done|]. destruct r as [[t d]|]; simpl; [|done]. intros _. destruct Hr as (Hin & Hd & Hh).
  assert (TrackProps.TrackProps.vat (tracks w) t = Some (TrackProps.TrackProps.viewd d)) as Hv by (unfold TrackProps.TrackProps.vat; by rewrite Hd).
  exists t, (TrackProps.TrackProps.viewd d). split_and!; [done|done|]. by rewrite <-Hh, (TrackProps.TrackProps.has_prog _ t d _ Hd Hv).
Qed.

Lemma on_prog_wp {A} (m : M St A) w : prog_op m → WInv n w → wp (on_prog i m) (λ _ w', WInv n w') w.
Proof.
  intros Hm Hw. unfold on_prog, wp. destruct (prog_env_some w Hw) as (e & -> & Hp). simpl.
  unfold run. specialize (Hm (with_env e (prog w))). unfold wp in Hm. unfold mthen, mmod. simpl.
  destruct (m _) as [[a s]|]; [|done]. destruct Hm as [_ (l & Ho & Hl)]. simpl in *. rewrite Ho, drop_app_length.
  enough (wp (mfor l (deliver_prog i)) (λ _ w', holds (progDriver e) w') (Station.with_prog s w)) as Hf.
  { unfold wp in Hf. destruct (mfor _ _ _) as [[[] w']|]; [apply Hf|done]. }
  apply wp_mfor; [|by split]. intros x w1 Hx Hw1. apply holds_deliver; [|done]. rewrite Forall_forall in Hl; by apply Hl.
Qed.
Lemma programming_wp c m w : prog_op m → WInv n w → wp (programming i c m) (λ _ w', WInv n w') w.
Proof. intros Hm Hw. apply wp_bind, wp_mod. by apply on_prog_wp. Qed.

(** An operation that asks for nothing and starts nothing. *)
Definition quiet_op {A} (m : M St A) : Prop := ∀ s, wp m (λ _ s', out s' = out s ∧ ackManagerProg s' = ackManagerProg s) s.
Lemma safe_quiet {A} (m : M St A) : quiet_op m → safe n (on_prog i m).
Proof.
  intros Hm w Hw. unfold on_prog, wp. destruct (prog_env_some w Hw) as (e & -> & _). simpl.
  unfold run. specialize (Hm (with_env e (prog w))). unfold wp in Hm. unfold mthen, mmod. simpl.
  destruct (m _) as [[a s]|]; [|done]. destruct Hm as [Ho Hp]. simpl in *. rewrite Ho, drop_all. simpl.
  split; [done|]. unfold locked. simpl. by rewrite Hp.
Qed.
(** The main loop's share has nothing to do while nothing is programmed. *)
Lemma idle_loop s : ackManagerProg s = None → wp loop (λ _ s', s' = s) s.
Proof. intros Hs. unfold loop. apply wp_bind, wp_get. simpl. apply wp_bind, wp_get. by rewrite Hs. Qed.
Lemma locked_loop w : WInv n w → locked w → wp (ack_loop i) (λ _ w', ok n w w' ∧ Station.out w' = Station.out w) w.
Proof.
  intros Hw Hl. unfold ack_loop, on_prog, wp. destruct (prog_env_some w Hw) as (e & -> & _). simpl.
  unfold run. pose proof (idle_loop (with_env e (prog w)) (proj2 Hl)) as Hm. unfold wp in Hm. unfold mthen, mmod. simpl.
  destruct (loop _) as [[a s]|]; [|done]. rewrite Hm. simpl. rewrite drop_all. done.
Qed.
End programming.
End StationProps.
