(* ===== verification/Commands.v ===== *)
(** The command parser (src/DCCEXParser.cpp) over the whole station: the opcodes
    and their handlers, the filters, the stash of a command that is answered
    later, and the loop that finds the commands of a buffer. Built without EXRAIL
    for a Mega with WiFi; diagnostic messages are left out. *)

From S2P Require Import Prelude Keywords LocoSlot DCCConsist DCC MotorDriver TrackManager DCCACK Layout Outputs Turnouts Sensors EEStore Turntables Stash Format Split Station.
From stdpp Require Import strings.
From Stdlib Require Import Ascii.

#[local] Open Scope Z_scope.
#[local] Open Scope c_scope.

(** The texts that the build puts into <s>, and the drivers' texts. *)
Class Build := { VERSION : string; ARDUINO_TYPE : string; GITHUB_SHA : string; shieldName : string }.

(** The filters, as they are registered: each may change the opcode, the number
    of parameters and the parameters. The texts in memory are bytes. *)
Definition Filter : Type := Z → Z → list Z → M Station.Station.World (Z * Z * list Z).
Class Filters := { filterCallback : option Filter; filterRMFTCallback : option Filter; filterCamParserCallback : option Filter;
                   atCommandCallback : bool }.

Module Commands.
Import Keywords Station.

(** A format between quotation marks. *)
Definition quoted (s : string) : string := String "034"%char (s +:+ String "034"%char "").

Section commands.
Context `{!Config} `{!MotorDriver.MotorDriver.Board} `{!Layout.Layout.Machine} `{!Devices} `{!Build} `{!Filters}.
Variable i : Inputs.

Definition done : M World bool := mreturn true.
Definition bad : M World bool := mreturn false.
(** A handler that succeeds when [m] does, with <O> as its reply. *)
Definition ok_if (m : M World bool) : M World bool :=
  let! ok := m in if ok : bool then (reply "<O>" [] ;;; done) else bad.

(** ** Turnouts, sensors, outputs *)

Definition parseT (params : Z) (p : nat → Z) : M World bool :=
  let id := u16 (p 0%nat) in
  let setClosed (state : bool) := on_layout (Turnouts.Turnouts.setClosed id state) in
  if params =? 0 then on_layout Turnouts.Turnouts.printAll else
  if params =? 1 then ok_if (on_layout (Turnouts.Turnouts.remove id)) else
  if params =? 2 then
    if (p 1%nat =? 0) || (p 1%nat =? hk "C") then setClosed true
    else if (p 1%nat =? 1) || (p 1%nat =? hk "T") then setClosed false
    else if p 1%nat =? hk "X" then
      let! t := mget (λ w, Turnouts.Turnouts.get_turnout id (layout w)) in
      match t with
      | Some t => on_layout (Turnouts.Turnouts.print t) ;;; done
      | None => bad
      end
    else bad
  else ok_if (
    if (params =? 6) && (p 1%nat =? hk "SERVO") then
      on_layout (Turnouts.Turnouts.createServo id (u16 (p 2%nat)) (u16 (p 3%nat)) (u16 (p 4%nat)) (u8 (p 5%nat)) true)
    else if (params =? 3) && (p 1%nat =? hk "VPIN") then on_layout (Turnouts.Turnouts.createVpin id (u16 (p 2%nat)) true)
    else if (params >=? 3) && (p 1%nat =? hk "DCC") then
      if (params =? 4) && (p 2%nat >=? 0) && (p 2%nat <? 512) && (p 3%nat >=? 0) && (p 3%nat <? 4) then
        on_layout (Turnouts.Turnouts.createDCC id (p 2%nat) (p 3%nat))
      else if (params =? 3) && (p 2%nat >? 0) && (p 2%nat <=? 512 * 4) then
        on_layout (Turnouts.Turnouts.createDCC id ((p 2%nat - 1) / 4 + 1) ((p 2%nat - 1) mod 4))
      else bad
    else if params =? 3 then
      if (p 1%nat >=? 0) && (p 1%nat <? 512) && (p 2%nat >=? 0) && (p 2%nat <? 4) then
        on_layout (Turnouts.Turnouts.createDCC id (p 1%nat) (p 2%nat))
      else bad
    else if params =? 4 then
      on_layout (Turnouts.Turnouts.createServo id (u16 (p 1%nat)) (u16 (p 2%nat)) (u16 (p 3%nat)) 1 true)
    else bad).

Definition parseS (params : Z) (p : nat → Z) : M World bool :=
  if params =? 3 then
    ok_if (let! s := on_layout (Sensors.Sensors.create (p 0%nat) (u16 (p 1%nat)) (p 2%nat)) in mreturn (bool_decide (is_Some s)))
  else if params =? 1 then ok_if (on_layout (Sensors.Sensors.remove (p 0%nat)))
  else if params =? 0 then on_layout Sensors.Sensors.dumpAll ;;; done
  else bad.

Definition parseZ (params : Z) (p : nat → Z) : M World bool :=
  let id := u16 (p 0%nat) in
  if params =? 2 then
    let! o := mget (λ w, Outputs.Outputs.get_output id (layout w)) in
    match o with
    | None => bad
    | Some _ =>
      on_layout (Outputs.Outputs.activate id (u16 (p 1%nat))) ;;;
      reply "<Y %d %d>" [I (p 0%nat); I (p 1%nat)] ;;; done
    end
  else if params =? 3 then
    if (p 0%nat <? 0) || (p 2%nat <? 0) || (p 2%nat >? 7) then bad else
    ok_if (let! o := on_layout (Outputs.Outputs.create id (u16 (p 1%nat)) (p 2%nat) 1) in mreturn (bool_decide (is_Some o)))
  else if params =? 1 then ok_if (on_layout (Outputs.Outputs.remove id))
  else if params =? 0 then
    let! l := mget (λ w, Layout.Layout.outputs (layout w)) in
    mfor l (λ o, reply "<Y %d %d %d %d>" [I (Layout.Layout.oid o); I (Layout.Layout.opin o);
      I (Layout.Layout.oStatus o .& 127); I (Outputs.Outputs.activeBit o)]) ;;;
    mreturn (bool_decide (l ≠ []))
  else bad.

(** ** Sound players *)

Definition parsey (params : Z) (p : nat → Z) : M World bool :=
  let play cmd := if params <? 3 then None else Some (p 2%nat, if params >=? 4 then u8 (p 3%nat) else 0, cmd) in
  let plain cmd := if params =? 2 then Some (0, 0, cmd) else None in
  let value cmd := if params =? 3 then Some (0, u8 (p 2%nat), cmd) else None in
  if params <? 2 then bad else
  match
    (if p 1%nat =? hk "PLAY" then play 0x0F
     else if p 1%nat =? hk "REPEAT" then play 0x11
     else if p 1%nat =? hk "FOLDER" then value 0x17
     else if p 1%nat =? hk "STOP" then plain 0x16
     else if p 1%nat =? hk "PAUSE" then plain 0x0E
     else if p 1%nat =? hk "RESUME" then plain 0x0D
     else if p 1%nat =? hk "RESET" then plain 0x0C
     else if p 1%nat =? hk "VOL" then value 0x06
     else if p 1%nat =? hk "EQ" then value 0x07
     else None)
  with
  | Some (v1, v2, cmd) => emit (WriteAnalogue (u16 (p 0%nat)) v1 v2 cmd) ;;; done
  | None => bad
  end.

(** ** Functions in packet format *)

Fixpoint funcmap (fuel : nat) (cab value fstart fstop : Z) : M World bool :=
  match fuel with
  | O => mreturn true
  | S fuel =>
    if fstart >? fstop then mreturn true else
    let! ok := on_dcc (DCC.DCC.setFn cab fstart (tru (value .& 1))) in
    if ok : bool then funcmap fuel cab (value >>' 1) (fstart + 1) fstop else bad
  end.
Definition funcs (cab value fstart fstop : Z) : M World bool := funcmap (Z.to_nat (fstop - fstart + 1)) cab (u8 value) fstart fstop.

Definition parsef (params : Z) (p : nat → Z) : M World bool :=
  let cab := p 0%nat in
  let field := p 1%nat .& 0xE0 in
  if params =? 2 then
    if field =? 0x80 then funcs cab (((p 1%nat <<' 1) .& 0x1e) .| ((p 1%nat >>' 4) .& 0x01)) 0 4
    else if field =? 0xA0 then
      if tru (p 1%nat .& 0x10) then funcs cab (p 1%nat) 5 8 else funcs cab (p 1%nat) 9 12
    else bad
  else if params =? 3 then
    if p 1%nat =? 222 then funcs cab (p 2%nat) 13 20
    else if p 1%nat =? 223 then funcs cab (p 2%nat) 21 28
    else bad
  else bad.

(** ** Configuration and diagnostics *)

Definition ack_duration (params : Z) (p : nat → Z) : Z :=
  if (params =? 4) && (p 3%nat =? hk "MS") then p 2%nat * 1000 else p 2%nat.
Definition is_on (p : nat → Z) : bool := (p 1%nat =? 1) || (p 1%nat =? hk "ON").

Definition parseC (params : Z) (p : nat → Z) : M World bool :=
  if params =? 0 then bad else
  let p0 := p 0%nat in
  if p0 =? hk "PROGBOOST" then on_tracks (λ _, mmod (TrackManager.TrackManager.with_progTrackBoosted true)) ;;; done
  else if p0 =? hk "RESET" then emit Reset ;;; bad
  else if p0 =? hk "SPEED28" then on_dcc (mmod (DCC.DCC.setGlobalSpeedsteps 28)) ;;; done
  else if p0 =? hk "SPEED128" then on_dcc (mmod (DCC.DCC.setGlobalSpeedsteps 128)) ;;; done
  else if p0 =? hk "RAILCOM" then
    if params <? 2 then bad else
    let on := (p 1%nat =? hk "ON") || (p 1%nat =? 1) in
    if negb on && negb ((p 1%nat =? hk "OFF") || (p 1%nat =? 0)) then bad else
    (mmod (λ w, with_railcomActive (on && railcomPossible w) w) ;;; done)
  else if p0 =? hk "ACK" then
    if params >=? 3 then
      let v := p 2%nat in
      let d := u32 (ack_duration params p) in
      (if p 1%nat =? hk "LIMIT" then on_prog i (DCCACK.DCCACK.setAckLimit v) ;;; emit (Lcd 0 1 "Ack Limit=%dmA" [I v])
       else if p 1%nat =? hk "MIN" then on_prog i (DCCACK.DCCACK.setMinAckPulseDuration d) ;;; emit (Lcd 0 0 "Ack Min=%lus" [L d])
       else if p 1%nat =? hk "MAX" then on_prog i (DCCACK.DCCACK.setMaxAckPulseDuration d) ;;; emit (Lcd 0 0 "Ack Max=%lus" [L d])
       else if p 1%nat =? hk "RETRY" then
         (let v := if v >? 255 then 3 else v in
          let! sum := on_prog i (DCCACK.DCCACK.setAckRetry (u8 v)) in
          emit (Lcd 0 0 "Ack Retry=%d Sum=%d" [I v; I sum]))
       else mreturn tt) ;;; done
    else emit (SetDiag "ACK" (is_on p)) ;;; done
  else bad.

Definition parseD (params : Z) (p : nat → Z) : M World bool :=
  if params =? 0 then bad else
  let p0 := p 0%nat in
  let diag name := emit (SetDiag name (is_on p)) ;;; done in
  let analogue := emit (WriteAnalogue (u16 (p 1%nat)) (p 2%nat) (if params >? 3 then u8 (p 3%nat) else 0) 0) ;;; done in
  if p0 =? hk "CABS" then emit DisplayCabList ;;; done
  else if p0 =? hk "RAM" then done
  else if p0 =? hk "CMD" then diag "CMD"%string
  else if p0 =? hk "RAILCOM" then diag "RAILCOM"%string
  else if p0 =? hk "WIFI" then diag "WIFI"%string
  else if p0 =? hk "ETHERNET" then diag "ETHERNET"%string
  else if p0 =? hk "WIT" then diag "WIT"%string
  else if p0 =? hk "LCN" then diag "LCN"%string
  else if p0 =? hk "SNIFFER" then diag "SNIFFER"%string
  else if p0 =? hk "WEBSOCKET" then diag "WEBSOCKET"%string
  else if p0 =? hk "EEPROM" then (when params >=? 2 do emit (DumpEEPROM (p 1%nat))) ;;; done
  else if (p0 =? hk "SERVO") || (p0 =? hk "ANOUT") || (p0 =? hk "TT") then analogue
  else if p0 =? hk "ANIN" then emit (ReadAnalogue (u16 (p 1%nat))) ;;; done
  else if p0 =? hk "HAL" then
    (if p 1%nat =? hk "SHOW" then emit ShowHAL else if p 1%nat =? hk "RESET" then emit ResetHAL else mreturn tt) ;;; done
  else parseC params p.

(** ** Turntables *)

Definition turntable (id : Z) : M World (option Turntables.Turntables.Turntable) :=
  mget (λ w, Turntables.Turntables.get_turntable id (turntables w)).
Definition is_exTT (t : option Turntables.Turntables.Turntable) : option bool := Turntables.Turntables.isEXTT <$> t.

(** A new turntable of a class, with its home position. *)
Definition create_turntable (id home : Z) (create : M Turntables.Turntables.St bool) : M World bool :=
  let! tto := turntable id in
  if bool_decide (is_Some tto) || (home <? 0) || (home >? 3600) then bad else
  let! ok := on_turntables create in
  if negb ok then bad else
  (on_turntables (Turntables.Turntables.addPosition id 0 0 home) ;;;
   reply "<I>" [] ;;; done).

Definition parseI (params : Z) (p : nat → Z) : M World bool :=
  let id := p 0%nat in
  let! tto := turntable id in
  if params =? 0 then on_turntables Turntables.Turntables.printAll else
  if params =? 1 then
    match tto with
    | Some t => reply "<I %d %d>" [I (b2z (Turntables.Turntables.isEXTT t)); I (Turntables.Turntables.position t)] ;;; done
    | None => bad
    end
  else if params =? 2 then
    if decide (is_exTT tto = Some false) then on_turntables (Turntables.Turntables.setPosition id (p 1%nat) 0) else bad
  else if params =? 3 then
    if p 1%nat =? hk "DCC" then create_turntable id (p 2%nat) (Turntables.Turntables.createDCC id)
    else if decide (is_exTT tto = Some true) then on_turntables (Turntables.Turntables.setPosition id (p 1%nat) (p 2%nat)) else bad
  else if params =? 4 then
    if p 1%nat =? hk "EXTT" then create_turntable id (p 3%nat) (Turntables.Turntables.createEXTT id (u16 (p 2%nat))) else bad
  else if params =? 5 then
    if p 1%nat =? hk "ADD" then
      if negb (bool_decide (is_Some tto)) || (p 2%nat >? 48) || (p 4%nat <? 0) || (p 4%nat >? 3600) then bad else
      (on_turntables (Turntables.Turntables.addPosition id (p 2%nat) (p 3%nat) (p 4%nat)) ;;;
       reply "<I>" [] ;;; done)
    else bad
  else bad.

(** ** Stashes and queries *)

Definition list_stash (id : Z) : M World unit :=
  let! s := mget stashes in mfor (Stash.Stash.list_stashes id s) (λ c, reply "<jM %d %d>" [I c.1; I c.2]).
Definition on_stashes (f : Stash.Stash.St → Stash.Stash.St) : M World unit := mmod (λ w, with_stashes (f (stashes w)) w).

Definition parseJM (params : Z) (p : nat → Z) : M World bool :=
  if params =? 1 then list_stash 0 ;;; done
  else if params =? 2 then list_stash (p 1%nat) ;;; done
  else if params =? 3 then
    (if p 1%nat =? hk "CLEAR" then
       if p 2%nat =? hk "ALL" then on_stashes Stash.Stash.clearAll else on_stashes (Stash.Stash.clear (p 2%nat))
     else on_stashes (Stash.Stash.set (p 1%nat) (p 2%nat))) ;;; done
  else if (params =? 4) && (p 1%nat =? hk "CLEAR") && (p 2%nat =? hk "ANY") then
    on_stashes (Stash.Stash.clearAny (p 3%nat)) ;;; done
  else bad.

Definition list_turnouts (params id : Z) : M World unit :=
  reply "<jT" [] ;;;
  (if params =? 1 then
     let! l := mget (λ w, Layout.Layout.turnouts (layout w)) in
     mfor l (λ t, when negb (Layout.Layout.hidden t) do reply " %d" [I (Layout.Layout.id t)])
   else
     let! t := mget (λ w, Turnouts.Turnouts.get_turnout (u16 id) (layout w)) in
     match t with
     | Some t =>
       if Layout.Layout.hidden t then reply " %d X" [I id]
       else reply (" %d %c " +:+ quoted "%S") [I id; I (if Layout.Layout.closed t then 67 else 84); T ""]
     | None => reply " %d X" [I id]
     end) ;;;
  reply ">" [].

Definition list_turntables (params id : Z) : M World unit :=
  reply "<jO" [] ;;;
  if params =? 1 then
    (let! l := mget (λ w, Turntables.Turntables.turntables (turntables w)) in
     mfor l (λ t, when negb (Turntables.Turntables.hidden t) do reply " %d" [I (Turntables.Turntables.tid t)]) ;;;
     reply ">" [])
  else
    let! t := turntable id in
    match t with
    | Some t =>
      if Turntables.Turntables.hidden t then reply " %d X>" [I id]
      else reply (" %d %d %d %d " +:+ quoted "%S" +:+ ">") [I id; I (b2z (Turntables.Turntables.isEXTT t));
        I (Turntables.Turntables.position t); I (Turntables.Turntables.getPositionCount t); T ""]
    | None => reply " %d X>" [I id]
    end.

Definition list_positions (params id : Z) : M World unit :=
  if negb (params =? 2) then reply "<jP X>" [] else
  let! t := turntable id in
  match t with
  | Some t =>
    if Turntables.Turntables.hidden t then reply " %d X>" [I id] else
    mfor (rangeZ 0 (Turntables.Turntables.getPositionCount t)) (λ k,
      reply "<jP" [] ;;;
      reply (" %d %d %d " +:+ quoted "%S") [I id; I k; I (i16 (Turntables.Turntables.getPositionAngle k t)); T ""] ;;;
      reply ">" [])
  | None => reply " %d X>" [I id]
  end.

Definition parseJ (params : Z) (p : nat → Z) : M World bool :=
  if params <? 1 then bad else
  let id := if params =? 2 then p 1%nat else 0 in
  let p0 := p 0%nat in
  if p0 =? hk "C" then
    if params =? 1 then (let! x := mget lastclocktime in reply "<jC %d>" [I x] ;;; done)
    else setClockTime (p 1%nat) (p 2%nat) ;;; done
  else if p0 =? hk "G" then if params >? 1 then bad else (on_tracks (λ _, TrackManager.TrackManager.reportGauges) ;;; done)
  else if p0 =? hk "I" then
    if params >? 1 then bad else (on_tracks (λ _, TrackManager.TrackManager.reportCurrent (track_env i)) ;;; done)
  else if p0 =? hk "L" then
    if params <? 3 then bad else (on_tracks (λ _, TrackManager.TrackManager.reportCurrentLCD (track_env i) (u8 (p 2%nat))) ;;; done)
  else if p0 =? hk "A" then if negb (params =? 1) then bad else (reply "<jA>" [] ;;; done)
  else if p0 =? hk "M" then parseJM params p
  else if p0 =? hk "R" then reply "<jR" [] ;;; reply ">" [] ;;; done
  else if p0 =? hk "T" then list_turnouts params id ;;; done
  else if p0 =? hk "O" then list_turntables params id ;;; done
  else if p0 =? hk "P" then list_positions params id ;;; done
  else bad.
(** ** Replies that come later *)

(** stashCallback: [ring] is the client that the ring stream of the command is
    marked with, if it came from one. *)
Definition stashCallback (ring : option Z) (p : list Z) : M World bool :=
  let! busy := mget stashBusy in
  if busy : bool then mreturn false else
  (mmod (with_stashBusy true) ;;;
   mmod (with_stashTarget ring) ;;;
   mmod (with_stashP p) ;;;
   mreturn true).
Definition stashed (ring : option Z) (p : list Z) (m : M World bool) : M World bool :=
  let! ok := stashCallback ring p in if ok : bool then m else bad.
Definition prog (c : Callback) (m : M DCCACK.DCCACK.St unit) : M World bool := programming i c m ;;; done.

Section opcodes.
Variables (ring : option Z) (pl : list Z) (params : Z).
Let p : nat → Z := nthp pl.

(** <t>: a throttle, or the state of a cab. *)
Definition throttle : M World bool :=
  let set cab tspeed direction (obsolete : bool) :=
    if (tspeed >? 126) || (tspeed <? -1) then bad else
    let tspeed := if tspeed <? 0 then 1 else if tspeed >? 0 then tspeed + 1 else tspeed in
    if (cab =? 0) && (tspeed >? 1) then bad else
    if (direction <? 0) || (direction >? 1) then bad else
    if (cab >? 10239) || (cab <? 0) then bad else
    let! ok := on_dcc (DCC.DCC.setThrottle (now i) cab tspeed (tru direction)) in
    if ok : bool then
      (when obsolete do reply "<T %d %d %d>" [I (p 0%nat); I (p 2%nat); I (p 3%nat)]) ;;; done
    else bad in
  if params =? 1 then
    if (p 0%nat <? 0) || (p 0%nat >? 10239) then bad else
    let! slot := on_dcc (DCC.DCC.slot_of (p 0%nat) false) in
    match slot with
    | Some x => on_dcc (DCC.DCC.broadcastLoco x) ;;; done
    | None => reply "<l %d -1 128 0>" [I (p 0%nat)] ;;; done
    end
  else if params =? 4 then set (p 1%nat) (p 2%nat) (p 3%nat) true
  else if params =? 3 then set (p 0%nat) (p 1%nat) (p 2%nat) false
  else bad.

(** <a>: an accessory, by decoder and subaddress or by linear address. *)
Definition accessory : M World bool :=
  let send address sub activate onoff :=
    if negb (address .& 0x01FF =? address) || negb (sub .& 0x03 =? sub) || (activate >? 1) || (activate <? 0) then bad else
    (on_dcc (DCC.DCC.setAccessory address sub (activate =? 1) onoff) ;;; done) in
  if params =? 2 then
    send (Z.quot (p 0%nat - 1) 4 + 1) (u8 (Z.rem (p 0%nat - 1) 4)) (p 1%nat) 2
  else if params =? 3 then send (p 0%nat) (u8 (p 1%nat)) (p 2%nat) 2
  else if params =? 4 then
    if (p 3%nat <? 0) || (p 3%nat >? 1) then bad else send (p 0%nat) (u8 (p 1%nat)) (p 2%nat) (p 3%nat)
  else bad.

(** <o>: neopixels; <z>: pins. *)
Definition neopixel : M World bool :=
  if p 0%nat =? 0 then bad else
  let vpin := u16 (if p 0%nat >? 0 then p 0%nat else - p 0%nat) in
  let on := b2z (p 0%nat >? 0) in
  let outside n := (p n <? 0) || (p n >? 0xFF) in
  if params =? 1 then emit (PinWrite vpin on) ;;; done
  else if params =? 2 then emit (WriteRange vpin on (p 1%nat)) ;;; done
  else if (params =? 4) || (params =? 5) then
    let count := if tru (p 4%nat) then p 4%nat else 1 in
    if outside 1%nat || outside 2%nat || outside 3%nat then bad else
    (emit (WriteAnalogueRange vpin (i16 ((p 1%nat <<' 8) .| p 2%nat)) on (p 3%nat) count) ;;; done)
  else bad.
Definition pin : M World bool :=
  if p 0%nat =? 0 then bad else
  if params =? 1 then
    (if p 0%nat >? 0 then emit (PinWrite (u16 (p 0%nat)) 1) else emit (PinWrite (u16 (- p 0%nat)) 0)) ;;; done
  else if (params >=? 2) && (params <=? 4) then
    emit (WriteAnalogue (u16 (p 0%nat)) (p 1%nat) (u8 (p 2%nat)) (u16 (p 3%nat))) ;;; done
  else bad.

(** <m>: momentum. *)
Definition momentum : M World bool :=
  if params =? 1 then
    let linear b := on_dcc (mmod (λ s, DCC.DCC.mkSt (DCC.DCC.slots s) (DCC.DCC.nextLocoReminder s) (DCC.DCC.globalSpeedsteps s)
      (DCC.DCC.loopStatus s) (DCC.DCC.defaultMomentumA s) (DCC.DCC.defaultMomentumD s) b (DCC.DCC.estopIsLocked s) (DCC.DCC.out s))) ;;; done in
    if p 0%nat =? hk "LINEAR" then linear true else if p 0%nat =? hk "POWER" then linear false else bad
  else if (params <? 2) || (params >? 3) then bad
  else on_dcc (DCC.DCC.setMomentum (p 0%nat) (p 1%nat) (if params =? 2 then p 1%nat else p 2%nat)).

(** <M> and <P>: a packet, parsed as hexadecimal. *)
Definition packet (main : bool) : M World bool :=
  let n := u8 (params - 1) in
  if n <? 1 then bad else
  if n >? 5 then bad else
  (emit (SchedulePacket main ((λ k, u8 (nthp pl (S k))) <$> seq 0 (Z.to_nat n)) 3) ;;; done).

(** The programming track: <W>, <V>, <B> and <R>. *)
Definition writeCV : M World bool :=
  stashed ring pl (
    if params =? 1 then prog CB_Wloco (DCCACK.DCCACK.setLocoId (p 0%nat))
    else if params =? 4 then prog CB_W4 (DCCACK.DCCACK.writeCVByte (p 0%nat) (u8 (p 1%nat)))
    else if ((params =? 2) || (params =? 3)) && (p 0%nat =? hk "CONSIST") then
      prog CB_Wconsist (DCCACK.DCCACK.setConsistId (p 1%nat) (p 2%nat =? hk "REVERSE"))
    else if params =? 2 then prog CB_W (DCCACK.DCCACK.writeCVByte (p 0%nat) (u8 (p 1%nat)))
    else bad).
Definition verifyCV : M World bool :=
  if params =? 2 then stashed ring pl (prog CB_Vbyte (DCCACK.DCCACK.verifyCVByte (p 0%nat) (u8 (p 1%nat))))
  else if params =? 3 then stashed ring pl (prog CB_Vbit (DCCACK.DCCACK.verifyCVBit (p 0%nat) (u8 (p 1%nat)) (tru (p 2%nat))))
  else bad.
Definition writeBit : M World bool :=
  if negb (params =? 3) && negb (params =? 5) then bad else
  stashed ring pl (prog CB_B (DCCACK.DCCACK.writeCVBit (p 0%nat) (u8 (p 1%nat)) (tru (p 2%nat)))).
Definition readCV : M World bool :=
  if params =? 1 then
    stashed ring pl (
      if p 0%nat =? hk "LOCOID" then prog CB_Rloco DCCACK.DCCACK.getLocoId
      else if p 0%nat =? hk "CONSIST" then prog CB_Rloco DCCACK.DCCACK.getConsistId
      else prog CB_Vbyte (DCCACK.DCCACK.verifyCVByte (p 0%nat) 0))
  else if params =? 3 then stashed ring pl (prog CB_R (DCCACK.DCCACK.readCV (p 0%nat)))
  else if params =? 0 then stashed ring pl (prog CB_Rloco DCCACK.DCCACK.getDriveawayLocoId)
  else bad.
(** <r>: a read on the main track, answered through Railcom. *)
Definition readCVMain : M World bool :=
  if negb (params =? 2) then bad else
  let! railcom := mget railcomActive in
  if negb railcom then bad else
  stashed ring pl (mmod (with_ackCallback CB_r) ;;; on_dcc (DCC.DCC.readCVByteMain (p 0%nat) (p 1%nat)) ;;; done).

(** ** Power *)

Definition setJoin (b : bool) : M World unit := on_tracks (λ _, TrackManager.TrackManager.setJoin b).
Definition trackPower (modes : Z) (mode : MotorDriver.MotorDriver.POWERMODE) : M World bool :=
  on_tracks (λ _, TrackManager.TrackManager.setTrackPower (track_env i) modes mode) ;;; done.
Definition oneTrack (mode : MotorDriver.MotorDriver.POWERMODE) : M World bool :=
  on_tracks (λ _, TrackManager.TrackManager.setOneTrackPower (track_env i) mode (p 0%nat - 65)) ;;; done.
Definition is_track : bool := (p 0%nat >=? hk "A") && (p 0%nat <=? hk "H").

Definition powerOn : M World bool :=
  let on modes := trackPower modes MotorDriver.MotorDriver.ON in
  if params >? 1 then bad else
  if params =? 0 then on TrackManager.TrackManager.TRACK_ALL else
  if p 0%nat =? hk "MAIN" then on MotorDriver.MotorDriver.TRACK_MODE_MAIN
  else if p 0%nat =? hk "JOIN" then
    setJoin true ;;; on (MotorDriver.MotorDriver.TRACK_MODE_MAIN .| MotorDriver.MotorDriver.TRACK_MODE_PROG)
  else if p 0%nat =? hk "PROG" then setJoin false ;;; on MotorDriver.MotorDriver.TRACK_MODE_PROG
  else if is_track then oneTrack MotorDriver.MotorDriver.ON
  else bad.
Definition powerOff : M World bool :=
  let off modes := setJoin false ;;; trackPower modes MotorDriver.MotorDriver.OFF in
  if params >? 1 then bad else
  if params =? 0 then off TrackManager.TrackManager.TRACK_ALL else
  if p 0%nat =? hk "MAIN" then off MotorDriver.MotorDriver.TRACK_MODE_MAIN
  else if p 0%nat =? hk "PROG" then
    setJoin false ;;;
    on_tracks (λ _, mmod (TrackManager.TrackManager.with_progTrackBoosted false)) ;;;
    trackPower MotorDriver.MotorDriver.TRACK_MODE_PROG MotorDriver.MotorDriver.OFF
  else if is_track then setJoin false ;;; oneTrack MotorDriver.MotorDriver.OFF
  else bad.

(** ** The rest *)

Definition estop : M World bool :=
  (if p 0%nat =? hk "P" then on_dcc (DCC.DCC.estopLock true)
   else if p 0%nat =? hk "R" then on_dcc (DCC.DCC.estopLock false)
   else if p 0%nat =? hk "Q" then
     let! locked := mget (λ w, DCC.DCC.estopIsLocked (dcc w)) in
     reply (if locked then "<!PAUSED>" else "<!RESUMED>") []
   else on_dcc DCC.DCC.estopAll) ;;; done.

Definition status : M World bool :=
  reply "<iDCC-EX V-%S / %S / %S G-%S>" [T VERSION; T ARDUINO_TYPE; T shieldName; T GITHUB_SHA] ;;;
  emit BroadcastPower ;;;
  on_layout Turnouts.Turnouts.printAll ;;;
  on_layout Sensors.Sensors.printAll ;;; done.

Definition eeprom_store : M World bool :=
  on_layout EEStore.EEStore.store_layout ;;;
  let! e := mget (λ w, Layout.Layout.store (layout w)) in
  reply "<e %d %d %d>" [I (Layout.Layout.nTurnouts e); I (Layout.Layout.nSensors e); I (Layout.Layout.nOutputs e)] ;;; done.

Definition cabs : M World bool :=
  let guess := Z.quot (freeMemory i) (sizeof_LocoSlot i) - 2 in
  let guess := if guess >? MAX_LOCOS then MAX_LOCOS else guess in
  reply "<# %d>" [I (if guess <? 0 then 0 else guess)] ;;; done.

Definition forget : M World bool :=
  if (params >? 1) || (p 0%nat <? 0) then bad else
  ((if p 0%nat =? 0 then on_dcc DCC.DCC.forgetAllLocos else on_dcc (DCC.DCC.forgetLoco (p 0%nat))) ;;; done).

Definition function : M World bool :=
  if negb (params =? 3) then bad else
  if p 1%nat =? hk "DCFREQ" then
    if (p 2%nat <? 0) || (p 2%nat >? 3) then bad else (on_dcc (DCC.DCC.setDCFreq (p 0%nat) (p 2%nat)) ;;; done)
  else on_dcc (DCC.DCC.setFn (p 0%nat) (p 1%nat) (p 2%nat =? 1)).

Definition consist : M World bool :=
  let! r := on_dcc (λ d, '(ok, msgs, t) ← DCCConsist.DCCConsist.parse (take (Z.to_nat params) pl) (DCC.DCC.slots d);
                         Some ((ok, msgs), DCC.DCC.with_slots t d)) in
  mfor r.2 (λ m, emit (Consists m)) ;;; mreturn (r.1 : bool).

(** The text at an offset of the command, as the parameters of a string give it. *)
Definition text_at (com : list Z) (offset : Z) : M World (list Z) :=
  mlift (if offset <? 0 then None else StringBuffer.c_string (drop (Z.to_nat offset) com)).

Definition lcd (com : list Z) : M World bool :=
  if params =? 0 then
    emit SetVirtualLCD ;;;
    reply ("<@ 0 0 " +:+ quoted ("DCC-EX v" +:+ VERSION) +:+ ">") [] ;;;
    reply ("<@ 0 1 " +:+ quoted "Lic GPLv3" +:+ ">") [] ;;; done
  else if (params =? 4) && (p 2%nat =? Split.Split.STRING_MARKER) then
    let! text := text_at com (p 3%nat) in
    emit (Lcd (u8 (p 0%nat)) (u8 (p 1%nat)) "%s" [B text]) ;;; done
  else bad.

(** The opcode switch: true when the command is complete. *)
Definition execute (opcode : Z) (com : list Z) : M World bool :=
  if negb ((0 <=? opcode) && (opcode <? 256)) then bad else
  match Ascii.ascii_of_N (Z.to_N opcode) with
  | "000"%char => done
  | "t"%char => throttle
  | "f"%char => parsef params p
  | "a"%char => accessory
  | "A"%char => if params =? 2 then on_dcc (DCC.DCC.setExtendedAccessory (p 0%nat) (p 1%nat) 3) else bad
  | "T"%char => parseT params p
  | "o"%char => neopixel
  | "z"%char => pin
  | "y"%char => parsey params p
  | "Z"%char => parseZ params p
  | "S"%char => parseS params p
  | "w"%char => if params =? 3 then on_dcc (DCC.DCC.writeCVByteMain (p 0%nat) (p 1%nat) (u8 (p 2%nat))) ;;; done else bad
  | "r"%char => readCVMain
  | "b"%char => if params =? 4 then on_dcc (DCC.DCC.writeCVBitMain (p 0%nat) (p 1%nat) (u8 (p 2%nat)) (tru (p 3%nat))) ;;; done else bad
  | "m"%char => momentum
  | "M"%char => packet true
  | "P"%char => packet false
  | "W"%char => writeCV
  | "V"%char => verifyCV
  | "B"%char => writeBit
  | "R"%char => readCV
  | "1"%char => powerOn
  | "0"%char => powerOff
  | "!"%char => estop
  | "c"%char => if params >? 0 then bad else on_tracks (λ _, TrackManager.TrackManager.reportObsoleteCurrent (track_env i)) ;;; done
  | "Q"%char => on_layout Sensors.Sensors.printAll ;;; done
  | "s"%char => status
  | "E"%char => eeprom_store
  | "e"%char => on_layout EEStore.EEStore.clear ;;; reply "<O>" [] ;;; done
  | " "%char => reply "" [] ;;; done
  | "C"%char => parseC params p
  | "D"%char => parseD params p
  | "="%char => on_tracks (λ _, TrackManager.TrackManager.parseEqualSign (track_env i) (take (Z.to_nat params) pl))
  | "#"%char => cabs
  | "-"%char => forget
  | "F"%char => function
  | "^"%char => consist
  | "+"%char =>
    if atCommandCallback && negb (bool_decide (is_Some ring)) then
      on_tracks (λ _, TrackManager.TrackManager.setPower_ (track_env i) MotorDriver.MotorDriver.OFF) ;;; emit (AtCommand com) ;;; done
    else bad
  | "J"%char => parseJ params p
  | "I"%char => parseI params p
  | "@"%char => lcd com
  | _ => bad
  end.
End opcodes.

(** ** One command *)

Definition filtered (f : option Filter) (when_opcode : bool) (x : Z * Z * list Z) : M World (Z * Z * list Z) :=
  let '(opcode, params, pl) := x in
  match f with
  | Some f => if when_opcode && (opcode =? 0) then mreturn x else f opcode params pl
  | None => mreturn x
  end.

(** [while (com[0]=='<' || com[0]==' ') com++] *)
Fixpoint leading (com : list Z) : nat :=
  match com with c :: l => if (c =? 60) || (c =? 32) then S (leading l) else O | [] => O end.

(** The command is what [com] starts with; the result is what is left in the
    buffer. *)
Definition parseOne (ring : option Z) (com : list Z) : M World (list Z) :=
  let n := leading com in
  let! opcode := mlift (com !! n) in
  let! '(splitnum, pl, com') := mlift (Split.Split.splitValues (drop n com) ((opcode =? 77) || (opcode =? 80))) in
  let! ok :=
    if (splitnum <? 0) || (splitnum >=? Split.Split.MAX_COMMAND_PARAMS) then bad else
    (let! x := filtered filterCallback false (opcode, splitnum, pl) in
     let! x := filtered filterRMFTCallback true x in
     let! '(opcode, params, pl) := filtered filterCamParserCallback true x in
     execute ring pl params opcode com') in
  (when negb ok do reply "<X>" []) ;;;
  mreturn (take n com ++ com').

(** ** The commands of a buffer *)

Fixpoint scan (fuel : nat) (ring : option Z) (com : list Z) (c : nat) (cForLater : option nat) (found : bool) : M World (list Z) :=
  match fuel with
  | O => Prelude.mfail
  | S fuel =>
    let run_later (later : option nat) :=
      match later with
      | Some k => let! rest := parseOne ring (drop k com) in mreturn (take k com ++ rest)
      | None => mreturn com
      end in
    let! ch := mlift (com !! c) in
    if ch =? 0 then run_later cForLater else
    let cForLater := if found then Some c else cForLater in
    if ch =? 60 then
      let! com := run_later cForLater in
      scan fuel ring com (S c) cForLater true
    else scan fuel ring com (S c) cForLater false
  end.
Definition parse (ring : option Z) (com : list Z) : M World (list Z) :=
  let! first := mlift (com !! 0%nat) in
  scan (length com) ring com 0 None (negb (first =? 60)).

End commands.
End Commands.
