(* ===== verification/CommandsProps.v ===== *)
(** The command parser never fails, and the lock that a wrong <W> command
    leaves on the programming track. *)

From S2P Require Import Prelude Keywords Chain LocoSlot ConsistProps DCCConsist DCC DCCSafe MotorDriver TrackManager TrackProps DCCACK Layout Outputs Turnouts Sensors EEStore Turntables Stash Format Split SplitProps Station StationProps Commands.
From stdpp Require Import strings.
From Stdlib Require Import Ascii.

#[local] Open Scope Z_scope.
#[local] Open Scope c_scope.

Module CommandsProps.
Import Keywords Station StationProps Commands.

Section commands.
Context `{!Config} `{!MotorDriver.MotorDriver.Board} `{!Layout.Layout.Machine} `{!Devices} `{!Build} `{!Filters} (Hmax : MAX_LOCOS < 65536).
Context (n : Z) (Hn : 0 <= n) (i : Inputs).

(** ** Calls of the components *)

Lemma safe_reply format args : safe n (reply format args).
Proof. apply safe_emit. Qed.
Lemma safe_bad : safe n bad.
Proof. apply safe_ret. Qed.
Lemma safe_done : safe n Commands.done.
Proof. apply safe_ret. Qed.
Lemma safe_ok_if m : safe n m → safe n (ok_if m).
Proof. intros Hm. unfold ok_if. apply safe_bind; [done|]. intros []; auto using safe_bad, safe_done with safe. Qed.

Lemma safe_setFn cab fn b : safe n (on_dcc (DCC.DCC.setFn cab fn b)).
Proof using All. apply safe_dcc_steps. intros s Hs. by apply DCCSafe.DCCSafe.setFn_wp. Qed.
Lemma safe_setThrottle cab sp d : safe n (on_dcc (DCC.DCC.setThrottle (now i) cab sp d)).
Proof using All. apply safe_dcc_steps. intros s Hs. by apply DCCSafe.DCCSafe.setThrottle_wp. Qed.
Lemma safe_extended a v r : safe n (on_dcc (DCC.DCC.setExtendedAccessory a v r)).
Proof using All. apply safe_dcc_steps. intros s Hs. by apply DCCSafe.DCCSafe.setExtendedAccessory_wp. Qed.
Lemma safe_setTime m sp c : safe n (on_dcc (DCC.DCC.setTime m sp c)).
Proof using All. apply safe_dcc_steps. intros s Hs. by apply DCCSafe.DCCSafe.setTime_wp. Qed.
Lemma safe_setMomentum l a d : safe n (on_dcc (DCC.DCC.setMomentum l a d)).
Proof using All. apply safe_dcc_steps. intros s Hs. by apply DCCSafe.DCCSafe.setMomentum_wp. Qed.
Lemma safe_setDCFreq cab f : safe n (on_dcc (DCC.DCC.setDCFreq cab f)).
Proof using All. apply safe_dcc_steps. intros s Hs. by apply DCCSafe.DCCSafe.setDCFreq_wp. Qed.
Lemma safe_forget cab : safe n (on_dcc (DCC.DCC.forgetLoco cab)).
Proof using All. apply safe_dcc_steps. intros s Hs. by apply DCCSafe.DCCSafe.forgetLoco_wp. Qed.
Lemma safe_forgetAll : safe n (on_dcc DCC.DCC.forgetAllLocos).
Proof using All. apply safe_dcc_steps. intros s Hs. by apply DCCSafe.DCCSafe.forgetAllLocos_wp. Qed.
Lemma safe_estopAll : safe n (on_dcc DCC.DCC.estopAll).
Proof using All. apply safe_dcc_keeps. intros s Hs. by apply DCCSafe.DCCSafe.estopAll_wp. Qed.
Lemma safe_estopLock b : safe n (on_dcc (DCC.DCC.estopLock b)).
Proof using All.
  apply safe_on_dcc. intros s Hs. eapply wp_mono; [by apply DCCSafe.DCCSafe.estopLock_wp|]. by intros ? s' [? _].
Qed.
Lemma safe_dcc_mod f : (∀ s, DCC.DCC.slots (f s) = DCC.DCC.slots s ∧ DCC.DCC.nextLocoReminder (f s) = DCC.DCC.nextLocoReminder s) →
  safe n (on_dcc (mmod f)).
Proof using All.
  intros Hf. apply safe_on_dcc. intros s Hs. apply wp_mod. unfold DCCSafe.DCCSafe.inv. destruct (Hf s) as [-> ->]. done.
Qed.
Lemma cv_main cab l r s : DCCSafe.DCCSafe.inv s → length l = 3%nat →
  wp (DCC.DCC.emit (DCC.DCC.Queue (DCCQueueSpec.DCCQueueSpec.OpPacket (DCC.DCC.address cab ++ l)
    (Z.of_nat (length (DCC.DCC.address cab ++ l))) r (u16 cab)))) (λ _ s', DCCSafe.DCCSafe.keeps s s') s.
Proof using All. intros Hs Hl. apply DCCSafe.DCCSafe.wp_packet; [done|done|by apply DCCSafe.DCCSafe.cv_main_ok|done]. Qed.
Lemma safe_writeCV a b c : safe n (on_dcc (DCC.DCC.writeCVByteMain a b c)).
Proof using All. apply safe_dcc_keeps. intros s Hs. by apply cv_main. Qed.
Lemma safe_writeBit a b c d : safe n (on_dcc (DCC.DCC.writeCVBitMain a b c d)).
Proof using All. apply safe_dcc_keeps. intros s Hs. by apply cv_main. Qed.
Lemma safe_readCV a b : safe n (on_dcc (DCC.DCC.readCVByteMain a b)).
Proof using All.
  apply safe_dcc_steps. intros s Hs. unfold DCC.DCC.readCVByteMain. apply wp_bind.
  eapply wp_mono; [by apply cv_main|]. intros ? s1 K1. cbn beta in K1. pose proof (DCCSafe.DCCSafe.keeps_inv _ _ K1) as I1.
  apply DCCSafe.DCCSafe.wp_emit; [done|done|]. intros s2 K2. apply (DCCSafe.DCCSafe.keeps_trans _ _ _ K1 K2).
Qed.

(** A look at the slots, which changes nothing. *)
Lemma on_dcc_look {A} (m : M DCC.DCC.St A) (Q : A → World → Prop) w :
  wp m (λ a s', s' = dcc w ∧ Q a w) (dcc w) → wp (on_dcc m) Q w.
Proof.
  intros Hm. unfold on_dcc, run, wp in *. destruct (m (dcc w)) as [[a s]|]; [|done]. destruct Hm as [-> HQ]. simpl.
  rewrite drop_all. simpl. by destruct w.
Qed.
Lemma safe_report_cab cab (m : M World bool) : safe n m →
  safe n (let! slot := on_dcc (DCC.DCC.slot_of cab false) in
          match slot with Some x => on_dcc (DCC.DCC.broadcastLoco x) ;;; Commands.done | None => m end).
Proof using All.
  intros Hm w Hw. apply wp_bind, on_dcc_look. apply DCCSafe.DCCSafe.slot_of_wp; [done|apply Hw|]. intros [x|] s' _ Hs Hx;
    rewrite (Hs eq_refl) in *; (split; [done|]); [|by apply Hm].
  apply wp_bind. apply (wp_mono _ (λ _ w', ok n w w')); [|intros _ w' Hok; by apply wp_ret].
  pose proof (wp_component n dcc with_dcc DCC.DCC.out deliver_dcc (DCC.DCC.broadcastLoco x) (λ _ s', DCCSafe.DCCSafe.keeps (dcc w) s') w) as Hr.
  eapply wp_mono; [apply Hr|by intros a w' [? _]].
  - apply DCCSafe.DCCSafe.broadcastLoco_wp; [apply Hw|done].
  - intros _ s1 K1. split; [|done]. split; [by eapply DCCSafe.DCCSafe.keeps_inv|apply Hw].
  - intros e. by apply safe_deliver_dcc.
Qed.

Lemma safe_setClockTime a b : safe n (setClockTime a b).
Proof using All.
  unfold setClockTime. cbv zeta. apply safe_bind; [apply safe_get|]. intros last. apply safe_if; [apply safe_ret|].
  apply safe_bind; [apply safe_setTime|intros]. auto 10 with safe.
Qed.
Lemma safe_setJoin b : safe n (setJoin b).
Proof. apply safe_on_tracks. intros t s. apply TrackProps.TrackProps.good_setJoin. Qed.
Lemma safe_trackPower m p : TrackProps.TrackProps.selects_used m = true → safe n (trackPower i m p).
Proof.
  intros Hm. unfold trackPower. apply safe_bind; [|intros; apply safe_ret]. apply safe_on_tracks. intros t s Hs.
  by apply TrackProps.TrackProps.good_setTrackPower.
Qed.
Lemma safe_boost b : safe n (on_tracks (λ _, mmod (TrackManager.TrackManager.with_progTrackBoosted b))).
Proof.
  apply safe_on_tracks. intros t s Hs. apply wp_mod. eapply TrackProps.TrackProps.good_same; [|exact Hs]. by apply TrackProps.TrackProps.same_other.
Qed.

(** ** The handlers *)

Ltac safe1 :=
  lazymatch goal with
  | |- safe _ (mthen _ _) => apply safe_bind; [|intros]
  | |- safe _ (mreturn _) => apply safe_ret
  | |- safe _ bad => apply safe_bad
  | |- safe _ Commands.done => apply safe_done
  | |- safe _ (ok_if _) => apply safe_ok_if
  | |- safe _ (reply _ _) => apply safe_reply
  | |- safe _ (emit _) => apply safe_emit
  | |- safe _ (mget _) => apply safe_get
  | |- safe _ (mmod _) => apply safe_mod; by intros
  | |- safe _ (on_stashes _) => apply safe_mod; by intros
  | |- safe _ (on_layout _) => apply safe_on_layout; [exact Hmax|]
  | |- safe _ (on_turntables _) => apply safe_on_turntables; [exact Hmax|]
  | |- safe _ (mfor _ _) => apply safe_mfor; intros
  | |- safe _ (let x := _ in _) => cbv zeta
  | |- safe _ (if ?b then _ else _) => destruct b
  | |- safe _ (match ?x with _ => _ end) => destruct x
  end.
Ltac safe_tac := repeat safe1.

Lemma safe_T params p : safe n (parseT params p).
Proof using All.
  unfold parseT. safe_tac.
  - apply total_printAll.
  - apply total_remove.
  - apply total_setClosed.
  - apply total_setClosed.
  - apply total_print.
  - apply total_createServo.
  - apply total_createVpin.
  - apply total_createDCC.
  - apply total_createDCC.
  - apply total_createDCC.
  - apply total_createServo.
Qed.
Lemma safe_S params p : safe n (parseS params p).
Proof using All. unfold parseS. safe_tac; [apply total_create_sensor|apply total_remove_sensor|apply total_dump]. Qed.

(** An output that is there is there when it is activated. *)
Lemma safe_activate id v (k : M World bool) : safe n k →
  safe n (let! o := mget (λ w, Outputs.Outputs.get_output id (layout w)) in
          match o with None => bad | Some _ => on_layout (Outputs.Outputs.activate id v) ;;; k end).
Proof using All.
  intros Hk w Hw. apply wp_bind, wp_get. destruct (Outputs.Outputs.get_output id (layout w)) as [o|] eqn:E; [|by apply safe_bad].
  apply wp_bind. apply (wp_mono _ (λ _ w', ok n w w')).
  - pose proof (wp_component n layout with_layout Layout.Layout.out deliver_layout (Outputs.Outputs.activate id v) (λ _ _, True) w) as Hr.
    eapply wp_mono; [apply Hr|by intros a w' [? _]].
    + apply activate_wp. by exists o.
    + intros _ s _. by split.
    + intros e. destruct e; simpl; auto with safe. by apply safe_accessory.
  - intros _ w1 Hok. cbn beta in Hok. eapply wp_mono; [apply Hk, Hok|]. intros b w2 Hok'. by eapply ok_trans.
Qed.
Lemma safe_Z params p : safe n (parseZ params p).
Proof using All.
  unfold parseZ. cbv zeta. apply safe_if; [apply safe_activate; safe_tac|]. safe_tac; [apply total_create_output|apply total_remove_output].
Qed.
Lemma safe_y params p : safe n (parsey params p).
Proof using All. unfold parsey. cbv zeta. apply safe_if; [apply safe_bad|]. safe_tac. Qed.

Lemma safe_funcmap fuel : ∀ cab v a b, safe n (funcmap fuel cab v a b).
Proof using All.
  induction fuel as [|fuel IH]; intros cab v a b; [apply safe_ret|]. cbn [funcmap]. safe_tac; [apply safe_setFn|apply IH].
Qed.
Lemma safe_f params p : safe n (parsef params p).
Proof using All. unfold parsef, funcs. safe_tac; apply safe_funcmap. Qed.

Lemma safe_quiet_prog {A} (m : M DCCACK.DCCACK.St A) : quiet_op m → safe n (on_prog i m).
Proof. apply safe_quiet. Qed.
Lemma safe_C params p : safe n (parseC i params p).
Proof using All.
  unfold parseC. safe_tac; try (apply safe_quiet; by intros s); try apply safe_boost; by apply safe_dcc_mod.
Qed.
Lemma safe_D params p : safe n (parseD i params p).
Proof using All. unfold parseD. safe_tac. apply safe_C. Qed.
Lemma safe_create_turntable id home m : total m → safe n (create_turntable id home m).
Proof using All. intros Hm. unfold create_turntable, turntable. safe_tac; [done|apply total_addPosition]. Qed.
Lemma safe_I params p : safe n (parseI params p).
Proof using All.
  unfold parseI, turntable. safe_tac; try apply safe_create_turntable; first
    [apply total_print_turntables|apply total_setPosition|apply total_createDCC_turntable|apply total_createEXTT|apply total_addPosition].
Qed.
Lemma safe_J params p : safe n (parseJ i params p).
Proof using All.
  unfold parseJ, parseJM, list_stash, list_turnouts, list_turntables, list_positions, turntable. safe_tac; try apply safe_setClockTime;
    apply safe_on_tracks; intros t s Hs; first [by apply TrackProps.TrackProps.good_report|by apply TrackProps.TrackProps.good_reportCurrentLCD].
Qed.

(** *** The opcodes *)

Section opcodes.
Context (ring : option Z) (pl : list Z) (params : Z).

Lemma safe_throttle : safe n (throttle i pl params).
Proof using All.
  unfold throttle. cbv zeta. apply safe_if; [apply safe_if; [apply safe_bad|apply safe_report_cab; safe_tac]|].
  safe_tac; apply safe_setThrottle.
Qed.
Lemma safe_accessory_command : safe n (accessory pl params).
Proof using All. unfold accessory. safe_tac; by apply safe_accessory. Qed.
Lemma safe_neopixel : safe n (neopixel pl params).
Proof using All. unfold neopixel. safe_tac. Qed.
Lemma safe_pin : safe n (pin pl params).
Proof using All. unfold pin. safe_tac. Qed.
Lemma safe_momentum : safe n (momentum pl params).
Proof using All. unfold momentum. safe_tac; try (by apply safe_dcc_mod); apply safe_setMomentum. Qed.
Lemma safe_packet b : safe n (packet pl params b).
Proof using All. unfold packet. safe_tac. Qed.

(** A command that waits for the programming track, where none may wait. *)
Lemma safe_stashed m : (∀ w, WInv n w → wp m (λ _ w', WInv n w') w) → safe n (stashed ring pl m).
Proof.
  intros Hm w Hw. unfold stashed, stashCallback. apply wp_bind, wp_bind, wp_get. destruct (stashBusy w) eqn:Eb.
  - apply wp_ret. by apply safe_bad.
  - do 3 apply wp_bind, wp_mod. apply wp_ret. eapply wp_mono; [by apply Hm|]. intros b w' Hw'. split; [done|].
    intros [? _]. congruence.
Qed.
(** The reply to a command when the track is taken. *)
Lemma stashed_busy m w : stashBusy w = true → stashed ring pl m w = Some (false, w).
Proof. intros Hw. unfold stashed, stashCallback, mthen, mget. simpl. by rewrite Hw. Qed.
Lemma prog_wp c m w : prog_op m → WInv n w → wp (Commands.prog i c m) (λ _ w', WInv n w') w.
Proof. intros Hm Hw. apply wp_bind. eapply wp_mono; [by apply programming_wp|]. intros [] w' Hw'. by apply wp_ret. Qed.

Lemma prog_setLocoId id : prog_op (DCCACK.DCCACK.setLocoId id).
Proof. unfold DCCACK.DCCACK.setLocoId. repeat apply prog_if; first [apply prog_callback|apply prog_word]. Qed.
Lemma prog_setConsistId id b : prog_op (DCCACK.DCCACK.setConsistId id b).
Proof. unfold DCCACK.DCCACK.setConsistId. apply prog_if; [apply prog_callback|apply prog_word]. Qed.
Lemma prog_bit (a : bool) (m : M DCCACK.DCCACK.St unit) : prog_op m → prog_op (if a then DCCACK.DCCACK.emit (DCCACK.DCCACK.Callback (-1)) else m).
Proof. intros Hm. apply prog_if; [apply prog_callback|done]. Qed.

Ltac prog_tac :=
  intros ? ?;
  lazymatch goal with
  | |- wp bad _ _ => apply wp_ret; assumption
  | |- wp (Commands.prog _ _ ?m) _ _ => apply prog_wp; [|assumption];
    lazymatch m with
    | DCCACK.DCCACK.setLocoId _ => apply prog_setLocoId
    | DCCACK.DCCACK.setConsistId _ _ => apply prog_setConsistId
    | ?f _ _ _ => unfold f; apply prog_bit, prog_Setup
    | ?f _ _ => unfold f; apply prog_Setup
    | ?f _ => unfold f; apply prog_Setup
    | ?f => unfold f; apply prog_Setup
    end
  end.
Lemma safe_writeCV_prog : safe n (writeCV i ring pl params).
Proof.
  unfold writeCV. apply safe_stashed. intros w Hw. destruct (params =? 1); [revert w Hw; prog_tac|].
  destruct (params =? 4); [revert w Hw; prog_tac|]. destruct (_ && _); [revert w Hw; prog_tac|].
  destruct (params =? 2); revert w Hw; prog_tac.
Qed.
Lemma safe_verifyCV : safe n (verifyCV i ring pl params).
Proof. unfold verifyCV. apply safe_if; [|apply safe_if; [|apply safe_bad]]; apply safe_stashed; prog_tac. Qed.
Lemma safe_writeBit_prog : safe n (writeBit i ring pl params).
Proof. unfold writeBit. apply safe_if; [apply safe_bad|]. apply safe_stashed. prog_tac. Qed.
Lemma safe_readCV_prog : safe n (readCV i ring pl params).
Proof.
  unfold readCV. apply safe_if; [|apply safe_if; [|apply safe_if; [|apply safe_bad]]]; apply safe_stashed; [|prog_tac|prog_tac].
  intros w. destruct (_ =? hk "LOCOID"); [revert w; prog_tac|]. destruct (_ =? _); revert w; prog_tac.
Qed.
Lemma safe_readCVMain : safe n (readCVMain ring pl params).
Proof using All.
  unfold readCVMain. apply safe_if; [apply safe_bad|]. apply safe_bind; [apply safe_get|]. intros b. apply safe_if; [apply safe_bad|].
  apply safe_stashed. intros w Hw. apply wp_bind, wp_mod, wp_bind.
  eapply wp_mono; [by apply safe_readCV|]. intros [] w' [Hw' _]. by apply wp_ret.
Qed.

Lemma safe_oneTrack p : 65 <= nthp pl 0 < 73 → safe n (oneTrack i pl p).
Proof using All.
  intros Hp. unfold oneTrack. apply safe_bind; [|intros; apply safe_ret]. apply safe_on_tracks. intros t s Hs.
  apply TrackProps.TrackProps.good_setOneTrackPower; [done|lia].
Qed.
Lemma safe_track (m : M World bool) : (65 <= nthp pl 0 < 73 → safe n m) → safe n (if is_track pl then m else bad).
Proof.
  intros Hm. destruct (is_track pl) eqn:E; [|apply safe_bad]. apply Hm. revert E. unfold is_track.
  change (hk "A") with 65. change (hk "H") with 72. lia.
Qed.
Ltac power1 :=
  lazymatch goal with
  | |- safe _ bad => apply safe_bad
  | |- safe _ (trackPower _ _ _) => by apply safe_trackPower
  | |- safe _ (oneTrack _ _ _) => by apply safe_oneTrack
  | |- safe _ (setJoin _) => apply safe_setJoin
  | |- safe _ (on_tracks _) => apply safe_boost
  | |- safe _ (mthen _ _) => apply safe_bind; [|intros _]
  | |- safe _ (if is_track _ then _ else _) => apply safe_track; intros Ht
  | |- safe _ (if _ then _ else _) => apply safe_if
  end.
Lemma safe_powerOn : safe n (powerOn i pl params).
Proof using All. unfold powerOn. cbv zeta. repeat power1. Qed.
Lemma safe_powerOff : safe n (powerOff i pl params).
Proof using All. unfold powerOff. cbv zeta. repeat power1. Qed.
Lemma safe_estop : safe n (estop pl).
Proof using All. unfold estop. safe_tac; first [apply safe_estopLock|apply safe_estopAll]. Qed.
Lemma safe_status : safe n status.
Proof using All. unfold status. safe_tac; [apply total_printAll|apply total_print_sensors]. Qed.
Lemma safe_eeprom : safe n eeprom_store.
Proof using All. unfold eeprom_store. safe_tac. apply total_store_layout. Qed.
Lemma safe_cabs : safe n (Commands.cabs i).
Proof using All. unfold Commands.cabs. safe_tac. Qed.
Lemma safe_forget_command : safe n (forget pl params).
Proof using All. unfold forget. safe_tac; [apply safe_forgetAll|apply safe_forget]. Qed.
Lemma safe_function : safe n (function pl params).
Proof using All. unfold function. safe_tac; [apply safe_setDCFreq|apply safe_setFn]. Qed.

(** A consist, when there are slots for its locos. *)
Definition consist_ok (w : World) : Prop :=
  DCCConsist.DCCConsist.parse (take (Z.to_nat params) pl) (DCC.DCC.slots (dcc w)) ≠ None.
Lemma consist_wp w : WInv n w → Forall is_i16 pl → consist_ok w → wp (consist pl params) (λ _ w', ok n w w') w.
Proof using All.
  intros Hw Hp Hs. unfold consist_ok in Hs. unfold consist. apply wp_bind. apply (wp_mono _ (λ _ w', ok n w w')).
  - pose proof (wp_component n dcc with_dcc DCC.DCC.out deliver_dcc (λ d, '(ok, msgs, t) ← DCCConsist.DCCConsist.parse (take (Z.to_nat params) pl) (DCC.DCC.slots d);
                         Some ((ok, msgs), DCC.DCC.with_slots t d)) (λ _ s', DCCSafe.DCCSafe.inv s') w) as Hr.
    eapply wp_mono; [apply Hr|by intros a w' [? _]].
    + destruct Hw as [[Hg Hnext] _].
      pose proof (ConsistProps.ConsistProps.parse_fine Hmax (take (Z.to_nat params) pl) (DCC.DCC.slots (dcc w)) Hg) as Hf.
      unfold wp. destruct (DCCConsist.DCCConsist.parse _ _) as [[[b l] t]|]; [|done]. simpl.
      destruct Hf as [Hg' Hdom]; [by apply Forall_take|]. split; [done|]. intros x Hx. by apply Hdom, Hnext.
    + intros _ s1 K1. split; [|done]. split; [done|apply Hw].
    + intros e. by apply safe_deliver_dcc.
  - intros r w1 Hok. cbn beta in Hok. apply wp_bind. eapply wp_mono; [apply (safe_mfor n); [intros; apply safe_emit|apply Hok]|].
    intros [] w2 Hok'. apply wp_ret. by eapply ok_trans.
Qed.

(** What a command must not do: = with AUTO or INV on a track that is not there,
    ^ for a loco when there is no slot for it, and @ with the mark of a string as
    a number and an offset beyond its text. *)
Definition fit (opcode : Z) (com : list Z) (w : World) : Prop :=
  (opcode = 61 → TrackProps.TrackProps.equal_ok n (take (Z.to_nat params) pl)) ∧
  (opcode = 94 → consist_ok w) ∧
  (opcode = 64 → params = 4 → nthp pl 2 = Split.Split.STRING_MARKER →
   0 <= nthp pl 3 ∧ is_Some (StringBuffer.c_string (drop (Z.to_nat (nthp pl 3)) com))).

Lemma lcd_wp com w : WInv n w → fit 64 com w → wp (lcd pl params com) (λ _ w', ok n w w') w.
Proof using All.
  intros Hw (_ & _ & Hc). unfold lcd. destruct (params =? 0); [apply (safe_bind n); [apply safe_emit|intros; safe_tac|done]|].
  destruct (_ && _) eqn:E; [|by apply safe_bad]. apply wp_bind. unfold text_at. destruct (nthp pl 3 <? 0) eqn:E3; [lia|].
  destruct Hc as [_ [text Ht]]; [done|lia|lia|]. unfold wp at 1, mlift. rewrite Ht. simpl.
  apply (safe_bind n); [apply safe_emit|intros; apply safe_done|done].
Qed.
Lemma safe_equal : TrackProps.TrackProps.equal_ok n (take (Z.to_nat params) pl) →
  safe n (on_tracks (λ _, TrackManager.TrackManager.parseEqualSign (track_env i) (take (Z.to_nat params) pl))).
Proof using All. intros Hp. apply safe_on_tracks. intros t s Hs. by apply TrackProps.TrackProps.good_parseEqualSign. Qed.
Lemma safe_current : safe n (on_tracks (λ _, TrackManager.TrackManager.reportObsoleteCurrent (track_env i))).
Proof using All.
  apply safe_on_tracks. intros t s Hs. unfold TrackManager.TrackManager.reportObsoleteCurrent.
  apply wp_bind, TrackProps.TrackProps.wp_alive_driver; [apply (TrackProps.TrackProps.good_alive n); [done|lia]|]. intros d _.
  by apply TrackProps.TrackProps.good_emit.
Qed.
Lemma safe_power_off : safe n (on_tracks (λ _, TrackManager.TrackManager.setPower_ (track_env i) MotorDriver.MotorDriver.OFF)).
Proof using All.
  apply safe_on_tracks. intros t s Hs. unfold TrackManager.TrackManager.setPower_. apply wp_bind.
  eapply wp_mono; [by apply TrackProps.TrackProps.good_setTrackPower|]. intros [] s1 Hs1. by apply TrackProps.TrackProps.good_setTrackPower.
Qed.

Lemma by_safe m w : WInv n w → safe n m → wp m (λ (_ : bool) w', ok n w w') w.
Proof. intros Hw Hm. by apply Hm. Qed.
Ltac command1 :=
  lazymatch goal with
  | |- safe _ (throttle _ _ _) => apply safe_throttle
  | |- safe _ (accessory _ _) => apply safe_accessory_command
  | |- safe _ (neopixel _ _) => apply safe_neopixel
  | |- safe _ (pin _ _) => apply safe_pin
  | |- safe _ (momentum _ _) => apply safe_momentum
  | |- safe _ (packet _ _ _) => apply safe_packet
  | |- safe _ (writeCV _ _ _ _) => apply safe_writeCV_prog
  | |- safe _ (verifyCV _ _ _ _) => apply safe_verifyCV
  | |- safe _ (writeBit _ _ _ _) => apply safe_writeBit_prog
  | |- safe _ (readCV _ _ _ _) => apply safe_readCV_prog
  | |- safe _ (readCVMain _ _ _) => apply safe_readCVMain
  | |- safe _ (powerOn _ _ _) => apply safe_powerOn
  | |- safe _ (powerOff _ _ _) => apply safe_powerOff
  | |- safe _ (estop _) => apply safe_estop
  | |- safe _ status => apply safe_status
  | |- safe _ eeprom_store => apply safe_eeprom
  | |- safe _ (Commands.cabs _) => apply safe_cabs
  | |- safe _ (forget _ _) => apply safe_forget_command
  | |- safe _ (function _ _) => apply safe_function
  | |- safe _ (parseT _ _) => apply safe_T
  | |- safe _ (parseS _ _) => apply safe_S
  | |- safe _ (parseZ _ _) => apply safe_Z
  | |- safe _ (parsey _ _) => apply safe_y
  | |- safe _ (parsef _ _) => apply safe_f
  | |- safe _ (parseC _ _ _) => apply safe_C
  | |- safe _ (parseD _ _ _) => apply safe_D
  | |- safe _ (parseJ _ _ _) => apply safe_J
  | |- safe _ (parseI _ _) => apply safe_I
  | |- safe _ (on_dcc (DCC.DCC.setExtendedAccessory _ _ _)) => apply safe_extended
  | |- safe _ (on_dcc (DCC.DCC.writeCVByteMain _ _ _)) => apply safe_writeCV
  | |- safe _ (on_dcc (DCC.DCC.writeCVBitMain _ _ _ _)) => apply safe_writeBit
  | |- total Sensors.Sensors.printAll => apply total_print_sensors
  | |- total EEStore.EEStore.clear => apply total_clear
  | |- safe _ (on_tracks (λ _, TrackManager.TrackManager.reportObsoleteCurrent _)) => apply safe_current
  | |- safe _ (on_tracks (λ _, TrackManager.TrackManager.setPower_ _ _)) => apply safe_power_off
  | _ => safe1
  end.

Lemma execute_wp opcode com w : WInv n w → Forall is_i16 pl → fit opcode com w → wp (execute i ring pl params opcode com) (λ _ w', ok n w w') w.
Proof using All.
  intros Hw Hp Hf. unfold execute. destruct (negb _) eqn:E; [by apply safe_bad|].
  assert (opcode = Z.of_N (N_of_ascii (ascii_of_N (Z.to_N opcode)))) as Ho by (rewrite N_ascii_embedding; lia).
  destruct (ascii_of_N (Z.to_N opcode)) as [[] [] [] [] [] [] [] []]; try (by apply safe_bad);
    lazymatch goal with
    | |- wp (consist _ _) _ _ => apply consist_wp; [done|done|]; by apply Hf
    | |- wp (lcd _ _ _) _ _ => apply lcd_wp; [done|]; by rewrite Ho in Hf
    | |- wp (on_tracks (λ _, TrackManager.TrackManager.parseEqualSign _ _)) _ _ => apply safe_equal; [by apply Hf|done]
    | |- _ => apply by_safe; [exact Hw|]; clear Hw Hp Hf Ho E; repeat command1
    end.
Qed.
End opcodes.

(** ** One command of a buffer *)

(** The command in [com], and what splitValues makes of it: no string as the
    tenth parameter, and nothing that [fit] excludes. *)
Definition accepts (com : list Z) (w : World) : Prop :=
  ∃ opcode, com !! leading com = Some opcode ∧
  match Split.Split.splitValues (drop (leading com) com) ((opcode =? 77) || (opcode =? 80)) with
  | None => False
  | Some (k, pl, com') => 0 <= k < 10 → fit pl k opcode com' w
  end.

Definition unfiltered : Prop := filterCallback = None ∧ filterRMFTCallback = None ∧ filterCamParserCallback = None.

Lemma parseOne_wp ring com w : unfiltered → WInv n w → accepts com w → wp (parseOne i ring com) (λ _ w', ok n w w') w.
Proof using All.
  intros (F1 & F2 & F3) Hw (opcode & Ho & Ha). unfold parseOne. apply wp_bind. unfold wp at 1, mlift. rewrite Ho. simpl.
  apply wp_bind. unfold wp at 1, mlift.
  destruct (Split.Split.splitValues _ _) as [[[k pl] com']|] eqn:Es; [|done]. simpl. apply wp_bind. apply (wp_mono _ (λ _ w', ok n w w')).
  - destruct ((k <? 0) || _) eqn:Ek; [by apply safe_bad|]. unfold filtered. rewrite F1, F2, F3. do 3 apply wp_bind, wp_ret.
    change Split.Split.MAX_COMMAND_PARAMS with 10 in Ek. apply execute_wp; [done|by eapply SplitProps.SplitProps.split_int16|apply Ha; lia].
  - intros b w1 Hok. apply (wp_mono _ (λ _ w', ok n w w')); [|done].
    apply wp_bind. eapply wp_mono; [apply (safe_if n (negb b)); [apply safe_reply|apply safe_ret|apply Hok]|].
    intros [] w2 Hok2. apply wp_ret. by eapply ok_trans.
Qed.

End commands.

Section lockout.
Context `{!Config} `{!MotorDriver.MotorDriver.Board} `{!Layout.Layout.Machine} `{!Devices} `{!Build} `{!Filters} (Hmax : MAX_LOCOS < 65536).
Context (n : Z) (Hn : 0 <= n).

(** ** Programming commands, while a command is stashed *)

(** A command of the opcode that the parser stashes: <W> whatever its parameters,
    <V>, <B> and <R> with a number of parameters that they take. *)
Definition programming_command (opcode params : Z) : bool :=
  (opcode =? 87) || (opcode =? 86) && ((params =? 2) || (params =? 3)) || (opcode =? 66) && ((params =? 3) || (params =? 5))
  || (opcode =? 82) && ((params =? 0) || (params =? 1) || (params =? 3)).
(** A <W> that has no meaning. *)
Definition wrong_write (params p0 : Z) : bool :=
  negb ((params =? 1) || (params =? 2) || (params =? 4) || (params =? 3) && (p0 =? hk "CONSIST")).

Lemma wrong_write_stashes j ring pl params com w : wrong_write params (nthp pl 0) = true → stashBusy w = false →
  execute j ring pl params 87 com w = Some (false, with_stashP pl (with_stashTarget ring (with_stashBusy true w))).
Proof.
  intros Hx Hw. change (execute j ring pl params 87 com) with (writeCV j ring pl params).
  unfold writeCV, stashed, stashCallback, mthen, mget. simpl. rewrite Hw. simpl. unfold wrong_write in Hx.
  destruct (params =? 1), (params =? 2) eqn:E2, (params =? 4), (params =? 3) eqn:E3; try done; try lia; by destruct (nthp pl 0 =? hk "CONSIST").
Qed.
Lemma busy_refused j ring pl params opcode com w : programming_command opcode params = true → stashBusy w = true →
  execute j ring pl params opcode com w = Some (false, w).
Proof.
  intros Hx Hw. unfold programming_command in Hx.
  assert (opcode = 87 ∨ opcode = 86 ∧ (params = 2 ∨ params = 3) ∨ opcode = 66 ∧ (params = 3 ∨ params = 5) ∨
    opcode = 82 ∧ (params = 0 ∨ params = 1 ∨ params = 3)) as [->|[[-> [->| ->]]|[[-> [->| ->]]|[-> [->|[->| ->]]]]]] by lia.
  - by apply stashed_busy.
  - by apply (stashed_busy ring pl).
  - by apply (stashed_busy ring pl).
  - by apply (stashed_busy ring pl).
  - by apply (stashed_busy ring pl).
  - by apply (stashed_busy ring pl).
  - by apply (stashed_busy ring pl).
  - by apply (stashed_busy ring pl).
Qed.

(** What the station does next: a command, or the main loop's share of the ack
    manager. *)
Inductive step (w : World) : World → Prop :=
  | step_command j ring com rest w' : accepts n com w → parseOne j ring com w = Some (rest, w') → step w w'
  | step_loop j w' : ack_loop j w = Some (tt, w') → step w w'.
Lemma step_locked w w' : unfiltered → step w w' → WInv n w ∧ locked w → WInv n w' ∧ locked w'.
Proof using All.
  intros Hu Hs [Hw Hl]. destruct Hs as [j ring com rest w' Ha Hr|j w' Hr].
  - pose proof (parseOne_wp Hmax n Hn j ring com w Hu Hw Ha) as Hp. unfold wp in Hp. rewrite Hr in Hp. destruct Hp as [? ?]. auto.
  - pose proof (locked_loop n j w Hw Hl) as Hp. unfold wp in Hp. rewrite Hr in Hp. destruct Hp as [[? ?] _]. auto.
Qed.
End lockout.

(** * Theorems *)

Section theorems.
Context `{!Config} `{!MotorDriver.MotorDriver.Board} `{!Layout.Layout.Machine} `{!Devices} `{!Build} `{!Filters}.


(** C21. A <W> with parameters that have no meaning, such as <W 1 2 3>, locks the
    programming track until the station is restarted. The command is answered with <X>, but it has been
    stashed, and nothing unstashes it: from then on, after any commands and any
    runs of the main loop's share of the ack manager, every <W>, <V>, <B> and <R>
    is answered with <X> and does nothing. *)
Theorem programming_lockout (n : Z) (i : Inputs) (ring : option Z) (pl : list Z) (params : Z) (com : list Z) (w : World) :
  MAX_LOCOS < 65536 → 0 <= n → unfiltered → WInv n w →
  stashBusy w = false → DCCACK.DCCACK.ackManagerProg (Station.prog w) = None → wrong_write params (nthp pl 0) = true →
  ∃ w1, execute i ring pl params 87 com w = Some (false, w1) ∧
  ∀ w2, rtc (step n) w1 w2 → ∀ i' ring' pl' params' opcode' com', programming_command opcode' params' = true →
    execute i' ring' pl' params' opcode' com' w2 = Some (false, w2).
Proof.
  intros Hmax Hn Hu Hw Hb Hp Hx. eexists. split; [by apply wrong_write_stashes|]. intros w2 Hsteps i' ring' pl' params' opcode' com' Hc.
  apply busy_refused; [done|]. set (w1 := with_stashP _ _) in Hsteps.
  assert (WInv n w1 ∧ locked w1) as K1 by (split; [exact Hw|by split]).
  assert (WInv n w2 ∧ locked w2) as [_ [? _]]; [|done].
  clearbody w1. induction Hsteps as [|w1 w3 w2 Hs _ IH]; [done|]. apply IH. by eapply step_locked.
Qed.
End theorems.

(** ** Witnesses: a station with two tracks, the first one for programming *)

#[local] Existing Instance TrackProps.TrackProps.a_board.
#[local] Instance two_locos : Config := {| MAX_LOCOS := 2; new_ok _ := true |}.
#[local] Instance mega : Layout.Layout.Machine :=
  {| Layout.Layout.EEPROM_length := 4096; Layout.Layout.alloc_ok _ := true; Layout.Layout.hasCallback _ := false |}.
#[local] Instance no_devices : Devices := {| device_exists _ := false; device_failed _ := false |}.
#[local] Instance a_build : Build := {| VERSION := "5.5.0"; ARDUINO_TYPE := "MEGA"; GITHUB_SHA := "devel"; shieldName := "STANDARD" |}.
#[local] Instance no_filters : Filters :=
  {| filterCallback := None; filterRMFTCallback := None; filterCamParserCallback := None; atCommandCallback := false |}.

Definition a_wave : DCCWaveform.DCCWaveform.Wave := DCCWaveform.DCCWaveform.new_wave 22 false.
Definition some_inputs : Inputs := mkInputs 1000 TrackProps.TrackProps.an_env 3 a_wave 5000 30.
Definition a_world : World :=
  mkWorld DCC.DCC.init TrackProps.TrackProps.after_run
    (Layout.Layout.mkSt (Layout.Layout.mkStore (λ _, 255) Layout.Layout.EESTORE_ID 0 0 0 0) [] 0 [] None 0 1%positive [] [])
    Turntables.Turntables.init [] (DCCACK.DCCACK.init (DCCACK.DCCACK.mkEnv true true DCCACK.DCCACK.OFF false 3 300 0 a_wave))
    CB_W false [] None 0 0 false false [].
Lemma a_world_ok : WInv 1 a_world.
Proof.
  split; [split; [apply LocoInv.good_init|done]|]. split; [apply TrackProps.TrackProps.after_run_inv|by vm_compute].
Qed.

(** <t 3 50 1> *)
Definition a_command : list Z := bytes_of "<t 3 50 1>" ++ [0].

(** <W 1 2 3> *)
Lemma programming_lockout_witness : ∃ w1, execute some_inputs None [1; 2; 3; 0; 0; 0; 0; 0; 0; 0] 3 87 [] a_world = Some (false, w1) ∧
  ∀ w2, rtc (step 1) w1 w2 → ∀ i' ring' pl' params' opcode' com', programming_command opcode' params' = true →
    execute i' ring' pl' params' opcode' com' w2 = Some (false, w2).
Proof.
  apply (programming_lockout 1 some_inputs None [1; 2; 3; 0; 0; 0; 0; 0; 0; 0] 3 [] a_world);
    [done|done|done|apply a_world_ok|done|done|by vm_compute].
Defined.
End CommandsProps.
