(* ===== verification/Exrail.v ===== *)
(** EXRAIL (src/EXRAIL2.h, src/EXRAIL2.cpp): the automation. A program of three
    byte instructions is run by tasks that stand in a ring. This file has the
    state: the program, the look-up lists, the flags, the ring with the creation
    and the end of a task, the events that start tasks, and the signals. *)

From S2P Require Import Prelude Keywords Chain LocoSlot DCC MotorDriver TrackManager DCCACK Layout Turnouts Turntables Stash Format Station.
From stdpp Require Import strings.

#[local] Open Scope Z_scope.
#[local] Open Scope c_scope.

Module Exrail.
Import Station.

(** ** Data *)

Inductive OPCODE :=
  | OPCODE_THROW | OPCODE_CLOSE | OPCODE_TOGGLE_TURNOUT | OPCODE_FWD | OPCODE_REV | OPCODE_SPEED |
  OPCODE_SPEEDUP | OPCODE_SLOWDOWN | OPCODE_SPEED_REL | OPCODE_INVERT_DIRECTION | OPCODE_MOMENTUM |
  OPCODE_RESERVE | OPCODE_FREE | OPCODE_AT | OPCODE_AFTER | OPCODE_AFTEROVERLOAD | OPCODE_AUTOSTART |
  OPCODE_ATGTE | OPCODE_ATLT | OPCODE_ATTIMEOUT1 | OPCODE_ATTIMEOUT2 | OPCODE_LATCH | OPCODE_UNLATCH |
  OPCODE_SET | OPCODE_RESET | OPCODE_BLINK | OPCODE_ENDIF | OPCODE_ELSE | OPCODE_DELAY | OPCODE_DELAYMINS |
  OPCODE_DELAYMS | OPCODE_RANDWAIT | OPCODE_FON | OPCODE_FOFF | OPCODE_XFON | OPCODE_XFOFF | OPCODE_FTOGGLE |
  OPCODE_XFTOGGLE | OPCODE_XFWD | OPCODE_XREV | OPCODE_RED | OPCODE_GREEN | OPCODE_AMBER | OPCODE_DRIVE |
  OPCODE_SERVO | OPCODE_SIGNAL | OPCODE_TURNOUT | OPCODE_WAITFOR | OPCODE_PAD | OPCODE_FOLLOW | OPCODE_CALL |
  OPCODE_RETURN | OPCODE_JOIN | OPCODE_UNJOIN | OPCODE_READ_LOCO1 | OPCODE_READ_LOCO2 | OPCODE_POM |
  OPCODE_START | OPCODE_START_SHARED | OPCODE_START_SEND | OPCODE_SETLOCO | OPCODE_SETFREQ | OPCODE_SENDLOCO |
  OPCODE_FORGET | OPCODE_PAUSE | OPCODE_RESUME | OPCODE_POWEROFF | OPCODE_POWERON | OPCODE_ONCLOSE |
  OPCODE_ONTHROW | OPCODE_SERVOTURNOUT | OPCODE_PINTURNOUT | OPCODE_PRINT | OPCODE_DCCACTIVATE | OPCODE_ASPECT
  | OPCODE_ONACTIVATE | OPCODE_ONDEACTIVATE | OPCODE_ROSTER | OPCODE_KILLALL | OPCODE_ROUTE |
  OPCODE_AUTOMATION | OPCODE_SEQUENCE | OPCODE_ENDTASK | OPCODE_ENDEXRAIL | OPCODE_SET_TRACK |
  OPCODE_SET_POWER | OPCODE_ONRED | OPCODE_ONAMBER | OPCODE_ONGREEN | OPCODE_ONCHANGE | OPCODE_ONCLOCKTIME |
  OPCODE_ONTIME | OPCODE_TTADDPOSITION | OPCODE_DCCTURNTABLE | OPCODE_EXTTTURNTABLE | OPCODE_ONROTATE |
  OPCODE_ROTATE | OPCODE_WAITFORTT | OPCODE_LCC | OPCODE_LCCX | OPCODE_ONLCC | OPCODE_ACON | OPCODE_ACOF |
  OPCODE_ONACON | OPCODE_ONACOF | OPCODE_ONOVERLOAD | OPCODE_ONRAILSYNCON | OPCODE_ONRAILSYNCOFF |
  OPCODE_ROUTE_ACTIVE | OPCODE_ROUTE_INACTIVE | OPCODE_ROUTE_HIDDEN | OPCODE_ROUTE_DISABLED | OPCODE_STASH |
  OPCODE_CLEAR_STASH | OPCODE_CLEAR_ALL_STASH | OPCODE_PICKUP_STASH | OPCODE_CLEAR_ANY_STASH | OPCODE_ONBUTTON
  | OPCODE_ONSENSOR | OPCODE_ONVP_SENSOR | OPCODE_NEOPIXEL | OPCODE_ONBLOCKENTER | OPCODE_ONBLOCKEXIT |
  OPCODE_ESTOPALL | OPCODE_XPOM | OPCODE_BITMAP_AND | OPCODE_BITMAP_OR | OPCODE_BITMAP_XOR | OPCODE_BITMAP_INC
  | OPCODE_BITMAP_DEC | OPCODE_ONBITMAP | OPCODE_FREEALL | OPCODE_WAIT_WHILE_RED | OPCODE_SAVE_SPEED |
  OPCODE_RESTORE_SPEED | OPCODE_XSAVE_SPEED | OPCODE_XRESTORE_SPEED | OPCODE_RANDOM_CALL |
  OPCODE_RANDOM_FOLLOW | OPCODE_CONSIST | IF_TYPE_OPCODES | OPCODE_IFRED | OPCODE_IFAMBER | OPCODE_IFGREEN |
  OPCODE_IFGTE | OPCODE_IFLT | OPCODE_IFTIMEOUT | OPCODE_IF | OPCODE_IFNOT | OPCODE_IFRANDOM |
  OPCODE_IFRESERVE | OPCODE_IFCLOSED | OPCODE_IFTHROWN | OPCODE_IFRE | OPCODE_IFLOCO | OPCODE_IFTTPOSITION |
  OPCODE_IFSTASH | OPCODE_IFSTASHED_HERE | OPCODE_IFBITMAP_ALL | OPCODE_IFBITMAP_ANY | OPCODE_IF_ROUTE_ACTIVE
  | OPCODE_IF_ROUTE_INACTIVE | OPCODE_IF_ROUTE_HIDDEN | OPCODE_IF_ROUTE_DISABLED.

(** The opcodes in the order of their numbers. *)
Definition opcodes : list OPCODE := [
  OPCODE_THROW; OPCODE_CLOSE; OPCODE_TOGGLE_TURNOUT; OPCODE_FWD; OPCODE_REV; OPCODE_SPEED; OPCODE_SPEEDUP;
  OPCODE_SLOWDOWN; OPCODE_SPEED_REL; OPCODE_INVERT_DIRECTION; OPCODE_MOMENTUM; OPCODE_RESERVE; OPCODE_FREE;
  OPCODE_AT; OPCODE_AFTER; OPCODE_AFTEROVERLOAD; OPCODE_AUTOSTART; OPCODE_ATGTE; OPCODE_ATLT;
  OPCODE_ATTIMEOUT1; OPCODE_ATTIMEOUT2; OPCODE_LATCH; OPCODE_UNLATCH; OPCODE_SET; OPCODE_RESET; OPCODE_BLINK;
  OPCODE_ENDIF; OPCODE_ELSE; OPCODE_DELAY; OPCODE_DELAYMINS; OPCODE_DELAYMS; OPCODE_RANDWAIT; OPCODE_FON;
  OPCODE_FOFF; OPCODE_XFON; OPCODE_XFOFF; OPCODE_FTOGGLE; OPCODE_XFTOGGLE; OPCODE_XFWD; OPCODE_XREV;
  OPCODE_RED; OPCODE_GREEN; OPCODE_AMBER; OPCODE_DRIVE; OPCODE_SERVO; OPCODE_SIGNAL; OPCODE_TURNOUT;
  OPCODE_WAITFOR; OPCODE_PAD; OPCODE_FOLLOW; OPCODE_CALL; OPCODE_RETURN; OPCODE_JOIN; OPCODE_UNJOIN;
  OPCODE_READ_LOCO1; OPCODE_READ_LOCO2; OPCODE_POM; OPCODE_START; OPCODE_START_SHARED; OPCODE_START_SEND;
  OPCODE_SETLOCO; OPCODE_SETFREQ; OPCODE_SENDLOCO; OPCODE_FORGET; OPCODE_PAUSE; OPCODE_RESUME;
  OPCODE_POWEROFF; OPCODE_POWERON; OPCODE_ONCLOSE; OPCODE_ONTHROW; OPCODE_SERVOTURNOUT; OPCODE_PINTURNOUT;
  OPCODE_PRINT; OPCODE_DCCACTIVATE; OPCODE_ASPECT; OPCODE_ONACTIVATE; OPCODE_ONDEACTIVATE; OPCODE_ROSTER;
  OPCODE_KILLALL; OPCODE_ROUTE; OPCODE_AUTOMATION; OPCODE_SEQUENCE; OPCODE_ENDTASK; OPCODE_ENDEXRAIL;
  OPCODE_SET_TRACK; OPCODE_SET_POWER; OPCODE_ONRED; OPCODE_ONAMBER; OPCODE_ONGREEN; OPCODE_ONCHANGE;
  OPCODE_ONCLOCKTIME; OPCODE_ONTIME; OPCODE_TTADDPOSITION; OPCODE_DCCTURNTABLE; OPCODE_EXTTTURNTABLE;
  OPCODE_ONROTATE; OPCODE_ROTATE; OPCODE_WAITFORTT; OPCODE_LCC; OPCODE_LCCX; OPCODE_ONLCC; OPCODE_ACON;
  OPCODE_ACOF; OPCODE_ONACON; OPCODE_ONACOF; OPCODE_ONOVERLOAD; OPCODE_ONRAILSYNCON; OPCODE_ONRAILSYNCOFF;
  OPCODE_ROUTE_ACTIVE; OPCODE_ROUTE_INACTIVE; OPCODE_ROUTE_HIDDEN; OPCODE_ROUTE_DISABLED; OPCODE_STASH;
  OPCODE_CLEAR_STASH; OPCODE_CLEAR_ALL_STASH; OPCODE_PICKUP_STASH; OPCODE_CLEAR_ANY_STASH; OPCODE_ONBUTTON;
  OPCODE_ONSENSOR; OPCODE_ONVP_SENSOR; OPCODE_NEOPIXEL; OPCODE_ONBLOCKENTER; OPCODE_ONBLOCKEXIT;
  OPCODE_ESTOPALL; OPCODE_XPOM; OPCODE_BITMAP_AND; OPCODE_BITMAP_OR; OPCODE_BITMAP_XOR; OPCODE_BITMAP_INC;
  OPCODE_BITMAP_DEC; OPCODE_ONBITMAP; OPCODE_FREEALL; OPCODE_WAIT_WHILE_RED; OPCODE_SAVE_SPEED;
  OPCODE_RESTORE_SPEED; OPCODE_XSAVE_SPEED; OPCODE_XRESTORE_SPEED; OPCODE_RANDOM_CALL; OPCODE_RANDOM_FOLLOW;
  OPCODE_CONSIST; IF_TYPE_OPCODES; OPCODE_IFRED; OPCODE_IFAMBER; OPCODE_IFGREEN; OPCODE_IFGTE; OPCODE_IFLT;
  OPCODE_IFTIMEOUT; OPCODE_IF; OPCODE_IFNOT; OPCODE_IFRANDOM; OPCODE_IFRESERVE; OPCODE_IFCLOSED;
  OPCODE_IFTHROWN; OPCODE_IFRE; OPCODE_IFLOCO; OPCODE_IFTTPOSITION; OPCODE_IFSTASH; OPCODE_IFSTASHED_HERE;
  OPCODE_IFBITMAP_ALL; OPCODE_IFBITMAP_ANY; OPCODE_IF_ROUTE_ACTIVE; OPCODE_IF_ROUTE_INACTIVE;
  OPCODE_IF_ROUTE_HIDDEN; OPCODE_IF_ROUTE_DISABLED].
Definition opcode_of (b : Z) : option OPCODE := opcodes !! Z.to_nat b.
Definition number_of (o : OPCODE) : Z :=
  match o with
  | OPCODE_THROW => 0 | OPCODE_CLOSE => 1 | OPCODE_TOGGLE_TURNOUT => 2 | OPCODE_FWD => 3 | OPCODE_REV => 4 |
  OPCODE_SPEED => 5 | OPCODE_SPEEDUP => 6 | OPCODE_SLOWDOWN => 7 | OPCODE_SPEED_REL => 8 |
  OPCODE_INVERT_DIRECTION => 9 | OPCODE_MOMENTUM => 10 | OPCODE_RESERVE => 11 | OPCODE_FREE => 12 | OPCODE_AT
  => 13 | OPCODE_AFTER => 14 | OPCODE_AFTEROVERLOAD => 15 | OPCODE_AUTOSTART => 16 | OPCODE_ATGTE => 17 |
  OPCODE_ATLT => 18 | OPCODE_ATTIMEOUT1 => 19 | OPCODE_ATTIMEOUT2 => 20 | OPCODE_LATCH => 21 | OPCODE_UNLATCH
  => 22 | OPCODE_SET => 23 | OPCODE_RESET => 24 | OPCODE_BLINK => 25 | OPCODE_ENDIF => 26 | OPCODE_ELSE => 27
  | OPCODE_DELAY => 28 | OPCODE_DELAYMINS => 29 | OPCODE_DELAYMS => 30 | OPCODE_RANDWAIT => 31 | OPCODE_FON =>
  32 | OPCODE_FOFF => 33 | OPCODE_XFON => 34 | OPCODE_XFOFF => 35 | OPCODE_FTOGGLE => 36 | OPCODE_XFTOGGLE =>
  37 | OPCODE_XFWD => 38 | OPCODE_XREV => 39 | OPCODE_RED => 40 | OPCODE_GREEN => 41 | OPCODE_AMBER => 42 |
  OPCODE_DRIVE => 43 | OPCODE_SERVO => 44 | OPCODE_SIGNAL => 45 | OPCODE_TURNOUT => 46 | OPCODE_WAITFOR => 47
  | OPCODE_PAD => 48 | OPCODE_FOLLOW => 49 | OPCODE_CALL => 50 | OPCODE_RETURN => 51 | OPCODE_JOIN => 52 |
  OPCODE_UNJOIN => 53 | OPCODE_READ_LOCO1 => 54 | OPCODE_READ_LOCO2 => 55 | OPCODE_POM => 56 | OPCODE_START =>
  57 | OPCODE_START_SHARED => 58 | OPCODE_START_SEND => 59 | OPCODE_SETLOCO => 60 | OPCODE_SETFREQ => 61 |
  OPCODE_SENDLOCO => 62 | OPCODE_FORGET => 63 | OPCODE_PAUSE => 64 | OPCODE_RESUME => 65 | OPCODE_POWEROFF =>
  66 | OPCODE_POWERON => 67 | OPCODE_ONCLOSE => 68 | OPCODE_ONTHROW => 69 | OPCODE_SERVOTURNOUT => 70 |
  OPCODE_PINTURNOUT => 71 | OPCODE_PRINT => 72 | OPCODE_DCCACTIVATE => 73 | OPCODE_ASPECT => 74 |
  OPCODE_ONACTIVATE => 75 | OPCODE_ONDEACTIVATE => 76 | OPCODE_ROSTER => 77 | OPCODE_KILLALL => 78 |
  OPCODE_ROUTE => 79 | OPCODE_AUTOMATION => 80 | OPCODE_SEQUENCE => 81 | OPCODE_ENDTASK => 82 |
  OPCODE_ENDEXRAIL => 83 | OPCODE_SET_TRACK => 84 | OPCODE_SET_POWER => 85 | OPCODE_ONRED => 86 |
  OPCODE_ONAMBER => 87 | OPCODE_ONGREEN => 88 | OPCODE_ONCHANGE => 89 | OPCODE_ONCLOCKTIME => 90 |
  OPCODE_ONTIME => 91 | OPCODE_TTADDPOSITION => 92 | OPCODE_DCCTURNTABLE => 93 | OPCODE_EXTTTURNTABLE => 94 |
  OPCODE_ONROTATE => 95 | OPCODE_ROTATE => 96 | OPCODE_WAITFORTT => 97 | OPCODE_LCC => 98 | OPCODE_LCCX => 99
  | OPCODE_ONLCC => 100 | OPCODE_ACON => 101 | OPCODE_ACOF => 102 | OPCODE_ONACON => 103 | OPCODE_ONACOF =>
  104 | OPCODE_ONOVERLOAD => 105 | OPCODE_ONRAILSYNCON => 106 | OPCODE_ONRAILSYNCOFF => 107 |
  OPCODE_ROUTE_ACTIVE => 108 | OPCODE_ROUTE_INACTIVE => 109 | OPCODE_ROUTE_HIDDEN => 110 |
  OPCODE_ROUTE_DISABLED => 111 | OPCODE_STASH => 112 | OPCODE_CLEAR_STASH => 113 | OPCODE_CLEAR_ALL_STASH =>
  114 | OPCODE_PICKUP_STASH => 115 | OPCODE_CLEAR_ANY_STASH => 116 | OPCODE_ONBUTTON => 117 | OPCODE_ONSENSOR
  => 118 | OPCODE_ONVP_SENSOR => 119 | OPCODE_NEOPIXEL => 120 | OPCODE_ONBLOCKENTER => 121 |
  OPCODE_ONBLOCKEXIT => 122 | OPCODE_ESTOPALL => 123 | OPCODE_XPOM => 124 | OPCODE_BITMAP_AND => 125 |
  OPCODE_BITMAP_OR => 126 | OPCODE_BITMAP_XOR => 127 | OPCODE_BITMAP_INC => 128 | OPCODE_BITMAP_DEC => 129 |
  OPCODE_ONBITMAP => 130 | OPCODE_FREEALL => 131 | OPCODE_WAIT_WHILE_RED => 132 | OPCODE_SAVE_SPEED => 133 |
  OPCODE_RESTORE_SPEED => 134 | OPCODE_XSAVE_SPEED => 135 | OPCODE_XRESTORE_SPEED => 136 | OPCODE_RANDOM_CALL
  => 137 | OPCODE_RANDOM_FOLLOW => 138 | OPCODE_CONSIST => 139 | IF_TYPE_OPCODES => 140 | OPCODE_IFRED => 141
  | OPCODE_IFAMBER => 142 | OPCODE_IFGREEN => 143 | OPCODE_IFGTE => 144 | OPCODE_IFLT => 145 |
  OPCODE_IFTIMEOUT => 146 | OPCODE_IF => 147 | OPCODE_IFNOT => 148 | OPCODE_IFRANDOM => 149 | OPCODE_IFRESERVE
  => 150 | OPCODE_IFCLOSED => 151 | OPCODE_IFTHROWN => 152 | OPCODE_IFRE => 153 | OPCODE_IFLOCO => 154 |
  OPCODE_IFTTPOSITION => 155 | OPCODE_IFSTASH => 156 | OPCODE_IFSTASHED_HERE => 157 | OPCODE_IFBITMAP_ALL =>
  158 | OPCODE_IFBITMAP_ANY => 159 | OPCODE_IF_ROUTE_ACTIVE => 160 | OPCODE_IF_ROUTE_INACTIVE => 161 |
  OPCODE_IF_ROUTE_HIDDEN => 162 | OPCODE_IF_ROUTE_DISABLED => 163
  end.
Lemma opcode_of_number o : opcode_of (number_of o) = Some o.
Proof. by destruct o. Qed.
Lemma number_inj a b : number_of a = number_of b → a = b.
Proof. intros Hab. apply (inj Some). by rewrite <-(opcode_of_number a), <-(opcode_of_number b), Hab. Qed.
#[export] Instance OPCODE_eq_dec : EqDecision OPCODE.
Proof.
  refine (λ a b, cast_if (decide (number_of a = number_of b))); [|congruence].
  by apply number_inj.
Defined.

Inductive BlinkState := not_blink_task | blink_low | blink_high | at_timeout.
#[export] Instance BlinkState_eq_dec : EqDecision BlinkState.
Proof. solve_decision. Defined.
Inductive SignalType :=
  | sigtypeVIRTUAL | sigtypeSIGNAL | sigtypeSIGNALH | sigtypeDCC | sigtypeDCCX | sigtypeSERVO | sigtypeNEOPIXEL
  | sigtypeContinuation | sigtypeNoMoreSignals.
Record SIGNAL_DEFINITION := mkSignal { type : SignalType; signal_id : Z; redpin : Z; amberpin : Z; greenpin : Z }.

Definition FEATURE_SIGNAL : Z := 0x80.
Definition FEATURE_LCC : Z := 0x40.
Definition FEATURE_ROUTESTATE : Z := 0x10.
Definition FEATURE_BLINK : Z := 0x04.
Definition FEATURE_SENSOR : Z := 0x02.
Definition FEATURE_BLOCK : Z := 0x01.
Definition SECTION_FLAG : Z := 0x80.
Definition LATCH_FLAG : Z := 0x40.
Definition TASK_FLAG : Z := 0x20.
Definition SIGNAL_MASK : Z := 0x0C.
Definition SIGNAL_RED : Z := 0x08.
Definition SIGNAL_AMBER : Z := 0x0C.
Definition SIGNAL_GREEN : Z := 0x04.
Definition MAX_STACK_DEPTH : Z := 4.
Definition MAX_FLAGS : Z := 256.
Definition LOCO_ID_WAITING : Z := -99.

(** enum thrunger *)
Definition thrunge_print : Z := 0.
Definition thrunge_broadcast : Z := 1.
Definition thrunge_withrottle : Z := 2.
Definition thrunge_serial : Z := 3.
Definition thrunge_parse : Z := 4.
Definition thrunge_serial1 : Z := 5.
Definition thrunge_serial6 : Z := 10.
Definition thrunge_lcn : Z := 11.
Definition thrunge_message : Z := 12.
Definition thrunge_lcd : Z := 13.

(** What the switch that the macros generate for printMessage does for a
    number: nothing, a text for a destination, a caption, or a test of the
    loco or of pins. *)
Inductive Message :=
  | NoMessage
  | Thrunge (mode lcdid : Z) (text : list Z)
  | RouteCaption (id : Z) (caption : string)
  | IfLoco (locos : list Z)
  | IfAll (vpins : list Z)
  | IfAny (vpins : list Z).

(** An automation, as the macros compile it: the code, the signals, the features
    it uses, its texts, whether a description hides a turnout or a turntable (if
    there is a description), and the number of LCC events it waits for; and the
    serial ports that are there for texts. *)
Class Program := {
  RouteCode : list Z;
  SignalDefinitions : list SIGNAL_DEFINITION;
  compileFeatures : Z;
  message : Z → Message;
  turnoutHidden : Z → option bool;
  turntableHidden : Z → option bool;
  getRouteDescription : Z → string;
  countLCCLookup : Z;
  serialThere : Z → bool;
  lcnThere : bool
}.

(** What the memory of a new task holds where the constructor writes nothing. *)
Class Garbage := { garbage_un : ptr → Z; garbage_pauseSpeed : ptr → Z }.

(** The members of an RMFT2 object, a task. *)
Record Task := mkTask {
  next : ptr;   (* the ring *)
  progCounter : Z;
  delayStart : Z;
  delayTime : Z;
  un : Z;   (* waitAfter, timeoutStart or blinkPin *)
  taskId : Z;
  blinkState : BlinkState;
  loco : Z;
  invert : bool;
  pauseSpeed : Z;
  onEventStartPosition : Z;
  stackDepth : Z;
  callStack : list Z;
}.

Definition with_next (x : ptr) (r : Task) : Task :=
  mkTask x (progCounter r) (delayStart r) (delayTime r) (un r) (taskId r) (blinkState r) (loco r) (invert
    r) (pauseSpeed r) (onEventStartPosition r) (stackDepth r) (callStack r).
Definition with_progCounter (x : Z) (r : Task) : Task :=
  mkTask (next r) x (delayStart r) (delayTime r) (un r) (taskId r) (blinkState r) (loco r) (invert r)
    (pauseSpeed r) (onEventStartPosition r) (stackDepth r) (callStack r).
Definition with_delayStart (x : Z) (r : Task) : Task :=
  mkTask (next r) (progCounter r) x (delayTime r) (un r) (taskId r) (blinkState r) (loco r) (invert r)
    (pauseSpeed r) (onEventStartPosition r) (stackDepth r) (callStack r).
Definition with_delayTime (x : Z) (r : Task) : Task :=
  mkTask (next r) (progCounter r) (delayStart r) x (un r) (taskId r) (blinkState r) (loco r) (invert r)
    (pauseSpeed r) (onEventStartPosition r) (stackDepth r) (callStack r).
Definition with_un (x : Z) (r : Task) : Task :=
  mkTask (next r) (progCounter r) (delayStart r) (delayTime r) x (taskId r) (blinkState r) (loco r)
    (invert r) (pauseSpeed r) (onEventStartPosition r) (stackDepth r) (callStack r).
Definition with_taskId (x : Z) (r : Task) : Task :=
  mkTask (next r) (progCounter r) (delayStart r) (delayTime r) (un r) x (blinkState r) (loco r) (invert
    r) (pauseSpeed r) (onEventStartPosition r) (stackDepth r) (callStack r).
Definition with_blinkState (x : BlinkState) (r : Task) : Task :=
  mkTask (next r) (progCounter r) (delayStart r) (delayTime r) (un r) (taskId r) x (loco r) (invert r)
    (pauseSpeed r) (onEventStartPosition r) (stackDepth r) (callStack r).
Definition with_loco (x : Z) (r : Task) : Task :=
  mkTask (next r) (progCounter r) (delayStart r) (delayTime r) (un r) (taskId r) (blinkState r) x (invert
    r) (pauseSpeed r) (onEventStartPosition r) (stackDepth r) (callStack r).
Definition with_invert (x : bool) (r : Task) : Task :=
  mkTask (next r) (progCounter r) (delayStart r) (delayTime r) (un r) (taskId r) (blinkState r) (loco r)
    x (pauseSpeed r) (onEventStartPosition r) (stackDepth r) (callStack r).
Definition with_pauseSpeed (x : Z) (r : Task) : Task :=
  mkTask (next r) (progCounter r) (delayStart r) (delayTime r) (un r) (taskId r) (blinkState r) (loco r)
    (invert r) x (onEventStartPosition r) (stackDepth r) (callStack r).
Definition with_onEventStartPosition (x : Z) (r : Task) : Task :=
  mkTask (next r) (progCounter r) (delayStart r) (delayTime r) (un r) (taskId r) (blinkState r) (loco r)
    (invert r) (pauseSpeed r) x (stackDepth r) (callStack r).
Definition with_stackDepth (x : Z) (r : Task) : Task :=
  mkTask (next r) (progCounter r) (delayStart r) (delayTime r) (un r) (taskId r) (blinkState r) (loco r)
    (invert r) (pauseSpeed r) (onEventStartPosition r) x (callStack r).
Definition with_callStack (x : list Z) (r : Task) : Task :=
  mkTask (next r) (progCounter r) (delayStart r) (delayTime r) (un r) (taskId r) (blinkState r) (loco r)
    (invert r) (pauseSpeed r) (onEventStartPosition r) (stackDepth r) x.

Definition waitAfter (t : Task) : Z := un t.
Definition timeoutStart (t : Task) : Z := un t.
(** A pin takes the low two bytes of the union. *)
Definition blinkPin (t : Task) : Z := un t mod 65536.
Definition with_blinkPin (x : Z) (t : Task) : Task := with_un (un t - un t mod 65536 + u16 x) t.

(** A list of pairs of a value and a result; [m_size] cells were allocated, the
    first ones are loaded. *)
Inductive LookList := mkLookList (m_size : Z) (m_loaded : list (Z * Z)) (m_chain : option LookList).

Inductive Lookup :=
  | routeLookup | signalLookup | onThrowLookup | onCloseLookup | onActivateLookup | onDeactivateLookup |
  onRedLookup | onAmberLookup | onGreenLookup | onChangeLookup | onClockLookup | onRotateLookup |
  onOverloadLookup | onBlockEnterLookup | onBlockExitLookup.
#[export] Instance Lookup_eq_dec : EqDecision Lookup.
Proof. solve_decision. Defined.

(** pausingTask: null, a task, or the impossible address of </ PAUSE>. *)
Inductive Pausing := NotPausing | PausedBy (p : ptr) | ImpossibleTask.
#[export] Instance Pausing_eq_dec : EqDecision Pausing.
Proof. solve_decision. Defined.

(** An EXRAILSensor. *)
Record Sensor := mkSensor {
  pin : Z;
  sensorCounter : Z;   (* progCounter *)
  active : Z;
  inputState : Z;
  onChange : bool;
  useAnalog : bool;
  latchDelay : Z;
}.

Definition with_pin (x : Z) (r : Sensor) : Sensor :=
  mkSensor x (sensorCounter r) (active r) (inputState r) (onChange r) (useAnalog r) (latchDelay r).
Definition with_sensorCounter (x : Z) (r : Sensor) : Sensor :=
  mkSensor (pin r) x (active r) (inputState r) (onChange r) (useAnalog r) (latchDelay r).
Definition with_active (x : Z) (r : Sensor) : Sensor :=
  mkSensor (pin r) (sensorCounter r) x (inputState r) (onChange r) (useAnalog r) (latchDelay r).
Definition with_inputState (x : Z) (r : Sensor) : Sensor :=
  mkSensor (pin r) (sensorCounter r) (active r) x (onChange r) (useAnalog r) (latchDelay r).
Definition with_onChange (x : bool) (r : Sensor) : Sensor :=
  mkSensor (pin r) (sensorCounter r) (active r) (inputState r) x (useAnalog r) (latchDelay r).
Definition with_useAnalog (x : bool) (r : Sensor) : Sensor :=
  mkSensor (pin r) (sensorCounter r) (active r) (inputState r) (onChange r) x (latchDelay r).
Definition with_latchDelay (x : Z) (r : Sensor) : Sensor :=
  mkSensor (pin r) (sensorCounter r) (active r) (inputState r) (onChange r) (useAnalog r) x.

(** What EXRAIL does to the outside, beside what the station does. *)
Inductive ev :=
  | OfStation (e : Station.ev)
  | ConfigureInput (vpin : Z) | ConfigureAnalogIn (vpin : Z)             (* IODevice *)
  | Write (vpin value : Z)
  | WriteAnalogue (vpin value profile duration : Z)
  | WriteAnalogueRange (vpin value profile duration count : Z)
  | BroadcastRouteState (id state : Z)                                   (* CommandDistributor *)
  | BroadcastRouteCaption (id : Z) (caption : string)
  | Broadcast (withrottle : bool) (text : list Z)
  | BroadcastMessage (text : list Z)
  | Serial (port : Z) (text : list Z)                                    (* 7 is the LCN port *)
  | PrintCab (loco : Z) (text : list Z)
  | Lcd (display row : Z) (text : list Z)
  | Parse (text : list Z)                                                (* DCCEXParser::parseOne *)
  | Send (stream : Z) (format : string) (args : list arg).               (* StringFormatter::send *)

(** The statics of EXRAIL, the station it runs in, and the trace. *)
Record St := mkSt {
  world : World;   (* the station *)
  tasks : gmap ptr Task;   (* the heap of tasks *)
  nextTask : ptr;   (* the next address that is free *)
  loopTask : option ptr;
  pausingTask : Pausing;
  flags : list Z;
  lookup : Lookup → option LookList;   (* NULL before begin *)
  routeStateArray : option (list Z);
  routeCaptionArray : option (list (option string));
  progtrackLocoId : Z;
  diag : bool;
  skipIf : bool;
  LCCSerial : option Z;
  lccProgCounter : Z;
  lccEventIndex : Z;
  onLCCLookup : list Z;
  sensors : list Sensor;   (* the newest first *)
  readingSensor : option nat;   (* a place in the list *)
  lastReadCycle : Z;
  out : list ev;
}.

Definition with_world (x : World) (r : St) : St :=
  mkSt x (tasks r) (nextTask r) (loopTask r) (pausingTask r) (flags r) (lookup r) (routeStateArray r)
    (routeCaptionArray r) (progtrackLocoId r) (diag r) (skipIf r) (LCCSerial r) (lccProgCounter r)
    (lccEventIndex r) (onLCCLookup r) (sensors r) (readingSensor r) (lastReadCycle r) (out r).
Definition with_tasks (x : gmap ptr Task) (r : St) : St :=
  mkSt (world r) x (nextTask r) (loopTask r) (pausingTask r) (flags r) (lookup r) (routeStateArray r)
    (routeCaptionArray r) (progtrackLocoId r) (diag r) (skipIf r) (LCCSerial r) (lccProgCounter r)
    (lccEventIndex r) (onLCCLookup r) (sensors r) (readingSensor r) (lastReadCycle r) (out r).
Definition with_nextTask (x : ptr) (r : St) : St :=
  mkSt (world r) (tasks r) x (loopTask r) (pausingTask r) (flags r) (lookup r) (routeStateArray r)
    (routeCaptionArray r) (progtrackLocoId r) (diag r) (skipIf r) (LCCSerial r) (lccProgCounter r)
    (lccEventIndex r) (onLCCLookup r) (sensors r) (readingSensor r) (lastReadCycle r) (out r).
Definition with_loopTask (x : option ptr) (r : St) : St :=
  mkSt (world r) (tasks r) (nextTask r) x (pausingTask r) (flags r) (lookup r) (routeStateArray r)
    (routeCaptionArray r) (progtrackLocoId r) (diag r) (skipIf r) (LCCSerial r) (lccProgCounter r)
    (lccEventIndex r) (onLCCLookup r) (sensors r) (readingSensor r) (lastReadCycle r) (out r).
Definition with_pausingTask (x : Pausing) (r : St) : St :=
  mkSt (world r) (tasks r) (nextTask r) (loopTask r) x (flags r) (lookup r) (routeStateArray r)
    (routeCaptionArray r) (progtrackLocoId r) (diag r) (skipIf r) (LCCSerial r) (lccProgCounter r)
    (lccEventIndex r) (onLCCLookup r) (sensors r) (readingSensor r) (lastReadCycle r) (out r).
Definition with_flags (x : list Z) (r : St) : St :=
  mkSt (world r) (tasks r) (nextTask r) (loopTask r) (pausingTask r) x (lookup r) (routeStateArray r)
    (routeCaptionArray r) (progtrackLocoId r) (diag r) (skipIf r) (LCCSerial r) (lccProgCounter r)
    (lccEventIndex r) (onLCCLookup r) (sensors r) (readingSensor r) (lastReadCycle r) (out r).
Definition with_lookup (x : Lookup → option LookList) (r : St) : St :=
  mkSt (world r) (tasks r) (nextTask r) (loopTask r) (pausingTask r) (flags r) x (routeStateArray r)
    (routeCaptionArray r) (progtrackLocoId r) (diag r) (skipIf r) (LCCSerial r) (lccProgCounter r)
    (lccEventIndex r) (onLCCLookup r) (sensors r) (readingSensor r) (lastReadCycle r) (out r).
Definition with_routeStateArray (x : option (list Z)) (r : St) : St :=
  mkSt (world r) (tasks r) (nextTask r) (loopTask r) (pausingTask r) (flags r) (lookup r) x
    (routeCaptionArray r) (progtrackLocoId r) (diag r) (skipIf r) (LCCSerial r) (lccProgCounter r)
    (lccEventIndex r) (onLCCLookup r) (sensors r) (readingSensor r) (lastReadCycle r) (out r).
Definition with_routeCaptionArray (x : option (list (option string))) (r : St) : St :=
  mkSt (world r) (tasks r) (nextTask r) (loopTask r) (pausingTask r) (flags r) (lookup r)
    (routeStateArray r) x (progtrackLocoId r) (diag r) (skipIf r) (LCCSerial r) (lccProgCounter r)
    (lccEventIndex r) (onLCCLookup r) (sensors r) (readingSensor r) (lastReadCycle r) (out r).
Definition with_progtrackLocoId (x : Z) (r : St) : St :=
  mkSt (world r) (tasks r) (nextTask r) (loopTask r) (pausingTask r) (flags r) (lookup r)
    (routeStateArray r) (routeCaptionArray r) x (diag r) (skipIf r) (LCCSerial r) (lccProgCounter r)
    (lccEventIndex r) (onLCCLookup r) (sensors r) (readingSensor r) (lastReadCycle r) (out r).
Definition with_diag (x : bool) (r : St) : St :=
  mkSt (world r) (tasks r) (nextTask r) (loopTask r) (pausingTask r) (flags r) (lookup r)
    (routeStateArray r) (routeCaptionArray r) (progtrackLocoId r) x (skipIf r) (LCCSerial r)
    (lccProgCounter r) (lccEventIndex r) (onLCCLookup r) (sensors r) (readingSensor r) (lastReadCycle r)
    (out r).
Definition with_skipIf (x : bool) (r : St) : St :=
  mkSt (world r) (tasks r) (nextTask r) (loopTask r) (pausingTask r) (flags r) (lookup r)
    (routeStateArray r) (routeCaptionArray r) (progtrackLocoId r) (diag r) x (LCCSerial r)
    (lccProgCounter r) (lccEventIndex r) (onLCCLookup r) (sensors r) (readingSensor r) (lastReadCycle r)
    (out r).
Definition with_LCCSerial (x : option Z) (r : St) : St :=
  mkSt (world r) (tasks r) (nextTask r) (loopTask r) (pausingTask r) (flags r) (lookup r)
    (routeStateArray r) (routeCaptionArray r) (progtrackLocoId r) (diag r) (skipIf r) x (lccProgCounter
    r) (lccEventIndex r) (onLCCLookup r) (sensors r) (readingSensor r) (lastReadCycle r) (out r).
Definition with_lccProgCounter (x : Z) (r : St) : St :=
  mkSt (world r) (tasks r) (nextTask r) (loopTask r) (pausingTask r) (flags r) (lookup r)
    (routeStateArray r) (routeCaptionArray r) (progtrackLocoId r) (diag r) (skipIf r) (LCCSerial r) x
    (lccEventIndex r) (onLCCLookup r) (sensors r) (readingSensor r) (lastReadCycle r) (out r).
Definition with_lccEventIndex (x : Z) (r : St) : St :=
  mkSt (world r) (tasks r) (nextTask r) (loopTask r) (pausingTask r) (flags r) (lookup r)
    (routeStateArray r) (routeCaptionArray r) (progtrackLocoId r) (diag r) (skipIf r) (LCCSerial r)
    (lccProgCounter r) x (onLCCLookup r) (sensors r) (readingSensor r) (lastReadCycle r) (out r).
Definition with_onLCCLookup (x : list Z) (r : St) : St :=
  mkSt (world r) (tasks r) (nextTask r) (loopTask r) (pausingTask r) (flags r) (lookup r)
    (routeStateArray r) (routeCaptionArray r) (progtrackLocoId r) (diag r) (skipIf r) (LCCSerial r)
    (lccProgCounter r) (lccEventIndex r) x (sensors r) (readingSensor r) (lastReadCycle r) (out r).
Definition with_sensors (x : list Sensor) (r : St) : St :=
  mkSt (world r) (tasks r) (nextTask r) (loopTask r) (pausingTask r) (flags r) (lookup r)
    (routeStateArray r) (routeCaptionArray r) (progtrackLocoId r) (diag r) (skipIf r) (LCCSerial r)
    (lccProgCounter r) (lccEventIndex r) (onLCCLookup r) x (readingSensor r) (lastReadCycle r) (out r).
Definition with_readingSensor (x : option nat) (r : St) : St :=
  mkSt (world r) (tasks r) (nextTask r) (loopTask r) (pausingTask r) (flags r) (lookup r)
    (routeStateArray r) (routeCaptionArray r) (progtrackLocoId r) (diag r) (skipIf r) (LCCSerial r)
    (lccProgCounter r) (lccEventIndex r) (onLCCLookup r) (sensors r) x (lastReadCycle r) (out r).
Definition with_lastReadCycle (x : Z) (r : St) : St :=
  mkSt (world r) (tasks r) (nextTask r) (loopTask r) (pausingTask r) (flags r) (lookup r)
    (routeStateArray r) (routeCaptionArray r) (progtrackLocoId r) (diag r) (skipIf r) (LCCSerial r)
    (lccProgCounter r) (lccEventIndex r) (onLCCLookup r) (sensors r) (readingSensor r) x (out r).
Definition with_out (x : list ev) (r : St) : St :=
  mkSt (world r) (tasks r) (nextTask r) (loopTask r) (pausingTask r) (flags r) (lookup r)
    (routeStateArray r) (routeCaptionArray r) (progtrackLocoId r) (diag r) (skipIf r) (LCCSerial r)
    (lccProgCounter r) (lccEventIndex r) (onLCCLookup r) (sensors r) (readingSensor r) (lastReadCycle r)
    x.

Definition emit (e : ev) : M St unit := mmod (λ s, with_out (out s ++ [e]) s).

(** What a call sees of the devices and the clock. *)
Record Io := mkIo {
  station : Station.Inputs;
  micros : Z;
  read : Z → Z;              (* IODevice::read *)
  readAnalogue : Z → Z;      (* IODevice::readAnalogue *)
  isBusy : Z → bool          (* IODevice::isBusy *)
}.
Definition millis (i : Io) : Z := u32 (Station.now (station i)).

(** ** Look-up lists *)

Definition size (l : LookList) : Z := match l with mkLookList n _ _ => n end.
Definition loaded (l : LookList) : list (Z * Z) := match l with mkLookList _ l _ => l end.
Definition new_list (size : Z) : LookList := mkLookList size [] None.
Definition chain_to (to : LookList) (l : LookList) : LookList :=
  match l with mkLookList n m _ => mkLookList n m (Some to) end.
Definition add (look result : Z) (l : LookList) : LookList :=
  match l with mkLookList n m c =>
    if Z.of_nat (length m) =? n then l (* and forget *)
    else mkLookList n (m ++ [(look, result)]) c
  end.

(** The cells [i] and on, [n] of them; a cell that is not loaded has no value. *)
Fixpoint find_cell (n : nat) (i : nat) (m : list (Z * Z)) (value : Z) : option (option (nat * Z)) :=
  match n with
  | O => Some None
  | S n => '(k, r) ← m !! i; if k =? value then Some (Some (i, r)) else find_cell n (S i) m value
  end.
Fixpoint find (l : LookList) (value : Z) : option Z :=
  match l with mkLookList n m c =>
    found ← find_cell (Z.to_nat n) 0 m value;
    match found with
    | Some (_, r) => Some r
    | None => match c with Some c => find c value | None => Some (-1) end
    end
  end.
Definition findPosition (l : LookList) (value : Z) : option Z :=
  found ← find_cell (Z.to_nat (size l)) 0 (loaded l) value;
  Some (match found with Some (i, _) => Z.of_nat i | None => -1 end).

Definition list_of (n : Lookup) : M St LookList := λ s, l ← lookup s n; Some (l, s).
Definition set_list (n : Lookup) (l : LookList) : M St unit :=
  mmod (λ s, with_lookup (λ m, if decide (m = n) then Some l else lookup s m) s).
Definition find_in (n : Lookup) (value : Z) : M St Z := let! l := list_of n in mlift (find l (i16 value)).

(** ** Flags *)

Definition getFlag (id mask : Z) : M St bool :=
  let id := u16 id in
  if id >=? MAX_FLAGS then mreturn false else
  λ s, f ← flags s !! Z.to_nat id; Some (tru (f .& mask), s).
Definition setFlag (id onMask offMask : Z) : M St bool :=
  let id := u16 id in
  if id >=? MAX_FLAGS then mreturn false else
  λ s, f ← flags s !! Z.to_nat id;
       Some (true, with_flags (<[Z.to_nat id := u8 ((f .& Z.lnot offMask) .| onMask)]> (flags s)) s).

(** ** The ring of tasks *)

Definition deref (p : ptr) : M St Task := λ s, t ← tasks s !! p; Some (t, s).
Definition update (p : ptr) (f : Task → Task) : M St unit :=
  λ s, t ← tasks s !! p; Some (tt, with_tasks (<[p := f t]> (tasks s)) s).
Definition fuel_of : M St nat := mget (λ s, S (base.size (tasks s))).

(** The tasks from [p] on along the ring, up to the one whose next is [stop]:
    the loops that look at every task and change no link. *)
Fixpoint ring_from (fuel : nat) (h : gmap ptr Task) (stop p : ptr) : option (list ptr) :=
  match fuel with
  | O => None
  | S fuel =>
    t ← h !! p;
    if decide (next t = stop) then Some [p] else l ← ring_from fuel h stop (next t); Some (p :: l)
  end.
(** [task = loopTask; while (task) { ...; task = task->next; if (task == loopTask) break; }] *)
Definition ring : M St (list ptr) := λ s,
  match loopTask s with
  | None => Some ([], s)
  | Some p => l ← ring_from (S (base.size (tasks s))) (tasks s) p p; Some (l, s)
  end.
(** [for (t = next; t != this; t = t->next)] *)
Definition others (p : ptr) : M St (list ptr) := λ s,
  t ← tasks s !! p;
  if decide (next t = p) then Some ([], s)
  else l ← ring_from (S (base.size (tasks s))) (tasks s) p (next t); Some (l, s).

Section exrail.
Context `{!Config} `{!MotorDriver.MotorDriver.Board} `{!Layout.Layout.Machine} `{!Devices} `{!Program} `{!Garbage}.

(** GET_OPCODE and getOperand *)
Definition code_at (pc : Z) : option Z := if pc <? 0 then None else RouteCode !! Z.to_nat pc.
Definition getOperand (pc n : Z) : option Z :=
  let offset := pc + 1 + u8 n * 3 in
  lsb ← code_at offset;
  msb ← code_at (offset + 1);
  Some (msb * 256 + lsb).

(** An unused task id from the flags table; 255 in case of overflow. *)
Fixpoint claim_id (l : list Z) : M St Z :=
  match l with
  | [] => mreturn 255
  | f :: l =>
    let! used := getFlag f TASK_FLAG in
    if used : bool then claim_id l else (setFlag f TASK_FLAG 0 ;;; mreturn f)
  end.

(** The constructor. *)
Definition new_task (progCtr loco : Z) (invert : bool) : M St ptr :=
  let! taskId := claim_id (rangeZ 0 MAX_FLAGS) in
  let! p := mget nextTask in
  mmod (λ s, with_nextTask (Pos.succ p) s) ;;;
  let task next := mkTask next progCtr 0 0 (garbage_un p) taskId not_blink_task (u16 loco) invert
    (garbage_pauseSpeed p) (-1) 0 (replicate (Z.to_nat MAX_STACK_DEPTH) 0) in
  let! l := mget loopTask in
  match l with
  | None => mmod (λ s, with_loopTask (Some p) (with_tasks (<[p := task p]> (tasks s)) s))
  | Some l =>
    let! t := deref l in
    mmod (λ s, with_tasks (<[p := task (next t)]> (tasks s)) s) ;;;
    update l (with_next p)
  end ;;;
  mreturn p.

(** ** Events *)

Definition startNonRecursiveTask (pc loco_ : Z) : M St unit :=
  let! l := ring in
  let! h := mget tasks in
  if existsb (λ p, match h !! p with
                   | Some t => (onEventStartPosition t =? pc) && (loco t =? u16 loco_)
                   | None => false
                   end) l
  then mreturn tt else
  let! p := new_task pc loco_ false in
  update p (with_onEventStartPosition pc).
Fixpoint handle_cells (n : nat) (i : nat) (m : list (Z * Z)) (id loco : Z) : M St unit :=
  match n with
  | O => mreturn tt
  | S n =>
    let! c := mlift (m !! i) in
    (when c.1 =? id do startNonRecursiveTask c.2 loco) ;;;
    handle_cells n (S i) m id loco
  end.
Definition handleEvent (l : Lookup) (id loco : Z) : M St unit :=
  let! l := list_of l in handle_cells (Z.to_nat (size l)) 0 (loaded l) (i16 id) loco.

Definition turnoutEvent (id : Z) (closed : bool) : M St unit :=
  handleEvent (if closed then onCloseLookup else onThrowLookup) id 0.
Definition activateEvent (addr : Z) (activate : bool) : M St unit :=
  handleEvent (if activate then onActivateLookup else onDeactivateLookup) addr 0.
Definition blockEvent (block loco : Z) (entering : bool) : M St unit :=
  when tru (compileFeatures .& FEATURE_BLOCK) do
    handleEvent (if entering then onBlockEnterLookup else onBlockExitLookup) block loco.
Definition changeEvent (vpin : Z) (change : bool) : M St unit := when change do handleEvent onChangeLookup vpin 0.
Definition rotateEvent (id : Z) (change : bool) : M St unit := when change do handleEvent onRotateLookup id 0.
Definition clockEvent (clocktime : Z) (change : bool) : M St unit :=
  when change do
    (handleEvent onClockLookup clocktime 0 ;;;
     handleEvent onClockLookup (25 * 60 + Z.rem clocktime 60) 0).
Definition powerEvent (track : Z) (overload : bool) : M St unit := when overload do handleEvent onOverloadLookup track 0.

Definition readLocoCallback (cv : Z) : M St unit :=
  if cv <=? 0 then mmod (with_progtrackLocoId 0) else
  if tru (cv .& DCCACK.DCCACK.LONG_ADDR_MARKER) then
    let id := cv .^ DCCACK.DCCACK.LONG_ADDR_MARKER in
    mmod (with_progtrackLocoId (if id <=? DCC.DCC.HIGHEST_SHORT_ADDR then 0 else id))
  else mmod (with_progtrackLocoId cv).

(** The events of the station that EXRAIL waits for. *)
Definition deliver (e : Station.ev) : M St unit :=
  match e with
  | OfLayout (Layout.Layout.TurnoutEvent id closed) => turnoutEvent id closed
  | OfDCC (DCC.DCC.ActivateEvent addr gate) => activateEvent addr gate
  | OfTurntables (Turntables.Turntables.RotateEvent id change) => rotateEvent id change
  | OfTracks (TrackManager.TrackManager.Track t MotorDriver.MotorDriver.PowerEvent) => powerEvent t true
  | ClockEvent time change => clockEvent time change
  | ReadLoco cv => readLocoCallback cv
  | e => emit (OfStation e)
  end.
(** What the station does, and the tasks that its events start. *)
Definition on_world {A} (m : M World A) : M St A := λ s,
  '(a, w) ← m (world s);
  '(_, s) ← mfor (drop (length (Station.out (world s))) (Station.out w)) deliver (with_world w s);
  Some (a, s).

Section io.
Variable i : Io.

Definition setThrottle (cab speed : Z) (dir : bool) : M St unit :=
  on_world (on_dcc (DCC.DCC.setThrottle (Station.now (station i)) (u16 cab) (u8 speed) dir)) ;;; mreturn tt.
Definition getThrottleDirection (cab : Z) : M St bool := on_world (on_dcc (DCC.DCC.getThrottleDirection (i16 cab))).
(** DCC::setThrottle(loco, speed, DCC::getThrottleDirection(loco)) *)
Definition setSpeed (cab speed : Z) : M St unit :=
  let! dir := getThrottleDirection cab in setThrottle cab speed dir.

(** ** The end of a task *)

(** [for (ring = next;; ring = ring->next) if (ring->next == this)]: the task before. *)
Fixpoint before_loop (fuel : nat) (p r : ptr) : M St ptr :=
  match fuel with
  | O => Prelude.mfail
  | S fuel =>
    let! t := deref r in
    if decide (next t = p) then mreturn r else before_loop fuel p (next t)
  end.
(** The destructor, and the memory given back. *)
Definition delete (p : ptr) : M St unit :=
  let! t := deref p in
  (when (loco t >? 0) && (onEventStartPosition t =? -1) do setSpeed (loco t) 1) ;;;
  setFlag (taskId t) 0 TASK_FLAG ;;;
  let! t := deref p in
  (if decide (next t = p) then mmod (with_loopTask None)
   else
     let! fuel := fuel_of in
     let! r := before_loop fuel p (next t) in
     update r (with_next (next t)) ;;;
     mmod (with_loopTask (Some (next t)))) ;;;
  mmod (λ s, with_tasks (base.delete p (tasks s)) s).
(** The reason is only printed. *)
Definition kill (p : ptr) : M St unit := delete p.

(** KILLALL *)
Fixpoint killall_loop (fuel : nat) : M St unit :=
  let! l := mget loopTask in
  match l, fuel with
  | None, _ => mreturn tt
  | Some _, O => Prelude.mfail
  | Some p, S fuel => kill p ;;; killall_loop fuel
  end.
Definition killall : M St unit := let! fuel := fuel_of in killall_loop fuel.

(** ** Blinking pins *)

Definition blinks (pin lastPin : Z) (t : Task) : bool :=
  bool_decide (blinkState t = blink_high ∨ blinkState t = blink_low) && (blinkPin t >=? pin) && (blinkPin t <=? lastPin).
Fixpoint kill_blink_loop (fuel : nat) (pin lastPin : Z) (stoptask task : ptr) : M St unit :=
  match fuel with
  | O => Prelude.mfail
  | S fuel =>
    let! t := deref task in
    (when blinks pin lastPin t do kill task) ;;;
    if decide (next t = stoptask) then mreturn tt else kill_blink_loop fuel pin lastPin stoptask (next t)
  end.
Definition killBlinkOnVpin (pin count : Z) : M St unit :=
  if negb (tru (compileFeatures .& FEATURE_BLINK)) then mreturn tt else
  let! l := mget loopTask in
  match l with
  | None => mreturn tt
  | Some p =>
    let! fuel := fuel_of in
    kill_blink_loop fuel (u16 pin) (u16 (u16 pin + u16 count - 1)) p p
  end.

(** ** Signals *)

Definition getSignalSlot (slot : Z) : M St SIGNAL_DEFINITION :=
  mlift (if slot <? 0 then None else SignalDefinitions !! Z.to_nat slot).

(** One lamp of a signal of three pins. *)
Definition set_lamp (pin : Z) (aHigh val : bool) : M St unit :=
  when tru pin do
    (killBlinkOnVpin pin 1 ;;;
     emit (Write pin (b2z (if aHigh then val else negb val)))).

Definition doSignal (id rag : Z) : M St unit :=
  if negb (tru (compileFeatures .& FEATURE_SIGNAL)) then mreturn tt else
  handleEvent (if rag =? SIGNAL_RED then onRedLookup else if rag =? SIGNAL_GREEN then onGreenLookup else onAmberLookup) id 0 ;;;
  let! sigslot := find_in signalLookup id in
  if sigslot <? 0 then mreturn tt else
  setFlag sigslot rag SIGNAL_MASK ;;;
  let! signal := getSignalSlot sigslot in
  let choose s := if rag =? SIGNAL_RED then redpin s else if rag =? SIGNAL_GREEN then greenpin s else amberpin s in
  match type signal with
  | sigtypeSERVO => when tru (choose signal) do emit (WriteAnalogue (u16 id) (i16 (choose signal)) 4 0)
  | sigtypeDCC =>
    on_world (on_dcc (DCC.DCC.setAccessory (i16 (redpin signal)) (u8 (amberpin signal)) (negb (rag =? SIGNAL_RED)) 2))
  | sigtypeDCCX =>
    on_world (on_dcc (DCC.DCC.setExtendedAccessory (i16 id) (i16 (choose signal)) 3)) ;;; mreturn tt
  | sigtypeNEOPIXEL =>
    let! signal2 := getSignalSlot (sigslot + 1) in
    emit (WriteAnalogue (u16 id) (i16 (choose signal)) 1 (choose signal2))
  | sigtypeSIGNAL | sigtypeSIGNALH =>
    let SIMAMBER := 0 in
    let rag := if (rag =? SIGNAL_AMBER) && (amberpin signal =? 0) then SIMAMBER else rag in
    let aHigh := match type signal with sigtypeSIGNALH => true | _ => false end in
    set_lamp (redpin signal) aHigh ((rag =? SIGNAL_RED) || (rag =? SIMAMBER)) ;;;
    set_lamp (amberpin signal) aHigh (rag =? SIGNAL_AMBER) ;;;
    set_lamp (greenpin signal) aHigh ((rag =? SIGNAL_GREEN) || (rag =? SIMAMBER))
  | sigtypeVIRTUAL | sigtypeContinuation | sigtypeNoMoreSignals => mreturn tt
  end.

Definition isSignal (id rag : Z) : M St bool :=
  if negb (tru (compileFeatures .& FEATURE_SIGNAL)) then mreturn false else
  let! sigslot := find_in signalLookup id in
  if sigslot <? 0 then mreturn false else
  λ s, f ← flags s !! Z.to_nat sigslot; Some (f .& SIGNAL_MASK =? rag, s).

Definition signalAspectEvent (address aspect : Z) : M St bool :=
  if negb (tru (compileFeatures .& FEATURE_SIGNAL)) then mreturn false else
  let! sigslot := find_in signalLookup address in
  if sigslot <? 0 then mreturn false else
  let! signal := getSignalSlot sigslot in
  match type signal with
  | sigtypeDCCX =>
    if aspect =? redpin signal then doSignal address SIGNAL_RED ;;; mreturn true
    else if aspect =? amberpin signal then doSignal address SIGNAL_AMBER ;;; mreturn true
    else if aspect =? greenpin signal then doSignal address SIGNAL_GREEN ;;; mreturn true
    else mreturn false
  | _ => mreturn false
  end.

(** ** Routes *)

Definition manageRouteState (id state : Z) : M St unit :=
  if negb (tru compileFeatures) then mreturn tt else       (* && where & is meant *)
  let! l := list_of routeLookup in
  let! position := mlift (findPosition l (i16 id)) in
  if position <? 0 then mreturn tt else
  let! a := mget routeStateArray in
  let! a := mlift a in
  let! old := mlift (a !! Z.to_nat position) in
  if old =? state then mreturn tt else
  (mmod (with_routeStateArray (Some (<[Z.to_nat position := state]> a))) ;;;
   emit (BroadcastRouteState (i16 id) state)).
Definition ifRouteState (id state : Z) : M St bool :=
  if negb (tru compileFeatures) then mreturn false else
  let! l := list_of routeLookup in
  let! position := mlift (findPosition l (i16 id)) in
  if position <? 0 then mreturn false else
  let! a := mget routeStateArray in
  let! a := mlift a in
  let! old := mlift (a !! Z.to_nat position) in
  mreturn (old =? state).
(** Captions are compared by address: each macro has its own text. *)
Definition manageRouteCaption (id : Z) (caption : string) : M St unit :=
  if negb (tru compileFeatures) then mreturn tt else
  let! l := list_of routeLookup in
  let! position := mlift (findPosition l (i16 id)) in
  if position <? 0 then mreturn tt else
  let! a := mget routeCaptionArray in
  let! a := mlift a in
  let! old := mlift (a !! Z.to_nat position) in
  if bool_decide (old = Some caption) then mreturn tt else
  (mmod (with_routeCaptionArray (Some (<[Z.to_nat position := Some caption]> a))) ;;;
   emit (BroadcastRouteCaption (i16 id) caption)).

(** ** Texts *)

(** The 64 bytes of the string buffer take what fits. *)
Definition buffered (text : list Z) : option (list Z) :=
  b ← StringBuffer.new (replicate 64 0) 64;
  b ← StringBuffer.print text b;
  StringBuffer.getString b.
Definition thrungeString (cab mode lcdid : Z) (text : list Z) : M St unit :=
  if mode =? thrunge_print then emit (PrintCab cab text) else
  if mode =? thrunge_serial then emit (Serial 0 text) else
  if (thrunge_serial1 <=? mode) && (mode <=? thrunge_serial6) then
    when serialThere (mode - 4) do emit (Serial (mode - 4) text)
  else if mode =? thrunge_lcn then when lcnThere do emit (Serial 7 text)
  else
    let! text := mlift (buffered text) in
    if mode =? thrunge_parse then emit (Parse text) else
    if mode =? thrunge_broadcast then emit (Broadcast false text) else
    if mode =? thrunge_withrottle then emit (Broadcast true text) else
    if mode =? thrunge_message then emit (BroadcastMessage text) else
    emit (Lcd (mode - thrunge_lcd) lcdid text).

(** IODevice::read of an int16_t. *)
Definition readPin (vpin : Z) : Z := read i (u16 vpin).
Fixpoint ifAny_loop (vpins : list Z) : bool :=
  match vpins with
  | [] => true (* none found *)
  | vpin :: vpins =>
    if (vpin <? 0) && (readPin (- vpin) =? 0) then false
    else if readPin vpin >? 0 then false else ifAny_loop vpins
  end.
Fixpoint ifAll_loop (vpins : list Z) : bool :=
  match vpins with
  | [] => false (* no failures found *)
  | vpin :: vpins =>
    if (vpin <? 0) && (readPin (- vpin) >? 0) then true
    else if readPin vpin =? 0 then true else ifAll_loop vpins
  end.
Definition ifAnyFunc (vpins : list Z) : M St unit := mmod (with_skipIf (ifAny_loop vpins)).
Definition ifAllFunc (vpins : list Z) : M St unit := mmod (with_skipIf (ifAll_loop vpins)).

Definition printMessage (cab id : Z) : M St unit :=
  match message (u16 id) with
  | NoMessage => mreturn tt
  | Thrunge mode lcdid text => thrungeString cab mode lcdid text
  | RouteCaption id caption => manageRouteCaption id caption
  | IfLoco locos => mmod (with_skipIf (negb (existsb (λ l, cab =? u16 l) locos)))
  | IfAll vpins => ifAllFunc vpins
  | IfAny vpins => ifAnyFunc vpins
  end.

(** ** Sensors *)

Definition readSensor (sensorId : Z) : M St bool :=
  let sId := i16 sensorId in
  let vpin := u16 (Z.abs sId) in
  let! latched := getFlag vpin LATCH_FLAG in
  if latched : bool then mreturn true else
  mreturn (tru (read i vpin .^ b2z (sId <? 0))).
End io.
End exrail.
End Exrail.
