(* ===== verification/ExrailRun.v ===== *)
(** EXRAIL at work (src/EXRAIL2.cpp, src/EXRAILSensor.cpp): what each opcode does,
    the share of the main loop that runs one instruction of one task, the sensors
    that start tasks, and the set-up of an automation at the start. An opcode
    ends with [Break], after which the task goes on behind it, or with [Return],
    which leaves the counter to the opcode (the task waits, jumps or is gone). *)

From S2P Require Import Prelude Keywords Chain LocoSlot DCCConsist DCC MotorDriver TrackManager DCCACK Layout Turnouts Turntables Stash Format Station Exrail.
From stdpp Require Import strings.

#[local] Open Scope Z_scope.
#[local] Open Scope c_scope.

Module ExrailRun.
Import Station Exrail.

Section exrail.
Context `{!Config} `{!MotorDriver.MotorDriver.Board} `{!Layout.Layout.Machine} `{!Devices} `{!Program} `{!Garbage}.
Variable i : Io.

Definition delayMe (p : ptr) (delay : Z) : M St unit :=
  update p (λ t, with_delayStart (millis i) (with_delayTime (u32 delay) t)).
Definition SKIPOP (p : ptr) : M St unit := update p (λ t, with_progCounter (progCounter t + 3) t).

(** ** Skipping a block *)

(** To the end of an if block, or to the ELSE within it; [false] if killed. *)
Fixpoint skip_loop (fuel : nat) (p : ptr) (nest : Z) : M St bool :=
  match fuel with
  | O => Prelude.mfail
  | S fuel =>
    if nest <=? 0 then mreturn true else
    SKIPOP p ;;;
    let! t := deref p in
    let! opcode := mlift (code_at (progCounter t)) in
    if opcode >? number_of IF_TYPE_OPCODES then skip_loop fuel p (nest + 1)
    else if opcode =? number_of OPCODE_ENDEXRAIL then kill i p ;;; mreturn false
    else if opcode =? number_of OPCODE_ENDIF then skip_loop fuel p (nest - 1)
    else if opcode =? number_of OPCODE_ELSE then skip_loop fuel p (if nest =? 1 then 0 else nest)
    else skip_loop fuel p nest
  end.
Definition skipIfBlock (p : ptr) : M St bool := skip_loop (S (S (length RouteCode))) p 1.

(** ** Pausing *)

Definition pause (p : ptr) : M St unit :=
  let! t := deref p in
  when tru (loco t) do
    (let! b := on_world (on_dcc (DCC.DCC.getThrottleSpeedByte (i16 (loco t)))) in update p (with_pauseSpeed b)).
Definition resume (p : ptr) : M St unit :=
  let! t := deref p in
  when tru (loco t) do setThrottle i (loco t) (pauseSpeed t .& 0x7f) (tru (pauseSpeed t .& 0x80)).

(** ** The opcodes *)

Inductive Exit := Break | Return.

Section task.
Variable p : ptr.            (* this *)
Variable t : Task.           (* its members *)
Variable operand : Z.        (* int16_t *)

Definition operand_n (n : Z) : M St Z := mlift (getOperand (progCounter t) n).
Definition break (m : M St unit) : M St Exit := m ;;; mreturn Break.
Definition return_ (m : M St unit) : M St Exit := m ;;; mreturn Return.
(** A wait of some milliseconds, then the same opcode again. *)
Definition again (ms : Z) : M St Exit := return_ (delayMe p ms).
Definition set_skip (b : bool) : M St Exit := break (mmod (with_skipIf b)).
Definition with_loco_do (m : M St unit) : M St Exit := break (when tru (loco t) do m).
Definition on_stashes (f : Stash.Stash.St → Stash.Stash.St) : M St unit := on_world (mmod (λ w, with_stashes (f (stashes w)) w)).
Definition stash (id : Z) : M St Z := on_world (mget (λ w, Stash.Stash.get id (stashes w))).
Definition on_track {A} (m : TrackManager.TrackManager.Throttles → M TrackManager.TrackManager.St A) : M St A := on_world (on_tracks m).
Definition on_consists {A} (f : LocoSlot.St → option (A * LocoSlot.St)) : M St A :=
  on_world (on_dcc (λ d, '(a, s) ← f (DCC.DCC.slots d); Some (a, DCC.DCC.with_slots s d))).
Definition drop_bool (m : M St bool) : M St unit := m ;;; mreturn tt.

(** *** Turnouts and turntables *)

Definition isClosed (id : Z) : M St bool := on_world (on_layout (Turnouts.Turnouts.isClosed (u16 id))).
Definition setClosed (id : Z) (close : bool) : M St unit := drop_bool (on_world (on_layout (Turnouts.Turnouts.setClosed (u16 id) close))).

(** *** Locos *)

Definition getThrottleSpeed : M St Z := on_world (on_dcc (DCC.DCC.getThrottleSpeed (i16 (loco t)))).
(** SPEEDUP, SLOWDOWN and SPEED_REL, from the speed before to the speed that is set. *)
Definition speedup (speed : Z) : Z :=
  let newspeed := i16 (speed + operand) in
  if newspeed >? 127 then 127 else if newspeed =? 1 then 2 else i8 newspeed.
Definition slowdown (speed : Z) : Z :=
  let newspeed := i16 (speed - operand) in if newspeed <? 2 then 0 else i8 newspeed.
Definition speed_rel (speed : Z) : Z :=
  let newspeed := Z.quot (i16 (speed * operand)) 100 in
  if newspeed >? 127 then 127 else if newspeed =? 1 then 0 else i8 newspeed.
Definition change_speed (stays : Z → bool) (f : Z → Z) : M St Exit :=
  with_loco_do (let! speed := getThrottleSpeed in
                when negb (stays speed) do setSpeed i (loco t) (f speed)).

(** *** What a task does with its loco, functions and CVs *)

Definition setFn (cab fn : Z) (on : bool) : M St unit := drop_bool (on_world (on_dcc (DCC.DCC.setFn (i16 cab) (i16 fn) on))).

(** *** Blocks, signals and sensors *)

Definition analogue (vpin : Z) : Z := i16 (readAnalogue i (u16 vpin)).
Definition wait_sensor (m : bool) (ms : Z) : M St Exit := if m then break (mreturn tt) else again ms.
(** ATGTE and ATLT *)
Definition wait_analogue (test : Z → Z → bool) : M St Exit :=
  update p (with_blinkState not_blink_task) ;;;
  let! value := operand_n 1 in
  wait_sensor (test (analogue operand) (i16 value)) 50.

(** *** Pins, power and messages *)

Definition setPins (on : bool) : M St unit :=
  let! count := operand_n 1 in
  mfor (rangeZ 0 count) (λ k, killBlinkOnVpin i (u16 (operand + k)) 1 ;;; emit (Write (u16 (operand + k)) (b2z on))).
Definition write_bitmap (f : Z → Z → Z) : M St Exit :=
  let! mask := operand_n 1 in break (emit (WriteAnalogue (u16 operand) (i16 (f (u16 (analogue operand)) mask)) 0 0)).
Definition lcc_send (format : string) (args : M St (list arg)) : M St Exit :=
  let! stream := mget LCCSerial in
  match stream with
  | Some stream => if tru (compileFeatures .& FEATURE_LCC) then (let! a := args in break (emit (Send stream format a))) else mreturn Break
  | None => mreturn Break
  end.
Definition acon (letter : Z) : M St Exit :=
  lcc_send "<L x%c%h%h>" (let! low := operand_n 1 in mreturn [I letter; I (u16 operand); I low]).
Definition power_env : TrackManager.TrackManager.Env := track_env (station i).

(** *** Jumps and tasks *)

Definition jump (pc : Z) : M St Exit :=
  update p (with_progCounter pc) ;;; return_ (when pc <? 0 do kill i p).
Definition push (pc : Z) : M St unit := λ s,
  if negb ((0 <=? stackDepth t) && (stackDepth t <? Z.of_nat (length (callStack t)))) then None else
  update p (λ t, with_stackDepth (u8 (stackDepth t + 1)) (with_callStack (<[Z.to_nat (stackDepth t) := pc]> (callStack t)) t)) s.
(** One of the routes that the next instructions give, [operand] of them. *)
Definition random_route : M St Z :=
  if operand =? 0 then Prelude.mfail else
  let! route := operand_n (u8 (1 + millis i mod u32 operand)) in mreturn route.
(** A new task at the start of a route, if there is one. *)
Definition start (route loco_ : Z) (inv : bool) (after : M St unit) : M St Exit :=
  let! newPc := find_in routeLookup route in
  if newPc <? 0 then mreturn Break else new_task newPc (i16 loco_) inv ;;; break after.

(** *** The switch, in the order of its cases *)

(** Turnouts, turntables and speeds. *)
Definition train_op (o : OPCODE) : option (M St Exit) :=
  match o with
  | OPCODE_THROW => Some (break (setClosed operand false))
  | OPCODE_CLOSE => Some (break (setClosed operand true))
  | OPCODE_TOGGLE_TURNOUT => Some (let! c := isClosed operand in break (setClosed operand (negb c)))
  | OPCODE_ROTATE => Some (
      let! activity := operand_n 2 in
      let! position := operand_n 1 in
      break (drop_bool (on_world (on_turntables (Turntables.Turntables.setPosition (u16 operand) position activity)))))
  | OPCODE_REV => Some (with_loco_do (setThrottle i (loco t) operand (invert t)))
  | OPCODE_FWD => Some (with_loco_do (setThrottle i (loco t) operand (negb (invert t))))
  | OPCODE_SPEED => Some (with_loco_do (setSpeed i (loco t) operand))
  | OPCODE_SAVE_SPEED => Some (with_loco_do (on_world (on_dcc (DCC.DCC.saveSpeed (i16 (loco t))))))
  | OPCODE_RESTORE_SPEED =>
    Some (with_loco_do (on_world (on_dcc (DCC.DCC.restoreSpeed (Station.now (station i)) (i16 (loco t))))))
  | OPCODE_XSAVE_SPEED => Some (break (on_world (on_dcc (DCC.DCC.saveSpeed operand))))
  | OPCODE_XRESTORE_SPEED => Some (break (on_world (on_dcc (DCC.DCC.restoreSpeed (Station.now (station i)) operand))))
  | OPCODE_SPEEDUP => Some (change_speed (λ s, (s =? 1) || (s =? -1)) speedup)
  | OPCODE_SPEED_REL => Some (change_speed (λ s, s <? 2) speed_rel)
  | OPCODE_SLOWDOWN => Some (change_speed (λ s, (s =? 1) || (s =? -1)) slowdown)
  | OPCODE_MOMENTUM => Some (
      let! deceleration := operand_n 1 in
      break (drop_bool (on_world (on_dcc (DCC.DCC.setMomentum (i16 (loco t)) operand (i16 deceleration))))))
  | OPCODE_ESTOPALL => Some (break (
      if operand =? 0 then on_world (on_dcc DCC.DCC.estopAll)
      else on_world (on_dcc (DCC.DCC.estopLock (operand =? 1)))))
  | OPCODE_FORGET => Some (with_loco_do (on_world (on_dcc (DCC.DCC.forgetLoco (i16 (loco t)))) ;;; update p (with_loco 0)))
  | OPCODE_CONSIST => Some (break (
      if operand =? 0 then on_consists (λ s, s ← DCCConsist.DCCConsist.deleteAnyConsist (i16 (loco t)) s; Some (tt, s))
      else drop_bool (on_consists (DCCConsist.DCCConsist.addLocoToConsist (loco t) (u16 (Z.abs operand)) (operand <? 0)))))
  | OPCODE_INVERT_DIRECTION => Some (break (update p (with_invert (negb (invert t)))))
  | _ => None
  end.

(** Blocks, sensors and timeouts. *)
Definition block_op (o : OPCODE) : option (M St Exit) :=
  match o with
  | OPCODE_RESERVE => Some (
      let! reserved := getFlag operand SECTION_FLAG in
      if reserved : bool then (when tru (loco t) do setSpeed i (loco t) 1) ;;; again 500
      else break (drop_bool (setFlag operand SECTION_FLAG 0)))
  | OPCODE_FREE => Some (break (drop_bool (setFlag operand 0 SECTION_FLAG)))
  | OPCODE_FREEALL => Some (break (mfor (rangeZ 0 MAX_FLAGS) (λ f, drop_bool (setFlag f 0 SECTION_FLAG))))
  | OPCODE_AT => Some (
      update p (with_blinkState not_blink_task) ;;;
      let! hit := readSensor i operand in wait_sensor hit 50)
  | OPCODE_ATGTE => Some (wait_analogue Z.geb)
  | OPCODE_ATLT => Some (wait_analogue Z.ltb)
  | OPCODE_ATTIMEOUT1 => Some (break (update p (λ t, with_blinkState not_blink_task (with_un (millis i) t))))
  | OPCODE_ATTIMEOUT2 => Some (
      let! hit := readSensor i operand in
      if hit : bool then break (mreturn tt) else
      let! timeout := operand_n 1 in
      if u32 (millis i - timeoutStart t) >? u16 (100 * timeout)
      then break (update p (with_blinkState at_timeout)) else again 50)
  | OPCODE_IFTIMEOUT => Some (set_skip (negb (bool_decide (blinkState t = at_timeout))))
  | OPCODE_AFTER => Some (
      let! hit := readSensor i operand in
      if hit : bool then update p (with_un (millis i)) ;;; again 50 else
      let! time := operand_n 1 in
      if u32 (millis i - waitAfter t) <? time then mreturn Return else mreturn Break)
  | OPCODE_AFTEROVERLOAD => Some (
      let! on := on_track (λ _, TrackManager.TrackManager.isPowerOn (u8 operand)) in
      if negb on then update p (with_un (millis i)) ;;; again 50 else
      if u32 (millis i - waitAfter t) <? 500 then mreturn Return else mreturn Break)
  | OPCODE_LATCH => Some (break (drop_bool (setFlag operand LATCH_FLAG 0)))
  | OPCODE_UNLATCH => Some (break (drop_bool (setFlag operand 0 LATCH_FLAG)))
  | _ => None
  end.

(** Pins, pausing, CVs and power. *)
Definition output_op (o : OPCODE) : option (M St Exit) :=
  match o with
  | OPCODE_SET => Some (break (setPins true))
  | OPCODE_RESET => Some (break (setPins false))
  | OPCODE_BLINK => Some (break (
      killBlinkOnVpin i (u16 operand) 1 ;;;
      let! newtask := new_task (progCounter t) 0 false in
      update newtask (λ t, with_blinkState blink_low (with_blinkPin operand t))))
  | OPCODE_PAUSE => Some (break (on_world (on_dcc DCC.DCC.estopAll) ;;; mmod (with_pausingTask (PausedBy p))))
  | OPCODE_POM => Some (
      let! value := operand_n 1 in
      with_loco_do (on_world (on_dcc (DCC.DCC.writeCVByteMain (i16 (loco t)) operand (u8 value)))))
  | OPCODE_XPOM => Some (
      let! cv := operand_n 1 in
      let! value := operand_n 2 in
      break (on_world (on_dcc (DCC.DCC.writeCVByteMain operand (i16 cv) (u8 value)))))
  | OPCODE_POWEROFF => Some (break (
      on_track (λ _, TrackManager.TrackManager.setPower_ power_env MotorDriver.MotorDriver.OFF) ;;;
      on_track (λ _, TrackManager.TrackManager.setJoin false)))
  | OPCODE_SET_POWER => Some (break (
      when (operand =? 0) || (operand =? 1) do
        (let! track := operand_n 1 in
         on_track (λ _, TrackManager.TrackManager.setOneTrackPower power_env
                     (if operand =? 0 then MotorDriver.MotorDriver.OFF else MotorDriver.MotorDriver.ON) (u8 track)))))
  | OPCODE_SET_TRACK => Some (
      let mode := operand >>' 8 in
      let cab := if tru (mode .& MotorDriver.MotorDriver.TRACK_MODE_DC) then i16 (loco t) else 0 in
      break (drop_bool (on_track (λ _, TrackManager.TrackManager.setTrackMode power_env (operand .& 0x0F) mode cab true))))
  | OPCODE_SETFREQ => Some (break (on_world (on_dcc (DCC.DCC.setDCFreq (i16 (loco t)) (u8 operand)))))
  | OPCODE_RESUME => Some (break (
      mmod (with_pausingTask NotPausing) ;;;
      resume p ;;;
      let! l := others p in mfor l resume))
  | _ => None
  end.

(** Conditions. *)
Definition if_op (o : OPCODE) : option (M St Exit) :=
  match o with
  | OPCODE_IF => Some (let! hit := readSensor i operand in set_skip (negb hit))
  | OPCODE_ELSE => Some (set_skip true)
  | OPCODE_IFGTE => Some (let! v := operand_n 1 in set_skip (analogue operand <? i16 v))
  | OPCODE_IFLT => Some (let! v := operand_n 1 in set_skip (analogue operand >=? i16 v))
  | OPCODE_IFBITMAP_ALL => Some (let! v := operand_n 1 in set_skip (negb (u16 (analogue operand) .& v =? v)))
  | OPCODE_IFBITMAP_ANY => Some (let! v := operand_n 1 in set_skip (u16 (analogue operand) .& v =? 0))
  | OPCODE_IFNOT => Some (let! hit := readSensor i operand in set_skip hit)
  | OPCODE_IFRE => Some (let! v := operand_n 1 in set_skip (negb (analogue operand =? i16 v)))
  | OPCODE_IFRANDOM => Some (set_skip (u8 (micros i) >=? Z.quot (i16 (operand * 255)) 100))
  | OPCODE_IFRESERVE => Some (
      let! reserved := getFlag operand SECTION_FLAG in
      if reserved : bool then set_skip true else break (drop_bool (setFlag operand SECTION_FLAG 0)))
  | OPCODE_IFRED => Some (let! b := isSignal operand SIGNAL_RED in set_skip (negb b))
  | OPCODE_WAIT_WHILE_RED => Some (
      let! red := isSignal operand SIGNAL_RED in
      if negb red then mreturn Break else
      (when tru (loco t) do
         (let! b := on_world (on_dcc (DCC.DCC.getLocoSpeedByte (i16 (loco t)))) in
          when b .& 0x7f >? 1 do setSpeed i (loco t) 0)) ;;;
      again 500)
  | OPCODE_IFAMBER => Some (let! b := isSignal operand SIGNAL_AMBER in set_skip (negb b))
  | OPCODE_IFGREEN => Some (let! b := isSignal operand SIGNAL_GREEN in set_skip (negb b))
  | OPCODE_IFTHROWN => Some (let! c := isClosed operand in set_skip c)
  | OPCODE_IFCLOSED => Some (let! c := isClosed operand in set_skip (negb c))
  | OPCODE_IFSTASH => Some (let! x := stash operand in set_skip (x =? 0))
  | OPCODE_IFSTASHED_HERE => Some (let! x := stash operand in set_skip (negb (x .& 0x7FFF =? loco t)))
  | OPCODE_IFTTPOSITION => Some (
      let! position := operand_n 1 in
      let! at_ := on_world (mget (λ w, Turntables.Turntables.getPosition (u16 operand) (turntables w))) in
      set_skip (negb (at_ =? i16 position)))
  | OPCODE_ENDIF => Some (break (mreturn tt))
  | _ => None
  end.

(** Delays, signals, functions and accessories. *)
Definition delay_op (o : OPCODE) : option (M St Exit) :=
  match o with
  | OPCODE_DELAYMS => Some (break (delayMe p operand))
  | OPCODE_DELAY => Some (break (delayMe p (operand * 100)))
  | OPCODE_DELAYMINS => Some (break (delayMe p (operand * 60 * 1000)))
  | OPCODE_RANDWAIT => Some (break (delayMe p (if operand =? 0 then 0 else u32 (u32 (micros i) mod u32 operand * 100))))
  | OPCODE_RED => Some (break (doSignal i operand SIGNAL_RED))
  | OPCODE_AMBER => Some (break (doSignal i operand SIGNAL_AMBER))
  | OPCODE_GREEN => Some (break (doSignal i operand SIGNAL_GREEN))
  | OPCODE_FON => Some (with_loco_do (setFn (loco t) operand true))
  | OPCODE_FOFF => Some (with_loco_do (setFn (loco t) operand false))
  | OPCODE_FTOGGLE => Some (with_loco_do (on_world (on_dcc (DCC.DCC.changeFn (i16 (loco t)) operand))))
  | OPCODE_DRIVE => Some (mreturn Break) (* non functional but reserved *)
  | OPCODE_XFON => Some (let! fn := operand_n 1 in break (setFn operand fn true))
  | OPCODE_XFOFF => Some (let! fn := operand_n 1 in break (setFn operand fn false))
  | OPCODE_XFTOGGLE => Some (let! fn := operand_n 1 in break (on_world (on_dcc (DCC.DCC.changeFn operand (i16 fn)))))
  | OPCODE_XFWD => Some (let! speed := operand_n 1 in break (setThrottle i operand speed true))
  | OPCODE_XREV => Some (let! speed := operand_n 1 in break (setThrottle i operand speed false))
  | OPCODE_DCCACTIVATE =>
    Some (break (on_world (on_dcc (DCC.DCC.setAccessory (operand >>' 3) ((operand >>' 1) .& 0x03) (tru (operand .& 0x01)) 2))))
  | OPCODE_ASPECT => Some (
      let address := operand >>' 5 in
      let aspect := operand .& 0x1f in
      let! handled := signalAspectEvent i address aspect in
      break (when negb handled do drop_bool (on_world (on_dcc (DCC.DCC.setExtendedAccessory address aspect 3)))))
  | _ => None
  end.

(** Jumps, calls and ends. *)
Definition jump_op (o : OPCODE) : option (M St Exit) :=
  match o with
  | OPCODE_FOLLOW => Some (let! pc := find_in routeLookup operand in jump pc)
  | OPCODE_CALL => Some (
      if stackDepth t =? MAX_STACK_DEPTH then return_ (kill i p) else
      push (progCounter t + 3) ;;;
      let! pc := find_in routeLookup operand in jump pc)
  | OPCODE_RANDOM_FOLLOW => Some (
      let! newroute := random_route in
      let! pc := find_in routeLookup newroute in jump pc)
  | OPCODE_RANDOM_CALL => Some (
      if stackDepth t =? MAX_STACK_DEPTH then return_ (kill i p) else
      let! newroute := random_route in
      push (progCounter t + 3 * (operand + 1)) ;;;
      let! pc := find_in routeLookup newroute in jump pc)
  | OPCODE_RETURN => Some (
      if stackDepth t =? 0 then return_ (kill i p) else
      let! pc := mlift (callStack t !! Z.to_nat (stackDepth t - 1)) in
      return_ (update p (λ t, with_stackDepth (stackDepth t - 1) (with_progCounter pc t))))
  | OPCODE_ENDTASK | OPCODE_ENDEXRAIL => Some (return_ (kill i p))
  | OPCODE_KILLALL => Some (return_ (killall i))
  | _ => None
  end.

(** Joining, reading locos and starting tasks. *)
Definition loco_op (o : OPCODE) : option (M St Exit) :=
  match o with
  | OPCODE_JOIN => Some (break (
      on_track (λ _, TrackManager.TrackManager.setJoin true) ;;;
      on_track (λ _, TrackManager.TrackManager.setMainPower power_env MotorDriver.MotorDriver.ON) ;;;
      on_track (λ _, TrackManager.TrackManager.setProgPower power_env MotorDriver.MotorDriver.ON)))
  | OPCODE_UNJOIN => Some (break (on_track (λ _, TrackManager.TrackManager.setJoin false)))
  | OPCODE_READ_LOCO1 => Some (break (
      mmod (with_progtrackLocoId LOCO_ID_WAITING) ;;;
      on_world (programming (station i) CB_Exrail DCCACK.DCCACK.getDriveawayLocoId)))
  | OPCODE_READ_LOCO2 => Some (
      let! id := mget progtrackLocoId in
      if id =? LOCO_ID_WAITING then again 100 else
      break (update p (λ t, with_invert false (with_loco (u16 id) t))))
  | OPCODE_POWERON => Some (break (
      on_track (λ _, TrackManager.TrackManager.setMainPower power_env MotorDriver.MotorDriver.ON) ;;;
      on_track (λ _, TrackManager.TrackManager.setJoin false)))
  | OPCODE_START => Some (start operand 0 false (mreturn tt))
  | OPCODE_START_SHARED => Some (start operand (loco t) (invert t) (mreturn tt))
  | OPCODE_START_SEND => Some (start operand (loco t) (invert t) (update p (with_loco 0)))
  | OPCODE_SENDLOCO => Some (let! route := operand_n 1 in start route operand false (mreturn tt))
  | OPCODE_SETLOCO => Some (break (update p (λ t, with_invert false (with_loco (u16 operand) t))))
  | _ => None
  end.

(** Messages of the LCC adapter, servos, texts and routes. *)
Definition message_op (o : OPCODE) : option (M St Exit) :=
  match o with
  | OPCODE_LCC => Some (lcc_send "<L x%h>" (mreturn [I (u16 operand)]))
  | OPCODE_ACON => Some (acon 48)
  | OPCODE_ACOF => Some (acon 49)
  | OPCODE_LCCX => Some (lcc_send "<L x%h%h%h%h>" (
      let! a := operand_n 1 in let! b := operand_n 2 in let! c := operand_n 3 in let! d := operand_n 0 in
      mreturn [I a; I b; I c; I d]))
  | OPCODE_SERVO => Some (
      let! position := operand_n 1 in
      let! profile := operand_n 2 in
      let! duration := operand_n 3 in
      break (emit (WriteAnalogue (u16 operand) (i16 position) (u8 profile) duration)))
  | OPCODE_WAITFOR => Some (if isBusy i (u16 operand) then again 100 else break (mreturn tt))
  | OPCODE_NEOPIXEL => Some (
      let vpin := u16 (if operand >? 0 then operand else - operand) in
      let! count := operand_n 3 in
      killBlinkOnVpin i vpin count ;;;
      let! rg := operand_n 1 in
      let! b := operand_n 2 in
      break (emit (WriteAnalogueRange vpin (i16 rg) (b2z (operand >? 0)) b (i16 count))))
  | OPCODE_WAITFORTT => Some (
      let! moving := on_world (mget (λ w, Turntables.Turntables.ttMoving (u16 operand) (turntables w))) in
      if moving : bool then again 100 else break (mreturn tt))
  | OPCODE_IFLOCO | OPCODE_PRINT => Some (break (printMessage i (loco t) operand))
  | OPCODE_ROUTE_HIDDEN => Some (break (manageRouteState operand 2))
  | OPCODE_ROUTE_INACTIVE => Some (break (manageRouteState operand 0))
  | OPCODE_ROUTE_ACTIVE => Some (break (manageRouteState operand 1))
  | OPCODE_ROUTE_DISABLED => Some (break (manageRouteState operand 4))
  | OPCODE_IF_ROUTE_HIDDEN => Some (let! b := ifRouteState operand 2 in set_skip (negb b))
  | OPCODE_IF_ROUTE_INACTIVE => Some (let! b := ifRouteState operand 0 in set_skip (negb b))
  | OPCODE_IF_ROUTE_ACTIVE => Some (let! b := ifRouteState operand 1 in set_skip (negb b))
  | OPCODE_IF_ROUTE_DISABLED => Some (let! b := ifRouteState operand 4 in set_skip (negb b))
  | _ => None
  end.

(** Stashes and bit maps. *)
Definition stash_op (o : OPCODE) : option (M St Exit) :=
  match o with
  | OPCODE_STASH => Some (break (on_stashes (Stash.Stash.set operand (i16 (if invert t then - loco t else loco t)))))
  | OPCODE_CLEAR_STASH => Some (break (on_stashes (Stash.Stash.clear operand)))
  | OPCODE_CLEAR_ALL_STASH => Some (break (on_stashes Stash.Stash.clearAll))
  | OPCODE_CLEAR_ANY_STASH => Some (with_loco_do (on_stashes (Stash.Stash.clearAny (i16 (loco t)))))
  | OPCODE_PICKUP_STASH => Some (
      let! x := stash operand in
      break (if x >=? 0 then update p (λ t, with_invert false (with_loco (u16 x) t))
             else update p (λ t, with_invert true (with_loco (u16 (- x)) t))))
  | OPCODE_BITMAP_INC => Some (break (emit (WriteAnalogue (u16 operand) (i16 (analogue operand + 1)) 0 0)))
  | OPCODE_BITMAP_DEC => Some (
      let newval := i16 (analogue operand - 1) in
      break (emit (WriteAnalogue (u16 operand) (if newval <? 0 then 0 else newval) 0 0)))
  | OPCODE_BITMAP_AND => Some (write_bitmap Z.land)
  | OPCODE_BITMAP_OR => Some (write_bitmap Z.lor)
  | OPCODE_BITMAP_XOR => Some (write_bitmap Z.lxor)
  | _ => None
  end.

(** What has been done at the start, or only marks a place. *)
Definition ignored_op (o : OPCODE) : option (M St Exit) :=
  match o with
  | OPCODE_ROUTE | OPCODE_AUTOMATION | OPCODE_SEQUENCE | OPCODE_AUTOSTART | OPCODE_PAD | OPCODE_TURNOUT
  | OPCODE_SERVOTURNOUT | OPCODE_PINTURNOUT | OPCODE_ONCLOSE | OPCODE_ONLCC | OPCODE_ONACON | OPCODE_ONACOF
  | OPCODE_ONTHROW | OPCODE_ONACTIVATE | OPCODE_ONDEACTIVATE | OPCODE_ONRED | OPCODE_ONAMBER | OPCODE_ONGREEN
  | OPCODE_ONCHANGE | OPCODE_ONTIME | OPCODE_ONBUTTON | OPCODE_ONSENSOR | OPCODE_ONBITMAP
  | OPCODE_DCCTURNTABLE | OPCODE_EXTTTURNTABLE | OPCODE_TTADDPOSITION | OPCODE_ONROTATE
  | OPCODE_ONOVERLOAD | OPCODE_ONBLOCKENTER | OPCODE_ONBLOCKEXIT => Some (mreturn Break)
  | _ => None
  end.

(** The switch; the default kills the task and then falls out of it. *)
Definition invalid : M St Exit := break (kill i p).
Fixpoint first_of (groups : list (OPCODE → option (M St Exit))) (o : OPCODE) : M St Exit :=
  match groups with
  | [] => invalid
  | g :: groups => match g o with Some m => m | None => first_of groups o end
  end.
Definition switch (o : OPCODE) : M St Exit :=
  first_of [train_op; block_op; output_op; if_op; delay_op; jump_op; loco_op; message_op; stash_op; ignored_op] o.
End task.

(** ** A task's turn *)

Definition blink_turn (p : ptr) (t : Task) (level : Z) (state : BlinkState) (n : Z) : M St unit :=
  emit (Write (blinkPin t) level) ;;;
  update p (with_blinkState state) ;;;
  let! delay := mlift (getOperand (progCounter t) n) in delayMe p delay.

Definition loop2 (p : ptr) : M St unit :=
  let! t := deref p in
  if negb (delayTime t =? 0) && (u32 (millis i - delayStart t) <? delayTime t) then mreturn tt else
  let blinking := tru (compileFeatures .& FEATURE_BLINK) in
  if blinking && bool_decide (blinkState t = blink_low) then blink_turn p t 1 blink_high 1 else
  if blinking && bool_decide (blinkState t = blink_high) then blink_turn p t 0 blink_low 2 else
  let! opcode := mlift (code_at (progCounter t)) in
  let! operand := mlift (getOperand (progCounter t) 0) in
  mmod (with_skipIf false) ;;;
  let! exit := match opcode_of opcode with
               | Some o => switch p t (i16 operand) o
               | None => invalid p
               end in
  match exit with
  | Return => mreturn tt
  | Break =>
    let! skip := mget skipIf in
    let! alive := if skip : bool then skipIfBlock p else mreturn true in
    when alive do SKIPOP p
  end.

(** ** Sensors that start tasks *)

Definition minReadCount : Z := 4.
Definition cycleInterval : Z := 10000.

Definition new_sensor (vpin pc : Z) (onChange useAnalog : bool) : M St unit :=
  emit (ConfigureInput (u16 vpin)) ;;;
  let state := u16 (if useAnalog then readAnalogue i (u16 vpin) else read i (u16 vpin)) in
  mmod (λ s, with_sensors (mkSensor (u16 vpin) pc state state onChange useAnalog minReadCount :: sensors s) s).
Definition sensor_at (k : nat) : M St Sensor := let! l := mget sensors in mlift (l !! k).
Definition update_sensor (k : nat) (c : Sensor) : M St unit := mmod (λ s, with_sensors (<[k := c]> (sensors s)) s).

(** EXRAILSensor::check *)
Definition check (k : nat) : M St bool :=
  let! c := sensor_at k in
  let! input := (if useAnalog c then mreturn (u16 (readAnalogue i (pin c)))
                 else let! b := readSensor i (pin c) in mreturn (b2z b)) in
  let c := with_inputState input c in
  if input =? active c then update_sensor k (with_latchDelay minReadCount c) ;;; mreturn false else
  if latchDelay c >? 0 then update_sensor k (with_latchDelay (latchDelay c - 1) c) ;;; mreturn false else
  let c := with_latchDelay minReadCount (with_active input c) in
  update_sensor k c ;;;
  if onChange c || tru (active c) then new_task (sensorCounter c) 0 false ;;; mreturn true
  else mreturn false.

Fixpoint check_loop (fuel : nat) : M St unit :=
  match fuel with
  | O => mreturn tt (* sixteen have been checked *)
  | S fuel =>
    let! k := mget readingSensor in
    match k with
    | None => mreturn tt
    | Some k =>
      let! pause := check k in
      mmod (λ s, with_readingSensor (if decide (S k < length (sensors s))%nat then Some (S k) else None) s) ;;;
      if pause : bool then mreturn tt else check_loop fuel
    end
  end.
Definition checkAll : M St unit :=
  let! l := mget sensors in
  if decide (l = []) then mreturn tt else
  let! reading := mget readingSensor in
  let! last := mget lastReadCycle in
  match reading with
  | None =>
    if u32 (u32 (micros i) - last) <? cycleInterval then mreturn tt else
    (mmod (with_readingSensor (Some 0%nat)) ;;;
     mmod (with_lastReadCycle (u32 (micros i))) ;;;
     check_loop 16)
  | Some _ => check_loop 16
  end.

(** ** The share of the main loop: the next task in the ring *)

Definition loop : M St unit :=
  (when tru (compileFeatures .& FEATURE_SENSOR) do checkAll) ;;;
  let! l := mget loopTask in
  match l with
  | None => mreturn tt
  | Some l =>
    let! t := deref l in
    mmod (with_loopTask (Some (next t))) ;;;
    let! pausing := mget pausingTask in
    when bool_decide (pausing = NotPausing ∨ pausing = PausedBy (next t)) do loop2 (next t)
  end.

Definition createNewTask (route cab : Z) : M St unit :=
  let! pc := find_in routeLookup route in
  if pc <? 0 then mreturn tt else new_task pc (i16 cab) false ;;; mreturn tt.

(** ** The start *)

(** The instructions up to ENDEXRAIL: place and opcode. *)
Fixpoint code_loop (fuel : nat) (pc : Z) : option (list (Z * Z)) :=
  match fuel with
  | O => None
  | S fuel =>
    opcode ← code_at pc;
    if opcode =? number_of OPCODE_ENDEXRAIL then Some [] else
    l ← code_loop fuel (pc + 3); Some ((pc, opcode) :: l)
  end.
Definition code : option (list (Z * Z)) := code_loop (S (length RouteCode)) 0.

(** LookListLoader: one pass counts, the other one loads. *)
Fixpoint load_pass (l : list (Z * Z)) (ops : list OPCODE) (list_ : LookList) : option LookList :=
  match l with
  | [] => Some list_
  | (pc, opcode) :: l =>
    if existsb (λ o, opcode =? number_of o) ops
    then operand ← getOperand pc 0; load_pass l ops (add (i16 operand) (i16 pc) list_)
    else load_pass l ops list_
  end.
Definition LookListLoader (ops : list OPCODE) : option LookList :=
  l ← code;
  let count := i16 (Z.of_nat (length (List.filter (λ c, existsb (λ o, c.2 =? number_of o) ops) l))) in
  load_pass l ops (new_list count).
Definition load (n : Lookup) (ops : list OPCODE) : M St unit :=
  let! l := mlift (LookListLoader ops) in set_list n l.

(** The signal table up to its end, without the continuations: slot and signal. *)
Fixpoint signal_loop (slot : Z) (l : list SIGNAL_DEFINITION) : option (list (Z * SIGNAL_DEFINITION)) :=
  match l with
  | [] => None
  | g :: l =>
    match type g with
    | sigtypeNoMoreSignals => Some []
    | sigtypeContinuation => signal_loop (slot + 1) l
    | _ => r ← signal_loop (slot + 1) l; Some ((slot, g) :: r)
    end
  end.
Definition signal_slots : option (list (Z * SIGNAL_DEFINITION)) := signal_loop 0 SignalDefinitions.

Definition load_signals : M St unit :=
  load onRedLookup [OPCODE_ONRED] ;;;
  load onAmberLookup [OPCODE_ONAMBER] ;;;
  load onGreenLookup [OPCODE_ONGREEN] ;;;
  let! l := mlift signal_slots in
  set_list signalLookup (new_list (i16 (Z.of_nat (length l)))) ;;;
  mfor l (λ '(slot, g),
    let! list_ := list_of signalLookup in
    set_list signalLookup (add (i16 (signal_id g)) slot list_) ;;;
    doSignal i (signal_id g) SIGNAL_RED).

Definition setTurnoutHiddenState (id : Z) : M St unit :=
  match turnoutHidden (i16 id) with
  | Some h => on_world (on_layout (Turnouts.Turnouts.update id (Layout.Layout.with_hidden h)))
  | None => mreturn tt
  end.
Definition setTurntableHiddenState (id : Z) : M St unit :=
  match turntableHidden (i16 id) with
  | Some h => on_world (on_turntables (Turntables.Turntables.update id (Turntables.Turntables.with_hidden h)))
  | None => mreturn tt
  end.
Definition addPosition (id position value angle : Z) : M St unit :=
  on_world (on_turntables (Turntables.Turntables.addPosition id (u8 position) (u16 value) (u16 angle))).

(** The second pass over the code, at an instruction. *)
Definition begin_turnout (pc id : Z) (o : OPCODE) : M St unit :=
  let arg n := mlift (getOperand pc n) in
  let create (m : M Layout.Layout.St bool) : M St unit :=
    let! ok := on_world (on_layout m) in when ok do setTurnoutHiddenState id in
  match o with
  | OPCODE_TURNOUT => let! addr := arg 1 in let! sub := arg 2 in create (Turnouts.Turnouts.createDCC id addr (u8 sub))
  | OPCODE_SERVOTURNOUT =>
    let! pin := arg 1 in let! thrown := arg 2 in let! closed := arg 3 in let! profile := arg 4 in
    create (Turnouts.Turnouts.createServo id pin thrown closed (u8 profile) true)
  | OPCODE_PINTURNOUT => let! pin := arg 1 in create (Turnouts.Turnouts.createVpin id pin true)
  | _ => mreturn tt
  end.
Definition begin_turntable (pc id : Z) (o : OPCODE) : M St unit :=
  let arg n := mlift (getOperand pc n) in
  match o with
  | OPCODE_DCCTURNTABLE =>
    let! home := arg 1 in
    let! ok := on_world (on_turntables (Turntables.Turntables.createDCC id)) in
    when ok do (setTurntableHiddenState id ;;; addPosition id 0 0 home)
  | OPCODE_EXTTTURNTABLE =>
    let! pin := arg 1 in let! home := arg 2 in
    let! ok := on_world (on_turntables (Turntables.Turntables.createEXTT id pin)) in
    when ok do (setTurntableHiddenState id ;;; addPosition id 0 0 home)
  | OPCODE_TTADDPOSITION =>
    let! position := arg 1 in let! value := arg 2 in let! angle := arg 3 in
    let! there := on_world (mget (λ w, Turntables.Turntables.get_turntable id (turntables w))) in
    when bool_decide (is_Some there) do addPosition id position value angle
  | _ => mreturn tt
  end.
Definition begin_op (pc opcode : Z) : M St unit :=
  let! operand := mlift (getOperand pc 0) in
  match opcode_of opcode with
  | Some o =>
    match o with
    | OPCODE_AT | OPCODE_ATTIMEOUT2 | OPCODE_AFTER | OPCODE_IF | OPCODE_IFNOT =>
      emit (ConfigureInput (u16 (Z.abs (i16 operand))))
    | OPCODE_ATGTE | OPCODE_ATLT | OPCODE_IFGTE | OPCODE_IFLT | OPCODE_IFBITMAP_ALL | OPCODE_IFBITMAP_ANY | OPCODE_DRIVE =>
      emit (ConfigureAnalogIn operand)
    | OPCODE_ONSENSOR => when tru (compileFeatures .& FEATURE_SENSOR) do new_sensor operand (pc + 3) true false
    | OPCODE_ONBITMAP => when tru (compileFeatures .& FEATURE_SENSOR) do new_sensor operand (pc + 3) true true
    | OPCODE_ONBUTTON => when tru (compileFeatures .& FEATURE_SENSOR) do new_sensor operand (pc + 3) false false
    | OPCODE_AUTOSTART => new_task pc 0 false ;;; mreturn tt
    | o => begin_turnout pc operand o ;;; begin_turntable pc operand o
    end
  | None => mreturn tt
  end.

Definition load_lists : M St unit :=
  let! l := mlift (LookListLoader [OPCODE_ROUTE; OPCODE_AUTOMATION]) in
  let! sequences := mlift (LookListLoader [OPCODE_SEQUENCE]) in
  set_list routeLookup (chain_to sequences l) ;;;
  (when tru compileFeatures do                             (* && where & is meant *)
     (mmod (with_routeStateArray (Some (replicate (Z.to_nat (size l)) 0))) ;;;
      mmod (with_routeCaptionArray (Some (replicate (Z.to_nat (size l)) None))))) ;;;
  load onThrowLookup [OPCODE_ONTHROW] ;;;
  load onCloseLookup [OPCODE_ONCLOSE] ;;;
  load onActivateLookup [OPCODE_ONACTIVATE] ;;;
  load onDeactivateLookup [OPCODE_ONDEACTIVATE] ;;;
  load onChangeLookup [OPCODE_ONCHANGE] ;;;
  load onClockLookup [OPCODE_ONTIME] ;;;
  load onRotateLookup [OPCODE_ONROTATE] ;;;
  load onOverloadLookup [OPCODE_ONOVERLOAD] ;;;
  when tru (compileFeatures .& FEATURE_BLOCK) do
    (load onBlockEnterLookup [OPCODE_ONBLOCKENTER] ;;; load onBlockExitLookup [OPCODE_ONBLOCKEXIT]).

Definition begin : M St unit :=
  mmod (with_flags (replicate (Z.to_nat MAX_FLAGS) 0)) ;;;
  load_lists ;;;
  (when tru (compileFeatures .& FEATURE_SIGNAL) do load_signals) ;;;
  let! l := mlift code in
  mfor l (λ '(pc, opcode), begin_op pc opcode).

(** Before begin. *)
Definition init (w : World) : St :=
  mkSt w ∅ 1%positive None NotPausing (replicate (Z.to_nat MAX_FLAGS) 0) (λ _, None) None None 0 false false None 0 0
    (replicate (Z.to_nat countLCCLookup) 0) [] None 0 [].
End exrail.
End ExrailRun.
