(* ===== verification/ExrailCommands.v ===== *)
(** The commands of EXRAIL (src/EXRAIL2Parser.cpp): the filter that sees every
    command before the parser does, and the </ ...> commands. Line feeds at the
    end of a format are left out. *)

From S2P Require Import Prelude Keywords Chain LocoSlot DCC MotorDriver TrackManager DCCACK Layout Turntables Station Exrail ExrailRun.
From stdpp Require Import strings.
From Stdlib Require Import Ascii.

#[local] Open Scope Z_scope.
#[local] Open Scope c_scope.

Module ExrailCommands.
Import Keywords Station Exrail ExrailRun.

Definition char (c : ascii) : Z := Z.of_nat (nat_of_ascii c).
(** A format that starts with a line feed, and one between quotation marks. *)
Definition newline (s : string) : string := String "010"%char s.
Definition quoted (s : string) : string := String "034"%char (s +:+ String "034"%char "").

Section exrail.
Context `{!Config} `{!MotorDriver.MotorDriver.Board} `{!Layout.Layout.Machine} `{!Devices} `{!Program} `{!Garbage}.
Variable i : Io.
Variable stream : Z.

Definition send (format : string) (args : list arg) : M St unit := emit (Send stream format args).

(** ** </ ...> *)

Definition waiting_for (o : OPCODE) (operand : Z) : M St unit :=
  match o with
  | OPCODE_RESERVE => send " WAIT RESERVE %d" [I operand]
  | OPCODE_AT | OPCODE_ATTIMEOUT2 | OPCODE_AFTER | OPCODE_ATGTE | OPCODE_ATLT => send " WAIT AT/AFTER %d" [I (i16 operand)]
  | OPCODE_WAIT_WHILE_RED => send " WAIT WHILE RED %d" [I operand]
  | OPCODE_DELAY | OPCODE_DELAYMINS | OPCODE_DELAYMS | OPCODE_RANDWAIT => send " WAIT DELAY" []
  | _ => mreturn tt
  end.
Definition show_task (p : ptr) : M St unit :=
  let! t := deref p in
  if tru (compileFeatures .& FEATURE_BLINK) && bool_decide (blinkState t = blink_high ∨ blinkState t = blink_low)
  then send (newline "ID=%d,PC=%d,BLINK=%d") [I (taskId t); I (progCounter t); I (blinkPin t)]
  else
    send (newline "ID=%d,PC=%d,LOCO=%d %c") [I (taskId t); I (progCounter t); I (loco t); I (if invert t then char "I" else char " ")] ;;;
    let! operand := mlift (getOperand (progCounter t) 0) in
    let! opcode := mlift (code_at (progCounter t)) in
    match opcode_of opcode with Some o => waiting_for o operand | None => mreturn tt end.
Definition flag_of (id : Z) : M St Z := let! l := mget flags in mlift (l !! Z.to_nat id).
Definition show_flag (id : Z) : M St unit :=
  let! flag := flag_of id in
  when tru (flag .& Z.lnot TASK_FLAG .& Z.lnot SIGNAL_MASK) do
    (send (newline "flags[%d] ") [I id] ;;;
     (when tru (flag .& SECTION_FLAG) do send " RESERVED" []) ;;;
     when tru (flag .& LATCH_FLAG) do send " LATCHED" []).
Definition show_signal (sigslot : Z) (slot : SIGNAL_DEFINITION) : M St unit :=
  let! flag := flag_of sigslot in
  let flag := flag .& SIGNAL_MASK in
  send (newline "%S[%d]") [T (if flag =? SIGNAL_RED then "RED" else if flag =? SIGNAL_GREEN then "GREEN" else "AMBER"); I (signal_id slot)].
Definition status : M St unit :=
  send "<* EXRAIL STATUS" [] ;;;
  let! l := ring in
  mfor l show_task ;;;
  mfor (rangeZ 0 MAX_FLAGS) show_flag ;;;
  (when tru (compileFeatures .& FEATURE_SIGNAL) do
     (let! l := mlift signal_slots in mfor l (λ '(slot, g), show_signal slot g))) ;;;
  send " *>" [].

(** </ KILL id>: the first task with the id. *)
Fixpoint kill_id (l : list ptr) (id : Z) : M St bool :=
  match l with
  | [] => mreturn false
  | p :: l => let! t := deref p in if taskId t =? id then kill i p ;;; mreturn true else kill_id l id
  end.

Definition parse_one (p0 p1 : Z) : M St bool :=
  if p0 =? hk "KILL" then
    if (p1 <? 0) || (p1 >=? MAX_FLAGS) then mreturn false else
    let! l := ring in kill_id l p1
  else if p0 =? hk "RESERVE" then setFlag p1 SECTION_FLAG 0
  else if p0 =? hk "FREE" then setFlag p1 0 SECTION_FLAG
  else if p0 =? hk "LATCH" then setFlag p1 LATCH_FLAG 0
  else if p0 =? hk "UNLATCH" then setFlag p1 0 LATCH_FLAG
  else if p0 =? hk "RED" then doSignal i p1 SIGNAL_RED ;;; mreturn true
  else if p0 =? hk "AMBER" then doSignal i p1 SIGNAL_AMBER ;;; mreturn true
  else if p0 =? hk "GREEN" then doSignal i p1 SIGNAL_GREEN ;;; mreturn true
  else mreturn false.

(** The commands of any number of parameters that come first in parseSlash. *)
Definition parse_all (paramCount : Z) (p : nat → Z) (others_ : M St bool) : M St bool :=
  if p 0%nat =? hk "PAUSE" then
    if negb (paramCount =? 1) then mreturn false else
    (let! l := ring in mfor l (pause) ;;;
     on_world (on_dcc DCC.DCC.estopAll) ;;;
     mmod (with_pausingTask ImpossibleTask) ;;; mreturn true)
  else if p 0%nat =? hk "RESUME" then
    if negb (paramCount =? 1) then mreturn false else
    (mmod (with_pausingTask NotPausing) ;;;
     let! l := ring in mfor l (resume i) ;;; mreturn true)
  else if p 0%nat =? hk "FREEALL" then
    if negb (paramCount =? 1) then mreturn false else
    (mfor (rangeZ 0 MAX_FLAGS) (λ f, setFlag f 0 SECTION_FLAG ;;; mreturn tt) ;;; mreturn true)
  else if p 0%nat =? hk "START" then
    if (paramCount <? 2) || (paramCount >? 3) then mreturn false else
    let route := if paramCount =? 2 then p 1%nat else p 2%nat in
    let cab := if paramCount =? 2 then 0 else p 1%nat in
    let! pc := find_in routeLookup route in
    if pc <? 0 then mreturn false else new_task pc cab false ;;; mreturn true
  else others_.

Definition parseSlash (paramCount : Z) (p : nat → Z) : M St bool :=
  if paramCount =? 0 then status ;;; mreturn true else
  parse_all paramCount p
    (if (p 0%nat =? hk "KILL") && (p 1%nat =? hk "ALL") then killall i ;;; mreturn true else
     if negb (paramCount =? 2) then mreturn false else
     parse_one (p 0%nat) (p 1%nat)).

(** ** The LCC adapter *)

(** The long form of an event. *)
Definition lccx (pc : Z) : M St (list arg) :=
  let! a := mlift (getOperand pc 1) in let! b := mlift (getOperand pc 2) in
  let! c := mlift (getOperand pc 3) in let! d := mlift (getOperand pc 0) in
  mreturn [I a; I b; I c; I d].
Definition merg (pc : Z) (off : bool) : M St (list arg) :=
  let! a := mlift (getOperand pc 0) in let! b := mlift (getOperand pc 1) in
  mreturn [I (if off then char "1" else char "0"); I a; I b].
(** An event that a handler waits for gets the next index. *)
Definition listen (format : string) (args : M St (list arg)) (pc : Z) : M St unit :=
  let! index := mget lccEventIndex in
  let! a := args in
  send format (I index :: a) ;;;
  let! l := mget onLCCLookup in
  (if (0 <=? index) && (index <? Z.of_nat (length l)) then mmod (with_onLCCLookup (<[Z.to_nat index := pc]> l)) else Prelude.mfail) ;;;
  mmod (with_lccEventIndex (index + 1)) ;;;
  mmod (with_lccProgCounter pc).
Fixpoint lcc_loop (fuel : nat) (pc : Z) : M St unit :=
  match fuel with
  | O => Prelude.mfail
  | S fuel =>
    let! opcode := mlift (code_at pc) in
    match opcode_of opcode with
    | Some OPCODE_ENDEXRAIL =>
      send "<LR>" [] ;;; mmod (with_lccProgCounter 0) ;;; mmod (with_lccEventIndex 0)
    | Some OPCODE_LCC =>
      let! a := mlift (getOperand pc 0) in send "<LS x%h>" [I a] ;;; mmod (with_lccProgCounter (pc + 3))
    | Some OPCODE_LCCX => let! a := lccx pc in send "<LS x%h%h%h%h>" a ;;; mmod (with_lccProgCounter (pc + 12))
    | Some OPCODE_ACON => let! a := merg pc false in send "<LS x%c%h%h>" a ;;; mmod (with_lccProgCounter (pc + 6))
    | Some OPCODE_ACOF => let! a := merg pc true in send "<LS x%c%h%h>" a ;;; mmod (with_lccProgCounter (pc + 6))
    | Some OPCODE_ONLCC => listen "<LL %d x%h%h%h:%h>" (lccx pc) (pc + 12)
    | Some OPCODE_ONACON => listen "<LL %d x%c%h%h>" (merg pc false) (pc + 6)
    | Some OPCODE_ONACOF => listen "<LL %d x%c%h%h>" (merg pc true) (pc + 6)
    | _ => lcc_loop fuel (pc + 3)
    end
  end.
(** <L> and <L eventid>: the opcode that is left. *)
Definition filterL (opcode paramCount : Z) (p : nat → Z) : M St Z :=
  if negb (tru (compileFeatures .& FEATURE_LCC)) then mreturn opcode else
  if paramCount =? 0 then
    mmod (with_LCCSerial (Some stream)) ;;;
    let! pc := mget lccProgCounter in
    lcc_loop (S (length RouteCode)) pc ;;; mreturn 0
  else if paramCount =? 1 then
    let eventid := p 0%nat in
    if (eventid <? 0) || (eventid >=? countLCCLookup) then mreturn opcode else
    let! l := mget onLCCLookup in
    let! pc := mlift (l !! Z.to_nat eventid) in
    startNonRecursiveTask pc 0 ;;; mreturn 0
  else mreturn opcode.

(** ** Lists for throttles *)

Definition getRouteType (id : Z) : M St Z :=
  let! pc := find_in routeLookup id in
  if pc <? 0 then mreturn (char "X") else
  let! type := mlift (code_at pc) in
  mreturn (if type =? number_of OPCODE_ROUTE then char "R"
           else if type =? number_of OPCODE_AUTOMATION then char "A" else char "X").
Definition show_state (id : Z) : M St unit :=
  let! l := list_of routeLookup in
  let! statePos := mlift (findPosition l id) in
  when statePos >=? 0 do
    (let! a := mget routeStateArray in
     let! a := mlift a in
     let! state := mlift (a !! Z.to_nat statePos) in
     let! c := mget routeCaptionArray in
     let! c := mlift c in
     let! caption := mlift (c !! Z.to_nat statePos) in
     (when tru state do send "<jB %d %d>" [I id; I state]) ;;;
     match caption with
     | Some caption => send ("<jB %d " +:+ quoted "%S" +:+ ">") [I id; T caption]
     | None => mreturn tt
     end).
(** <J ...>; the cases of <K> and <k> stand in this switch too, not in the one
    of the opcodes. *)
Definition filterJ (opcode paramCount : Z) (p : nat → Z) : M St Z :=
  if paramCount <? 1 then mreturn opcode else
  if p 0%nat =? hk "A" then
    if paramCount =? 1 then
      send "<jA" [] ;;;
      let! l := list_of routeLookup in
      mfor (seq 0 (Z.to_nat (size l))) (λ k, let! c := mlift (loaded l !! k) in send " %d" [I c.1]) ;;;
      send ">" [] ;;; mreturn 0
    else if paramCount =? 2 then
      let id := p 1%nat in
      let! type := getRouteType id in
      send ("<jA %d %c " +:+ quoted "%S" +:+ ">") [I id; I type; T (getRouteDescription id)] ;;;
      (when tru (compileFeatures .& FEATURE_ROUTESTATE) do show_state id) ;;;
      mreturn 0
    else mreturn opcode
  else if (p 0%nat =? char "K") || (p 0%nat =? char "k") then
    if negb (paramCount =? 2) then mreturn opcode else
    blockEvent (p 0%nat) (p 1%nat) (opcode =? char "K") ;;; mreturn 0
  else mreturn opcode.

(** ** The filter: the opcode that is left for the parser, 0 for none. *)
Definition ComandFilter (opcode paramCount : Z) (pl : list Z) : M St Z :=
  let p k := nth k pl 0 in
  if opcode =? char "D" then
    if p 0%nat =? hk "EXRAIL" then
      mmod (with_diag ((paramCount =? 2) && ((p 1%nat =? hk "ON") || (p 1%nat =? 1)))) ;;; mreturn 0
    else mreturn opcode
  else if opcode =? char "/" then
    let! done := parseSlash paramCount p in mreturn (if done : bool then 0 else opcode)
  else if opcode =? char "A" then
    if negb (paramCount =? 2) then mreturn opcode else
    let! done := signalAspectEvent i (p 0%nat) (u8 (p 1%nat)) in mreturn (if done : bool then 0 else opcode)
  else if opcode =? char "L" then filterL opcode paramCount p
  else if opcode =? char "J" then filterJ opcode paramCount p
  else mreturn opcode.
End exrail.
End ExrailCommands.
