(* ===== verification/ExrailInv.v ===== *)
(** The ring of the tasks and the counters of flags and routes, and the invariant of the automation
    that every call keeps. *)

From S2P Require Import Prelude Chain LocoSlot DCCConsist ConsistProps DCC DCCSafe Keywords MotorDriver TrackManager TrackProps DCCACK Layout Turnouts Turntables Stash Station StationProps Exrail ExrailRun ExrailCommands.
From stdpp Require Import strings.

#[local] Open Scope Z_scope.
#[local] Open Scope c_scope.

(** The ring of EXRAIL tasks: segments of the next links, what inserting a task
    and unlinking one do to the ring, and the loops that go round it. *)

Module ExrailRing.
Import Exrail.

(** From [x] along the links through the tasks [l] to [y]. *)
Fixpoint seg (h : gmap ptr Task) (x : ptr) (l : list ptr) (y : ptr) : Prop :=
  match l with
  | [] => x = y
  | p :: l => x = p ∧ ∃ t, h !! p = Some t ∧ seg h (next t) l y
  end.

Implicit Types (h : gmap ptr Task) (p q x y z : ptr) (l k : list ptr) (t : Task).

Lemma seg_app h l k x y : seg h x (l ++ k) y ↔ ∃ z, seg h x l z ∧ seg h z k y.
Proof.
  revert x. induction l as [|p l IH]; intros x; simpl; [split; [by exists x|by intros (z & -> & ?)]|].
  split.
  - intros (-> & t & Ht & Hs). apply IH in Hs as (z & ? & ?). exists z. eauto.
  - intros (z & (-> & t & Ht & ?) & ?). split; [done|]. exists t. split; [done|]. apply IH. eauto.
Qed.
Lemma seg_in h l x y p : seg h x l y → p ∈ l → is_Some (h !! p).
Proof.
  revert x. induction l as [|q l IH]; intros x; [by intros _ ?%elem_of_nil|]. intros (-> & t & Ht & Hs) [->|Hp]%elem_of_cons; [by exists t|by eapply IH].
Qed.
(** Writing a task outside of a segment, or keeping its link. *)
Lemma seg_insert_ne h l x y p t : p ∉ l → seg (<[p := t]> h) x l y ↔ seg h x l y.
Proof.
  revert x. induction l as [|q l IH]; intros x Hp; [done|]. apply not_elem_of_cons in Hp as [Hq Hp]. simpl.
  rewrite lookup_insert_ne by done. by setoid_rewrite IH.
Qed.
Lemma seg_delete_ne h l x y p : p ∉ l → seg (base.delete p h) x l y ↔ seg h x l y.
Proof.
  revert x. induction l as [|q l IH]; intros x Hp; [done|]. apply not_elem_of_cons in Hp as [Hq Hp]. simpl.
  rewrite lookup_delete_ne by done. by setoid_rewrite IH.
Qed.
Lemma seg_links h h' l x y : (∀ p, p ∈ l → next <$> h' !! p = next <$> h !! p) → seg h x l y → seg h' x l y.
Proof.
  revert x. induction l as [|q l IH]; intros x Hl; [done|]. intros (-> & t & Ht & Hs). split; [done|].
  pose proof (Hl q (list_elem_of_here _ _)) as E. rewrite Ht in E. destruct (h' !! q) as [t'|] eqn:Et; [|done].
  injection E as E. exists t'. split; [done|]. rewrite E. apply IH; [|done]. intros p Hp. apply Hl. by right.
Qed.

(** ** The ring that [p] stands in, from [p] on. *)
Record ring_at (h : gmap ptr Task) (p : ptr) (l : list ptr) : Prop := {
  r_seg : seg h p (p :: l) p;
  r_nodup : NoDup (p :: l);
  r_all : ∀ q, is_Some (h !! q) ↔ q ∈ p :: l;
}.

Lemma ring_links h h' p l : (∀ q, next <$> h' !! q = next <$> h !! q) → ring_at h p l → ring_at h' p l.
Proof.
  intros Hn [R1 R2 R3]. split; [by eapply seg_links; [|exact R1]|done|]. intros q. rewrite <-R3. specialize (Hn q).
  split; intros [t Ht]; rewrite Ht in Hn; simpl in Hn; [destruct (h !! q)|destruct (h' !! q)]; done || by eexists.
Qed.

(** Going one task on. *)
Lemma ring_next h p l t : ring_at h p l → h !! p = Some t →
  match l with [] => next t = p | q :: l => next t = q ∧ ring_at h q (l ++ [p]) end.
Proof.
  intros [(_ & t' & Ht' & Hs) R2 R3] Ht. rewrite Ht in Ht'. injection Ht' as <-. destruct l as [|q l]; [done|].
  destruct Hs as (Hn & Hs). split; [done|]. split.
  - change (q :: l ++ [p]) with ((q :: l) ++ [p]). apply seg_app. exists p. split; [by split|]. simpl. split; [done|]. by exists t.
  - change (q :: l ++ [p]) with ((q :: l) ++ [p]). by rewrite <-Permutation_cons_append.
  - intros z. rewrite R3. rewrite !elem_of_cons, elem_of_app, list_elem_of_singleton. tauto.
Qed.

(** The ring from any of its tasks. *)
Lemma ring_split h p l l1 q l2 : ring_at h p l → p :: l = l1 ++ q :: l2 → ring_at h q (l2 ++ l1).
Proof.
  intros [R1 R2 R3] E. rewrite E in R1, R2, R3. apply seg_app in R1 as (z & H1 & H2). assert (z = q) as -> by apply H2.
  change (q :: l2 ++ l1) with ((q :: l2) ++ l1) in *. split; change (q :: l2 ++ l1) with ((q :: l2) ++ l1).
  - apply seg_app. by exists p.
  - by rewrite Permutation_app_comm.
  - intros x. rewrite R3, !elem_of_app. tauto.
Qed.
Lemma ring_rotate h p l q : ring_at h p l → q ∈ p :: l → ∃ k, ring_at h q k.
Proof. intros R (l1 & l2 & E)%list_elem_of_split. eexists. by eapply ring_split. Qed.

Lemma ring_size h p l : ring_at h p l → length (p :: l) = base.size h.
Proof.
  intros [_ R2 R3]. rewrite <-(size_dom (D := gset ptr)). rewrite <-(size_list_to_set (C := gset ptr)) by done. f_equal.
  apply leibniz_equiv. intros q. rewrite elem_of_list_to_set, elem_of_dom. by rewrite R3.
Qed.

(** [ring_from] computes a segment. *)
Lemma ring_from_seg h y : ∀ l x fuel, seg h x (x :: l) y → y ∉ l → (length l < fuel)%nat → ring_from fuel h y x = Some (x :: l).
Proof.
  induction l as [|q l IH]; intros x fuel Hs Hy Hf; (destruct fuel as [|fuel]; [simpl in Hf; lia|]); destruct Hs as (_ & t & Ht & Hs); simpl; rewrite Ht; simpl.
  - simpl in Hs. subst y. by rewrite decide_True.
  - apply not_elem_of_cons in Hy as [Hyq Hy]. destruct Hs as [Hn Hs]. rewrite decide_False by congruence.
    rewrite Hn. simpl in Hf. rewrite (IH q fuel); [done| |done|lia]. split; [done|exact Hs].
Qed.
Lemma ring_from_ring h p l fuel : ring_at h p l → (base.size h <= fuel)%nat → ring_from fuel h p p = Some (p :: l).
Proof.
  intros R Hf. apply ring_from_seg; [apply R| |pose proof (ring_size _ _ _ R); simpl in *; lia].
  by pose proof (r_nodup _ _ _ R) as [? _]%NoDup_cons.
Qed.

(** ** A new task after [p] *)
Lemma ring_new h p l t q : ring_at h p l → h !! p = Some t → h !! q = None → ∀ t', next t' = next t →
  ring_at (<[p := with_next q t]> (<[q := t']> h)) p (q :: l).
Proof.
  intros [R1 R2 R3] Hp Hq t' Hn. assert (q ∉ p :: l) as Hql by (rewrite <-R3, Hq; by intros [??]).
  assert (p ≠ q) as Hpq by congruence. apply NoDup_cons in R2 as [Hpl R2].
  split.
  - split; [done|]. rewrite lookup_insert_eq. eexists. split; [done|]. simpl. split; [done|].
    rewrite lookup_insert_ne, lookup_insert_eq by done. eexists. split; [done|]. rewrite Hn.
    destruct R1 as (_ & t2 & Ht2 & Hs). rewrite Hp in Ht2. injection Ht2 as <-.
    rewrite seg_insert_ne by done. rewrite seg_insert_ne; [done|]. intros ?. apply Hql. by right.
  - apply NoDup_cons. split; [rewrite not_elem_of_cons; done|]. apply NoDup_cons. split; [|done]. intros ?. apply Hql. by right.
  - intros z. destruct (decide (z = p)) as [->|Hzp]; [rewrite lookup_insert_eq; split; [by left|by eexists]|].
    rewrite lookup_insert_ne by done. destruct (decide (z = q)) as [->|Hzq]; [rewrite lookup_insert_eq; split; [by right; left|by eexists]|].
    rewrite lookup_insert_ne by done. rewrite R3, !elem_of_cons. tauto.
Qed.
Lemma ring_first t p : next t = p → ring_at {[p := t]} p [].
Proof.
  intros Hn. split; [by split; [|exists t; rewrite lookup_singleton_eq]|apply NoDup_singleton|].
  intros q. rewrite list_elem_of_singleton. destruct (decide (q = p)) as [->|]; [rewrite lookup_singleton_eq; split; [done|by eexists]|].
  rewrite lookup_singleton_ne by done. split; [by intros [??]|done].
Qed.

(** ** Unlinking [p]: the task before it, and the ring that is left *)
Lemma ring_before h p q l t : ring_at h p (q :: l) → h !! p = Some t →
  ∃ r tr, r ∈ q :: l ∧ h !! r = Some tr ∧ next tr = p ∧
    (∀ z tz, h !! z = Some tz → next tz = p → z = r) ∧
    ∃ k, ring_at (base.delete p (<[r := with_next (next t) tr]> h)) q k.
Proof.
  intros R Hp. pose proof (ring_next _ _ _ _ R Hp) as [Hn _]. destruct R as [R1 R2 R3].
  destruct R1 as (_ & t2 & Ht2 & Hs). rewrite Hp in Ht2. injection Ht2 as <-. rewrite Hn in Hs.
  pose proof R2 as Hnd. apply NoDup_cons in R2 as [Hpl R2].
  assert (∃ l1 r, q :: l = l1 ++ [r]) as (l1 & r & E) by (destruct (exists_last (l := q :: l)) as (l1 & r & ?); [done|by exists l1, r]).
  rewrite E in Hs, Hpl, R2, R3, Hnd |- *. apply seg_app in Hs as (z & Hs1 & Hs2). destruct Hs2 as (-> & tr & Htr & Hz). simpl in Hz.
  assert (r ≠ p) as Hrp by (intros ->; apply Hpl, elem_of_app; right; by left).
  assert (r ∉ l1) as Hrl1 by (apply NoDup_app in R2 as (_ & H2 & _); intros Hx; eapply H2; [exact Hx|by left]).
  exists r, tr. split_and!; [apply elem_of_app; right; by left|done|done|..].
  - (* the links into p *)
    intros z tz Htz Hnz. assert (z ∈ p :: l1 ++ [r]) as Hin by (rewrite <-R3; by exists tz).
    apply elem_of_cons in Hin as [->|Hin].
    + rewrite Hp in Htz. injection Htz as <-. rewrite Hn in Hnz. exfalso. apply Hpl. rewrite <-E, Hnz. by left.
    + apply elem_of_app in Hin as [Hin|Hin]; [|by apply list_elem_of_singleton in Hin].
      apply list_elem_of_split in Hin as (m1 & m2 & ->). apply seg_app in Hs1 as (z' & _ & Hs1).
      destruct Hs1 as (-> & tz' & Htz' & Hs1). rewrite Htz in Htz'. injection Htz' as <-. rewrite Hnz in Hs1.
      exfalso. destruct m2 as [|m m2]; simpl in Hs1; [subst p; done|]. destruct Hs1 as [-> _].
      apply Hpl. rewrite !elem_of_app, !elem_of_cons. tauto.
  - set (h' := base.delete p _).
    assert (seg h' q (l1 ++ [r]) q) as Hs'.
    { apply seg_app. exists r. split.
      - unfold h'. rewrite seg_delete_ne by (intros Hx; apply Hpl, elem_of_app; by left). by rewrite seg_insert_ne.
      - simpl. split; [done|]. unfold h'. rewrite lookup_delete_ne, lookup_insert_eq by done. by eexists. }
    exists l. rewrite <-E in Hs'. split; [exact Hs'|by rewrite <-E in R2|]. intros z. rewrite E. unfold h'.
    destruct (decide (z = p)) as [->|Hzp]; [rewrite lookup_delete_eq; split; [by intros [??]|done]|].
    rewrite lookup_delete_ne by done. destruct (decide (z = r)) as [->|Hzr].
    + rewrite lookup_insert_eq. split; [intros _; apply elem_of_app; right; by left|by eexists].
    + rewrite lookup_insert_ne by done. rewrite R3, elem_of_cons. tauto.
Qed.

(** The loop that looks for the task before [p]. *)
Lemma before_loop_finds h p r : (∀ z tz, h !! z = Some tz → next tz = p → z = r) → ∀ l x y s fuel,
  tasks s = h → seg h x (l ++ [r]) y → y = p → (length l < fuel)%nat → before_loop fuel p x s = Some (r, s).
Proof.
  intros Huniq. induction l as [|q l IH]; intros x y s fuel Hs Hseg -> Hf; (destruct fuel as [|fuel]; [simpl in Hf; lia|]);
    destruct Hseg as (-> & t & Ht & Hseg); simpl; unfold mthen, deref; rewrite Hs, Ht; simpl.
  - simpl in Hseg. subst p. by rewrite decide_True.
  - destruct (decide (next t = p)) as [Hn|Hn]; [unfold mreturn; by rewrite (Huniq q t Ht Hn)|].
    simpl in Hf. eapply IH; [done|exact Hseg|done|lia].
Qed.
End ExrailRing.

(** What EXRAIL keeps: the automations that are well formed, the invariant of the
    tasks, the look-up lists and the flags, and the primitives that keep it. *)

Module ExrailInv.
Import Station StationProps Exrail ExrailRun ExrailRing.

Section program.
Context `{!Program}.

(** ** Automations that are well formed *)

(** The place of ENDEXRAIL, and the places of instructions. *)
Definition end_pc : Z := match code with Some l => 3 * Z.of_nat (length l) | None => -1 end.
Definition pc_ok (pc : Z) : bool := (0 <=? pc) && (pc <=? end_pc) && (pc mod 3 =? 0).

(** The operands that an opcode reads beside the first one, at run time, at the
    start or for the LCC adapter. *)
Definition operands (o : OPCODE) : list Z :=
  match o with
  | OPCODE_IFTTPOSITION | OPCODE_MOMENTUM | OPCODE_XFWD | OPCODE_XREV | OPCODE_POM | OPCODE_XFON | OPCODE_XFOFF | OPCODE_XFTOGGLE
  | OPCODE_ATGTE | OPCODE_ATLT | OPCODE_ATTIMEOUT2 | OPCODE_AFTER | OPCODE_IFGTE | OPCODE_IFLT | OPCODE_IFRE
  | OPCODE_IFBITMAP_ALL | OPCODE_IFBITMAP_ANY | OPCODE_SET | OPCODE_RESET | OPCODE_BITMAP_AND | OPCODE_BITMAP_OR | OPCODE_BITMAP_XOR
  | OPCODE_SET_POWER | OPCODE_ACON | OPCODE_ACOF | OPCODE_ONACON | OPCODE_ONACOF | OPCODE_SENDLOCO | OPCODE_PINTURNOUT
  | OPCODE_DCCTURNTABLE => [1]
  | OPCODE_ROTATE | OPCODE_XPOM | OPCODE_BLINK | OPCODE_TURNOUT | OPCODE_EXTTTURNTABLE => [1; 2]
  | OPCODE_NEOPIXEL | OPCODE_SERVO | OPCODE_LCCX | OPCODE_ONLCC | OPCODE_TTADDPOSITION => [1; 2; 3]
  | OPCODE_SERVOTURNOUT => [1; 2; 3; 4]
  | _ => []
  end.
Definition has_operands (pc : Z) (l : list Z) : bool := forallb (λ k, bool_decide (is_Some (getOperand pc k))) l.
(** How far the instruction reaches for the scan of the LCC adapter. *)
Definition lcc_length (o : OPCODE) : Z :=
  match o with
  | OPCODE_LCCX | OPCODE_ONLCC => 12
  | OPCODE_ACON | OPCODE_ACOF | OPCODE_ONACON | OPCODE_ONACOF => 6
  | _ => 3
  end.
(** Whether the switch knows the opcode. *)
Definition known (o : OPCODE) : bool :=
  match o with
  | OPCODE_SIGNAL | OPCODE_ROSTER | OPCODE_ONCLOCKTIME | OPCODE_ONRAILSYNCON | OPCODE_ONRAILSYNCOFF | OPCODE_ONVP_SENSOR
  | IF_TYPE_OPCODES => false
  | _ => true
  end.
(** What an opcode asks of its operands, with tracks 0 to [n]: a choice of one to
    254 routes that are there, a track that is there, a mode that is one, a
    function number that is not negative. *)
Definition operand_ok (n pc : Z) (o : OPCODE) (operand : Z) : bool :=
  match o with
  | OPCODE_RANDOM_FOLLOW | OPCODE_RANDOM_CALL =>
    (1 <=? operand) && (operand <=? 254) && (pc + 3 * (operand + 1) <=? end_pc) && has_operands pc (rangeZ 1 operand)
  | OPCODE_AFTEROVERLOAD => u8 operand <=? n
  | OPCODE_SET_TRACK => TrackProps.TrackProps.valid_mode (operand >>' 8)
  | OPCODE_SET_POWER => match getOperand pc 1 with Some t => u8 t <? 8 | None => false end
  | OPCODE_FTOGGLE => 0 <=? operand
  | OPCODE_XFTOGGLE => match getOperand pc 1 with Some f => 0 <=? i16 f | None => false end
  | _ => true
  end.
Definition instr_ok (n pc opcode : Z) : bool :=
  match opcode_of opcode, getOperand pc 0 with
  | Some o, Some v =>
    known o && has_operands pc (operands o) && (pc + lcc_length o <=? end_pc) && operand_ok n pc o (i16 v)
  | _, _ => false
  end.
(** ONLCC, ONACON and ONACOF: the events that the LCC adapter is asked for. *)
Definition is_listener (opcode : Z) : bool :=
  existsb (λ o, opcode =? number_of o) [OPCODE_ONLCC; OPCODE_ONACON; OPCODE_ONACOF].
Definition listeners (from : Z) : Z :=
  match code with
  | Some l => Z.of_nat (length (List.filter (λ c, (from <=? c.1) && is_listener c.2) l))
  | None => 0
  end.
(** A signal has a flag, and one of two entries is not cut off. *)
Definition slot_ok (slot : Z) : bool :=
  (0 <=? slot) && (slot <? MAX_FLAGS) &&
  match SignalDefinitions !! Z.to_nat slot with
  | Some g => match type g with
              | sigtypeNEOPIXEL => slot + 1 <? Z.of_nat (length SignalDefinitions)
              | _ => true
              end
  | None => false
  end.
Definition signals_ok : bool :=
  match signal_slots with
  | Some l => forallb (λ '(slot, g), slot_ok slot) l
  | None => false
  end.
Definition well_formed (n : Z) : bool :=
  match code with
  | Some l =>
    (end_pc <=? 32760) && bool_decide (is_Some (getOperand end_pc 0)) &&
    forallb (λ '(pc, opcode), instr_ok n pc opcode) l &&
    (negb (tru (compileFeatures .& FEATURE_SIGNAL)) || signals_ok) &&
    (listeners 0 <=? countLCCLookup) && (countLCCLookup <=? 32767) &&
    forallb (λ b, (0 <=? b) && (b <? 256)) RouteCode
  | None => false
  end.
(** No blinking pins. *)
Definition no_blink : bool := negb (tru (compileFeatures .& FEATURE_BLINK)).

(** ** Look-up lists that are loaded and lead to instructions *)

Fixpoint list_ok (l : LookList) : Prop :=
  match l with mkLookList n m c =>
    length m = Z.to_nat n ∧ Forall (λ x, pc_ok x.2 = true) m ∧ match c with Some c => list_ok c | None => True end
  end.

Lemma find_cell_ok m value : ∀ n k, (k + n = length m)%nat →
  ∃ r, find_cell n k m value = Some r ∧ match r with Some (j, v) => m !! j = Some (value, v) | None => True end.
Proof.
  induction n as [|n IH]; intros k Hk; [by exists None|]. destruct (lookup_lt_is_Some_2 m k) as [[a b] Hc]; [lia|].
  simpl. rewrite Hc. simpl. destruct (a =? value) eqn:E; [|apply IH; lia].
  eexists. split; [done|]. simpl. rewrite Hc. do 2 f_equal. lia.
Qed.
Lemma find_ok : ∀ l value, list_ok l → ∃ r, find l value = Some r ∧ (r = -1 ∨ pc_ok r = true).
Proof.
  fix IH 1. intros [n m c] value (Hn & Hm & Hc). simpl.
  destruct (find_cell_ok m value (Z.to_nat n) 0) as (r & -> & Hr); [lia|]. simpl. destruct r as [[j v]|].
  - eexists. split; [done|]. right. rewrite Forall_lookup in Hm. by apply (Hm j (value, v)).
  - destruct c as [c|]; [by apply IH|]. exists (-1). auto.
Qed.
Lemma findPosition_ok l value : list_ok l → ∃ r, findPosition l value = Some r ∧ (r < 0 ∨ (Z.to_nat r < Z.to_nat (size l))%nat).
Proof.
  destruct l as [n m c]. intros (Hn & _). unfold findPosition. simpl.
  destruct (find_cell_ok m value (Z.to_nat n) 0) as (r & -> & Hr); [lia|]. simpl. destruct r as [[j v]|]; eexists; (split; [done|]); [|lia].
  right. apply lookup_lt_Some in Hr. lia.
Qed.
End program.

(** ** Calls whose traces have only events of a kind *)

Section emits.
Context {S E : Type} (trace : S → list E) (P : E → Prop).
Definition emits {A} (m : M S A) : Prop := ∀ s a s', m s = Some (a, s') → ∃ l, trace s' = trace s ++ l ∧ Forall P l.

Lemma emits_same {A} (m : M S A) : (∀ s a s', m s = Some (a, s') → trace s' = trace s) → emits m.
Proof. intros Hm s a s' E1. exists []. rewrite app_nil_r. split; [by eapply Hm|done]. Qed.
Lemma emits_ret {A} (a : A) : emits (mreturn a).
Proof. apply emits_same. by intros s b s' [= _ ->]. Qed.
Lemma emits_get {A} (f : S → A) : emits (mget f).
Proof. apply emits_same. by intros s b s' [= _ ->]. Qed.
Lemma emits_mod f : (∀ s, trace (f s) = trace s) → emits (mmod f).
Proof. intros Hf. apply emits_same. by intros s b s' [= _ <-]. Qed.
Lemma emits_bind {A B} (m : M S B) (k : B → M S A) : emits m → (∀ b, emits (k b)) → emits (mthen m k).
Proof.
  intros Hm Hk s a s' E1. unfold mthen in E1. destruct (m s) as [[b s1]|] eqn:E2; [|done]. simpl in E1.
  destruct (Hm _ _ _ E2) as (l1 & H1 & F1), (Hk _ _ _ _ E1) as (l2 & H2 & F2). exists (l1 ++ l2).
  rewrite H2, H1, app_assoc. split; [done|]. by apply Forall_app.
Qed.
Lemma emits_if {A} (b : bool) (m k : M S A) : emits m → emits k → emits (if b then m else k).
Proof. by destruct b. Qed.
Lemma emits_mfor {B} (l : list B) f : (∀ x, x ∈ l → emits (f x)) → emits (mfor l f).
Proof.
  unfold mfor. induction l as [|x l IH]; intros Hf; [apply emits_ret|]. simpl. apply emits_bind; [apply Hf; by left|].
  intros []. apply IH. intros y Hy. apply Hf. by right.
Qed.
Lemma emits_fail {A} : emits (Prelude.mfail (A := A)).
Proof. by intros s a s'. Qed.
End emits.

Create HintDb emits.
#[export] Hint Resolve emits_ret emits_get emits_fail : emits.
#[export] Hint Extern 1 (emits _ _ (mmod _)) => (apply emits_mod; by intros) : emits.
#[export] Hint Extern 2 (emits _ _ (mthen _ _)) => (apply emits_bind; [|intros]) : emits.
#[export] Hint Extern 2 (emits _ _ (if _ then _ else _)) => apply emits_if : emits.
#[export] Hint Extern 2 (emits _ _ (match ?x with _ => _ end)) => destruct x : emits.

(** The events of the station that EXRAIL waits for. *)
Definition is_event (e : Station.ev) : bool :=
  match e with
  | OfLayout (Layout.Layout.TurnoutEvent _ _) | OfDCC (DCC.DCC.ActivateEvent _ _) | OfTurntables (Turntables.Turntables.RotateEvent _ _)
  | OfTracks (TrackManager.TrackManager.Track _ MotorDriver.MotorDriver.PowerEvent) | ClockEvent _ _ | ReadLoco _ => true
  | _ => false
  end.
Definition no_event (e : Station.ev) : Prop := is_event e = false.

(** ** Setting a speed raises no event *)

Section throttle.
Context `{!Config} `{!MotorDriver.MotorDriver.Board}.
Import DCC.DCC.

Definition no_activate (e : DCC.DCC.ev) : Prop := match e with ActivateEvent _ _ => False | _ => True end.
Notation quiet := (emits DCC.DCC.out no_activate).
Lemma quiet_event_emit e : no_activate e → quiet (emit e).
Proof. intros He s a s' [= _ <-]. exists [e]. split; [done|]. by constructor. Qed.
Lemma quiet_deref x : quiet (deref x).
Proof. apply emits_same. unfold deref. intros s a s'. destruct (LocoSlot.load _ _); [|done]. by intros [= _ ->]. Qed.
Lemma quiet_update x f : quiet (update x f).
Proof. apply emits_same. unfold update. intros s a s'. destruct (LocoSlot.modify _ _ _); [|done]. by intros [= _ <-]. Qed.
Lemma quiet_slot cab b : quiet (slot_of cab b).
Proof. apply emits_same. unfold slot_of. intros s a s'. destruct (LocoSlot.getSlot _ _ _) as [[p t]|]; [|done]. by intros [= _ <-]. Qed.
Hint Resolve quiet_deref quiet_update quiet_slot : emits.
Hint Extern 1 (emits _ _ (emit _)) => by apply quiet_event_emit : emits.

Lemma quiet_speedByte cab : quiet (getThrottleSpeedByte cab).
Proof. unfold getThrottleSpeedByte. auto with emits. Qed.
Lemma quiet_dcc slot speed : quiet (setThrottleDCC slot speed).
Proof. unfold setThrottleDCC. cbv zeta. auto 12 with emits. Qed.
Hint Resolve quiet_speedByte quiet_dcc : emits.
Lemma quiet_throttle2 fuel : ∀ f speed, quiet (throttle2_loop fuel f speed).
Proof. induction fuel as [|fuel IH]; intros f speed; destruct f; simpl; auto 12 with emits. Qed.
Lemma quiet_targets fuel : ∀ f speed, quiet (targets_loop fuel f speed).
Proof. induction fuel as [|fuel IH]; intros f speed; destruct f; simpl; auto 12 with emits. Qed.
Lemma quiet_fuel : quiet fuel_of.
Proof. apply emits_get. Qed.
Hint Resolve quiet_throttle2 quiet_targets quiet_fuel : emits.
Lemma quiet_throttle_2 x speed : quiet (setThrottle2 x speed).
Proof. unfold setThrottle2. auto 12 with emits. Qed.
Lemma quiet_broadcast x : quiet (broadcastLoco x).
Proof. unfold broadcastLoco. auto 12 with emits. Qed.
Hint Resolve quiet_throttle_2 quiet_broadcast : emits.
Lemma quiet_estop fuel : ∀ p, quiet (estop_all_loop fuel p).
Proof. induction fuel as [|fuel IH]; intros p; destruct p; simpl; auto 12 with emits. Qed.
Hint Resolve quiet_estop : emits.
Lemma quiet_setThrottle now cab speed dir : quiet (setThrottle now cab speed dir).
Proof.
  unfold setThrottle, estopAll. cbv zeta. auto 30 with emits.
Qed.

(** The same of the tracks. *)
Definition no_power (e : TrackManager.TrackManager.ev) : Prop :=
  match e with TrackManager.TrackManager.Track _ MotorDriver.MotorDriver.PowerEvent => False | _ => True end.
Lemma quiet_DCSignal `{!TrackManager.TrackManager.Throttles} cab speed :
  emits TrackManager.TrackManager.out no_power (TrackManager.TrackManager.setDCSignal cab speed).
Proof.
  unfold TrackManager.TrackManager.setDCSignal, TrackManager.TrackManager.for_each_track. apply emits_bind; [apply emits_get|].
  intros l. apply emits_mfor. intros t _. apply emits_bind; [|intros a; apply emits_if; [apply emits_ret|]].
  - apply emits_same. unfold TrackManager.TrackManager.dc_addr. intros s a s'. destruct (_ !! _); [|done]. by intros [= _ ->].
  - apply emits_bind; [|intros d; apply emits_if; [|apply emits_ret]].
    + apply emits_same. unfold TrackManager.TrackManager.deref. intros s b s'. destruct (TrackManager.TrackManager.driver_at _ _); [|done]. by intros [= _ ->].
    + intros s b s'. unfold TrackManager.TrackManager.on. destruct (TrackManager.TrackManager.driver_at s t) as [d'|]; [|done]. intros [= _ <-].
      eexists. split; [done|]. unfold MotorDriver.MotorDriver.setDCSignal. simpl.
      destruct (_ =? _); [done|]. by repeat constructor.
Qed.
End throttle.

Section inv.
Context `{!Config} `{!MotorDriver.MotorDriver.Board} `{!Layout.Layout.Machine} `{!Devices} `{!Program} `{!Garbage}.

(** A component whose trace is delivered. *)
Lemma emits_run {S E A} (P : E → Prop) (get : World → S) set (trace : S → list E) deliver (m : M S A) :
  emits trace P m → (∀ s w, Station.out (set s w) = Station.out w) → (∀ e, P e → emits Station.out no_event (deliver e)) →
  emits Station.out no_event (run get set trace deliver m).
Proof.
  intros Hm Hset Hd w a w'. unfold run. destruct (m (get w)) as [[b s]|] eqn:E1; [|done]. simpl.
  destruct (Hm _ _ _ E1) as (l & -> & Hl). rewrite drop_app_length. intros Hr.
  destruct (mfor l deliver (set s w)) as [[[] w1]|] eqn:E2; [|done]. injection Hr as _ <-. rewrite <-(Hset s w).
  eapply emits_mfor; [|exact E2]. intros e He. apply Hd. by eapply Forall_forall in Hl.
Qed.
Lemma emits_event e : no_event e → emits Station.out no_event (Station.emit e).
Proof. intros He w a w' [= _ <-]. exists [e]. split; [done|]. by constructor. Qed.
Lemma no_event_tracks {A} (m : TrackManager.TrackManager.Throttles → M TrackManager.TrackManager.St A) :
  (∀ t, emits TrackManager.TrackManager.out no_power (m t)) → emits Station.out no_event (on_tracks m).
Proof.
  intros Hm w. apply (emits_run no_power); [apply Hm|done|]. intros e He.
  destruct e; simpl; try (by apply emits_mod); apply emits_event; unfold no_event; simpl; by repeat case_match.
Qed.
Lemma no_event_dcc {A} (m : M DCC.DCC.St A) : emits DCC.DCC.out no_activate m → emits Station.out no_event (on_dcc m).
Proof.
  intros Hm. apply (emits_run no_activate); [done|done|]. intros e He.
  destruct e; simpl; try (by apply emits_event). apply no_event_tracks. intros t. apply quiet_DCSignal.
Qed.
End inv.
End ExrailInv.
