(* ===== verification/ExrailSafe.v ===== *)
(** The calls of the automation outside its loop are safe: signals, blocks, flags and events; ending
    and creating tasks; and reading the code, which is taken as well formed. *)

From S2P Require Import Prelude Chain LocoSlot DCCConsist ConsistProps DCC DCCSafe Keywords MotorDriver TrackManager TrackProps DCCACK Layout Turnouts Turntables Stash Station StationProps Commands CommandsProps Exrail ExrailRun ExrailCommands ExrailInv.
From stdpp Require Import strings.

#[local] Open Scope Z_scope.
#[local] Open Scope c_scope.

(** EXRAIL never fails: the invariant of its state, and what each primitive keeps. *)

Module ExrailSafe.
Import Station StationProps Exrail ExrailRun ExrailRing ExrailInv.

Section safe.
Context `{!Config} `{!MotorDriver.MotorDriver.Board} `{!Layout.Layout.Machine} `{!Devices} `{!Program} `{!Garbage}.
(** [ids] are the signals that may be looked for. *)
Context (n : Z) (ids : Z → Prop).

(** ** The invariant *)

(** The look-up lists that the features of the automation have loaded. *)
Definition needed (m : Lookup) : bool :=
  match m with
  | signalLookup => false
  | onRedLookup | onAmberLookup | onGreenLookup => tru (compileFeatures .& FEATURE_SIGNAL)
  | onBlockEnterLookup | onBlockExitLookup => tru (compileFeatures .& FEATURE_BLOCK)
  | _ => true
  end.

(** A task stands at an instruction, and so do the returns on its stack. *)
Definition place_ok (t : Task) : Prop := pc_ok (progCounter t) = true.
Record task_ok (t : Task) : Prop := {
  t_depth : 0 <= stackDepth t <= 4;
  t_stack : length (callStack t) = 4%nat;
  t_returns : ∀ k pc, callStack t !! k = Some pc → Z.of_nat k < stackDepth t → pc_ok pc = true;
  t_loco : is_u16 (loco t);
}.

(** The invariant, where the counter of the task [x] may be anything. *)
Record base_but (x : option ptr) (s : St) : Prop := {
  b_world : WInv n (world s);
  b_ring : match loopTask s with None => tasks s = ∅ | Some p => ∃ l, ring_at (tasks s) p l end;
  b_fresh : ∀ p, is_Some (tasks s !! p) → (p < nextTask s)%positive;
  b_task : ∀ p t, tasks s !! p = Some t → task_ok t ∧ (x ≠ Some p → place_ok t);
  b_flags : length (flags s) = 256%nat;
  b_lists : ∀ m, needed m = true → ∃ l, lookup s m = Some l ∧ list_ok l;
  b_signals : tru (compileFeatures .& FEATURE_SIGNAL) = true → ∀ id, ids id →
    ∃ l r, lookup s signalLookup = Some l ∧ find l (i16 id) = Some r ∧ (r = -1 ∨ slot_ok r = true);
  b_routes : tru compileFeatures = true → ∃ l a c, lookup s routeLookup = Some l ∧ routeStateArray s = Some a ∧
    routeCaptionArray s = Some c ∧ length a = Z.to_nat (size l) ∧ length c = Z.to_nat (size l);
  b_sensors : Forall (λ c, pc_ok (sensorCounter c) = true) (sensors s);
  b_reading : ∀ k, readingSensor s = Some k → (k < length (sensors s))%nat;
  b_lcc : length (onLCCLookup s) = Z.to_nat countLCCLookup ∧ Forall (λ pc, pc_ok pc = true) (onLCCLookup s) ∧
    pc_ok (lccProgCounter s) = true ∧ 0 <= lccEventIndex s ∧ lccEventIndex s + listeners (lccProgCounter s) <= countLCCLookup;
}.
Notation base := (base_but None).

(** All but the trace and the scratch variables. *)
Definition core (s : St) :=
  (world s, tasks s, nextTask s, loopTask s, flags s, lookup s, routeStateArray s, routeCaptionArray s, sensors s, readingSensor s,
   (onLCCLookup s, lccProgCounter s, lccEventIndex s)).
Lemma base_core x s s' : core s' = core s → base_but x s → base_but x s'.
Proof.
  intros [= E1 E2 E3 E4 E5 E6 E7 E8 E9 E10 E11 E12 E13] [].
  split; rewrite ?E1, ?E2, ?E3, ?E4, ?E5, ?E6, ?E7, ?E8, ?E9, ?E10, ?E11, ?E12, ?E13; done.
Qed.
Lemma base_weaken x s : base s → base_but x s.
Proof. intros []. split; try done. intros p t Hp. destruct (b_task0 p t Hp) as [? Hpl]. split; [done|]. intros _. by apply Hpl. Qed.

(** ** What calls keep *)

Definition same_place (t t' : Task) : Prop :=
  progCounter t' = progCounter t ∧ stackDepth t' = stackDepth t ∧ callStack t' = callStack t.
Record keeps (x : option ptr) (s s' : St) : Prop := {
  k_base : base_but x s';
  k_lookup : lookup s' = lookup s;
  k_tasks : ∀ p t, tasks s !! p = Some t → ∃ t', tasks s' !! p = Some t' ∧ same_place t t';
}.
Lemma ekeeps_refl x s : base_but x s → keeps x s s.
Proof. intros B. split; [done..|]. intros p t Hp. by exists t. Qed.
Lemma ekeeps_trans x s1 s2 s3 : keeps x s1 s2 → keeps x s2 s3 → keeps x s1 s3.
Proof.
  intros [_ L1 T1] [B2 L2 T2]. split; [done|congruence|]. intros p t Hp. destruct (T1 p t Hp) as (t1 & X1 & Ha & Hb & Hc).
  destruct (T2 p t1 X1) as (t2 & X2 & Ha' & Hb' & Hc'). exists t2. split; [done|]. repeat split; congruence.
Qed.
Lemma keeps_core x s s' : core s' = core s → base_but x s → keeps x s s'.
Proof.
  intros E B. split; [by eapply base_core|by injection E|]. injection E as _ E _. rewrite E. intros p t Hp. by exists t.
Qed.
Lemma keeps_alive x s s' p : keeps x s s' → is_Some (tasks s !! p) → is_Some (tasks s' !! p).
Proof. intros K [t Ht]. destruct (k_tasks _ _ _ K p t Ht) as (t' & ? & _). by exists t'. Qed.

(** A call that keeps what there is, while the tasks [ps] are there. *)
Definition kept {A} (x : option ptr) (ps : list ptr) (P : A → Prop) (m : M St A) : Prop :=
  ∀ s, base_but x s → Forall (λ p, is_Some (tasks s !! p)) ps → wp m (λ a s', keeps x s s' ∧ P a) s.
Notation calm x ps m := (kept x ps (λ _, True) m).

Section kept.
Context (x : option ptr) (ps : list ptr).

Lemma kept_wp {A} (m : M St A) : (∀ s, base_but x s → Forall (λ p, is_Some (tasks s !! p)) ps → wp m (λ _ s', keeps x s s') s) → calm x ps m.
Proof. intros Hm s B F. eapply wp_mono; [by apply Hm|]. by intros a s' K. Qed.
Lemma kept_mono {A} (P Q : A → Prop) m : kept x ps P m → (∀ a, P a → Q a) → kept x ps Q m.
Proof. intros Hm HQ s B F. eapply wp_mono; [by apply Hm|]. intros a s' [K Pa]. auto. Qed.
Lemma kept_ret {A} (P : A → Prop) a : P a → kept x ps P (mreturn a).
Proof. intros Pa s B F. apply wp_ret. split; [by apply ekeeps_refl|done]. Qed.
Lemma kept_get {A} (P : A → Prop) f : (∀ s, P (f s)) → kept x ps P (mget f).
Proof. intros Pf s B F. apply wp_get. split; [by apply ekeeps_refl|apply Pf]. Qed.
Lemma kept_lift {A} (P : A → Prop) o a : o = Some a → P a → kept x ps P (mlift o).
Proof. intros -> Pa s B F. unfold wp, mlift. simpl. split; [by apply ekeeps_refl|done]. Qed.
Lemma kept_bind {A B} (P : B → Prop) (Q : A → Prop) (m : M St B) (k : B → M St A) :
  kept x ps P m → (∀ b, P b → kept x ps Q (k b)) → kept x ps Q (mthen m k).
Proof.
  intros Hm Hk s Bs F. apply wp_bind. eapply wp_mono; [by apply Hm|]. intros b s1 [K1 Pb]. cbn beta in *.
  eapply wp_mono; [apply Hk; [done|apply K1|]|].
  - eapply Forall_impl; [exact F|]. intros p. by apply keeps_alive with x.
  - intros a s2 [K2 Qa]. split; [by eapply ekeeps_trans|done].
Qed.
Lemma calm_bind {A B} (Q : A → Prop) (m : M St B) (k : B → M St A) :
  calm x ps m → (∀ b, kept x ps Q (k b)) → kept x ps Q (mthen m k).
Proof. intros Hm Hk. by eapply kept_bind; [exact Hm|]. Qed.
Lemma kept_mod f : (∀ s, core (f s) = core s) → calm x ps (mmod f).
Proof. intros Hf s B F. apply wp_mod. split; [by apply keeps_core|done]. Qed.
Lemma kept_emit e : calm x ps (emit e).
Proof. by apply kept_mod. Qed.
Lemma kept_if {A} (P : A → Prop) (b : bool) m k : kept x ps P m → kept x ps P k → kept x ps P (if b then m else k).
Proof. by destruct b. Qed.
Lemma kept_mfor {B} (l : list B) f : (∀ b, b ∈ l → calm x ps (f b)) → calm x ps (mfor l f).
Proof.
  unfold mfor. induction l as [|b l IH]; intros Hf; [by apply kept_ret|]. simpl.
  eapply kept_bind; [apply Hf; by left|]. intros [] _. apply IH. intros c Hc. apply Hf. by right.
Qed.
(** A look at the state that may fail. *)
Lemma kept_look {A} (P : A → Prop) (f : St → option A) :
  (∀ s, base_but x s → Forall (λ p, is_Some (tasks s !! p)) ps → ∃ a, f s = Some a ∧ P a) → kept x ps P (λ s, a ← f s; Some (a, s)).
Proof. intros Hf s B F. destruct (Hf s B F) as (a & Ha & Pa). unfold wp. rewrite Ha. simpl. split; [by apply ekeeps_refl|done]. Qed.
End kept.
Lemma kept_sub {A} x ps qs (P : A → Prop) m : kept x ps P m → (∀ p, p ∈ ps → p ∈ qs) → kept x qs P m.
Proof. intros Hm Hs s B F. apply Hm; [done|]. rewrite Forall_forall in F |- *. auto. Qed.

(** ** Flags *)

Lemma flag_there x s id : base_but x s → u16 id < MAX_FLAGS → is_Some (flags s !! Z.to_nat (u16 id)).
Proof. intros B Hid. apply lookup_lt_is_Some_2. rewrite (b_flags _ _ B). pose proof (u16_range id). unfold is_u16, MAX_FLAGS in *. lia. Qed.
Lemma kept_getFlag x ps id mask : calm x ps (getFlag id mask).
Proof.
  unfold getFlag. cbv zeta. destruct (u16 id >=? MAX_FLAGS) eqn:E; [by apply kept_ret|]. intros s B F.
  destruct (flag_there x s id B ltac:(lia)) as [f Hf]. unfold wp. rewrite Hf. simpl. split; [by apply ekeeps_refl|done].
Qed.
Lemma keeps_flags x s l : length l = 256%nat → base_but x s → keeps x s (with_flags l s).
Proof. intros Hl []. split; [by split|done|]. intros p t Hp. by exists t. Qed.
Lemma kept_setFlag x ps id on off : calm x ps (setFlag id on off).
Proof.
  unfold setFlag. cbv zeta. destruct (u16 id >=? MAX_FLAGS) eqn:E; [by apply kept_ret|]. intros s B F.
  destruct (flag_there x s id B ltac:(lia)) as [f Hf]. unfold wp. rewrite Hf. simpl. split; [|done].
  apply keeps_flags; [|done]. rewrite length_insert. apply (b_flags _ _ B).
Qed.
(** Flags change nothing else. *)
Lemma setFlag_core id on off s b s' : setFlag id on off s = Some (b, s') →
  tasks s' = tasks s ∧ loopTask s' = loopTask s ∧ nextTask s' = nextTask s.
Proof.
  unfold setFlag. cbv zeta. destruct (u16 id >=? MAX_FLAGS); [by intros [= _ <-]|].
  destruct (flags s !! _); [|done]. by intros [= _ <-].
Qed.

(** ** New tasks *)

Lemma kept_claim x ps l : calm x ps (claim_id l).
Proof.
  induction l as [|f l IH]; [by apply kept_ret|]. simpl. eapply kept_bind; [apply kept_getFlag|]. intros [] _; [done|].
  eapply kept_bind; [apply kept_setFlag|]. intros b _. by apply kept_ret.
Qed.

Lemma task_ok_new nx pc d1 d2 u id bl lo inv ps ev : is_u16 lo → task_ok (mkTask nx pc d1 d2 u id bl lo inv ps ev 0 (replicate 4 0)).
Proof. intros Hl. split; simpl; [by split|done| |done]. intros k z _ Hk. clear -Hk. lia. Qed.

(** Another heap of tasks. *)
Definition rest (s : St) :=
  (world s, flags s, lookup s, routeStateArray s, routeCaptionArray s, sensors s, readingSensor s, (onLCCLookup s, lccProgCounter s, lccEventIndex s)).
Lemma base_retask x y s s' : base_but x s → rest s' = rest s →
  match loopTask s' with None => tasks s' = ∅ | Some p => ∃ l, ring_at (tasks s') p l end →
  (∀ p t, tasks s' !! p = Some t → (p < nextTask s')%positive ∧ task_ok t ∧ (y ≠ Some p → place_ok t)) →
  base_but y s'.
Proof.
  intros [] [= E1 E2 E3 E4 E5 E6 E7 E8 E9 E10] Hr Ht.
  split; rewrite ?E1, ?E2, ?E3, ?E4, ?E5, ?E6, ?E7, ?E8, ?E9, ?E10; try done.
  - intros p [t Hp]. by apply (Ht p t).
  - intros p t Hp. by apply (Ht p t).
Qed.
(** A task that was there, but for its link. *)
Lemma old_task x s p t nx : base_but x s → tasks s !! p = Some t →
  (p < nextTask s)%positive ∧ task_ok (with_next nx t) ∧ (x ≠ Some p → place_ok (with_next nx t)).
Proof.
  intros B Hp. destruct (b_task _ _ B p t Hp) as [[] Hpl]. split; [apply (b_fresh _ _ B); by exists t|]. by split.
Qed.
Lemma old_task_same x s p t : base_but x s → tasks s !! p = Some t →
  (p < nextTask s)%positive ∧ task_ok t ∧ (x ≠ Some p → place_ok t).
Proof. intros B Hp. pose proof (old_task x s p t (next t) B Hp) as Ho. by destruct t. Qed.

Lemma new_task_wp x pc lo inv s : base_but x s → pc_ok pc = true →
  wp (new_task pc lo inv) (λ q s', keeps x s s' ∧ tasks s !! q = None ∧ is_Some (tasks s' !! q)) s.
Proof.
  intros B Hpc. unfold new_task. apply wp_bind. eapply wp_mono; [by apply (kept_claim x [])|]. intros id s1 [K1 _]. cbn beta in *.
  pose proof (k_base _ _ _ K1) as B1. apply wp_bind, wp_get, wp_bind, wp_mod. cbv zeta.
  set (q := nextTask s1). set (s2 := with_nextTask (Pos.succ q) s1).
  assert (tasks s1 !! q = None) as Hq.
  { destruct (tasks s1 !! q) as [t|] eqn:E; [|done]. pose proof (b_fresh _ _ B1 q ltac:(by exists t)). lia. }
  assert (tasks s !! q = None) as Hq0.
  { destruct (tasks s !! q) as [t|] eqn:E; [|done]. destruct (k_tasks _ _ _ K1 q t E) as (t' & ? & _). congruence. }
  set (task nx := mkTask nx pc 0 0 (garbage_un q) id not_blink_task (u16 lo) inv (garbage_pauseSpeed q) (-1) 0 (replicate 4 0)).
  assert (∀ nx, task_ok (task nx) ∧ (x ≠ Some q → place_ok (task nx))) as Hok by (intros nx; split; [apply task_ok_new, u16_range|done]).
  apply wp_bind, wp_get, wp_bind. pose proof (b_ring _ _ B1) as Hr.
  destruct (loopTask s1) as [l|] eqn:El; simpl in El |- *; rewrite ?El.
  - destruct Hr as [k R]. destruct (r_seg _ _ _ R) as (_ & t & Ht & _).
    apply wp_bind. unfold wp at 1, deref. simpl. rewrite Ht. simpl.
    apply wp_bind, wp_mod. unfold wp, update. simpl.
    assert (l ≠ q) as Hlq by congruence. rewrite lookup_insert_ne, Ht by done. simpl.
    split_and!; [|done|by rewrite lookup_insert_ne, lookup_insert_eq].
    eapply ekeeps_trans; [exact K1|]. split; [|done|].
    + apply (base_retask x x s1); [done|done|simpl; rewrite El; exists (q :: k); by apply ring_new|]. simpl. intros p t'.
      destruct (decide (p = l)) as [->|Hpl]; [rewrite lookup_insert_eq; intros [= <-]; destruct (old_task x s1 l t q B1 Ht) as [? ?]; split; [unfold q; lia|done]|].
      rewrite lookup_insert_ne by done. destruct (decide (p = q)) as [->|Hpq]; [rewrite lookup_insert_eq; intros [= <-]; split; [lia|apply Hok]|].
      rewrite lookup_insert_ne by done. intros Hp. destruct (old_task_same x s1 p t' B1 Hp) as [? ?]. split; [unfold q; lia|done].
    + simpl. intros p t' Hp. assert (p ≠ q) by congruence. destruct (decide (p = l)) as [->|Hpl].
      * rewrite lookup_insert_eq. eexists. split; [done|]. rewrite Ht in Hp. by injection Hp as <-.
      * rewrite !lookup_insert_ne by done. by exists t'.
  - apply wp_mod, wp_ret. simpl. rewrite Hr. split_and!; [|done|by rewrite lookup_insert_eq].
    eapply ekeeps_trans; [exact K1|]. split; [|done|simpl; intros p t; by rewrite Hr, lookup_empty].
    apply (base_retask x x s1); [done|done|simpl; exists []; by apply ring_first|]. simpl. intros p t.
    rewrite lookup_insert_Some, lookup_empty. intros [[<- <-]|[? ?]]; [|done]. split; [lia|apply Hok].
Qed.
Lemma kept_new x ps pc lo inv : pc_ok pc = true → calm x ps (new_task pc lo inv).
Proof. intros Hpc s B F. eapply wp_mono; [by apply new_task_wp|]. by intros q s' [K _]. Qed.

(** ** Changing a task *)

Lemma deref_wp p t s (Q : Task → St → Prop) : tasks s !! p = Some t → Q t s → wp (deref p) Q s.
Proof. intros Hp HQ. unfold wp, deref. by rewrite Hp. Qed.
Lemma update_wp x y p t f s : base_but x s → tasks s !! p = Some t → next (f t) = next t → task_ok (f t) →
  (y ≠ Some p → place_ok (f t)) → (∀ q, q ≠ p → x ≠ Some q ∨ y = Some q) →
  wp (update p f) (λ _ s', base_but y s' ∧ rest s' = rest s ∧ tasks s' = <[p := f t]> (tasks s)) s.
Proof.
  intros B Hp Hn Ht Hpl Hxy. unfold wp, update. rewrite Hp. simpl. split_and!; [|done|done].
  assert (∀ q, next <$> <[p:=f t]> (tasks s) !! q = next <$> tasks s !! q) as Hl.
  { intros q. destruct (decide (q = p)) as [->|]; [by rewrite lookup_insert_eq, Hp; simpl; rewrite Hn|by rewrite lookup_insert_ne]. }
  apply (base_retask x y s); [done|done|..]; simpl.
  - pose proof (b_ring _ _ B) as Hr. destruct (loopTask s) as [l|]; [|by rewrite Hr in Hp].
    destruct Hr as [k R]. exists k. by eapply ring_links.
  - intros q t'. destruct (decide (q = p)) as [->|Hqp].
    + rewrite lookup_insert_eq. intros [= <-]. split; [apply (b_fresh _ _ B); by exists t|done].
    + rewrite lookup_insert_ne by done. intros Hq. destruct (old_task_same x s q t' B Hq) as (? & ? & Ho). split_and!; [done|done|].
      intros Hy. apply Ho. by destruct (Hxy q Hqp).
Qed.
Lemma keeps_update x p f s : base_but x s → is_Some (tasks s !! p) →
  (∀ t, task_ok t → next (f t) = next t ∧ same_place t (f t) ∧ is_u16 (loco (f t))) →
  wp (update p f) (λ _ s', keeps x s s') s.
Proof.
  intros B [t Hp] Hf. destruct (b_task _ _ B p t Hp) as [Hok Hpl]. destruct (Hf t Hok) as (Hn & (Hs1 & Hs2 & Hs3) & Hl).
  eapply wp_mono; [apply (update_wp x x p t); [done|done|done| | |intros q _; destruct (decide (x = Some q)); auto]|].
  - destruct Hok. split; rewrite ?Hs2, ?Hs3; done.
  - intros Hx. unfold place_ok. rewrite Hs1. by apply Hpl.
  - intros _ s' (B' & Hr & Ht). split; [done|by injection Hr|]. rewrite Ht. intros q tq Hq. destruct (decide (q = p)) as [->|].
    + rewrite lookup_insert_eq. eexists. split; [done|]. rewrite Hp in Hq. by injection Hq as <-.
    + rewrite lookup_insert_ne by done. by exists tq.
Qed.
Lemma kept_update x ps p f : p ∈ ps → (∀ t, next (f t) = next t ∧ same_place t (f t) ∧ (is_u16 (loco t) → is_u16 (loco (f t)))) →
  calm x ps (update p f).
Proof.
  intros Hp Hf. apply kept_wp. intros s B F. rewrite Forall_forall in F. apply keeps_update; [done|by apply F|].
  intros t Ht. destruct (Hf t) as (? & ? & Hl). split_and!; [done|done|]. by apply Hl, Ht.
Qed.
Lemma kept_deref x ps p : p ∈ ps → kept x ps (λ t, task_ok t ∧ (x ≠ Some p → place_ok t)) (deref p).
Proof.
  intros Hp s B F. rewrite Forall_forall in F. destruct (F p Hp) as [t Ht]. eapply deref_wp; [done|]. split; [by apply ekeeps_refl|].
  by apply (b_task _ _ B p).
Qed.

(** ** Going round the ring *)

Lemma size_fuel s p l : ring_at (tasks s) p l → ring_from (S (base.size (tasks s))) (tasks s) p p = Some (p :: l).
Proof. intros R. apply ring_from_ring; [done|apply Nat.le_succ_diag_r]. Qed.
Lemma ring_wp x s : base_but x s → wp ring (λ l s', s' = s ∧ ∀ q, q ∈ l ↔ is_Some (tasks s !! q)) s.
Proof.
  intros B. unfold wp, ring. pose proof (b_ring _ _ B) as Hr. destruct (loopTask s) as [p|].
  - destruct Hr as [l R]. rewrite (size_fuel s p l R). simpl. split; [done|]. intros q. symmetry. apply R.
  - split; [done|]. intros q. rewrite Hr, lookup_empty. split; [by intros ?%elem_of_nil|by intros [??]].
Qed.
Lemma others_wp x p s : base_but x s → is_Some (tasks s !! p) → wp (others p) (λ l s', s' = s ∧ ∀ q, q ∈ l → is_Some (tasks s !! q)) s.
Proof.
  intros B [t Hp]. unfold wp, others. rewrite Hp. cbn [mbind option_bind]. pose proof (b_ring _ _ B) as Hr.
  destruct (loopTask s) as [p0|]; [|by rewrite Hr in Hp]. destruct Hr as [l0 R0].
  destruct (ring_rotate _ _ _ p R0) as [l R]; [by apply R0; exists t|].
  pose proof (ring_next _ _ _ _ R Hp) as Hn. destruct (decide (next t = p)) as [Ht|Ht]; [split; [done|]; by intros q ?%elem_of_nil|].
  destruct l as [|q l]; [done|]. destruct Hn as [Hn _]. pose proof (ring_size _ _ _ R) as Hsz. simpl in Hsz.
  destruct (r_seg _ _ _ R) as (_ & t' & Ht' & Hs). rewrite Hp in Ht'. injection Ht' as <-. rewrite Hn in Hs |- *.
  pose proof (r_nodup _ _ _ R) as [Hpl Hnd]%NoDup_cons.
  rewrite (ring_from_seg _ p l q); [|exact Hs|by apply not_elem_of_cons in Hpl as []|lia]. simpl. split; [done|].
  intros z Hz. apply (r_all _ _ _ R). by right.
Qed.

(** Doing something with each task of a list. *)
Lemma kept_each x ps l f : (∀ p, calm x (p :: ps) (f p)) → ∀ s, base_but x s → Forall (λ p, is_Some (tasks s !! p)) ps →
  (∀ p, p ∈ l → is_Some (tasks s !! p)) → wp (mfor l f) (λ _ s', keeps x s s') s.
Proof.
  intros Hf s B F Hl. eapply wp_mono; [apply (kept_mfor x (l ++ ps) l f)|]; [|done| |].
  - intros p Hp. eapply kept_sub; [apply Hf|]. intros q [->|Hq]%elem_of_cons; apply elem_of_app; auto.
  - apply Forall_app. split; [by apply Forall_forall|done].
  - by intros ? s' [K _].
Qed.

(** ** Events *)

Lemma kept_start x ps pc lo : pc_ok pc = true → calm x ps (startNonRecursiveTask pc lo).
Proof.
  intros Hpc. apply kept_wp. intros s B F. unfold startNonRecursiveTask. apply wp_bind. eapply wp_mono; [by eapply ring_wp|].
  intros l s' [-> _]. apply wp_bind, wp_get. destruct (existsb _ _); [apply wp_ret; by apply ekeeps_refl|].
  apply wp_bind. eapply wp_mono; [by eapply new_task_wp|]. intros q s1 (K1 & _ & Hq). cbn beta in *.
  eapply wp_mono; [apply (keeps_update x); [apply K1|done|]|].
  - intros t Ht. split_and!; [done|done|apply Ht].
  - intros ? s2 K2. cbn beta in K2. by eapply ekeeps_trans.
Qed.
Lemma kept_cells x ps m id lo : Forall (λ c, pc_ok c.2 = true) m → ∀ k j, (j + k = length m)%nat → calm x ps (handle_cells k j m id lo).
Proof.
  intros Hm. induction k as [|k IH]; intros j Hj; [by apply kept_ret|]. simpl.
  destruct (lookup_lt_is_Some_2 m j) as [c Hc]; [lia|]. eapply kept_bind; [by apply (kept_lift x ps (λ c', c' = c) _ c)|].
  intros ? ->. apply calm_bind; [|intros []; apply IH; lia]. apply kept_if; [|by apply kept_ret].
  apply kept_start. rewrite Forall_lookup in Hm. by eapply Hm.
Qed.
Lemma kept_list x ps m : needed m = true → kept x ps list_ok (list_of m).
Proof.
  intros Hm. apply kept_look. intros s B _. destruct (b_lists _ _ B m Hm) as (l & ? & ?). by exists l.
Qed.
Lemma kept_event x ps m id lo : needed m = true → calm x ps (handleEvent m id lo).
Proof.
  intros Hm. unfold handleEvent. eapply kept_bind; [by apply kept_list|]. intros [k m' c] (Hl & Hf & _). simpl. by apply kept_cells; [|lia].
Qed.
Lemma kept_find x ps m v : needed m = true → kept x ps (λ r, r = -1 ∨ pc_ok r = true) (find_in m v).
Proof.
  intros Hm. unfold find_in. eapply kept_bind; [by apply kept_list|]. intros l Hl.
  destruct (find_ok l (i16 v) Hl) as (r & Hr & Hok). by eapply kept_lift.
Qed.
Lemma kept_find_signal x ps id : tru (compileFeatures .& FEATURE_SIGNAL) = true → ids id →
  kept x ps (λ r, r = -1 ∨ slot_ok r = true) (find_in signalLookup id).
Proof.
  intros Hf Hid s B F. destruct (b_signals _ _ B Hf id Hid) as (l & r & Hl & Hr & Hok).
  unfold wp, find_in, mthen, list_of. rewrite Hl. simpl. unfold mlift. rewrite Hr. simpl. split; [by apply ekeeps_refl|done].
Qed.

Lemma kept_deliver x ps e : calm x ps (deliver e).
Proof.
  destruct e as [e|e|e|e|e| | | | | | | | | | | | | | | | | | | | | | |]; simpl; try apply kept_emit;
    try (destruct e; simpl; try apply kept_emit).
  - destruct gate; by apply kept_event.
  - destruct e; try apply kept_emit. by apply kept_event.
  - destruct closed; by apply kept_event.
  - unfold rotateEvent. apply kept_if; [by apply kept_event|by apply kept_ret].
  - unfold clockEvent. apply kept_if; [|by apply kept_ret]. eapply kept_bind; [by apply kept_event|]. intros _ _. by apply kept_event.
  - unfold readLocoCallback. repeat apply kept_if; by apply kept_mod.
Qed.

(** ** Operations of the station *)

Definition fine {A} (m : M World A) : Prop := ∀ w, WInv n w → wp m (λ _ w', WInv n w') w.
Lemma fine_safe {A} (m : M World A) : safe n m → fine m.
Proof. intros Hm w Hw. eapply wp_mono; [by apply Hm|]. by intros a w' [? _]. Qed.
Lemma fine_get {A} (f : World → A) : fine (mget f).
Proof. intros w Hw. by apply wp_get. Qed.

Lemma keeps_world x s w : WInv n w → base_but x s → keeps x s (with_world w s).
Proof. intros Hw []. split; [by split|done|]. intros p t Hp. by exists t. Qed.
Lemma kept_world {A} x ps (m : M World A) : fine m → calm x ps (on_world m).
Proof.
  intros Hm. apply kept_wp. intros s B F. specialize (Hm (world s) (b_world _ _ B)). unfold wp in *. unfold on_world.
  destruct (m (world s)) as [[a w]|]; [|done]. simpl. pose proof (keeps_world x s w Hm B) as K1.
  pose proof (kept_mfor x [] (drop (length (Station.out (world s))) (Station.out w)) deliver (λ e _, kept_deliver x [] e)) as Hd.
  specialize (Hd (with_world w s) (k_base _ _ _ K1) (Forall_nil_2 _)). unfold wp in Hd. destruct (mfor _ _ _) as [[[] s']|]; [|done]. simpl.
  eapply ekeeps_trans; [done|apply Hd].
Qed.
(** One that raises no event changes no task. *)
Lemma deliver_quiet l : Forall no_event l → ∀ s, mfor l deliver s = Some (tt, with_out (out s ++ (OfStation <$> l)) s).
Proof.
  unfold mfor. induction 1 as [|e l He Hl IH]; intros s.
  - simpl. rewrite app_nil_r. by destruct s.
  - simpl. assert (deliver e = emit (OfStation e)) as ->.
    { destruct e as [e|e|e|e|e| | | | | | | | | | | | | | | | | | | | | | |]; try done; destruct e; try done. by destruct e. }
    unfold mthen, emit, mmod. simpl. rewrite IH. simpl. by rewrite <-app_assoc.
Qed.
Lemma quiet_world {A} x (m : M World A) s : fine m → emits Station.out no_event m → base_but x s →
  wp (on_world m) (λ _ s', keeps x s s' ∧ tasks s' = tasks s ∧ loopTask s' = loopTask s) s.
Proof.
  intros Hm Hq B. pose proof (kept_world x [] m Hm s B (Forall_nil_2 _)) as Hk. unfold wp in *. unfold on_world in *.
  destruct (m (world s)) as [[a w]|] eqn:E; [|done]. simpl in *. destruct (Hq _ _ _ E) as (l & Hl & F). rewrite Hl, drop_app_length in *.
  rewrite deliver_quiet in * by done. simpl in *. split; [apply Hk|done].
Qed.
End safe.
End ExrailSafe.

(** The end of an EXRAIL task never fails: the loco stops, the id is free again
    and the ring closes behind the task, whose memory nothing points to. *)

Module ExrailKill.
Import Station StationProps Exrail ExrailRun ExrailRing ExrailInv ExrailSafe.

Section kill.
Context `{!Config} `{!MotorDriver.MotorDriver.Board} `{!Layout.Layout.Machine} `{!Devices} `{!Program} `{!Garbage}.
Context (Hmax : MAX_LOCOS < 65536) (n : Z) (ids : Z → Prop) (i : Io).
Notation base_but := (ExrailSafe.base_but n ids).
Notation base := (ExrailSafe.base_but n ids None).
Notation keeps := (ExrailSafe.keeps n ids).
Notation calm x ps m := (ExrailSafe.kept n ids x ps (λ _, True) m).

(** ** Throttles *)

Lemma speedByte_wp cab (s : DCC.DCC.St) : DCCSafe.DCCSafe.inv s → wp (DCC.DCC.getThrottleSpeedByte cab) (λ _ s', s' = s) s.
Proof using Hmax.
  intros Hs. unfold DCC.DCC.getThrottleSpeedByte. apply wp_bind. apply DCCSafe.DCCSafe.slot_of_wp; [done..|].
  intros p s' _ Hsame Hp. rewrite (Hsame eq_refl) in *. destruct p as [x|]; [|by apply wp_ret]. destruct Hp as [c Hc].
  apply wp_bind. eapply DCCSafe.DCCSafe.wp_deref; [done|]. by apply wp_ret.
Qed.
Lemma locoSpeed_wp cab (s : DCC.DCC.St) : DCCSafe.DCCSafe.inv s → wp (DCC.DCC.getLocoSpeedByte cab) (λ _ s', s' = s) s.
Proof using Hmax.
  intros Hs. unfold DCC.DCC.getLocoSpeedByte. apply wp_bind. apply DCCSafe.DCCSafe.slot_of_wp; [done..|].
  intros p s' _ Hsame Hp. rewrite (Hsame eq_refl) in *. destruct p as [x|]; [|by apply wp_ret]. destruct Hp as [c Hc].
  apply wp_bind. eapply DCCSafe.DCCSafe.wp_deref; [done|]. by apply wp_ret.
Qed.
Lemma fine_dcc_same {A} (m : M DCC.DCC.St A) : (∀ s, DCCSafe.DCCSafe.inv s → wp m (λ _ s', s' = s) s) → fine n (on_dcc m).
Proof.
  intros Hm. apply fine_safe, safe_dcc_steps. intros s Hs. eapply wp_mono; [by apply Hm|]. intros a s' ->. by apply DCCSafe.DCCSafe.steps_refl.
Qed.
Lemma fine_speedByte cab : fine n (on_dcc (DCC.DCC.getThrottleSpeedByte cab)).
Proof using Hmax. apply fine_dcc_same, speedByte_wp. Qed.
Lemma fine_locoSpeed cab : fine n (on_dcc (DCC.DCC.getLocoSpeedByte cab)).
Proof using Hmax. apply fine_dcc_same, locoSpeed_wp. Qed.
Lemma fine_direction cab : fine n (on_dcc (DCC.DCC.getThrottleDirection cab)).
Proof using Hmax.
  apply fine_dcc_same. intros s Hs. unfold DCC.DCC.getThrottleDirection. apply wp_bind. eapply wp_mono; [by apply speedByte_wp|].
  intros b s' ->. by apply wp_ret.
Qed.
Lemma fine_speed cab : fine n (on_dcc (DCC.DCC.getThrottleSpeed cab)).
Proof using Hmax.
  apply fine_dcc_same. intros s Hs. unfold DCC.DCC.getThrottleSpeed. apply wp_bind. eapply wp_mono; [by apply speedByte_wp|].
  intros b s' ->. by apply wp_ret.
Qed.
Lemma fine_throttle now cab sp d : fine n (on_dcc (DCC.DCC.setThrottle now cab sp d)).
Proof using Hmax. apply fine_safe, safe_dcc_steps. intros s Hs. by apply DCCSafe.DCCSafe.setThrottle_wp. Qed.

Lemma kept_throttle x ps cab sp d : calm x ps (setThrottle i cab sp d).
Proof using Hmax. unfold setThrottle. apply calm_bind; [apply kept_world, fine_throttle|]. intros. by apply kept_ret. Qed.
Lemma kept_speed x ps cab sp : calm x ps (setSpeed i cab sp).
Proof using Hmax. unfold setSpeed, getThrottleDirection. apply calm_bind; [apply kept_world, fine_direction|]. intros. apply kept_throttle. Qed.

(** The same, with no task started. *)
Lemma still_speed x cab sp s : base_but x s →
  wp (setSpeed i cab sp) (λ _ s', keeps x s s' ∧ tasks s' = tasks s ∧ loopTask s' = loopTask s) s.
Proof using Hmax.
  intros B. unfold setSpeed, getThrottleDirection, setThrottle. apply wp_bind.
  eapply wp_mono; [eapply quiet_world; [apply fine_direction| |exact B]|].
  { apply no_event_dcc. unfold DCC.DCC.getThrottleDirection. apply emits_bind; [apply quiet_speedByte|intros; apply emits_ret]. }
  intros d s1 (K1 & T1 & L1). cbn beta. apply wp_bind.
  eapply wp_mono; [eapply quiet_world; [apply fine_throttle|apply no_event_dcc, quiet_setThrottle|apply K1]|].
  intros b s2 (K2 & T2 & L2). cbn beta in *. apply wp_ret. split; [by eapply ekeeps_trans|]. split; congruence.
Qed.

(** ** The end of a task *)

(** [p] is gone; the other tasks stand where they stood. *)
Record gone (p : ptr) (s s' : St) : Prop := {
  g_base : base s';
  g_lookup : lookup s' = lookup s;
  g_none : tasks s' !! p = None;
  g_size : S (base.size (tasks s')) = base.size (tasks s);
}.

(** Closing the ring behind [p]. *)
Definition unlink (p : ptr) : M St unit :=
  (let! t := deref p in
   (if decide (next t = p) then mmod (with_loopTask None)
    else
      let! fuel := fuel_of in
      let! r := before_loop fuel p (next t) in
      update r (with_next (next t)) ;;;
      mmod (with_loopTask (Some (next t)))) ;;;
   mmod (λ s, with_tasks (base.delete p (tasks s)) s)).
Lemma size_delete_lt {A} (h : gmap ptr A) p t : h !! p = Some t → S (base.size (base.delete p h)) = base.size h.
Proof.
  intros Hp. rewrite <-(insert_delete_id h p t) at 2 by done. rewrite map_size_insert_None; [done|apply lookup_delete_eq].
Qed.
Lemma unlink_last p t s : base_but (Some p) s → tasks s !! p = Some t → ring_at (tasks s) p [] →
  gone p s (with_tasks (base.delete p (tasks s)) (with_loopTask None s)).
Proof.
  intros B Hp R. pose proof (size_delete_lt (tasks s) p t Hp) as Hs.
  split; [|done|simpl; apply lookup_delete_eq|done].
  assert (base.delete p (tasks s) = ∅) as E.
  { apply map_empty. intros q. destruct (decide (q = p)) as [->|Hq]; [apply lookup_delete_eq|]. rewrite lookup_delete_ne by done.
    apply eq_None_not_Some. rewrite (r_all _ _ _ R), list_elem_of_singleton. done. }
  apply (base_retask n ids (Some p) None s); [done|done|done|]. simpl. rewrite E. by intros q t'.
Qed.
Lemma unlink_wp p s : base_but (Some p) s → is_Some (tasks s !! p) → wp (unlink p) (λ _ s', gone p s s') s.
Proof.
  intros B [t Hp]. unfold unlink. apply wp_bind. eapply deref_wp; [done|].
  pose proof (b_ring _ _ _ _ B) as Hr. destruct (loopTask s) as [p0|] eqn:El; [|by rewrite Hr in Hp]. destruct Hr as [l0 R0].
  destruct (ring_rotate _ _ _ p R0) as [l R]; [by apply R0; exists t|]. pose proof (ring_next _ _ _ _ R Hp) as Hn. apply wp_bind.
  destruct l as [|q l].
  { rewrite decide_True by done. apply wp_mod, wp_mod. exact (unlink_last p t s B Hp R). }
  destruct Hn as [Hn _]. pose proof (r_nodup _ _ _ R) as Hnd. apply NoDup_cons in Hnd as [Hpl _].
  rewrite decide_False by (rewrite Hn; intros <-; apply Hpl; by left). apply wp_bind, wp_get.
  destruct (ring_before _ _ _ _ _ R Hp) as (r & tr & Hrl & Hr & Hrp & Huniq & k & R').
  assert (∃ l1, q :: l = l1 ++ [r]) as [l1 E].
  { destruct (exists_last (l := q :: l)) as (l1 & r' & E); [done|]. exists l1. rewrite E. do 2 f_equal.
    destruct (r_seg _ _ _ R) as (_ & t' & _ & Hs). change (seg (tasks s) (next t') (q :: l) p) in Hs. rewrite E in Hs. apply seg_app in Hs as (z & _ & -> & tz & Htz & Hz).
    by apply (Huniq _ tz). }
  assert (before_loop (S (base.size (tasks s))) p (next t) s = Some (r, s)) as Hb.
  { apply (before_loop_finds (tasks s) p r Huniq l1 (next t) p); [done| |done|].
    - destruct (r_seg _ _ _ R) as (_ & t' & Ht' & Hs). rewrite Hp in Ht'. injection Ht' as <-. by rewrite <-E.
    - pose proof (ring_size _ _ _ R) as Hsz. rewrite E, length_cons, length_app in Hsz. simpl in Hsz. clear -Hsz. lia. }
  apply wp_bind. eapply wp_eq; [exact Hb|]. apply wp_bind. unfold wp at 1, update. rewrite Hr. cbn [mbind option_bind].
  apply wp_mod, wp_mod. assert (r ≠ p) as Hrne by (intros ->; done). split; simpl.
  - apply (base_retask n ids (Some p) None s); [done|done|simpl; exists k; by rewrite Hn in *|]. simpl. intros z tz Hz.
    assert (z ≠ p) as Hzp by (intros ->; by rewrite lookup_delete_eq in Hz). rewrite lookup_delete_ne in Hz by done.
    destruct (decide (z = r)) as [->|Hzr].
    + rewrite lookup_insert_eq in Hz. injection Hz as <-. destruct (old_task n ids (Some p) s r tr (next t) B Hr) as (? & ? & Hpl').
      split_and!; [done|done|]. intros _. apply Hpl'. congruence.
    + rewrite lookup_insert_ne in Hz by done. destruct (old_task_same n ids (Some p) s z tz B Hz) as (? & ? & Hpl').
      split_and!; [done|done|]. intros _. apply Hpl'. congruence.
  - done.
  - apply lookup_delete_eq.
  - rewrite (size_delete_lt _ p t) by (by rewrite lookup_insert_ne). by rewrite map_size_insert_Some by by eexists.
Qed.

Lemma delete_wp p s : base_but (Some p) s → is_Some (tasks s !! p) → wp (kill i p) (λ _ s', gone p s s') s.
Proof using Hmax.
  intros B [t Hp]. unfold kill, delete. apply wp_bind. eapply deref_wp; [done|]. apply wp_bind.
  apply (wp_mono _ (λ _ s', keeps (Some p) s s' ∧ tasks s' = tasks s)).
  { destruct (_ && _); [|apply wp_ret; split; [by apply ekeeps_refl|done]].
    eapply wp_mono; [by apply (still_speed (Some p))|]. by intros ? s1 (? & ? & ?). }
  intros ? s1 [K1 T1]. cbn beta in *. apply wp_bind.
  pose proof (kept_setFlag n ids (Some p) [] (taskId t) 0 TASK_FLAG s1 (k_base _ _ _ _ _ K1) (Forall_nil_2 _)) as Hf.
  unfold wp in Hf |- * at 1. destruct (setFlag _ _ _ s1) as [[b s2]|] eqn:Es; [|done]. destruct Hf as [K2 _].
  destruct (setFlag_core _ _ _ _ _ _ Es) as (T2 & _ & _).
  change (wp (unlink p) (λ _ s', gone p s s') s2). eapply wp_mono; [apply unlink_wp; [apply K2|rewrite T2, T1; by exists t]|].
  intros ? s' [G1 G2 G3 G4]. split; [done| |done|congruence]. rewrite G2, (k_lookup _ _ _ _ _ K2). apply K1.
Qed.
Lemma kill_wp p s : base s → is_Some (tasks s !! p) → wp (kill i p) (λ _ s', gone p s s') s.
Proof using Hmax. intros B. by apply delete_wp, base_weaken. Qed.

(** Killing all of them ends. *)
Lemma killall_loop_wp : ∀ fuel s, base s → (base.size (tasks s) <= fuel)%nat →
  wp (killall_loop i fuel) (λ _ s', base s' ∧ lookup s' = lookup s ∧ tasks s' = ∅) s.
Proof using Hmax.
  induction fuel as [|fuel IH]; intros s B Hf.
  - assert (tasks s = ∅) as E by (apply map_size_empty_inv; lia). simpl. apply wp_bind, wp_get.
    pose proof (b_ring _ _ _ _ B) as Hr. destruct (loopTask s) as [p|]; [|by apply wp_ret]. destruct Hr as [l R].
    pose proof (ring_size _ _ _ R) as Hsz. simpl in Hsz. lia.
  - simpl. apply wp_bind, wp_get. pose proof (b_ring _ _ _ _ B) as Hr.
    destruct (loopTask s) as [p|]; [|by apply wp_ret]. destruct Hr as [l R]. apply wp_bind.
    eapply wp_mono; [apply kill_wp; [done|]; apply (r_all _ _ _ R); by left|]. intros ? s1 G. cbn beta in G.
    pose proof (g_size _ _ _ G) as Hsz. eapply wp_mono; [apply IH; [apply G|lia]|]. intros ? s' (B' & L' & T'). cbn beta.
    split; [done|]. split; [|done]. rewrite L'. apply G.
Qed.
Lemma killall_wp s : base s → wp (killall i) (λ _ s', base s' ∧ lookup s' = lookup s ∧ tasks s' = ∅) s.
Proof using Hmax. intros B. unfold killall. apply wp_bind, wp_get. apply killall_loop_wp; [done|lia]. Qed.
End kill.
End ExrailKill.

(** The code of an automation as EXRAIL reads it: what a place of a well formed
    automation holds, and that skipping a block ends. *)

Module ExrailCode.
Import Station StationProps Exrail ExrailRun ExrailRing ExrailInv ExrailSafe ExrailKill.

Lemma opcode_of_inv b o : 0 <= b → opcode_of b = Some o → b = number_of o.
Proof.
  intros Hb Ho. assert (Z.to_nat b < length opcodes)%nat as Hl by (by eapply lookup_lt_Some).
  assert (forallb (λ k, match opcodes !! k with Some o => Z.of_nat k =? number_of o | None => true end) (seq 0 (length opcodes)) = true) as Hc
    by (by vm_compute).
  rewrite forallb_forall in Hc. specialize (Hc (Z.to_nat b)). rewrite in_seq in Hc. unfold opcode_of in Ho. rewrite Ho in Hc.
  specialize (Hc ltac:(lia)). lia.
Qed.

Section code.
Context `{!Program}.

Lemma code_loop_at fuel : ∀ pc l, code_loop fuel pc = Some l →
  (∀ k c, l !! k = Some c → c.1 = pc + 3 * Z.of_nat k ∧ code_at c.1 = Some c.2 ∧ c.2 ≠ number_of OPCODE_ENDEXRAIL) ∧
  code_at (pc + 3 * Z.of_nat (length l)) = Some (number_of OPCODE_ENDEXRAIL).
Proof.
  induction fuel as [|fuel IH]; intros pc l; [done|]. simpl. destruct (code_at pc) as [b|] eqn:Eb; [|done]. simpl.
  destruct (b =? 83) eqn:E.
  - intros [= <-]. simpl. split; [done|]. rewrite Z.add_0_r, Eb. f_equal. lia.
  - destruct (code_loop fuel (pc + 3)) as [l'|] eqn:El; [|done]. intros [= <-]. destruct (IH _ _ El) as [H1 H2]. split.
    + intros [|k] c; simpl.
      * intros [= <-]. simpl. split; [lia|]. split; [done|]. simpl. lia.
      * intros Hk. destruct (H1 k c Hk) as (Ha & Hb & Hc). split; [lia|done].
    + etrans; [|exact H2]. f_equal. simpl length. lia.
Qed.
Lemma code_places l : code = Some l → (Z.of_nat (length l) < Z.of_nat (length RouteCode)) ∧
  (∀ k c, l !! k = Some c → c.1 = 3 * Z.of_nat k ∧ code_at c.1 = Some c.2 ∧ c.2 ≠ number_of OPCODE_ENDEXRAIL) ∧
  code_at (3 * Z.of_nat (length l)) = Some (number_of OPCODE_ENDEXRAIL).
Proof.
  intros Hl. destruct (code_loop_at _ _ _ Hl) as [H1 H2]. split; [|by split].
  unfold code_at in H2. destruct (0 + _ <? 0) eqn:E; [done|]. apply lookup_lt_Some in H2. lia.
Qed.

Lemma pc_range pc : pc_ok pc = true → 0 <= pc <= end_pc ∧ pc mod 3 = 0.
Proof. unfold pc_ok. lia. Qed.
Lemma pc_jump pc k : pc_ok pc = true → 0 <= k → pc + 3 * k <= end_pc → pc_ok (pc + 3 * k) = true.
Proof. intros Hp Hk. apply pc_range in Hp. unfold pc_ok. Z.div_mod_to_equations. lia. Qed.

Lemma operand_there pc l k : has_operands pc l = true → k ∈ l → ∃ v, getOperand pc k = Some v.
Proof.
  unfold has_operands. rewrite forallb_forall. intros Hl Hk. apply list_elem_of_In, Hl in Hk. by apply bool_decide_eq_true in Hk as [v ?]; exists v.
Qed.

(** ** A place of an automation that is well formed *)

Context (n : Z) (Hwf : well_formed n = true).

Lemma wf_code : ∃ l, code = Some l ∧ end_pc = 3 * Z.of_nat (length l) ∧ end_pc <= 32760 ∧ is_Some (getOperand end_pc 0) ∧
  (∀ c, c ∈ l → instr_ok n c.1 c.2 = true) ∧ (tru (compileFeatures .& FEATURE_SIGNAL) = true → signals_ok = true) ∧
  listeners 0 <= countLCCLookup <= 32767 ∧ Forall (λ b, 0 <= b < 256) RouteCode.
Proof using Hwf.
  revert Hwf. unfold well_formed, end_pc. destruct code as [l|]; [|done]. intros Hw. exists l.
  rewrite !andb_true_iff in Hw. destruct Hw as ((((((Hend & Hzero) & Hins) & Hsignals) & Hlisten) & Hcount) & Hlast).
  split; [done|]. split; [done|]. split; [lia|].
  split; [by eapply bool_decide_eq_true|]. split.
  - intros [pc b] Hc. rewrite forallb_forall in Hins. by apply (Hins (pc, b)), list_elem_of_In.
  - split; [|split; [lia|]].
    + intros Hf. by rewrite Hf in Hsignals.
    + apply Forall_forall. intros b Hb. rewrite forallb_forall in Hlast. apply list_elem_of_In, Hlast in Hb. lia.
Qed.
Lemma pc_step pc : pc_ok pc = true → pc ≠ end_pc → pc_ok (pc + 3) = true ∧ pc + 3 <= end_pc.
Proof using Hwf.
  intros Hp Hne. destruct wf_code as (l & _ & He & _). apply pc_range in Hp. unfold pc_ok. revert Hp Hne. rewrite He.
  intros. Z.div_mod_to_equations. lia.
Qed.
Lemma pc_small pc : pc_ok pc = true → 0 <= pc <= 32760.
Proof using Hwf. intros Hp. destruct wf_code as (l & _ & _ & He & _). apply pc_range in Hp. lia. Qed.
Lemma pc_zero : pc_ok 0 = true.
Proof using Hwf. destruct wf_code as (l & _ & He & _). unfold pc_ok. rewrite He. lia. Qed.

(** What is there. *)
Record instruction (pc : Z) (b : Z) (o : OPCODE) (v : Z) : Prop := {
  i_code : code_at pc = Some b;
  i_number : b = number_of o;
  i_opcode : opcode_of b = Some o;
  i_known : known o = true;
  i_operand : getOperand pc 0 = Some v;
  i_has : has_operands pc (operands o) = true;
  i_reach : o ≠ OPCODE_ENDEXRAIL → pc + lcc_length o <= end_pc;
  i_ok : operand_ok n pc o (i16 v) = true;
  i_end : o = OPCODE_ENDEXRAIL ↔ pc = end_pc;
}.
Lemma instruction_at pc : pc_ok pc = true → ∃ b o v, instruction pc b o v.
Proof using Hwf.
  intros Hp. destruct wf_code as (l & Hl & He & _ & [v0 Hv0] & Hi & _ & _ & Hb). destruct (code_places _ Hl) as (_ & H1 & H2).
  apply pc_range in Hp as [Hp Hm]. destruct (decide (pc = end_pc)) as [->|Hne].
  - exists 83, OPCODE_ENDEXRAIL, v0. split; [by rewrite He|done..].
  - assert (pc = 3 * (pc / 3)) as E3 by (Z.div_mod_to_equations; lia).
    destruct (lookup_lt_is_Some_2 l (Z.to_nat (pc / 3))) as [c Hc]; [Z.div_mod_to_equations; lia|].
    destruct (H1 _ _ Hc) as (Ha & Hcode & Hend). assert (c.1 = pc) as Hcp by (rewrite Ha; Z.div_mod_to_equations; lia). rewrite Hcp in *.
    pose proof (Hi c (list_elem_of_lookup_2 _ _ _ Hc)) as Hok. rewrite Hcp in Hok. unfold instr_ok in Hok.
    destruct (opcode_of c.2) as [o|] eqn:Eo; [|done]. destruct (getOperand pc 0) as [v|] eqn:Ev; [|done].
    repeat (apply andb_true_iff in Hok as [Hok ?]). exists c.2, o, v.
    assert (c.2 = number_of o) as Hno.
    { apply opcode_of_inv; [|done]. unfold code_at in Hcode. destruct (pc <? 0); [done|]. rewrite Forall_lookup in Hb.
      apply Hb in Hcode. lia. }
    split; try done; [intros _; lia|]. split; [intros ->; by rewrite Hno in Hend|done].
Qed.
Lemma fuel_enough pc : pc_ok pc = true → (Z.to_nat (end_pc - pc) < length RouteCode * 3)%nat.
Proof using Hwf.
  intros Hp. destruct wf_code as (l & Hl & He & _). destruct (code_places _ Hl) as (Hlen & _). apply pc_range in Hp. lia.
Qed.
Lemma slots_ok : tru (compileFeatures .& FEATURE_SIGNAL) = true → ∃ l, signal_slots = Some l ∧ ∀ c, c ∈ l → slot_ok c.1 = true.
Proof using Hwf.
  intros Hf. destruct (wf_code) as (_ & _ & _ & _ & _ & _ & Hs & _). specialize (Hs Hf). unfold signals_ok in Hs.
  destruct signal_slots as [l|]; [|done]. exists l. split; [done|]. intros [slot g] Hc. rewrite forallb_forall in Hs.
  by apply (Hs (slot, g)), list_elem_of_In.
Qed.
End code.
End ExrailCode.
