(* ===== verification/ExrailSteps.v ===== *)
(** The opcodes one by one, a turn of a task, and a round of the loop: each keeps the invariant and
    never fails. *)

From S2P Require Import Prelude Chain LocoSlot DCCConsist ConsistProps DCC DCCSafe Keywords MotorDriver TrackManager TrackProps DCCACK Layout Turnouts Format Turntables Stash Station StationProps Commands CommandsProps Exrail ExrailRun ExrailCommands ExrailInv ExrailSafe.
From stdpp Require Import strings.

#[local] Open Scope Z_scope.
#[local] Open Scope c_scope.

(** What an opcode does never fails, in an automation that is well formed: each
    keeps the invariant, and after a break the task stands where it stood. *)

Module ExrailSteps.
Import Station StationProps Exrail ExrailRun ExrailRing ExrailInv ExrailSafe ExrailKill ExrailCode.

(** ** The string buffer takes any text *)

Definition buffer_ok (b : StringBuffer.St) : Prop :=
  length (StringBuffer.buffer b) = 64%nat ∧ StringBuffer.buffer_max b = 62 ∧ 0 <= StringBuffer.pos_write b <= 62 ∧
  StringBuffer.buffer b !! Z.to_nat (StringBuffer.pos_write b) = Some 0.
Lemma buffer_put l m p k b : length l = 64%nat → 0 <= k < 64 →
  StringBuffer.put k b (StringBuffer.mkSt l m p) = Some (<[Z.to_nat k := u8 b]> l).
Proof. intros Hl Hk. unfold StringBuffer.put. simpl. rewrite Hl. by rewrite (proj2 (andb_true_iff _ _)) by lia. Qed.
Lemma buffer_write b c : buffer_ok b → ∃ r b', StringBuffer.write c b = Some (r, b') ∧ buffer_ok b'.
Proof.
  destruct b as [l m p]. intros (Hl & Hm & Hp & H0). simpl in *. subst m. unfold StringBuffer.write. simpl.
  destruct (p >=? 62) eqn:E; [by eexists _, _|]. rewrite buffer_put by lia. cbn [mbind option_bind].
  rewrite buffer_put by (rewrite ?length_insert; lia). cbn [mbind option_bind]. eexists _, _. split; [done|].
  unfold buffer_ok. simpl. rewrite !length_insert. split_and!; [done|done|lia|lia|].
  rewrite list_lookup_insert_eq; [done|]. rewrite length_insert. lia.
Qed.
Lemma buffer_print text : ∀ b, buffer_ok b → ∃ b', StringBuffer.print text b = Some b' ∧ buffer_ok b'.
Proof.
  induction text as [|c text IH]; intros b Hb; simpl; [by exists b|]. destruct (buffer_write b c Hb) as (r & b' & -> & Hb').
  simpl. destruct (tru r); [by apply IH|by exists b'].
Qed.
Lemma c_string_some l : 0 ∈ l → is_Some (StringBuffer.c_string l).
Proof.
  induction l as [|y l IH]; intros Hl; [by apply elem_of_nil in Hl|]. simpl. destruct (y =? 0) eqn:E; [by eexists|].
  apply elem_of_cons in Hl as [<-|Hl]; [done|]. destruct (IH Hl) as [z ->]. by eexists.
Qed.
Lemma buffered_some text : is_Some (buffered text).
Proof.
  unfold buffered. change (StringBuffer.new (replicate 64 0) 64) with (Some (StringBuffer.mkSt (replicate 64 0) 62 0)). cbn [mbind option_bind].
  destruct (buffer_print text (StringBuffer.mkSt (replicate 64 0) 62 0)) as (b' & -> & Hb'); [by split_and!|]. cbn [mbind option_bind].
  apply c_string_some. by eapply list_elem_of_lookup_2, Hb'.
Qed.

Section station.
Context `{!Config} `{!MotorDriver.MotorDriver.Board} `{!Layout.Layout.Machine} `{!Devices}.
Context (Hmax : MAX_LOCOS < 65536) (n : Z) (Hn : 0 <= n).
#[local] Set Default Proof Using "All".

(** ** Operations of the station *)

Lemma fine_dcc_steps {A} (m : M DCC.DCC.St A) :
  (∀ s, DCCSafe.DCCSafe.inv s → wp m (λ _ s', DCCSafe.DCCSafe.steps s s') s) → fine n (on_dcc m).
Proof. intros Hm. by apply fine_safe, safe_dcc_steps. Qed.
Lemma fine_estopAll : fine n (on_dcc DCC.DCC.estopAll).
Proof. apply fine_safe, safe_dcc_keeps. intros s Hs. by apply DCCSafe.DCCSafe.estopAll_wp. Qed.
Lemma fine_estopLock b : fine n (on_dcc (DCC.DCC.estopLock b)).
Proof. apply fine_safe, safe_on_dcc. intros s Hs. eapply wp_mono; [by apply DCCSafe.DCCSafe.estopLock_wp|]. by intros ? s' [? _]. Qed.
Lemma fine_saveSpeed cab : fine n (on_dcc (DCC.DCC.saveSpeed cab)).
Proof. apply fine_dcc_steps. intros s Hs. by apply DCCSafe.DCCSafe.saveSpeed_wp. Qed.
Lemma fine_restoreSpeed now cab : fine n (on_dcc (DCC.DCC.restoreSpeed now cab)).
Proof. apply fine_dcc_steps. intros s Hs. by apply DCCSafe.DCCSafe.restoreSpeed_wp. Qed.
Lemma fine_momentum l a d : fine n (on_dcc (DCC.DCC.setMomentum l a d)).
Proof. apply fine_dcc_steps. intros s Hs. by apply DCCSafe.DCCSafe.setMomentum_wp. Qed.
Lemma fine_forget cab : fine n (on_dcc (DCC.DCC.forgetLoco cab)).
Proof. apply fine_dcc_steps. intros s Hs. by apply DCCSafe.DCCSafe.forgetLoco_wp. Qed.
Lemma fine_setFn cab fn b : fine n (on_dcc (DCC.DCC.setFn cab fn b)).
Proof. apply fine_dcc_steps. intros s Hs. by apply DCCSafe.DCCSafe.setFn_wp. Qed.
Lemma fine_changeFn cab fn : 0 <= fn → fine n (on_dcc (DCC.DCC.changeFn cab fn)).
Proof. intros Hf. apply fine_dcc_steps. intros s Hs. by apply DCCSafe.DCCSafe.changeFn_wp. Qed.
Lemma fine_setDCFreq cab f : fine n (on_dcc (DCC.DCC.setDCFreq cab f)).
Proof. apply fine_dcc_steps. intros s Hs. by apply DCCSafe.DCCSafe.setDCFreq_wp. Qed.
Lemma fine_accessory a p g o : fine n (on_dcc (DCC.DCC.setAccessory a p g o)).
Proof. apply fine_dcc_steps. intros s Hs. by apply DCCSafe.DCCSafe.setAccessory_wp. Qed.
Lemma fine_extended a v r : fine n (on_dcc (DCC.DCC.setExtendedAccessory a v r)).
Proof. apply fine_dcc_steps. intros s Hs. by apply DCCSafe.DCCSafe.setExtendedAccessory_wp. Qed.
Lemma fine_writeCV a b c : fine n (on_dcc (DCC.DCC.writeCVByteMain a b c)).
Proof.
  apply fine_safe, safe_dcc_keeps. intros s Hs. apply DCCSafe.DCCSafe.wp_packet; [done..|by apply DCCSafe.DCCSafe.cv_main_ok|done].
Qed.
Lemma fine_consists {A} (f : LocoSlot.St → option (A * LocoSlot.St)) :
  (∀ t, LocoInv.good t → ∃ a t', f t = Some (a, t') ∧ LocoInv.good t' ∧
    (∀ y, is_Some (LocoSlot.heap t !! y) → is_Some (LocoSlot.heap t' !! y))) →
  fine n (on_dcc (λ d, '(a, s) ← f (DCC.DCC.slots d); Some (a, DCC.DCC.with_slots s d))).
Proof.
  intros Hf. apply fine_safe, safe_on_dcc. intros s [Hg Hnext]. unfold wp. destruct (Hf _ Hg) as (a & t' & -> & Hg' & Hd). simpl.
  split; [done|]. intros y Hy. by apply Hd, Hnext.
Qed.
Lemma fine_layout {A} (m : M Layout.Layout.St A) : total m → fine n (on_layout m).
Proof. intros Hm. by apply fine_safe, safe_on_layout. Qed.
Lemma fine_turntables {A} (m : M Turntables.Turntables.St A) : total m → fine n (on_turntables m).
Proof. intros Hm. by apply fine_safe, safe_on_turntables. Qed.
Lemma fine_tracks {A} (m : TrackManager.TrackManager.Throttles → M TrackManager.TrackManager.St A) :
  (∀ t s, TrackProps.TrackProps.good n s → wp (m t) (λ _ s', TrackProps.TrackProps.good n s') s) → fine n (on_tracks m).
Proof. intros Hm. by apply fine_safe, safe_on_tracks. Qed.
Lemma fine_stashes f : fine n (mmod (λ w, with_stashes (f (stashes w)) w)).
Proof. intros w Hw. by apply wp_mod. Qed.
Lemma fine_programming (i : Io) c m : prog_op m → fine n (programming (station i) c m).
Proof. intros Hm w Hw. by apply programming_wp. Qed.
Lemma fine_getDriveaway (i : Io) : fine n (programming (station i) CB_Exrail DCCACK.DCCACK.getDriveawayLocoId).
Proof. apply fine_programming, prog_Setup. Qed.
Lemma fine_delete_consist cab : fine n (on_dcc (λ d, '(a, s) ← (s ← DCCConsist.DCCConsist.deleteAnyConsist (i16 cab) (DCC.DCC.slots d); Some (tt, s)); Some (a, DCC.DCC.with_slots s d))).
Proof.
  apply (fine_consists (λ s, s ← DCCConsist.DCCConsist.deleteAnyConsist (i16 cab) s; Some (tt, s))). intros s Hs.
  destruct (LocoInv.good_deleteAnyConsist (i16 cab) s Hmax (u16_range _) Hs) as (s' & -> & ? & Hd & _).
  exists tt, s'. split_and!; [done..|]. intros y. by rewrite Hd.
Qed.
Lemma fine_add_consist a b rev : fine n (on_dcc (λ d, '(r, s) ← DCCConsist.DCCConsist.addLocoToConsist a b rev (DCC.DCC.slots d); Some (r, DCC.DCC.with_slots s d))).
Proof. apply (fine_consists). intros s Hs. by apply LocoInv.good_addLocoToConsist. Qed.
Lemma fine_isPowerOn t : 0 <= t <= n → fine n (on_tracks (λ _, TrackManager.TrackManager.isPowerOn t)).
Proof.
  intros Ht. apply fine_tracks. intros _ s Hs. unfold TrackManager.TrackManager.isPowerOn.
  apply wp_bind, TrackProps.TrackProps.wp_alive_driver; [by apply (TrackProps.TrackProps.good_alive n)|]. intros d _. by apply wp_ret.
Qed.
Lemma fine_setJoin b : fine n (on_tracks (λ _, TrackManager.TrackManager.setJoin b)).
Proof. apply fine_tracks. intros t s. apply TrackProps.TrackProps.good_setJoin. Qed.
Lemma fine_trackPower e m p : TrackProps.TrackProps.selects_used m = true → fine n (on_tracks (λ _, TrackManager.TrackManager.setTrackPower e m p)).
Proof. intros Hm. apply fine_tracks. intros t s Hs. by apply TrackProps.TrackProps.good_setTrackPower. Qed.
Lemma fine_mainPower e p : fine n (on_tracks (λ _, TrackManager.TrackManager.setMainPower e p)).
Proof. by apply fine_trackPower. Qed.
Lemma fine_progPower e p : fine n (on_tracks (λ _, TrackManager.TrackManager.setProgPower e p)).
Proof. by apply fine_trackPower. Qed.
Lemma fine_setPower e p : fine n (on_tracks (λ _, TrackManager.TrackManager.setPower_ e p)).
Proof.
  apply fine_tracks. intros t s Hs. unfold TrackManager.TrackManager.setPower_. apply wp_bind.
  eapply wp_mono; [by apply TrackProps.TrackProps.good_setTrackPower|]. intros [] s1 Hs1. by apply TrackProps.TrackProps.good_setTrackPower.
Qed.
Lemma fine_setTrackMode e t mode a : 0 <= t → TrackProps.TrackProps.valid_mode mode = true →
  fine n (on_tracks (λ _, TrackManager.TrackManager.setTrackMode e t mode a true)).
Proof. intros Ht Hm. apply fine_tracks. intros ? s Hs. by apply TrackProps.TrackProps.good_setTrackMode. Qed.
Lemma fine_oneTrack e p t : 0 <= t < 8 → fine n (on_tracks (λ _, TrackManager.TrackManager.setOneTrackPower e p t)).
Proof. intros Ht. apply fine_tracks. intros ? s Hs. by apply TrackProps.TrackProps.good_setOneTrackPower. Qed.
Lemma total_isClosed id : total (Turnouts.Turnouts.isClosed id).
Proof using Type. unfold Turnouts.Turnouts.isClosed. apply total_bind; [apply total_get|]. intros t. apply total_ret. Qed.
End station.

(** ** The tactic for calls that keep what there is *)

Ltac kept1 :=
  lazymatch goal with
  | |- ExrailSafe.kept _ _ _ _ _ (mreturn _) => apply kept_ret; done
  | |- ExrailSafe.kept _ _ _ _ _ (mget _) => apply kept_get; intros; done
  | |- ExrailSafe.kept _ _ _ _ _ (emit _) => apply kept_emit
  | |- ExrailSafe.kept _ _ _ _ _ (mmod _) => apply kept_mod; intros; reflexivity
  | |- ExrailSafe.kept _ _ _ _ _ (getFlag _ _) => apply kept_getFlag
  | |- ExrailSafe.kept _ _ _ _ _ (setFlag _ _ _) => apply kept_setFlag
  | |- ExrailSafe.kept _ _ _ _ _ (setThrottle _ _ _ _) => by apply kept_throttle
  | |- ExrailSafe.kept _ _ _ _ _ (setSpeed _ _ _) => by apply kept_speed
  | |- ExrailSafe.kept _ _ _ _ _ (on_world (mget _)) => apply kept_world, fine_get
  | |- ExrailSafe.kept _ _ _ _ _ (on_world _) => apply kept_world
  | |- ExrailSafe.kept _ _ _ _ _ (update _ _) => apply kept_update; [assumption || by left|intros; split_and!; [done|done|]]
  | |- ExrailSafe.kept _ _ _ _ _ (mfor _ _) => apply kept_mfor; intros
  | |- ExrailSafe.kept _ _ _ _ _ (handleEvent _ _ _) => apply kept_event
  | |- ExrailSafe.kept _ _ _ _ _ (if _ then _ else _) => apply kept_if
  | |- ExrailSafe.kept _ _ _ _ _ (mthen _ _) => apply calm_bind; [|intros]
  end.
Ltac kept_tac := repeat kept1; try done.

Section steps.
Context `{!Config} `{!MotorDriver.MotorDriver.Board} `{!Layout.Layout.Machine} `{!Devices} `{!Program} `{!Garbage}.
Context (Hmax : MAX_LOCOS < 65536) (n : Z) (Hn : 0 <= n) (ids : Z → Prop) (i : Io).
Context (Hwf : well_formed n = true) (Hblink : no_blink = true).
Notation base_but := (ExrailSafe.base_but n ids).
Notation base := (ExrailSafe.base_but n ids None).
Notation keeps := (ExrailSafe.keeps n ids).
Notation kept := (ExrailSafe.kept n ids).
Notation calm x ps m := (ExrailSafe.kept n ids x ps (λ _, True) m).
Implicit Types (x : option ptr) (ps : list ptr) (p : ptr) (t : Task).

#[local] Set Default Proof Using "All".

(** ** Signals, routes and texts *)

Lemma kept_killBlink x ps pin count : calm x ps (killBlinkOnVpin i pin count).
Proof. unfold killBlinkOnVpin. unfold no_blink in Hblink. rewrite Hblink. by apply kept_ret. Qed.
Lemma kept_lamp x ps pin h v : calm x ps (set_lamp i pin h v).
Proof. unfold set_lamp. kept_tac. apply kept_killBlink. Qed.
Lemma kept_slot x ps slot : slot_ok slot = true → kept x ps (λ g, SignalDefinitions !! Z.to_nat slot = Some g) (getSignalSlot slot).
Proof.
  unfold slot_ok, getSignalSlot. intros Hs. rewrite !andb_true_iff in Hs. destruct Hs as [[H0' _] Hs].
  destruct (slot <? 0) eqn:E; [lia|]. destruct (SignalDefinitions !! _) as [g|]; [|done]. by eapply kept_lift.
Qed.
Lemma kept_second x ps slot g : slot_ok slot = true → SignalDefinitions !! Z.to_nat slot = Some g → type g = sigtypeNEOPIXEL →
  calm x ps (getSignalSlot (slot + 1)).
Proof.
  unfold slot_ok, getSignalSlot. intros Hs Hg Ht. rewrite Hg, Ht, !andb_true_iff in Hs. destruct Hs as [[H0' _] Hs].
  destruct (slot + 1 <? 0) eqn:E; [lia|]. destruct (lookup_lt_is_Some_2 SignalDefinitions (Z.to_nat (slot + 1))) as [g2 Hg2]; [lia|].
  by eapply kept_lift.
Qed.
Lemma kept_doSignal x ps id rag : ids id → calm x ps (doSignal i id rag).
Proof.
  intros Hid. unfold doSignal. destruct (tru (compileFeatures .& FEATURE_SIGNAL)) eqn:Ef; [|by apply kept_ret]. simpl negb. cbv iota.
  apply calm_bind; [apply kept_event; by repeat case_match|]. intros _. eapply kept_bind; [by apply kept_find_signal|].
  intros slot Hslot. destruct (slot <? 0) eqn:E; [by apply kept_ret|]. assert (slot_ok slot = true) as Hok by (destruct Hslot; [lia|done]).
  apply calm_bind; [apply kept_setFlag|]. intros _. eapply kept_bind; [by apply kept_slot|]. intros g Hg. cbv zeta.
  destruct (type g) eqn:Et; kept_tac;
    first [by apply kept_lamp|by apply fine_accessory|by apply fine_extended|by apply (kept_second _ _ slot g)].
Qed.
Lemma kept_aspect x ps a v : ids a → calm x ps (signalAspectEvent i a v).
Proof.
  intros Hid. unfold signalAspectEvent. destruct (tru (compileFeatures .& FEATURE_SIGNAL)) eqn:Ef; [|by apply kept_ret]. simpl negb. cbv iota.
  eapply kept_bind; [by apply kept_find_signal|]. intros slot Hslot. destruct (slot <? 0) eqn:E; [by apply kept_ret|].
  assert (slot_ok slot = true) as Hok by (destruct Hslot; [lia|done]). eapply kept_bind; [by apply kept_slot|]. intros g Hg.
  destruct (type g); kept_tac; by apply kept_doSignal.
Qed.
Lemma kept_isSignal x ps id rag : ids id → calm x ps (isSignal id rag).
Proof.
  intros Hid. unfold isSignal. destruct (tru (compileFeatures .& FEATURE_SIGNAL)) eqn:Ef; [|by apply kept_ret]. simpl negb. cbv iota.
  eapply kept_bind; [by apply kept_find_signal|]. intros slot Hslot. destruct (slot <? 0) eqn:E; [by apply kept_ret|].
  apply kept_wp. intros s B F. destruct (lookup_lt_is_Some_2 (flags s) (Z.to_nat slot)) as [f Hf].
  { rewrite (b_flags _ _ _ _ B). destruct Hslot as [->|Hok]; [done|]. unfold slot_ok, MAX_FLAGS in Hok. rewrite !andb_true_iff in Hok. lia. }
  unfold wp. rewrite Hf. by apply ekeeps_refl.
Qed.

(** The states and captions of the routes have their places. *)
Lemma route_place x s v : base_but x s → ∃ l k, lookup s routeLookup = Some l ∧ findPosition l v = Some k ∧
  (tru compileFeatures = true → k < 0 ∨ ∃ a o c q, routeStateArray s = Some a ∧ a !! Z.to_nat k = Some o ∧
     routeCaptionArray s = Some c ∧ c !! Z.to_nat k = Some q).
Proof.
  intros B. destruct (b_lists _ _ _ _ B routeLookup eq_refl) as (l & Hl & Hok).
  destruct (findPosition_ok l v Hok) as (k & Hk & Hpos). exists l, k. split; [done|]. split; [done|]. intros Hf.
  destruct Hpos as [Hpos|Hpos]; [by left|right]. destruct (b_routes _ _ _ _ B Hf) as (l' & a & c & Hl' & Ha & Hc & Hla & Hlc).
  rewrite Hl in Hl'. injection Hl' as <-. destruct (lookup_lt_is_Some_2 a (Z.to_nat k)) as [o Ho]; [lia|].
  destruct (lookup_lt_is_Some_2 c (Z.to_nat k)) as [q Hq]; [lia|]. by exists a, o, c, q.
Qed.
Lemma keeps_route x s (f : St → St) : base_but x s → base_but x (f s) → lookup (f s) = lookup s → tasks (f s) = tasks s → keeps x s (f s).
Proof. intros B B' Hl Ht. split; [done|done|]. intros p t Hp. exists t. by rewrite Ht. Qed.
Lemma base_routes x s a c : base_but x s → (∀ a0, routeStateArray s = Some a0 → ∃ a1, a = Some a1 ∧ length a1 = length a0) →
  (∀ c0, routeCaptionArray s = Some c0 → ∃ c1, c = Some c1 ∧ length c1 = length c0) →
  keeps x s (with_routeStateArray a (with_routeCaptionArray c s)).
Proof.
  intros B Ha Hc. split; [|done|]; [|intros p t Hp; by exists t]. destruct B. split; try done. simpl. intros Hf.
  destruct (b_routes0 Hf) as (l & a0 & c0 & Hl & Ha0 & Hc0 & Hla & Hlc). destruct (Ha _ Ha0) as (a1 & -> & E1), (Hc _ Hc0) as (c1 & -> & E2).
  exists l, a1, c1. by rewrite E1, E2.
Qed.
Ltac route_tac Hr :=
  unfold list_of; apply wp_bind; unfold wp at 1; rewrite (proj1 Hr); cbn [mbind option_bind];
  apply wp_bind; unfold wp at 1, mlift; rewrite (proj1 (proj2 Hr)); cbn [mbind option_bind].
Lemma kept_manageRouteState x ps id state : calm x ps (manageRouteState id state).
Proof.
  apply kept_wp. intros s B F. unfold manageRouteState. destruct (tru compileFeatures) eqn:Ef; simpl negb; cbv iota; [|apply wp_ret; by apply ekeeps_refl].
  destruct (route_place x s (i16 id) B) as (l & k & Hr). route_tac Hr. destruct Hr as (_ & _ & Hr). destruct (k <? 0) eqn:Ek; [apply wp_ret; by apply ekeeps_refl|].
  destruct (Hr Ef) as [?|(a & o & c & q & Ha & Ho & Hc & Hq)]; [lia|]. apply wp_bind, wp_get, wp_bind. unfold wp at 1, mlift. rewrite Ha.
  apply wp_bind. unfold wp at 1. rewrite Ho. cbn [mbind option_bind]. destruct (o =? state); [apply wp_ret; by apply ekeeps_refl|].
  apply wp_bind, wp_mod, wp_mod. eapply ekeeps_trans; [apply (base_routes x s (Some (<[Z.to_nat k:=state]> a)) (Some c) B)|apply keeps_core].
  - intros a0 E0. rewrite Ha in E0. injection E0 as <-. eexists. split; [done|]. apply length_insert.
  - intros c0 E0. rewrite Hc in E0. injection E0 as <-. by eexists.
  - unfold core. simpl. by rewrite Hc.
  - apply base_routes; [done|..].
    + intros a0 E0. rewrite Ha in E0. injection E0 as <-. eexists. split; [done|]. apply length_insert.
    + intros c0 E0. rewrite Hc in E0. injection E0 as <-. by eexists.
Qed.
Lemma kept_caption x ps id caption : calm x ps (manageRouteCaption id caption).
Proof.
  apply kept_wp. intros s B F. unfold manageRouteCaption. destruct (tru compileFeatures) eqn:Ef; simpl negb; cbv iota; [|apply wp_ret; by apply ekeeps_refl].
  destruct (route_place x s (i16 id) B) as (l & k & Hr). route_tac Hr. destruct Hr as (_ & _ & Hr). destruct (k <? 0) eqn:Ek; [apply wp_ret; by apply ekeeps_refl|].
  destruct (Hr Ef) as [?|(a & o & c & q & Ha & Ho & Hc & Hq)]; [lia|]. apply wp_bind, wp_get, wp_bind. unfold wp at 1, mlift. rewrite Hc.
  apply wp_bind. unfold wp at 1. rewrite Hq. cbn [mbind option_bind]. destruct (bool_decide _); [apply wp_ret; by apply ekeeps_refl|].
  apply wp_bind, wp_mod, wp_mod. assert (keeps x s (with_routeStateArray (Some a) (with_routeCaptionArray (Some (<[Z.to_nat k:=Some caption]> c)) s))) as K1.
  { apply base_routes; [done|..].
    + intros a0 E0. rewrite Ha in E0. injection E0 as <-. by eexists.
    + intros c0 E0. rewrite Hc in E0. injection E0 as <-. eexists. split; [done|]. apply length_insert. }
  eapply ekeeps_trans; [exact K1|]. apply keeps_core; [|apply K1]. unfold core. simpl. by rewrite Ha.
Qed.
Lemma kept_ifRouteState x ps id state : calm x ps (ifRouteState id state).
Proof.
  apply kept_wp. intros s B F. unfold ifRouteState. destruct (tru compileFeatures) eqn:Ef; simpl negb; cbv iota; [|apply wp_ret; by apply ekeeps_refl].
  destruct (route_place x s (i16 id) B) as (l & k & Hr). route_tac Hr. destruct Hr as (_ & _ & Hr). destruct (k <? 0) eqn:Ek; [apply wp_ret; by apply ekeeps_refl|].
  destruct (Hr Ef) as [?|(a & o & c & q & Ha & Ho & Hc & Hq)]; [lia|]. apply wp_bind, wp_get, wp_bind. unfold wp at 1, mlift. rewrite Ha.
  apply wp_bind. unfold wp at 1. rewrite Ho. cbn [mbind option_bind]. apply wp_ret. by apply ekeeps_refl.
Qed.

Lemma kept_thrunge x ps cab mode lcd text : calm x ps (thrungeString cab mode lcd text).
Proof.
  unfold thrungeString. repeat apply kept_if; try apply kept_emit; try (apply kept_ret; done).
  destruct (buffered_some text) as [b Hb]. rewrite Hb. eapply kept_bind; [by eapply (kept_lift n ids x ps (λ _, True))|]. intros. kept_tac.
Qed.
Lemma kept_print x ps cab id : calm x ps (printMessage i cab id).
Proof. unfold printMessage, ifAllFunc, ifAnyFunc. destruct (message _); kept_tac; [apply kept_thrunge|apply kept_caption]. Qed.
Lemma kept_readSensor x ps v : calm x ps (readSensor i v).
Proof. unfold readSensor. cbv zeta. kept_tac. Qed.

(** Another task, or all others. *)
Lemma kept_others x ps p f : p ∈ ps → (∀ q, calm x (q :: ps) (f q)) → calm x ps (let! l := others p in mfor l f).
Proof.
  intros Hp Hf. apply kept_wp. intros s B F. apply wp_bind. rewrite Forall_forall in F. eapply wp_mono; [eapply others_wp; [done|by apply F]|].
  intros l s' [-> Hl]. eapply (kept_each n ids x ps); [done|done|by apply Forall_forall|done].
Qed.
Lemma kept_ring x ps f : (∀ q, calm x (q :: ps) (f q)) → calm x ps (let! l := ring in mfor l f).
Proof.
  intros Hf. apply kept_wp. intros s B F. apply wp_bind. eapply wp_mono; [by eapply ring_wp|].
  intros l s' [-> Hl]. eapply (kept_each n ids x ps); [done|done|done|]. intros q. by apply Hl.
Qed.
Lemma kept_new_then {A} x ps pc lo inv (Q : A → Prop) k : pc_ok pc = true → (∀ q, kept x (q :: ps) Q (k q)) →
  kept x ps Q (let! q := new_task pc lo inv in k q).
Proof.
  intros Hpc Hk s B F. apply wp_bind. eapply wp_mono; [by apply (new_task_wp n ids x)|]. intros q s1 (K1 & _ & Hq). cbn beta.
  eapply wp_mono; [apply Hk; [apply K1|]|].
  - apply Forall_cons. split; [done|]. eapply Forall_impl; [exact F|]. intros r. by eapply keeps_alive.
  - intros a s2 [K2 Qa]. split; [by eapply ekeeps_trans|done].
Qed.
Lemma kept_resume x ps p : p ∈ ps → calm x ps (resume i p).
Proof. intros Hp. unfold resume. eapply kept_bind; [by apply kept_deref|]. intros t _. kept_tac. Qed.
Lemma kept_operand x ps t k l : has_operands (progCounter t) l = true → k ∈ l →
  kept x ps (λ v, getOperand (progCounter t) k = Some v) (operand_n t k).
Proof. intros Hl Hk. destruct (operand_there _ _ _ Hl Hk) as [v Hv]. unfold operand_n. by eapply kept_lift. Qed.
End steps.
End ExrailSteps.

(** A turn of an EXRAIL task never fails: each opcode, the jump over a block that
    an opcode asks for, and the step to the next instruction. *)

Module ExrailTurn.
Import Station StationProps Exrail ExrailRun ExrailRing ExrailInv ExrailSafe ExrailKill ExrailCode ExrailSteps.

Section turn.
Context `{!Config} `{!MotorDriver.MotorDriver.Board} `{!Layout.Layout.Machine} `{!Devices} `{!Program} `{!Garbage}.
Context (Hmax : MAX_LOCOS < 65536) (n : Z) (Hn : 0 <= n) (ids : Z → Prop) (Hids : ∀ id, ids id) (i : Io).
Context (Hwf : well_formed n = true) (Hblink : no_blink = true).
Notation base_but := (ExrailSafe.base_but n ids).
Notation base := (ExrailSafe.base_but n ids None).
Notation keeps := (ExrailSafe.keeps n ids).
Notation kept := (ExrailSafe.kept n ids).
Notation calm x ps m := (ExrailSafe.kept n ids x ps (λ _, True) m).
Implicit Types (x : option ptr) (ps : list ptr) (p : ptr) (t : Task).
#[local] Set Default Proof Using "All".

(** What an opcode leaves. *)
Definition left (s : St) (e : Exit) (s' : St) : Prop := base s' ∧ lookup s' = lookup s ∧ (e = Break → keeps None s s').
Definition turn (p : ptr) (t : Task) (m : M St Exit) : Prop := ∀ s, base s → tasks s !! p = Some t → wp m (left s) s.

Lemma turn_calm p t m : calm None [p] m → turn p t m.
Proof.
  intros Hm s B Hp. eapply wp_mono; [apply Hm; [done|by apply Forall_singleton; exists t]|]. intros e s' [K _]. split; [apply K|].
  by split; [apply K|].
Qed.
Lemma turn_return p t (m : M St unit) : (∀ s, base s → tasks s !! p = Some t → wp m (λ _ s', base s' ∧ lookup s' = lookup s) s) →
  turn p t (return_ m).
Proof. intros Hm s B Hp. apply wp_bind. eapply wp_mono; [by apply Hm|]. intros [] s' [? ?]. by apply wp_ret. Qed.
Lemma turn_kill p t : turn p t (return_ (kill i p)).
Proof.
  apply turn_return. intros s B Hp. eapply wp_mono; [apply (kill_wp Hmax n ids); [done|by exists t]|]. intros [] s' G. split; apply G.
Qed.
(** Calls before that change nothing. *)
Lemma turn_bind {A} p t (P : A → Prop) (m : M St A) k : (∀ s, base s → wp m (λ a s', s' = s ∧ P a) s) → (∀ a, P a → turn p t (k a)) →
  turn p t (mthen m k).
Proof. intros Hm Hk s B Hp. apply wp_bind. eapply wp_mono; [by apply Hm|]. intros a s' [-> Pa]. by apply Hk. Qed.
Lemma find_route v s : base s → wp (find_in routeLookup v) (λ r s', s' = s ∧ (r = -1 ∨ pc_ok r = true)) s.
Proof.
  intros B. destruct (b_lists _ _ _ _ B routeLookup eq_refl) as (l & Hl & Hok). destruct (find_ok l (i16 v) Hok) as (r & Hr & Hrok).
  unfold wp, find_in, mthen, list_of. rewrite Hl. simpl. unfold mlift. by rewrite Hr.
Qed.
Lemma operand_same t k l s : has_operands (progCounter t) l = true → k ∈ l →
  wp (operand_n t k) (λ v s', s' = s ∧ getOperand (progCounter t) k = Some v) s.
Proof. intros Hl Hk. destruct (operand_there _ _ _ Hl Hk) as [v Hv]. unfold wp, operand_n, mlift. by rewrite Hv. Qed.

(** ** Jumps *)

Lemma task_counter t pc : task_ok t → task_ok (with_progCounter pc t).
Proof. by intros []. Qed.
Lemma jump_wp p t pc s : base s → tasks s !! p = Some t → pc = -1 ∨ pc_ok pc = true →
  wp (jump i p pc) (λ e s', e = Return ∧ base s' ∧ lookup s' = lookup s) s.
Proof.
  intros B Hp Hpc. destruct (b_task _ _ _ _ B p t Hp) as [Ht _]. unfold jump. apply wp_bind.
  eapply wp_mono; [apply (update_wp n ids None (Some p) p t); [done|done|done|by apply task_counter|done|by left]|].
  intros [] s1 (B1 & R1 & T1). cbn beta. apply wp_bind. destruct (pc <? 0) eqn:E; cycle 1.
  - apply wp_ret, wp_ret. split; [done|]. split; [|by injection R1]. destruct Hpc as [->|Hpc]; [done|].
    apply (base_retask n ids (Some p) None s1); [done|done|apply B1|]. intros q tq Hq.
    destruct (old_task_same _ _ _ _ _ _ B1 Hq) as (? & ? & Hpl). split_and!; [done|done|]. intros _. destruct (decide (q = p)) as [->|].
    + rewrite T1, lookup_insert_eq in Hq. injection Hq as <-. done.
    + apply Hpl. congruence.
  - eapply wp_mono; [apply (delete_wp Hmax n ids); [done|]|].
    + rewrite T1, lookup_insert_eq. by eexists.
    + intros [] s2 G. apply wp_ret. split; [done|]. split; [apply G|]. rewrite (g_lookup _ _ _ _ _ G). by injection R1.
Qed.
Lemma turn_jump p t pc : pc = -1 ∨ pc_ok pc = true → turn p t (jump i p pc).
Proof. intros Hpc s B Hp. eapply wp_mono; [by eapply jump_wp|]. intros e s' (-> & ? & ?). by split. Qed.

Lemma push_wp p t pc s : base s → tasks s !! p = Some t → stackDepth t ≠ 4 → pc_ok pc = true →
  wp (push p t pc) (λ _ s', base s' ∧ lookup s' = lookup s ∧ ∃ t', tasks s' !! p = Some t') s.
Proof.
  intros B Hp Hd Hpc. destruct (b_task _ _ _ _ B p t Hp) as [Ht Hpl]. pose proof (t_depth _ Ht) as Hdep. pose proof (t_stack _ Ht) as Hst.
  unfold push, wp. rewrite Hst. rewrite (proj2 (andb_true_iff _ _)) by lia. cbn [negb].
  assert (u8 (stackDepth t + 1) = stackDepth t + 1) as Hu by (apply u8_id; unfold is_byte; lia).
  change (wp (update p (λ t0, with_stackDepth (u8 (stackDepth t0 + 1)) (with_callStack (<[Z.to_nat (stackDepth t0):=pc]> (callStack t0)) t0)))
    (λ _ s', base s' ∧ lookup s' = lookup s ∧ ∃ t', tasks s' !! p = Some t') s).
  eapply wp_mono; [apply (update_wp n ids None None p t); [done|done|done| |by intros _; apply Hpl|by left]|].
  - destruct Ht. split; simpl; rewrite ?Hu; [lia|by rewrite length_insert| |done]. intros k z.
    destruct (decide (k = Z.to_nat (stackDepth t))) as [->|Hk].
    + rewrite list_lookup_insert_eq by lia. by intros [= <-].
    + rewrite list_lookup_insert_ne by done. intros Hz Hlt. eapply t_returns0; [done|]. lia.
  - intros [] s' (B' & R' & T'). split; [done|]. split; [by injection R'|]. rewrite T', lookup_insert_eq. by eexists.
Qed.

(** ** The opcodes that keep what there is *)

Lemma kept_start_op ps route lo inv after : calm None ps after → calm None ps (start route lo inv after).
Proof.
  intros Ha. unfold start. eapply kept_bind; [by apply kept_find|]. intros pc Hpc. destruct (pc <? 0) eqn:E; [kept_tac|].
  apply calm_bind; [apply kept_new; destruct Hpc; [lia|done]|]. intros q. unfold break. kept_tac.
Qed.
Ltac fine1 :=
  first [by apply fine_throttle|by apply fine_speed|by apply fine_locoSpeed|by apply fine_estopAll|by apply fine_estopLock
        |by apply fine_saveSpeed|by apply fine_restoreSpeed|by apply fine_momentum|by apply fine_forget|by apply fine_setFn
        |by apply fine_setDCFreq|by apply fine_accessory|by apply fine_extended|by apply fine_writeCV|by apply fine_get|by apply fine_stashes
        |by apply fine_setJoin|by apply fine_mainPower|by apply fine_progPower|by apply fine_setPower|by apply fine_getDriveaway
        |by apply fine_delete_consist|by apply fine_add_consist
        |apply fine_layout; [assumption..|first [apply total_setClosed|apply total_isClosed]]
        |apply fine_turntables; [assumption..|apply total_setPosition]].
Ltac turn1 :=
  lazymatch goal with
  | |- ExrailSafe.kept _ _ _ _ _ (mthen (operand_n _ _) _) =>
    eapply kept_bind; [eapply kept_operand; [eassumption..|by simpl; repeat constructor]|let Hv := fresh "Hv" in intros ? Hv; cbn beta in Hv]
  | |- ExrailSafe.kept _ _ _ _ _ (mthen (find_in routeLookup _) _) => eapply kept_bind; [by apply kept_find|intros ? ?]
  | |- ExrailSafe.kept _ _ _ _ _ (mthen (new_task _ _ _) _) => apply kept_new_then; [assumption..|intros]
  | |- ExrailSafe.kept _ _ _ _ _ (match ?x with Some _ => _ | None => _ end) => destruct x
  | |- ExrailSafe.kept _ _ _ _ _ (mthen (others _) _) => apply kept_others; [assumption..|by left|intros]
  | |- ExrailSafe.kept _ _ _ _ _ (resume _ _) => apply kept_resume; [assumption..|by left]
  | |- ExrailSafe.kept _ _ _ _ _ (start _ _ _ _) => apply kept_start_op
  | |- ExrailSafe.kept _ _ _ _ _ (doSignal _ _ _) => by apply kept_doSignal
  | |- ExrailSafe.kept _ _ _ _ _ (isSignal _ _) => by apply kept_isSignal
  | |- ExrailSafe.kept _ _ _ _ _ (signalAspectEvent _ _ _) => by apply kept_aspect
  | |- ExrailSafe.kept _ _ _ _ _ (manageRouteState _ _) => by apply kept_manageRouteState
  | |- ExrailSafe.kept _ _ _ _ _ (ifRouteState _ _) => by apply kept_ifRouteState
  | |- ExrailSafe.kept _ _ _ _ _ (printMessage _ _ _) => by apply kept_print
  | |- ExrailSafe.kept _ _ _ _ _ (readSensor _ _) => by apply kept_readSensor
  | |- ExrailSafe.kept _ _ _ _ _ (killBlinkOnVpin _ _ _) => by apply kept_killBlink
  | |- fine _ _ => fine1
  | |- is_u16 (loco _) → _ => intros; first [assumption|apply u16_range|done]
  | _ => kept1
  end.
Ltac op_tac :=
  apply turn_calm;
  cbv beta zeta delta [break return_ again set_skip with_loco_do drop_bool setFn wait_sensor delayMe on_track stash isClosed setClosed
    on_stashes change_speed getThrottleSpeed wait_analogue acon lcc_send write_bitmap setPins on_consists];
  repeat turn1.

(** ** Jumps, returns and starts *)

Lemma random_wp t v s : base s → 1 <= i16 v <= 254 → has_operands (progCounter t) (rangeZ 1 (i16 v)) = true →
  wp (random_route i t (i16 v)) (λ _ s', s' = s ∧ True) s.
Proof.
  intros B Hv Hops. unfold random_route. destruct (i16 v =? 0) eqn:E; [lia|]. apply wp_bind.
  assert (u32 (i16 v) = i16 v) as -> by (unfold u32; rewrite Z.mod_small; lia).
  pose proof (Z.mod_pos_bound (millis i) (i16 v) ltac:(lia)) as Hm.
  assert (u8 (1 + millis i mod i16 v) = 1 + millis i mod i16 v) as -> by (apply u8_id; unfold is_byte; lia).
  eapply wp_mono; [eapply operand_same; [exact Hops|apply elem_of_rangeZ; lia]|]. intros r s' [-> _]. by apply wp_ret.
Qed.
(** CALL and RANDOM_CALL *)
Lemma turn_push p t pc (m : M St Z) : stackDepth t ≠ 4 → pc_ok pc = true →
  (∀ s, base s → wp m (λ r s', s' = s ∧ (r = -1 ∨ pc_ok r = true)) s) → turn p t (push p t pc ;;; let! pc := m in jump i p pc).
Proof.
  intros Hd Hpc Hm s B Hp. apply wp_bind. eapply wp_mono; [by apply push_wp|]. intros [] s1 (B1 & L1 & t1 & Hp1). cbn beta.
  apply wp_bind. eapply wp_mono; [by apply Hm|]. intros r s' [-> Hr]. eapply wp_mono; [by eapply jump_wp|].
  intros e s' (-> & ? & ?). split; [done|]. split; [congruence|done].
Qed.
Lemma turn_found p t v0 : turn p t (let! pc := find_in routeLookup v0 in jump i p pc).
Proof. eapply turn_bind; [intros s B; by apply find_route|]. intros pc Hpc. by apply turn_jump. Qed.
Lemma turn_return_op p t : task_ok t → stackDepth t ≠ 0 →
  turn p t (let! pc := mlift (callStack t !! Z.to_nat (stackDepth t - 1)) in
            return_ (update p (λ t, with_stackDepth (stackDepth t - 1) (with_progCounter pc t)))).
Proof.
  intros Ht Hd. destruct (lookup_lt_is_Some_2 (callStack t) (Z.to_nat (stackDepth t - 1))) as [pc Hpc].
  { rewrite (t_stack _ Ht). pose proof (t_depth _ Ht). lia. }
  rewrite Hpc. eapply (turn_bind p t (λ a, a = pc)); [intros s B; by apply (wp_eq _ _ _ pc s)|]. intros ? ->. apply turn_return. intros s B Hp.
  assert (pc_ok pc = true) as Hok by (eapply (t_returns _ Ht); [exact Hpc|pose proof (t_depth _ Ht); lia]).
  eapply wp_mono; [apply (update_wp n ids None None p t); [done|done|done| |done|by left]|].
  - destruct Ht. split; simpl; [lia|done| |done]. intros k z Hz Hk. eapply t_returns0; [done|lia].
  - intros ? s' (? & R & _). split; [done|]. by injection R.
Qed.
Lemma turn_killall p t : turn p t (return_ (killall i)).
Proof. apply turn_return. intros s B Hp. eapply wp_mono; [by apply (killall_wp Hmax n ids)|]. by intros ? s' (? & ? & _). Qed.
Lemma next_place t b o v : instruction n (progCounter t) b o v → place_ok t → o ≠ OPCODE_ENDEXRAIL → pc_ok (progCounter t + 3) = true.
Proof. intros Hi Hpl Ho. eapply pc_step; [done|exact Hpl|]. intros E. by apply Ho, (i_end _ _ _ _ _ Hi). Qed.

Section op.
Context (p : ptr) (t : Task) (b v : Z) (o : OPCODE) (Hi : instruction n (progCounter t) b o v) (Ht : task_ok t) (Hpl : place_ok t).

Ltac group_tac :=
  pose proof (i_has _ _ _ _ _ Hi) as Hhas; pose proof (i_ok _ _ _ _ _ Hi) as Hok; destruct o; try done; intros [= <-]; op_tac; simpl in Hok.
Lemma train_turn m : train_op i p t (i16 v) o = Some m → turn p t m.
Proof. group_tac. Qed.
Lemma block_turn m : block_op i p t (i16 v) o = Some m → turn p t m.
Proof. group_tac. apply fine_isPowerOn; [assumption..|]. pose proof (u8_range (i16 v)) as Hr. unfold is_byte in Hr. lia. Qed.
Lemma output_turn m : output_op i p t (i16 v) o = Some m → turn p t m.
Proof.
  group_tac.
  - apply fine_setTrackMode; [assumption..|apply Z.land_nonneg; by right|done].
  - pose proof (u8_range b0) as Hr. unfold is_byte in Hr. rewrite Hv in Hok. apply fine_oneTrack; [assumption..|lia].
Qed.
Lemma if_turn m : if_op i p t (i16 v) o = Some m → turn p t m.
Proof. group_tac. Qed.
Lemma delay_turn m : delay_op i p t (i16 v) o = Some m → turn p t m.
Proof.
  group_tac.
  - apply fine_changeFn; [assumption..|lia].
  - rewrite Hv in Hok. apply fine_changeFn; [assumption..|lia].
Qed.
Lemma loco_turn m : loco_op i p t (i16 v) o = Some m → turn p t m.
Proof. group_tac. Qed.
Lemma message_turn m : message_op i p t (i16 v) o = Some m → turn p t m.
Proof.
  group_tac. eapply kept_bind; [eapply (kept_lift n ids _ _ (λ _, True)); [apply Hi|done]|]. intros. kept_tac.
Qed.
Lemma stash_turn m : stash_op i p t (i16 v) o = Some m → turn p t m.
Proof. group_tac. Qed.
Lemma jump_turn m : jump_op i p t (i16 v) o = Some m → turn p t m.
Proof.
  pose proof (i_has _ _ _ _ _ Hi) as Hhas. pose proof (i_ok _ _ _ _ _ Hi) as Hok. pose proof (i_reach _ _ _ _ _ Hi) as Hreach.
  destruct o; try done; intros [= <-]; simpl in Hok, Hreach; unfold start; try (by apply turn_kill).
  - apply turn_found.
  - destruct (stackDepth t =? MAX_STACK_DEPTH) eqn:Ed; [apply turn_kill|]. unfold MAX_STACK_DEPTH in Ed.
    apply turn_push; [lia|by eapply next_place|]. intros s B. by apply find_route.
  - destruct (stackDepth t =? 0) eqn:Ed; [apply turn_kill|]. apply turn_return_op; [done|lia].
  - apply turn_killall.
  - destruct (stackDepth t =? MAX_STACK_DEPTH) eqn:Ed; [apply turn_kill|]. unfold MAX_STACK_DEPTH in Ed. rewrite !andb_true_iff in Hok.
    eapply turn_bind; [intros s B; apply random_wp; [done|lia|apply Hok]|]. intros r _.
    apply turn_push; [lia|apply pc_jump; [exact Hpl|lia|lia]|]. intros s B. by apply find_route.
  - rewrite !andb_true_iff in Hok. eapply turn_bind; [intros s B; apply random_wp; [done|lia|apply Hok]|]. intros r _. apply turn_found.
Qed.
Lemma ignored_turn m : ignored_op o = Some m → turn p t m.
Proof. destruct o; try done; intros [= <-]; op_tac. Qed.

(** The switch. *)
Lemma switch_turn : turn p t (switch i p t (i16 v) o).
Proof.
  pose proof (i_known _ _ _ _ _ Hi) as Hk. unfold switch, first_of.
  destruct (train_op _ _ _ _ _) as [m|] eqn:E1; [by apply train_turn|].
  destruct (block_op _ _ _ _ _) as [m|] eqn:E2; [by apply block_turn|].
  destruct (output_op _ _ _ _ _) as [m|] eqn:E3; [by apply output_turn|].
  destruct (if_op _ _ _ _ _) as [m|] eqn:E4; [by apply if_turn|].
  destruct (delay_op _ _ _ _ _) as [m|] eqn:E5; [by apply delay_turn|].
  destruct (jump_op _ _ _ _ _) as [m|] eqn:E6; [by apply jump_turn|].
  destruct (loco_op _ _ _ _ _) as [m|] eqn:E7; [by apply loco_turn|].
  destruct (message_op _ _ _ _ _) as [m|] eqn:E8; [by apply message_turn|].
  destruct (stash_op _ _ _ _ _) as [m|] eqn:E9; [by apply stash_turn|].
  destruct (ignored_op _) as [m|] eqn:E10; [by apply ignored_turn|]. by destruct o.
Qed.
End op.

(** ** Skipping a block, and a turn *)

Lemma skipop_wp p t s : base s → tasks s !! p = Some t → progCounter t ≠ end_pc →
  wp (SKIPOP p) (λ _ s', base s' ∧ lookup s' = lookup s ∧ tasks s' !! p = Some (with_progCounter (progCounter t + 3) t)) s.
Proof.
  intros B Hp Hne. destruct (b_task _ _ _ _ B p t Hp) as [Ht Hpl]. unfold SKIPOP.
  eapply wp_mono; [apply (update_wp n ids None None p t); [done|done|done|by apply task_counter| |by left]|].
  - intros _. eapply (pc_step n); [done|apply Hpl; done|done].
  - intros ? s' (? & R & T). split; [done|]. split; [by injection R|]. rewrite T. apply lookup_insert_eq.
Qed.
Lemma skip_loop_wp p : ∀ fuel nest t s, base s → tasks s !! p = Some t → progCounter t ≠ end_pc →
  end_pc - progCounter t < 3 * Z.of_nat fuel →
  wp (skip_loop i fuel p nest) (λ alive s', base s' ∧ lookup s' = lookup s ∧
    (alive = true → ∃ t', tasks s' !! p = Some t' ∧ progCounter t' ≠ end_pc)) s.
Proof.
  induction fuel as [|fuel IH]; intros nest t s B Hp Hne Hf.
  { destruct (b_task _ _ _ _ B p t Hp) as [_ Hpl]. pose proof (pc_range _ (Hpl ltac:(done))). lia. }
  cbn [skip_loop]. destruct (nest <=? 0); [apply wp_ret; split_and!; [done..|by exists t]|].
  apply wp_bind. eapply wp_mono; [by apply skipop_wp|]. intros ? s1 (B1 & L1 & Hp1). cbn beta.
  apply wp_bind. eapply deref_wp; [done|]. destruct (b_task _ _ _ _ B1 p _ Hp1) as [_ Hpl1].
  destruct (instruction_at n Hwf _ (Hpl1 ltac:(done))) as (b & o & v & Hi). apply wp_bind. unfold wp at 1, mlift.
  rewrite (i_code _ _ _ _ _ Hi). cbn [mbind option_bind]. rewrite (i_number _ _ _ _ _ Hi).
  assert (∀ nest', o ≠ OPCODE_ENDEXRAIL → wp (skip_loop i fuel p nest') (λ alive s', base s' ∧ lookup s' = lookup s ∧
    (alive = true → ∃ t', tasks s' !! p = Some t' ∧ progCounter t' ≠ end_pc)) s1) as Hgo.
  { intros nest' Ho. rewrite <-L1. apply (IH nest' _ s1 B1 Hp1); [|simpl; lia]. intros E. by apply Ho, (i_end _ _ _ _ _ Hi). }
  destruct (number_of o >? number_of IF_TYPE_OPCODES) eqn:E1; [apply Hgo; by intros ->|].
  destruct (number_of o =? number_of OPCODE_ENDEXRAIL) eqn:E2.
  - apply wp_bind. eapply wp_mono; [apply (kill_wp Hmax n ids); [done|by eexists]|]. intros ? s2 G. apply wp_ret.
    split; [apply G|]. split; [|done]. rewrite (g_lookup _ _ _ _ _ G). done.
  - assert (o ≠ OPCODE_ENDEXRAIL) as Ho by (intros ->; done). destruct (_ =? number_of OPCODE_ENDIF); [by apply Hgo|].
    destruct (_ =? number_of OPCODE_ELSE); by apply Hgo.
Qed.
Lemma skip_wp p t s : base s → tasks s !! p = Some t → progCounter t ≠ end_pc →
  wp (skipIfBlock i p) (λ alive s', base s' ∧ lookup s' = lookup s ∧
    (alive = true → ∃ t', tasks s' !! p = Some t' ∧ progCounter t' ≠ end_pc)) s.
Proof.
  intros B Hp Hne. unfold skipIfBlock. apply (skip_loop_wp p _ 1 t s B Hp Hne). destruct (b_task _ _ _ _ B p t Hp) as [_ Hpl].
  pose proof (fuel_enough n Hwf _ (Hpl ltac:(done))). lia.
Qed.

Lemma loop2_wp p s : base s → is_Some (tasks s !! p) → wp (loop2 i p) (λ _ s', base s' ∧ lookup s' = lookup s) s.
Proof.
  intros B [t Hp]. destruct (b_task _ _ _ _ B p t Hp) as [Ht Hpl]. specialize (Hpl ltac:(done)). unfold loop2.
  apply wp_bind. eapply deref_wp; [done|]. destruct (_ && _); [by apply wp_ret|]. cbv zeta.
  rewrite (proj1 (negb_true_iff _) Hblink). cbn [andb].
  destruct (instruction_at n Hwf _ Hpl) as (b & o & v & Hi). apply wp_bind. unfold wp at 1, mlift. rewrite (i_code _ _ _ _ _ Hi).
  apply wp_bind. unfold wp at 1. rewrite (i_operand _ _ _ _ _ Hi). apply wp_bind, wp_mod. rewrite (i_opcode _ _ _ _ _ Hi).
  set (s1 := with_skipIf false s). assert (base s1) as B1 by (by apply (base_core n ids None s)).
  apply wp_bind. destruct (decide (o = OPCODE_ENDEXRAIL)) as [->|Ho].
  { change (switch i p t (i16 v) OPCODE_ENDEXRAIL) with (return_ (kill i p)). apply wp_bind.
    eapply wp_mono; [apply (kill_wp Hmax n ids); [done|by eexists]|]. intros ? s2 G. apply wp_ret, wp_ret. split; [apply G|].
    by rewrite (g_lookup _ _ _ _ _ G). }
  eapply wp_mono; [by eapply switch_turn|]. intros e s2 (B2 & L2 & Hb). destruct e; [|by apply wp_ret].
  destruct (Hb eq_refl) as [_ _ Ht2]. destruct (Ht2 p t Hp) as (t2 & Hp2 & Hsame & _). apply wp_bind, wp_get.
  assert (progCounter t2 ≠ end_pc) as Hne by (rewrite Hsame; intros E; by apply Ho, (i_end _ _ _ _ _ Hi)).
  apply wp_bind. apply (wp_mono _ (λ alive s', base s' ∧ lookup s' = lookup s ∧
    (alive = true → ∃ t', tasks s' !! p = Some t' ∧ progCounter t' ≠ end_pc))).
  - destruct (skipIf s2); [|apply wp_ret; split_and!; [done..|by exists t2]].
    eapply wp_mono; [by eapply skip_wp|]. intros alive s3 (B3 & L3 & ?). split_and!; [done| |done]. by rewrite L3.
  - intros alive s3 (B3 & L3 & Halive). destruct alive; [|by apply wp_ret]. destruct (Halive eq_refl) as (t3 & Hp3 & Hne3).
    eapply wp_mono; [by eapply skipop_wp|]. intros ? s4 (B4 & L4 & _). split; [done|congruence].
Qed.
End turn.
End ExrailTurn.

(** EXRAIL never fails: the sensors, the loop, the start, the commands and the
    adapter keep the invariant, under any sequence of calls. *)

Module ExrailProps.
Import Station StationProps Exrail ExrailRun ExrailRing ExrailInv ExrailSafe ExrailKill ExrailCode ExrailSteps ExrailTurn.

Section loop.
Context `{!Config} `{!MotorDriver.MotorDriver.Board} `{!Layout.Layout.Machine} `{!Devices} `{!Program} `{!Garbage}.
Context (Hmax : MAX_LOCOS < 65536) (n : Z) (Hn : 0 <= n) (ids : Z → Prop) (Hids : ∀ id, ids id) (i : Io).
Context (Hwf : well_formed n = true) (Hblink : no_blink = true).
Notation base_but := (ExrailSafe.base_but n ids).
Notation base := (ExrailSafe.base_but n ids None).
Notation keeps := (ExrailSafe.keeps n ids).
Notation kept := (ExrailSafe.kept n ids).
Notation calm x ps m := (ExrailSafe.kept n ids x ps (λ _, True) m).
Implicit Types (x : option ptr) (ps : list ptr) (p : ptr) (t : Task).
#[local] Set Default Proof Using "All".

(** A call that keeps the invariant and the lists, whatever becomes of the tasks. *)
Definition sound {A} (m : M St A) : Prop := ∀ s, base s → wp m (λ _ s', base s' ∧ lookup s' = lookup s) s.
Lemma sound_kept {A} (P : A → Prop) (m : M St A) : kept None [] P m → sound m.
Proof using Type. intros Hm s B. eapply wp_mono; [by apply Hm|]. intros a s' [K _]. split; apply K. Qed.
Lemma sound_bind {A B} (m : M St B) (k : B → M St A) : sound m → (∀ b, sound (k b)) → sound (mthen m k).
Proof using Type.
  intros Hm Hk s Bs. apply wp_bind. eapply wp_mono; [by apply Hm|]. intros b s1 [B1 L1]. cbn beta. eapply wp_mono; [by apply Hk|].
  intros a s2 [B2 L2]. split; [done|congruence].
Qed.
Lemma sound_ret {A} (a : A) : sound (mreturn a).
Proof using Type. intros s B. by apply wp_ret. Qed.
Lemma sound_if {A} (b : bool) (m k : M St A) : sound m → sound k → sound (if b then m else k).
Proof using Type. by destruct b. Qed.
Lemma sound_mfor {B} (l : list B) f : (∀ b, b ∈ l → sound (f b)) → sound (mfor l f).
Proof using Type.
  unfold mfor. induction l as [|b l IH]; intros Hf; [apply sound_ret|]. simpl. apply sound_bind; [apply Hf; by left|].
  intros []. apply IH. intros c Hc. apply Hf. by right.
Qed.

(** ** Sensors *)

Lemma base_sensor s k c : base s → pc_ok (sensorCounter c) = true → base (with_sensors (<[k:=c]> (sensors s)) s).
Proof.
  intros [] Hc. split; try done; simpl.
  - by apply Forall_insert.
  - intros j. rewrite length_insert. by apply b_reading0.
Qed.
Lemma check_wp k s : base s → (k < length (sensors s))%nat → wp (check i k) (λ _ s', base s' ∧ lookup s' = lookup s) s.
Proof.
  intros B Hk. unfold check, sensor_at. destruct (lookup_lt_is_Some_2 _ _ Hk) as [c Hc]. apply wp_bind, wp_bind, wp_get.
  unfold wp at 1, mlift. rewrite Hc. simpl. assert (pc_ok (sensorCounter c) = true) as Hpc.
  { pose proof (b_sensors _ _ _ _ B) as F. rewrite Forall_lookup in F. by eapply F. }
  apply wp_bind. apply (wp_mono _ (λ _ s', keeps None s s')).
  { destruct (useAnalog c); [apply wp_ret; by apply ekeeps_refl|]. apply wp_bind.
    eapply wp_mono; [by apply (kept_readSensor Hmax n Hn ids i Hwf Hblink None [])|]. intros b s' [K _]. by apply wp_ret. }
  intros input s1 [B1 L1 _]. cbv zeta. unfold update_sensor. destruct (_ =? _); [|destruct (_ >? 0)].
  - apply wp_bind, wp_mod, wp_ret. split; [by apply base_sensor|done].
  - apply wp_bind, wp_mod, wp_ret. split; [by apply base_sensor|done].
  - apply wp_bind, wp_mod. match goal with |- wp _ _ ?s' => set (s2 := s'); assert (base s2) as B2 by (by apply base_sensor) end.
    destruct (_ || _); [|by apply wp_ret]. apply wp_bind. eapply wp_mono; [by apply (new_task_wp n ids None)|].
    intros q s3 ([B3 L3 _] & _). apply wp_ret. split; [done|]. by rewrite L3.
Qed.
Lemma base_reading s o : base s → (∀ k, o = Some k → (k < length (sensors s))%nat) → base (with_readingSensor o s).
Proof. intros [] Ho. by split. Qed.
Lemma sound_check_loop fuel : sound (check_loop i fuel).
Proof.
  induction fuel as [|fuel IH]; [apply sound_ret|]. intros s B. cbn [check_loop]. apply wp_bind, wp_get.
  destruct (readingSensor s) as [k|] eqn:Ek; [|by apply wp_ret]. apply wp_bind.
  eapply wp_mono; [apply check_wp; [done|by apply (b_reading _ _ _ _ B)]|]. intros b s1 [B1 L1]. apply wp_bind, wp_mod.
  match goal with |- wp _ _ ?s' => set (s2 := s') end. assert (base s2) as B2.
  { apply base_reading; [done|]. intros j. destruct (decide _); [|done]. by intros [= <-]. }
  destruct b; [by apply wp_ret|]. eapply wp_mono; [by apply IH|]. intros ? s3 [B3 L3]. split; [done|]. by rewrite L3.
Qed.
Lemma sound_checkAll : sound (checkAll i).
Proof.
  intros s B. unfold checkAll. apply wp_bind, wp_get. destruct (decide (sensors s = [])) as [|Hne]; [by apply wp_ret|].
  apply wp_bind, wp_get, wp_bind, wp_get. destruct (readingSensor s); [by apply sound_check_loop|].
  destruct (_ <? _); [by apply wp_ret|]. apply wp_bind, wp_mod, wp_bind, wp_mod.
  assert (base (with_readingSensor (Some 0%nat) s)) as B1.
  { apply base_reading; [done|]. intros j [= <-]. by destruct (sensors s) as [|? ?]; [|simpl; lia]. }
  eapply wp_mono; [apply sound_check_loop|]; [by eapply (base_core n ids None); [|exact B1]|]. intros ? s' [? L']. split; [done|]. by rewrite L'.
Qed.

(** ** The loop *)

Lemma sound_loop : sound (loop i).
Proof.
  intros s0 B0. unfold loop. apply wp_bind. eapply wp_mono; [apply (sound_if _ _ _ sound_checkAll (sound_ret tt)); done|].
  intros ? s [B L]. apply wp_bind, wp_get. pose proof (b_ring _ _ _ _ B) as Hr. destruct (loopTask s) as [p|] eqn:El; [|by apply wp_ret].
  destruct Hr as [l R]. pose proof (r_seg _ _ _ R) as (_ & t & Ht & _). apply wp_bind. eapply deref_wp; [done|]. apply wp_bind, wp_mod.
  assert (∃ k, ring_at (tasks s) (next t) k) as [k R'].
  { pose proof (ring_next _ _ _ _ R Ht) as Hn'. destruct l as [|q l]; [rewrite Hn'; by exists []|]. destruct Hn' as [-> ?]. by eexists. }
  set (s1 := with_loopTask (Some (next t)) s). assert (base s1) as B1.
  { apply (base_retask n ids None None s); [done|done|by exists k|]. intros q tq Hq. by apply (old_task_same n ids None s q tq B). }
  apply wp_bind, wp_get. destruct (bool_decide _); [|by apply wp_ret].
  eapply wp_mono; [apply (loop2_wp Hmax n Hn ids Hids i Hwf Hblink (next t) s1 B1)|].
  - apply (r_all _ _ _ R'). by left.
  - intros ? s' [? L']. split; [done|]. by rewrite L'.
Qed.
Lemma sound_createNewTask route cab : sound (createNewTask route cab).
Proof.
  apply (sound_kept (λ _, True)). unfold createNewTask. eapply kept_bind; [by apply kept_find|]. intros pc Hpc.
  destruct (pc <? 0) eqn:E; [by apply kept_ret|]. apply calm_bind; [|intros; by apply kept_ret]. apply kept_new. destruct Hpc; [lia|done].
Qed.
End loop.
End ExrailProps.
