(* ===== verification/ExrailFilter.v ===== *)
(** The commands of EXRAIL and its start: they keep the invariant and never fail. *)

From S2P Require Import Prelude Chain LocoSlot DCCConsist ConsistProps DCC DCCSafe Keywords MotorDriver TrackManager TrackProps DCCACK Layout Turnouts Format Turntables Stash Station StationProps Commands CommandsProps Exrail ExrailRun ExrailCommands ExrailInv ExrailSafe ExrailSteps.
From stdpp Require Import strings.

#[local] Open Scope Z_scope.
#[local] Open Scope c_scope.

(** The commands of EXRAIL and its LCC adapter never fail. *)

Module ExrailFilter.
Import Station StationProps Exrail ExrailRun ExrailCommands ExrailRing ExrailInv ExrailSafe ExrailKill ExrailCode ExrailSteps ExrailTurn ExrailProps.

Ltac ifs := repeat lazymatch goal with |- ExrailProps.sound _ _ (if _ then _ else _) => apply sound_if end.

(** Fewer elements pass a test that is stricter. *)
Lemma filter_weaker {A} (P Q : A → bool) l : (∀ x, Q x = true → P x = true) → (length (List.filter Q l) <= length (List.filter P l))%nat.
Proof.
  intros HPQ. induction l as [|x l IH]; simpl; [done|]. specialize (HPQ x). destruct (Q x); [rewrite HPQ by done; simpl; lia|].
  destruct (P x); simpl; lia.
Qed.
Lemma filter_strict {A} (P Q : A → bool) l c : (∀ x, Q x = true → P x = true) → c ∈ l → P c = true → Q c = false →
  (S (length (List.filter Q l)) <= length (List.filter P l))%nat.
Proof.
  intros HPQ Hc Pc Qc. induction Hc as [c l|c x l Hc IH]; simpl.
  - rewrite Pc, Qc. simpl. pose proof (filter_weaker P Q l HPQ). lia.
  - specialize (IH Pc Qc). pose proof (HPQ x). destruct (Q x); [rewrite H by done; simpl; lia|]. destruct (P x); simpl; lia.
Qed.

Section filter.
Context `{!Config} `{!MotorDriver.MotorDriver.Board} `{!Layout.Layout.Machine} `{!Devices} `{!Program} `{!Garbage}.
Context (Hmax : MAX_LOCOS < 65536) (n : Z) (Hn : 0 <= n) (ids : Z → Prop) (Hids : ∀ id, ids id) (i : Io) (stream : Z).
Context (Hwf : well_formed n = true) (Hblink : no_blink = true).
Notation base_but := (ExrailSafe.base_but n ids).
Notation base := (ExrailSafe.base_but n ids None).
Notation keeps := (ExrailSafe.keeps n ids).
Notation kept := (ExrailSafe.kept n ids).
Notation calm x ps m := (ExrailSafe.kept n ids x ps (λ _, True) m).
Notation sound := (ExrailProps.sound n ids).
Implicit Types (x : option ptr) (ps : list ptr) (p : ptr) (t : Task).
#[local] Set Default Proof Using "All".

Lemma kept_send x ps f a : calm x ps (send stream f a).
Proof. apply kept_emit. Qed.

(** ** The status *)

Lemma kept_show_task ps p : p ∈ ps → calm None ps (show_task stream p).
Proof.
  intros Hp. unfold show_task. eapply kept_bind; [by apply kept_deref|]. intros t [_ Hpl].
  destruct (instruction_at n Hwf _ (Hpl ltac:(done))) as (b & o & v & Hi). apply kept_if; [apply kept_send|].
  apply calm_bind; [apply kept_send|intros _]. eapply kept_bind; [eapply (kept_lift n ids _ _ (λ _, True)); [apply Hi|done]|]. intros v' _.
  eapply kept_bind; [eapply (kept_lift n ids _ _ (λ b', b' = b)); [apply Hi|done]|]. intros ? ->. rewrite (i_opcode _ _ _ _ _ Hi).
  unfold waiting_for. destruct o; try apply kept_send; by apply kept_ret.
Qed.
Lemma kept_flag x ps id : 0 <= id < 256 → calm x ps (flag_of id).
Proof.
  intros Hid. apply kept_wp. intros s B F. unfold flag_of. apply wp_bind, wp_get.
  destruct (lookup_lt_is_Some_2 (flags s) (Z.to_nat id)) as [f Hf]; [rewrite (b_flags _ _ _ _ B); lia|].
  unfold wp, mlift. rewrite Hf. by apply ekeeps_refl.
Qed.
Lemma kept_show_flag x ps id : 0 <= id < 256 → calm x ps (show_flag stream id).
Proof.
  intros Hid. unfold show_flag. apply calm_bind; [by apply kept_flag|]. intros f.
  apply kept_if; [|by apply kept_ret]. kept_tac; apply kept_send.
Qed.
Lemma kept_status : calm None [] (status stream).
Proof.
  unfold status. apply calm_bind; [apply kept_send|intros _].
  assert (∀ (k : M St unit), calm None [] k → calm None [] (let! l := ring in mfor l (show_task stream) ;;; k)) as Hring.
  { intros k Hk. apply kept_wp. intros s B F. apply wp_bind. eapply wp_mono; [by eapply ring_wp|]. intros l ? [-> Hl]. apply wp_bind.
    eapply wp_mono; [apply (kept_each n ids None [] l); [|done|done|intros q; apply Hl]|].
    - intros q. apply kept_show_task. by left.
    - intros ? s1 K1. cbn beta in K1. eapply wp_mono; [apply Hk; [apply K1|done]|]. intros ? s2 [K2 _]. by eapply ekeeps_trans. }
  apply Hring. apply calm_bind; [apply kept_mfor; intros id [? ?]%elem_of_rangeZ; apply kept_show_flag; unfold MAX_FLAGS in *; lia|intros _].
  apply calm_bind; [|intros; apply kept_send]. destruct (tru _) eqn:Ef; [|by apply kept_ret]. destruct (slots_ok n Hwf Ef) as (l & -> & Hl).
  eapply kept_bind; [by apply (kept_lift n ids _ _ (λ l', l' = l) _ l)|]. intros ? ->. apply kept_mfor. intros [slot g] Hc. apply Hl in Hc. simpl in Hc.
  unfold slot_ok, MAX_FLAGS in Hc. rewrite !andb_true_iff in Hc. unfold show_signal. apply calm_bind; [apply kept_flag; lia|]. intros f. apply kept_send.
Qed.

(** ** </ ...> *)

Lemma kill_id_wp id : ∀ l s, base s → (∀ q, q ∈ l → is_Some (tasks s !! q)) →
  wp (kill_id i l id) (λ _ s', base s' ∧ lookup s' = lookup s) s.
Proof.
  induction l as [|p l IH]; intros s B Hl; [by apply wp_ret|]. destruct (Hl p) as [t Ht]; [by left|]. cbn [kill_id]. apply wp_bind.
  eapply deref_wp; [done|]. destruct (_ =? _); [|apply IH; [done|intros q Hq; apply Hl; by right]]. apply wp_bind.
  eapply wp_mono; [apply (kill_wp Hmax n ids); [done|by exists t]|]. intros ? s' G. apply wp_ret. split; apply G.
Qed.
Lemma sound_kill_id id : sound (let! l := ring in kill_id i l id).
Proof.
  intros s B. apply wp_bind. eapply wp_mono; [by eapply ring_wp|]. intros l ? [-> Hl]. apply kill_id_wp; [done|]. intros q. by apply Hl.
Qed.
Lemma sound_killall : sound (killall i).
Proof. intros s B. eapply wp_mono; [by apply (killall_wp Hmax n ids)|]. by intros ? s' (? & ? & _). Qed.
Lemma sound_calm {A} (m : M St A) : calm None [] m → sound m.
Proof. by apply sound_kept. Qed.
Lemma sound_parse_one (a b : Z) : sound (parse_one i a b).
Proof.
  unfold parse_one. apply sound_if; [apply sound_if; [apply sound_ret|apply sound_kill_id]|]; try done.
  ifs; apply sound_calm; kept_tac; by apply kept_doSignal.
Qed.
Lemma kept_pause x ps p : p ∈ ps → calm x ps (pause p).
Proof.
  intros Hp. unfold pause. eapply kept_bind; [by apply kept_deref|]. intros t _. kept_tac. by apply fine_speedByte.
Qed.
Lemma sound_ring {A} f (k : M St A) : (∀ p ps, p ∈ ps → calm None ps (f p)) → sound k → sound (let! l := ring in mfor l f ;;; k).
Proof.
  intros Hf Hk s B. apply wp_bind. eapply wp_mono; [by eapply ring_wp|]. intros l ? [-> Hl]. apply wp_bind.
  eapply wp_mono; [apply (kept_each n ids None [] l); [|done|done|intros q; apply Hl]|].
  - intros q. apply Hf. by left.
  - intros ? s1 [B1 L1 _]. eapply wp_mono; [by apply Hk|]. intros r s2 [B2 L2]. split; [done|congruence].
Qed.
Lemma sound_parse_all c (p : nat → Z) m : sound m → sound (parse_all i c p m).
Proof.
  intros Hm. unfold parse_all. ifs; try (by apply sound_ret).
  - apply sound_ring; [intros; by apply kept_pause|]. apply sound_calm. kept_tac. by apply fine_estopAll.
  - apply sound_bind; [apply sound_calm; kept_tac|]. intros _. apply sound_ring; [intros; by apply kept_resume|by apply sound_ret].
  - apply sound_calm. kept_tac.
  - apply sound_calm. cbv zeta. eapply kept_bind; [by apply kept_find|]. intros pc Hpc. destruct (pc <? 0) eqn:E; [by apply kept_ret|].
    apply calm_bind; [|intros; by apply kept_ret]. apply kept_new. destruct Hpc; [lia|done].
  - done.
Qed.
Lemma sound_slash c (p : nat → Z) : sound (parseSlash i stream c p).
Proof.
  unfold parseSlash. apply sound_if; [apply sound_bind; [by apply sound_calm, kept_status|intros; by apply sound_ret]|].
  apply sound_parse_all. apply sound_if; [apply sound_bind; [apply sound_killall|intros; by apply sound_ret]|].
  apply sound_if; [by apply sound_ret|apply sound_parse_one].
Qed.

(** ** The adapter *)

Lemma listeners_mono a b : a <= b → listeners b <= listeners a.
Proof.
  intros Hab. unfold listeners. destruct code as [l|]; [|done].
  pose proof (filter_weaker (λ c, (a <=? c.1) && is_listener c.2) (λ c, (b <=? c.1) && is_listener c.2) l) as Hf. cbn beta in Hf.
  enough (∀ c : Z * Z, (b <=? c.1) && is_listener c.2 = true → (a <=? c.1) && is_listener c.2 = true) by (specialize (Hf H5); lia).
  intros c. rewrite !andb_true_iff. lia.
Qed.
Lemma listeners_step pc b from : pc_ok pc = true → pc ≠ end_pc → code_at pc = Some b → is_listener b = true → pc < from → listeners from + 1 <= listeners pc.
Proof.
  intros Hp Hne Hb Hl Hlt. destruct (wf_code n Hwf) as (l & Hc & He & _). destruct (code_places _ Hc) as (_ & H1' & _).
  apply pc_range in Hp as [Hp Hm]. destruct (lookup_lt_is_Some_2 l (Z.to_nat (pc / 3))) as [c Hk]; [Z.div_mod_to_equations; lia|].
  destruct (H1' _ _ Hk) as (Ha & Hcode & _). assert (c.1 = pc) as Hcp by (rewrite Ha; Z.div_mod_to_equations; lia).
  rewrite Hcp, Hb in Hcode. injection Hcode as Hcode. apply list_elem_of_lookup_2 in Hk. unfold listeners. rewrite Hc.
  enough (S (length (List.filter (λ c, (from <=? c.1) && is_listener c.2)%Z l)) <= length (List.filter (λ c, (pc <=? c.1) && is_listener c.2)%Z l))%nat by lia.
  apply (filter_strict _ _ l c); [|done|..].
  - intros d. rewrite !andb_true_iff. lia.
  - rewrite Hcp, <-Hcode, Hl. lia.
  - rewrite Hcp. lia.
Qed.

(** What the adapter has been told. *)
Lemma base_lcc s pc k l : base s → pc_ok pc = true → 0 <= k → k + listeners pc <= countLCCLookup →
  length l = length (onLCCLookup s) → Forall (λ pc, pc_ok pc = true) l →
  base (with_lccProgCounter pc (with_lccEventIndex k (with_onLCCLookup l s))).
Proof.
  intros [] Hpc Hk Hl Hlen Hf. split; try done; simpl. destruct b_lcc0 as (Hlen0 & _). split_and!; [by rewrite Hlen|done..].
Qed.
Lemma lccx_some pc b o v : instruction n pc b o v → operands o = [1; 2; 3] → ∃ a, ∀ s, lccx pc s = Some (a, s).
Proof.
  intros Hi Ho. pose proof (i_has _ _ _ _ _ Hi) as Hh. rewrite Ho in Hh.
  destruct (operand_there _ _ 1 Hh) as [a Ha]; [by repeat constructor|]. destruct (operand_there _ _ 2 Hh) as [b' Hb]; [by repeat constructor|].
  destruct (operand_there _ _ 3 Hh) as [c Hc]; [by repeat constructor|].
  eexists. intros s. unfold lccx, mthen, mlift. rewrite Ha, Hb, Hc, (i_operand _ _ _ _ _ Hi). reflexivity.
Qed.
Lemma merg_some pc b o v off : instruction n pc b o v → operands o = [1] → ∃ a, ∀ s, merg pc off s = Some (a, s).
Proof.
  intros Hi Ho. pose proof (i_has _ _ _ _ _ Hi) as Hh. rewrite Ho in Hh.
  destruct (operand_there _ _ 1 Hh) as [a Ha]; [by repeat constructor|].
  eexists. intros s. unfold merg, mthen, mlift. rewrite Ha, (i_operand _ _ _ _ _ Hi). reflexivity.
Qed.
(** One line sent, the scan goes on behind it. *)
Lemma tell_wp (args : M St (list arg)) a f pc s : base s → pc_ok pc = true → (∀ s, args s = Some (a, s)) →
  lccEventIndex s + listeners pc <= countLCCLookup →
  wp (let! a := args in send stream f a ;;; mmod (with_lccProgCounter pc)) (λ _ s', base s' ∧ lookup s' = lookup s) s.
Proof.
  intros B Hpc Ha Hl. apply wp_bind. eapply wp_eq; [apply Ha|]. unfold send. apply wp_bind, wp_mod, wp_mod. split; [|done].
  destruct (b_lcc _ _ _ _ B) as (? & ? & _ & ? & _).
  apply (base_core n ids None (with_lccProgCounter pc (with_lccEventIndex (lccEventIndex s) (with_onLCCLookup (onLCCLookup s) s)))); [done|].
  by apply base_lcc.
Qed.
Lemma listen_wp (args : M St (list arg)) a f pc from s : base s → pc_ok pc = true → pc_ok from = true → (∀ s, args s = Some (a, s)) →
  lccEventIndex s + listeners from + 1 <= countLCCLookup →
  wp (listen stream f args from) (λ _ s', base s' ∧ lookup s' = lookup s) s.
Proof.
  intros B Hpc Hfrom Ha Hl. destruct (b_lcc _ _ _ _ B) as (Hlen & Hf & _ & Hk & _). unfold listen, send. apply wp_bind, wp_get, wp_bind.
  assert (0 <= listeners from) by (unfold listeners; destruct code; lia).
  eapply wp_eq; [apply Ha|]. apply wp_bind, wp_mod, wp_bind, wp_get, wp_bind.
  change (onLCCLookup (with_out _ _)) with (onLCCLookup s).
  rewrite Hlen. rewrite (proj2 (andb_true_iff _ _)) by lia.
  apply wp_mod, wp_bind, wp_mod, wp_mod. split; [|done].
  apply (base_core n ids None (with_lccProgCounter from (with_lccEventIndex (lccEventIndex s + 1)
    (with_onLCCLookup (<[Z.to_nat (lccEventIndex s):=from]> (onLCCLookup s)) s)))); [done|].
  apply base_lcc; [done|done|lia|lia|by rewrite length_insert|by apply Forall_insert].
Qed.

Lemma lcc_loop_wp : ∀ fuel pc s, base s → pc_ok pc = true → lccEventIndex s + listeners pc <= countLCCLookup →
  end_pc - pc < 3 * Z.of_nat fuel → wp (lcc_loop stream fuel pc) (λ _ s', base s' ∧ lookup s' = lookup s) s.
Proof.
  induction fuel as [|fuel IH]; intros pc s B Hpc Hl Hf.
  { apply pc_range in Hpc. lia. }
  destruct (instruction_at n Hwf _ Hpc) as (b & o & v & Hi). cbn [lcc_loop]. apply wp_bind. unfold wp at 1, mlift.
  rewrite (i_code _ _ _ _ _ Hi). cbn [mbind option_bind]. rewrite (i_opcode _ _ _ _ _ Hi).
  pose proof (i_reach _ _ _ _ _ Hi) as Hreach. pose proof (i_number _ _ _ _ _ Hi) as Hno. pose proof (i_code _ _ _ _ _ Hi) as Hcode.
  assert (pc + 3 <= end_pc → wp (lcc_loop stream fuel (pc + 3)) (λ _ s', base s' ∧ lookup s' = lookup s) s) as Hgo.
  { intros He. apply IH; [done|by apply (pc_jump pc 1)| |lia]. pose proof (listeners_mono pc (pc + 3)). lia. }
  assert (∀ k, 0 < k → pc + 3 * k <= end_pc → pc_ok (pc + 3 * k) = true ∧ lccEventIndex s + listeners (pc + 3 * k) <= countLCCLookup ∧
    (is_listener b = true → lccEventIndex s + listeners (pc + 3 * k) + 1 <= countLCCLookup)) as Hstep.
  { intros k Hk He. split; [apply pc_jump; [done|lia|done]|]. pose proof (listeners_mono pc (pc + 3 * k)). split; [lia|]. intros Hb.
    pose proof (listeners_step pc b (pc + 3 * k) Hpc ltac:(lia) Hcode Hb). lia. }
  destruct o; try (apply Hgo; apply Hreach; done); simpl in Hreach.
  - (* ENDEXRAIL *)
    unfold send. apply wp_bind, wp_mod, wp_bind, wp_mod, wp_mod. split; [|done]. destruct (b_lcc _ _ _ _ B) as (? & ? & _).
    apply (base_core n ids None (with_lccProgCounter 0 (with_lccEventIndex 0 (with_onLCCLookup (onLCCLookup s) s)))); [done|].
    destruct (wf_code n Hwf) as (_ & _ & _ & _ & _ & _ & _ & ? & _). apply base_lcc; [done|by apply (pc_zero n)|done|lia|done|done].
  - destruct (Hstep 1) as (? & ? & _); [lia|by apply Hreach|]. 
    apply (wp_ext _ (let! a := mreturn [I v] in send stream "<LS x%h>" a ;;; mmod (with_lccProgCounter (pc + 3)))).
    + unfold mthen, mlift. by rewrite (i_operand _ _ _ _ _ Hi).
    + by eapply tell_wp.
  - destruct (Hstep 4) as (? & ? & _); [lia|by apply Hreach|]. destruct (lccx_some _ _ _ _ Hi eq_refl) as [a Ha]. by eapply tell_wp.
  - destruct (Hstep 4) as (? & ? & Hb); [lia|by apply Hreach|]. destruct (lccx_some _ _ _ _ Hi eq_refl) as [a Ha].
    eapply listen_wp; [done|exact Hpc|done|exact Ha|]. apply Hb. by rewrite Hno.
  - destruct (Hstep 2) as (? & ? & _); [lia|by apply Hreach|]. destruct (merg_some _ _ _ _ false Hi eq_refl) as [a Ha]. by eapply tell_wp.
  - destruct (Hstep 2) as (? & ? & _); [lia|by apply Hreach|]. destruct (merg_some _ _ _ _ true Hi eq_refl) as [a Ha]. by eapply tell_wp.
  - destruct (Hstep 2) as (? & ? & Hb); [lia|by apply Hreach|]. destruct (merg_some _ _ _ _ false Hi eq_refl) as [a Ha].
    eapply listen_wp; [done|exact Hpc|done|exact Ha|]. apply Hb. by rewrite Hno.
  - destruct (Hstep 2) as (? & ? & Hb); [lia|by apply Hreach|]. destruct (merg_some _ _ _ _ true Hi eq_refl) as [a Ha].
    eapply listen_wp; [done|exact Hpc|done|exact Ha|]. apply Hb. by rewrite Hno.
Qed.
Lemma sound_filterL opcode c (p : nat → Z) : sound (filterL stream opcode c p).
Proof.
  unfold filterL. apply sound_if; [by apply sound_ret|]. apply sound_if; [|apply sound_if; [|by apply sound_ret]].
  - intros s B. apply wp_bind, wp_mod, wp_bind, wp_get. assert (base (with_LCCSerial (Some stream) s)) as B1 by (by apply (base_core n ids None s)).
    destruct (b_lcc _ _ _ _ B) as (_ & _ & Hpc & _ & Hl). apply wp_bind. eapply wp_mono; [apply lcc_loop_wp; [done|done|done|]|].
    + pose proof (fuel_enough n Hwf _ Hpc). simpl lccProgCounter. lia.
    + intros ? s' [B' L']. apply wp_ret. split; [done|]. by rewrite L'.
  - cbv zeta. destruct ((p 0%nat <? 0) || (p 0%nat >=? countLCCLookup)) eqn:E; [apply sound_ret|].
    intros s B. apply wp_bind, wp_get. destruct (b_lcc _ _ _ _ B) as (Hlen & Hf & _).
    destruct (lookup_lt_is_Some_2 (onLCCLookup s) (Z.to_nat (p 0%nat))) as [pc Hpc]; [lia|].
    apply wp_bind. unfold wp at 1, mlift. rewrite Hpc. cbn [mbind option_bind]. apply wp_bind.
    rewrite Forall_lookup in Hf. eapply wp_mono; [apply (kept_start n ids None []); [by eapply Hf|done|done]|].
    intros ? s' [K _]. apply wp_ret. split; apply K.
Qed.

(** ** Lists for throttles, and the filter *)

Lemma sound_routeType id : sound (getRouteType id).
Proof.
  apply sound_calm. unfold getRouteType. eapply kept_bind; [by apply kept_find|]. intros pc Hpc. destruct (pc <? 0) eqn:E; [by apply kept_ret|].
  assert (pc_ok pc = true) as Hok by (destruct Hpc; [lia|done]). destruct (instruction_at n Hwf _ Hok) as (b & o & v & Hi).
  eapply kept_bind; [eapply (kept_lift n ids _ _ (λ _, True)); [apply Hi|done]|]. intros. by apply kept_ret.
Qed.
Lemma routes_on : tru (compileFeatures .& FEATURE_ROUTESTATE) = true → tru compileFeatures = true.
Proof. unfold tru. destruct (compileFeatures =? 0) eqn:E; [|done]. apply Z.eqb_eq in E. by rewrite E. Qed.
Lemma sound_state id : tru (compileFeatures .& FEATURE_ROUTESTATE) = true → sound (show_state stream id).
Proof.
  intros Hf%routes_on. apply sound_calm, kept_wp. intros s B F. unfold show_state.
  destruct (route_place Hmax n Hn ids i Hwf Hblink None s id B) as (l & k & Hl & Hk & Hr). unfold list_of. apply wp_bind. unfold wp at 1. rewrite Hl.
  cbn [mbind option_bind]. apply wp_bind. unfold wp at 1, mlift. rewrite Hk. cbn [mbind option_bind].
  destruct (k >=? 0) eqn:E; [|apply wp_ret; by apply ekeeps_refl]. destruct (Hr Hf) as [?|(a & o & c & q & Ha & Ho & Hc & Hq)]; [lia|].
  apply wp_bind, wp_get, wp_bind. unfold wp at 1. rewrite Ha. apply wp_bind. unfold wp at 1. rewrite Ho. cbn [mbind option_bind].
  apply wp_bind, wp_get, wp_bind. unfold wp at 1. rewrite Hc. apply wp_bind. unfold wp at 1. rewrite Hq. cbn [mbind option_bind].
  assert (calm None [] ((when tru o do send stream "<jB %d %d>" [I id; I o]) ;;;
     match q with Some caption => send stream ("<jB %d " +:+ quoted "%S" +:+ ">") [I id; T caption] | None => mreturn tt end)) as Hc'.
  { apply calm_bind; [apply kept_if; [apply kept_send|by apply kept_ret]|]. intros _. destruct q; [apply kept_send|by apply kept_ret]. }
  eapply wp_mono; [by apply Hc'|]. by intros ? s' [? _].
Qed.
Lemma sound_filterJ opcode c (p : nat → Z) : sound (filterJ stream opcode c p).
Proof.
  unfold filterJ. ifs; try (by apply sound_ret).
  - apply sound_calm. apply calm_bind; [apply kept_send|intros _]. eapply kept_bind; [by apply kept_list|]. intros [k m r] (Hm & _). simpl.
    apply calm_bind; [|intros; apply calm_bind; [apply kept_send|intros; by apply kept_ret]]. apply kept_mfor. intros j Hj%elem_of_seq.
    destruct (lookup_lt_is_Some_2 m j) as [d Hd]; [lia|]. eapply kept_bind; [by eapply (kept_lift n ids _ _ (λ _, True))|]. intros. apply kept_send.
  - apply sound_bind; [apply sound_routeType|]. intros ty. apply sound_bind; [apply sound_calm, kept_send|intros _].
    apply sound_bind; [|intros; apply sound_ret]. destruct (tru _) eqn:Ef; [by apply sound_state|apply sound_ret].
  - apply sound_bind; [|intros; apply sound_ret]. unfold blockEvent. destruct (tru (compileFeatures .& FEATURE_BLOCK)) eqn:Ef; [|apply sound_ret].
    apply sound_calm, kept_event. by destruct (opcode =? _).
Qed.
Lemma sound_filter opcode c pl : sound (ComandFilter i stream opcode c pl).
Proof.
  unfold ComandFilter. cbv zeta. ifs; try (by apply sound_ret).
  - apply sound_calm. kept_tac.
  - apply sound_bind; [apply sound_slash|]. intros b. apply sound_ret.
  - apply sound_bind; [apply sound_calm; by apply kept_aspect|]. intros b. apply sound_ret.
  - apply sound_filterL.
  - apply sound_filterJ.
Qed.
End filter.
End ExrailFilter.

(** The start of EXRAIL never fails, and leaves the invariant: the look-up lists
    are full, the signals are red, turnouts and turntables are created. *)

Module ExrailBegin.
Import Station StationProps Exrail ExrailRun ExrailRing ExrailInv ExrailSafe ExrailKill ExrailCode ExrailSteps ExrailTurn ExrailProps.

(** A cell that is loaded is found, or one before it of the same value. *)
Lemma find_cell_in m value : ∀ n k j v, m !! j = Some (value, v) → (k <= j < k + n)%nat →
  ∃ j' v', find_cell n k m value = Some (Some (j', v')) ∧ m !! j' = Some (value, v').
Proof.
  induction n as [|n IH]; intros k j v Hj Hk; [lia|]. destruct (lookup_lt_is_Some_2 m k) as [[a b] Hc].
  { apply lookup_lt_Some in Hj. lia. }
  simpl. rewrite Hc. simpl. destruct (a =? value) eqn:E.
  - exists k, b. rewrite Hc. split; [done|]. do 2 f_equal. lia.
  - destruct (decide (j = k)) as [->|Hne]; [rewrite Hc in Hj; injection Hj as -> ->; lia|]. by apply (IH (S k) j v); [|lia].
Qed.

Section begin.
Context `{!Config} `{!MotorDriver.MotorDriver.Board} `{!Layout.Layout.Machine} `{!Devices} `{!Program} `{!Garbage}.
Context (Hmax : MAX_LOCOS < 65536) (n : Z) (Hn : 0 <= n) (i : Io).
Context (Hwf : well_formed n = true) (Hblink : no_blink = true).
#[local] Set Default Proof Using "All".

(** ** Lists that are loaded *)

Definition asked (ops : list OPCODE) (opcode : Z) : bool := existsb (λ o, opcode =? number_of o) ops.
Lemma load_pass_ok ops : ∀ l N m, 
  (∀ c, c ∈ l → pc_ok c.1 = true ∧ is_Some (getOperand c.1 0)) → Forall (λ c, pc_ok c.2 = true) m →
  N = Z.of_nat (length m) + Z.of_nat (length (List.filter (λ c, asked ops c.2) l)) →
  ∃ m', load_pass l ops (mkLookList N m None) = Some (mkLookList N m' None) ∧ Z.of_nat (length m') = N ∧ Forall (λ c, pc_ok c.2 = true) m'.
Proof.
  induction l as [|[pc b] l IH]; intros N m Hl Hm HN; simpl in HN |- *; [exists m; split_and!; [done|lia|done]|].
  change (existsb (λ o, b =? number_of o) ops) with (asked ops b). destruct (asked ops b) eqn:E.
  - destruct (Hl (pc, b)) as [Hpc [v Hv]]; [by left|]. simpl in Hpc, Hv. rewrite Hv. cbn [mbind option_bind]. unfold add.
    destruct (Z.of_nat (length m) =? N) eqn:EN; [simpl in HN; lia|]. pose proof (pc_small n Hwf _ Hpc) as Hs.
    assert (i16 pc = pc) as -> by (apply i16_id; unfold is_i16; lia).
    apply IH; [intros c Hc; apply Hl; by right|apply Forall_app; split; [done|by apply Forall_singleton]|].
    rewrite length_app. simpl in HN |- *. lia.
  - apply IH; [intros c Hc; apply Hl; by right|done|done].
Qed.
Lemma code_ok : ∃ l, code = Some l ∧ Z.of_nat (length l) <= 10920 ∧
  ∀ c, c ∈ l → pc_ok c.1 = true ∧ c.1 ≠ end_pc ∧ ∃ o v, instruction n c.1 c.2 o v.
Proof.
  destruct (wf_code n Hwf) as (l & Hl & He & Hle & _). destruct (code_places _ Hl) as (_ & H1' & _). exists l. split; [done|]. split; [lia|].
  intros c [k Hk]%list_elem_of_lookup. destruct (H1' _ _ Hk) as (Ha & Hc & Hend). pose proof (lookup_lt_Some _ _ _ Hk).
  assert (pc_ok c.1 = true) as Hpc by (unfold pc_ok; rewrite Ha, He; Z.div_mod_to_equations; lia).
  split; [done|]. split; [rewrite Ha, He; lia|]. destruct (instruction_at n Hwf _ Hpc) as (b & o & v & Hi). exists o, v.
  pose proof (i_code _ _ _ _ _ Hi) as E. rewrite Hc in E. by injection E as ->.
Qed.
Lemma loader_ok ops : ∃ l, LookListLoader ops = Some l ∧ list_ok l.
Proof.
  destruct code_ok as (l & Hl & Hlen & Hc). unfold LookListLoader. rewrite Hl. cbn [mbind option_bind].
  pose proof (List.filter_length_le (λ c : Z * Z, asked ops c.2) l) as Hf.
  assert (i16 (Z.of_nat (length (List.filter (λ c : Z * Z, existsb (λ o, c.2 =? number_of o) ops) l))) =
    Z.of_nat (length (List.filter (λ c : Z * Z, asked ops c.2) l))) as -> by (apply i16_id; unfold is_i16, asked in *; lia).
  destruct (load_pass_ok ops l (Z.of_nat (length (List.filter (λ c : Z * Z, asked ops c.2) l))) []) as (m & Hp & Hm & Hf').
  - intros c Hin. destruct (Hc c Hin) as (? & _ & o & v & Hi). split; [done|]. exists v. apply Hi.
  - done.
  - done.
  - eexists. split; [exact Hp|]. simpl. split; [lia|]. by split.
Qed.

(** Before the lists. *)
Record fresh (s : St) : Prop := {
  f_world : WInv n (world s);
  f_tasks : tasks s = ∅;
  f_loop : loopTask s = None;
  f_flags : length (flags s) = 256%nat;
  f_sensors : sensors s = [];
  f_reading : readingSensor s = None;
  f_lcc : length (onLCCLookup s) = Z.to_nat countLCCLookup ∧ Forall (λ pc, pc_ok pc = true) (onLCCLookup s) ∧ lccProgCounter s = 0 ∧ lccEventIndex s = 0;
}.
(** Some of the lists are loaded. *)
Record stage (L : list Lookup) (s : St) : Prop := {
  s_fresh : fresh s;
  s_lists : ∀ m, m ∈ L → ∃ l, lookup s m = Some l ∧ list_ok l;
  s_routes : tru compileFeatures = true → ∃ l a c, lookup s routeLookup = Some l ∧ routeStateArray s = Some a ∧
    routeCaptionArray s = Some c ∧ length a = Z.to_nat (size l) ∧ length c = Z.to_nat (size l);
}.
Lemma load_stage m ops L s : m ≠ routeLookup → stage L s → wp (load m ops) (λ _ s', stage (m :: L) s') s.
Proof.
  intros Hm [[] Hl Hr]. destruct (loader_ok ops) as (l & Hl' & Hok). unfold load. apply wp_bind. unfold wp at 1, mlift. rewrite Hl'.
  apply wp_mod. split; [by split| |].
  - intros k Hk. simpl. destruct (decide (k = m)) as [->|Hne]; [by exists l|]. apply elem_of_cons in Hk as [->|Hk]; [done|by apply Hl].
  - intros Hf. simpl. rewrite decide_False by done. by apply Hr.
Qed.
Lemma stage_base L s : (∀ m, needed m = true → m ∈ L) → stage L s → ExrailSafe.base_but n (λ _, False) None s.
Proof.
  intros HL [[] Hl Hr]. split; try done.
  - by rewrite f_loop0.
  - rewrite f_tasks0. intros p. rewrite lookup_empty. by intros [??].
  - rewrite f_tasks0. intros p t. by rewrite lookup_empty.
  - intros m Hm. by apply Hl, HL.
  - by rewrite f_sensors0.
  - by rewrite f_reading0.
  - destruct f_lcc0 as (? & ? & -> & ->). split_and!; [done|done|by apply (pc_zero n)|done|]. destruct (wf_code n Hwf) as (_ & _ & _ & _ & _ & _ & _ & ? & _). lia.
Qed.

Definition plain_lists : list Lookup :=
  [onOverloadLookup; onRotateLookup; onClockLookup; onChangeLookup; onDeactivateLookup; onActivateLookup; onCloseLookup; onThrowLookup; routeLookup].
Definition block_lists : list Lookup :=
  if tru (compileFeatures .& FEATURE_BLOCK) then [onBlockExitLookup; onBlockEnterLookup] else [].
Definition signal_lists : list Lookup :=
  if tru (compileFeatures .& FEATURE_SIGNAL) then [onGreenLookup; onAmberLookup; onRedLookup] else [].
Lemma all_needed m : needed m = true → m ∈ signal_lists ++ block_lists ++ plain_lists.
Proof.
  unfold needed, signal_lists, block_lists. destruct m; intros Hm; try done; simpl in Hm; rewrite ?Hm; set_solver.
Qed.
Lemma wp_load m ops L s (Q : unit → St → Prop) : m ≠ routeLookup → stage L s → (∀ s', stage (m :: L) s' → Q tt s') → wp (load m ops) Q s.
Proof. intros Hm Hs HQ. eapply wp_mono; [by apply load_stage|]. intros [] s' Hs'. by apply HQ. Qed.
Lemma load_lists_wp s : fresh s → wp load_lists (λ _ s', stage (block_lists ++ plain_lists) s') s.
Proof.
  intros Hf. unfold load_lists. destruct (loader_ok [OPCODE_ROUTE; OPCODE_AUTOMATION]) as ([k m r] & Hl & Hm & Hmf & _).
  destruct (loader_ok [OPCODE_SEQUENCE]) as (lq & Hq & Hqok).
  apply wp_bind. unfold wp at 1, mlift. rewrite Hl. apply wp_bind. unfold wp at 1. rewrite Hq. apply wp_bind, wp_mod, wp_bind.
  match goal with |- wp _ _ ?s' => set (s1 := s') end.
  apply (wp_mono _ (λ _ s', stage [routeLookup] s')).
  - destruct (tru compileFeatures) eqn:Ef.
    + apply wp_bind, wp_mod, wp_mod. destruct Hf. split; [by split| |].
      * intros j Hj. apply list_elem_of_singleton in Hj as ->. simpl. eexists. split; [done|]. simpl. by split_and!.
      * intros _. simpl. eexists _, _, _. split; [done|]. split; [done|]. split; [done|]. by rewrite !length_replicate.
    + apply wp_ret. destruct Hf. split; [by split| |].
      * intros j Hj. apply list_elem_of_singleton in Hj as ->. simpl. eexists. split; [done|]. simpl. by split_and!.
      * by rewrite Ef.
  - intros ? s2 K2. do 8 (apply wp_bind; eapply wp_load; [done|eassumption|intros ? ?]). unfold block_lists.
    destruct (tru (compileFeatures .& FEATURE_BLOCK)); [|by apply wp_ret].
    apply wp_bind. eapply wp_load; [done|eassumption|intros ? ?]. by eapply wp_load.
Qed.

(** ** The signals *)

Lemma base_signals ids s : ExrailSafe.base_but n (λ _, False) None s →
  (tru (compileFeatures .& FEATURE_SIGNAL) = true → ∀ id, ids id →
    ∃ l r, lookup s signalLookup = Some l ∧ find l (i16 id) = Some r ∧ (r = -1 ∨ slot_ok r = true)) →
  ExrailSafe.base_but n ids None s.
Proof. intros [] Hs. by split. Qed.
Lemma base_no_signals ids s : ExrailSafe.base_but n ids None s → ExrailSafe.base_but n (λ _, False) None s.
Proof. intros []. by split. Qed.
Lemma base_set_signals s l : ExrailSafe.base_but n (λ _, False) None s →
  ExrailSafe.base_but n (λ _, False) None (with_lookup (λ m, if decide (m = signalLookup) then Some l else lookup s m) s).
Proof. intros []. split; try done. intros m Hm. simpl. destruct (decide (m = signalLookup)) as [->|]; [done|by apply b_lists0]. Qed.

Definition add_signal (c : Z * SIGNAL_DEFINITION) : M St unit :=
  let '(slot, g) := c in
  let! list_ := list_of signalLookup in
  set_list signalLookup (add (i16 (signal_id g)) slot list_) ;;;
  doSignal i (signal_id g) SIGNAL_RED.
Definition some_signals (N : Z) (cells : list (Z * Z)) (s : St) : Prop :=
  ExrailSafe.base_but n (λ _, False) None s ∧ lookup s signalLookup = Some (mkLookList N cells None) ∧ Forall (λ c, slot_ok c.2 = true) cells.
Lemma add_signal_wp N s cells slot g : some_signals N cells s → Z.of_nat (length cells) < N → slot_ok slot = true →
  wp (add_signal (slot, g)) (λ _ s', some_signals N (cells ++ [(i16 (signal_id g), slot)]) s') s.
Proof.
  intros (B & Hs & Hc) HN Hl. unfold add_signal. apply wp_bind. unfold wp at 1, list_of. rewrite Hs. cbn [mbind option_bind].
  apply wp_bind, wp_mod. unfold add. destruct (_ =? N) eqn:EN; [lia|]. set (cells' := cells ++ [(i16 (signal_id g), slot)]).
  match goal with |- wp _ _ ?s' => set (s1 := s') end. pose proof (base_set_signals s (mkLookList N cells' None) B) as B1.
  assert (Forall (λ c, slot_ok c.2 = true) cells') as Hc' by (apply Forall_app; split; [done|by apply Forall_singleton]).
  assert (ExrailSafe.base_but n (eq (signal_id g)) None s1) as B2.
  { apply base_signals; [exact B1|]. intros _ id <-. exists (mkLookList N cells' None). simpl. unfold find.
    assert (cells' !! length cells = Some (i16 (signal_id g), slot)) as Hj by (unfold cells'; by rewrite list_lookup_middle).
    destruct (find_cell_in cells' (i16 (signal_id g)) (Z.to_nat N) 0 (length cells) slot Hj) as (j & r & Hf & Hr); [lia|].
    exists r. rewrite Hf. split; [done|]. split; [done|]. right. rewrite Forall_lookup in Hc'. by apply (Hc' j (i16 (signal_id g), r)). }
  eapply wp_mono; [apply (kept_doSignal Hmax n Hn (eq (signal_id g)) i Hwf Hblink None []); [done|exact B2|done]|].
  intros ? s2 [[B3 L3 _] _]. split; [by eapply base_no_signals|]. split; [by rewrite L3|done].
Qed.
Lemma signals_loop N : ∀ l s cells, some_signals N cells s → Z.of_nat (length cells + length l) = N → (∀ c, c ∈ l → slot_ok c.1 = true) →
  wp (mfor l add_signal) (λ _ s', ∃ cells', some_signals N cells' s' ∧ Z.of_nat (length cells') = N) s.
Proof.
  unfold mfor. induction l as [|[slot g] l IH]; intros s cells Hs HN Hl; simpl in HN.
  - apply wp_ret. exists cells. split; [done|lia].
  - simpl. apply wp_bind. eapply wp_mono; [apply add_signal_wp; [exact Hs|lia|apply (Hl (slot, g)); by left]|]. intros [] s2 Hs2.
    eapply IH; [exact Hs2|rewrite length_app; simpl; lia|]. intros c Hin. apply Hl. by right.
Qed.
Lemma slots_few : ∀ l slot r, signal_loop slot l = Some r → (∀ c, c ∈ r → slot <= c.1) ∧
  ((∀ c, c ∈ r → c.1 < MAX_FLAGS) → Z.of_nat (length r) <= Z.max 0 (MAX_FLAGS - slot)).
Proof.
  induction l as [|g l IH]; intros slot r; [done|]. simpl.
  assert (∀ r', signal_loop (slot + 1) l = Some r' → (∀ c, c ∈ r' → slot <= c.1) ∧
    ((∀ c, c ∈ r' → c.1 < MAX_FLAGS) → Z.of_nat (length r') <= Z.max 0 (MAX_FLAGS - (slot + 1)))) as Hgo.
  { intros r' Hr'. destruct (IH _ _ Hr') as [Ha Hb]. split; [|done]. intros c Hc. specialize (Ha c Hc). lia. }
  assert (∀ r' (x : Z * SIGNAL_DEFINITION), x.1 = slot → signal_loop (slot + 1) l = Some r' → (∀ c, c ∈ x :: r' → slot <= c.1) ∧
    ((∀ c, c ∈ x :: r' → c.1 < MAX_FLAGS) → Z.of_nat (length (x :: r')) <= Z.max 0 (MAX_FLAGS - slot))) as Hcons.
  { intros r' x Hx Hr'. destruct (Hgo _ Hr') as [Ha Hb]. split; [intros c [->|Hc]%elem_of_cons; [lia|by apply Ha]|]. intros Hlt.
    pose proof (Hlt x ltac:(by left)) as Hx'. specialize (Hb ltac:(intros c Hc; apply Hlt; by right)). simpl length. lia. }
  destruct (type g); try (by (intros [= <-]; split; [by intros c ?%elem_of_nil|simpl; lia]));
    try (destruct (signal_loop (slot + 1) l) as [r'|] eqn:E; [|done]; intros [= <-]; by apply Hcons).
  intros Hr. destruct (Hgo _ Hr) as [Ha Hb]. split; [done|]. intros Hlt. specialize (Hb Hlt). lia.
Qed.
Lemma load_signals_wp s : tru (compileFeatures .& FEATURE_SIGNAL) = true → stage (block_lists ++ plain_lists) s →
  wp (load_signals i) (λ _ s', ExrailSafe.base_but n (λ _, True) None s') s.
Proof.
  intros Hf H0'. unfold load_signals. do 3 (apply wp_bind; eapply wp_load; [done|eassumption|intros ? ?]).
  destruct (slots_ok n Hwf Hf) as (l & Hl & Hok). apply wp_bind. unfold wp at 1, mlift. rewrite Hl. apply wp_bind, wp_mod.
  destruct (slots_few _ _ _ Hl) as [_ Hfew]. specialize (Hfew ltac:(intros c Hc; apply Hok in Hc; unfold slot_ok in Hc; rewrite !andb_true_iff in Hc; lia)).
  assert (i16 (Z.of_nat (length l)) = Z.of_nat (length l)) as HN by (apply i16_id; unfold is_i16, MAX_FLAGS in *; lia). rewrite HN.
  match goal with K : stage _ ?s' |- _ => assert (ExrailSafe.base_but n (λ _, False) None s') as B;
    [apply (stage_base _ s' all_needed); unfold signal_lists; rewrite Hf; exact K|] end.
  eapply wp_mono; [apply (signals_loop (Z.of_nat (length l)) l _ []); [|done|done]|].
  - split; [by apply base_set_signals|done].
  - intros ? se (cells & (B' & Hs' & Hc) & Hlen). apply base_signals; [done|]. intros _ id _. exists (mkLookList (Z.of_nat (length l)) cells None).
    destruct (find_cell_ok cells (i16 id) (length cells) 0 eq_refl) as (r & Hr & Hrok). unfold find. rewrite <-Hlen, Nat2Z.id, Hr.
    exists (match r with Some (_, r) => r | None => -1 end). rewrite Hlen. split; [done|]. destruct r as [[j r]|]; simpl; [|split; [done|by left]]. split; [done|]. right.
    rewrite Forall_lookup in Hc. by apply (Hc j (i16 id, r)).
Qed.

(** ** The second pass *)

Notation base := (ExrailSafe.base_but n (λ _, True) None).
Notation calm ps m := (ExrailSafe.kept n (λ _, True) None ps (λ _, True) m).

Lemma kept_layout ps {A} (m : M Layout.Layout.St A) : total m → calm ps (on_world (on_layout m)).
Proof. intros Hm. by apply kept_world, fine_layout. Qed.
Lemma kept_turntables ps {A} (m : M Turntables.Turntables.St A) : total m → calm ps (on_world (on_turntables m)).
Proof. intros Hm. by apply kept_world, fine_turntables. Qed.
Lemma kept_hidden ps id : calm ps (setTurnoutHiddenState id).
Proof. unfold setTurnoutHiddenState. destruct (turnoutHidden _); [apply kept_layout, total_mod|by apply kept_ret]. Qed.
Lemma kept_hidden_turntable ps id : calm ps (setTurntableHiddenState id).
Proof. unfold setTurntableHiddenState. destruct (turntableHidden _); [apply kept_turntables, total_mod|by apply kept_ret]. Qed.
Lemma kept_position ps id p v a : calm ps (addPosition id p v a).
Proof. apply kept_turntables, total_addPosition. Qed.
Lemma kept_arg ps pc l k : has_operands pc l = true → k ∈ l → calm ps (mlift (getOperand pc k)).
Proof. intros Hl Hk. destruct (operand_there _ _ _ Hl Hk) as [v Hv]. by eapply kept_lift. Qed.

Ltac arg := apply calm_bind; [eapply kept_arg; [eassumption|by simpl; repeat constructor]|intros ?].
Lemma kept_turnout ps pc id b o v : instruction n pc b o v → calm ps (begin_turnout pc id o).
Proof.
  intros Hi. pose proof (i_has _ _ _ _ _ Hi) as Hh. unfold begin_turnout. cbv zeta. destruct o; try (by apply kept_ret); repeat arg;
    (apply calm_bind; [apply kept_layout|intros; apply kept_if; [apply kept_hidden|by apply kept_ret]]);
    first [apply total_createDCC|apply total_createServo|apply total_createVpin].
Qed.
Lemma kept_turntable ps pc id b o v : instruction n pc b o v → calm ps (begin_turntable pc id o).
Proof.
  intros Hi. pose proof (i_has _ _ _ _ _ Hi) as Hh. unfold begin_turntable. cbv zeta. destruct o; try (by apply kept_ret); repeat arg.
  - apply calm_bind; [by apply kept_world, fine_get|]. intros. apply kept_if; [apply kept_position|by apply kept_ret].
  - apply calm_bind; [apply kept_turntables, total_createDCC_turntable|]. intros. apply kept_if; [|by apply kept_ret].
    apply calm_bind; [apply kept_hidden_turntable|intros; apply kept_position].
  - apply calm_bind; [apply kept_turntables, total_createEXTT|]. intros. apply kept_if; [|by apply kept_ret].
    apply calm_bind; [apply kept_hidden_turntable|intros; apply kept_position].
Qed.
Lemma kept_new_sensor ps v pc a b : pc_ok pc = true → calm ps (new_sensor i v pc a b).
Proof.
  intros Hpc. unfold new_sensor. apply calm_bind; [apply kept_emit|intros _]. cbv zeta. apply kept_wp. intros s B F. apply wp_mod.
  split; [|done|intros p t Hp; by exists t]. destruct B. split; try done; simpl.
  - apply Forall_cons. by split.
  - intros k Hk. apply b_reading0 in Hk. lia.
Qed.
Lemma kept_begin_op pc b o v : instruction n pc b o v → pc_ok pc = true → pc ≠ end_pc → calm [] (begin_op i pc b).
Proof.
  intros Hi Hpc Hne. unfold begin_op. eapply kept_bind; [eapply (kept_lift n _ _ _ (λ v', v' = v)); [apply Hi|done]|]. intros ? ->.
  rewrite (i_opcode _ _ _ _ _ Hi). destruct (pc_step n Hwf pc Hpc Hne) as [Hpc3 _].
  assert (calm [] (begin_turnout pc v o ;;; begin_turntable pc v o)) as Hrest.
  { apply calm_bind; [by eapply kept_turnout|]. intros _. by eapply kept_turntable. }
  destruct o; try exact Hrest; try (by apply kept_emit).
  - apply calm_bind; [by apply kept_new|]. intros. by apply kept_ret.
  - apply kept_if; [by apply kept_new_sensor|by apply kept_ret].
  - apply kept_if; [by apply kept_new_sensor|by apply kept_ret].
  - apply kept_if; [by apply kept_new_sensor|by apply kept_ret].
Qed.

Lemma fresh_init w : WInv n w → fresh (with_flags (replicate (Z.to_nat MAX_FLAGS) 0) (init w)).
Proof.
  intros Hw. split; try done. simpl. split; [apply length_replicate|]. split; [|done]. apply Forall_replicate, (pc_zero n Hwf).
Qed.
Lemma begin_wp w : WInv n w → wp (begin i) (λ _ s', base s') (init w).
Proof.
  intros Hw. unfold begin. apply wp_bind, wp_mod, wp_bind. eapply wp_mono; [apply load_lists_wp, fresh_init, Hw|]. intros ? s1 K1. apply wp_bind.
  apply (wp_mono _ (λ _ s', base s')).
  - destruct (tru (compileFeatures .& FEATURE_SIGNAL)) eqn:Ef; [by apply load_signals_wp|]. apply wp_ret. apply base_signals; [|by rewrite Ef].
    apply (stage_base _ s1 all_needed). unfold signal_lists. by rewrite Ef.
  - intros ? s2 B2. destruct code_ok as (l & Hl & _ & Hc). apply wp_bind. unfold wp at 1, mlift. rewrite Hl.
    eapply wp_mono; [apply (kept_mfor n (λ _, True) None [] l); [|exact B2|done]|by intros ? s3 [[B3 _ _] _]].
    intros [pc b] Hin. destruct (Hc _ Hin) as (Hpc & Hne & o & v & Hi). by eapply kept_begin_op.
Qed.
End begin.
End ExrailBegin.
