(* ===== verification/ExrailTheorems.v ===== *)
(** What makes EXRAIL correct: it never fails, whatever is called in whatever
    order; a skipped block ends at the matching ELSE or ENDIF; and one loop that
    does not end. *)

From S2P Require Import Prelude Keywords Chain LocoSlot ConsistProps DCCConsist DCC DCCSafe MotorDriver TrackManager TrackProps DCCACK Layout Turnouts Turntables Stash Format Station StationProps Commands CommandsProps Exrail ExrailRun ExrailCommands ExrailInv ExrailSafe ExrailSteps ExrailFilter.
From stdpp Require Import strings.

#[local] Open Scope Z_scope.
#[local] Open Scope c_scope.

Module ExrailTheorems.
Import Station StationProps Exrail ExrailRun ExrailCommands ExrailRing ExrailInv ExrailSafe ExrailKill ExrailCode ExrailSteps ExrailTurn ExrailProps ExrailFilter ExrailBegin.

(** ** Skipping a block *)

Section skip.
Context `{!Config} `{!MotorDriver.MotorDriver.Board} `{!Layout.Layout.Machine} `{!Devices} `{!Program} `{!Garbage}.
Implicit Types (p : ptr) (t : Task) (s : St).

(** Code in which each IF has its ENDIF, and perhaps an ELSE. *)
Definition is_if (b : Z) : Prop := b > number_of IF_TYPE_OPCODES.
Definition is_plain (b : Z) : Prop :=
  b <= number_of IF_TYPE_OPCODES ∧ b ≠ number_of OPCODE_ENDEXRAIL ∧ b ≠ number_of OPCODE_ENDIF ∧ b ≠ number_of OPCODE_ELSE.
Inductive block : list Z → Prop :=
  | block_nil : block []
  | block_plain b l : is_plain b → block l → block (b :: l)
  | block_if b l1 l2 : is_if b → block l1 → block l2 → block (b :: l1 ++ number_of OPCODE_ENDIF :: l2)
  | block_if_else b l1 l2 l3 : is_if b → block l1 → block l2 → block l3 →
      block (b :: l1 ++ number_of OPCODE_ELSE :: l2 ++ number_of OPCODE_ENDIF :: l3).
(** The opcodes from a place on. *)
Definition code_from (pc : Z) (l : list Z) : Prop := ∀ k b, l !! k = Some b → code_at (pc + 3 * Z.of_nat k) = Some b.

Lemma code_from_app pc l k : code_from pc (l ++ k) → code_from pc l ∧ code_from (pc + 3 * Z.of_nat (length l)) k.
Proof.
  intros Hc. split.
  - intros j b Hj. apply Hc. by apply lookup_app_l_Some.
  - intros j b Hj. rewrite <-Z.add_assoc, <-Z.mul_add_distr_l, <-Nat2Z.inj_add. apply Hc. by rewrite lookup_app_r, Nat.add_comm, Nat.add_sub by lia.
Qed.
Lemma code_from_cons pc b l : code_from pc (b :: l) → code_at pc = Some b ∧ code_from (pc + 3) l.
Proof.
  intros Hc. split; [by rewrite <-(Hc 0%nat b eq_refl), Z.add_0_r|]. intros j c Hj. rewrite <-(Hc (S j) c Hj). f_equal. lia.
Qed.

(** The task [p], with its counter at [pc]. *)
Definition at_ (p : ptr) (t : Task) (pc : Z) (s : St) : St := with_tasks (<[p := with_progCounter pc t]> (tasks s)) s.
Lemma skip_step i p t pc s b fuel nest : code_at (pc + 3) = Some b → b ≠ number_of OPCODE_ENDEXRAIL → 0 < nest →
  skip_loop i (S fuel) p nest (at_ p t pc s) =
  skip_loop i fuel p (if b >? number_of IF_TYPE_OPCODES then nest + 1 else if b =? number_of OPCODE_ENDIF then nest - 1
                      else if b =? number_of OPCODE_ELSE then (if nest =? 1 then 0 else nest) else nest) (at_ p t (pc + 3) s).
Proof.
  intros Hb Hne Hn. cbn [skip_loop]. destruct (nest <=? 0) eqn:E; [lia|]. unfold mthen at 1, SKIPOP, update. simpl tasks. rewrite lookup_insert_eq.
  cbn [mbind option_bind]. set (s1 := with_tasks _ _). assert (s1 = at_ p t (pc + 3) s) as ->.
  { unfold s1, at_. simpl. by rewrite insert_insert_eq. }
  unfold mthen at 1, deref. simpl tasks. rewrite lookup_insert_eq. cbn [mbind option_bind progCounter with_progCounter].
  unfold mthen at 1, mlift. rewrite Hb. cbn [mbind option_bind].
  destruct (b >? _); [done|]. destruct (b =? number_of OPCODE_ENDEXRAIL) eqn:E2; [lia|]. destruct (b =? number_of OPCODE_ENDIF); [done|]. destruct (b =? number_of OPCODE_ELSE); done.
Qed.
Lemma skip_block i p t s l : block l → ∀ pc nest fuel, code_from (pc + 3) l → 0 < nest →
  skip_loop i (length l + fuel) p nest (at_ p t pc s) = skip_loop i fuel p nest (at_ p t (pc + 3 * Z.of_nat (length l)) s).
Proof.
  induction 1 as [|b l Hb _ IH|b l1 l2 Hb _ IH1 _ IH2|b l1 l2 l3 Hb _ IH1 _ IH2 _ IH3]; intros pc nest fuel Hc Hn; unfold is_plain, is_if in *.
  - simpl. do 2 f_equal. lia.
  - apply code_from_cons in Hc as [Hb' Hc]. destruct Hb as (? & ? & ? & ?). change (length (b :: l) + fuel)%nat with (S (length l + fuel)).
    rewrite (skip_step i p t pc s b) by done. destruct (b >? _) eqn:E1; [lia|]. destruct (b =? _) eqn:E2; [lia|]. destruct (b =? number_of OPCODE_ELSE) eqn:E3; [lia|].
    rewrite (IH (pc + 3) nest) by done. do 2 f_equal. simpl length. lia.
  - apply code_from_cons in Hc as [Hb' [Hc1 Hc]%code_from_app]. apply code_from_cons in Hc as [Hb2 Hc2].
    assert (b ≠ number_of OPCODE_ENDEXRAIL) by (intros ->; done).
    replace (length (b :: l1 ++ number_of OPCODE_ENDIF :: l2) + fuel)%nat with (S (length l1 + S (length l2 + fuel))) by (simpl; rewrite length_app; simpl; lia).
    rewrite (skip_step i p t pc s b) by done. destruct (b >? _) eqn:E1; [|lia].
    rewrite (IH1 (pc + 3) (nest + 1)) by (done || lia).
    rewrite (skip_step i p t _ s (number_of OPCODE_ENDIF)); [|rewrite <-Hb2; f_equal; lia|done|lia].
    change (number_of OPCODE_ENDIF >? number_of IF_TYPE_OPCODES) with false. cbv iota. rewrite Z.eqb_refl.
    replace (nest + 1 - 1) with nest by lia. rewrite IH2; [|intros k c Hk; rewrite <-(Hc2 k c Hk); f_equal; lia|done].
    do 2 f_equal. simpl length. rewrite length_app. simpl. lia.
  - apply code_from_cons in Hc as [Hb' [Hc1 Hc]%code_from_app]. apply code_from_cons in Hc as [Hbe [Hc2 Hc]%code_from_app].
    apply code_from_cons in Hc as [Hb3 Hc3]. assert (b ≠ number_of OPCODE_ENDEXRAIL) by (intros ->; done).
    replace (length (b :: l1 ++ number_of OPCODE_ELSE :: l2 ++ number_of OPCODE_ENDIF :: l3) + fuel)%nat
      with (S (length l1 + S (length l2 + S (length l3 + fuel)))) by (simpl; rewrite length_app; simpl; rewrite length_app; simpl; lia).
    rewrite (skip_step i p t pc s b) by done. destruct (b >? _) eqn:E1; [|lia].
    rewrite (IH1 (pc + 3) (nest + 1)) by (done || lia).
    rewrite (skip_step i p t _ s (number_of OPCODE_ELSE)); [|rewrite <-Hbe; f_equal; lia|done|lia].
    change (number_of OPCODE_ELSE >? number_of IF_TYPE_OPCODES) with false. change (number_of OPCODE_ELSE =? number_of OPCODE_ENDIF) with false.
    cbv iota. rewrite Z.eqb_refl. destruct (nest + 1 =? 1) eqn:E2; [lia|].
    rewrite IH2; [|intros k c Hk; rewrite <-(Hc2 k c Hk); f_equal; lia|lia].
    rewrite (skip_step i p t _ s (number_of OPCODE_ENDIF)); [|rewrite <-Hb3; f_equal; lia|done|lia].
    change (number_of OPCODE_ENDIF >? number_of IF_TYPE_OPCODES) with false. cbv iota. rewrite Z.eqb_refl.
    replace (nest + 1 - 1) with nest by lia. rewrite IH3; [|intros k c Hk; rewrite <-(Hc3 k c Hk); f_equal; lia|done].
    do 2 f_equal. simpl length. rewrite length_app. simpl. rewrite length_app. simpl. lia.
Qed.

(** C27. Skipping a block of any nesting: the counter ends on the ELSE of the same
    IF, or on its ENDIF, and nothing else changes. *)
Theorem skip_ends_at_branch (i : Io) (p : ptr) (t : Task) (s : St) (body rest : list Z) (e : Z) :
  block body → e = number_of OPCODE_ELSE ∨ e = number_of OPCODE_ENDIF →
  tasks s !! p = Some t → 0 <= progCounter t → code_from (progCounter t + 3) (body ++ e :: rest) →
  skipIfBlock i p s =
  Some (true, with_tasks (<[p := with_progCounter (progCounter t + 3 * (Z.of_nat (length body) + 1)) t]> (tasks s)) s).
Proof.
  intros Hb He Hp Hpc [Hc Hc']%code_from_app. apply code_from_cons in Hc' as [Hce _].
  assert (s = at_ p t (progCounter t) s) as Hs.
  { unfold at_. destruct t; simpl in *. rewrite insert_id by done. by destruct s. }
  unfold skipIfBlock. rewrite Hs at 1. assert (length body < length RouteCode)%nat as Hlen.
  { unfold code_at in Hce. destruct (_ <? 0) eqn:E; [lia|]. apply lookup_lt_Some in Hce. lia. }
  replace (S (S (length RouteCode))) with (length body + S (S (length RouteCode - length body)))%nat by lia.
  rewrite skip_block by (done || lia). rewrite (skip_step i p t _ s e); [|rewrite <-Hce; f_equal; lia|by destruct He as [-> | ->]|lia].
  assert ((if e >? number_of IF_TYPE_OPCODES then 1 + 1 else if e =? number_of OPCODE_ENDIF then 1 - 1 else
    if e =? number_of OPCODE_ELSE then (if 1 =? 1 then 0 else 1) else 1) = 0) as -> by (by destruct He as [-> | ->]).
  replace (progCounter t + 3 * Z.of_nat (length body) + 3) with (progCounter t + 3 * (Z.of_nat (length body) + 1)) by lia. done.
Qed.
End skip.

(** ** Ending the blinking of a pin *)

Section blink.
Context `{!Config} `{!MotorDriver.MotorDriver.Board} `{!Layout.Layout.Machine} `{!Devices} `{!Program} `{!Garbage}.
Context (i : Io).
Implicit Types (h : gmap ptr Task) (p q r : ptr) (t : Task) (s : St).

Lemma quiet_same {A} (m : M World A) s a s' : emits Station.out no_event m → on_world m s = Some (a, s') → tasks s' = tasks s.
Proof.
  intros Hm. unfold on_world. destruct (m (world s)) as [[b w]|] eqn:E; [|done]. simpl.
  destruct (Hm _ _ _ E) as (l & Hl & F). rewrite Hl, drop_app_length, (deliver_quiet l F). simpl. by intros [= _ <-].
Qed.
Lemma setSpeed_same cab sp s s' : setSpeed i cab sp s = Some (tt, s') → tasks s' = tasks s.
Proof.
  unfold setSpeed, getThrottleDirection, setThrottle, mthen. destruct (on_world _ s) as [[d s1]|] eqn:E1; [|done]. simpl.
  destruct (on_world _ s1) as [[b s2]|] eqn:E2; [|done]. simpl. intros [= <-].
  apply quiet_same in E1; [|apply no_event_dcc; unfold DCC.DCC.getThrottleDirection; apply emits_bind; [apply quiet_speedByte|intros; apply emits_ret]].
  apply quiet_same in E2; [|apply no_event_dcc, quiet_setThrottle]. congruence.
Qed.
Lemma before_loop_inv p fuel : ∀ x s r s', before_loop fuel p x s = Some (r, s') → s' = s ∧ ∃ tr, tasks s !! r = Some tr ∧ next tr = p.
Proof.
  induction fuel as [|fuel IH]; intros x s r s'; [done|]. cbn [before_loop]. unfold mthen, deref.
  destruct (tasks s !! x) as [t|] eqn:Ex; [|done]. simpl. destruct (decide (next t = p)); [intros [= <- <-]; eauto|apply IH].
Qed.
Lemma then_some {A B} (m : M St B) (k : B → M St A) s a s' : mthen m k s = Some (a, s') → ∃ b s1, m s = Some (b, s1) ∧ k b s1 = Some (a, s').
Proof. unfold mthen. destruct (m s) as [[b s1]|]; [|done]. simpl. eauto. Qed.
Lemma deref_some q s t s' : deref q s = Some (t, s') → s' = s ∧ tasks s !! q = Some t.
Proof. unfold deref. destruct (tasks s !! q); [|done]. by intros [= <- <-]. Qed.
(** What the end of a task leaves of the tasks. *)
Lemma kill_inv q s s' : kill i q s = Some (tt, s') → ∃ tq, tasks s !! q = Some tq ∧
  ((next tq = q ∧ tasks s' = base.delete q (tasks s)) ∨
   ∃ r tr, next tq ≠ q ∧ tasks s !! r = Some tr ∧ next tr = q ∧ tasks s' = base.delete q (<[r := with_next (next tq) tr]> (tasks s))).
Proof.
  unfold kill, delete. intros (tq & s0 & [-> Hq]%deref_some & Hk)%then_some. exists tq. split; [done|].
  apply then_some in Hk as ([] & s1 & Hspeed & Hk). assert (tasks s1 = tasks s) as T1.
  { destruct (_ && _); [by eapply setSpeed_same|by injection Hspeed as <-]. }
  apply then_some in Hk as (b & s2 & Hflag & Hk). destruct (setFlag_core _ _ _ _ _ _ Hflag) as (T2 & _).
  apply then_some in Hk as (t2 & s3 & [-> Hq2]%deref_some & Hk). rewrite T2, T1, Hq in Hq2. injection Hq2 as <-.
  apply then_some in Hk as ([] & s4 & Hlink & [= <-]). simpl. destruct (decide (next tq = q)) as [Hn|Hn].
  - injection Hlink as <-. left. split; [done|]. simpl. congruence.
  - right. apply then_some in Hlink as (fuel & s5 & [= <- <-] & Hlink). apply then_some in Hlink as (r & s6 & Hb & Hlink).
    apply before_loop_inv in Hb as (-> & tr & Hr & Hnr). exists r, tr. rewrite T2, T1 in Hr. split_and!; [done..|].
    apply then_some in Hlink as ([] & s7 & Hup & [= <-]). simpl. unfold update in Hup. rewrite T2, T1, Hr in Hup. simpl in Hup.
    injection Hup as <-. done.
Qed.

(** [p] is gone, and nothing leads to it. *)
Definition unreached p h : Prop := h !! p = None ∧ ∀ z tz, h !! z = Some tz → next tz ≠ p.
Lemma unreached_kill p q s s' : unreached p (tasks s) → kill i q s = Some (tt, s') → unreached p (tasks s').
Proof.
  intros [Hp Hl] (tq & Hq & [[_ ->]|(r & tr & _ & Hr & _ & ->)])%kill_inv.
  - split; [by rewrite lookup_delete_None; right|]. intros z tz [_ Hz]%lookup_delete_Some. by eapply Hl.
  - split; [rewrite lookup_delete_None; right; rewrite lookup_insert_ne; [done|congruence]|].
    intros z tz [_ Hz]%lookup_delete_Some. apply lookup_insert_Some in Hz as [[<- <-]|[_ Hz]]; [|by eapply Hl]. simpl. by eapply Hl.
Qed.
Lemma kill_blink_stuck pin last p : ∀ fuel q s, unreached p (tasks s) → kill_blink_loop i fuel pin last p q s = None.
Proof.
  induction fuel as [|fuel IH]; intros q s Hu; [done|]. cbn [kill_blink_loop].
  destruct (mthen _ _ s) as [[[] s']|] eqn:E; [|done]. exfalso. apply then_some in E as (t & s0 & [-> Hq]%deref_some & E).
  apply then_some in E as ([] & s1 & Hk & E). assert (unreached p (tasks s1)) as Hu1.
  { destruct (blinks _ _ _); [by eapply unreached_kill|by injection Hk as <-]. }
  destruct Hu as [_ Hl]. rewrite decide_False in E by by eapply Hl. by rewrite IH in E.
Qed.

(** Where the task that the loop looks at next is one that blinks a pin
    which is set, and there is another task, the search for tasks to end goes on
    for ever: it waits to be back at a task that it has deleted. *)
Lemma blink_kill_never_ends (pin count : Z) (s : St) (p : ptr) (t : Task) (l : list ptr) :
  tru (compileFeatures .& FEATURE_BLINK) = true → loopTask s = Some p → tasks s !! p = Some t → ring_at (tasks s) p l → l ≠ [] →
  blinks (u16 pin) (u16 (u16 pin + u16 count - 1)) t = true →
  killBlinkOnVpin i pin count s = None ∧ ∀ fuel, kill_blink_loop i fuel (u16 pin) (u16 (u16 pin + u16 count - 1)) p p s = None.
Proof.
  intros Hf Hl Hp R Hne Hb. assert (∀ fuel, kill_blink_loop i fuel (u16 pin) (u16 (u16 pin + u16 count - 1)) p p s = None) as Hloop.
  { intros [|fuel]; [done|]. cbn [kill_blink_loop]. destruct (mthen _ _ s) as [[[] s']|] eqn:E; [|done]. exfalso.
    apply then_some in E as (t' & s0 & [-> Hp']%deref_some & E). rewrite Hp in Hp'. injection Hp' as <-.
    apply then_some in E as ([] & s1 & Hk & E). rewrite Hb in Hk. destruct l as [|q l]; [done|].
    pose proof (ring_next _ _ _ _ R Hp) as [Hn _]. pose proof (r_nodup _ _ _ R) as [Hpl _]%NoDup_cons.
    assert (q ≠ p) as Hqp by (intros ->; apply Hpl; by left). rewrite Hn, decide_False in E by done.
    destruct (ring_before _ _ _ _ _ R Hp) as (r & tr & _ & Hr & Hrp & Huniq & _).
    assert (unreached p (tasks s1)) as Hu.
    { apply kill_inv in Hk as (tp & Hp2 & Hk). rewrite Hp in Hp2. injection Hp2 as <-.
      destruct Hk as [[Hn' _]|(r' & tr' & _ & Hr' & Hrp' & ->)]; [congruence|]. assert (r' = r) as -> by (by eapply Huniq). split; [apply lookup_delete_eq|].
      intros z tz [_ Hz]%lookup_delete_Some. apply lookup_insert_Some in Hz as [[<- <-]|[Hzr Hz]]; [simpl; congruence|].
      intros Hzp. apply Hzr. symmetry. by eapply Huniq. }
    by rewrite kill_blink_stuck in E. }
  split; [|done]. unfold killBlinkOnVpin. rewrite Hf. unfold mthen, mget. cbn [negb mbind option_bind]. rewrite Hl. apply Hloop.
Qed.
End blink.

(** ** Any sequence of calls *)

Section calls.
Context `{!Config} `{!MotorDriver.MotorDriver.Board} `{!Layout.Layout.Machine} `{!Devices} `{!Program} `{!Garbage}.

(** What the rest of the program calls: the share of the main loop, the filter of
    commands, the start of a route, the news of a pin or a block, and any
    operation of the station, whose events EXRAIL hears. *)
Inductive call :=
  | Loop (i : Io)
  | Command (i : Io) (stream opcode paramCount : Z) (pl : list Z)
  | CreateTask (route cab : Z)
  | Change (vpin : Z)
  | Block (block loco : Z) (entering : bool)
  | Operate (m : M World unit).
Definition run_call (c : call) : M St unit :=
  match c with
  | Loop i => loop i
  | Command i stream opcode paramCount pl => ComandFilter i stream opcode paramCount pl ;;; mreturn tt
  | CreateTask route cab => createNewTask route cab
  | Change vpin => changeEvent vpin true
  | Block b loco entering => blockEvent b loco entering
  | Operate m => on_world m
  end.
(** Operations of the station that keep its own invariant. *)
Definition call_ok (n : Z) (c : call) : Prop := match c with Operate m => fine n m | _ => True end.

Lemma sound_call n (i : Io) c : MAX_LOCOS < 65536 → 0 <= n → well_formed n = true → no_blink = true → call_ok n c →
  ExrailProps.sound n (λ _, True) (run_call c).
Proof using All.
  intros Hmax Hn Hwf Hb Hc. assert (∀ id : Z, (λ _, True) id) as Hids by done. destruct c; simpl in *.
  - by apply sound_loop.
  - apply sound_bind; [by apply sound_filter|intros; apply sound_ret].
  - by apply (sound_createNewTask Hmax n Hn _ Hids i).
  - apply (sound_kept n _ (λ _, True)). by apply kept_event.
  - apply (sound_kept n _ (λ _, True)). unfold blockEvent. destruct (tru (compileFeatures .& FEATURE_BLOCK)) eqn:Ef; [|by apply kept_ret].
    apply kept_event. by destruct entering.
  - apply (sound_kept n _ (λ _, True)). by apply kept_world.
Qed.

End calls.

(** ** Witnesses *)

Section witnesses.
#[local] Existing Instance TrackProps.TrackProps.a_board.
#[local] Existing Instance CommandsProps.two_locos.
#[local] Existing Instance CommandsProps.mega.
#[local] Existing Instance CommandsProps.no_devices.

Definition instr (o : OPCODE) (v : Z) : list Z := [number_of o; u16 v mod 256; u16 v / 256].
Definition a_program (code : list (list Z)) (features : Z) : Program :=
  {| RouteCode := concat code; SignalDefinitions := []; compileFeatures := features; message _ := NoMessage; turnoutHidden _ := None;
     turntableHidden _ := None; getRouteDescription _ := EmptyString; countLCCLookup := 0; serialThere _ := false; lcnThere := false |}.
Definition no_garbage : Garbage := {| garbage_un _ := 0; garbage_pauseSpeed _ := 0 |}.
#[local] Existing Instance no_garbage.
Definition an_io : Io := mkIo CommandsProps.some_inputs 0 (λ _, 1) (λ _, 0) (λ _, false).

(** A train that reserves a block, runs one of two sequences by a sensor, and ends. *)
Definition trains : Program := a_program [
  instr OPCODE_AUTOSTART 0; instr OPCODE_SETLOCO 3; instr OPCODE_RESERVE 1; instr OPCODE_FWD 20;
  instr OPCODE_IF 30; instr OPCODE_IFNOT 31; instr OPCODE_START 8; instr OPCODE_ELSE 0; instr OPCODE_START 7; instr OPCODE_ENDIF 0;
  instr OPCODE_ELSE 0; instr OPCODE_START 8; instr OPCODE_ENDIF 0;
  instr OPCODE_FREE 1; instr OPCODE_ENDTASK 0;
  instr OPCODE_SEQUENCE 7; instr OPCODE_DELAY 5; instr OPCODE_ENDTASK 0;
  instr OPCODE_SEQUENCE 8; instr OPCODE_SET 5; instr OPCODE_PAD 2; instr OPCODE_ENDTASK 0; instr OPCODE_ENDEXRAIL 0] 0.
(** Nine turns, </ START 8>, an emergency stop and another turn. *)
Definition some_calls : list call :=
  replicate 9 (Loop an_io) ++ [Command an_io 0 47 2 [Keywords.hk "START"; 8]; Operate (on_dcc DCC.DCC.estopAll); Loop an_io].
(** Two tasks: one blinks pin 32, and looks to the other. *)
Definition blinking : Program := a_program [instr OPCODE_ENDEXRAIL 0] FEATURE_BLINK.
Definition blink_task (next : ptr) (pin : Z) (state : BlinkState) : Task := mkTask next 0 0 0 pin 0 state 0 false 0 (-1) 0 [0; 0; 0; 0].
Definition two_tasks : gmap ptr Task := {[1%positive := blink_task 2 32 blink_high; 2%positive := blink_task 1 0 not_blink_task]}.
Lemma two_tasks_ring : ring_at two_tasks 1%positive [2%positive].
Proof.
  split.
  - split; [done|]. exists (blink_task 2 32 blink_high). split; [done|]. split; [done|]. by exists (blink_task 1 0 not_blink_task).
  - by repeat constructor; set_solver.
  - intros q. unfold two_tasks. destruct (decide (q = 1%positive)) as [->|K1]; [split; [by left|by eexists]|].
    destruct (decide (q = 2%positive)) as [->|K2]; [split; [by right; left|by eexists]|].
    rewrite lookup_insert_ne, lookup_singleton_ne by done. split; [by intros [??]|]. by intros [->|[->|?%elem_of_nil]%elem_of_cons]%elem_of_cons.
Qed.

Section witness.
#[local] Existing Instance trains.
(** The IF at place 12, whose block has an IF with an ELSE of its own. *)
Definition at_if : St := with_tasks {[1%positive := with_progCounter 12 (blink_task 1 0 not_blink_task)]} (init CommandsProps.a_world).
Lemma skip_ends_at_branch_witness : skipIfBlock an_io 1%positive at_if =
  Some (true, with_tasks (<[1%positive := with_progCounter 30 (with_progCounter 12 (blink_task 1 0 not_blink_task))]> (tasks at_if)) at_if).
Proof.
  apply (skip_ends_at_branch an_io 1%positive (with_progCounter 12 (blink_task 1 0 not_blink_task)) at_if
    [148; 57; 27; 57; 26] [57; 26] 27); [|by left|done|done|].
  - apply (block_if_else 148 [57] [57] []); [done|apply block_plain; [by split_and!|constructor]..|constructor].
  - intros k b Hk. do 8 (destruct k as [|k]; [by injection Hk as <-|]). done.
Defined.
End witness.

Section witness.
#[local] Existing Instance blinking.
Definition blink_state : St := with_loopTask (Some 1%positive) (with_tasks two_tasks (init CommandsProps.a_world)).
Lemma blink_kill_never_ends_witness : killBlinkOnVpin an_io 32 1 blink_state = None ∧
  ∀ fuel, kill_blink_loop an_io fuel (u16 32) (u16 (u16 32 + u16 1 - 1)) 1%positive 1%positive blink_state = None.
Proof.
  apply (blink_kill_never_ends an_io 32 1 blink_state 1%positive (blink_task 2 32 blink_high) [2%positive]); [done..|apply two_tasks_ring|done|done].
Defined.
End witness.
End witnesses.
End ExrailTheorems.
