(* ===== verification/ExrailMacros.v ===== *)
(** The automation macros (EXRAIL2MacroBase.h, EXRAILMacros.h, EXRAILAsserts.h): a
    script is the list of the macros of myAutomation.h, and each time that file is
    included with another meaning of the macros is a function of that list.
    ALIAS, HAL, STEALTH and ZTEST, which put C++ code of the user into the
    program, are not modelled. *)

From S2P Require Import Prelude Exrail ExrailRun.
From stdpp Require Import strings.

#[local] Open Scope Z_scope.
#[local] Open Scope c_scope.

Module ExrailMacros.
Import Exrail ExrailRun.

(** The macros.  Names of tracks, modes, profiles and activities stand for their
    numbers; an argument that may be left out is an option. *)
Inductive Macro :=
  | ACTIVATE (addr subaddr : Z)
  | ACTIVATEL (addr : Z)
  | AFTER (sensor_id : Z) (timer : option Z)
  | AFTEROVERLOAD (track_id : Z)
  | AMBER (signal_id : Z)
  | ANOUT (vpin value param1 param2 : Z)
  | ASPECT (address value : Z)
  | AT (sensor_id : Z)
  | ATGTE (sensor_id value : Z)
  | ATLT (sensor_id value : Z)
  | ATTIMEOUT (sensor_id timeout : Z)
  | AUTOMATION (id : Z) (description : string)
  | AUTOSTART
  | BLINK (vpin onDuty offDuty : Z)
  | BUILD_CONSIST (addloco : Z)
  | BREAK_CONSIST
  | BROADCAST (msg : list Z)
  | CALL (route : Z)
  | CLEAR_STASH (id : Z)
  | CLEAR_ALL_STASH
  | CLEAR_ANY_STASH
  | CLOSE (id : Z)
  | CONFIGURE_SERVO (vpin pos1 pos2 profile : Z)
  | DCC_TURNTABLE (id home : Z) (description : string)
  | DEACTIVATE (addr subaddr : Z)
  | DEACTIVATEL (addr : Z)
  | DELAY (ms : Z)
  | DELAYMINS (mindelay : Z)
  | DELAYRANDOM (mindelay maxdelay : Z)
  | DCC_SIGNAL (id add subaddr : Z)
  | DCCX_SIGNAL (id redAspect amberAspect greenAspect : Z)
  | DONE
  | DRIVE (analogpin : Z)
  | ELSE
  | ENDEXRAIL
  | ENDIF
  | ENDTASK
  | ESTOP
  | ESTOPALL
  | ESTOP_PAUSE
  | ESTOP_RESUME
  | EXRAIL
  | EXTT_TURNTABLE (id vpin home : Z) (description : string)
  | FADE (pin value ms : Z)
  | FOFF (func : Z)
  | FOLLOW (route : Z)
  | FON (func : Z)
  | FORGET
  | FREE (blockid : Z)
  | FREEALL
  | FTOGGLE (func : Z)
  | FWD (speed : Z)
  | GREEN (signal_id : Z)
  | IF (sensor_id : Z)
  | IFAMBER (signal_id : Z)
  | IFCLOSED (turnout_id : Z)
  | IFGREEN (signal_id : Z)
  | IFGTE (sensor_id value : Z)
  | IFLOCO (loco_list : list Z)
  | IF_ALL (vpinlist : list Z)
  | IF_ANY (vpinlist : list Z)
  | IFLT (sensor_id value : Z)
  | IFNOT (sensor_id : Z)
  | IFRANDOM (percent : Z)
  | IFRED (signal_id : Z)
  | IFRESERVE (block : Z)
  | IFROUTE_ACTIVE (sequence_id : Z)
  | IFROUTE_INACTIVE (sequence_id : Z)
  | IFROUTE_HIDDEN (sequence_id : Z)
  | IFROUTE_DISABLED (sequence_id : Z)
  | IFSTASH (stash_id : Z)
  | IFSTASHED_HERE (stash_id : Z)
  | IFTHROWN (turnout_id : Z)
  | IFTIMEOUT
  | IFTTPOSITION (id position : Z)
  | IFRE (sensor_id value : Z)
  | IFBITMAP_ALL (vpin mask : Z)
  | IFBITMAP_ANY (vpin mask : Z)
  | INVERT_DIRECTION
  | JMRI_SENSOR (vpin : Z) (count : option Z)
  | JMRI_SENSOR_NOPULLUP (vpin : Z) (count : option Z)
  | JOIN
  | KILLALL
  | LATCH (sensor_id : Z)
  | LCC (eventid : Z)
  | LCCX (sender event : Z)
  | ACON (eventid : Z)
  | ACOF (eventid : Z)
  | ONACON (eventid : Z)
  | ONACOF (eventid : Z)
  | LCD (id : Z) (msg : list Z)
  | SCREEN (display id : Z) (msg : list Z)
  | LCN (msg : list Z)
  | MESSAGE (msg : list Z)
  | MOMENTUM (accel : Z) (decel : option Z)
  | MOVETT (id steps activity : Z)
  | NEOPIXEL (id r g b : Z) (count : option Z)
  | NEOPIXEL_SIGNAL (sigid redcolour ambercolour greencolour : Z)
  | ONACTIVATE (addr subaddr : Z)
  | ONACTIVATEL (linear : Z)
  | ONAMBER (signal_id : Z)
  | ONBLOCKENTER (block_id : Z)
  | ONBLOCKEXIT (block_id : Z)
  | ONCLOSE (turnout_id : Z)
  | ONLCC (sender event : Z)
  | ONTIME (value : Z)
  | ONCLOCKTIME (hours mins : Z)
  | ONCLOCKMINS (mins : Z)
  | ONOVERLOAD (track_id : Z)
  | ONRAILSYNCON
  | ONRAILSYNCOFF
  | ONDEACTIVATE (addr subaddr : Z)
  | ONDEACTIVATEL (linear : Z)
  | ONGREEN (signal_id : Z)
  | ONRED (signal_id : Z)
  | ONROTATE (id : Z)
  | ONTHROW (turnout_id : Z)
  | ONCHANGE (sensor_id : Z)
  | ONSENSOR (sensor_id : Z)
  | ONBITMAP (sensor_id : Z)
  | ONBUTTON (sensor_id : Z)
  | PAUSE
  | PICKUP_STASH (id : Z)
  | PIN_TURNOUT (id pin : Z) (description : string)
  | PLAY_EQ (vpin eqname : Z)
  | PLAY_FOLDER (vpin folder : Z)
  | PLAY_PAUSE (vpin : Z)
  | PLAY_REPEAT (vpin track : Z) (volume : option Z)
  | PLAY_RESET (vpin : Z)
  | PLAY_RESUME (vpin : Z)
  | PLAY_STOP (vpin : Z)
  | PLAY_TRACK (vpin track : Z) (volume : option Z)
  | PLAY_VOLUME (vpin volume : Z)
  | POM (cv value : Z)
  | POWEROFF
  | POWERON
  | PRINT (msg : list Z)
  | PARSE (msg : list Z)
  | RANDOM_CALL (sequences : list Z)
  | RANDOM_FOLLOW (sequences : list Z)
  | READ_LOCO
  | RED (signal_id : Z)
  | RESERVE (blockid : Z)
  | RESET (pin : Z) (count : option Z)
  | RESUME
  | RETURN
  | REV (speed : Z)
  | ROSTER (cabid : Z) (name funcmap : string)
  | ROTATE (id position activity : Z)
  | ROTATE_DCC (id position : Z)
  | ROUTE (id : Z) (description : string)
  | ROUTE_ACTIVE (id : Z)
  | ROUTE_INACTIVE (id : Z)
  | ROUTE_HIDDEN (id : Z)
  | ROUTE_DISABLED (id : Z)
  | ROUTE_CAPTION (id : Z) (caption : string)
  | SAVE_SPEED
  | RESTORE_SPEED
  | SENDLOCO (cab route : Z)
  | SEQUENCE (id : Z)
  | SERIAL (msg : list Z)
  | SERIAL1 (msg : list Z)
  | SERIAL2 (msg : list Z)
  | SERIAL3 (msg : list Z)
  | SERIAL4 (msg : list Z)
  | SERIAL5 (msg : list Z)
  | SERIAL6 (msg : list Z)
  | SERVO (id position profile : Z)
  | SERVO2 (id position ms : Z)
  | SERVO_SIGNAL (vpin redpos amberpos greenpos : Z)
  | SERVO_TURNOUT (id pin activeAngle inactiveAngle profile : Z) (description : string)
  | SET (pin : Z) (count : option Z)
  | SET_TRACK (track mode : Z)
  | SET_POWER (track onoff : Z)
  | SETLOCO (loco : Z)
  | SETFREQ (freq : Z)
  | SIGNAL (redpin amberpin greenpin : Z)
  | SIGNALH (redpin amberpin greenpin : Z)
  | SPEED (speed : Z)
  | SPEEDUP (speedstep : Z)
  | SPEED_REL (percent : Z)
  | SLOWDOWN (speedstep : Z)
  | START (route : Z)
  | START_SHARED (route : Z)
  | START_SEND (route : Z)
  | STASH (id : Z)
  | STOP
  | THROW (id : Z)
  | TOGGLE_TURNOUT (id : Z)
  | TT_ADDPOSITION (id position value angle : Z) (description : string)
  | TURNOUT (id addr subaddr : Z) (description : string)
  | TURNOUTL (id addr : Z) (description : string)
  | UNJOIN
  | UNLATCH (sensor_id : Z)
  | VIRTUAL_SIGNAL (id : Z)
  | VIRTUAL_TURNOUT (id : Z) (description : string)
  | BITMAP_AND (vpin mask : Z)
  | BITMAP_INC (vpin : Z)
  | BITMAP_DEC (vpin : Z)
  | BITMAP_OR (vpin mask : Z)
  | BITMAP_SET (vpin value : Z)
  | BITMAP_XOR (vpin mask : Z)
  | WITHROTTLE (msg : list Z)
  | WAITFOR (pin : Z)
  | WAITFORTT (turntable_id : Z)
  | WAIT_WHILE_RED (signal_id : Z)
  | XFOFF (cab func : Z)
  | XFON (cab func : Z)
  | XFTOGGLE (cab func : Z)
  | XFWD (cab speed : Z)
  | XREV (cab speed : Z)
  | XPOM (cab cv value : Z)
  | XSAVE_SPEED (cab : Z)
  | XRESTORE_SPEED (cab : Z).
Definition Script := list Macro.

(** ** The code *)

(** An operand, low byte first. *)
Definition V (val : Z) : list Z := [u8 (i16 val .& 0x00FF); u8 ((i16 val >>' 8) .& 0x00FF)].
Definition op (o : OPCODE) (val : Z) : list Z := number_of o :: V val.
Definition op0 (o : OPCODE) : list Z := [number_of o; 0; 0].

(** PCA9685::ProfileType and the commands of DFPlayerBase. *)
Definition Instant : Z := 0.
Definition UseDuration : Z := 0.
Definition NoPowerOff : Z := 0x80.
Definition DF_PLAY : Z := 0x0F.
Definition DF_STOPPLAY : Z := 0x16.
Definition DF_REPEATPLAY : Z := 0x11.
Definition DF_FOLDER : Z := 0x17.
Definition DF_VOL : Z := 0x06.
Definition DF_EQ : Z := 0x07.
Definition DF_RESET : Z := 0x0C.
Definition DF_PAUSE : Z := 0x0E.
Definition DF_RESUME : Z := 0x0D.

(** [10##value%100] *)
Definition STRIP_ZERO (value : Z) : Z := value mod 100.
(** ANOUT, DELAY, ONCLOCKTIME and TURNOUT, which other macros expand to. *)
Definition anout (vpin value param1 param2 : Z) : list Z :=
  op OPCODE_SERVO vpin ++ op OPCODE_PAD value ++ op OPCODE_PAD param1 ++ op OPCODE_PAD param2.
Definition delay (ms : Z) : list Z :=
  op (if ms <? 30000 then OPCODE_DELAYMS else OPCODE_DELAY) (ms ÷ (if ms <? 30000 then 1 else 100)).
Definition clock_time (hours mins : Z) : list Z := op OPCODE_ONTIME (STRIP_ZERO hours * 60 + STRIP_ZERO mins).
Definition turnout (id addr subaddr : Z) : list Z :=
  op OPCODE_TURNOUT id ++ op OPCODE_PAD addr ++ op OPCODE_PAD subaddr.
(** The sender of LCCX and ONLCC in three words, the event of ACON and the like in two. *)
Definition sender_words (sender : Z) : list Z :=
  op OPCODE_PAD ((sender >>' 32) .& 0xFFFF) ++ op OPCODE_PAD ((sender >>' 16) .& 0xFFFF) ++ op OPCODE_PAD (sender .& 0xFFFF).
Definition event (o : OPCODE) (eventid : Z) : list Z :=
  op o ((u32 eventid >>' 16) .& 0xFFFF) ++ op OPCODE_PAD (eventid .& 0xFFFF).

(** What each macro puts into RouteCode, in the parts of the alphabet from PAUSE on,
    the ON macros, INVERT_DIRECTION to NEOPIXEL, the IF macros and the ones
    before.  [counter] is __COUNTER__ - StringMacroTracker2. *)
Definition code_rest (counter : Z) (m : Macro) : list Z :=
  match m with
  | PAUSE => op0 OPCODE_PAUSE
  | PICKUP_STASH id => op OPCODE_PICKUP_STASH id
  | PIN_TURNOUT id pin _ => op OPCODE_PINTURNOUT id ++ op OPCODE_PAD pin
  | PLAY_EQ vpin eqname => anout vpin 0 eqname DF_EQ
  | PLAY_FOLDER vpin folder => anout vpin 0 folder DF_FOLDER
  | PLAY_PAUSE vpin => anout vpin 0 0 DF_PAUSE
  | PLAY_REPEAT vpin track volume => anout vpin track (default 0 volume) DF_REPEATPLAY
  | PLAY_RESET vpin => anout vpin 0 0 DF_RESET
  | PLAY_RESUME vpin => anout vpin 0 0 DF_RESUME
  | PLAY_STOP vpin => anout vpin 0 0 DF_STOPPLAY
  | PLAY_TRACK vpin track volume => anout vpin track (default 0 volume) DF_PLAY
  | PLAY_VOLUME vpin volume => anout vpin 0 volume DF_VOL
  | POM cv value => op OPCODE_POM cv ++ op OPCODE_PAD value
  | POWEROFF => op0 OPCODE_POWEROFF
  | POWERON => op0 OPCODE_POWERON
  | PRINT _ => op OPCODE_PRINT counter
  | PARSE _ => op OPCODE_PRINT counter
  | RANDOM_CALL sequences => op OPCODE_RANDOM_CALL (Z.of_nat (length sequences)) ++ concat (map (op OPCODE_CALL)
      sequences)
  | RANDOM_FOLLOW sequences => op OPCODE_RANDOM_FOLLOW (Z.of_nat (length sequences)) ++ concat (map (op OPCODE_CALL)
      sequences)
  | READ_LOCO => op0 OPCODE_READ_LOCO1 ++ op0 OPCODE_READ_LOCO2
  | RED signal_id => op OPCODE_RED signal_id
  | RESERVE blockid => op OPCODE_RESERVE blockid
  | RESET pin count => op OPCODE_RESET pin ++ op OPCODE_PAD (default 1 count)
  | RESUME => op0 OPCODE_RESUME
  | RETURN => op0 OPCODE_RETURN
  | REV speed => op OPCODE_REV speed
  | ROTATE id position activity => op OPCODE_ROTATE id ++ op OPCODE_PAD position ++ op OPCODE_PAD activity
  | ROTATE_DCC id position => op OPCODE_ROTATE id ++ op OPCODE_PAD position ++ op OPCODE_PAD 0
  | ROUTE id _ => op OPCODE_ROUTE id
  | ROUTE_ACTIVE id => op OPCODE_ROUTE_ACTIVE id
  | ROUTE_INACTIVE id => op OPCODE_ROUTE_INACTIVE id
  | ROUTE_HIDDEN id => op OPCODE_ROUTE_HIDDEN id
  | ROUTE_DISABLED id => op OPCODE_ROUTE_DISABLED id
  | ROUTE_CAPTION _ _ => op OPCODE_PRINT counter
  | SAVE_SPEED => op OPCODE_SAVE_SPEED 0
  | RESTORE_SPEED => op OPCODE_RESTORE_SPEED 0
  | SENDLOCO cab route => op OPCODE_SENDLOCO cab ++ op OPCODE_PAD route
  | SEQUENCE id => op OPCODE_SEQUENCE id
  | SERIAL _ => op OPCODE_PRINT counter
  | SERIAL1 _ => op OPCODE_PRINT counter
  | SERIAL2 _ => op OPCODE_PRINT counter
  | SERIAL3 _ => op OPCODE_PRINT counter
  | SERIAL4 _ => op OPCODE_PRINT counter
  | SERIAL5 _ => op OPCODE_PRINT counter
  | SERIAL6 _ => op OPCODE_PRINT counter
  | SERVO id position profile => op OPCODE_SERVO id ++ op OPCODE_PAD position ++ op OPCODE_PAD profile ++ op
      OPCODE_PAD 0
  | SERVO2 id position ms => op OPCODE_SERVO id ++ op OPCODE_PAD position ++ op OPCODE_PAD Instant ++ op OPCODE_PAD
      (ms ÷ 100)
  | SERVO_TURNOUT id pin activeAngle inactiveAngle profile _ => op OPCODE_SERVOTURNOUT id ++ op OPCODE_PAD pin ++ op
      OPCODE_PAD activeAngle ++ op OPCODE_PAD inactiveAngle ++ op OPCODE_PAD profile
  | SET pin count => op OPCODE_SET pin ++ op OPCODE_PAD (default 1 count)
  | SET_TRACK track mode => op OPCODE_SET_TRACK (mode <<' 8 .| track)
  | SET_POWER track onoff => op OPCODE_SET_POWER onoff ++ op OPCODE_PAD track
  | SETLOCO loco => op OPCODE_SETLOCO loco
  | SETFREQ freq => op OPCODE_SETFREQ freq
  | SPEED speed => op OPCODE_SPEED speed
  | SPEEDUP speedstep => op OPCODE_SPEEDUP speedstep
  | SPEED_REL percent => op OPCODE_SPEED_REL percent
  | SLOWDOWN speedstep => op OPCODE_SLOWDOWN speedstep
  | START route => op OPCODE_START route
  | START_SHARED route => op OPCODE_START_SHARED route
  | START_SEND route => op OPCODE_START_SEND route
  | STASH id => op OPCODE_STASH id
  | STOP => op OPCODE_SPEED 0
  | THROW id => op OPCODE_THROW id
  | TOGGLE_TURNOUT id => op OPCODE_TOGGLE_TURNOUT id
  | TT_ADDPOSITION id position value angle _ => op OPCODE_TTADDPOSITION id ++ op OPCODE_PAD position ++ op
      OPCODE_PAD value ++ op OPCODE_PAD angle
  | TURNOUT id addr subaddr _ => turnout id addr subaddr
  | TURNOUTL id addr _ => turnout id ((addr - 1) ÷ 4 + 1) (Z.rem (addr - 1) 4)
  | UNJOIN => op0 OPCODE_UNJOIN
  | UNLATCH sensor_id => op OPCODE_UNLATCH sensor_id
  | VIRTUAL_TURNOUT id _ => op OPCODE_PINTURNOUT id ++ op OPCODE_PAD 0
  | BITMAP_AND vpin mask => op OPCODE_BITMAP_AND vpin ++ op OPCODE_PAD mask
  | BITMAP_INC vpin => op OPCODE_BITMAP_INC vpin
  | BITMAP_DEC vpin => op OPCODE_BITMAP_DEC vpin
  | BITMAP_OR vpin mask => op OPCODE_BITMAP_OR vpin ++ op OPCODE_PAD mask
  | BITMAP_SET vpin value => anout vpin value 0 0
  | BITMAP_XOR vpin mask => op OPCODE_BITMAP_XOR vpin ++ op OPCODE_PAD mask
  | WITHROTTLE _ => op OPCODE_PRINT counter
  | WAITFOR pin => op OPCODE_WAITFOR pin
  | WAITFORTT turntable_id => op OPCODE_WAITFORTT turntable_id
  | WAIT_WHILE_RED signal_id => op OPCODE_WAIT_WHILE_RED signal_id
  | XFOFF cab func => op OPCODE_XFOFF cab ++ op OPCODE_PAD func
  | XFON cab func => op OPCODE_XFON cab ++ op OPCODE_PAD func
  | XFTOGGLE cab func => op OPCODE_XFTOGGLE cab ++ op OPCODE_PAD func
  | XFWD cab speed => op OPCODE_XFWD cab ++ op OPCODE_PAD speed
  | XREV cab speed => op OPCODE_XREV cab ++ op OPCODE_PAD speed
  | XPOM cab cv value => op OPCODE_XPOM cab ++ op OPCODE_PAD cv ++ op OPCODE_PAD value
  | XSAVE_SPEED cab => op OPCODE_XSAVE_SPEED cab
  | XRESTORE_SPEED cab => op OPCODE_XRESTORE_SPEED cab
  | _ => []
  end.
Definition code_on (counter : Z) (m : Macro) : list Z :=
  match m with
  | ONACON eventid => event OPCODE_ONACON eventid
  | ONACOF eventid => event OPCODE_ONACOF eventid
  | LCD _ _ => op OPCODE_PRINT counter
  | SCREEN _ _ _ => op OPCODE_PRINT counter
  | LCN _ => op OPCODE_PRINT counter
  | MESSAGE _ => op OPCODE_PRINT counter
  | MOMENTUM accel decel => op OPCODE_MOMENTUM accel ++ op OPCODE_PAD (default accel decel)
  | MOVETT id steps activity => op OPCODE_SERVO id ++ op OPCODE_PAD steps ++ op OPCODE_PAD activity ++ op OPCODE_PAD
      0
  | NEOPIXEL id r g b count => op OPCODE_NEOPIXEL id ++ op OPCODE_PAD ((r .& 0xff) <<' 8 .| (g .& 0xff)) ++ op
      OPCODE_PAD (b .& 0xff) ++ op OPCODE_PAD (default 1 count)
  | ONACTIVATE addr subaddr => op OPCODE_ONACTIVATE (addr <<' 2 .| subaddr)
  | ONACTIVATEL linear => op OPCODE_ONACTIVATE (linear + 3)
  | ONAMBER signal_id => op OPCODE_ONAMBER signal_id
  | ONBLOCKENTER block_id => op OPCODE_ONBLOCKENTER block_id
  | ONBLOCKEXIT block_id => op OPCODE_ONBLOCKEXIT block_id
  | ONCLOSE turnout_id => op OPCODE_ONCLOSE turnout_id
  | ONLCC sender event => op OPCODE_ONLCC event ++ sender_words sender
  | ONTIME value => op OPCODE_ONTIME value
  | ONCLOCKTIME hours mins => clock_time hours mins
  | ONCLOCKMINS mins => clock_time 25 mins
  | ONOVERLOAD track_id => op OPCODE_ONOVERLOAD track_id
  | ONRAILSYNCON => op0 OPCODE_ONRAILSYNCON
  | ONRAILSYNCOFF => op0 OPCODE_ONRAILSYNCOFF
  | ONDEACTIVATE addr subaddr => op OPCODE_ONDEACTIVATE (addr <<' 2 .| subaddr)
  | ONDEACTIVATEL linear => op OPCODE_ONDEACTIVATE (linear + 3)
  | ONGREEN signal_id => op OPCODE_ONGREEN signal_id
  | ONRED signal_id => op OPCODE_ONRED signal_id
  | ONROTATE id => op OPCODE_ONROTATE id
  | ONTHROW turnout_id => op OPCODE_ONTHROW turnout_id
  | ONCHANGE sensor_id => op OPCODE_ONCHANGE sensor_id
  | ONSENSOR sensor_id => op OPCODE_ONSENSOR sensor_id
  | ONBITMAP sensor_id => op OPCODE_ONBITMAP sensor_id
  | ONBUTTON sensor_id => op OPCODE_ONBUTTON sensor_id
  | _ => code_rest counter m
  end.
Definition code_to_on (counter : Z) (m : Macro) : list Z :=
  match m with
  | INVERT_DIRECTION => op0 OPCODE_INVERT_DIRECTION
  | JOIN => op0 OPCODE_JOIN
  | KILLALL => op0 OPCODE_KILLALL
  | LATCH sensor_id => op OPCODE_LATCH sensor_id
  | LCC eventid => op OPCODE_LCC eventid
  | LCCX sender event => op OPCODE_LCCX event ++ sender_words sender
  | ACON eventid => event OPCODE_ACON eventid
  | ACOF eventid => event OPCODE_ACOF eventid
  | _ => code_on counter m
  end.
Definition code_if (counter : Z) (m : Macro) : list Z :=
  match m with
  | IF sensor_id => op OPCODE_IF sensor_id
  | IFAMBER signal_id => op OPCODE_IFAMBER signal_id
  | IFCLOSED turnout_id => op OPCODE_IFCLOSED turnout_id
  | IFGREEN signal_id => op OPCODE_IFGREEN signal_id
  | IFGTE sensor_id value => op OPCODE_IFGTE sensor_id ++ op OPCODE_PAD value
  | IFLOCO _ => op OPCODE_IFLOCO counter
  | IF_ALL _ => op OPCODE_IFLOCO counter
  | IF_ANY _ => op OPCODE_IFLOCO counter
  | IFLT sensor_id value => op OPCODE_IFLT sensor_id ++ op OPCODE_PAD value
  | IFNOT sensor_id => op OPCODE_IFNOT sensor_id
  | IFRANDOM percent => op OPCODE_IFRANDOM percent
  | IFRED signal_id => op OPCODE_IFRED signal_id
  | IFRESERVE block => op OPCODE_IFRESERVE block
  | IFROUTE_ACTIVE sequence_id => op OPCODE_IF_ROUTE_ACTIVE sequence_id
  | IFROUTE_INACTIVE sequence_id => op OPCODE_IF_ROUTE_INACTIVE sequence_id
  | IFROUTE_HIDDEN sequence_id => op OPCODE_IF_ROUTE_HIDDEN sequence_id
  | IFROUTE_DISABLED sequence_id => op OPCODE_IF_ROUTE_DISABLED sequence_id
  | IFSTASH stash_id => op OPCODE_IFSTASH stash_id
  | IFSTASHED_HERE stash_id => op OPCODE_IFSTASHED_HERE stash_id
  | IFTHROWN turnout_id => op OPCODE_IFTHROWN turnout_id
  | IFTIMEOUT => op0 OPCODE_IFTIMEOUT
  | IFTTPOSITION id position => op OPCODE_IFTTPOSITION id ++ op OPCODE_PAD position
  | IFRE sensor_id value => op OPCODE_IFRE sensor_id ++ op OPCODE_PAD value
  | IFBITMAP_ALL vpin mask => op OPCODE_IFBITMAP_ALL vpin ++ op OPCODE_PAD mask
  | IFBITMAP_ANY vpin mask => op OPCODE_IFBITMAP_ANY vpin ++ op OPCODE_PAD mask
  | _ => code_to_on counter m
  end.
Definition code (counter : Z) (m : Macro) : list Z :=
  match m with
  | ACTIVATE addr subaddr => op OPCODE_DCCACTIVATE (addr <<' 3 .| subaddr <<' 1 .| 1)
  | ACTIVATEL addr => op OPCODE_DCCACTIVATE ((addr + 3) <<' 1 .| 1)
  | AFTER sensor_id timer => op OPCODE_AT sensor_id ++ op OPCODE_AFTER sensor_id ++ op OPCODE_PAD (default 500
      timer)
  | AFTEROVERLOAD track_id => op OPCODE_AFTEROVERLOAD track_id
  | AMBER signal_id => op OPCODE_AMBER signal_id
  | ANOUT vpin value param1 param2 => anout vpin value param1 param2
  | ASPECT address value => op OPCODE_ASPECT (address <<' 5 .| (value .& 0x1F))
  | AT sensor_id => op OPCODE_AT sensor_id
  | ATGTE sensor_id value => op OPCODE_ATGTE sensor_id ++ op OPCODE_PAD value
  | ATLT sensor_id value => op OPCODE_ATLT sensor_id ++ op OPCODE_PAD value
  | ATTIMEOUT sensor_id timeout => op0 OPCODE_ATTIMEOUT1 ++ op OPCODE_ATTIMEOUT2 sensor_id ++ op OPCODE_PAD (timeout
      ÷ 100)
  | AUTOMATION id _ => op OPCODE_AUTOMATION id
  | AUTOSTART => op0 OPCODE_AUTOSTART
  | BLINK vpin onDuty offDuty => op OPCODE_BLINK vpin ++ op OPCODE_PAD onDuty ++ op OPCODE_PAD offDuty
  | BUILD_CONSIST addloco => op OPCODE_CONSIST addloco
  | BREAK_CONSIST => op OPCODE_CONSIST 0
  | BROADCAST _ => op OPCODE_PRINT counter
  | CALL route => op OPCODE_CALL route
  | CLEAR_STASH id => op OPCODE_CLEAR_STASH id
  | CLEAR_ALL_STASH => op OPCODE_CLEAR_ALL_STASH 0
  | CLEAR_ANY_STASH => op OPCODE_CLEAR_ANY_STASH 0
  | CLOSE id => op OPCODE_CLOSE id
  | DCC_TURNTABLE id home _ => op OPCODE_DCCTURNTABLE id ++ op OPCODE_PAD home
  | DEACTIVATE addr subaddr => op OPCODE_DCCACTIVATE (addr <<' 3 .| subaddr <<' 1)
  | DEACTIVATEL addr => op OPCODE_DCCACTIVATE ((addr + 3) <<' 1)
  | DELAY ms => delay ms
  | DELAYMINS mindelay => op OPCODE_DELAYMINS mindelay
  | DELAYRANDOM mindelay maxdelay => delay mindelay ++ op OPCODE_RANDWAIT ((maxdelay - mindelay) ÷ 100)
  | DONE => op0 OPCODE_ENDTASK
  | DRIVE analogpin => op OPCODE_DRIVE analogpin
  | ELSE => op0 OPCODE_ELSE
  | ENDIF => op0 OPCODE_ENDIF
  | ENDTASK => op0 OPCODE_ENDTASK
  | ESTOP => op OPCODE_SPEED 1
  | ESTOPALL => op OPCODE_ESTOPALL 0
  | ESTOP_PAUSE => op OPCODE_ESTOPALL 1
  | ESTOP_RESUME => op OPCODE_ESTOPALL 2
  | EXTT_TURNTABLE id vpin home _ => op OPCODE_EXTTTURNTABLE id ++ op OPCODE_PAD vpin ++ op OPCODE_PAD home
  | FADE pin value ms => op OPCODE_SERVO pin ++ op OPCODE_PAD value ++ op OPCODE_PAD (UseDuration .| NoPowerOff) ++
      op OPCODE_PAD (ms ÷ 100)
  | FOFF func => op OPCODE_FOFF func
  | FOLLOW route => op OPCODE_FOLLOW route
  | FON func => op OPCODE_FON func
  | FORGET => op0 OPCODE_FORGET
  | FREE blockid => op OPCODE_FREE blockid
  | FREEALL => op0 OPCODE_FREEALL
  | FTOGGLE func => op OPCODE_FTOGGLE func
  | FWD speed => op OPCODE_FWD speed
  | GREEN signal_id => op OPCODE_GREEN signal_id
  | _ => code_if counter m
  end.
(** How often a macro reads __COUNTER__. *)
Definition counts (m : Macro) : Z :=
  match m with
  | BROADCAST _ | IFLOCO _ | IF_ALL _ | IF_ANY _ | LCD _ _ | SCREEN _ _ _ | LCN _ | MESSAGE _ | PRINT _ | PARSE _ |
    ROUTE_CAPTION _ _ | SERIAL _ | SERIAL1 _ | SERIAL2 _ | SERIAL3 _ | SERIAL4 _ | SERIAL5 _ | SERIAL6 _ |
    WITHROTTLE _ => 1
  | _ => 0
  end.
Fixpoint route_code (counter : Z) (script : Script) : list Z :=
  match script with
  | [] => []
  | m :: script => code counter m ++ route_code (counter + counts m) script
  end.
(** The first __COUNTER__ after StringMacroTracker2 is one more than it. *)
Definition compiled_code (script : Script) : list Z :=
  route_code 1 script ++ op0 OPCODE_ENDTASK ++ op0 OPCODE_ENDEXRAIL.

(** ** Signals, features and the LCC events *)

Definition VPIN (z : Z) : Z := u16 z.
Definition signal (m : Macro) : list SIGNAL_DEFINITION :=
  match m with
  | SIGNAL redpin amberpin greenpin => [mkSignal sigtypeSIGNAL (VPIN redpin) (VPIN redpin) (VPIN amberpin) (VPIN greenpin)]
  | SIGNALH redpin amberpin greenpin => [mkSignal sigtypeSIGNALH (VPIN redpin) (VPIN redpin) (VPIN amberpin) (VPIN greenpin)]
  | SERVO_SIGNAL vpin redval amberval greenval => [mkSignal sigtypeSERVO (VPIN vpin) (VPIN redval) (VPIN amberval) (VPIN greenval)]
  | DCC_SIGNAL id addr subaddr => [mkSignal sigtypeDCC (VPIN id) (VPIN addr) (VPIN subaddr) 0]
  | DCCX_SIGNAL id redAspect amberAspect greenAspect => [mkSignal sigtypeDCCX (VPIN id) (VPIN redAspect) (VPIN amberAspect) (VPIN greenAspect)]
  | NEOPIXEL_SIGNAL id redRGB amberRGB greenRGB =>
    [mkSignal sigtypeNEOPIXEL (VPIN id) (VPIN (redRGB >>' 8)) (VPIN (amberRGB >>' 8)) (VPIN (greenRGB >>' 8));
     mkSignal sigtypeContinuation (VPIN id) (VPIN (redRGB .& 0xff)) (VPIN (amberRGB .& 0xff)) (VPIN (greenRGB .& 0xff))]
  | VIRTUAL_SIGNAL id => [mkSignal sigtypeVIRTUAL (VPIN id) 0 0 0]
  | _ => []
  end.
Definition signal_table (script : Script) : list SIGNAL_DEFINITION :=
  concat (map signal script) ++ [mkSignal sigtypeNoMoreSignals 0 0 0 0].

Definition feature (m : Macro) : Z :=
  match m with
  | SIGNAL _ _ _ | SIGNALH _ _ _ | SERVO_SIGNAL _ _ _ _ | DCC_SIGNAL _ _ _ | DCCX_SIGNAL _ _ _ _ | NEOPIXEL_SIGNAL _ _ _ _
  | VIRTUAL_SIGNAL _ => FEATURE_SIGNAL
  | LCC _ | LCCX _ _ | ONLCC _ _ | ACON _ | ACOF _ | ONACON _ | ONACOF _ => FEATURE_LCC
  | ROUTE_ACTIVE _ | ROUTE_INACTIVE _ | ROUTE_HIDDEN _ | ROUTE_DISABLED _ | ROUTE_CAPTION _ _
  | IFROUTE_ACTIVE _ | IFROUTE_INACTIVE _ | IFROUTE_HIDDEN _ | IFROUTE_DISABLED _ => FEATURE_ROUTESTATE
  | BLINK _ _ _ => FEATURE_BLINK
  | ONBUTTON _ | ONSENSOR _ | ONBITMAP _ => FEATURE_SENSOR
  | ONBLOCKENTER _ | ONBLOCKEXIT _ => FEATURE_BLOCK
  | _ => 0
  end.
Definition features (script : Script) : Z := foldr (λ m r, feature m .| r) 0 script.

Definition lcc_count (m : Macro) : Z := match m with ONLCC _ _ | ONACON _ | ONACOF _ => 1 | _ => 0 end.
Definition lcc_counts (script : Script) : Z := foldr (λ m r, lcc_count m + r) 0 script.

(** ** Texts *)

(** The case of a macro in printMessage; the first one is case 1. *)
Definition text (m : Macro) : option Message :=
  match m with
  | BROADCAST msg => Some (Thrunge thrunge_broadcast 0 msg)
  | PARSE msg => Some (Thrunge thrunge_parse 0 msg)
  | PRINT msg => Some (Thrunge thrunge_print 0 msg)
  | LCN msg => Some (Thrunge thrunge_lcn 0 msg)
  | MESSAGE msg => Some (Thrunge thrunge_message 0 msg)
  | ROUTE_CAPTION id caption => Some (RouteCaption id caption)
  | SERIAL msg => Some (Thrunge thrunge_serial 0 msg)
  | SERIAL1 msg => Some (Thrunge thrunge_serial1 0 msg)
  | SERIAL2 msg => Some (Thrunge (thrunge_serial1 + 1) 0 msg)
  | SERIAL3 msg => Some (Thrunge (thrunge_serial1 + 2) 0 msg)
  | SERIAL4 msg => Some (Thrunge (thrunge_serial1 + 3) 0 msg)
  | SERIAL5 msg => Some (Thrunge (thrunge_serial1 + 4) 0 msg)
  | SERIAL6 msg => Some (Thrunge thrunge_serial6 0 msg)
  | IFLOCO locolist => Some (IfLoco (map i16 locolist))
  | IF_ALL vpinList => Some (IfAll (map i16 vpinList))
  | IF_ANY vpinList => Some (IfAny (map i16 vpinList))
  | LCD id msg => Some (Thrunge thrunge_lcd (u8 id) msg)
  | SCREEN display id msg => Some (Thrunge (thrunge_lcd + display) (u8 id) msg)
  | WITHROTTLE msg => Some (Thrunge thrunge_withrottle 0 msg)
  | _ => None
  end.
Definition texts (script : Script) : list Message := omap text script.
Definition text_of (script : Script) (id : Z) : Message :=
  if id <? 1 then NoMessage else default NoMessage (texts script !! Z.to_nat (id - 1)).

(** ** Descriptions *)

Fixpoint first_of {A} (f : Macro → option A) (script : Script) : option A :=
  match script with
  | [] => None
  | m :: script => match f m with Some a => Some a | None => first_of f script end
  end.
(** O_DESC: an empty description is none. *)
Definition O_DESC (desc : string) : option string := if bool_decide (desc = EmptyString) then None else Some desc.
Definition turnout_desc (id : Z) (m : Macro) : option (option string) :=
  match m with
  | TURNOUT k _ _ d | TURNOUTL k _ d | PIN_TURNOUT k _ d | SERVO_TURNOUT k _ _ _ _ d | VIRTUAL_TURNOUT k d =>
    if k =? id then Some (O_DESC d) else None
  | _ => None
  end.
Definition getTurnoutDescription (script : Script) (id : Z) : option string := mjoin (first_of (turnout_desc id) script).
Definition turntable_desc (id : Z) (m : Macro) : option (option string) :=
  match m with
  | DCC_TURNTABLE k _ d | EXTT_TURNTABLE k _ _ d => if k =? id then Some (O_DESC d) else None
  | _ => None
  end.
Definition getTurntableDescription (script : Script) (id : Z) : option string := mjoin (first_of (turntable_desc id) script).
Definition position_desc (tid pid : Z) (m : Macro) : option (option string) :=
  match m with
  | TT_ADDPOSITION t p _ _ d => if (t =? tid) && (p =? pid) then Some (O_DESC d) else None
  | _ => None
  end.
Definition getTurntablePositionDescription (script : Script) (tid pid : Z) : option string :=
  mjoin (first_of (position_desc tid pid) script).
Definition route_desc (id : Z) (m : Macro) : option string :=
  match m with ROUTE k d | AUTOMATION k d => if k =? id then Some d else None | _ => None end.
Definition getRouteDescription (script : Script) (id : Z) : string := default EmptyString (first_of (route_desc id) script).

(** The lists of ids for throttles, which end with INT16_MAX, and the roster. *)
Definition INT16_MAX : Z := 32767.
Definition routeIdList (script : Script) : list Z :=
  omap (λ m, match m with ROUTE id _ => Some (i16 id) | _ => None end) script ++ [INT16_MAX].
Definition automationIdList (script : Script) : list Z :=
  omap (λ m, match m with AUTOMATION id _ => Some (i16 id) | _ => None end) script ++ [INT16_MAX].
Definition rosterNameCount (script : Script) : Z :=
  u8 (foldr (λ m r, match m with ROSTER cabid _ _ => (if cabid <=? 0 then 0 else 1) + r | _ => r end) 0 script).
Definition rosterIdList (script : Script) : list Z :=
  omap (λ m, match m with ROSTER cabid _ _ => Some (i16 cabid) | _ => None end) script ++ [INT16_MAX].
Definition getRosterName (script : Script) (id : Z) : string :=
  default EmptyString (first_of (λ m, match m with ROSTER cabid name _ => if cabid =? id then Some name else None | _ => None end) script).
Definition getRosterFunctions (script : Script) (id : Z) : option string :=
  first_of (λ m, match m with ROSTER cabid _ funcmap => if cabid =? id then Some funcmap else None | _ => None end) script.

(** ** The checks at compile time (EXRAILAsserts.h); seqCount takes an int16_t. *)

Definition sequence_id (m : Macro) : option Z :=
  match m with AUTOMATION id _ | ROUTE id _ | SEQUENCE id => Some (i16 id) | _ => None end.
Definition compileTimeSequenceList (script : Script) : list Z := omap sequence_id script.
Definition seqCount (script : Script) (value : Z) : Z :=
  Z.of_nat (length (List.filter (λ v, v =? value) (compileTimeSequenceList script))).

Section asserts.
(** The pins of the processor and of the motor shield. *)
Context (compileTimePinBlackList : list Z) (script : Script).
Definition unsafePin (value : Z) : bool := existsb (λ v, v =? value) compileTimePinBlackList.
Definition is_there (id : Z) : bool := seqCount script (i16 id) >? 0.
Definition flag_range (id : Z) : bool := (id >=? 0) && (id <? MAX_FLAGS).
Definition speed_range (speed : Z) : bool := (speed >=? 0) && (speed <? 128).
Definition lamp_pins (redpin amberpin greenpin : Z) : bool :=
  negb (unsafePin redpin) && ((amberpin =? 0) || negb (unsafePin amberpin)) && negb (unsafePin greenpin).
Definition assert (m : Macro) : bool :=
  match m with
  | ASPECT address value => (address <=? 2044) && (address >=? -3)
  | CALL id | FOLLOW id | START id | START_SHARED id | START_SEND id | SENDLOCO _ id
  | ROUTE_ACTIVE id | ROUTE_INACTIVE id | ROUTE_HIDDEN id | ROUTE_DISABLED id | ROUTE_CAPTION id _ => is_there id
  | RANDOM_CALL sequences | RANDOM_FOLLOW sequences => forallb is_there sequences
  | LATCH id | UNLATCH id | RESERVE id | FREE id | IFRESERVE id => flag_range id
  | SPEED speed | FWD speed | REV speed | SPEEDUP speed | SLOWDOWN speed => speed_range speed
  | SPEED_REL percent => (percent >? 0) && (percent <=? 500)
  | SEQUENCE id | AUTOMATION id _ | ROUTE id _ => seqCount script (i16 id) =? 1
  | SET vpin _ | RESET vpin _ | BLINK vpin _ _ => negb (unsafePin vpin)
  | SIGNAL redpin amberpin greenpin | SIGNALH redpin amberpin greenpin => lamp_pins redpin amberpin greenpin
  | _ => true
  end.
Definition asserts : bool := forallb assert script.
End asserts.

(** ** The program *)

Definition HIDDEN : Ascii.ascii := Ascii.ascii_of_nat 1.
Definition hides (d : string) : bool := match d with String c _ => bool_decide (c = HIDDEN) | EmptyString => false end.
(** The serial ports belong to the board. *)
Definition compile (serials : Z → bool) (lcn : bool) (script : Script) : Program := {|
  RouteCode := compiled_code script;
  SignalDefinitions := signal_table script;
  compileFeatures := features script;
  message := text_of script;
  turnoutHidden id := hides <$> getTurnoutDescription script id;
  turntableHidden id := hides <$> getTurntableDescription script id;
  Exrail.getRouteDescription := getRouteDescription script;
  countLCCLookup := lcc_counts script;
  serialThere := serials;
  lcnThere := lcn
|}.
End ExrailMacros.
