(* ===== verification/ExrailScript.v ===== *)
(** What the macros compile: every script whose numbers are in range becomes an
    automation that is well formed; each text is found by the number that the
    code has for it; and every sequence that is called is found. *)

From S2P Require Import Prelude Keywords Chain LocoSlot ConsistProps DCCConsist DCC DCCSafe MotorDriver TrackManager TrackProps DCCACK Layout Turnouts Turntables Stash Station StationProps Exrail ExrailRun ExrailCommands ExrailInv ExrailMacros.
From stdpp Require Import strings.

#[local] Open Scope Z_scope.
#[local] Open Scope c_scope.

Module ExrailScript.
Import Exrail ExrailRun ExrailInv ExrailMacros.

(** ** Code as instructions *)

Notation cell := (OPCODE * Z)%type.
Definition enc (l : list cell) : list Z := concat (map (λ c, op c.1 c.2) l).

Lemma enc_app l k : enc (l ++ k) = enc l ++ enc k.
Proof. unfold enc. by rewrite map_app, concat_app. Qed.
Lemma op_enc o v : op o v = enc [(o, v)].
Proof. done. Qed.
Lemma op0_enc o : op0 o = enc [(o, 0)].
Proof. done. Qed.
Lemma calls_enc l : concat (map (op OPCODE_CALL) l) = enc (map (pair OPCODE_CALL) l).
Proof. unfold enc. by rewrite map_map. Qed.
Lemma enc_length l : length (enc l) = (3 * length l)%nat.
Proof. induction l as [|c l IH]; [done|]. change (enc (c :: l)) with (op c.1 c.2 ++ enc l). rewrite length_app, IH. simpl. lia. Qed.

Lemma number_of_range o : 0 <= number_of o < 256.
Proof. by destruct o. Qed.
Lemma opcode_number o : opcode_of (number_of o) = Some o.
Proof. by destruct o. Qed.
Lemma V_value val : V val = [u16 val mod 256; u16 val / 256].
Proof.
  unfold V, u8. f_equal; [|f_equal].
  - change 0x00FF with (Z.ones 8). rewrite Z.land_ones by lia. unfold i16, u16. change (2 ^ 8) with 256. Z.div_mod_to_equations. lia.
  - change 0x00FF with (Z.ones 8). rewrite Z.land_ones, Z.shiftr_div_pow2 by lia. unfold i16, u16. change (2 ^ 8) with 256. Z.div_mod_to_equations. lia.
Qed.
Lemma enc_lookup l k o v : l !! k = Some (o, v) →
  enc l !! (3 * k)%nat = Some (number_of o) ∧ enc l !! (3 * k + 1)%nat = Some (u16 v mod 256) ∧ enc l !! (3 * k + 2)%nat = Some (u16 v / 256).
Proof.
  revert k. induction l as [|c l IH]; intros [|k]; [done..| |].
  - intros [= ->]. change (enc ((o, v) :: l)) with (number_of o :: V v ++ enc l). by rewrite V_value.
  - intros H. change (enc (c :: l)) with (number_of c.1 :: V c.2 ++ enc l). rewrite V_value.
    destruct (IH k H) as (H1 & H2 & H3). replace (3 * S k)%nat with (3 + 3 * k)%nat by lia.
    replace (3 + 3 * k + 1)%nat with (3 + (3 * k + 1))%nat by lia. replace (3 + 3 * k + 2)%nat with (3 + (3 * k + 2))%nat by lia. done.
Qed.
Lemma enc_bytes l : Forall (λ b, 0 <= b < 256) (enc l).
Proof.
  induction l as [|c l IH]; [constructor|]. change (enc (c :: l)) with (op c.1 c.2 ++ enc l). apply Forall_app. split; [|done].
  unfold op. rewrite V_value. pose proof (number_of_range c.1). repeat constructor; try lia; unfold u16; Z.div_mod_to_equations; lia.
Qed.

(** ** Instructions that are well formed where they stand *)

Definition nth_value (rest : list cell) (k : nat) : Z := match rest !! k with Some c => u16 c.2 | None => -1 end.
Definition choice_ok (n : Z) (o : OPCODE) (v : Z) (rest : list cell) : bool :=
  match o with
  | OPCODE_RANDOM_FOLLOW | OPCODE_RANDOM_CALL => (1 <=? v) && (v <=? 254) && (v <=? Z.of_nat (length rest))
  | OPCODE_AFTEROVERLOAD => u8 v <=? n
  | OPCODE_SET_TRACK => TrackProps.TrackProps.valid_mode (v >>' 8)
  | OPCODE_SET_POWER => u8 (nth_value rest 0) <? 8
  | OPCODE_FTOGGLE => 0 <=? v
  | OPCODE_XFTOGGLE => 0 <=? i16 (nth_value rest 0)
  | _ => true
  end.
Definition cell_ok (n : Z) (c : cell) (rest : list cell) : bool :=
  known c.1 && negb (bool_decide (c.1 = OPCODE_ENDEXRAIL)) &&
  forallb (λ j, (0 <=? j) && (j <=? Z.of_nat (length rest)) && (j <? 255)) (operands c.1) &&
  (lcc_length c.1 <=? 3 * Z.of_nat (S (length rest))) && choice_ok n c.1 (i16 (u16 c.2)) rest.
Fixpoint good (n : Z) (l : list cell) : bool := match l with [] => true | c :: l => cell_ok n c l && good n l end.

Lemma cell_ok_app n c l k : cell_ok n c l = true → cell_ok n c (l ++ k) = true.
Proof.
  unfold cell_ok. rewrite !andb_true_iff, !forallb_forall. intros ((((? & ?) & Hop) & Hlcc) & Hc). rewrite length_app. split_and!; [done|done| |lia|].
  - intros j Hj. specialize (Hop j Hj). lia.
  - assert (operands c.1 = [1] → nth_value (l ++ k) 0 = nth_value l 0) as Hn.
    { intros Ho. specialize (Hop 1). rewrite Ho in Hop. specialize (Hop ltac:(by left)). unfold nth_value. destruct l; [simpl in Hop; lia|done]. }
    destruct c as [o v]. destruct o; simpl in *; rewrite ?length_app, ?Hn by done; try done; lia.
Qed.
Lemma good_app n l k : good n l = true → good n k = true → good n (l ++ k) = true.
Proof.
  induction l as [|c l IH]; simpl; [done|]. rewrite !andb_true_iff. intros [Hc Hl] Hk. split; [by apply cell_ok_app|by apply IH].
Qed.
Lemma good_not_end n l : good n l = true → Forall (λ c, c.1 ≠ OPCODE_ENDEXRAIL) l.
Proof.
  induction l as [|c l IH]; simpl; [constructor|]. rewrite andb_true_iff. intros [Hc Hl]. constructor; [|by apply IH].
  unfold cell_ok in Hc. rewrite !andb_true_iff in Hc. destruct Hc as ((((_ & Hc) & _) & _) & _). by rewrite negb_true_iff, bool_decide_eq_false in Hc.
Qed.
Lemma good_at n m k c : good n m = true → m !! k = Some c → cell_ok n c (drop (S k) m) = true.
Proof.
  revert k. induction m as [|d m IH]; intros [|k]; simpl; rewrite ?andb_true_iff; [done..| |].
  - by intros [Hd _] [= <-].
  - intros [_ Hm] Hk. by apply IH.
Qed.

(** ** Reading the code back *)

Section program.
Context `{!Program} (l : list cell) (Hcode : RouteCode = enc (l ++ [(OPCODE_ENDEXRAIL, 0)])).
#[local] Set Default Proof Using "All".

(** The instructions from the place [k] on. *)
Definition rest (k : nat) : list cell := drop (S k) (l ++ [(OPCODE_ENDEXRAIL, 0)]).
Lemma read_cell k o v : (l ++ [(OPCODE_ENDEXRAIL, 0)]) !! k = Some (o, v) →
  code_at (3 * Z.of_nat k) = Some (number_of o) ∧ ∀ pc j, pc = 3 * (Z.of_nat k - j) → 0 <= j < 256 → j <= Z.of_nat k → getOperand pc j = Some (u16 v).
Proof.
  intros Hk. destruct (enc_lookup _ _ _ _ Hk) as (H1 & H2 & H3).
  assert (∀ z j : nat, Z.of_nat j = Z.of_nat z → code_at (Z.of_nat z) = enc (l ++ [(OPCODE_ENDEXRAIL, 0)]) !! j) as Hat.
  { intros z j Hz. unfold code_at. rewrite Hcode. destruct (_ <? 0) eqn:E; [lia|]. f_equal. lia. }
  split; [rewrite <-H1, <-(Hat (3 * k)%nat) by done; f_equal; lia|]. intros pc j -> Hj Hjk. unfold getOperand, u8. cbv zeta. rewrite (Z.mod_small j) by lia.
  replace (3 * (Z.of_nat k - j) + 1 + j * 3) with (Z.of_nat (3 * k + 1)) by lia. rewrite (Hat _ (3 * k + 1)%nat), H2 by done. cbn [mbind option_bind].
  replace (Z.of_nat (3 * k + 1) + 1) with (Z.of_nat (3 * k + 2)) by lia. rewrite (Hat _ (3 * k + 2)%nat), H3 by done. cbn [mbind option_bind].
  f_equal. unfold u16. Z.div_mod_to_equations. lia.
Qed.

Definition placed (k : nat) (l : list cell) : list (Z * Z) := imap (λ j c, (3 * Z.of_nat (k + j), number_of c.1)) l.
Lemma code_loop_placed : Forall (λ c, c.1 ≠ OPCODE_ENDEXRAIL) l → ∀ m k fuel, drop k l = m → (k + length m = length l)%nat → (length m < fuel)%nat →
  code_loop fuel (3 * Z.of_nat k) = Some (placed k m).
Proof.
  intros Hne. induction m as [|[o v] m IH]; intros k fuel Hd Hl Hf; (destruct fuel as [|fuel]; [simpl in Hf; lia|]); simpl.
  - destruct (read_cell k OPCODE_ENDEXRAIL 0) as [-> _]; [|done].
    rewrite lookup_app_r by (simpl in Hl; lia). replace (k - length l)%nat with 0%nat by (simpl in Hl; lia). done.
  - assert (l !! k = Some (o, v)) as Hk. { rewrite <-(Nat.add_0_r k), <-lookup_drop, Hd. done. }
    destruct (read_cell k o v) as [-> _]; [by apply lookup_app_l_Some|]. simpl.
    destruct (number_of o =? 83) eqn:E.
    { exfalso. rewrite Forall_lookup in Hne. apply (Hne k (o, v) Hk). simpl. pose proof (opcode_number o) as Ho.
      apply Z.eqb_eq in E. rewrite E in Ho. by injection Ho as <-. }
    replace (3 * Z.of_nat k + 3) with (3 * Z.of_nat (S k)) by lia. rewrite (IH (S k)); [|..|].
    + simpl. f_equal. unfold placed. simpl. f_equal; [by rewrite Nat.add_0_r|]. apply imap_ext. intros j c _. simpl. f_equal. lia.
    + by rewrite <-Nat.add_1_r, <-drop_drop, Hd.
    + simpl in Hl. lia.
    + simpl in Hf. lia.
Qed.
Lemma code_placed : Forall (λ c, c.1 ≠ OPCODE_ENDEXRAIL) l → ExrailRun.code = Some (placed 0 l).
Proof.
  intros Hne. apply (code_loop_placed Hne l 0); [done|done|]. rewrite Hcode, enc_length, length_app. simpl. lia.
Qed.

Lemma placed_cons k c m : placed k (c :: m) = (3 * Z.of_nat k, number_of c.1) :: placed (S k) m.
Proof using Type.
  unfold placed. simpl. rewrite Nat.add_0_r. f_equal. apply imap_ext. intros j d _. simpl. f_equal. lia.
Qed.
Lemma placed_length k m : length (placed k m) = length m.
Proof using Type. unfold placed. by rewrite length_imap. Qed.
Lemma end_pc_placed n : good n l = true → end_pc = 3 * Z.of_nat (length l).
Proof. intros Hg. unfold end_pc. rewrite code_placed by by eapply good_not_end. by rewrite placed_length. Qed.
Lemma operand_at k j c : (l ++ [(OPCODE_ENDEXRAIL, 0)]) !! (k + j)%nat = Some c → Z.of_nat j < 256 →
  getOperand (3 * Z.of_nat k) (Z.of_nat j) = Some (u16 c.2).
Proof. destruct c as [o v]. intros Hk Hj. destruct (read_cell _ _ _ Hk) as [_ Hr]. apply Hr; lia. Qed.
Lemma operand_some k j : (k + j <= length l)%nat → Z.of_nat j < 256 → bool_decide (is_Some (getOperand (3 * Z.of_nat k) (Z.of_nat j))) = true.
Proof.
  intros Hk Hj. apply bool_decide_eq_true. destruct (lookup_lt_is_Some_2 (l ++ [(OPCODE_ENDEXRAIL, 0)]) (k + j)) as [c Hc].
  - rewrite length_app. simpl. lia.
  - by rewrite (operand_at k j c).
Qed.
Lemma instr_placed n k o v : good n l = true → l !! k = Some (o, v) → instr_ok n (3 * Z.of_nat k) (number_of o) = true.
Proof.
  intros Hg Hk. pose proof (good_at _ _ _ _ Hg Hk) as Hc. pose proof (lookup_lt_Some _ _ _ Hk) as Hlt.
  unfold instr_ok. rewrite opcode_number. change 0 with (Z.of_nat 0).
  rewrite (operand_at k 0 (o, v)) by (rewrite ?Nat.add_0_r, ?lookup_app_l by done; done || lia).
  unfold cell_ok in Hc. rewrite !andb_true_iff, forallb_forall, length_drop in Hc. simpl in Hc. destruct Hc as ((((Hkn & _) & Hop) & Hlcc) & Hch).
  rewrite !andb_true_iff. split_and!; [done| |rewrite (end_pc_placed n) by done; lia|].
  - unfold has_operands. rewrite forallb_forall. intros j Hj. specialize (Hop j Hj). replace j with (Z.of_nat (Z.to_nat j)) by lia. apply operand_some; lia.
  - assert (operands o = [1] → getOperand (3 * Z.of_nat k) 1 = Some (nth_value (drop (S k) l) 0)) as Hn.
    { intros Ho. specialize (Hop 1). rewrite Ho in Hop. specialize (Hop ltac:(by left)). unfold nth_value. rewrite lookup_drop, Nat.add_0_r.
      destruct (lookup_lt_is_Some_2 l (S k)) as [c Hc]; [lia|]. rewrite Hc. change 1 with (Z.of_nat 1). apply operand_at; [|lia].
      rewrite Nat.add_1_r. by apply lookup_app_l_Some. }
    destruct o; simpl in *; rewrite ?Hn by done; try done;
      rewrite (end_pc_placed n) by done; rewrite length_drop in Hch; rewrite !andb_true_iff; (split_and!; [lia..|]);
      unfold has_operands; rewrite forallb_forall; intros j Hj%list_elem_of_In%elem_of_rangeZ;
      (replace j with (Z.of_nat (Z.to_nat j)) by lia); apply operand_some; lia.
Qed.
End program.

(** ** What each macro compiles to *)

(** The arguments that the checks at compile time leave open: tracks, modes and
    functions that are there, one to eight sequences to choose from, and no
    ONRAILSYNC handlers, whose opcodes belong to boards with a booster input. *)
Definition macro_ok (n : Z) (m : Macro) : Prop :=
  match m with
  | AFTEROVERLOAD track_id => 0 <= track_id <= Z.min n 255
  | SET_TRACK track mode => 0 <= track < 256 ∧ 0 <= mode < 128 ∧ TrackProps.TrackProps.valid_mode mode = true
  | SET_POWER track _ => 0 <= track < 8
  | FTOGGLE func | XFTOGGLE _ func => 0 <= func < 32768
  | RANDOM_CALL sequences | RANDOM_FOLLOW sequences => (1 <= length sequences <= 8)%nat
  | ONRAILSYNCON | ONRAILSYNCOFF => False
  | _ => True
  end.
Definition listener_cells (l : list cell) : Z := Z.of_nat (length (List.filter (λ c, is_listener (number_of c.1)) l)).

(** The cells that start a sequence, by its number. *)
Definition sequence_ops : list OPCODE := [OPCODE_ROUTE; OPCODE_AUTOMATION; OPCODE_SEQUENCE].
Definition key_of (ops : list OPCODE) (c : cell) : option Z :=
  if existsb (λ o, number_of c.1 =? number_of o) ops then Some (i16 (u16 c.2)) else None.
Notation sequence_key := (key_of sequence_ops).

Lemma good_calls n l : good n (map (pair OPCODE_CALL) l) = true.
Proof. induction l as [|a l IH]; [done|]. cbn [map good]. rewrite IH, andb_true_r. unfold cell_ok. cbn [fst snd known operands forallb choice_ok lcc_length]. rewrite bool_decide_eq_false_2 by done. lia. Qed.
Lemma listener_calls l : listener_cells (map (pair OPCODE_CALL) l) = 0.
Proof. unfold listener_cells. by induction l. Qed.
Lemma key_calls l : omap sequence_key (map (pair OPCODE_CALL) l) = [].
Proof. by induction l. Qed.
Lemma good_choice n o l : (o = OPCODE_RANDOM_CALL ∨ o = OPCODE_RANDOM_FOLLOW) → (1 <= length l <= 8)%nat →
  good n ((o, Z.of_nat (length l)) :: map (pair OPCODE_CALL) l) = true.
Proof.
  intros Ho Hl. simpl. rewrite good_calls, andb_true_r. unfold cell_ok. simpl fst. simpl snd.
  assert (i16 (u16 (Z.of_nat (length l))) = Z.of_nat (length l)) as E by (unfold i16, u16; Z.div_mod_to_equations; lia).
  destruct Ho as [-> | ->]; simpl; rewrite E, length_map; lia.
Qed.
Lemma track_word track mode : 0 <= track < 256 → 0 <= mode < 128 → i16 (u16 (mode <<' 8 .| track)) >>' 8 = mode.
Proof.
  intros Ht Hm. apply Z.eqb_eq. apply (range_check2 (λ m t, i16 (u16 (m <<' 8 .| t)) >>' 8 =? m) 0 128 0 256); [by vm_compute|lia..].
Qed.

(** Bring code into the form of instructions. *)
Ltac encode := rewrite ?op0_enc, ?op_enc, ?calls_enc, <-?enc_app; simpl app; reflexivity.
Ltac checked :=
  eexists; split; [encode|]; split; [|split; done]; cbn [good]; unfold cell_ok; cbn [fst snd choice_ok nth_value lookup list_lookup]; simpl; rewrite ?andb_true_r.
Lemma macro_cells n counter m : macro_ok n m → ∃ l, code counter m = enc l ∧ good n l = true ∧ listener_cells l = lcc_count m ∧ omap sequence_key l = option_list (sequence_id m).
Proof.
  intros Hm. destruct m; cbn [code code_if code_to_on code_on code_rest];
    try (eexists; split; [unfold anout, clock_time, turnout, sender_words, event; encode|]; done);
    try (exists []; done);
    try (eexists; split; [encode|]; split; [done|]; split; [done|]; simpl; by rewrite i16_u16).
  - checked. unfold u8, i16, u16. simpl in Hm. Z.div_mod_to_equations. lia.
  - unfold delay. destruct (ms <? 30000); (eexists; split; [encode|done]).
  - unfold delay. destruct (mindelay <? 30000); (eexists; split; [encode|done]).
  - checked. unfold i16, u16. simpl in Hm. Z.div_mod_to_equations. lia.
  - eexists. split; [encode|]. split; [by apply good_choice; [left|]|]. split; [apply listener_calls|apply key_calls].
  - eexists. split; [encode|]. split; [by apply good_choice; [right|]|]. split; [apply listener_calls|apply key_calls].
  - destruct Hm as (Ht & Hmode & Hv). pose proof (track_word track mode Ht Hmode) as E. revert E. generalize (mode <<' 8 .| track). intros w E.
    checked. by rewrite E.
  - checked. change (nth_value _ 0) with (u16 track). unfold u8, u16. simpl in Hm. Z.div_mod_to_equations. lia.
  - checked. change (nth_value _ 0) with (u16 func). unfold i16, u16. simpl in Hm. Z.div_mod_to_equations. lia.
Qed.

(** ** Scripts *)

Definition script_ok (n : Z) (script : Script) : Prop :=
  Forall (macro_ok n) script ∧ Z.of_nat (length (compiled_code script)) <= 32763 ∧ (length (signal_table script) <= 257)%nat.

Lemma listener_cells_app l k : listener_cells (l ++ k) = listener_cells l + listener_cells k.
Proof. unfold listener_cells. rewrite List.filter_app, length_app. lia. Qed.
Lemma script_cells n script : Forall (macro_ok n) script → ∀ counter,
  ∃ l, route_code counter script = enc l ∧ good n l = true ∧ listener_cells l = lcc_counts script ∧ omap sequence_key l = compileTimeSequenceList script.
Proof.
  induction 1 as [|m script Hm _ IH]; intros counter; [by exists []|].
  destruct (macro_cells n counter m Hm) as (l & Hl & Hg & Hc & Hs), (IH (counter + counts m)) as (k & Hk & Hg' & Hc' & Hs').
  exists (l ++ k). simpl. rewrite enc_app, listener_cells_app, omap_app, Hl, Hk, Hc, Hc', Hs, Hs'. split; [done|]. split; [by apply good_app|].
  split; [done|]. unfold compileTimeSequenceList. simpl. by destruct (sequence_id m).
Qed.
Lemma compiled_cells n script : Forall (macro_ok n) script →
  ∃ l, compiled_code script = enc (l ++ [(OPCODE_ENDEXRAIL, 0)]) ∧ good n l = true ∧ listener_cells l = lcc_counts script ∧ omap sequence_key l = compileTimeSequenceList script.
Proof.
  intros Hs. destruct (script_cells n script Hs 1) as (l & Hl & Hg & Hc & Hk). exists (l ++ [(OPCODE_ENDTASK, 0)]).
  unfold compiled_code. rewrite Hl, !op0_enc, <-!enc_app, app_assoc. split; [done|]. split; [by apply good_app|].
  rewrite listener_cells_app, Hc, omap_app, Hk. change (listener_cells [(OPCODE_ENDTASK, 0)]) with 0. split; [lia|]. apply app_nil_r.
Qed.
Lemma signal_loop_ok l : (∀ g, g ∈ l → type g ≠ sigtypeNoMoreSignals) → ∀ slot,
  ∃ r, signal_loop slot (l ++ [mkSignal sigtypeNoMoreSignals 0 0 0 0]) = Some r ∧
    ∀ c, c ∈ r → ∃ j : nat, c.1 = slot + Z.of_nat j ∧ (j < length l)%nat.
Proof.
  induction l as [|g l IH]; intros Hne slot.
  - exists []. split; [done|]. by intros c ?%elem_of_nil.
  - destruct (IH (λ g Hg, Hne g (list_elem_of_further _ _ _ Hg)) (slot + 1)) as (r & Hr & Hc).
    assert (∀ c, c ∈ r → ∃ j : nat, c.1 = slot + Z.of_nat j ∧ (j < length (g :: l))%nat) as Hc'.
    { intros c (j & -> & Hj)%Hc. exists (S j). simpl. split; lia. }
    simpl. rewrite Hr. specialize (Hne g ltac:(by left)). destruct (type g) eqn:Eg; try done; (eexists; split; [done|]); try done;
      intros c [->|Hin]%elem_of_cons; try (by apply Hc'); exists 0%nat; simpl; split; lia.
Qed.
Lemma signal_table_no_end script g : g ∈ concat (map signal script) → type g ≠ sigtypeNoMoreSignals.
Proof.
  rewrite list_elem_of_In, in_concat. intros (k & (m & <- & _)%in_map_iff & Hg). revert Hg. destruct m; simpl; try tauto; intros [<-|Hg]; try done.
  destruct Hg as [<-|[]]. done.
Qed.

Lemma listener_cells_bound l : listener_cells l <= Z.of_nat (length l).
Proof. unfold listener_cells. apply Nat2Z.inj_le, List.filter_length_le. Qed.
Lemma placed_listeners m : ∀ k, Z.of_nat (length (List.filter (λ c, (0 <=? c.1) && is_listener c.2) (placed k m))) = listener_cells m.
Proof.
  unfold listener_cells. induction m as [|c m IH]; intros k; [done|]. rewrite placed_cons. simpl. destruct (0 <=? _) eqn:E; [|lia]. simpl.
  destruct (is_listener _); simpl; rewrite ?Nat2Z.inj_succ, IH; lia.
Qed.
Lemma listeners_placed `{!Program} l : RouteCode = enc (l ++ [(OPCODE_ENDEXRAIL, 0)]) → Forall (λ c, c.1 ≠ OPCODE_ENDEXRAIL) l →
  listeners 0 = listener_cells l.
Proof. intros Hcode Hne. unfold listeners. rewrite (code_placed l Hcode) by done. apply placed_listeners. Qed.

(** ** Sequences *)

Lemma key_spec ops c v : key_of ops c = Some v ↔ (∃ o, o ∈ ops ∧ number_of c.1 = number_of o) ∧ i16 (u16 c.2) = v.
Proof.
  unfold key_of. destruct (existsb _ ops) eqn:E.
  - apply existsb_exists in E as (o & Ho%list_elem_of_In & E). split; [intros [= <-]; split; [exists o; split; [done|lia]|done]|by intros [_ <-]].
  - split; [done|]. intros [(o & Ho & Hno) _]. exfalso. assert (existsb (λ o, number_of c.1 =? number_of o) ops = true) as E'; [|congruence].
    apply existsb_exists. exists o. split; [by apply list_elem_of_In|lia].
Qed.
(** The cells of a look-up list, and finding in one. *)
Fixpoint entries (ops : list OPCODE) (k : nat) (m : list cell) : list (Z * Z) :=
  match m with
  | [] => []
  | c :: m => match key_of ops c with Some v => (v, i16 (3 * Z.of_nat k)) :: entries ops (S k) m | None => entries ops (S k) m end
  end.
Lemma entries_length ops m : ∀ k, (length (entries ops k m) <= length m)%nat.
Proof. induction m as [|c m IH]; intros k; simpl; [done|]. destruct (key_of ops c); simpl; specialize (IH (S k)); lia. Qed.
Lemma elem_entries ops m : ∀ k v w, (v, w) ∈ entries ops k m ↔ ∃ j c, m !! j = Some c ∧ key_of ops c = Some v ∧ w = i16 (3 * Z.of_nat (k + j)).
Proof.
  induction m as [|c m IH]; intros k v w; simpl.
  - split; [by intros ?%elem_of_nil|by intros (j & c & ? & _)].
  - assert ((v, w) ∈ entries ops (S k) m ↔ ∃ j d, (c :: m) !! S j = Some d ∧ key_of ops d = Some v ∧ w = i16 (3 * Z.of_nat (k + S j))) as Htail.
    { rewrite IH. simpl. by setoid_rewrite <-Nat.add_succ_r. }
    transitivity ((key_of ops c = Some v ∧ w = i16 (3 * Z.of_nat (k + 0))) ∨ (v, w) ∈ entries ops (S k) m).
    + destruct (key_of ops c); rewrite ?elem_of_cons, Nat.add_0_r; naive_solver.
    + rewrite Htail. split; [intros [[? ->]|(j & d & ?)]; [by exists 0%nat, c|by exists (S j), d]|]. intros ([|j] & d & Hd & ? & ?); [left|right; eauto].
      by injection Hd as <-.
Qed.
Lemma find_cell_spec m v : ∀ n k, (k + n = length m)%nat →
  ∃ r, find_cell n k m v = Some r ∧ match r with Some (j, w) => (v, w) ∈ m | None => ∀ j w, (k <= j)%nat → m !! j ≠ Some (v, w) end.
Proof.
  induction n as [|n IH]; intros k Hk.
  - exists None. split; [done|]. intros j w Hj ?%lookup_lt_Some. lia.
  - destruct (lookup_lt_is_Some_2 m k) as [[a b] Hc]; [lia|]. simpl. rewrite Hc. simpl. destruct (a =? v) eqn:E.
    + eexists. split; [done|]. apply Z.eqb_eq in E as <-. by eapply list_elem_of_lookup_2.
    + destruct (IH (S k)) as (r & Hr & Hm); [lia|]. exists r. split; [done|]. destruct r as [[j w]|]; [done|]. intros j w Hj Hjw.
      destruct (decide (j = k)) as [->|]; [rewrite Hc in Hjw; injection Hjw as -> ->; lia|]. apply (Hm j w); [lia|done].
Qed.
Lemma find_spec m n c v : n = Z.of_nat (length m) →
  (∃ w, find (mkLookList n m c) v = Some w ∧ (v, w) ∈ m) ∨
  ((∀ w, (v, w) ∉ m) ∧ find (mkLookList n m c) v = match c with Some c => find c v | None => Some (-1) end).
Proof.
  intros ->. simpl. rewrite Nat2Z.id. destruct (find_cell_spec m v (length m) 0) as (r & -> & Hr); [lia|]. simpl. destruct r as [[j w]|]; [left; eauto|right].
  split; [|done]. intros w [j Hj]%list_elem_of_lookup. by apply (Hr j w); [lia|].
Qed.

Section lists.
Context `{!Program} (l : list cell) (Hcode : RouteCode = enc (l ++ [(OPCODE_ENDEXRAIL, 0)])).
Context (Hne : Forall (λ c, c.1 ≠ OPCODE_ENDEXRAIL) l) (ops : list OPCODE).
#[local] Set Default Proof Using "All".

Lemma entries_count m : ∀ k, length (List.filter (λ c, existsb (λ o, c.2 =? number_of o) ops) (placed k m)) = length (entries ops k m).
Proof.
  induction m as [|c m IH]; intros k; [done|]. rewrite placed_cons. simpl. unfold key_of.
  destruct (existsb _ ops); simpl; by rewrite IH.
Qed.
Lemma load_pass_entries n : ∀ m k acc, drop k l = m → (k + length m = length l)%nat →
  (length acc + length (entries ops k m) <= Z.to_nat n)%nat → 
  load_pass (placed k m) ops (mkLookList n acc None) = Some (mkLookList n (acc ++ entries ops k m) None).
Proof.
  induction m as [|[o v] m IH]; intros k acc Hd Hl Hn; [by rewrite app_nil_r|]. rewrite placed_cons. simpl in *. unfold key_of in *. simpl in *.
  assert (l !! k = Some (o, v)) as Hk by (by rewrite <-(Nat.add_0_r k), <-lookup_drop, Hd).
  assert (drop (S k) l = m) as Hd' by (by rewrite <-Nat.add_1_r, <-drop_drop, Hd).
  destruct (existsb _ ops); [|by apply IH; [|lia|]]. change 0 with (Z.of_nat 0). rewrite (operand_at l Hcode k 0 (o, v)); [|by rewrite Nat.add_0_r, lookup_app_l_Some with (x := (o, v))|lia].
  simpl. destruct (_ =? n) eqn:E; [simpl in Hn; lia|]. rewrite IH; [by rewrite <-app_assoc|done|lia|]. rewrite length_app. simpl in *. lia.
Qed.
Lemma LookListLoader_entries : Z.of_nat (length l) < 32768 →
  LookListLoader ops = Some (mkLookList (Z.of_nat (length (entries ops 0 l))) (entries ops 0 l) None).
Proof.
  intros Hl. unfold LookListLoader. rewrite (code_placed l Hcode Hne). cbn [mbind option_bind]. rewrite entries_count.
  pose proof (entries_length ops l 0) as Hb.
  assert (i16 (Z.of_nat (length (entries ops 0 l))) = Z.of_nat (length (entries ops 0 l))) as -> by (unfold i16; Z.div_mod_to_equations; lia).
  apply (load_pass_entries _ l 0 []); [done|done|]. simpl. lia.
Qed.
End lists.

(** Where a number occurs once in a list, it has one place. *)
Lemma omap_at {A B} (f : A → option B) a l : omap f (a :: l) = match f a with Some b => b :: omap f l | None => omap f l end.
Proof. done. Qed.
Lemma count_at {A} (f : A → option Z) v a l : length (List.filter (λ w, Z.eqb w v) (omap f (a :: l))) =
  ((if bool_decide (f a = Some v) then 1 else 0) + length (List.filter (λ w, Z.eqb w v) (omap f l)))%nat.
Proof.
  rewrite omap_at. destruct (f a) as [w|]; simpl.
  - destruct (w =? v) eqn:E; simpl; [rewrite bool_decide_eq_true_2 by (f_equal; lia)|rewrite bool_decide_eq_false_2 by (intros [= ->]; lia)]; done.
  - done.
Qed.
Lemma count_there {A} (f : A → option Z) v l j c : l !! j = Some c → f c = Some v → (1 <= length (List.filter (λ w, Z.eqb w v) (omap f l)))%nat.
Proof.
  revert j. induction l as [|a l IH]; intros [|j]; [done..| |]; simpl lookup; rewrite count_at.
  - intros [= ->] Hf. rewrite bool_decide_eq_true_2 by done. lia.
  - intros Hj Hf. specialize (IH j Hj Hf). lia.
Qed.
Lemma count_once {A} (f : A → option Z) v l j k c d : length (List.filter (λ w, Z.eqb w v) (omap f l)) = 1%nat →
  l !! j = Some c → f c = Some v → l !! k = Some d → f d = Some v → j = k.
Proof.
  revert j k. induction l as [|a l IH]; intros [|j] [|k] Hone Hj Hc Hk Hd; [done..| | |]; simpl in Hj, Hk; rewrite count_at in Hone.
  - injection Hj as ->. rewrite bool_decide_eq_true_2 in Hone by done. pose proof (count_there f v l k d Hk Hd). lia.
  - injection Hk as ->. rewrite bool_decide_eq_true_2 in Hone by done. pose proof (count_there f v l j c Hj Hc). lia.
  - pose proof (count_there f v l j c Hj Hc). f_equal. apply IH; [lia|done..].
Qed.

(** ** Texts *)

Definition text_opcode (t : Message) : OPCODE :=
  match t with IfLoco _ | IfAll _ | IfAny _ => OPCODE_IFLOCO | _ => OPCODE_PRINT end.
Lemma text_code m t counter : text m = Some t → code counter m = op (text_opcode t) counter.
Proof. by destruct m; simpl; try done; intros [= <-]. Qed.
Lemma text_counts m : counts m = match text m with Some _ => 1 | None => 0 end.
Proof. by destruct m. Qed.
Lemma route_code_app pre : ∀ counter post,
  route_code counter (pre ++ post) = route_code counter pre ++ route_code (counter + foldr (λ m r, counts m + r) 0 pre) post.
Proof.
  induction pre as [|m pre IH]; intros counter post; simpl; [by rewrite Z.add_0_r|]. by rewrite IH, <-app_assoc, Z.add_assoc.
Qed.
Lemma counts_texts pre : foldr (λ m r, counts m + r) 0 pre = Z.of_nat (length (texts pre)).
Proof.
  induction pre as [|m pre IH]; [done|]. change (texts (m :: pre)) with (match text m with Some t => t :: texts pre | None => texts pre end).
  simpl. rewrite text_counts, IH. destruct (text m); simpl length; lia.
Qed.
Lemma code_at_app `{!Program} pre l k : RouteCode = pre ++ l ++ k → ∀ j, (j < length l)%nat →
  code_at (Z.of_nat (length pre) + Z.of_nat j) = l !! j.
Proof.
  intros Hc j Hj. unfold code_at. destruct (_ <? 0) eqn:E; [lia|]. rewrite Hc, lookup_app_r by lia.
  replace (Z.to_nat (Z.of_nat (length pre) + Z.of_nat j) - length pre)%nat with j by lia. by apply lookup_app_l.
Qed.

Section compiled.
Context (serials : Z → bool) (lcn : bool) (n : Z) (script : Script).
#[local] Set Default Proof Using "All".
#[local] Instance program : Program := compile serials lcn script.

Lemma signals_ok_compiled : (length (signal_table script) <= 257)%nat → signals_ok = true.
Proof.
  intros Hl. unfold signals_ok, signal_slots. simpl. unfold signal_table in *. rewrite length_app in Hl. simpl in Hl.
  destruct (signal_loop_ok _ (signal_table_no_end script) 0) as (r & -> & Hr).
  rewrite forallb_forall. intros [slot g] Hc%list_elem_of_In. destruct (Hr _ Hc) as (j & Hj & Hlt). simpl in Hj. unfold slot_ok. simpl. unfold signal_table.
  rewrite !andb_true_iff. change MAX_FLAGS with 256. split; [lia|].
  destruct (lookup_lt_is_Some_2 (concat (map signal script) ++ [mkSignal sigtypeNoMoreSignals 0 0 0 0]) (Z.to_nat slot)) as [g' Hg'];
    [rewrite length_app; simpl; lia|]. rewrite Hg'. destruct (type g'); try done. rewrite length_app. simpl. lia.
Qed.


(** C26. A text in the code leads back to its own macro: the instruction of the
    macro holds a number, and printMessage has the macro's text under that
    number.  The passes that number the texts count the same macros. *)
Theorem texts_match pre m post t :
  script = pre ++ m :: post → text m = Some t → Z.of_nat (length (texts script)) <= 65535 →
  ∃ operand, code_at (Z.of_nat (length (route_code 1 pre))) = Some (number_of (text_opcode t)) ∧
    getOperand (Z.of_nat (length (route_code 1 pre))) 0 = Some operand ∧ message (u16 operand) = t.
Proof using serials lcn script.
  intros Hs Ht Hlen. set (id := 1 + Z.of_nat (length (texts pre))).
  assert (texts script = texts pre ++ t :: texts post) as Htexts by (rewrite Hs; unfold texts; rewrite omap_app; simpl; by rewrite Ht).
  rewrite Htexts, length_app in Hlen. simpl in Hlen.
  exists (u16 id). assert (∃ k, RouteCode = route_code 1 pre ++ op (text_opcode t) id ++ k) as [k Hk].
  { simpl. unfold compiled_code. rewrite Hs, route_code_app. simpl. rewrite counts_texts, (text_code m t) by done. rewrite <-!app_assoc. by eexists. }
  pose proof (code_at_app _ _ k Hk) as Hat. unfold op in Hat. rewrite V_value in Hat. split; [rewrite <-(Z.add_0_r (Z.of_nat _)); apply (Hat 0%nat); simpl; lia|]. split.
  - pose proof (Hat 1%nat ltac:(simpl; lia)) as H1. pose proof (Hat 2%nat ltac:(simpl; lia)) as H2. unfold getOperand. cbv zeta.
    change (u8 0 * 3) with 0. rewrite Z.add_0_r. change (Z.of_nat 1) with 1 in H1. change (Z.of_nat 2) with (1 + 1) in H2. rewrite Z.add_assoc in H2.
    rewrite H1. simpl. rewrite H2. simpl. f_equal. Z.div_mod_to_equations. lia.
  - simpl. assert (u16 (u16 id) = id) as -> by (unfold u16; Z.div_mod_to_equations; lia). unfold text_of. destruct (id <? 1) eqn:E; [lia|].
    replace (Z.to_nat (id - 1)) with (length (texts pre)) by lia. by rewrite Htexts, lookup_app_r, Nat.sub_diag by done.
Qed.

(** What a macro calls or starts. *)
Definition references (m : Macro) : list Z :=
  match m with
  | CALL id | FOLLOW id | START id | START_SHARED id | START_SEND id | SENDLOCO _ id
  | ROUTE_ACTIVE id | ROUTE_INACTIVE id | ROUTE_HIDDEN id | ROUTE_DISABLED id | ROUTE_CAPTION id _ => [id]
  | RANDOM_CALL sequences | RANDOM_FOLLOW sequences => sequences
  | _ => []
  end.
(** The sequence [id] starts at [pc]. *)
Definition starts (id pc : Z) : Prop :=
  ∃ o operand, o ∈ sequence_ops ∧ code_at pc = Some (number_of o) ∧ getOperand pc 0 = Some operand ∧ i16 operand = i16 id.

Lemma starts_cell l k : RouteCode = enc (l ++ [(OPCODE_ENDEXRAIL, 0)]) → (k < length l)%nat → ∀ id,
  starts id (3 * Z.of_nat k) ↔ ∃ c, l !! k = Some c ∧ sequence_key c = Some (i16 id).
Proof.
  intros Hcode Hk id. destruct (lookup_lt_is_Some_2 l k Hk) as [[o v] Hc].
  destruct (read_cell l Hcode k o v) as [Hat _]; [by apply lookup_app_l_Some|].
  pose proof (operand_at l Hcode k 0 (o, v)) as Hop. rewrite Nat.add_0_r in Hop. specialize (Hop (lookup_app_l_Some _ _ _ _ Hc) ltac:(lia)).
  change (Z.of_nat 0) with 0 in Hop. unfold starts. rewrite Hat, Hop, Hc. split.
  - intros (o' & w & Ho & [= Hno] & [= <-] & Hi). exists (o, v). split; [done|]. apply key_spec. eauto.
  - intros (c & [= <-] & [(o' & Ho & Hno) Hi]%key_spec). exists o', (u16 v). simpl in Hno, Hi. by rewrite Hno.
Qed.
Lemma reference_there pins m id : asserts pins script = true → m ∈ script → id ∈ references m → 0 < seqCount script (i16 id).
Proof.
  unfold asserts. rewrite forallb_forall. intros Ha Hm Hid. apply list_elem_of_In, Ha in Hm.
  assert (is_there script id = true) as Ht; [|unfold is_there in Ht; lia].
  destruct m; simpl in *; try (by apply elem_of_nil in Hid); try (by apply list_elem_of_singleton in Hid as ->).
  - rewrite forallb_forall in Hm. by apply Hm, list_elem_of_In.
  - rewrite forallb_forall in Hm. by apply Hm, list_elem_of_In.
Qed.
Lemma sequence_once pins v : asserts pins script = true → 0 < seqCount script v → seqCount script v = 1.
Proof.
  unfold asserts. rewrite forallb_forall. intros Ha Hv. assert (v ∈ compileTimeSequenceList script) as Hin.
  { unfold seqCount in Hv. destruct (List.filter _ _) as [|w ?] eqn:E; [simpl in Hv; lia|].
    assert (In w (List.filter (λ v0, v0 =? v) (compileTimeSequenceList script))) as Hw by (rewrite E; by left).
    apply filter_In in Hw as [Hw Ewv]. apply Z.eqb_eq in Ewv as <-. by apply list_elem_of_In. }
  unfold compileTimeSequenceList in Hin. apply list_elem_of_omap in Hin as (m & Hm & Hs). apply list_elem_of_In, Ha in Hm.
  destruct m; simpl in *; try done; injection Hs as <-; lia.
Qed.

(** C25. Every sequence that the code calls, follows, starts or shows is there, once:
    where the checks at compile time hold, the look-up list of the routes leads to
    the one place where the sequence starts. *)
Theorem references_resolve pins m id : script_ok n script → asserts pins script = true → m ∈ script → id ∈ references m →
  ∃ routes sequences pc, LookListLoader [OPCODE_ROUTE; OPCODE_AUTOMATION] = Some routes ∧ LookListLoader [OPCODE_SEQUENCE] = Some sequences ∧
    find (chain_to sequences routes) (i16 id) = Some pc ∧ pc_ok pc = true ∧ starts id pc ∧
    ∀ pc', pc_ok pc' = true → starts id pc' → pc' = pc.
Proof.
  intros (Hm & Hlen & _) Ha Hin Hid. destruct (compiled_cells n script Hm) as (l & Hl & Hg & _ & Hkeys).
  assert (RouteCode = enc (l ++ [(OPCODE_ENDEXRAIL, 0)])) as Hcode by exact Hl. pose proof (good_not_end _ _ Hg) as Hne.
  rewrite Hl, enc_length, length_app in Hlen. simpl in Hlen.
  pose proof (reference_there pins m id Ha Hin Hid) as Hthere. pose proof (sequence_once pins _ Ha Hthere) as Hone.
  unfold seqCount in Hone. rewrite <-Hkeys in Hone.
  assert (∀ j k c d, l !! j = Some c → sequence_key c = Some (i16 id) → l !! k = Some d → sequence_key d = Some (i16 id) → j = k) as Huniq.
  { intros j k c d. apply count_once. lia. }
  assert (∃ k c, l !! k = Some c ∧ sequence_key c = Some (i16 id)) as (k & c & Hk & Hc).
  { destruct (decide (i16 id ∈ omap sequence_key l)) as [(c & [k Hk]%list_elem_of_lookup & Hc)%list_elem_of_omap|Hno]; [eauto|]. exfalso.
    destruct (List.filter _ _) as [|w r] eqn:E; [simpl in Hone; lia|]. assert (In w (w :: r)) as Hw by (by left). rewrite <-E in Hw.
    apply filter_In in Hw as [Hw%list_elem_of_In Ew]. apply Z.eqb_eq in Ew as ->. done. }
  pose proof (lookup_lt_Some _ _ _ Hk) as Hlt. do 2 eexists. exists (3 * Z.of_nat k).
  split; [apply (LookListLoader_entries l Hcode Hne); lia|]. split; [apply (LookListLoader_entries l Hcode Hne); lia|].
  assert (∀ ops, key_of ops c = Some (i16 id) → ops ⊆ sequence_ops → ∃ w, (i16 id, w) ∈ entries ops 0 l) as Hin_ops.
  { intros ops Hkc _. eexists. apply elem_entries. eauto. }
  assert (∀ ops w, ops ⊆ sequence_ops → (i16 id, w) ∈ entries ops 0 l → w = 3 * Z.of_nat k) as Hw.
  { intros ops w Hsub (j & d & Hj & [(o & Ho & Hno) Hi]%key_spec & ->)%elem_entries. assert (j = k) as ->.
    { apply (Huniq j k d c); [done| |done|done]. apply key_spec. split; [exists o; split; [by apply Hsub|done]|done]. }
    unfold i16. Z.div_mod_to_equations. lia. }
  assert ([OPCODE_ROUTE; OPCODE_AUTOMATION] ⊆ sequence_ops) as Hsub1 by (unfold sequence_ops; set_solver).
  assert ([OPCODE_SEQUENCE] ⊆ sequence_ops) as Hsub2 by (unfold sequence_ops; set_solver).
  split.
  - unfold chain_to. edestruct (find_spec (entries [OPCODE_ROUTE; OPCODE_AUTOMATION] 0 l)) as [(w & -> & Hin1)|[Hno1 ->]]; [done|f_equal; by apply (Hw _ _ Hsub1)|].
    edestruct (find_spec (entries [OPCODE_SEQUENCE] 0 l)) as [(w & -> & Hin2)|[Hno2 _]]; [done|f_equal; by apply (Hw _ _ Hsub2)|].
    exfalso. apply key_spec in Hc as [(o & Ho & Hno) Hi]. unfold sequence_ops in Ho.
    destruct (Hin_ops [OPCODE_ROUTE; OPCODE_AUTOMATION]) as [w Hw1]; [apply key_spec; split; [exists o; split; [|done]|done]|done|by eapply Hno1].
    apply elem_of_cons in Ho as [->|Ho]; [by left|]. apply elem_of_cons in Ho as [->|Ho]; [by right; left|]. exfalso.
    apply list_elem_of_singleton in Ho as ->. destruct (Hin_ops [OPCODE_SEQUENCE]) as [w Hw2]; [apply key_spec; eauto using list_elem_of_here|done|by eapply Hno2].
  - pose proof (end_pc_placed l Hcode n Hg) as Hend. split; [unfold pc_ok; rewrite Hend; Z.div_mod_to_equations; lia|]. split; [apply (starts_cell l k Hcode Hlt); eauto|].
    intros pc' Hpc Hs. unfold pc_ok in Hpc. rewrite Hend in Hpc. assert (pc' = 3 * Z.of_nat (Z.to_nat (pc' / 3))) as Hpc' by (Z.div_mod_to_equations; lia).
    destruct (decide (Z.to_nat (pc' / 3) < length l)%nat) as [Hlt'|].
    + rewrite Hpc' in Hs |- *. apply (starts_cell l _ Hcode Hlt') in Hs as (d & Hd & Hkd). do 2 f_equal. by apply (Huniq _ k d c).
    + exfalso. assert (pc' = 3 * Z.of_nat (length l)) as -> by (Z.div_mod_to_equations; lia).
      destruct Hs as (o & w & Ho & Hat & _). destruct (read_cell l Hcode (length l) OPCODE_ENDEXRAIL 0) as [Hat' _]; [by rewrite lookup_app_r, Nat.sub_diag|].
      rewrite Hat' in Hat. injection Hat as Hat. unfold sequence_ops in Ho. rewrite !elem_of_cons, elem_of_nil in Ho. by destruct Ho as [->|[->|[->|[]]]].
Qed.
End compiled.

(** ** Witnesses *)

Definition demo : Script := [
  EXRAIL; ROUTE 1 (String (Ascii.ascii_of_nat 65) EmptyString); FWD 20; IFLOCO [3; 4]; PRINT [72; 105]; ELSE; RANDOM_CALL [7; 8]; ENDIF; SET_TRACK 1 1; DONE;
  SEQUENCE 7; RED 10; RETURN; SEQUENCE 8; GREEN 10; BROADCAST [79; 75]; RETURN; SIGNAL 10 0 12; ONLCC 513 5; DONE; ENDEXRAIL].
Lemma demo_script_ok : script_ok 1 demo.
Proof. split; [repeat constructor; vm_compute; intuition congruence|]. split; vm_compute; [done|lia]. Qed.
Lemma texts_match_witness : ∃ operand, @code_at (compile (λ _, false) false demo) 48 = Some (number_of OPCODE_PRINT) ∧
  @getOperand (compile (λ _, false) false demo) 48 0 = Some operand ∧
  @message (compile (λ _, false) false demo) (u16 operand) = Thrunge thrunge_broadcast 0 [79; 75].
Proof. exact (texts_match (λ _, false) false demo (take 15 demo) (BROADCAST [79; 75]) (drop 16 demo) (Thrunge thrunge_broadcast 0 [79; 75])
  eq_refl eq_refl ltac:(by vm_compute)). Defined.
Lemma references_resolve_witness : ∃ routes sequences pc,
  @LookListLoader (compile (λ _, false) false demo) [OPCODE_ROUTE; OPCODE_AUTOMATION] = Some routes ∧
  @LookListLoader (compile (λ _, false) false demo) [OPCODE_SEQUENCE] = Some sequences ∧
  find (chain_to sequences routes) (i16 8) = Some pc ∧ @pc_ok (compile (λ _, false) false demo) pc = true ∧
  @starts (λ _, false) false demo 8 pc ∧
  ∀ pc', @pc_ok (compile (λ _, false) false demo) pc' = true → @starts (λ _, false) false demo 8 pc' → pc' = pc.
Proof. apply (references_resolve (λ _, false) false 1 demo [1; 2] (RANDOM_CALL [7; 8]) 8); [apply demo_script_ok|by vm_compute|..]; set_solver. Defined.
End ExrailScript.
