(* ===== verification/Sha1.v ===== *)
(** SHA-1 (src/libsha1.cpp), which answers the key of a websocket connection: the
    transformation of a block with its rounds unrolled over five variables, as
    compiled for a little endian processor, and the context that takes a message
    in pieces. *)

From S2P Require Import Prelude.

Module Sha1.

(** The five working variables of SHA1Transform. *)
Inductive var := A | B | C | D | E.
Record Vars := mkVars { a : Z; b : Z; c : Z; d : Z; e : Z }.
Definition get (x : var) (r : Vars) : Z := match x with A => a r | B => b r | C => c r | D => d r | E => e r end.
Definition set (x : var) (z : Z) (r : Vars) : Vars :=
  match x with
  | A => mkVars z (b r) (c r) (d r) (e r) | B => mkVars (a r) z (c r) (d r) (e r) | C => mkVars (a r) (b r) z (d r) (e r)
  | D => mkVars (a r) (b r) (c r) z (e r) | E => mkVars (a r) (b r) (c r) (d r) z
  end.

Definition rol (value bits : Z) : Z := u32 (value <<' bits) .| (value >>' (32 - bits)).

(** The words of a block, as a processor with the low byte first sees its bytes. *)
Definition word_le (l : list Z) : Z :=
  match l with [p; q; r; s] => p .| (q <<' 8) .| (r <<' 16) .| (s <<' 24) | _ => 0 end.
Definition block_of (buffer : list Z) : list Z := (λ i, word_le (take 4 (drop (4 * i) buffer))) <$> seq 0 16.

(** The macros blk0 and blk: a word of the message, which is kept in the block. *)
Definition blk0 (i : Z) (block : list Z) : Z * list Z :=
  let l := block !!! Z.to_nat i in
  let v := (rol l 24 .& 0xFF00FF00) .| (rol l 8 .& 0x00FF00FF) in (v, <[Z.to_nat i := v]> block).
Definition blk (i : Z) (block : list Z) : Z * list Z :=
  let l k := block !!! Z.to_nat (k .& 15) in
  let v := rol (l (i + 13) .^ l (i + 8) .^ l (i + 2) .^ l i) 1 in (v, <[Z.to_nat (i .& 15) := v]> block).

(** The macros R0 to R4. *)
Inductive op := R0 | R1 | R2 | R3 | R4.
Definition mix (k : op) (w x y : Z) : Z :=
  match k with
  | R0 | R1 => (w .& (x .^ y)) .^ y
  | R2 | R4 => w .^ x .^ y
  | R3 => ((w .| x) .& y) .| (w .& x)
  end.
Definition constant (k : op) : Z :=
  match k with R0 | R1 => 0x5A827999 | R2 => 0x6ED9EBA1 | R3 => 0x8F1BBCDC | R4 => 0xCA62C1D6 end.
Definition call : Type := op * var * var * var * var * var * Z.
Definition round (s : Vars * list Z) (r : call) : Vars * list Z :=
  let '(k, v, w, x, y, z, i) := r in
  let '(vars, block) := s in
  let '(m, block) := (match k with R0 => blk0 | _ => blk end) i block in
  let vars := set z (u32 (get z vars + (mix k (get w vars) (get x vars) (get y vars) + m + constant k + rol (get v vars) 5))) vars in
  (set w (rol (get w vars) 30) vars, block).

(** 4 rounds of 20 operations each. Loop unrolled. *)
Definition rounds : list call := [
  (R0, A, B, C, D, E, 0); (R0, E, A, B, C, D, 1); (R0, D, E, A, B, C, 2); (R0, C, D, E, A, B, 3);
  (R0, B, C, D, E, A, 4); (R0, A, B, C, D, E, 5); (R0, E, A, B, C, D, 6); (R0, D, E, A, B, C, 7);
  (R0, C, D, E, A, B, 8); (R0, B, C, D, E, A, 9); (R0, A, B, C, D, E, 10); (R0, E, A, B, C, D, 11);
  (R0, D, E, A, B, C, 12); (R0, C, D, E, A, B, 13); (R0, B, C, D, E, A, 14); (R0, A, B, C, D, E, 15);
  (R1, E, A, B, C, D, 16); (R1, D, E, A, B, C, 17); (R1, C, D, E, A, B, 18); (R1, B, C, D, E, A, 19);
  (R2, A, B, C, D, E, 20); (R2, E, A, B, C, D, 21); (R2, D, E, A, B, C, 22); (R2, C, D, E, A, B, 23);
  (R2, B, C, D, E, A, 24); (R2, A, B, C, D, E, 25); (R2, E, A, B, C, D, 26); (R2, D, E, A, B, C, 27);
  (R2, C, D, E, A, B, 28); (R2, B, C, D, E, A, 29); (R2, A, B, C, D, E, 30); (R2, E, A, B, C, D, 31);
  (R2, D, E, A, B, C, 32); (R2, C, D, E, A, B, 33); (R2, B, C, D, E, A, 34); (R2, A, B, C, D, E, 35);
  (R2, E, A, B, C, D, 36); (R2, D, E, A, B, C, 37); (R2, C, D, E, A, B, 38); (R2, B, C, D, E, A, 39);
  (R3, A, B, C, D, E, 40); (R3, E, A, B, C, D, 41); (R3, D, E, A, B, C, 42); (R3, C, D, E, A, B, 43);
  (R3, B, C, D, E, A, 44); (R3, A, B, C, D, E, 45); (R3, E, A, B, C, D, 46); (R3, D, E, A, B, C, 47);
  (R3, C, D, E, A, B, 48); (R3, B, C, D, E, A, 49); (R3, A, B, C, D, E, 50); (R3, E, A, B, C, D, 51);
  (R3, D, E, A, B, C, 52); (R3, C, D, E, A, B, 53); (R3, B, C, D, E, A, 54); (R3, A, B, C, D, E, 55);
  (R3, E, A, B, C, D, 56); (R3, D, E, A, B, C, 57); (R3, C, D, E, A, B, 58); (R3, B, C, D, E, A, 59);
  (R4, A, B, C, D, E, 60); (R4, E, A, B, C, D, 61); (R4, D, E, A, B, C, 62); (R4, C, D, E, A, B, 63);
  (R4, B, C, D, E, A, 64); (R4, A, B, C, D, E, 65); (R4, E, A, B, C, D, 66); (R4, D, E, A, B, C, 67);
  (R4, C, D, E, A, B, 68); (R4, B, C, D, E, A, 69); (R4, A, B, C, D, E, 70); (R4, E, A, B, C, D, 71);
  (R4, D, E, A, B, C, 72); (R4, C, D, E, A, B, 73); (R4, B, C, D, E, A, 74); (R4, A, B, C, D, E, 75);
  (R4, E, A, B, C, D, 76); (R4, D, E, A, B, C, 77); (R4, C, D, E, A, B, 78); (R4, B, C, D, E, A, 79)].

Definition SHA1Transform (state : list Z) (buffer : list Z) : list Z :=
  let start := mkVars (state !!! 0%nat) (state !!! 1%nat) (state !!! 2%nat) (state !!! 3%nat) (state !!! 4%nat) in
  let r := (foldl round (start, block_of buffer) rounds).1 in
  [u32 (a start + a r); u32 (b start + b r); u32 (c start + c r); u32 (d start + d r); u32 (e start + e r)].

(** ** The context *)

Record SHA1_CTX := mkCtx { state : list Z; count0 : Z; count1 : Z; buffer : list Z }.

(** SHA1Init; the buffer is left as it is. *)
Definition SHA1Init (ctx : SHA1_CTX) : SHA1_CTX :=
  mkCtx [0x67452301; 0xEFCDAB89; 0x98BADCFE; 0x10325476; 0xC3D2E1F0] 0 0 (buffer ctx).

(** [memcpy(&to[at], from, length of from)] *)
Definition memcpy (to : list Z) (at_ : nat) (from : list Z) : list Z := take at_ to ++ from ++ drop (at_ + length from) to.

(** [for ( ; i + 63 < len; i += 64) SHA1Transform(state, &data[i])]: the state and
    what is left of the data. *)
Fixpoint whole_blocks (fuel : nat) (state : list Z) (data : list Z) : list Z * list Z :=
  match fuel with
  | O => (state, data)
  | S fuel =>
    if (63 <? length data)%nat then whole_blocks fuel (SHA1Transform state (take 64 data)) (drop 64 data) else (state, data)
  end.
Definition SHA1Update (ctx : SHA1_CTX) (data : list Z) : SHA1_CTX :=
  let len := Z.of_nat (length data) in
  let count0' := u32 (count0 ctx + u32 (len <<' 3)) in
  let count1' := u32 ((if count0' <? count0 ctx then u32 (count1 ctx + 1) else count1 ctx) + (len >>' 29)) in
  let j := Z.to_nat ((count0 ctx >>' 3) .& 63) in
  if (63 <? j + length data)%nat then
    let i := (64 - j)%nat in
    let buffer := memcpy (buffer ctx) j (take i data) in
    let '(state, rest) := whole_blocks (length data) (SHA1Transform (state ctx) buffer) (drop i data) in
    mkCtx state count0' count1' (memcpy buffer 0 rest)
  else mkCtx (state ctx) count0' count1' (memcpy (buffer ctx) j data).

(** [while ((count[0] & 504) != 448) SHA1Update(context, &c, 1)], at most 63 times. *)
Fixpoint pad (fuel : nat) (ctx : SHA1_CTX) : option SHA1_CTX :=
  match fuel with
  | O => None
  | S fuel => if (count0 ctx .& 504) =? 448 then Some ctx else pad fuel (SHA1Update ctx [0])
  end.
Definition byte_of (w : Z) (i : Z) : Z := (w >>' ((3 - (i .& 3)) * 8)) .& 255.
Definition SHA1Final (ctx : SHA1_CTX) : option (list Z) :=
  let finalcount := (λ i, byte_of (if i >=? 4 then count0 ctx else count1 ctx) i) <$> rangeZ 0 8 in
  ctx ← pad 64 (SHA1Update ctx [128]);
  let ctx := SHA1Update ctx finalcount in
  Some ((λ i, byte_of (state ctx !!! Z.to_nat (i >>' 2)) i) <$> rangeZ 0 20).
End Sha1.
