(* ===== verification/Sha1Props.v ===== *)
(** SHA-1 as FIPS 180 defines it, and the proof that the context computes it: the
    unrolled rounds are the compression function, and a message given in
    pieces of any lengths has the digest of the whole message. *)

From S2P Require Import Prelude Sha1.

Module Sha1Props.
Import Sha1.

(** ** The standard *)

Definition Ch (x y z : Z) : Z := (x .& y) .^ (Z.lnot x .& z).
Definition Parity (x y z : Z) : Z := x .^ y .^ z.
Definition Maj (x y z : Z) : Z := (x .& y) .^ (x .& z) .^ (y .& z).
Definition f (t : nat) (x y z : Z) : Z :=
  if (t <? 20)%nat then Ch x y z else if (t <? 40)%nat then Parity x y z else if (t <? 60)%nat then Maj x y z else Parity x y z.
Definition K (t : nat) : Z :=
  if (t <? 20)%nat then 0x5A827999 else if (t <? 40)%nat then 0x6ED9EBA1 else if (t <? 60)%nat then 0x8F1BBCDC else 0xCA62C1D6.

Definition word_be (l : list Z) : Z :=
  match l with [p; q; r; s] => (p <<' 24) .| (q <<' 16) .| (r <<' 8) .| s | _ => 0 end.
Definition message (block : list Z) : list Z := (λ i, word_be (take 4 (drop (4 * i) block))) <$> seq 0 16.
Fixpoint schedule (n : nat) (block : list Z) : list Z :=
  match n with
  | O => message block
  | S n => let w := schedule n block in let t := (n + 16)%nat in
           w ++ [rol (w !!! (t - 3)%nat .^ w !!! (t - 8)%nat .^ w !!! (t - 14)%nat .^ w !!! (t - 16)%nat) 1]
  end.
Definition W (block : list Z) (t : nat) : Z := schedule 64 block !!! t.

Definition step (block : list Z) (r : Vars) (t : nat) : Vars :=
  mkVars (u32 (rol (a r) 5 + f t (b r) (c r) (d r) + e r + K t + W block t)) (a r) (rol (b r) 30) (c r) (d r).
Definition compress (H : list Z) (block : list Z) : list Z :=
  let start := mkVars (H !!! 0%nat) (H !!! 1%nat) (H !!! 2%nat) (H !!! 3%nat) (H !!! 4%nat) in
  let r := foldl (step block) start (seq 0 80) in
  [u32 (a start + a r); u32 (b start + b r); u32 (c start + c r); u32 (d start + d r); u32 (e start + e r)].

Fixpoint absorb (n : nat) (H : list Z) (m : list Z) : list Z :=
  match n with O => H | S n => absorb n (compress H (take 64 m)) (drop 64 m) end.
Definition H0 : list Z := [0x67452301; 0xEFCDAB89; 0x98BADCFE; 0x10325476; 0xC3D2E1F0].
(** The [n] bytes of [z], the highest first. *)
Definition be_bytes (n z : Z) : list Z := (λ i, (z >>' (8 * (n - 1 - i))) mod 256) <$> rangeZ 0 n.
Definition padding (len : Z) : list Z := 128 :: replicate (Z.to_nat ((55 - len) mod 64)) 0 ++ be_bytes 8 (8 * len).
Definition sha1 (m : list Z) : list Z :=
  let p := m ++ padding (Z.of_nat (length m)) in
  concat (be_bytes 4 <$> absorb (length p / 64) H0 p).

(** ** The rounds *)

Lemma mix_f t k w x y : k = (if (t <? 16)%nat then R0 else if (t <? 20)%nat then R1 else if (t <? 40)%nat then R2 else if (t <? 60)%nat then R3 else R4) →
  mix k w x y = f t w x y ∧ constant k = K t.
Proof.
  intros ->. unfold f, K. destruct (t <? 16)%nat eqn:E1.
  - destruct (t <? 20)%nat eqn:E; [|lia]. split; [|done]. unfold mix, Ch. apply Z.bits_inj'. intros n Hn.
    rewrite !Z.lxor_spec, !Z.land_spec, !Z.lxor_spec, Z.lnot_spec by done. by destruct (Z.testbit w n), (Z.testbit x n), (Z.testbit y n).
  - destruct (t <? 20)%nat; [|destruct (t <? 40)%nat; [done|destruct (t <? 60)%nat; [|done]]].
    + split; [|done]. unfold mix, Ch. apply Z.bits_inj'. intros n Hn.
      rewrite !Z.lxor_spec, !Z.land_spec, !Z.lxor_spec, Z.lnot_spec by done. by destruct (Z.testbit w n), (Z.testbit x n), (Z.testbit y n).
    + split; [|done]. unfold mix, Maj. apply Z.bits_inj'. intros n Hn.
      rewrite !Z.lxor_spec, Z.lor_spec, !Z.land_spec, Z.lor_spec by done. by destruct (Z.testbit w n), (Z.testbit x n), (Z.testbit y n).
Qed.

(** blk0 turns the bytes of a word around. *)
Lemma bit_shift q k n : is_byte q → 0 <= k →
  Z.testbit (q <<' k) n = if (0 <=? n - k) && (n - k <? 8) then Z.testbit q (n - k) else false.
Proof.
  intros Hq Hk. destruct (0 <=? n - k) eqn:E1; simpl.
  - rewrite Z.shiftl_spec by lia. destruct (n - k <? 8) eqn:E2; [done|]. destruct (decide (q = 0)) as [->|]; [apply Z.bits_0|].
    unfold is_byte in Hq. apply Z.bits_above_log2; [lia|]. apply Z.lt_le_trans with 8; [|lia]. apply Z.log2_lt_pow2; lia.
  - destruct (decide (n < 0)); [by rewrite Z.testbit_neg_r|]. apply Z.shiftl_spec_low. lia.
Qed.
Lemma byte_bits q : is_byte q → ∃ g : Z → bool, ∀ k n, 0 <= k →
  Z.testbit (q <<' k) n = if (0 <=? n - k) && (n - k <? 8) then g (n - k) else false.
Proof. intros Hq. exists (Z.testbit q). intros. by apply bit_shift. Qed.
Lemma swap_bytes p q r s : is_byte p → is_byte q → is_byte r → is_byte s →
  (rol (word_le [p; q; r; s]) 24 .& 0xFF00FF00) .| (rol (word_le [p; q; r; s]) 8 .& 0x00FF00FF) = word_be [p; q; r; s].
Proof.
  intros Hp Hq Hr Hs. unfold word_le, word_be, rol, u32. change 4294967296 with (2 ^ 32). apply Z.bits_inj'. intros n Hn.
  destruct (decide (n < 32)) as [Hlt|Hge].
  - rewrite ?Z.lor_spec, ?Z.land_spec, ?Z.lor_spec, ?Z.mod_pow2_bits_low by lia.
    rewrite (Z.shiftl_spec _ 24), (Z.shiftl_spec _ 8 n), !Z.shiftr_spec, !Z.lor_spec by lia.
    destruct (byte_bits p Hp) as [fp Ep], (byte_bits q Hq) as [fq Eq], (byte_bits r Hr) as [fr Er], (byte_bits s Hs) as [fs Es].
    rewrite <-(Z.shiftl_0_r p), <-(Z.shiftl_0_r s).
    rewrite !Z.shiftl_shiftl, !Ep, !Eq, !Er, !Es by lia. clear -Hn Hlt. revert n Hn Hlt.
    assert (∀ (P : Z → Prop), Forall P (rangeZ 0 32) → ∀ n, 0 <= n → n < 32 → P n) as Hall.
    { intros P HP n Hn Hlt. rewrite Forall_forall in HP. apply HP, elem_of_rangeZ. lia. }
    apply Hall. clear Hall. repeat (apply Forall_cons; split); [..|apply Forall_nil; done]; vm_compute;
      repeat match goal with |- context [?g ?i] => is_var g; destruct (g i) end; done.
  - rewrite !Z.lor_spec, !Z.land_spec, (Z.bits_above_log2 0xFF00FF00), (Z.bits_above_log2 0x00FF00FF), !andb_false_r by (simpl; lia).
    rewrite <-(Z.shiftl_0_r s), !bit_shift by (done || lia). repeat (case_match; [lia|]). done.
Qed.

(** ** The schedule *)

Lemma schedule_length n block : length (schedule n block) = (16 + n)%nat.
Proof. induction n as [|n IH]; simpl; [done|]. rewrite length_app, IH. simpl. lia. Qed.
Lemma schedule_prefix n k block t : (t < 16 + n)%nat → schedule (n + k) block !!! t = schedule n block !!! t.
Proof.
  intros Ht. induction k as [|k IH]; [by rewrite Nat.add_0_r|]. rewrite Nat.add_succ_r. simpl.
  rewrite lookup_total_app_l; [done|]. rewrite schedule_length. lia.
Qed.
Lemma W_message block t : (t < 16)%nat → W block t = word_be (take 4 (drop (4 * t) block)).
Proof.
  intros Ht. unfold W. rewrite (schedule_prefix 0 64) by lia. simpl. unfold message. apply list_lookup_total_correct.
  rewrite list_lookup_fmap, lookup_seq_lt by lia. done.
Qed.
Lemma W_step block t : (16 <= t < 80)%nat →
  W block t = rol (W block (t - 3) .^ W block (t - 8) .^ W block (t - 14) .^ W block (t - 16)) 1.
Proof.
  intros Ht. unfold W. pose proof (schedule_prefix (t - 16)) as Hp.
  assert (∀ s, (s < t)%nat → schedule 64 block !!! s = schedule (t - 16) block !!! s) as Hs.
  { intros s Hs. rewrite <-(Hp (80 - t)%nat) by lia. do 2 f_equal. lia. }
  rewrite (Hs (t - 3)%nat), (Hs (t - 8)%nat), (Hs (t - 14)%nat), (Hs (t - 16)%nat) by lia. assert (schedule 64 block !!! t = schedule (S (t - 16)) block !!! t) as ->.
  { rewrite <-(schedule_prefix (S (t - 16)) (79 - t)) by lia. do 2 f_equal. lia. }
  simpl. rewrite lookup_total_app_r by (rewrite schedule_length; lia). rewrite schedule_length.
  replace (t - (16 + (t - 16)))%nat with 0%nat by lia. replace (t - 16 + 16)%nat with t by lia. done.
Qed.

(** What the block of the code holds before round [t]: the last 16 words, or the
    bytes of the words to come the other way round. *)
Definition Block (data : list Z) (t : nat) (block : list Z) : Prop :=
  length block = 16%nat ∧
  (∀ s, (s < t)%nat → (t <= s + 16)%nat → block !! (s mod 16)%nat = Some (W data s)) ∧
  (∀ s, (t <= s < 16)%nat → block !! s = Some (word_le (take 4 (drop (4 * s) data)))).

Lemma Block_start data : Block data 0 (block_of data).
Proof. split; [done|]. split; [lia|]. intros s Hs. unfold block_of. rewrite list_lookup_fmap, lookup_seq_lt by lia. done. Qed.
Lemma Block_insert data t block : Block data t block → Block data (S t) (<[(t mod 16)%nat := W data t]> block).
Proof.
  intros (Hl & Hw & Hr). split; [by rewrite length_insert|]. split.
  - intros s Hs Hs'. destruct (decide (s = t)) as [->|Hne].
    + apply list_lookup_insert_eq. rewrite Hl. apply Nat.mod_upper_bound. lia.
    + rewrite list_lookup_insert_ne; [apply Hw; lia|]. intros E. pose proof (Nat.div_mod_eq s 16). pose proof (Nat.div_mod_eq t 16). lia.
  - intros s Hs. rewrite Nat.mod_small by lia. rewrite list_lookup_insert_ne by lia. apply Hr. lia.
Qed.
Lemma and_15 z : z .& 15 = z mod 16.
Proof. change 15 with (Z.ones 4). by rewrite Z.land_ones. Qed.
Lemma and_15_nat t : Z.to_nat (Z.of_nat t .& 15) = (t mod 16)%nat.
Proof. rewrite and_15. change 16 with (Z.of_nat 16). by rewrite <-Nat2Z.inj_mod, Nat2Z.id. Qed.
Lemma chunk4 (data : list Z) t : (4 * t + 4 <= length data)%nat → Forall is_byte data →
  ∃ p q r s, take 4 (drop (4 * t) data) = [p; q; r; s] ∧ is_byte p ∧ is_byte q ∧ is_byte r ∧ is_byte s.
Proof.
  intros Hl Hb. assert (length (take 4 (drop (4 * t) data)) = 4%nat) as H4 by (rewrite length_take, length_drop; lia).
  assert (Forall is_byte (take 4 (drop (4 * t) data))) as Hf by (by apply Forall_take, Forall_drop).
  destruct (take 4 _) as [|p [|q [|r [|s [|? ?]]]]]; try done. exists p, q, r, s. rewrite !Forall_cons in Hf. by destruct_and! Hf.
Qed.
Lemma blk0_word data block t : (t < 16)%nat → length data = 64%nat → Forall is_byte data → Block data t block →
  ∃ block', blk0 (Z.of_nat t) block = (W data t, block') ∧ Block data (S t) block'.
Proof.
  intros Ht Hl Hb HB. destruct (HB) as (_ & _ & Hr). unfold blk0. assert (t <= t < 16)%nat as Htt by lia. rewrite Nat2Z.id, (list_lookup_total_correct _ _ _ (Hr t Htt)).
  pose proof (Block_insert _ _ _ HB) as HB'. rewrite W_message, Nat.mod_small in * by done.
  destruct (chunk4 data t) as (p & q & r & s & E & ? & ? & ? & ?); [lia|done|]. rewrite E, swap_bytes in * by done. by eexists.
Qed.
Lemma blk_word data block t : (16 <= t < 80)%nat → Block data t block →
  ∃ block', blk (Z.of_nat t) block = (W data t, block') ∧ Block data (S t) block'.
Proof.
  intros Ht HB. destruct (HB) as (Hl & Hw & _).
  assert (∀ k j : nat, (k < 16)%nat → (k + j = 16)%nat → (1 <= j)%nat → block !!! Z.to_nat ((Z.of_nat t + Z.of_nat k) .& 15) = W data (t - j)) as Hk.
  { intros k j Hk Hj Hj1. apply list_lookup_total_correct. rewrite <-(Hw (t - j)%nat) by lia. f_equal. rewrite and_15.
    replace (Z.of_nat t + Z.of_nat k) with (Z.of_nat (t - j + 1 * 16)) by lia. rewrite <-(Nat2Z.inj_mod _ 16), Nat2Z.id. apply Nat.Div0.mod_add. }
  pose proof (Hk 13%nat 3%nat ltac:(lia) ltac:(lia) ltac:(lia)) as H13. pose proof (Hk 8%nat 8%nat ltac:(lia) ltac:(lia) ltac:(lia)) as H8.
  pose proof (Hk 2%nat 14%nat ltac:(lia) ltac:(lia) ltac:(lia)) as H2. pose proof (Hk 0%nat 16%nat ltac:(lia) ltac:(lia) ltac:(lia)) as H0.
  change (Z.of_nat 13) with 13 in H13. change (Z.of_nat 8) with 8 in H8. change (Z.of_nat 2) with 2 in H2. change (Z.of_nat 0) with 0 in H0. rewrite Z.add_0_r in H0. unfold blk. rewrite H13, H8, H2, H0, <-W_step by done.
  eexists. split; [done|]. rewrite and_15_nat. by apply Block_insert.
Qed.

(** ** The unrolled rounds *)

Definition op_at (t : nat) : op :=
  if (t <? 16)%nat then R0 else if (t <? 20)%nat then R1 else if (t <? 40)%nat then R2 else if (t <? 60)%nat then R3 else R4.
(** The roles of the variables move on by one with each round. *)
Definition roles (t : nat) : var * var * var * var * var :=
  match (t mod 5)%nat with
  | 0%nat => (A, B, C, D, E) | 1%nat => (E, A, B, C, D) | 2%nat => (D, E, A, B, C) | 3%nat => (C, D, E, A, B) | _ => (B, C, D, E, A)
  end.
Definition call_at (t : nat) : call := let '(v, w, x, y, z) := roles t in (op_at t, v, w, x, y, z, Z.of_nat t).
Lemma rounds_regular : rounds = call_at <$> seq 0 80.
Proof. by vm_compute. Qed.
Definition view (t : nat) (r : Vars) : Vars := let '(v, w, x, y, z) := roles t in mkVars (get v r) (get w r) (get x r) (get y r) (get z r).

Lemma round_step data t r block : (t < 80)%nat → length data = 64%nat → Forall is_byte data → Block data t block →
  ∃ r' block', round (r, block) (call_at t) = (r', block') ∧
    view (S t) r' = step data (view t r) t ∧ Block data (S t) block'.
Proof.
  intros Ht Hl Hb HB.
  assert (∃ block', (match op_at t with R0 => blk0 | _ => blk end) (Z.of_nat t) block = (W data t, block') ∧ Block data (S t) block') as (block' & Hblk & HB').
  { unfold op_at. destruct (t <? 16)%nat eqn:E1; [apply blk0_word; [lia|done..]|].
    assert (∃ block', blk (Z.of_nat t) block = (W data t, block') ∧ Block data (S t) block') as Hw by (apply blk_word; [lia|done]).
    destruct (t <? 20)%nat; [done|]. destruct (t <? 40)%nat; [done|]. by destruct (t <? 60)%nat. }
  pose proof (λ w x y, mix_f t (op_at t) w x y eq_refl) as Hf.
  unfold view, call_at, roles, round. rewrite (Nat.Div0.add_mod 1 t 5) || replace (S t mod 5)%nat with ((t mod 5 + 1) mod 5)%nat by (rewrite Nat.Div0.add_mod_idemp_l; f_equal; lia).
  pose proof (Nat.mod_upper_bound t 5 ltac:(lia)) as H5. destruct (t mod 5)%nat as [|[|[|[|[|?]]]]]; [..|lia]; simpl Nat.modulo; cbv beta iota zeta;
    rewrite Hblk; do 2 eexists; (split; [reflexivity|]); (split; [|done]); unfold step; destruct r; simpl;
    destruct (Hf (get B (mkVars a0 b0 c0 d0 e0)) (get C (mkVars a0 b0 c0 d0 e0)) (get D (mkVars a0 b0 c0 d0 e0))) as [_ HK];
    rewrite HK; f_equal; rewrite (proj1 (Hf _ _ _)); f_equal; lia.
Qed.
Lemma rounds_steps data : length data = 64%nat → Forall is_byte data → ∀ n t r block, (t + n <= 80)%nat → Block data t block →
  ∃ r' block', foldl round (r, block) (call_at <$> seq t n) = (r', block') ∧
    view (t + n) r' = foldl (step data) (view t r) (seq t n).
Proof.
  intros Hl Hb. induction n as [|n IH]; intros t r block Ht HB; [exists r, block; by rewrite Nat.add_0_r|].
  destruct (round_step data t r block) as (r1 & block1 & H1 & H2 & H3); [lia|done..|].
  change (seq t (S n)) with (t :: seq (S t) n). rewrite fmap_cons. cbn [foldl]. rewrite H1, <-H2.
  destruct (IH (S t) r1 block1) as (r' & block' & H4 & H5); [lia|done|]. exists r', block'. split; [done|]. rewrite <-H5. f_equal. lia.
Qed.
Lemma transform_compress H data : length data = 64%nat → Forall is_byte data → SHA1Transform H data = compress H data.
Proof.
  intros Hl Hb. unfold SHA1Transform, compress. rewrite rounds_regular.
  destruct (rounds_steps data Hl Hb 80 0 (mkVars (H !!! 0%nat) (H !!! 1%nat) (H !!! 2%nat) (H !!! 3%nat) (H !!! 4%nat)) (block_of data))
    as (r & block & -> & Hv); [lia|apply Block_start|]. cbn [fst]. change (view (0 + 80) r) with r in Hv || (destruct r; change (view (0 + 80) _) with (mkVars a0 b0 c0 d0 e0) in Hv).
  by rewrite Hv.
Qed.

(** ** The context *)

Lemma absorb_add n k H m : absorb (n + k) H m = absorb k (absorb n H m) (drop (64 * n) m).
Proof.
  revert H m. induction n as [|n IH]; intros H m; [done|]. simpl absorb. rewrite IH, drop_drop. do 2 f_equal. lia.
Qed.
Lemma absorb_app n H m x : (64 * n <= length m)%nat → absorb n H (m ++ x) = absorb n H m.
Proof.
  revert H m. induction n as [|n IH]; intros H m Hn; [done|]. simpl. rewrite take_app_le, drop_app_le by lia. apply IH. rewrite length_drop. lia.
Qed.

(** The context after the message [m]. *)
Record Rep (m : list Z) (ctx : SHA1_CTX) : Prop := {
  rep_state : Sha1.state ctx = absorb (length m / 64) H0 m;
  rep_count0 : count0 ctx = u32 (8 * Z.of_nat (length m));
  rep_count1 : count1 ctx = u32 (8 * Z.of_nat (length m) / 4294967296);
  rep_buffer : length (buffer ctx) = 64%nat;
  rep_rest : take (length m mod 64) (buffer ctx) = drop (64 * (length m / 64)) m;
  rep_bytes : Forall is_byte m;
}.

Lemma whole_blocks_absorb fuel : ∀ H data, (length data / 64 <= fuel)%nat → Forall is_byte data →
  whole_blocks fuel H data = (absorb (length data / 64) H data, drop (64 * (length data / 64)) data).
Proof.
  induction fuel as [|fuel IH]; intros H data Hf Hb; cbn [whole_blocks].
  - assert (length data / 64 = 0)%nat as -> by lia. done.
  - destruct (63 <? length data)%nat eqn:E.
    + assert (length data / 64 = S (length (drop 64 data) / 64))%nat as E64.
      { rewrite length_drop. replace (length data) with (length data - 64 + 1 * 64)%nat at 1 by lia. rewrite Nat.div_add by lia. lia. }
      rewrite IH by (lia || by apply Forall_drop). rewrite E64. simpl absorb. rewrite transform_compress, drop_drop;
        [|rewrite length_take; lia|by apply Forall_take]. do 2 f_equal. lia.
    + rewrite Nat.div_small by lia. done.
Qed.
Lemma memcpy_length to k from : (k + length from <= length to)%nat → length (memcpy to k from) = length to.
Proof. intros Hk. unfold memcpy. rewrite !length_app, length_take, length_drop. lia. Qed.
Lemma memcpy_take to k from : (k <= length to)%nat → take (k + length from) (memcpy to k from) = take k to ++ from.
Proof.
  intros Hk. unfold memcpy. rewrite app_assoc, take_app_le; [|rewrite length_app, length_take; lia].
  apply take_ge. rewrite length_app, length_take. lia.
Qed.
Lemma count_place len : Z.to_nat ((u32 (8 * Z.of_nat len) >>' 3) .& 63) = (len mod 64)%nat.
Proof.
  change 63 with (Z.ones 6). rewrite Z.land_ones, Z.shiftr_div_pow2 by lia. unfold u32. change (2 ^ 3) with 8. change (2 ^ 6) with 64.
  apply Nat2Z.inj. rewrite Nat2Z.inj_mod, Z2Nat.id by (Z.div_mod_to_equations; lia). Z.div_mod_to_equations. lia.
Qed.

Lemma count_add L n : 0 <= L → 0 <= n < 4294967296 →
  let c0 := u32 (u32 (8 * L) + u32 (n * 8)) in
  c0 = u32 (8 * (L + n)) ∧
  u32 ((if c0 <? u32 (8 * L) then u32 (u32 (8 * L / 4294967296) + 1) else u32 (8 * L / 4294967296)) + n / 536870912) = u32 (8 * (L + n) / 4294967296).
Proof.
  intros HL Hn. cbv zeta. assert (u32 (u32 (8 * L) + u32 (n * 8)) = u32 (8 * (L + n))) as -> by (unfold u32; Z.div_mod_to_equations; lia).
  split; [done|]. unfold u32. destruct (_ <? _) eqn:E; Z.div_mod_to_equations; lia.
Qed.

Lemma update_rep m ctx data : Rep m ctx → Forall is_byte data → Z.of_nat (length data) < 4294967296 →
  Rep (m ++ data) (SHA1Update ctx data).
Proof.
  intros [Hs H0' H1 Hbuf Hrest Hm] Hd Hlen.
  assert (let c0 := u32 (count0 ctx + u32 (Z.of_nat (length data) <<' 3)) in
    c0 = u32 (8 * Z.of_nat (length (m ++ data))) ∧
    u32 ((if c0 <? count0 ctx then u32 (count1 ctx + 1) else count1 ctx) + (Z.of_nat (length data) >>' 29)) =
      u32 (8 * Z.of_nat (length (m ++ data)) / 4294967296)) as [Hc0 Hc1].
  { cbv zeta. rewrite H0', H1, Z.shiftl_mul_pow2, Z.shiftr_div_pow2, length_app by lia. change (2 ^ 3) with 8. change (2 ^ 29) with 536870912.
    rewrite Nat2Z.inj_add. apply count_add; lia. }
  unfold SHA1Update. rewrite H0', count_place, <-H0'. cbv zeta in Hc0, Hc1 |- *. rewrite Hc1, Hc0. clear Hc0 Hc1.
  pose proof (Nat.mod_upper_bound (length m) 64 ltac:(lia)) as Hj. pose proof (Nat.div_mod_eq (length m) 64) as Hdm.
  set (j := (length m mod 64)%nat) in *. set (q := (length m / 64)%nat) in *.
  destruct (63 <? j + length data)%nat eqn:E.
  - set (b1 := memcpy (buffer ctx) j (take (64 - j) data)).
    assert (b1 = take 64 (drop (64 * q) (m ++ data))) as Hb1.
    { unfold b1, memcpy. rewrite drop_ge by (rewrite length_take; lia). rewrite app_nil_r, Hrest, drop_app_le by lia.
      rewrite take_app_ge by (rewrite length_drop; lia). do 2 f_equal. rewrite length_drop. lia. }
    assert (drop (64 - j) data = drop (64 * S q) (m ++ data)) as Hd1.
    { rewrite drop_app_ge by lia. f_equal. lia. }
    assert (Forall is_byte (m ++ data)) as Hmd by (by apply Forall_app).
    assert (length b1 = 64%nat) as Hl1 by (rewrite Hb1, length_take, length_drop, length_app; lia).
    rewrite whole_blocks_absorb; [|rewrite length_drop; pose proof (Nat.div_le_upper_bound (length data - (64 - j)) 64 (length data)); lia|by apply Forall_drop].
    assert (SHA1Transform (Sha1.state ctx) b1 = absorb (S q) H0 (m ++ data)) as ->.
    { rewrite transform_compress, Hs by (done || rewrite Hb1; by apply Forall_take, Forall_drop).
      rewrite <-(Nat.add_1_r q), absorb_add, absorb_app by lia. simpl. by rewrite Hb1. }
    rewrite Hd1. set (M := m ++ data) in *.
    assert (S q + length (drop (64 * S q) M) / 64 = length M / 64)%nat as Hk.
    { rewrite length_drop. assert (64 * S q <= length M)%nat as Hle by (unfold M; rewrite length_app; lia).
      replace (length M) with (length M - 64 * S q + S q * 64)%nat at 2 by lia. rewrite Nat.div_add by lia. lia. }
    rewrite <-absorb_add, drop_drop, <-Nat.mul_add_distr_l, Hk.
    pose proof (Nat.div_mod_eq (length M) 64) as HdM. pose proof (Nat.mod_upper_bound (length M) 64 ltac:(lia)).
    assert (length (drop (64 * (length M / 64)) M) = length M mod 64)%nat as Hr by (rewrite length_drop; lia).
    split; [done..| | |done]; cbn [Sha1.buffer].
    + rewrite memcpy_length; [done|lia].
    + rewrite <-Hr at 1. apply (memcpy_take _ 0). lia.
  - set (M := m ++ data) in *. assert (length M = length m + length data)%nat as HM by (unfold M; by rewrite length_app).
    assert (length M / 64 = q)%nat as Hq by (symmetry; apply (Nat.div_unique _ _ _ (j + length data)); lia).
    assert (length M mod 64 = j + length data)%nat as Hr by (symmetry; apply (Nat.mod_unique _ _ q); lia).
    split; cbn [Sha1.buffer Sha1.state Sha1.count0 Sha1.count1]; rewrite ?Hq, ?Hr; [|done|done| | |by apply Forall_app].
    + rewrite Hs. symmetry. apply absorb_app. lia.
    + rewrite memcpy_length; lia.
    + rewrite memcpy_take, Hrest by lia. unfold M. by rewrite drop_app_le by lia.
Qed.
Lemma init_rep ctx : length (buffer ctx) = 64%nat → Rep [] (SHA1Init ctx).
Proof. intros Hl. split; [done..|by apply Forall_nil]. Qed.
Lemma updates_rep chunks : ∀ m ctx, Rep m ctx → Forall (Forall is_byte) chunks → Forall (λ x, Z.of_nat (length x) < 4294967296) chunks →
  Rep (m ++ concat chunks) (foldl SHA1Update ctx chunks).
Proof.
  induction chunks as [|x chunks IH]; intros m ctx HR Hb Hl; [by rewrite app_nil_r|]. apply Forall_cons in Hb as [Hx Hb]. apply Forall_cons in Hl as [Hlx Hl].
  simpl. rewrite app_assoc. apply IH; [|done..]. by apply update_rep.
Qed.

(** ** The end of the message *)

Lemma count_56 len : ((u32 (8 * Z.of_nat len) .& 504) =? 448) = (len mod 64 =? 56)%nat.
Proof.
  pose proof (count_place len) as Hp. assert (u32 (8 * Z.of_nat len) = (u32 (8 * Z.of_nat len) >>' 3) <<' 3) as ->.
  { unfold u32. rewrite Z.shiftr_div_pow2, Z.shiftl_mul_pow2 by lia. change (2 ^ 3) with 8. Z.div_mod_to_equations. lia. }
  change 504 with (63 <<' 3). rewrite <-Z.shiftl_land. assert (0 <= (u32 (8 * Z.of_nat len) >>' 3) .& 63) as Hn by (apply Z.land_nonneg; right; lia).
  rewrite Z.shiftl_mul_pow2 by lia. change (2 ^ 3) with 8. lia.
Qed.
Lemma pad_rep fuel : ∀ m ctx k, Rep m ctx → (k < fuel)%nat → ((length m + k) mod 64 = 56)%nat → (∀ j, (j < k)%nat → ((length m + j) mod 64 ≠ 56)%nat) →
  ∃ ctx', pad fuel ctx = Some ctx' ∧ Rep (m ++ replicate k 0) ctx'.
Proof.
  induction fuel as [|fuel IH]; intros m ctx k HR Hk Hend Hbefore; [lia|]. simpl pad. rewrite (rep_count0 _ _ HR), count_56. destruct k as [|k].
  - rewrite Nat.add_0_r in Hend. rewrite Hend. simpl. exists ctx. by rewrite app_nil_r.
  - pose proof (Hbefore 0%nat ltac:(lia)) as H0'. rewrite Nat.add_0_r in H0'. destruct (_ =? 56)%nat eqn:E; [lia|].
    destruct (IH (m ++ [0]) (SHA1Update ctx [0]) k) as (ctx' & -> & HR').
    + apply update_rep; [done|by repeat constructor|done].
    + lia.
    + rewrite length_app. simpl. by replace (length m + 1 + k)%nat with (length m + S k)%nat by lia.
    + intros j Hj. rewrite length_app. simpl. replace (length m + 1 + j)%nat with (length m + S j)%nat by lia. apply Hbefore. lia.
    + exists ctx'. split; [done|]. by rewrite <-app_assoc in HR'.
Qed.
Lemma byte_of_div w i k : 0 <= k → (3 - (i .& 3)) * 8 = k → byte_of w i = w / 2 ^ k mod 256.
Proof. intros Hk <-. unfold byte_of. change 255 with (Z.ones 8). by rewrite Z.land_ones, Z.shiftr_div_pow2 by lia. Qed.
Lemma byte_low L k : 0 <= k <= 24 → (L mod 2 ^ 32 / 2 ^ k) mod 2 ^ 8 = (L / 2 ^ k) mod 2 ^ 8.
Proof.
  intros Hk. rewrite <-!Z.shiftr_div_pow2 by lia. apply Z.bits_inj'. intros n Hn. destruct (decide (n < 8)).
  - by rewrite !Z.mod_pow2_bits_low, !Z.shiftr_spec, Z.mod_pow2_bits_low by lia.
  - by rewrite !Z.mod_pow2_bits_high by lia.
Qed.
Lemma final_count L : 0 <= L < 18446744073709551616 →
  ((λ i, byte_of (if i >=? 4 then u32 L else u32 (L / 4294967296)) i) <$> rangeZ 0 8) = be_bytes 8 L.
Proof.
  intros HL. unfold be_bytes. change (rangeZ 0 8) with [0; 1; 2; 3; 4; 5; 6; 7]. cbn [fmap list_fmap Z.geb Z.compare Pos.compare Pos.compare_cont].
  rewrite !Z.shiftr_div_pow2 by lia.
  rewrite (byte_of_div _ 0 24), (byte_of_div _ 1 16), (byte_of_div _ 2 8), (byte_of_div _ 3 0), (byte_of_div _ 4 24), (byte_of_div _ 5 16),
    (byte_of_div _ 6 8), (byte_of_div _ 7 0) by (done || lia).
  unfold u32. change 4294967296 with (2 ^ 32). change 256 with (2 ^ 8). rewrite !byte_low by lia. rewrite !Z.div_div by lia.
  rewrite <-!Z.pow_add_r by lia. done.
Qed.
Lemma digest_bytes st : length st = 5%nat → ((λ i, byte_of (st !!! Z.to_nat (i >>' 2)) i) <$> rangeZ 0 20) = concat (be_bytes 4 <$> st).
Proof.
  intros Hl. destruct st as [|p [|q [|r [|s [|t [|? ?]]]]]]; try done.
  assert (∀ w, be_bytes 4 w = [byte_of w 0; byte_of w 1; byte_of w 2; byte_of w 3]) as Hw.
  { intros w. unfold be_bytes. change (rangeZ 0 4) with [0; 1; 2; 3]. cbn [fmap list_fmap]. rewrite !Z.shiftr_div_pow2 by lia.
    by rewrite (byte_of_div _ 0 24), (byte_of_div _ 1 16), (byte_of_div _ 2 8), (byte_of_div _ 3 0) by (done || lia). }
  cbn [fmap list_fmap concat]. rewrite !Hw. done.
Qed.
Lemma absorb_length n H m : length H = 5%nat → length (absorb n H m) = 5%nat.
Proof. revert H m. induction n as [|n IH]; intros H m Hl; [done|]. simpl. by apply IH. Qed.

Lemma final_sha1 m c : Rep m c → Z.of_nat (length m) < 2305843009213693952 → SHA1Final c = Some (sha1 m).
Proof.
  intros HR Hlen.
  assert (Rep (m ++ [128]) (SHA1Update c [128])) as HR1 by (apply update_rep; [done|by repeat constructor|done]).
  set (k := Z.to_nat ((55 - Z.of_nat (length m)) mod 64)).
  destruct (pad_rep 64 _ _ k HR1) as (c2 & Hpad & HR2).
  - unfold k. Z.div_mod_to_equations. lia.
  - rewrite length_app. simpl length. unfold k. Z.div_mod_to_equations. lia.
  - intros j Hj. rewrite length_app. simpl length. unfold k in Hj. Z.div_mod_to_equations. lia.
  - unfold SHA1Final. cbv zeta. rewrite (rep_count0 _ _ HR), (rep_count1 _ _ HR), Hpad. cbn [mbind option_bind].
    rewrite final_count by lia.
    assert (Rep ((m ++ [128]) ++ replicate k 0 ++ be_bytes 8 (8 * Z.of_nat (length m))) (SHA1Update c2 (be_bytes 8 (8 * Z.of_nat (length m))))) as HR3.
    { rewrite app_assoc. apply update_rep; [done| |done]. unfold be_bytes. apply Forall_fmap, Forall_true. intros i. apply Z.mod_pos_bound. lia. }
    rewrite <-app_assoc in HR3. simpl app in HR3. f_equal. rewrite digest_bytes, (rep_state _ _ HR3); [done|]. rewrite (rep_state _ _ HR3). by apply absorb_length.
Qed.

(** C28. SHA-1 of a message given in pieces of any lengths is the SHA-1 of the
    standard of the whole message: the rounds that are unrolled over five variables and
    a block of sixteen words are the compression function with its 80 word
    schedule, and the buffering, the counts of bits and the padding are right
    for every message shorter than 2^61 bytes. *)
Theorem sha1_streams (ctx : SHA1_CTX) (chunks : list (list Z)) :
  length (buffer ctx) = 64%nat → Forall (Forall is_byte) chunks → Forall (λ x, Z.of_nat (length x) < 4294967296) chunks →
  Z.of_nat (length (concat chunks)) < 2305843009213693952 →
  SHA1Final (foldl SHA1Update (SHA1Init ctx) chunks) = Some (sha1 (concat chunks)).
Proof.
  intros Hbuf Hb Hl Hlen. apply final_sha1; [|done]. exact (updates_rep chunks [] _ (init_rep ctx Hbuf) Hb Hl).
Qed.

(** The first example of the standard, abc in two pieces, and a message of two
    blocks in pieces that cross their border. *)
Definition any_ctx : SHA1_CTX := mkCtx [] 0 0 (replicate 64 7).
Definition a_message : list (list Z) := [[97; 98]; replicate 61 99; []; [0; 255]; replicate 20 1].
Lemma sha1_streams_witness :
  sha1 [97; 98; 99] = [169; 153; 62; 54; 71; 6; 129; 106; 186; 62; 37; 113; 120; 80; 194; 108; 156; 208; 216; 157] ∧
  SHA1Final (foldl SHA1Update (SHA1Init any_ctx) [[97; 98]; [99]]) = Some (sha1 [97; 98; 99]) ∧
  SHA1Final (foldl SHA1Update (SHA1Init any_ctx) a_message) = Some (sha1 (concat a_message)).
Proof.
  split; [by vm_compute|].
  split; (apply sha1_streams; [done| | |done]); repeat constructor; unfold is_byte; lia.
Defined.
End Sha1Props.
