(* ===== verification/Websockets.v ===== *)
(** Websocket connections (src/Websockets.cpp): the answer to the request that opens
    one, the frames that come in, and the headers of the frames that go out. *)

From S2P Require Import Prelude Keywords RingStream Format Sha1.
From stdpp Require Import strings.

#[local] Open Scope Z_scope.
#[local] Open Scope c_scope.

Module Websockets.
Import RingStream Keywords.

Definition WEBSOCK_CLIENT_MARKER : Z := 0x80.

(** strstr: the text from the first occurrence on. *)
Fixpoint is_prefix (w text : list Z) : bool :=
  match w, text with [], _ => true | c :: w, d :: text => (c =? d) && is_prefix w text | _, [] => false end.
Fixpoint strstr (text w : list Z) : option (list Z) :=
  if is_prefix w text then Some text else match text with [] => None | _ :: text => strstr text w end.

Definition b64_table : list Z := bytes_of "ABCDEFGHIJKLMNOPQRSTUVWXYZabcdefghijklmnopqrstuvwxyz0123456789+/".
Definition b64 (i : Z) : Z := b64_table !!! Z.to_nat i.

Definition key_header : list Z := bytes_of "Sec-WebSocket-Key: ".
Definition guid : list Z := bytes_of "258EAFA5-E914-47DA-95CA-C5AB0DC85B11".
Definition crlf : list Z := [13; 10].
(** The lines of the answer, before the key. *)
Definition answer : list Z :=
  concat ((λ l, bytes_of l ++ crlf) <$>
    ["HTTP/1.1 101 Switching Protocols"; "Server: DCCEX-WebSocketsServer"; "Upgrade: websocket"; "Connection: Upgrade";
     "Origin: null"; "Sec-WebSocket-Version: 13"; "Sec-WebSocket-Protocol: DCCEX"]%string) ++ bytes_of "Sec-WebSocket-Accept: ".

(** What is printed for three bytes of the hash; the last of the seven groups
    has no fourth letter. *)
Definition encode3 (last : bool) (tmp : list Z) : list piece :=
  let t i := tmp !!! i in
  [Text [b64 ((t 0%nat .& 0xfc) >>' 2)];
   Text [b64 (((t 0%nat .& 0x03) <<' 4) + ((t 1%nat .& 0xf0) >>' 4))];
   Text [b64 (((t 1%nat .& 0x0f) <<' 2) + ((t 2%nat .& 0xc0) >>' 6))]] ++
  (if last then [] else [Text [b64 (t 2%nat .& 0x3f)]]).
Definition encode (sha1HashBin : list Z) : list piece :=
  concat ((λ i, encode3 (6 <=? i)%nat (drop (3 * i) sha1HashBin)) <$> seq 0 7).

Section ring.
Context `{Flash}.
Implicit Types (s : RingStream.St).

(** [garbage] is what the uninitialised SHA1_CTX has in its buffer. The request
    is changed, and not used any more, when the answer is true. *)
Definition checkConnectionString (garbage : list Z) (clientId : Z) (cmd : list Z) : M RingStream.St bool :=
  let! text := mlift (StringBuffer.c_string cmd) in
  match strstr text key_header with
  | None => mreturn false
  | Some keyPos =>
    let keyPos := drop (length key_header) keyPos in
    match strstr keyPos [13] with
    | None => mreturn false
    | Some end_ =>
      let key := take (length keyPos - length end_) keyPos in
      let replyKey := take 99 (take 99 key ++ guid) in         (* strlcpy, strlcat_P *)
      let ctx := Sha1.SHA1Update (Sha1.SHA1Init (Sha1.mkCtx [] 0 0 garbage)) replyKey in
      let! digest := mlift (Sha1.SHA1Final ctx) in
      mark clientId ;;;
      mfor ([Text answer] ++ encode (digest ++ [0]) ++ [Text (bytes_of "=" ++ crlf ++ crlf)]) put_piece ;;;
      commit ;;;
      mreturn true
    end
  end.

Definition at_ (buffer : list Z) (i : nat) : option Z := buffer !! i.
Fixpoint unmask_loop (n : nat) (mask payload : nat) (i : nat) (buffer : list Z) : option (list Z) :=
  match n with
  | O => Some buffer
  | S n =>
    b ← at_ buffer (payload + i)%nat;
    m ← at_ buffer (mask + i mod 4)%nat;
    unmask_loop n mask payload (S i) (<[(payload + i)%nat := Z.lxor b m]> buffer)
  end.
(** The buffer as it is left, and where the payload is, if there is one to parse. *)
Definition unmask (clientId : Z) (buffer : list Z) : M RingStream.St (list Z * option nat) :=
  let! opcode := mlift (at_ buffer 0) in
  let! b1 := mlift (at_ buffer 1) in
  let short := b1 .& 0x7f in
  let! lm := (if short <? 126 then mreturn (short, 2%nat) else
              let! b2 := mlift (at_ buffer 2) in
              let! b3 := mlift (at_ buffer 3) in
              mreturn (i16 ((b2 <<' 8) .| b3), 4%nat)) in
  let '(payloadLength, mask) := lm in
  if opcode =? 0x89 then                                   (* ping *)
    let buffer := <[0%nat := 0x8a]> buffer in
    let! text := mlift (StringBuffer.c_string buffer) in
    (mark (clientId .& 0x7f) ;;;
     print text ;;;
     commit ;;;
     mreturn (buffer, None))
  else if opcode =? 0x88 then                              (* close *)
    let buffer := <[1%nat := 0x00]> (<[0%nat := 0x88]> buffer) in
    (mark (clientId .& 0x7f) ;;;
     write 0x88 ;;;
     write 0x00 ;;;
     commit ;;;
     mreturn (buffer, None))
  else if negb (opcode =? 0x81) then mreturn (buffer, None)
  else
    let payload := (mask + 4)%nat in
    let! buffer := mlift (unmask_loop (Z.to_nat payloadLength) mask payload 0 buffer) in
    mreturn (buffer, Some payload).
End ring.

Definition getOutboundHeaderSize (dataLength : Z) : Z := if dataLength >=? 126 then 4 else 2.
Definition fillOutboundHeader (dataLength : Z) : list Z :=
  if dataLength <? 126 then [0x81; u8 dataLength]
  else [0x81; 126; u8 (dataLength >>' 8); u8 (dataLength .& 0xFF)].
Definition writeOutboundHeader (dataLength : Z) : list Z := fillOutboundHeader dataLength.
End Websockets.
