(* ===== verification/WebsocketsProps.v ===== *)
(** Websockets against RFC 6455 and RFC 4648: the answer to a request to open a
    connection carries the accept value of its key, and what a client sends in a
    masked frame is what the command parser reads. *)

From S2P Require Import Prelude Keywords RingStream RingProps Format Sha1 Sha1Props Websockets.
From stdpp Require Import strings.

#[local] Open Scope Z_scope.
#[local] Open Scope c_scope.

Module WebsocketsProps.
Import RingStream RingProps Keywords Sha1 Sha1Props Websockets.

(** ** Base 64 *)

Definition letters (n : Z) : list Z := [b64 (n / 262144); b64 (n / 4096 mod 64); b64 (n / 64 mod 64); b64 (n mod 64)].
Fixpoint base64 (l : list Z) : list Z :=
  match l with
  | [] => []
  | [p] => take 2 (letters (p * 65536)) ++ [61; 61]
  | [p; q] => take 3 (letters (p * 65536 + q * 256)) ++ [61]
  | p :: q :: r :: l => letters (p * 65536 + q * 256 + r) ++ base64 l
  end.

Lemma group_letters p q r : is_byte p → is_byte q → is_byte r →
  [b64 ((p .& 0xfc) >>' 2); b64 (((p .& 0x03) <<' 4) + ((q .& 0xf0) >>' 4)); b64 (((q .& 0x0f) <<' 2) + ((r .& 0xc0) >>' 6)); b64 (r .& 0x3f)] =
  letters (p * 65536 + q * 256 + r).
Proof.
  unfold is_byte. intros Hp Hq Hr. unfold letters.
  rewrite !Z.shiftr_land. change (0xfc >>' 2) with (Z.ones 6). change (0xf0 >>' 4) with (Z.ones 4). change (0xc0 >>' 6) with (Z.ones 2).
  change 0x03 with (Z.ones 2). change 0x0f with (Z.ones 4). change 0x3f with (Z.ones 6).
  rewrite !Z.land_ones, !Z.shiftr_div_pow2, !Z.shiftl_mul_pow2 by lia. change (2 ^ 6) with 64. change (2 ^ 4) with 16. change (2 ^ 2) with 4.
  repeat (f_equal; try (Z.div_mod_to_equations; lia)).
Qed.
Lemma concat_shown_app `{Flash} ps qs : concat (shown <$> ps ++ qs) = concat (shown <$> ps) ++ concat (shown <$> qs).
Proof. by rewrite fmap_app, concat_app. Qed.
Lemma encode3_group `{Flash} p q r l : is_byte p → is_byte q → is_byte r →
  concat (shown <$> encode3 false (p :: q :: r :: l)) = letters (p * 65536 + q * 256 + r).
Proof. intros Hp Hq Hr. by rewrite <-group_letters. Qed.
Lemma encode3_last `{Flash} p q : is_byte p → is_byte q →
  concat (shown <$> encode3 true [p; q; 0]) = take 3 (letters (p * 65536 + q * 256)).
Proof. intros Hp Hq. rewrite <-(Z.add_0_r (p * 65536 + _)), <-(group_letters p q 0) by done. done. Qed.
#[local] Arguments encode3 : simpl never.
#[local] Arguments letters : simpl never.
Lemma encode_base64 `{Flash} digest : length digest = 20%nat → Forall is_byte digest →
  concat (shown <$> encode (digest ++ [0])) ++ [61] = base64 digest.
Proof.
  intros Hl Hb. do 20 (destruct digest as [|? digest]; [done|]). destruct digest; [|done].
  rewrite !Forall_cons in Hb. destruct_and! Hb. unfold encode. simpl seq. rewrite !fmap_cons. simpl drop. simpl Nat.leb.
  cbn [concat fmap list_fmap]. rewrite !concat_shown_app, !encode3_group, encode3_last by done. change (concat (shown <$> [])) with (@nil Z).
  by rewrite app_nil_r, <-!app_assoc.
Qed.

(** ** The handshake *)

Lemma strstr_spec pre w rest : (∀ i, (i < length pre)%nat → is_prefix w (drop i (pre ++ rest)) = false) → is_prefix w rest = true →
  strstr (pre ++ rest) w = Some rest.
Proof.
  induction pre as [|c pre IH]; intros Hno Hw; [simpl; destruct rest; simpl; by rewrite Hw|]. simpl app. cbn [strstr].
  pose proof (Hno 0%nat ltac:(simpl; lia)) as H0. simpl in H0. simpl. rewrite H0. apply IH; [|done]. intros i Hi. apply (Hno (S i)). simpl. lia.
Qed.
Lemma is_prefix_app w rest : is_prefix w (w ++ rest) = true.
Proof. induction w as [|c w IH]; [done|]. simpl. by rewrite Z.eqb_refl. Qed.
Lemma c_string_spec text rest : Forall (λ c, c ≠ 0) text → StringBuffer.c_string (text ++ 0 :: rest) = Some text.
Proof. induction 1 as [|c l Hc _ IH]; [done|]. simpl. destruct (c =? 0) eqn:E; [lia|]. by rewrite IH. Qed.

(** The lines of a request up to the key: its header is not found before. *)
Definition no_key (pre rest : list Z) : Prop := ∀ i, (i < length pre)%nat → is_prefix key_header (drop i (pre ++ rest)) = false.
Definition sec_accept (key : list Z) : list Z := base64 (sha1 (key ++ guid)).

Lemma sha1_length m : length (sha1 m) = 20%nat.
Proof.
  unfold sha1. assert (length (absorb (length (m ++ padding (Z.of_nat (length m))) / 64) H0 (m ++ padding (Z.of_nat (length m)))) = 5%nat) as Hl
    by by apply absorb_length. destruct (absorb _ _ _) as [|? [|? [|? [|? [|? [|? ?]]]]]]; done.
Qed.
Lemma sha1_bytes m : Forall is_byte (sha1 m).
Proof.
  unfold sha1. apply Forall_concat, Forall_fmap, Forall_true. intros w. unfold be_bytes. apply Forall_fmap, Forall_true. intros i.
  simpl. apply Z.mod_pos_bound. lia.
Qed.

Lemma send_then `{Flash} client ps s : (send client ps ;;; mreturn true) s = (mark client ;;; mfor ps put_piece ;;; commit ;;; mreturn true) s.
Proof. unfold send, mthen. destruct (mark client s) as [[[] s1]|]; [|done]. simpl. by destruct (mfor ps put_piece s1) as [[[] s2]|]. Qed.

(** The answer to a request to open a websocket connection is the one of RFC
    6455: 101 Switching Protocols, with the base 64 of the SHA-1 of the
    client's key and the protocol's own key as Sec-WebSocket-Accept; it
    goes to the client that asked. *)
Lemma websocket_handshake `{Flash} (garbage pre key post junk : list Z) (clientId : Z) (s : RingStream.St) :
  length garbage = 64%nat → Forall (λ c, c ≠ 0) (pre ++ key_header ++ key ++ 13 :: post) → no_key pre (key_header ++ key ++ 13 :: post) →
  Forall (λ c, is_byte c ∧ c ≠ 13) key → (length key <= 63)%nat →
  ∃ ps, checkConnectionString garbage clientId ((pre ++ key_header ++ key ++ 13 :: post) ++ 0 :: junk) s =
      (send clientId ps ;;; mreturn true) s ∧
    concat (shown <$> ps) = answer ++ sec_accept key ++ crlf ++ crlf.
Proof.
  intros Hg Hz Hno Hkey Hlen. unfold checkConnectionString, mthen at 1, mlift. rewrite c_string_spec by done. cbn [mbind option_bind].
  rewrite strstr_spec by (done || apply is_prefix_app). rewrite drop_app_length.
  rewrite (strstr_spec key [13] (13 :: post)); [|..|done].
  2:{ intros i Hi. destruct (lookup_lt_is_Some_2 key i Hi) as [c Hc]. rewrite drop_app_le by lia. rewrite (drop_S _ c) by done. cbn [is_prefix app].
      rewrite Forall_lookup in Hkey. destruct (Hkey i c Hc) as [_ Hne]. destruct (13 =? c) eqn:E; [lia|done]. }
  rewrite length_app, Nat.add_sub, take_app_length.
  assert (length guid = 36%nat) as Hguid by done.
  rewrite (take_ge key 99), (take_ge (key ++ guid) 99) by (rewrite ?length_app; lia).
  pose proof (update_rep [] (SHA1Init (mkCtx [] 0 0 garbage)) (key ++ guid) (init_rep (mkCtx [] 0 0 garbage) Hg)) as Hsha. cbn [app] in Hsha.
  unfold mthen at 1. rewrite (final_sha1 (key ++ guid)); [|apply Hsha|rewrite length_app; lia].
  2:{ apply Forall_app. split; [eapply Forall_impl; [exact Hkey|by intros c [? _]]|]. unfold guid. simpl. repeat constructor; done || lia. }
  2:{ rewrite length_app. lia. }
  cbn [mbind option_bind]. eexists. split; [symmetry; apply send_then|].
  rewrite !concat_shown_app. unfold sec_accept. rewrite <-encode_base64 by (apply sha1_length || apply sha1_bytes). simpl concat at 1.
  rewrite <-!app_assoc. done.
Qed.

(** ** Frames *)

(** A text frame of a client, masked with four bytes. *)
Fixpoint masked (mask : list Z) (i : nat) (payload : list Z) : list Z :=
  match payload with [] => [] | c :: payload => Z.lxor c (mask !!! (i mod 4)%nat) :: masked mask (S i) payload end.
Definition client_header (n : Z) : list Z := if n <? 126 then [0x81; 128 + n] else [0x81; 254; n / 256; n mod 256].
Definition client_frame (mask payload : list Z) : list Z :=
  client_header (Z.of_nat (length payload)) ++ mask ++ masked mask 0 payload.
(** The length that a client reads in the header of a frame, and where the text starts. *)
Definition decode_header (l : list Z) : option (Z * nat) :=
  match l with
  | 0x81 :: n :: l =>
    if n <? 126 then Some (n, 2%nat)
    else match l with hi :: lo :: _ => if n =? 126 then Some (hi * 256 + lo, 4%nat) else None | _ => None end
  | _ => None
  end.

Lemma unmask_loop_spec hdr mask rest : length mask = 4%nat → ∀ todo done_,
  unmask_loop (length todo) (length hdr) (length hdr + 4) (length done_) (hdr ++ mask ++ done_ ++ masked mask (length done_) todo ++ rest) =
  Some (hdr ++ mask ++ done_ ++ todo ++ rest).
Proof.
  intros Hm. induction todo as [|c todo IH]; intros done_; [done|]. cbn [length unmask_loop]. unfold at_.
  assert (∀ x l, (hdr ++ mask ++ done_ ++ x :: l) !! (length hdr + 4 + length done_)%nat = Some x) as Hat.
  { intros x l. rewrite !app_assoc, lookup_app_r by (rewrite !length_app; lia). by replace (_ - _)%nat with 0%nat by (rewrite !length_app; lia). }
  simpl masked. simpl app. rewrite Hat. cbn [mbind option_bind].
  pose proof (Nat.mod_upper_bound (length done_) 4 ltac:(lia)) as H4. destruct (lookup_lt_is_Some_2 mask (length done_ mod 4)) as [k Hk]; [lia|].
  rewrite lookup_app_r, Nat.add_sub' by lia. rewrite lookup_app_l, Hk by lia. cbn [mbind option_bind].
  rewrite (list_lookup_total_correct _ _ _ Hk), Z.lxor_assoc, Z.lxor_nilpotent, Z.lxor_0_r.
  specialize (IH (done_ ++ [c])). rewrite length_app, Nat.add_1_r in IH. rewrite <-!app_assoc in IH. simpl app in IH. etrans; [|exact IH]. f_equal.
  rewrite !app_assoc, insert_app_r_alt by (rewrite !length_app; lia). f_equal. by replace (_ - _)%nat with 0%nat by (rewrite !length_app; lia).
Qed.

Lemma join_bytes h l : 0 <= h < 128 → 0 <= l < 256 → (h <<' 8) .| l = h * 256 + l.
Proof.
  intros Hh Hl. apply Z.eqb_eq, (range_check2 (λ h l, (h <<' 8) .| l =? h * 256 + l) 0 128 0 256); [by vm_compute|lia..].
Qed.
Lemma unmask_frame `{Flash} (clientId : Z) (mask payload rest : list Z) (s : RingStream.St) :
  length mask = 4%nat → Z.of_nat (length payload) < 32768 →
  ∃ buffer k, unmask clientId (client_frame mask payload ++ rest) s = Some ((buffer, Some k), s) ∧ drop k buffer = payload ++ rest.
Proof.
  intros Hm Hp.
  set (len := Z.of_nat (length payload)) in *. set (hdr := client_header len).
  exists (hdr ++ mask ++ payload ++ rest), (length hdr + 4)%nat. split.
  + assert (∃ b1, 0 <= b1 < 256 ∧ (hdr = [0x81; b1] ∧ b1 .& 0x7f = len ∧ len < 126 ∨
      hdr = [0x81; b1; len / 256; len mod 256] ∧ b1 .& 0x7f = 126 ∧ i16 (((len / 256) <<' 8) .| (len mod 256)) = len)) as (b1 & Hb1 & Hhdr).
    { unfold hdr, client_header. destruct (len <? 126) eqn:E; eexists; (split; [|first [left; split; [done|] | right; split; [done|]]]); try lia.
      - change 0x7f with (Z.ones 7). rewrite Z.land_ones by lia. change (2 ^ 7) with 128. split; [Z.div_mod_to_equations; lia|lia].
      - split; [done|]. rewrite join_bytes by lia. unfold i16. rewrite Z.mod_small; lia. }
    assert (client_frame mask payload ++ rest = hdr ++ mask ++ [] ++ masked mask 0 payload ++ rest) as -> by (unfold client_frame; by rewrite <-!app_assoc).
    pose proof (unmask_loop_spec hdr mask rest Hm payload []) as Hloop. simpl length in Hloop at 4.
    assert (Z.to_nat len = length payload) as Hlen by lia.
    destruct Hhdr as [(-> & Hland & Hlt)|(-> & Hland & Hi)]; unfold unmask, mthen at 1 2, mlift; simpl at_; cbn [mbind option_bind].
    * rewrite Hland. destruct (len <? 126) eqn:E; [|lia]. unfold mthen at 1. simpl mreturn. cbn. rewrite Hlen. unfold mthen, mlift. simpl in Hloop. rewrite Hloop. done.
    * rewrite Hland. simpl. unfold mthen, mlift. simpl. rewrite Hi, Hlen. simpl in Hloop. rewrite Hloop. done.
  + rewrite app_assoc. rewrite drop_app_length'; [done|]. rewrite length_app. lia.
Qed.
(** C29. Frames.  Of a masked text frame of a client, of up to 32767 bytes, unmask
    finds and restores the payload, whatever follows it in the buffer; and the
    header that is put before an answer is one from which a client reads the
    length of the answer. *)
Theorem websocket_frames `{Flash} (clientId : Z) (mask payload rest : list Z) (n : Z) (text : list Z) (s : RingStream.St) :
  length mask = 4%nat → Z.of_nat (length payload) < 32768 → 0 <= n < 65536 →
  (∃ buffer k, unmask clientId (client_frame mask payload ++ rest) s = Some ((buffer, Some k), s) ∧ drop k buffer = payload ++ rest) ∧
  decode_header (fillOutboundHeader n ++ text) = Some (n, Z.to_nat (getOutboundHeaderSize n)).
Proof.
  intros Hm Hp Hn. split; [by apply unmask_frame|].
  unfold fillOutboundHeader, getOutboundHeaderSize. destruct (n <? 126) eqn:E.
  - simpl. unfold u8. rewrite Z.mod_small by lia. rewrite E. destruct (n >=? 126) eqn:E2; [lia|done].
  - destruct (n >=? 126) eqn:E2; [|lia]. simpl. do 2 f_equal. unfold u8. rewrite Z.shiftr_div_pow2 by lia. change 255 with (Z.ones 8).
      rewrite Z.land_ones by lia. change (2 ^ 8) with 256. Z.div_mod_to_equations. lia.
Qed.

(** ** Witnesses *)

Definition some_flash : Flash := {| flash_byte _ := 0; ptr_size := 2 |}.
#[local] Existing Instance some_flash.

(** The example of RFC 6455. *)
Definition rfc_key : list Z := bytes_of "dGhlIHNhbXBsZSBub25jZQ==".
Lemma websocket_handshake_witness :
  sec_accept rfc_key = bytes_of "s3pPLMBiTxaQ9kYGzzhZRbK+xOo=" ∧
  ∃ ps, checkConnectionString (replicate 64 7) 2
      ((bytes_of "GET / HTTP/1.1" ++ key_header ++ rfc_key ++ 13 :: [10; 13; 10]) ++ 0 :: [5]) (new (replicate 400 7) 400) =
      (send 2 ps ;;; mreturn true) (new (replicate 400 7) 400) ∧
    concat (shown <$> ps) = answer ++ sec_accept rfc_key ++ crlf ++ crlf.
Proof.
  split; [by vm_compute|]. apply (websocket_handshake (replicate 64 7) (bytes_of "GET / HTTP/1.1") rfc_key [10; 13; 10] [5] 2); [done|..].
  - repeat constructor; done.
  - intros i Hi. do 14 (destruct i as [|i]; [done|]). simpl in Hi. lia.
  - repeat constructor; done || lia.
  - vm_compute. lia.
Defined.
Lemma websocket_frames_witness :
  (∃ buffer k, unmask 3 (client_frame [55; 250; 33; 61] (bytes_of "<s>") ++ [0]) (new (replicate 30 7) 30) =
      Some ((buffer, Some k), new (replicate 30 7) 30) ∧ drop k buffer = bytes_of "<s>" ++ [0]) ∧
  decode_header (fillOutboundHeader 200 ++ [60]) = Some (200, 4%nat).
Proof. apply (websocket_frames 3 [55; 250; 33; 61] (bytes_of "<s>") [0] 200 [60]); [done|done|lia]. Defined.
End WebsocketsProps.
