(* ===== verification/CommandDistributor.v ===== *)
(** The command distributor (src/CommandDistributor.cpp), as compiled for WiFi or
    Ethernet: which protocol each client of the ring stream speaks, the
    broadcasts to the clients of a kind and to the serial ports, and the virtual
    display that a client may have asked for. What is given to the serial
    ports, to the WiThrottle clients and to the display is a trace. *)

From S2P Require Import Prelude Keywords Chain LocoSlot MotorDriver TrackManager RingStream Format Sha1 Websockets.
From stdpp Require Import strings.
From Stdlib Require Import Ascii.

#[local] Open Scope Z_scope.
#[local] Open Scope c_scope.

Module CommandDistributor.
Import RingStream Keywords StringFormatter.

Inductive clientType := NONE_TYPE | COMMAND_TYPE | WITHROTTLE_TYPE | WEBSOCK_CONNECTING_TYPE | WEBSOCKET_TYPE.
#[global] Instance clientType_dec : EqDecision clientType.
Proof. solve_decision. Defined.

(** A Print* of this file: a serial port, or the ring stream. *)
Inductive stream := SerialPort (n : Z) | TheRing.
Definition USB_SERIAL : stream := SerialPort 0.

Inductive ev :=
  | Serials (text : list Z)               (* SerialManager::broadcast *)
  | ToSerial (n : Z) (text : list Z)      (* the port of the virtual display *)
  | MarkForBroadcast (cab : Z)            (* WiThrottle *)
  | Lcd (row : Z) (text : list Z).

Record St := mkSt {
  writer : StringBuffer.St;   (* broadcastBufferWriter *)
  ring : RingStream.St;       (* the stream of the network interface *)
  has_ring : bool;            (* the pointer to it is set *)
  clients : list clientType;
  virtualLCDSerial : option stream;
  virtualLCDClient : Z;
  rememberVLCDClient : Z;
  out : list ev;
}.
Definition with_writer (x : StringBuffer.St) (r : St) : St :=
  mkSt x (ring r) (has_ring r) (clients r) (virtualLCDSerial r) (virtualLCDClient r) (rememberVLCDClient r) (out r).
Definition with_ring (x : RingStream.St) (r : St) : St :=
  mkSt (writer r) x (has_ring r) (clients r) (virtualLCDSerial r) (virtualLCDClient r) (rememberVLCDClient r) (out r).
Definition with_has_ring (x : bool) (r : St) : St :=
  mkSt (writer r) (ring r) x (clients r) (virtualLCDSerial r) (virtualLCDClient r) (rememberVLCDClient r) (out r).
Definition with_clients (x : list clientType) (r : St) : St :=
  mkSt (writer r) (ring r) (has_ring r) x (virtualLCDSerial r) (virtualLCDClient r) (rememberVLCDClient r) (out r).
Definition with_virtualLCDSerial (x : option stream) (r : St) : St :=
  mkSt (writer r) (ring r) (has_ring r) (clients r) x (virtualLCDClient r) (rememberVLCDClient r) (out r).
Definition with_virtualLCDClient (x : Z) (r : St) : St :=
  mkSt (writer r) (ring r) (has_ring r) (clients r) (virtualLCDSerial r) x (rememberVLCDClient r) (out r).
Definition with_rememberVLCDClient (x : Z) (r : St) : St :=
  mkSt (writer r) (ring r) (has_ring r) (clients r) (virtualLCDSerial r) (virtualLCDClient r) x (out r).
Definition with_out (x : list ev) (r : St) : St :=
  mkSt (writer r) (ring r) (has_ring r) (clients r) (virtualLCDSerial r) (virtualLCDClient r) (rememberVLCDClient r) x.

Definition emit (e : ev) : M St unit := mmod (λ s, with_out (out s ++ [e]) s).

(** The buffer of 256 bytes, and MAX_NUM_TCP_CLIENTS clients of no type. *)
Definition new (garbage : list Z) (r : RingStream.St) (maxClients : nat) : option St :=
  w ← StringBuffer.new garbage 256;
  Some (mkSt w r false (replicate maxClients NONE_TYPE) (Some USB_SERIAL) 0xFF 0 []).

(** A call of the ring stream, through the pointer. *)
Definition on_ring {A} (m : M RingStream.St A) : M St A := λ s,
  if has_ring s then '(a, r) ← m (ring s); Some (a, with_ring r s) else None.

(** A format that ends in a line feed, and quotation marks within one. *)
Definition line (format : string) : string := format +:+ String "010"%char EmptyString.
Definition quote : string := String "034"%char EmptyString.

Section flash.
Context `{Flash}.

(** ** Broadcasts *)

Definition flush : M St unit := λ s, w ← StringBuffer.flush (writer s); Some (tt, with_writer w s).
(** StringFormatter::send to the buffer: what does not fit is dropped. *)
Definition to_buffer (format : string) (args : list arg) : M St unit := λ s,
  t ← text format args; w ← StringBuffer.print t (writer s); Some (tt, with_writer w s).
Definition getString : M St (list Z) := λ s, t ← StringBuffer.getString (writer s); Some (t, s).

Definition client_mark (clientId : Z) (type : clientType) : Z :=
  clientId .| (if decide (type = WEBSOCKET_TYPE) then Websockets.Websockets.WEBSOCK_CLIENT_MARKER else 0).
Definition to_client (type : clientType) (clientId : Z) : M St unit :=
  let! t := mget (λ s, clients s !! Z.to_nat clientId) in
  when bool_decide (t = Some type) do
    (on_ring (mark (client_mark clientId type)) ;;;
     let! text := getString in
     on_ring (print text) ;;;
     on_ring commit ;;; mreturn tt).
Definition broadcastToClients (type : clientType) : M St unit :=
  (when bool_decide (type = COMMAND_TYPE) do let! text := getString in emit (Serials text)) ;;;
  let! s := mget id in
  when has_ring s do
    (let rememberClient := peekTargetMark (ring s) in
     (when negb (rememberClient =? NO_CLIENT) do (on_ring commit ;;; mreturn tt)) ;;;
     mfor (rangeZ 0 (Z.of_nat (length (clients s)))) (to_client type) ;;;
     when negb (rememberClient =? NO_CLIENT) do on_ring (mark rememberClient)).

Definition broadcastReply (type : clientType) (format : string) (args : list arg) : M St unit :=
  flush ;;;
  to_buffer format args ;;;
  broadcastToClients type ;;;
  when bool_decide (type = COMMAND_TYPE) do broadcastToClients WEBSOCKET_TYPE.

Definition char (c : string) : arg := AInt (nth 0 (bytes_of c) 0).

Definition broadcastSensor (id : Z) (on : bool) : M St unit :=
  broadcastReply COMMAND_TYPE (line "<%c %d>") [if on then char "Q" else char "q"; AInt id].
Definition broadcastTurnout (id : Z) (isClosed : bool) : M St unit :=
  broadcastReply COMMAND_TYPE (line "<H %d %d>") [AInt id; AInt (b2z (negb isClosed))] ;;;
  broadcastReply WITHROTTLE_TYPE (line "PTA%c%d") [if isClosed then char "2" else char "4"; AInt id].
Definition broadcastTurntable (id position : Z) (moving : bool) : M St unit :=
  broadcastReply COMMAND_TYPE (line "<I %d %d %d>") [AInt id; AInt position; AInt (b2z moving)].
Definition broadcastClockTime (time rate : Z) : M St unit :=
  broadcastReply COMMAND_TYPE (line "<jC %d %d>") [AInt time; AInt rate] ;;;
  broadcastReply WITHROTTLE_TYPE (line "PFT%l<;>%d") [ALong (i32 (time * 60)); AInt rate].

(** Followers are told of with their leader, unless the call is for a follower. *)
Fixpoint loco_loop (fuel : nat) (isFollower : bool) (slot : option ptr) (t : LocoSlot.St) : M St unit :=
  match slot, fuel with
  | None, _ => mreturn tt
  | Some _, O => Prelude.mfail
  | Some x, S fuel =>
    let! c := mlift (LocoSlot.load t x) in
    to_buffer (line "<l %d 0 %d %l>") [AInt (LocoSlot.loco c); AInt (LocoSlot.targetSpeed c); ALong (LocoSlot.functions c)] ;;;
    if isFollower then mreturn tt else loco_loop fuel isFollower (LocoSlot.consistNext c) t
  end.
Definition broadcastLoco (sp : option ptr) (t : LocoSlot.St) : M St unit :=
  match sp with
  | None => broadcastReply COMMAND_TYPE (line "<l 0 -1 128 0>") []
  | Some x =>
    let! c := mlift (LocoSlot.load t x) in
    flush ;;;
    loco_loop (S (size (LocoSlot.heap t))) (LocoSlot.isConsistFollower c) (Some x) t ;;;
    broadcastToClients COMMAND_TYPE ;;;
    broadcastToClients WEBSOCKET_TYPE ;;;
    emit (MarkForBroadcast (LocoSlot.loco c))
  end.
Definition broadcastForgetLoco (loco : Z) : M St unit :=
  broadcastReply COMMAND_TYPE (line "<l %d 0 1 0>" +:+ line "<- %d>") [AInt loco; AInt loco].

(** *** Power *)

(** A read of the track manager. *)
Definition reading {A} (t : TrackManager.TrackManager.St) (m : M TrackManager.TrackManager.St A) : M St A :=
  mlift ('(a, _) ← m t; Some a).
Record Counts := mkCounts { trackcount : Z; oncount : Z; offcount : Z; trackLetter : list Z }.
Definition power_track (tm : TrackManager.TrackManager.St) (t : Z) (n : Counts) : M St Counts :=
  (match TrackManager.TrackManager.getPowerString t tm with
   | Some (on, t) => broadcastReply COMMAND_TYPE (line "<p%s>") [AStr [if on : bool then 49 else 48; 32; t + 65]]
   | None => mreturn tt
   end) ;;;
  let! active := reading tm (TrackManager.TrackManager.isActive t) in
  if active : bool then
    let! p := reading tm (TrackManager.TrackManager.getPower t) in
    mreturn match p with
            | MotorDriver.MotorDriver.ON =>
              mkCounts (u8 (trackcount n + 1)) (u8 (oncount n + 1)) (offcount n) (trackLetter n ++ [t + 65])
            | MotorDriver.MotorDriver.OFF =>
              mkCounts (u8 (trackcount n + 1)) (oncount n) (u8 (offcount n + 1)) (trackLetter n ++ [t + 97])
            | _ => mkCounts (u8 (trackcount n + 1)) (oncount n) (offcount n) (trackLetter n ++ bytes_of "X")
            end
  else mreturn (mkCounts (trackcount n) (oncount n) (offcount n) (trackLetter n ++ bytes_of "_")).
Definition is_on (p : MotorDriver.MotorDriver.POWERMODE) : bool := match p with MotorDriver.MotorDriver.ON => true | _ => false end.
(** A literal in flash memory, for %S, is given as its text, for %s. *)
Definition broadcastPower (tm : TrackManager.TrackManager.St) : M St unit :=
  let numTracks := u8 (TrackManager.TrackManager.lastTrack tm + 1) in
  let! n := mfold (power_track tm) (rangeZ 0 numTracks) (mkCounts 0 0 0 []) in
  let state :=
    if (oncount n =? 0) || (offcount n =? trackcount n) then "0"
    else if oncount n =? numTracks then "1" else "2" in
  (when negb (String.eqb state "2") do broadcastReply COMMAND_TYPE (line "<p%c>") [char state]) ;;;
  let! pm := reading tm TrackManager.TrackManager.getMainPower in
  let! pp := reading tm TrackManager.TrackManager.getProgPower in
  let main := is_on pm in
  let prog := is_on pp in
  let join := TrackManager.TrackManager.progTrackSyncMain tm in
  let reason := if join then " JOIN" else "" in
  (if join then broadcastReply COMMAND_TYPE (line "<p1%s>") [AStr (bytes_of reason)]
   else
     ((when main do broadcastReply COMMAND_TYPE (line "<p1 MAIN>") []) ;;;
      when prog do broadcastReply COMMAND_TYPE (line "<p1 PROG>") [])) ;;;
  broadcastReply WITHROTTLE_TYPE (line "PPA%c") [if main then char "1" else char state] ;;;
  emit (Lcd 2 (bytes_of "PWR " ++
    (if String.eqb state "1" then bytes_of "On" else if String.eqb state "0" then bytes_of "Off" else trackLetter n) ++ bytes_of reason)).

(** *** Other texts *)

Definition broadcastRaw (type : clientType) (msg : list Z) : M St unit := broadcastReply type "%s" [AStr msg].
Definition broadcastEstopLock (locked : bool) : M St unit :=
  if locked then
    broadcastReply COMMAND_TYPE (line "<!PAUSED>") [] ;;;
    broadcastReply WITHROTTLE_TYPE (line "HmESTOP PAUSED") []
  else
    (broadcastReply COMMAND_TYPE (line "<!RESUMED>") [] ;;;
     broadcastReply WITHROTTLE_TYPE (line "HmESTOP RESUMED") []).
Definition broadcastMessage (message : list Z) : M St unit :=
  broadcastReply COMMAND_TYPE (line ("<m " +:+ quote +:+ "%s" +:+ quote +:+ ">")) [AStr message] ;;;
  broadcastReply WITHROTTLE_TYPE (line "Hm%s") [AStr message].
Definition broadcastTrackState (format : string) (trackLetter modename dcAddr : Z) : M St unit :=
  broadcastReply COMMAND_TYPE format [AInt trackLetter; AFlash modename; AInt dcAddr].
Definition broadcastRouteState (routeId state : Z) : M St unit :=
  broadcastReply COMMAND_TYPE (line "<jB %d %d>") [AInt routeId; AInt state].
Definition broadcastRouteCaption (routeId caption : Z) : M St unit :=
  broadcastReply COMMAND_TYPE (line ("<jB %d " +:+ quote +:+ "%S" +:+ quote +:+ ">")) [AInt routeId; AFlash caption].

(** ** The virtual display *)

(** StringFormatter::send to a stream. *)
Definition send_to (stream : stream) (format : string) (args : list arg) : M St unit :=
  match stream with
  | SerialPort n => let! t := mlift (text format args) in emit (ToSerial n t)
  | TheRing => on_ring (send format args)
  end.
Definition getVirtualLCDSerial (screen row : Z) : M St (option stream) :=
  mmod (with_rememberVLCDClient NO_CLIENT) ;;;
  let! s := mget id in
  let! stream :=
    if bool_decide (virtualLCDSerial s = None) && negb (virtualLCDClient s =? NO_CLIENT) then
      let! r := on_ring (mget peekTargetMark) in
      mmod (with_rememberVLCDClient r) ;;;
      (when negb (r =? NO_CLIENT) do (on_ring commit ;;; mreturn tt)) ;;;
      on_ring (mark (virtualLCDClient s)) ;;;
      mreturn (Some TheRing)
    else mreturn (virtualLCDSerial s) in
  match stream with
  | Some x => send_to x ("<@ %d %d " +:+ quote) [AInt screen; AInt row] ;;; mreturn stream
  | None => mreturn None
  end.
Definition commitVirtualLCDSerial : M St unit :=
  let! s := mget id in
  if negb (virtualLCDClient s =? NO_CLIENT) then
    send_to TheRing (line (quote +:+ ">")) [] ;;;
    on_ring commit ;;;
    when negb (rememberVLCDClient s =? NO_CLIENT) do on_ring (mark (rememberVLCDClient s))
  else
    match virtualLCDSerial s with
    | Some x => send_to x (line (quote +:+ ">")) []
    | None => Prelude.mfail
    end.
(** A client's stream is known by what availableForWrite says. *)
Definition setVirtualLCDSerial (stream : option stream) : M St unit :=
  mmod (with_virtualLCDClient NO_CLIENT) ;;;
  match stream with
  | Some TheRing =>
    mmod (λ s, with_virtualLCDSerial None (with_virtualLCDClient (peekTargetMark (ring s)) s))
  | _ => mmod (with_virtualLCDSerial stream)
  end.
(** StringFormatter::lcd2: the part that is for the virtual display. *)
Definition lcd2 (display row : Z) (format : string) (args : list arg) : M St unit :=
  let! stream := getVirtualLCDSerial display row in
  match stream with
  | Some x => send_to x format args ;;; commitVirtualLCDSerial
  | None => mreturn tt
  end.

(** ** Input of the clients *)

(** The parsers work on a larger state, of which this component's is a part;
    they write their replies to the ring, and may broadcast. *)
Section parsers.
Context {W : Type} (get : W → St) (set : St → W → W).
Variable DCCEXParser_parse : list Z → M W unit.
Variable WiThrottle_parse : Z → list Z → M W unit.   (* WiThrottle::getThrottle(clientId)->parse *)
Variable WiThrottle_forget : Z → M W unit.
Variable garbage : list Z.                           (* the stack *)

Definition lift {A} (m : M St A) : M W A := λ w, '(a, s) ← m (get w); Some (a, set s w).
Definition set_client (clientId : Z) (type : clientType) : M W unit :=
  lift (mmod (λ s, with_clients (<[Z.to_nat clientId := type]> (clients s)) s)).
Definition client_type (clientId : Z) : M W clientType :=
  lift (let! t := mget (λ s, clients s !! Z.to_nat clientId) in mlift t).

(** The first transmission tells the type; true when it has been answered. *)
Definition identify (clientId : Z) (buffer : list Z) : M W bool :=
  let! t := client_type clientId in
  if decide (t = NONE_TYPE) then
    let! websock := lift (on_ring (Websockets.Websockets.checkConnectionString garbage clientId buffer)) in
    if websock : bool then set_client clientId WEBSOCK_CONNECTING_TYPE ;;; mreturn true else
    let! c := mlift (buffer !! 0%nat) in
    set_client clientId (if c =? 60 then COMMAND_TYPE else WITHROTTLE_TYPE) ;;; mreturn false
  else mreturn false.
Definition finish : M W unit :=
  let! m := lift (on_ring (mget peekTargetMark)) in
  when negb (m =? NO_CLIENT) do (lift (on_ring commit) ;;; mreturn tt).
Definition parse (clientId : Z) (buffer : list Z) : M W unit :=
  let! n := lift (mget (λ s, Z.of_nat (length (clients s)))) in
  if clientId >=? n then mreturn tt else
  (lift (mmod (with_has_ring true)) ;;;
   let! answered := identify clientId buffer in
   if answered : bool then mreturn tt else
   let! t := client_type clientId in
   (when bool_decide (t = WEBSOCK_CONNECTING_TYPE) do set_client clientId WEBSOCKET_TYPE) ;;;
   let! t := client_type clientId in
   match t with
   | COMMAND_TYPE =>
     lift (on_ring (mark clientId)) ;;; DCCEXParser_parse buffer ;;; finish
   | WITHROTTLE_TYPE =>
     lift (on_ring (mark clientId)) ;;; WiThrottle_parse clientId buffer ;;; finish
   | WEBSOCKET_TYPE =>
     let! '(buffer, payload) := lift (on_ring (Websockets.Websockets.unmask clientId buffer)) in
     match payload with
     | None => mreturn tt
     | Some k =>
       lift (on_ring (mark (clientId .| Websockets.Websockets.WEBSOCK_CLIENT_MARKER))) ;;;
       DCCEXParser_parse (drop k buffer) ;;;
       finish
     end
   | _ => finish
   end).

Definition forget (clientId : Z) : M W unit :=
  let! t := client_type clientId in
  (when bool_decide (t = WITHROTTLE_TYPE) do WiThrottle_forget clientId) ;;;
  set_client clientId NONE_TYPE ;;;
  lift (mmod (λ s, if virtualLCDClient s =? clientId then with_virtualLCDClient NO_CLIENT s else s)).
End parsers.
End flash.
End CommandDistributor.
