(* ===== verification/CommandDistributorProps.v ===== *)
(** What the command distributor promises: replies and broadcasts reach the
    clients whole and in the order in which they were made, a broadcast exactly once for
    each client of its kind; and a consist is told of as a whole. *)

From S2P Require Import Prelude Keywords Chain LocoSlot ConsistProps MotorDriver TrackManager RingStream RingProps Format Sha1 Websockets WebsocketsProps CommandDistributor.
From stdpp Require Import strings.

#[local] Open Scope Z_scope.
#[local] Open Scope c_scope.

Module CommandDistributorProps.
Import Keywords.Keywords StringFormatter CommandDistributor.CommandDistributor RingStream RingProps.RingProps.

Lemma wp_and {S A} (m : M S A) (Q Q' : A → S → Prop) s : wp m Q s → wp m Q' s → wp m (λ a s', Q a s' ∧ Q' a s') s.
Proof. unfold wp. by destruct (m s) as [[a s']|]. Qed.

(** ** The broadcast buffer *)

(** The buffer holds [k]. *)
Definition Holds (k : list Z) (w : StringBuffer.St) : Prop :=
  length (StringBuffer.buffer w) = 256%nat ∧ StringBuffer.buffer_max w = 254 ∧ StringBuffer.pos_write w = Z.of_nat (length k) ∧
  (length k <= 254)%nat ∧ take (S (length k)) (StringBuffer.buffer w) = k ++ [0].

Lemma holds_flush k w : Holds k w → ∃ w', StringBuffer.flush w = Some w' ∧ Holds [] w'.
Proof.
  intros (Hl & Hm & Hp & Hk & Ht). unfold StringBuffer.flush, StringBuffer.put. rewrite Hl. simpl. eexists. split; [done|].
  destruct w as [[|b buf] m p]; [done|]. simpl in *. split_and!; try done; simpl; lia.
Qed.

Lemma put_in i b w : 0 <= i → (Z.to_nat i < length (StringBuffer.buffer w))%nat →
  StringBuffer.put i b w = Some (<[Z.to_nat i := u8 b]> (StringBuffer.buffer w)).
Proof. intros Hi Hl. unfold StringBuffer.put. by replace (_ && _) with true by lia. Qed.

Lemma holds_write k w b : Holds k w → is_byte b →
  ∃ n w', StringBuffer.write b w = Some (n, w') ∧
    if (length k <? 254)%nat then n = 1 ∧ Holds (k ++ [b]) w' else n = 0 ∧ w' = w.
Proof.
  intros (Hl & Hm & Hp & Hk & Ht) Hb. unfold StringBuffer.write. rewrite Hm, Hp. destruct (Nat.ltb_spec (length k) 254) as [Hlt|Hge].
  2:{ replace (_ >=? _) with true by lia. eauto. }
  replace (_ >=? _) with false by lia. rewrite put_in by lia. cbn [mbind option_bind]. rewrite Nat2Z.id.
  rewrite put_in by (simpl; rewrite ?length_insert; lia). cbn [mbind option_bind StringBuffer.pos_write StringBuffer.buffer StringBuffer.buffer_max].
  eexists _, _. split; [done|]. split; [done|]. change (u8 0) with 0.
  replace (Z.to_nat (Z.of_nat (length k) + 1)) with (S (length k)) by lia.
  split_and!; cbn [StringBuffer.pos_write StringBuffer.buffer StringBuffer.buffer_max]; rewrite ?length_insert, ?length_app; simpl; try done; try lia.
  rewrite Nat.add_comm. cbn [Nat.add]. set (buf := StringBuffer.buffer w) in *.
  rewrite (take_S_r _ _ 0) by (apply list_lookup_insert_eq; rewrite length_insert; lia).
  rewrite take_insert_ge by lia. rewrite (take_S_r _ _ (u8 b)) by (apply list_lookup_insert_eq; lia).
  rewrite take_insert_ge, (u8_id b) by (done || lia). do 2 f_equal.
  assert (take (length k) (take (S (length k)) buf) = k) as E by (by rewrite Ht, take_app_length).
  rewrite take_take in E. by rewrite Nat.min_l in E by lia.
Qed.

Lemma holds_print t : ∀ k w, Holds k w → Forall is_byte t →
  ∃ w', StringBuffer.print t w = Some w' ∧ Holds (take 254 (k ++ t)) w'.
Proof.
  induction t as [|b t IH]; intros k w Hw Ht; simpl.
  { exists w. rewrite app_nil_r, take_ge; [done|]. by destruct Hw as (_ & _ & _ & ? & _). }
  apply Forall_cons in Ht as [Hb Ht]. destruct (holds_write k w b Hw Hb) as (n & w' & -> & Hn). simpl.
  destruct (Nat.ltb_spec (length k) 254); destruct Hn as [-> Hn]; simpl.
  - destruct (IH _ _ Hn Ht) as (w2 & -> & H2). exists w2. by rewrite <-app_assoc in H2.
  - subst w'. exists w. split; [done|]. assert (length k = 254%nat) by (destruct Hw as (_ & _ & _ & ? & _); lia).
    by rewrite take_app_length'.
Qed.

Lemma holds_string k w : Holds k w → Forall (λ c, c ≠ 0) k → StringBuffer.getString w = Some k.
Proof.
  intros (Hl & _ & _ & _ & Ht) Hk. unfold StringBuffer.getString. rewrite <-(take_drop (S (length k)) (StringBuffer.buffer w)), Ht, <-app_assoc.
  simpl app. generalize (drop (S (length k)) (StringBuffer.buffer w)). intros rest. clear -Hk. induction Hk as [|c k Hc Hk IH]; simpl; [done|]. rewrite (proj2 (Z.eqb_neq c 0)) by done. by rewrite IH.
Qed.

Section ring.
Context `{Flash}.

(** ** The ring between messages, and within one *)

Definition Idle (n : Z) (q : list Msg) (r : RingStream.St) : Prop := Ring n q r ∧ ringClient r = NO_CLIENT.
Definition Open (n : Z) (q : list Msg) (m : Msg) (r : RingStream.St) : Prop :=
  Forall Msg_ok q ∧ Z.of_nat (length (frames q)) < n ∧ Writing n (frames q) (client m :: 0 :: 0 :: body m) (Z.of_nat (length (text m))) r ∧
  ringClient r = client m.
(** The message that is being written, if there is one. *)
Definition Pending (n : Z) (q : list Msg) (o : option Msg) (r : RingStream.St) : Prop :=
  match o with None => Idle n q r | Some m => Open n q m r end.

Definition keeps_client {A} (m : M RingStream.St A) : Prop := ∀ r, match m r with Some (_, r') => ringClient r' = ringClient r | None => True end.
Lemma keeps_bind {A B} (m : M RingStream.St A) (k : A → M RingStream.St B) : keeps_client m → (∀ a, keeps_client (k a)) → keeps_client (mthen m k).
Proof.
  intros Hm Hk r. unfold mthen. specialize (Hm r). destruct (m r) as [[a r1]|]; [|done]. simpl. specialize (Hk a r1).
  destruct (k a r1) as [[b r2]|]; [|done]. by rewrite Hk.
Qed.
Lemma keeps_write b : keeps_client (write b).
Proof.
  intros r. unfold write, mthen, mget, put, mmod, mreturn, id. simpl. destruct (overflow r); [done|].
  destruct (_ && _); [|done]. simpl. by destruct (_ =? _).
Qed.
Lemma keeps_print l : keeps_client (print l).
Proof.
  induction l as [|b l IH]; [done|]. cbn [print]. apply keeps_bind; [apply keeps_write|]. intros n.
  destruct (tru n); [|done]. apply keeps_bind; [done|]. by intros k.
Qed.
Lemma keeps_mfor {A} (l : list A) f : (∀ x, keeps_client (f x)) → keeps_client (mfor l f).
Proof. intros Hf. unfold mfor. generalize tt. induction l as [|x l IH]; intros []; [done|]. apply keeps_bind; [apply Hf|]. by intros []. Qed.
Lemma keeps_piece p : keeps_client (put_piece p).
Proof.
  destruct p as [l|a]; apply keeps_bind; try done; [apply keeps_print|]. unfold printFlash.
  apply keeps_bind; [intros r; unfold mlift; by destruct (flash_string a)|]. intros t. destruct (2 <? ptr_size); [apply keeps_print|].
  destruct (_ =? 0); [done|]. apply keeps_bind; [done|]. intros c. apply keeps_bind; [apply keeps_write|]. intros _.
  apply keeps_bind; [|done]. apply keeps_mfor. intros f. apply keeps_bind; [apply keeps_write|done].
Qed.
Lemma keeps_wp {A} (m : M RingStream.St A) (Q : A → RingStream.St → Prop) c r : keeps_client m → ringClient r = c →
  wp m Q r → wp m (λ a r', Q a r' ∧ ringClient r' = c) r.
Proof. intros Hk Hc. unfold wp. specialize (Hk r). destruct (m r) as [[a r']|]; [|done]. split; [done|congruence]. Qed.

Lemma mark_client b (Q : unit → RingStream.St → Prop) r : wp (mark b) Q r → wp (mark b) (λ a r', Q a r' ∧ ringClient r' = b) r.
Proof.
  intros Hw. apply wp_bind_inv in Hw. apply wp_bind, wp_mod. unfold wp at 1 in Hw. simpl in Hw. apply keeps_wp; [|done|done].
  apply keeps_bind; [done|]. intros _. do 3 (apply keeps_bind; [apply keeps_write|intros _]). done.
Qed.

Lemma text_body m : Forall piece_ok (pieces m) → text m = [] → body m = [].
Proof.
  unfold text, body. induction 1 as [|p ps Hp Hps IH]; [done|]. cbn [fmap list_fmap concat].
  intros [Hp0 Ht]%app_nil. rewrite (IH Ht), app_nil_r. destruct p as [k|a]; [done|]. unfold raw. rewrite Hp0. by destruct (_ <? _).
Qed.

(** What is sent of a message: nothing if it is empty. *)
Definition sent (m : Msg) : list Msg := if bool_decide (text m = []) then [] else [m].

Lemma frames_app q q' : frames (q ++ q') = frames q ++ frames q'.
Proof. unfold frames. by rewrite fmap_app, concat_app. Qed.

Lemma open_mark n q b r : char_ok b → Idle n q r → wp (mark b) (λ _ r', Open n q (mkMsg b []) r') r.
Proof.
  intros Hb [[(Hc & _) Hq] Hr]. eapply wp_mono; [apply mark_client, mark_ok, Hc|]. intros [] r' [Hw Hcl]. cbn beta in Hw.
  rewrite u8_id in Hw by apply Hb. split_and!; [done|apply Hc|done|done].
Qed.
Lemma open_print n q m ps r : Forall piece_ok ps → Z.of_nat (length (text m ++ concat (shown <$> ps))) < 32768 → Open n q m r →
  wp (mfor ps put_piece) (λ _ r', Open n q (mkMsg (client m) (pieces m ++ ps)) r') r.
Proof.
  intros Hps Hlen (Hq & Hn & Hw & Hc). rewrite length_app in Hlen.
  eapply wp_mono; [eapply keeps_wp; [apply keeps_mfor, keeps_piece|exact Hc|eapply put_pieces_ok; [done|..|exact Hw]]; lia|].
  intros [] r' [Hw' Hc']. split_and!; try done. unfold body, text in *. simpl. rewrite !fmap_app, !concat_app, length_app, Nat2Z.inj_add. done.
Qed.
Lemma commit_client (Q : bool → RingStream.St → Prop) r : overflow r = false → wp commit Q r →
  wp commit (λ a r', Q a r' ∧ ringClient r' = NO_CLIENT) r.
Proof.
  intros Ho Hw. unfold wp, commit, mthen, mmod, mget, mreturn, id in *. simpl in *. rewrite Ho in *. destruct (_ =? 0); [done|]. simpl in *.
  unfold put in *. simpl in *. destruct (_ && _); [|done]. simpl in *. by destruct (_ && _).
Qed.

(** There is room for the message, and for the header of another one. *)
Definition room (n : Z) (q : list Msg) : Prop := Z.of_nat (length (frames q) + 3) < n.
Lemma room_app n q q' : room n (q ++ q') → room n q.
Proof. unfold room. rewrite frames_app, length_app. lia. Qed.

Lemma open_commit n q m r : Msg_ok m → Open n q m r → room n (q ++ sent m) → wp commit (λ _ r', Idle n (q ++ sent m) r') r.
Proof.
  intros Hm (Hq & Hn & Hw & Hcl) Hfit. destruct (Hm) as (Hc & Hps & Hlen). unfold room in Hfit. rewrite frames_app, length_app in Hfit.
  assert (text m = [] → body m = []) as Hb by (by apply text_body).
  assert (Z.of_nat (length (frames q) + 3 + length (body m)) < n) as Hroom.
  { revert Hfit. unfold sent. destruct (bool_decide_reflect (text m = [])) as [Ht|Ht]; [rewrite (Hb Ht); simpl; lia|].
    unfold frames at 2. simpl. rewrite app_nil_r. lia. }
  eapply wp_mono; [apply commit_client; [|eapply commit_ok; [exact Hn|..|exact Hw]]|].
  - destruct Hw as (_ & _ & _ & Hst). rewrite decide_True in Hst; [apply Hst|]. rewrite length_app. simpl. lia.
  - lia.
  - intros E. apply Hb, nil_length_inv. lia.
  - intros ok r' [(Hf & _ & Hct) Hc']. split; [|done]. rewrite bool_decide_true in Hct by done. simpl in Hct. split.
    + split; [|by rewrite Hf]. unfold sent. destruct (bool_decide_reflect (text m = [])) as [Ht|Ht].
      * rewrite Ht in Hct. by rewrite app_nil_r.
      * replace (_ =? 0) with false in Hct by (destruct (text m); simpl; [done|lia]). simpl in Hct.
        unfold frames in *. rewrite fmap_app, concat_app. simpl. by rewrite app_nil_r.
    + apply Forall_app_2; [done|]. unfold sent. destruct (bool_decide _); [constructor|by apply Forall_singleton].
Qed.

(** ** Broadcasts *)

(** The clients of a type, and what each of them gets. *)
Definition recipients (type : clientType) (cl : list clientType) : list Z :=
  filter (λ i, cl !! Z.to_nat i = Some type) (rangeZ 0 (Z.of_nat (length cl))).
Definition copies (type : clientType) (t : list Z) (cl : list clientType) : list Msg :=
  (λ i, mkMsg (client_mark i type) [Text t]) <$> recipients type cl.

Definition text_ok (t : list Z) : Prop := t ≠ [] ∧ Forall char_ok t ∧ Forall (λ c, c ≠ 0) t ∧ (length t <= 254)%nat.

(** Everything but the ring and the trace stays; the buffer holds [t]. *)
Record Kept (t : list Z) (s s' : CommandDistributor.CommandDistributor.St) : Prop := {
  k_writer : Holds t (writer s');
  k_has : has_ring s' = has_ring s;
  k_clients : clients s' = clients s;
  k_serial : virtualLCDSerial s' = virtualLCDSerial s;
  k_client : virtualLCDClient s' = virtualLCDClient s;
  k_remember : rememberVLCDClient s' = rememberVLCDClient s;
}.

Lemma wp_on_ring {A} (m : M RingStream.St A) Q s : has_ring s = true → wp m (λ a r, Q a (with_ring r s)) (ring s) → wp (on_ring m) Q s.
Proof. intros Hr. unfold wp, on_ring. rewrite Hr. by destruct (m (ring s)) as [[a r]|]. Qed.
Lemma wp_string t (Q : list Z → CommandDistributor.CommandDistributor.St → Prop) s : Holds t (writer s) → Forall (λ c, c ≠ 0) t → Q t s → wp getString Q s.
Proof. intros Hh Ht HQ. unfold wp, getString. by rewrite (holds_string t). Qed.

Lemma mark_ok_char (maxClients : nat) type i : (maxClients <= 127)%nat → 0 <= i < Z.of_nat maxClients → char_ok (client_mark i type).
Proof.
  intros Hmax Hi. unfold client_mark, char_ok.
  assert (∀ b, b ∈ [0; 128] → (0 <=? i .| b) && (i .| b <? 256) && negb (i .| b =? 255) = true) as Hall.
  { intros b Hb. apply (range_check (λ i, (0 <=? i .| b) && (i .| b <? 256) && negb (i .| b =? 255)) 0 127); [|lia].
    apply elem_of_cons in Hb as [->|Hb%list_elem_of_singleton]; [|subst b]; by vm_compute. }
  unfold is_byte. change FLASH_INSERT_MARKER with 255. destruct (decide _); [specialize (Hall 128)|specialize (Hall 0)];
    (specialize (Hall ltac:(set_solver)); change Websockets.Websockets.WEBSOCK_CLIENT_MARKER with 128; lia).
Qed.

Lemma print_text n q b t r : Forall char_ok t → Z.of_nat (length t) < 32768 → Open n q (mkMsg b []) r →
  wp (print t) (λ _ r', Open n q (mkMsg b [Text t]) r') r.
Proof.
  intros Ht Hl Ho. pose proof (open_print n q (mkMsg b []) [Text t] r) as Hp. unfold text in Hp. simpl in Hp. rewrite app_nil_r in Hp.
  specialize (Hp ltac:(by apply Forall_singleton) Hl Ho). unfold mfor in Hp. cbn [mfold] in Hp.
  apply wp_bind_inv, wp_bind_inv in Hp. eapply wp_mono; [exact Hp|]. intros a r' H'. exact H'.
Qed.

Lemma sent_one b t : t ≠ [] → sent (mkMsg b [Text t]) = [mkMsg b [Text t]].
Proof. intros Ht. unfold sent, text. simpl. rewrite app_nil_r. by rewrite bool_decide_false. Qed.

Lemma each_client n type t l : Forall (λ i, char_ok (client_mark i type)) l → text_ok t → ∀ q s,
  has_ring s = true → Holds t (writer s) → Idle n q (ring s) →
  room n (q ++ ((λ i, mkMsg (client_mark i type) [Text t]) <$> filter (λ i, clients s !! Z.to_nat i = Some type) l)) →
  wp (mfor l (to_client type)) (λ _ s', Kept t s s' ∧ out s' = out s ∧
    Idle n (q ++ ((λ i, mkMsg (client_mark i type) [Text t]) <$> filter (λ i, clients s !! Z.to_nat i = Some type) l)) (ring s')) s.
Proof.
  intros Hl (Hne & Htc & Ht0 & Htl). induction Hl as [|i l Hi Hl IH]; intros q s Hr Hw Hs Hroom; unfold mfor; cbn [mfold].
  { apply wp_ret. split_and!; [by constructor|done|]. simpl. by rewrite app_nil_r. }
  rewrite filter_cons in *. apply wp_bind. unfold to_client. apply wp_bind, wp_get. apply wp_when.
  - intros Hty%bool_decide_eq_true. rewrite decide_True in * by done. rewrite fmap_cons in *.
    apply wp_bind, wp_on_ring; [done|]. eapply wp_mono; [by apply open_mark|]. intros [] r1 H1. cbn beta in H1.
    apply wp_bind, (wp_string t); [done|done|]. apply wp_bind, wp_on_ring; [done|]. simpl.
    eapply wp_mono; [apply print_text; [done|lia|exact H1]|]. intros k r2 H2. cbn beta in H2.
    apply wp_bind, wp_on_ring; [done|]. simpl.
    eapply wp_mono; [apply (open_commit n q (mkMsg (client_mark i type) [Text t])); [|exact H2|]|].
    + split; [done|]. split; [by apply Forall_singleton|]. unfold text. simpl. rewrite app_nil_r. lia.
    + rewrite sent_one by done. rewrite cons_middle, app_assoc in Hroom. by eapply room_app.
    + intros ok r3 H3. cbn beta in H3. rewrite sent_one in H3 by done. apply wp_ret.
      eapply wp_mono; [apply (IH (q ++ [mkMsg (client_mark i type) [Text t]])); [done|done|exact H3|simpl; rewrite <-app_assoc; exact Hroom]|].
      simpl. intros [] s' (Hk & Ho & Hi'). rewrite <-app_assoc in Hi'. split_and!; [|done|done]. by destruct Hk; constructor.
  - intros Hty%bool_decide_eq_false. rewrite decide_False in * by done. by apply IH.
Qed.

Definition reopened (o : option Msg) : option Msg := (λ m, mkMsg (client m) []) <$> o.
Definition pending_sent (o : option Msg) : list Msg := from_option sent [] o.
Definition pending_ok (o : option Msg) : Prop := match o with Some m => Msg_ok m | None => True end.
Definition told_serials (type : clientType) (t : list Z) : list ev := if bool_decide (type = COMMAND_TYPE) then [Serials t] else [].

Lemma to_clients_ok n type t q o s : (length (clients s) <= 127)%nat → text_ok t → pending_ok o →
  has_ring s = true → Holds t (writer s) → Pending n q o (ring s) → room n (q ++ pending_sent o ++ copies type t (clients s)) →
  wp (broadcastToClients type) (λ _ s', Kept t s s' ∧ out s' = out s ++ told_serials type t ∧
    Pending n (q ++ pending_sent o ++ copies type t (clients s)) (reopened o) (ring s')) s.
Proof.
  intros Hmax Ht Ho Hr Hw Hs Hroom. unfold broadcastToClients. apply wp_bind.
  assert (wp (when bool_decide (type = COMMAND_TYPE) do let! text := getString in emit (Serials text))
    (λ _ s', s' = with_out (out s ++ told_serials type t) s) s) as H1.
  { unfold told_serials. apply wp_when; intros E; rewrite E.
    - apply wp_bind, (wp_string t); [done|apply Ht|]. by apply wp_mod.
    - rewrite app_nil_r. by destruct s. }
  eapply wp_mono; [exact H1|]. clear H1. intros [] s1 ->. apply wp_bind, wp_get. unfold id. set (s1 := with_out _ s).
  change (has_ring s1) with (has_ring s). rewrite Hr. simpl clients.
  assert (Forall (λ i, char_ok (client_mark i type)) (rangeZ 0 (Z.of_nat (length (clients s))))) as Hmarks.
  { apply Forall_forall. intros i Hi%elem_of_rangeZ. by apply (mark_ok_char (length (clients s))). }
  assert (∀ q' s2, has_ring s2 = true → Holds t (writer s2) → clients s2 = clients s → Idle n q' (ring s2) →
    room n (q' ++ copies type t (clients s)) →
    wp (mfor (rangeZ 0 (Z.of_nat (length (clients s)))) (to_client type)) (λ _ s', Kept t s2 s' ∧ out s' = out s2 ∧
      Idle n (q' ++ copies type t (clients s)) (ring s')) s2) as Heach.
  { intros q' s2 Hr2 Hw2 Hc2 Hs2 Hroom2. unfold copies, recipients in *. rewrite <-Hc2 in *. by apply each_client. }
  destruct o as [m|]; simpl in Hs, Ho, Hroom |- *.
  - destruct (Hs) as (_ & _ & _ & Hcl). unfold peekTargetMark. rewrite Hcl.
    assert ((client m =? NO_CLIENT) = false) as -> by (destruct Ho as [[_ Hc] _]; by apply Z.eqb_neq). simpl.
    apply wp_bind, wp_bind, wp_on_ring; [done|]. rewrite app_assoc in Hroom |- *.
    eapply wp_mono; [apply (open_commit n q m); [done|exact Hs|by eapply room_app]|]. intros ok r2 H2. cbn beta in H2. apply wp_ret.
    apply wp_bind. eapply wp_mono; [by apply (Heach (q ++ sent m))|]. intros [] s3 (Hk3 & Ho3 & Hi3).
    apply wp_on_ring; [by rewrite (k_has _ _ _ Hk3)|]. eapply wp_mono; [apply open_mark; [apply Ho|exact Hi3]|].
    intros [] r4 H4. split_and!; [|simpl; by rewrite Ho3|done]. by destruct Hk3; constructor.
  - destruct (Hs) as (_ & Hcl). unfold peekTargetMark. rewrite Hcl. simpl.
    apply wp_bind, wp_ret, wp_bind. eapply wp_mono; [by apply (Heach q)|]. intros [] s3 (Hk3 & Ho3 & Hi3). apply wp_ret.
    split_and!; [|by rewrite Ho3|done]. by destruct Hk3; constructor.
Qed.

(** The recipients of a broadcast; that of commands is for the websockets too. *)
Definition told (type : clientType) (t : list Z) (cl : list clientType) : list Msg :=
  copies type t cl ++ if bool_decide (type = COMMAND_TYPE) then copies WEBSOCKET_TYPE t cl else [].

Lemma kept_trans t k s1 s2 s3 : Kept t s1 s2 → Kept k s2 s3 → Kept k s1 s3.
Proof. intros H1 H2. destruct H1, H2. constructor; congruence. Qed.

Lemma broadcast_ok n type format args t q o s : (length (clients s) <= 127)%nat →
  StringFormatter.text format args = Some t → text_ok t → pending_ok o → has_ring s = true → (∃ k, Holds k (writer s)) →
  Pending n q o (ring s) → room n (q ++ pending_sent o ++ told type t (clients s)) →
  wp (broadcastReply type format args) (λ _ s', Kept t s s' ∧ out s' = out s ++ told_serials type t ∧
    Pending n (q ++ pending_sent o ++ told type t (clients s)) (reopened o) (ring s')) s.
Proof.
  intros Hmax Hf Ht Ho Hr [k Hk] Hs Hroom. unfold broadcastReply. apply wp_bind.
  destruct (holds_flush k _ Hk) as (w1 & Hw1 & H1). apply (wp_eq _ _ _ tt (with_writer w1 s)); [unfold CommandDistributor.CommandDistributor.flush; by rewrite Hw1|].
  destruct (holds_print t _ w1 H1) as (w2 & Hw2 & H2). { destruct Ht as (_ & Ht & _). eapply Forall_impl; [exact Ht|by intros c [? _]]. }
  simpl app in H2. rewrite take_ge in H2 by apply Ht.
  apply wp_bind, (wp_eq _ _ _ tt (with_writer w2 s)). { unfold to_buffer. rewrite Hf. cbn [mbind option_bind]. simpl writer. rewrite Hw2. by destruct s. }
  set (s2 := with_writer w2 s). unfold told in *. rewrite !app_assoc in Hroom. rewrite <-(app_assoc q) in Hroom.
  assert (Kept t s s2) as K2 by (by constructor).
  apply wp_bind. eapply wp_mono; [apply (to_clients_ok n type t q o s2); try done; by eapply room_app|].
  intros [] s3 (K3 & Ho3 & H3). pose proof (kept_trans _ _ _ _ _ K2 K3) as K. change (clients s2) with (clients s) in H3. apply wp_when.
  - intros E. rewrite E in *. eapply wp_mono.
    + apply (to_clients_ok n WEBSOCKET_TYPE t (q ++ pending_sent o ++ copies type t (clients s)) (reopened o) s3); try done.
      * by rewrite (k_clients _ _ _ K).
      * destruct o as [m|]; [|done]. destruct Ho as (Hm & _). split; [done|]. split; [constructor|done].
      * by rewrite (k_has _ _ _ K).
      * apply K.
      * rewrite (k_clients _ _ _ K). replace (pending_sent (reopened o)) with (@nil Msg) by (by destruct o). simpl app. rewrite <-!app_assoc in *. exact Hroom.
    + intros [] s4 (K4 & Ho4 & H4). split; [by eapply kept_trans|]. split.
      * rewrite Ho4, Ho3. by rewrite app_nil_r.
      * rewrite (k_clients _ _ _ K) in H4. replace (pending_sent (reopened o)) with (@nil Msg) in H4 by (by destruct o).
        replace (reopened (reopened o)) with (reopened o) in H4 by (by destruct o). by rewrite <-!app_assoc in *.
  - intros E. rewrite E in *. rewrite !app_nil_r in *. by split_and!.
Qed.

(** ** What a parser does: it replies to the client that asked, and broadcasts. *)

Inductive action := Say (ps : list piece) | Tell (type : clientType) (format : string) (args : list arg).
Definition perform (a : action) : M CommandDistributor.CommandDistributor.St unit :=
  match a with Say ps => on_ring (mfor ps put_piece) | Tell type format args => broadcastReply type format args end.
Definition told_text (format : string) (args : list arg) : list Z := default [] (StringFormatter.text format args).
Definition action_ok (a : action) : Prop :=
  match a with
  | Say ps => Forall piece_ok ps
  | Tell _ format args => ∃ t, StringFormatter.text format args = Some t ∧ text_ok t
  end.
Fixpoint said (acts : list action) : Z :=
  match acts with [] => 0 | Say ps :: acts => Z.of_nat (length (concat (shown <$> ps))) + said acts | Tell _ _ _ :: acts => said acts end.
Lemma said_nonneg acts : 0 <= said acts.
Proof. induction acts as [|[ps|type format args] acts IH]; simpl; lia. Qed.

(** The messages that are sent, given what of the current one is written; and
    what the serial ports get. *)
Fixpoint messages (mark_ : Z) (cl : list clientType) (cur : list piece) (acts : list action) : list Msg :=
  match acts with
  | [] => sent (mkMsg mark_ cur)
  | Say ps :: acts => messages mark_ cl (cur ++ ps) acts
  | Tell type format args :: acts => sent (mkMsg mark_ cur) ++ told type (told_text format args) cl ++ messages mark_ cl [] acts
  end.
Definition serial_texts (acts : list action) : list ev :=
  concat ((λ a, match a with Say _ => [] | Tell type format args => told_serials type (told_text format args) end) <$> acts).

Lemma wp_lift {A} (m : M CommandDistributor.CommandDistributor.St A) Q s : wp m Q s → wp (lift id (λ s _, s) m) Q s.
Proof. unfold wp, lift. simpl. by destruct (m s) as [[a s']|]. Qed.
Lemma perform_ok n acts : Forall action_ok acts → ∀ q b cur s, (length (clients s) <= 127)%nat → char_ok b → Forall piece_ok cur →
  has_ring s = true → (∃ k, Holds k (writer s)) → Open n q (mkMsg b cur) (ring s) →
  Z.of_nat (length (concat (shown <$> cur))) + said acts < 32768 → room n (q ++ messages b (clients s) cur acts) →
  wp (mfor acts perform ;;; finish id (λ s _, s)) (λ _ s', (∃ k, Kept k s s') ∧ out s' = out s ++ serial_texts acts ∧
    Idle n (q ++ messages b (clients s) cur acts) (ring s')) s.
Proof.
  induction 1 as [|a acts Ha Hacts IH]; intros q b cur s Hmax Hb Hcur Hr Hw Hs Hlen Hroom; unfold mfor; cbn [mfold].
  { apply wp_bind, wp_ret. unfold finish. apply wp_bind, wp_lift, wp_on_ring; [done|]. apply wp_get. unfold peekTargetMark.
    destruct (Hs) as (_ & _ & _ & ->). destruct (Hb) as [_ Hne]. simpl client. change NO_CLIENT with FLASH_INSERT_MARKER.
    rewrite (proj2 (Z.eqb_neq _ _) Hne). simpl negb. cbn iota.
    apply wp_bind, wp_lift, wp_on_ring; [by destruct s|]. simpl in Hroom, Hlen.
    eapply wp_mono; [apply (open_commit n q (mkMsg b cur)); [|exact Hs|exact Hroom]|].
    - split_and!; [done|done|]. unfold text. simpl pieces. lia.
    - intros ok r' H'. apply wp_ret. destruct Hw as [k Hk]. split; [by exists k|]. simpl. by rewrite app_nil_r. }
  apply wp_bind, wp_bind. pose proof (said_nonneg acts) as Hpos. destruct a as [ps|type format args]; simpl in Hlen, Hroom, Ha |- *.
  - apply wp_on_ring; [done|]. idtac.
    assert (Z.of_nat (length (concat (shown <$> cur ++ ps))) = Z.of_nat (length (concat (shown <$> cur))) + Z.of_nat (length (concat (shown <$> ps)))) as El
      by (rewrite fmap_app, concat_app, length_app; lia).
    eapply wp_mono; [apply (open_print n q (mkMsg b cur) ps); [done| |exact Hs]|].
    { unfold text. simpl pieces. rewrite <-concat_app, <-fmap_app. lia. }
    intros [] r' H'. apply wp_bind_inv. eapply wp_mono; [apply (IH q b (cur ++ ps)); try done; [by apply Forall_app_2|lia]|].
    intros [] s' ([k Hk] & Ho & Hi). split_and!; [|done|done]. exists k. by destruct Hk; constructor.
  - destruct Ha as (t & Hf & Ht). assert (told_text format args = t) as Et by (unfold told_text; by rewrite Hf). rewrite Et in *.
    eapply wp_mono; [apply (broadcast_ok n type format args t q (Some (mkMsg b cur))); try done|].
    + simpl. split; [done|]. split; [done|]. unfold text. simpl pieces. lia.
    + simpl. rewrite !app_assoc in Hroom. rewrite !app_assoc. by eapply room_app.
    + intros [] s1 (K1 & Ho1 & H1). simpl in H1. pose proof (k_clients _ _ _ K1) as Hc1.
      apply wp_bind_inv. eapply wp_mono; [apply (IH (q ++ sent (mkMsg b cur) ++ told type t (clients s)) b []); try done|].
      * by rewrite Hc1.
      * by rewrite (k_has _ _ _ K1).
      * exists t. apply K1.
      * simpl. lia.
      * rewrite Hc1. by rewrite <-!app_assoc in *.
      * intros [] s2 ([k Hk] & Ho2 & H2). rewrite Hc1 in H2. split_and!; [|rewrite Ho2, Ho1; unfold serial_texts; simpl; rewrite Et; by rewrite app_assoc|by rewrite <-!app_assoc in *].
        exists k. by eapply kept_trans.
Qed.

(** ** Input *)

Section parsers.
Variables (command_actions : list Z → list action) (throttle_actions : Z → list Z → list action) (garbage : list Z).
Definition parse_input (clientId : Z) (buffer : list Z) : M CommandDistributor.CommandDistributor.St unit :=
  parse id (λ s _, s) (λ b, mfor (command_actions b) perform) (λ i b, mfor (throttle_actions i b) perform) garbage clientId buffer.

(** The input [buffer] of a client is given to the parser that does [acts], the
    replies go to [mark_], and the client is then of type [type]. *)
Inductive Request (clientId : Z) : option clientType → list Z → Z → list action → clientType → Prop :=
  | Req_command buffer : Request clientId (Some COMMAND_TYPE) buffer clientId (command_actions buffer) COMMAND_TYPE
  | Req_throttle buffer : Request clientId (Some WITHROTTLE_TYPE) buffer clientId (throttle_actions clientId buffer) WITHROTTLE_TYPE
  | Req_first c l rest : c ≠ 0 → Forall (λ c, c ≠ 0) l → Websockets.Websockets.strstr (c :: l) Websockets.Websockets.key_header = None →
      let buffer := (c :: l) ++ 0 :: rest in
      Request clientId (Some NONE_TYPE) buffer clientId
        (if c =? 60 then command_actions buffer else throttle_actions clientId buffer) (if c =? 60 then COMMAND_TYPE else WITHROTTLE_TYPE)
  | Req_websocket type mask payload rest : type = WEBSOCKET_TYPE ∨ type = WEBSOCK_CONNECTING_TYPE →
      length mask = 4%nat → Z.of_nat (length payload) < 32768 →
      Request clientId (Some type) (WebsocketsProps.WebsocketsProps.client_frame mask payload ++ rest) (client_mark clientId WEBSOCKET_TYPE)
        (command_actions (payload ++ rest)) WEBSOCKET_TYPE.

Lemma set_client_eq s clientId type : clients s !! Z.to_nat clientId = Some type → with_clients (<[Z.to_nat clientId := type]> (clients s)) s = s.
Proof. intros E. rewrite list_insert_id by done. by destruct s. Qed.


Lemma wp_client_type clientId t (Q : clientType → CommandDistributor.CommandDistributor.St → Prop) s : clients s !! Z.to_nat clientId = Some t → Q t s →
  wp (client_type id (λ s _, s) clientId) Q s.
Proof. intros Ht HQ. apply wp_lift, wp_bind, wp_get. rewrite Ht. done. Qed.
Lemma wp_set_client clientId t (Q : unit → CommandDistributor.CommandDistributor.St → Prop) s : Q tt (with_clients (<[Z.to_nat clientId := t]> (clients s)) s) →
  wp (set_client id (λ s _, s) clientId t) Q s.
Proof. intros HQ. by apply wp_lift, wp_mod. Qed.
Lemma wp_identify_known clientId t buffer (Q : bool → CommandDistributor.CommandDistributor.St → Prop) s :
  clients s !! Z.to_nat clientId = Some t → t ≠ NONE_TYPE → Q false s → wp (identify id (λ s _, s) garbage clientId buffer) Q s.
Proof. intros Ht Hne HQ. unfold identify. apply wp_bind. eapply wp_client_type; [done|]. by rewrite decide_False. Qed.

End parsers.
End ring.

(** ** A witness: four clients, one of each kind; the websocket asks for a turnout,
    is told so, and all the others hear of it. *)

Definition no_flash : Flash := {| flash_byte _ := 0; ptr_size := 2 |}.
#[local] Existing Instance no_flash.

Definition some_state : CommandDistributor.CommandDistributor.St :=
  default (CommandDistributor.CommandDistributor.mkSt (StringBuffer.mkSt [] 0 0) (RingStream.new [] 0) false [] None 0 0 [])
    (s ← CommandDistributor.CommandDistributor.new (replicate 256 7) (RingStream.new (replicate 300 7) 300) 4;
     Some (with_clients [COMMAND_TYPE; WITHROTTLE_TYPE; WEBSOCK_CONNECTING_TYPE; COMMAND_TYPE] s)).
Definition some_actions (b : list Z) : list action :=
  [Say [Text (bytes_of "<O>")]; Tell COMMAND_TYPE (line "<H %d %d>") [AInt 5; AInt 1];
   Tell WITHROTTLE_TYPE (line "PTA%c%d") [char "4"; AInt 5]; Say [Text (take 3 b)]].
Definition some_request : list Z := WebsocketsProps.WebsocketsProps.client_frame [1; 2; 3; 4] (bytes_of "<T 5 1>") ++ [0].


(** ** Two effects of states that are left behind *)

(** A ring of 40 bytes with one client. The second broadcast does not fit; commit
    drops it but leaves the client as the one that is being written to. *)
Definition small_ring : CommandDistributor.CommandDistributor.St :=
  with_has_ring true (with_ring (RingStream.new (replicate 40%nat 7) 40) (with_clients [COMMAND_TYPE] some_state)).
Definition overflow_run : M CommandDistributor.CommandDistributor.St (list (option Z)) :=
  let take_out := on_ring (let! m := receive in mreturn (fst <$> m)) in
  broadcastRaw COMMAND_TYPE (bytes_of "0123456789ABCDEF") ;;;
  broadcastRaw COMMAND_TYPE (bytes_of "0123456789ABCDEFGH") ;;;
  let! a := take_out in
  let! b := take_out in
  let! c := take_out in
  broadcastRaw COMMAND_TYPE (bytes_of "xyz") ;;;
  let! d := take_out in
  mreturn [a; b; c; d].

(** The display of a websocket client is remembered with the mark of a websocket,
    and forgotten without it. *)
Lemma websocket_display_not_forgotten :
  (λ r, virtualLCDClient r.2) <$> (parse id (λ s _, s) (λ _, setVirtualLCDSerial (Some TheRing) ;;; on_ring (print [60]) ;;; mreturn tt) (λ _ _, mreturn tt) [] 2 some_request ;;;
    forget id (λ s _, s) (λ _, mreturn tt) 2) some_state = Some 130.
Proof. by vm_compute. Qed.
End CommandDistributorProps.
