(* ===== verification/WiThrottle.v ===== *)
(** The protocol of WiThrottle clients (src/WiThrottle.cpp): one object for each client,
    in a chain, with the locos it drives; the parser of its commands; the lists of
    turnouts, roster, routes and functions; and the loop that tells each client what has
    changed. The objects live in a store, from which delete takes them: to use one
    that is gone is a failure. What is done with the ring stream (mark, print,
    commit) is a trace, as are the calls of EXRAIL; the rest acts on the station. A
    broadcast that a call of the station makes goes on to the other clients through the
    command distributor, which is not part of this file. *)

From S2P Require Import Prelude Keywords Chain LocoSlot DCC MotorDriver TrackManager DCCACK Layout Turnouts Turntables RingStream Format Station Commands CommandDistributor Exrail ExrailMacros.
From stdpp Require Import strings.
From Stdlib Require Import Ascii.

#[local] Open Scope Z_scope.
#[local] Open Scope c_scope.

Module WiThrottle.
Import Station.Station Keywords.Keywords StringFormatter CommandDistributor.CommandDistributor.

Record MYLOCO := mkMyLoco {
  throttle : Z;   (* a character, or 0 *)
  cab : Z;
  broadcastPending : bool;
  functionMap : Z;
  functionToggles : Z;
}.

Definition with_throttle (x : Z) (r : MYLOCO) : MYLOCO :=
  mkMyLoco x (cab r) (broadcastPending r) (functionMap r) (functionToggles r).
Definition with_cab (x : Z) (r : MYLOCO) : MYLOCO :=
  mkMyLoco (throttle r) x (broadcastPending r) (functionMap r) (functionToggles r).
Definition with_broadcastPending (x : bool) (r : MYLOCO) : MYLOCO :=
  mkMyLoco (throttle r) (cab r) x (functionMap r) (functionToggles r).
Definition with_functionMap (x : Z) (r : MYLOCO) : MYLOCO :=
  mkMyLoco (throttle r) (cab r) (broadcastPending r) x (functionToggles r).
Definition with_functionToggles (x : Z) (r : MYLOCO) : MYLOCO :=
  mkMyLoco (throttle r) (cab r) (broadcastPending r) (functionMap r) x.

Record WiThrottle := mkWiThrottle {
  nextThrottle : option ptr;
  clientid : Z;
  myLocos : list MYLOCO;
  heartBeatEnable : bool;
  heartBeat : Z;
  introSent : bool;
  turnoutsSent : bool;
  rosterSent : bool;
  routesSent : bool;
  heartrateSent : bool;
  mostRecentCab : Z;
}.

Definition with_nextThrottle (x : option ptr) (r : WiThrottle) : WiThrottle :=
  mkWiThrottle x (clientid r) (myLocos r) (heartBeatEnable r) (heartBeat r) (introSent r) (turnoutsSent
    r) (rosterSent r) (routesSent r) (heartrateSent r) (mostRecentCab r).
Definition with_clientid (x : Z) (r : WiThrottle) : WiThrottle :=
  mkWiThrottle (nextThrottle r) x (myLocos r) (heartBeatEnable r) (heartBeat r) (introSent r)
    (turnoutsSent r) (rosterSent r) (routesSent r) (heartrateSent r) (mostRecentCab r).
Definition with_myLocos (x : list MYLOCO) (r : WiThrottle) : WiThrottle :=
  mkWiThrottle (nextThrottle r) (clientid r) x (heartBeatEnable r) (heartBeat r) (introSent r)
    (turnoutsSent r) (rosterSent r) (routesSent r) (heartrateSent r) (mostRecentCab r).
Definition with_heartBeatEnable (x : bool) (r : WiThrottle) : WiThrottle :=
  mkWiThrottle (nextThrottle r) (clientid r) (myLocos r) x (heartBeat r) (introSent r) (turnoutsSent r)
    (rosterSent r) (routesSent r) (heartrateSent r) (mostRecentCab r).
Definition with_heartBeat (x : Z) (r : WiThrottle) : WiThrottle :=
  mkWiThrottle (nextThrottle r) (clientid r) (myLocos r) (heartBeatEnable r) x (introSent r)
    (turnoutsSent r) (rosterSent r) (routesSent r) (heartrateSent r) (mostRecentCab r).
Definition with_introSent (x : bool) (r : WiThrottle) : WiThrottle :=
  mkWiThrottle (nextThrottle r) (clientid r) (myLocos r) (heartBeatEnable r) (heartBeat r) x
    (turnoutsSent r) (rosterSent r) (routesSent r) (heartrateSent r) (mostRecentCab r).
Definition with_turnoutsSent (x : bool) (r : WiThrottle) : WiThrottle :=
  mkWiThrottle (nextThrottle r) (clientid r) (myLocos r) (heartBeatEnable r) (heartBeat r) (introSent r)
    x (rosterSent r) (routesSent r) (heartrateSent r) (mostRecentCab r).
Definition with_rosterSent (x : bool) (r : WiThrottle) : WiThrottle :=
  mkWiThrottle (nextThrottle r) (clientid r) (myLocos r) (heartBeatEnable r) (heartBeat r) (introSent r)
    (turnoutsSent r) x (routesSent r) (heartrateSent r) (mostRecentCab r).
Definition with_routesSent (x : bool) (r : WiThrottle) : WiThrottle :=
  mkWiThrottle (nextThrottle r) (clientid r) (myLocos r) (heartBeatEnable r) (heartBeat r) (introSent r)
    (turnoutsSent r) (rosterSent r) x (heartrateSent r) (mostRecentCab r).
Definition with_heartrateSent (x : bool) (r : WiThrottle) : WiThrottle :=
  mkWiThrottle (nextThrottle r) (clientid r) (myLocos r) (heartBeatEnable r) (heartBeat r) (introSent r)
    (turnoutsSent r) (rosterSent r) (routesSent r) x (mostRecentCab r).
Definition with_mostRecentCab (x : Z) (r : WiThrottle) : WiThrottle :=
  mkWiThrottle (nextThrottle r) (clientid r) (myLocos r) (heartBeatEnable r) (heartBeat r) (introSent r)
    (turnoutsSent r) (rosterSent r) (routesSent r) (heartrateSent r) x.

Inductive ev :=
  | Mark (client : Z) | Print (text : list Z) | Commit   (* RingStream *)
  | NewTask (route cab : Z).                             (* RMFT2::createNewTask *)

(** The objects, the statics of the class, and the trace. *)
Record St := mkSt {
  station : World;
  heap : gmap ptr WiThrottle;
  firstThrottle : option ptr;
  marked : Z;   (* the client of the stream, as peekTargetMark tells it *)
  stashInstance : option ptr;
  stashClient : Z;
  stashThrottleChar : Z;
  out : list ev;
}.

Definition with_station (x : World) (r : St) : St :=
  mkSt x (heap r) (firstThrottle r) (marked r) (stashInstance r) (stashClient r) (stashThrottleChar r)
    (out r).
Definition with_heap (x : gmap ptr WiThrottle) (r : St) : St :=
  mkSt (station r) x (firstThrottle r) (marked r) (stashInstance r) (stashClient r) (stashThrottleChar r)
    (out r).
Definition with_firstThrottle (x : option ptr) (r : St) : St :=
  mkSt (station r) (heap r) x (marked r) (stashInstance r) (stashClient r) (stashThrottleChar r) (out r).
Definition with_marked (x : Z) (r : St) : St :=
  mkSt (station r) (heap r) (firstThrottle r) x (stashInstance r) (stashClient r) (stashThrottleChar r)
    (out r).
Definition with_stashInstance (x : option ptr) (r : St) : St :=
  mkSt (station r) (heap r) (firstThrottle r) (marked r) x (stashClient r) (stashThrottleChar r) (out r).
Definition with_stashClient (x : Z) (r : St) : St :=
  mkSt (station r) (heap r) (firstThrottle r) (marked r) (stashInstance r) x (stashThrottleChar r) (out
    r).
Definition with_stashThrottleChar (x : Z) (r : St) : St :=
  mkSt (station r) (heap r) (firstThrottle r) (marked r) (stashInstance r) (stashClient r) x (out r).
Definition with_out (x : list ev) (r : St) : St :=
  mkSt (station r) (heap r) (firstThrottle r) (marked r) (stashInstance r) (stashClient r)
    (stashThrottleChar r) x.

#[export] Instance throttle_linked : Linked WiThrottle := {| nx := nextThrottle; setnx := with_nextThrottle; nx_setnx _ _ := eq_refl |}.

Definition MAX_MY_LOCO : nat := 10.
Definition HEARTBEAT_SECONDS : Z := 10.
Definition HEARTBEAT_PRELOAD : Z := 2.
Definition ESTOP_SECONDS : Z := 20.

Definition emit (e : ev) : M St unit := mmod (λ s, with_out (out s ++ [e]) s).
Definition deref (p : ptr) : M St WiThrottle := λ s, t ← heap s !! p; Some (t, s).
Definition update (p : ptr) (f : WiThrottle → WiThrottle) : M St unit := λ s,
  t ← heap s !! p; Some (tt, with_heap (<[p := f t]> (heap s)) s).
Definition my_loco (this : ptr) (k : nat) : M St MYLOCO := let! t := deref this in mlift (myLocos t !! k).
Definition set_loco (this : ptr) (k : nat) (f : MYLOCO → MYLOCO) : M St unit :=
  update this (λ t, with_myLocos (alter f k (myLocos t)) t).

(** *** The stream *)

Definition mark (client : Z) : M St unit := mmod (with_marked client) ;;; emit (Mark client).
Definition commit : M St unit := mmod (with_marked RingStream.RingStream.NO_CLIENT) ;;; emit Commit.
Definition print (text : list Z) : M St unit := emit (Print text).

Section flash.
Context `{RingStream.Flash}.
Definition say (format : string) (args : list arg) : M St unit :=
  let! t := mlift (StringFormatter.text format args) in print t.
End flash.

(** ** Objects *)

Definition fuel_of : M St nat := mget (λ s, S (size (heap s))).

Fixpoint get_loop (fuel : nat) (wifiClient : Z) (wt : option ptr) : M St (option ptr) :=
  match wt, fuel with
  | None, _ => mreturn None
  | Some _, O => Prelude.mfail
  | Some x, S fuel =>
    let! t := deref x in
    if clientid t =? wifiClient then mreturn (Some x) else get_loop fuel wifiClient (nextThrottle t)
  end.
Definition find_throttle (wifiClient : Z) : M St (option ptr) :=
  let! fuel := fuel_of in let! first := mget firstThrottle in get_loop fuel wifiClient first.

(** The constructor; [fresh_loco] is what memory holds, of which only the
    throttle characters are cleared, and the heartbeat is set before it is read. *)
Definition construct (fresh_loco : MYLOCO) (wificlientid : Z) : M St ptr := λ s,
  let x := fresh (dom (heap s)) in
  let t := mkWiThrottle (firstThrottle s) wificlientid (replicate MAX_MY_LOCO (with_throttle 0 fresh_loco)) false 0
             false false false false false 0 in
  Some (x, with_firstThrottle (Some x) (with_heap (<[x := t]> (heap s)) s)).
Definition getThrottle (fresh_loco : MYLOCO) (wifiClient : Z) : M St ptr :=
  let! found := find_throttle wifiClient in
  match found with Some x => mreturn x | None => construct fresh_loco wifiClient end.

Fixpoint unlink_loop (fuel : nat) (this : ptr) (next : option ptr) (wt : option ptr) : M St unit :=
  match wt, fuel with
  | None, _ => mreturn tt
  | Some _, O => Prelude.mfail
  | Some x, S fuel =>
    let! t := deref x in
    if bool_decide (nextThrottle t = Some this) then update x (with_nextThrottle next)
    else unlink_loop fuel this next (nextThrottle t)
  end.
(** delete: the destructor, and the memory is free. *)
Definition delete_ (this : ptr) : M St unit :=
  let! t := deref this in
  let! fuel := fuel_of in
  let! first := mget firstThrottle in
  (if bool_decide (first = Some this) then mmod (with_firstThrottle (nextThrottle t))
   else unlink_loop fuel this (nextThrottle t) first) ;;;
  mmod (λ s, with_heap (delete this (heap s)) s).
Definition forget (clientId : Z) : M St unit :=
  let! found := find_throttle clientId in
  match found with Some x => delete_ x | None => mreturn tt end.

(** *** The macro LOOPLOCOS *)

Definition matches (throttleChar cab_ : Z) (m : MYLOCO) : bool :=
  ((throttle m =? throttleChar) || (42 =? throttleChar)) && ((cab_ <? 0) || (cab m =? cab_)).
Definition looplocos (this : ptr) (throttleChar cab_ : Z) (body : nat → M St unit) : M St unit :=
  mfor (seq 0 MAX_MY_LOCO) (λ k, let! m := my_loco this k in when matches throttleChar cab_ m do body k).

Definition areYouUsingThrottle (this : ptr) (cab_ : Z) : M St bool :=
  let! t := deref this in mreturn (existsb (matches 42 cab_) (myLocos t)).
Fixpoint in_use_loop (fuel : nat) (cab_ : Z) (wt : option ptr) : M St bool :=
  match wt, fuel with
  | None, _ => mreturn false
  | Some _, O => Prelude.mfail
  | Some x, S fuel =>
    let! used := areYouUsingThrottle x cab_ in
    if used : bool then mreturn true else let! t := deref x in in_use_loop fuel cab_ (nextThrottle t)
  end.
Definition isThrottleInUse (cab_ : Z) : M St bool :=
  let! fuel := fuel_of in let! first := mget firstThrottle in in_use_loop fuel cab_ first.

Definition markForBroadcast2 (this : ptr) (cab_ : Z) : M St unit :=
  looplocos this 42 cab_ (λ k, set_loco this k (with_broadcastPending true)).
Fixpoint mark_loop (fuel : nat) (cab_ : Z) (wt : option ptr) : M St unit :=
  match wt, fuel with
  | None, _ => mreturn tt
  | Some _, O => Prelude.mfail
  | Some x, S fuel =>
    markForBroadcast2 x cab_ ;;; let! t := deref x in mark_loop fuel cab_ (nextThrottle t)
  end.
Definition markForBroadcast (cab_ : Z) : M St unit :=
  let! fuel := fuel_of in let! first := mget firstThrottle in mark_loop fuel cab_ first.

(** *** Calls of the station: what it broadcasts of a loco marks it here, and a
    result of the programming track may be for [callback]. *)

Definition deliver (callback : Z → M St unit) (e : Station.Station.ev) : M St unit :=
  match e with
  | OfDCC (DCC.DCC.BroadcastLoco loco _ _) => markForBroadcast (i16 loco)
  | LocoForThrottle locoid => callback locoid
  | _ => mreturn tt
  end.
Definition on_station_ {A} (callback : Z → M St unit) (m : M World A) : M St A := λ s,
  '(a, w) ← m (station s);
  '(_, s') ← mfor (drop (length (Station.Station.out (station s))) (Station.Station.out w)) (deliver callback) (with_station w s);
  Some (a, s').
(** Outside of the programming track there is no result. *)
Definition on_station {A} (m : M World A) : M St A := on_station_ (λ _, Prelude.mfail) m.

(** ** Numbers and speeds *)

Definition at_ (cmd : list Z) (k : nat) : M St Z := mlift (cmd !! k).
Fixpoint digits (i : Z) (cmd : list Z) : option Z :=
  match cmd with
  | [] => None
  | c :: cmd => if (48 <=? c) && (c <=? 57) then digits (i16 (i * 10 + (c - 48))) cmd else Some i
  end.
Definition getInt (cmd : list Z) : M St Z :=
  let! c := at_ cmd 0 in
  if c =? 45 then let! i := mlift (digits 0 (drop 1 cmd)) in mreturn (i16 (0 - i))
  else mlift (digits 0 cmd).
Definition getLocoId (cmd : list Z) : M St Z :=
  let! c := at_ cmd 0 in
  if c =? 42 then mreturn (-1) else
  if negb (c =? 76) && negb (c =? 83) then mreturn 0 else getInt (drop 1 cmd).

Definition DCCToWiTSpeed (DCCSpeed : Z) : Z :=
  if DCCSpeed =? 0 then 0 else if DCCSpeed =? 1 then -1 else DCCSpeed - 1.
Definition WiTToDCCSpeed (WiTSpeed : Z) : Z :=
  if WiTSpeed =? 0 then 0 else if WiTSpeed =? -1 then 1 else i16 (WiTSpeed + 1).
Definition LorS (cab_ : Z) : Z := if cab_ <=? DCC.DCC.HIGHEST_SHORT_ADDR then 83 else 76.

(** ** The lists that a client is given *)

Section station.
Context `{!Config} `{!MotorDriver.MotorDriver.Board} `{!Layout.Layout.Machine} `{!Devices} `{!Commands.Build} `{!RingStream.Flash}.
Variable i : Inputs.
(** The automation of the build, if there is one. *)
Variable exrail : option ExrailMacros.ExrailMacros.Script.

Definition dcc_call {A} (m : M DCC.DCC.St A) : M St A := on_station (on_dcc m).
Definition layout_call {A} (m : M Layout.Layout.St A) : M St A := on_station (on_layout m).
Definition tracks_call {A} (m : TrackManager.TrackManager.Throttles → M TrackManager.TrackManager.St A) : M St A := on_station (on_tracks m).
Definition str (t : string) : arg := AStr (bytes_of t).

Definition sendIntro (this : ptr) : M St unit :=
  let! t := deref this in
  if introSent t then mreturn tt else
  (update this (with_introSent true) ;;;
   say (line "VN2.0" +:+ line "HTDCC-EX" +:+ line "RL0") [] ;;;
   say (line "HtDCC-EX v%s, %s, %s, %s") [str Commands.VERSION; str Commands.ARDUINO_TYPE; str Commands.shieldName; str Commands.GITHUB_SHA] ;;;
   say (line "PTT]\[Turnouts}|{Turnout]\[THROW}|{2]\[CLOSE}|{4") [] ;;;
   let! p := tracks_call (λ _, TrackManager.TrackManager.getMainPower) in
   say (line "PPA%x") [AInt (b2z (is_on p))] ;;;
   say (line "*%d" +:+ line "HMConnecting..") [AInt HEARTBEAT_PRELOAD]).

Definition sendTurnouts (this : ptr) : M St unit :=
  update this (with_turnoutsSent true) ;;;
  say "PTL" [] ;;;
  let! l := mget (λ s, Layout.Layout.turnouts (layout (station s))) in
  mfor l (λ tt_,
    when negb (Layout.Layout.hidden tt_) do
      (let id := Layout.Layout.id tt_ in
       let tdesc := script ← exrail; ExrailMacros.ExrailMacros.getTurnoutDescription script (i16 id) in
       let! closed := layout_call (Turnouts.Turnouts.isClosed (u16 id)) in
       let tchar := if closed : bool then 50 else 52 in
       match tdesc with
       | None => say "]\[%d}|{T%d}|{T%c" [AInt id; AInt id; AInt tchar]
       | Some tdesc => say "]\[%d}|{%s}|{%c" [AInt id; str tdesc; AInt tchar]
       end)) ;;;
  say (line "") [].

(** A walk along a list of ids in flash, which ends with INT16_MAX. *)
Fixpoint ids_loop (body : Z → M St unit) (ids : list Z) : M St unit :=
  match ids with
  | [] => Prelude.mfail
  | id :: ids => if id =? ExrailMacros.ExrailMacros.INT16_MAX then mreturn tt else (body id ;;; ids_loop body ids)
  end.
Definition sendRoster (this : ptr) : M St unit :=
  update this (with_rosterSent true) ;;;
  match exrail with
  | None => mreturn tt
  | Some script =>
    say "RL%d" [AInt (ExrailMacros.ExrailMacros.rosterNameCount script)] ;;;
    ids_loop (λ cabid,
      when cabid >? 0 do
        say "]\[%s}|{%d}|{%c" [str (ExrailMacros.ExrailMacros.getRosterName script cabid); AInt cabid; AInt (if cabid <? 128 then 83 else 76)])
      (ExrailMacros.ExrailMacros.rosterIdList script) ;;;
    say (line "") []
  end.
Definition sendRoutes (this : ptr) : M St unit :=
  update this (with_routesSent true) ;;;
  match exrail with
  | None => mreturn tt
  | Some script =>
    say (line "PRT]\[Routes}|{Route]\[Set}|{2]\[Handoff}|{4" +:+ "PRL") [] ;;;
    ids_loop (λ id, say "]\[A%d}|{%s}|{4" [AInt id; str (ExrailMacros.ExrailMacros.getRouteDescription script id)])
      (ExrailMacros.ExrailMacros.automationIdList script) ;;;
    ids_loop (λ id, say "]\[R%d}|{%s}|{2" [AInt id; str (ExrailMacros.ExrailMacros.getRouteDescription script id)])
      (ExrailMacros.ExrailMacros.routeIdList script) ;;;
    say (line "") []
  end.

(** The names of functions, separated by slashes; a star in front of a name is
    for one that is on while its key is pressed. *)
Fixpoint names_loop (this : ptr) (loco : nat) (names : list Z) (fkeys : Z) (firstchar : bool) : M St Z :=
  match names with
  | [] => mreturn (fkeys + 1)
  | c :: names =>
    if c =? 47 then say "]\[" [] ;;; names_loop this loco names (fkeys + 1) true
    else if firstchar && (c =? 42) then
      (if fkeys >=? 32 then Prelude.mfail       (* shift out of range *)
       else set_loco this loco (λ m, with_functionToggles (functionToggles m .| (1 <<' fkeys)) m)) ;;;
      names_loop this loco names fkeys false
    else print [c] ;;; names_loop this loco names fkeys false
  end.
Definition sendFunctions (this : ptr) (loco : nat) : M St unit :=
  let! m := my_loco this loco in
  let locoid := i16 (cab m) in
  set_loco this loco (with_functionToggles 4) ;;;                 (* F2 (HORN) is a non-toggle *)
  let! fkeys :=
    match script ← exrail;
          match ExrailMacros.ExrailMacros.getRosterFunctions script locoid with
          | Some l => Some l
          | None => ExrailMacros.ExrailMacros.getRosterFunctions script 0
          end with
    | None => mreturn 32
    | Some functionNames =>
      match bytes_of functionNames with
      | [] => mreturn 0
      | names =>
        set_loco this loco (with_functionToggles 0) ;;;
        say "M%cL%c%d<;>]\[" [AInt (throttle m); AInt (LorS locoid); AInt locoid] ;;;
        let! n := names_loop this loco names 0 true in
        say (line "") [] ;;;
        mreturn n
      end
    end in
  mfor (rangeZ 0 fkeys) (λ fKey,
    let! fstate := dcc_call (DCC.DCC.getFn locoid fKey) in
    when fstate >=? 0 do
      say (line "M%cA%c%d<;>F%d%d") [AInt (throttle m); AInt (LorS locoid); AInt locoid; AInt fstate; AInt fKey]).

(** ** Commands for locos *)

Definition setThrottle (cab_ speed : Z) (forward : bool) : M St unit :=
  let! _ := dcc_call (DCC.DCC.setThrottle (now i) (u16 cab_) (u8 speed) forward) in mreturn tt.
Definition direction (cab_ : Z) : M St bool := dcc_call (DCC.DCC.getThrottleDirection cab_).
Definition recent (this : ptr) (cab_ : Z) : M St unit := update this (with_mostRecentCab (u16 cab_)).

Definition locoAction (this : ptr) (aval : list Z) (throttleChar cab_ : Z) : M St unit :=
  let for_each (body : Z → M St unit) := looplocos this throttleChar cab_ (λ k, let! m := my_loco this k in body (cab m)) in
  let! c := at_ aval 0 in
  if c =? 86 then                                           (* Vspeed *)
    let! witSpeed := getInt (drop 1 aval) in
    for_each (λ cab_, recent this cab_ ;;; let! d := direction cab_ in setThrottle cab_ (WiTToDCCSpeed witSpeed) d)
  else if c =? 70 then                                      (* Function key pressed/released *)
    let! p := at_ aval 1 in
    let pressed := p =? 49 in
    let! fKey := getInt (drop 2 aval) in
    looplocos this throttleChar cab_ (λ k,
      let! m := my_loco this k in
      if (fKey <? 0) || (fKey >=? 32) then Prelude.mfail    (* shift out of range *)
      else if tru (functionToggles m .& (1 <<' fKey)) then
        let! _ := dcc_call (DCC.DCC.setFn (cab m) fKey pressed) in mreturn tt
      else when pressed do dcc_call (DCC.DCC.changeFn (cab m) fKey))
  else if c =? 102 then                                     (* Function key set, force function variant *)
    let! p := at_ aval 1 in
    let pressed := p =? 49 in
    let! fKey := getInt (drop 2 aval) in
    for_each (λ cab_, let! _ := dcc_call (DCC.DCC.setFn cab_ fKey pressed) in mreturn tt)
  else if c =? 113 then                                     (* qV or qR *)
    let! v := at_ aval 1 in
    when (v =? 86) || (v =? 82) do
      (let! t := deref this in
       looplocos this throttleChar cab_ (λ k, set_loco this k (with_broadcastPending true)) ;;;
       when negb (existsb (matches throttleChar cab_) (myLocos t)) do say (line "HMCS loco list empty") [])
  else if c =? 82 then
    let! v := at_ aval 1 in
    let forward := negb (v =? 48) in
    for_each (λ cab_,
      recent this cab_ ;;;
      let! speed := dcc_call (DCC.DCC.getThrottleSpeed cab_) in
      let speed := if i8 speed <? 0 then 0 else i8 speed in
      setThrottle cab_ speed forward)
  else if c =? 88 then                                      (* Emergency Stop *)
    for_each (λ cab_, let! d := direction cab_ in setThrottle cab_ 1 d)
  else if (c =? 73) || (c =? 81) then                       (* Idle, Quit *)
    for_each (λ cab_, recent this cab_ ;;; let! d := direction cab_ in setThrottle cab_ 0 d)
  else mreturn tt.

(** The place after the first semicolon and the character behind it, or the end. *)
Fixpoint after_semicolon (cmd : list Z) : option (list Z) :=
  match cmd with
  | [] => None
  | c :: l => if c =? 59 then match l with _ :: l => Some l | [] => None end else if c =? 0 then Some cmd else after_semicolon l
  end.

Fixpoint first_empty (k : nat) (l : list MYLOCO) : option nat :=
  match l with [] => None | m :: l => if throttle m =? 0 then Some k else first_empty (S k) l end.
Definition add_loco (this : ptr) (throttleChar c3 locoid : Z) : M St unit :=
  if locoid =? 0 then say (line "HMAddress '0' not supported!") [AInt c3; AInt locoid] else
  if negb (c3 =? LorS locoid) then say (line "HMLength '%c' not valid for %d!") [AInt c3; AInt locoid] else
  let! slot := dcc_call (DCC.DCC.slot_of locoid true) in
  match slot with
  | None => say (line "HMUnable to create loco %d slot") [AInt locoid]
  | Some _ =>
    let! t := deref this in
    match first_empty 0 (myLocos t) with
    | None => say (line "HMMax locos (%d) exceeded, %d not added!") [AInt (Z.of_nat MAX_MY_LOCO); AInt locoid]
    | Some k =>
      set_loco this k (λ m, with_cab locoid (with_throttle throttleChar m)) ;;;
      let! f := dcc_call (DCC.DCC.getFunctionMap locoid) in
      set_loco this k (λ m, with_broadcastPending true (with_functionMap f m)) ;;;
      recent this locoid ;;;
      say (line "M%c+%c%d<;>") [AInt throttleChar; AInt c3; AInt locoid] ;;;
      sendFunctions this k ;;;
      say (line "M%cA%c%d<;>s1") [AInt throttleChar; AInt c3; AInt locoid]
    end
  end.
Definition remove_locos (this : ptr) (throttleChar locoid : Z) : M St unit :=
  looplocos this throttleChar locoid (λ k,
    let! m := my_loco this k in
    set_loco this k (with_throttle 0) ;;;
    say (line "M%c-%c%d<;>") [AInt throttleChar; AInt (LorS (cab m)); AInt (cab m)]).
(** [drive_away] is what M+* does. *)
Definition multithrottle_ (drive_away : Z → M St unit) (this : ptr) (cmd : list Z) : M St unit :=
  let! throttleChar := at_ cmd 1 in
  let! locoid := getLocoId (drop 3 cmd) in
  if (locoid >? 10239) || (locoid <? -1) then say (line "No valid DCC loco %d") [AInt locoid] else
  let! aval := mlift (after_semicolon cmd) in
  let! c2 := at_ cmd 2 in
  if c2 =? 43 then
    let! c3 := at_ cmd 3 in
    if c3 =? 42 then drive_away throttleChar else add_loco this throttleChar c3 locoid
  else if c2 =? 45 then remove_locos this throttleChar locoid
  else if c2 =? 65 then locoAction this aval throttleChar locoid
  else mreturn tt.

(** ** Drive away: the loco on the programming track *)

Definition getLocoCallback (locoid : Z) : M St unit :=
  let! client := mget stashClient in
  mark client ;;;
  if locoid <=? 0 then say (line "HMNo loco found on prog track") [] ;;; commit else
  let long := tru (locoid .& DCCACK.DCCACK.LONG_ADDR_MARKER) in
  let locoid := if long then locoid .^ DCCACK.DCCACK.LONG_ADDR_MARKER else locoid in
  if long && (locoid <=? DCC.DCC.HIGHEST_SHORT_ADDR) then
    say (line "HMLong addr %d <= %d unsupported") [AInt locoid; AInt DCC.DCC.HIGHEST_SHORT_ADDR] ;;; commit
  else
    (let! throttleChar := mget stashThrottleChar in
     let! instance := mget stashInstance in
     let! this := mlift instance in
     multithrottle_ (λ _, Prelude.mfail) this
       ([77; throttleChar; 43; if long then 76 else 83] ++ dec locoid ++ replicate (16 - length (dec locoid)) 0) ;;;
     tracks_call (λ _, TrackManager.TrackManager.setJoin true) ;;;
     tracks_call (λ _, TrackManager.TrackManager.setMainPower (track_env i) MotorDriver.MotorDriver.ON) ;;;
     tracks_call (λ _, TrackManager.TrackManager.setProgPower (track_env i) MotorDriver.MotorDriver.ON) ;;;
     commit).
Definition drive_away (this : ptr) (throttleChar : Z) : M St unit :=
  let! client := mget marked in
  mmod (with_stashClient client) ;;;
  mmod (with_stashThrottleChar throttleChar) ;;;
  mmod (with_stashInstance (Some this)) ;;;
  on_station_ getLocoCallback (programming i CB_WiThrottle DCCACK.DCCACK.getDriveawayLocoId).
Definition multithrottle (this : ptr) (cmd : list Z) : M St unit := multithrottle_ (drive_away this) this cmd.
(** The main loop's share of the programming track. *)
Definition ack_loop : M St unit := on_station_ getLocoCallback (Station.Station.ack_loop i).

(** ** Commands *)

Definition metadata (this : ptr) : M St unit :=
  let! t := deref this in
  when introSent t do
    (if negb (turnoutsSent t) then sendTurnouts this
     else if negb (rosterSent t) then sendRoster this
     else if negb (routesSent t) then sendRoutes this
     else when negb (heartrateSent t) do
       (update this (with_heartrateSent true) ;;;
        say (line "*%d" +:+ line "HMConnected") [AInt HEARTBEAT_SECONDS])).

(** PTA: a turnout that does not exist is created. *)
Definition accessory (cmd : list Z) : M St unit :=
  let! id := getInt (drop 4 cmd) in
  let! known := layout_call (Turnouts.Turnouts.exists_ (u16 id)) in
  (when negb known do
     (layout_call (Turnouts.Turnouts.createDCC (u16 id) (u16 (Z.quot (id - 1) 4 + 1)) (u8 (Z.rem (id - 1) 4))) ;;;
      say (line "HmTurnout %d created") [AInt id])) ;;;
  let! c := at_ cmd 3 in
  let! closed :=
    (if c =? 84 then mreturn false else if c =? 67 then mreturn true
     else if c =? 50 then let! now := layout_call (Turnouts.Turnouts.isClosed (u16 id)) in mreturn (negb now)
     else mreturn true) in
  layout_call (Turnouts.Turnouts.setClosed (u16 id) closed) ;;;
  let! now := layout_call (Turnouts.Turnouts.isClosed (u16 id)) in
  say (line "PTA%c%d") [AInt (if now : bool then 50 else 52); AInt id].

Definition command (this : ptr) (cmd : list Z) : M St unit :=
  let! c := at_ cmd 0 in
  let has (k : nat) (x : Z) := let! c := at_ cmd k in mreturn (c =? x) in
  if c =? 42 then                                           (* heartbeat control *)
    let! v := at_ cmd 1 in
    if v =? 43 then update this (with_heartBeatEnable true)
    else when v =? 45 do update this (with_heartBeatEnable false)
  else if c =? 80 then
    let! c1 := at_ cmd 1 in
    if c1 =? 80 then
      let! a := has 2%nat 65 in
      when a : bool do
        (let! p := at_ cmd 3 in
         tracks_call (λ _, TrackManager.TrackManager.setMainPower (track_env i) (if p =? 49 then MotorDriver.MotorDriver.ON else MotorDriver.MotorDriver.OFF)))
    else if bool_decide (is_Some exrail) && (c1 =? 82) then
      let! a := has 2%nat 65 in
      when a : bool do
        (let! two := has 3%nat 50 in
         when two : bool do
           (let! route := getInt (drop 5 cmd) in
            let! handoff := has 4%nat 65 in
            let! t := deref this in
            emit (NewTask route (if handoff : bool then mostRecentCab t else 0))))
    else if c1 =? 84 then
      let! a := has 2%nat 65 in
      when a : bool do accessory cmd
    else mreturn tt
  else if c =? 78 then                                      (* Heartbeat (2) *)
    sendIntro this ;;;
    let! t := deref this in
    say (line "*%d") [AInt (if heartrateSent t then HEARTBEAT_SECONDS else HEARTBEAT_PRELOAD)]
  else if c =? 77 then multithrottle this cmd
  else if c =? 72 then let! u := has 1%nat 85 in when u : bool do sendIntro this
  else if c =? 81 then
    looplocos this 42 (-1) (λ k,
      let! m := my_loco this k in
      when tru (throttle m) do say (line "M%c-%c%d<;>") [AInt (throttle m); AInt (LorS (cab m)); AInt (cab m)]) ;;;
    delete_ this
  else mreturn tt.

(** Past the end of the line, or to the end of the text. *)
Fixpoint next_line (cmd : list Z) : option (list Z) :=
  match cmd with
  | [] => None
  | c :: l => if c =? 0 then Some cmd else if (c =? 13) || (c =? 10) then Some l else next_line l
  end.
Fixpoint commands (fuel : nat) (this : ptr) (cmd : list Z) : M St unit :=
  match fuel with
  | O => Prelude.mfail
  | S fuel =>
    let! c := at_ cmd 0 in
    if c =? 0 then mreturn tt else
    (command this cmd ;;;
     let! cmd := mlift (next_line cmd) in
     commands fuel this cmd)
  end.
Definition parse (this : ptr) (cmd : list Z) : M St unit :=
  update this (with_heartBeat (now i)) ;;;
  metadata this ;;;
  commands (S (length cmd)) this cmd.

(** ** The loop *)

Fixpoint functions_loop (fuel : nat) (throttle lors cab_ dccFunctionMap myFunctionMap fn : Z) : M St unit :=
  match fuel with
  | O => Prelude.mfail
  | S fuel =>
    if dccFunctionMap =? myFunctionMap then mreturn tt else
    ((when negb (dccFunctionMap .& 1 =? myFunctionMap .& 1) do
       say (line "M%cA%c%d<;>F%c%d") [AInt throttle; AInt lors; AInt cab_; if tru (dccFunctionMap .& 1) then char "1" else char "0"; AInt fn]) ;;;
     functions_loop fuel throttle lors cab_ (dccFunctionMap >>' 1) (myFunctionMap >>' 1) (fn + 1))
  end.
(** One loco, when there is something to say of it; true when the stream has
    been marked. *)
Definition tell_loco (this : ptr) (k : nat) (streamHasBeenMarked : bool) : M St bool :=
  let! m := my_loco this k in
  if negb (tru (throttle m) && broadcastPending m) then mreturn streamHasBeenMarked else
  let! t := deref this in
  (when negb streamHasBeenMarked do mark (u8 (clientid t))) ;;;
  set_loco this k (with_broadcastPending false) ;;;
  let c := cab m in
  let lors := LorS c in
  let! speed := dcc_call (DCC.DCC.getThrottleSpeed c) in
  say (line "M%cA%c%d<;>V%d") [AInt (throttle m); AInt lors; AInt c; AInt (DCCToWiTSpeed (i8 speed))] ;;;
  let! d := dcc_call (DCC.DCC.getThrottleDirection c) in
  say (line "M%cA%c%d<;>R%d") [AInt (throttle m); AInt lors; AInt c; AInt (b2z d)] ;;;
  let! dccFunctionMap := dcc_call (DCC.DCC.getFunctionMap c) in
  set_loco this k (with_functionMap dccFunctionMap) ;;;
  functions_loop 33 (throttle m) lors c dccFunctionMap (functionMap m) 0 ;;;
  mreturn true.
Definition timed_out (t : WiThrottle) : bool := heartBeatEnable t && (u32 (now i - heartBeat t) >? ESTOP_SECONDS * 1000).
Definition checkHeartbeat (this : ptr) : M St unit :=
  let! t := deref this in
  if timed_out t then
    looplocos this 42 (-1) (λ k,
      let! m := my_loco this k in
      when tru (throttle m) do
        (let! d := direction (cab m) in
         setThrottle (cab m) 1 d ;;;
         update this (with_heartBeat (now i)))) ;;;
    delete_ this
  else
    let! marked_ := mfold (λ k b, tell_loco this k b) (seq 0 MAX_MY_LOCO) false in
    when marked_ do commit.
Fixpoint loop_loop (fuel : nat) (wt : option ptr) : M St unit :=
  match wt, fuel with
  | None, _ => mreturn tt
  | Some _, O => Prelude.mfail
  | Some x, S fuel => checkHeartbeat x ;;; let! t := deref x in loop_loop fuel (nextThrottle t)
  end.
Definition loop : M St unit := let! fuel := fuel_of in let! first := mget firstThrottle in loop_loop fuel first.
End station.
End WiThrottle.
