(* ===== verification/WiThrottleProps.v ===== *)
(** WiThrottle clients: there is one object for each client; the loop tells every
    client exactly what has changed of its locos; and what happens when the heartbeat of a client
    stops. *)

From S2P Require Import Prelude Keywords Chain LocoSlot ConsistProps DCC DCCSafe MotorDriver TrackManager TrackProps DCCACK DCCWaveform Layout Turnouts Turntables RingStream Format Station StationProps Commands CommandsProps CommandDistributor Exrail ExrailMacros WiThrottle.
From stdpp Require Import strings.

#[local] Open Scope Z_scope.
#[local] Open Scope c_scope.

Module WiThrottleProps.
Import Station.Station Keywords.Keywords StringFormatter CommandDistributor.CommandDistributor WiThrottle.WiThrottle.

(** ** One object for each client *)

Definition client (h : gmap ptr WiThrottle) (x : ptr) : option Z := clientid <$> h !! x.
(** The objects are those of the chain, and their clients differ. *)
Record Rep (l : list ptr) (cs : list Z) (s : WiThrottle.WiThrottle.St) : Prop := {
  r_chain : chain (WiThrottle.WiThrottle.heap s) (firstThrottle s) l;
  r_dom : ∀ x, is_Some (WiThrottle.WiThrottle.heap s !! x) ↔ x ∈ l;
  r_clients : Forall2 (λ x c, client (WiThrottle.WiThrottle.heap s) x = Some c) l cs;
  r_nodup : NoDup cs;
  r_locos : ∀ x t, WiThrottle.WiThrottle.heap s !! x = Some t → length (myLocos t) = MAX_MY_LOCO;
}.

Lemma get_loop_spec c s : ∀ l cs p fuel, chain (WiThrottle.WiThrottle.heap s) p l → (length l < fuel)%nat →
  Forall2 (λ x c, client (WiThrottle.WiThrottle.heap s) x = Some c) l cs →
  ∃ r, get_loop fuel c p s = Some (r, s) ∧
    match r with
    | Some x => ∃ l1 l2 c1 c2, l = l1 ++ x :: l2 ∧ cs = c1 ++ c :: c2 ∧ length l1 = length c1 ∧ c ∉ c1
    | None => c ∉ cs
    end.
Proof.
  induction l as [|x l IH]; intros cs p fuel Hch Hf Hcs; (destruct fuel as [|fuel]; [simpl in Hf; lia|]).
  - simpl in Hch. subst p. apply Forall2_nil_inv_l in Hcs as ->. exists None. split; [done|]. apply not_elem_of_nil.
  - destruct Hch as [-> (t & Ht & Hch)]. apply Forall2_cons_inv_l in Hcs as (d & ds & Hd & Hcs & ->).
    unfold client in Hd. rewrite Ht in Hd. simplify_eq/=. unfold mthen at 1, deref. rewrite Ht. cbn [mbind option_bind].
    destruct (Z.eqb_spec (clientid t) c) as [<-|Hne].
    + exists (Some x). split; [done|]. exists [], l, [], ds. split_and!; try done. apply not_elem_of_nil.
    + destruct (IH ds (nextThrottle t) fuel Hch) as (r & Hr & Hspec); [lia|done|]. exists r. split; [done|].
      destruct r as [y|].
      * destruct Hspec as (l1 & l2 & c1 & c2 & -> & -> & Hl & Hn). exists (x :: l1), l2, (clientid t :: c1), c2. split_and!; simpl; try done; [lia|].
        apply not_elem_of_cons. by split.
      * apply not_elem_of_cons. by split.
Qed.
Lemma find_throttle_spec c l cs s : Rep l cs s → ∃ r, find_throttle c s = Some (r, s) ∧
    match r with
    | Some x => ∃ l1 l2 c1 c2, l = l1 ++ x :: l2 ∧ cs = c1 ++ c :: c2 ∧ length l1 = length c1 ∧ c ∉ c1
    | None => c ∉ cs
    end.
Proof.
  intros [Hch Hdom Hcs Hnd Hlo]. unfold find_throttle, mthen, fuel_of, mget. cbn [mbind option_bind].
  eapply get_loop_spec; [done| |done]. pose proof (chain_length _ _ _ Hch). lia.
Qed.

Lemma clients_ext h h' l cs : (∀ x, x ∈ l → client h' x = client h x) →
  Forall2 (λ x c, client h x = Some c) l cs → Forall2 (λ x c, client h' x = Some c) l cs.
Proof.
  intros Hext H. induction H as [|x c l cs Hx H IH]; constructor; [rewrite Hext; [done|left]|]. apply IH. intros y Hy. apply Hext. by right.
Qed.

Lemma construct_spec fl c l cs s : Rep l cs s → c ∉ cs → ∃ x s', construct fl c s = Some (x, s') ∧ Rep (x :: l) (c :: cs) s' ∧ station s' = station s.
Proof.
  intros [Hch Hdom Hcs Hnd Hlo] Hc. unfold construct. set (x := fresh (dom (WiThrottle.WiThrottle.heap s))).
  assert (x ∉ l) as Hx. { rewrite <-Hdom. rewrite <-elem_of_dom. apply is_fresh. }
  eexists _, _. split; [done|]. split; [|done]. constructor; simpl.
  - split; [done|]. eexists. split; [by rewrite lookup_insert_eq|]. simpl. by apply chain_insert_ne.
  - intros y. rewrite lookup_insert_is_Some, elem_of_cons, Hdom. destruct (decide (y = x)) as [->|]; naive_solver.
  - constructor; [unfold client; by rewrite lookup_insert_eq|]. eapply clients_ext; [|exact Hcs]. intros y Hy. unfold client.
    rewrite lookup_insert_ne; [done|]. set_solver.
  - by constructor.
  - intros y t [[<- <-]|[_ Hy]]%lookup_insert_Some; [done|by eapply Hlo].
Qed.

Lemma unlink_loop_spec this t2 l2 : ∀ l1 s p fuel, chain (WiThrottle.WiThrottle.heap s) p (l1 ++ this :: l2) → l1 ≠ [] → (length l1 < fuel)%nat →
  WiThrottle.WiThrottle.heap s !! this = Some t2 →
  ∃ l0 y ty, l1 = l0 ++ [y] ∧ WiThrottle.WiThrottle.heap s !! y = Some ty ∧
    unlink_loop fuel this (nextThrottle t2) p s = Some (tt, with_heap (<[y := with_nextThrottle (nextThrottle t2) ty]> (WiThrottle.WiThrottle.heap s)) s).
Proof.
  induction l1 as [|x l1 IH]; intros s p fuel Hch Hne Hf Ht; [done|]. destruct fuel as [|fuel]; [simpl in Hf; lia|].
  destruct Hch as [-> (t & Hx & Hch)]. cbn [unlink_loop]. unfold mthen at 1, deref. rewrite Hx. cbn [mbind option_bind].
  destruct l1 as [|z l1].
  - destruct Hch as [Hn _]. simpl in Hn. rewrite bool_decide_true by done. exists [], x, t. split; [done|]. split; [done|].
    unfold update. by rewrite Hx.
  - rewrite bool_decide_false.
    + destruct (IH s (nextThrottle t) fuel Hch) as (l0 & y & ty & El & Hy & Hr); [done|simpl in *; lia|done|].
      exists (x :: l0), y, ty. split; [simpl; by f_equal|]. by split.
    + intros E. pose proof Hch as Hc2. destruct Hch as [Hz _]. simpl in Hz. rewrite Hz in E. simplify_eq.
      apply chain_NoDup in Hc2. simpl in Hc2. apply NoDup_cons in Hc2 as [Hnot _]. set_solver.
Qed.

Lemma Forall2_remove {A B} (P : A → B → Prop) l1 l2 k1 k2 x y : length l1 = length k1 → Forall2 P (l1 ++ x :: l2) (k1 ++ y :: k2) → Forall2 P (l1 ++ l2) (k1 ++ k2).
Proof.
  intros Hl H. apply Forall2_app_inv in H as [H1 H2]; [|done]. apply Forall2_cons in H2 as [_ H2]. by apply Forall2_app.
Qed.

Lemma delete_spec x l1 l2 c c1 c2 s : length l1 = length c1 → Rep (l1 ++ x :: l2) (c1 ++ c :: c2) s →
  ∃ s', delete_ x s = Some (tt, s') ∧ Rep (l1 ++ l2) (c1 ++ c2) s' ∧ WiThrottle.WiThrottle.heap s' !! x = None ∧ station s' = station s.
Proof.
  intros Hlen [Hch Hdom Hcs Hnd Hlo].
  destruct (proj2 (Hdom x) ltac:(set_solver)) as [t Ht].
  pose proof (chain_NoDup _ _ _ Hch) as Hnodup.
  assert (x ∉ l1 ++ l2) as Hx. { rewrite NoDup_app in Hnodup. destruct Hnodup as (_ & H2 & H3). apply NoDup_cons in H3 as [H3 _]. set_solver. }
  unfold delete_. unfold mthen at 1, deref. rewrite Ht. cbn [mbind option_bind]. unfold mthen at 1, fuel_of, mget at 1. cbn [mbind option_bind].
  unfold mthen at 1, mget at 1. cbn [mbind option_bind]. unfold mthen at 1.
  assert (∃ s1, ((if bool_decide (firstThrottle s = Some x) then mmod (with_firstThrottle (nextThrottle t))
                  else unlink_loop (S (size (WiThrottle.WiThrottle.heap s))) x (nextThrottle t) (firstThrottle s)) s) = Some (tt, s1) ∧
    chain (WiThrottle.WiThrottle.heap s1) (firstThrottle s1) (l1 ++ l2) ∧ (∀ y, (λ t, (clientid t, myLocos t)) <$> WiThrottle.WiThrottle.heap s1 !! y = (λ t, (clientid t, myLocos t)) <$> WiThrottle.WiThrottle.heap s !! y) ∧ station s1 = station s) as (s1 & -> & Hch1 & Hext2 & Hst).
  { destruct l1 as [|z l1].
    - destruct Hch as [Hp (t' & Ht' & Hch)]. rewrite bool_decide_true by done. simplify_eq. eexists. split; [done|]. by split_and!.
    - rewrite bool_decide_false.
      2:{ destruct Hch as [Hp _]. rewrite Hp. intros [= ->]. set_solver. }
      destruct (unlink_loop_spec x t l2 (z :: l1) s (firstThrottle s) (S (size (WiThrottle.WiThrottle.heap s)))) as (l0 & y & ty & El & Hy & ->); try done.
      { pose proof (chain_length _ _ _ Hch) as Hsz. rewrite length_app in Hsz. simpl in *. lia. }
      eexists. split; [done|]. cbn [WiThrottle.WiThrottle.heap with_heap firstThrottle station]. rewrite El in *. split; [|split; [intros w|done]].
      + rewrite <-app_assoc in *. cbn [app] in *. exact (chain_unlink (WiThrottle.WiThrottle.heap s) (firstThrottle s) l0 y ty x t l2 Hy Ht Hch).
      + destruct (decide (w = y)) as [->|]; [by rewrite lookup_insert_eq, Hy|by rewrite lookup_insert_ne]. }
  assert (∀ y, client (WiThrottle.WiThrottle.heap s1) y = client (WiThrottle.WiThrottle.heap s) y) as Hext.
  { intros y. specialize (Hext2 y). unfold client. by destruct (_ !! y), (_ !! y); simplify_eq/=; f_equal. }
  unfold mmod. cbn [mbind option_bind]. eexists. split; [done|]. split; [|split; [apply lookup_delete_eq|done]]. constructor; simpl.
  - by apply chain_delete_ne.
  - intros y. rewrite lookup_delete_is_Some. rewrite <-(fmap_is_Some clientid). change (clientid <$> _) with (client (WiThrottle.WiThrottle.heap s1) y). rewrite Hext.
    unfold client. rewrite fmap_is_Some, Hdom. set_solver.
  - eapply clients_ext; [|by eapply Forall2_remove]. intros y Hy. unfold client at 1. rewrite lookup_delete_ne by set_solver. apply Hext.
  - rewrite NoDup_app in *. destruct Hnd as (? & H2 & H3). apply NoDup_cons in H3 as [? ?]. split_and!; try done. set_solver.
  - intros y t' [_ Hy]%lookup_delete_Some. specialize (Hext2 y). rewrite Hy in Hext2.
    destruct (WiThrottle.WiThrottle.heap s !! y) as [u|] eqn:Eu; simplify_eq/=. rewrite H0. by eapply Hlo.
Qed.

(** Neither the station nor a link of the chain has changed. *)
Definition Same (s s' : WiThrottle.WiThrottle.St) : Prop :=
  station s' = station s ∧ ∀ y, nextThrottle <$> WiThrottle.WiThrottle.heap s' !! y = nextThrottle <$> WiThrottle.WiThrottle.heap s !! y.
Lemma same_frame_trans s1 s2 s3 : Same s1 s2 → Same s2 s3 → Same s1 s3.
Proof. intros [H1 N1] [H2 N2]. split; [congruence|]. intros y. by rewrite N2, N1. Qed.

Lemma update_throttle_rep l cs x f s : Rep l cs s → x ∈ l →
  (∀ t, nextThrottle (f t) = nextThrottle t ∧ clientid (f t) = clientid t ∧ length (myLocos (f t)) = length (myLocos t)) →
  wp (update x f) (λ _ s', Rep l cs s' ∧ Same s s') s.
Proof.
  intros [Hch Hdom Hcs Hnd Hlo] Hx Hf. destruct (proj2 (Hdom x) Hx) as [t Ht]. unfold wp, update. rewrite Ht. simpl.
  destruct (Hf t) as (Hn & Hc & Hl). split.
  2:{ split; [done|]. intros y. simpl. destruct (decide (y = x)) as [->|]; [rewrite lookup_insert_eq, Ht; simpl; by rewrite Hn|by rewrite lookup_insert_ne]. }
  constructor; simpl.
  - by apply (chain_insert_nx _ _ _ x t).
  - intros y. rewrite lookup_insert_is_Some, Hdom. destruct (decide (y = x)) as [->|]; naive_solver.
  - eapply clients_ext; [|exact Hcs]. intros y Hy. unfold client. destruct (decide (y = x)) as [->|]; [by rewrite lookup_insert_eq, Ht; simpl; rewrite Hc|by rewrite lookup_insert_ne].
  - done.
  - intros y u [[<- <-]|[_ Hy]]%lookup_insert_Some; [by rewrite Hl; apply (Hlo x)|by apply (Hlo y)].
Qed.
Lemma my_loco_rep l cs x k (Q : MYLOCO → WiThrottle.WiThrottle.St → Prop) s : Rep l cs s → x ∈ l → (k < MAX_MY_LOCO)%nat → (∀ m, Q m s) → wp (my_loco x k) Q s.
Proof.
  intros [Hch Hdom Hcs Hnd Hlo] Hx Hk HQ. destruct (proj2 (Hdom x) Hx) as [t Ht]. unfold my_loco. apply wp_bind. unfold deref, wp at 1. rewrite Ht. simpl.
  destruct (lookup_lt_is_Some_2 (myLocos t) k) as [m Hm]; [by rewrite (Hlo x t Ht)|]. unfold wp, mlift. rewrite Hm. apply HQ.
Qed.
Lemma set_loco_rep l cs x k f s : Rep l cs s → x ∈ l → wp (set_loco x k f) (λ _ s', Rep l cs s' ∧ Same s s') s.
Proof. intros Hr Hx. apply update_throttle_rep; [done|done|]. intros t. by rewrite <-(length_alter f (myLocos t) k). Qed.

Lemma mark2_rep l cs x c s : Rep l cs s → x ∈ l → wp (markForBroadcast2 x c) (λ _ s', Rep l cs s' ∧ Same s s') s.
Proof.
  intros Hr Hx. apply (wp_mfor (λ s', Rep l cs s' ∧ Same s s')); [|split; [done|by split]]. intros k s1 Hk%elem_of_seq [H1 Hs1]. apply wp_bind.
  eapply my_loco_rep; [done|done|lia|]. intros m. apply wp_when; [intros _|done].
  eapply wp_mono; [by eapply set_loco_rep|]. intros [] s2 [? ?]. split; [done|by eapply same_frame_trans].
Qed.
Lemma mark_loop_rep c l cs : ∀ k p s fuel, Rep l cs s → chain (WiThrottle.WiThrottle.heap s) p k → k ⊆ l → (length k < fuel)%nat →
  wp (mark_loop fuel c p) (λ _ s', Rep l cs s' ∧ Same s s') s.
Proof.
  induction k as [|x k IH]; intros p s fuel Hr Hch Hsub Hf; (destruct fuel as [|fuel]; [simpl in Hf; lia|]).
  { simpl in Hch. subst p. by apply wp_ret. }
  cbn [length] in Hf. destruct Hch as [-> (t & Ht & Hch)]. cbn [mark_loop]. apply wp_bind.
  eapply wp_mono; [apply (mark2_rep l cs); [done|set_solver]|]. intros [] s1 [H1 S1]. cbn beta.
  pose proof (proj2 S1 x) as Hn. rewrite Ht in Hn. destruct (WiThrottle.WiThrottle.heap s1 !! x) as [t1|] eqn:E1; [|done]. simpl in Hn.
  assert (nextThrottle t1 = nextThrottle t) as En by congruence.
  apply wp_bind. unfold deref, wp at 1. rewrite E1. cbn [mbind option_bind]. rewrite En.
  eapply wp_mono; [apply (IH (nextThrottle t)); [done| |set_solver|lia]|].
  - eapply chain_ext; [|exact Hch]. intros y _. symmetry. apply S1.
  - intros [] s2 [H2 S2]. split; [done|by eapply same_frame_trans].
Qed.
Lemma mark_rep c l cs s : Rep l cs s → wp (markForBroadcast c) (λ _ s', Rep l cs s' ∧ Same s s') s.
Proof.
  intros Hr. unfold markForBroadcast. apply wp_bind, wp_get, wp_bind, wp_get. pose proof (r_chain _ _ _ Hr) as Hch.
  eapply (mark_loop_rep c l cs l); [done|exact Hch|done|]. pose proof (chain_length _ _ _ Hch). lia.
Qed.

Lemma filter_absent (c : Z) (cs : list Z) : c ∉ cs → filter (λ d, d ≠ c) cs = cs.
Proof.
  induction cs as [|d cs IH]; [done|]. intros [Hd Hcs]%not_elem_of_cons. rewrite filter_cons_True by congruence. by rewrite IH.
Qed.

(** *** Whole runs, on the set of clients *)

Inductive op := Get (clientId : Z) | Drop (clientId : Z) | Changed (cab : Z).
Definition step (fl : MYLOCO) (o : op) : M WiThrottle.WiThrottle.St (option Z) :=
  match o with
  | Get c => let! x := getThrottle fl c in let! t := deref x in mreturn (Some (clientid t))
  | Drop c => forget c ;;; mreturn None
  | Changed cab => markForBroadcast cab ;;; mreturn None
  end.
Definition spec_step (o : op) (cs : list Z) : list Z :=
  match o with
  | Get c => if decide (c ∈ cs) then cs else c :: cs
  | Drop c => filter (λ d, d ≠ c) cs
  | Changed _ => cs
  end.
Definition spec_result (o : op) : option Z := match o with Get c => Some c | _ => None end.
Fixpoint run (fl : MYLOCO) (ops : list op) : M WiThrottle.WiThrottle.St (list (option Z)) :=
  match ops with [] => mreturn [] | o :: ops => let! r := step fl o in let! rs := run fl ops in mreturn (r :: rs) end.
Definition clients_of (s : WiThrottle.WiThrottle.St) : option (list Z) :=
  l ← walk (S (size (WiThrottle.WiThrottle.heap s))) (WiThrottle.WiThrottle.heap s) (firstThrottle s); mapM (client (WiThrottle.WiThrottle.heap s)) l.

Lemma step_rep fl o l cs s : Rep l cs s → wp (step fl o) (λ r s', r = spec_result o ∧ ∃ l', Rep l' (spec_step o cs) s') s.
Proof.
  intros Hr. destruct o as [c|c|c]; simpl; apply wp_bind.
  - unfold getThrottle. apply wp_bind. destruct (find_throttle_spec c l cs s Hr) as (r & Hf & Hspec). eapply wp_eq; [exact Hf|]. destruct r as [x|].
    + destruct Hspec as (l1 & l2 & c1 & c2 & -> & -> & Hlen & Hn). apply wp_ret, wp_bind.
      pose proof (r_clients _ _ _ Hr) as Hcs. apply Forall2_app_inv in Hcs as [_ Hcs]; [|done]. apply Forall2_cons in Hcs as [Hc _].
      unfold client in Hc. unfold wp, deref. destruct (WiThrottle.WiThrottle.heap s !! x) as [t|]; simplify_eq/=. split; [done|].
      rewrite decide_True by set_solver. by eexists.
    + destruct (construct_spec fl c l cs s Hr Hspec) as (x & s' & E & H' & _). eapply wp_eq; [exact E|]. apply wp_bind.
      pose proof (r_clients _ _ _ H') as Hcs. apply Forall2_cons in Hcs as [Hc _].
      unfold client in Hc. unfold wp, deref. destruct (WiThrottle.WiThrottle.heap s' !! x) as [t|]; simplify_eq/=. split; [done|].
      rewrite decide_False by done. by eexists.
  - unfold forget. apply wp_bind. destruct (find_throttle_spec c l cs s Hr) as (r & Hf & Hspec). eapply wp_eq; [exact Hf|]. destruct r as [x|].
    + destruct Hspec as (l1 & l2 & c1 & c2 & -> & -> & Hlen & Hn). destruct (delete_spec x l1 l2 c c1 c2 s Hlen Hr) as (s' & E & H' & _).
      eapply wp_eq; [exact E|]. apply wp_ret. split; [done|]. exists (l1 ++ l2). pose proof (r_nodup _ _ _ Hr) as Hnd.
      rewrite NoDup_app in Hnd. destruct Hnd as (_ & _ & [Hn2 _]%NoDup_cons).
      rewrite filter_app, filter_cons_False by (intros E2; by apply E2).
      by rewrite !filter_absent.
    + apply wp_ret, wp_ret. split; [done|]. exists l. by rewrite filter_absent.
  - eapply wp_mono; [by eapply mark_rep|]. intros [] s' [H' _]. apply wp_ret. split; [done|]. by eexists.
Qed.

(** C37. The objects of the clients.  Any sequence of getThrottle, forget and
    markForBroadcast succeeds: getThrottle gives the object of the client asked for, making one
    only if there is none, forget removes that of its client and no other; so the chain
    holds exactly one object for each client that is there, newest first. *)
Theorem throttles_refine (fl : MYLOCO) (ops : list op) (s : WiThrottle.WiThrottle.St) :
  Rep [] [] s →
  ∃ s', run fl ops s = Some (spec_result <$> ops, s') ∧ clients_of s' = Some (foldl (λ cs o, spec_step o cs) [] ops).
Proof.
  intros Hr. enough (∀ l cs s, Rep l cs s → wp (run fl ops) (λ r s', r = spec_result <$> ops ∧ ∃ l', Rep l' (foldl (λ cs o, spec_step o cs) cs ops) s') s) as H.
  { destruct (wp_run _ _ _ (H _ _ _ Hr)) as (r & s' & E & -> & l' & H'). exists s'. split; [done|]. unfold clients_of.
    rewrite (chain_walk _ _ _ _ (r_chain _ _ _ H')) by (pose proof (chain_length _ _ _ (r_chain _ _ _ H')); lia). cbn [mbind option_bind].
    apply mapM_Some_2. apply H'. }
  clear s Hr. induction ops as [|o ops IH]; intros l cs s Hr; [apply wp_ret; split; [done|by exists l]|]. cbn [run]. apply wp_bind.
  eapply wp_mono; [by eapply step_rep|]. intros r s1 [-> [l1 H1]]. cbn beta. apply wp_bind. eapply wp_mono; [by eapply IH|].
  intros rs s2 [-> [l2 H2]]. apply wp_ret. split; [done|]. by exists l2.
Qed.

(** ** What the loop tells a client *)

Section loop.
Context `{!Config} `{!MotorDriver.MotorDriver.Board} `{!Layout.Layout.Machine} `{!Devices} `{!RingStream.Flash} (Hmax : MAX_LOCOS < 65536).
Variable i : Inputs.

(** What the DCC API knows of a cab. *)
Definition known {A} (default : A) (m : M DCC.DCC.St A) (d : DCC.DCC.St) : A := match m d with Some (a, _) => a | None => default end.
Definition speed_of (d : DCC.DCC.St) (c : Z) : Z := known 0 (DCC.DCC.getThrottleSpeed c) d.
Definition forward_of (d : DCC.DCC.St) (c : Z) : bool := known false (DCC.DCC.getThrottleDirection c) d.
Definition functions_of (d : DCC.DCC.St) (c : Z) : Z := known 0 (DCC.DCC.getFunctionMap c) d.

Lemma look_bind {A B} (m : M DCC.DCC.St A) (k : A → M DCC.DCC.St B) d : (∃ a, m d = Some (a, d)) → (∀ a, m d = Some (a, d) → ∃ b, k a d = Some (b, d)) → ∃ b, mthen m k d = Some (b, d).
Proof. intros [a Ha] Hk. unfold mthen. rewrite Ha. simpl. by apply Hk. Qed.
Lemma speed_byte_look c d : DCCSafe.DCCSafe.inv d → ∃ b, DCC.DCC.getThrottleSpeedByte c d = Some (b, d).
Proof using All.
  intros I. pose proof (DCCSafe.DCCSafe.slot_of_wp Hmax c false d (λ p s', s' = d ∧ match p with Some x => is_Some (LocoSlot.heap (DCC.DCC.slots d) !! x) | None => True end) I) as Hs.
  destruct (wp_run _ _ _ (Hs ltac:(intros p s' _ E Hp; rewrite (E eq_refl) in *; by split))) as (p & s' & E & -> & Hp).
  unfold DCC.DCC.getThrottleSpeedByte, mthen at 1. rewrite E. cbn [mbind option_bind]. destruct p as [x|]; [|by eexists].
  destruct Hp as [t Ht]. unfold mthen, DCC.DCC.deref, LocoSlot.load. rewrite Ht. by eexists.
Qed.
Lemma look_known {A} (m : M DCC.DCC.St A) d0 d : (∃ a, m d = Some (a, d)) → m d = Some (known d0 m d, d).
Proof. intros [a Ha]. unfold known. by rewrite Ha. Qed.
Lemma speed_look c d : DCCSafe.DCCSafe.inv d → DCC.DCC.getThrottleSpeed c d = Some (speed_of d c, d).
Proof using All. intros I. apply look_known. apply look_bind; [by apply speed_byte_look|by eexists]. Qed.
Lemma forward_look c d : DCCSafe.DCCSafe.inv d → DCC.DCC.getThrottleDirection c d = Some (forward_of d c, d).
Proof using All. intros I. apply look_known. apply look_bind; [by apply speed_byte_look|by eexists]. Qed.
Lemma functions_look c d : DCCSafe.DCCSafe.inv d → DCC.DCC.getFunctionMap c d = Some (functions_of d c, d).
Proof using All.
  intros I. apply look_known. unfold DCC.DCC.getFunctionMap. destruct (c <=? 0); [by eexists|].
  pose proof (DCCSafe.DCCSafe.slot_of_wp Hmax c false d (λ p s', s' = d ∧ match p with Some x => is_Some (LocoSlot.heap (DCC.DCC.slots d) !! x) | None => True end) I) as Hs.
  destruct (wp_run _ _ _ (Hs ltac:(intros p s' _ E Hp; rewrite (E eq_refl) in *; by split))) as (p & s' & E & -> & Hp).
  unfold mthen at 1. rewrite E. cbn [mbind option_bind]. destruct p as [x|]; [|by eexists].
  destruct Hp as [t Ht]. unfold mthen, DCC.DCC.deref, LocoSlot.load. rewrite Ht. by eexists.
Qed.
Lemma call_look {A} (m : M DCC.DCC.St A) a s : m (dcc (station s)) = Some (a, dcc (station s)) → dcc_call m s = Some (a, s).
Proof.
  intros Hm. unfold dcc_call, on_station, on_station_, on_dcc, Station.Station.run. rewrite Hm. simpl. rewrite drop_all. simpl. rewrite drop_all. simpl. by destruct s as [[] ? ? ? ? ? ? ?].
Qed.

(** *** The lines for a loco *)

Definition told_text (format : string) (args : list arg) : list Z := default [] (StringFormatter.text format args).
Definition speed_line (m : MYLOCO) (v : Z) : list Z :=
  told_text (line "M%cA%c%d<;>V%d") [AInt (throttle m); AInt (LorS (cab m)); AInt (cab m); AInt v].
Definition direction_line (m : MYLOCO) (v : bool) : list Z :=
  told_text (line "M%cA%c%d<;>R%d") [AInt (throttle m); AInt (LorS (cab m)); AInt (cab m); AInt (b2z v)].
Definition function_line (m : MYLOCO) (f : Z * bool) : list Z :=
  told_text (line "M%cA%c%d<;>F%c%d") [AInt (throttle m); AInt (LorS (cab m)); AInt (cab m); if f.2 then char "1" else char "0"; AInt f.1].

(** The functions of two maps that differ from a number on, with their value in the first. *)
Definition changed_from (fn : Z) (now before : Z) : list (Z * bool) :=
  omap (λ k, if Bool.eqb (Z.testbit now k) (Z.testbit before k) then None else Some (k, Z.testbit now k)) (seqZ fn (32 - fn)).
Definition changed (now before : Z) : list (Z * bool) := changed_from 0 now before.

Definition pending (m : MYLOCO) : bool := tru (throttle m) && broadcastPending m.
Definition loco_lines (d : DCC.DCC.St) (m : MYLOCO) : list (list Z) :=
  speed_line m (DCCToWiTSpeed (i8 (speed_of d (cab m)))) :: direction_line m (forward_of d (cab m)) ::
  (function_line m <$> changed (functions_of d (cab m)) (functionMap m)).
Definition told_loco (d : DCC.DCC.St) (m : MYLOCO) : MYLOCO :=
  if pending m then with_functionMap (functions_of d (cab m)) (with_broadcastPending false m) else m.
Definition lines_of (d : DCC.DCC.St) (l : list MYLOCO) : list (list Z) := concat (loco_lines d <$> filter (λ m, pending m = true) l).
(** What a client is sent: nothing, or one message. *)
Definition client_events (d : DCC.DCC.St) (t : WiThrottle) : list ev :=
  if existsb pending (myLocos t) then Mark (u8 (clientid t)) :: (Print <$> lines_of d (myLocos t)) ++ [Commit] else [].
Definition told (d : DCC.DCC.St) (t : WiThrottle) : WiThrottle := with_myLocos (told_loco d <$> myLocos t) t.

Lemma say_told format args s : is_Some (StringFormatter.text format args) →
  say format args s = Some (tt, WiThrottle.WiThrottle.with_out (WiThrottle.WiThrottle.out s ++ [Print (told_text format args)]) s).
Proof. intros [t Ht]. unfold say, told_text, mthen, mlift. rewrite Ht. done. Qed.

Lemma low_bit a fn : 0 <= fn → ((a >>' fn) .& 1) = b2z (Z.testbit a fn).
Proof. intros Hfn. change 1 with (Z.ones 1) at 1. rewrite Z.land_ones, <-Z.bit0_mod, Z.shiftr_spec by lia. done. Qed.
Lemma changed_none fn a b : a >>' fn = b >>' fn → 0 <= fn → changed_from fn a b = [].
Proof.
  intros E Hfn. unfold changed_from. apply elem_of_nil_inv. intros x Hx. apply list_elem_of_omap in Hx as (k & Hk%elem_of_seqZ & Hx).
  assert (Z.testbit a k = Z.testbit b k) as Ek; [|rewrite Ek, Bool.eqb_reflx in Hx; done].
  rewrite <-(Z.sub_add fn k), <-(Z.shiftr_spec a), <-(Z.shiftr_spec b) by lia. by rewrite E.
Qed.
Lemma b2z_eqb x y : (b2z x =? b2z y) = Bool.eqb x y.
Proof. by destruct x, y. Qed.
Lemma functions_loop_S n t l c a b fn : functions_loop (S n) t l c a b fn =
  if a =? b then mreturn tt else
  ((when negb (a .& 1 =? b .& 1) do
      say (line "M%cA%c%d<;>F%c%d") [AInt t; AInt l; AInt c; if tru (a .& 1) then char "1" else char "0"; AInt fn]) ;;;
   functions_loop n t l c (a >>' 1) (b >>' 1) (fn + 1)).
Proof. done. Qed.
Lemma functions_loop_spec m a b : is_u32 a → is_u32 b → ∀ n fn s, 0 <= fn → fn + Z.of_nat n = 32 →
  functions_loop (S n) (throttle m) (LorS (cab m)) (cab m) (a >>' fn) (b >>' fn) fn s =
    Some (tt, WiThrottle.WiThrottle.with_out (WiThrottle.WiThrottle.out s ++ (Print <$> (function_line m <$> changed_from fn a b))) s).
Proof.
  intros Ha Hb. induction n as [|n IH]; intros fn s Hfn Hn; rewrite functions_loop_S.
  - assert (fn = 32) as -> by lia. rewrite !Z.shiftr_div_pow2, !Z.div_small by (unfold is_u32 in *; lia). simpl.
    unfold changed_from. simpl. rewrite app_nil_r. by destruct s.
  - destruct (Z.eqb_spec (a >>' fn) (b >>' fn)) as [E|Hne].
    { rewrite changed_none by done. rewrite app_nil_r. by destruct s. }
    rewrite !low_bit, b2z_eqb by done. unfold mthen at 1.
    assert (changed_from fn a b = (if Bool.eqb (Z.testbit a fn) (Z.testbit b fn) then [] else [(fn, Z.testbit a fn)]) ++ changed_from (fn + 1) a b) as ->.
    { unfold changed_from. rewrite seqZ_cons by lia. cbn [omap list_omap]. replace (Z.pred (32 - fn)) with (32 - (fn + 1)) by lia. unfold Z.succ. by destruct (Bool.eqb _ _). }
    rewrite !Z.shiftr_shiftr by lia.
    destruct (Z.testbit a fn) eqn:Ea, (Z.testbit b fn) eqn:Eb; cbn [Bool.eqb negb]; cbn iota; try (apply (IH (fn + 1)); lia);
      (rewrite say_told by (eexists; reflexivity); cbn [mbind option_bind]; rewrite IH by lia; simpl; by rewrite <-app_assoc).
Qed.

(** The maps are 32 bits wide. *)
Definition maps_ok (d : DCC.DCC.St) (m : MYLOCO) : Prop := is_u32 (functionMap m) ∧ is_u32 (functions_of d (cab m)).

Definition put_throttle (x : ptr) (t : WiThrottle) (s : WiThrottle.WiThrottle.St) : WiThrottle.WiThrottle.St :=
  with_heap (<[x := t]> (WiThrottle.WiThrottle.heap s)) s.
Definition log (l : list ev) (s : WiThrottle.WiThrottle.St) : WiThrottle.WiThrottle.St :=
  WiThrottle.WiThrottle.with_out (WiThrottle.WiThrottle.out s ++ l) s.
Lemma log_app l k s : log l (log k s) = log (k ++ l) s.
Proof. unfold log. simpl. by rewrite <-app_assoc. Qed.

Lemma put_log x t l s : put_throttle x t (log l s) = log l (put_throttle x t s).
Proof. done. Qed.
Lemma put_put x t u s : put_throttle x t (put_throttle x u s) = put_throttle x t s.
Proof. unfold put_throttle. simpl. by rewrite insert_insert_eq. Qed.
Lemma my_loco_eq x t k m s : WiThrottle.WiThrottle.heap s !! x = Some t → myLocos t !! k = Some m → my_loco x k s = Some (m, s).
Proof. intros Ht Hm. unfold my_loco, mthen, deref. rewrite Ht. cbn [mbind option_bind]. unfold mlift. by rewrite Hm. Qed.
Lemma set_loco_eq x t l1 m l2 f s : WiThrottle.WiThrottle.heap s !! x = Some t → myLocos t = l1 ++ m :: l2 →
  set_loco x (length l1) f s = Some (tt, put_throttle x (with_myLocos (l1 ++ f m :: l2) t) s).
Proof. intros Ht Hm. unfold set_loco, update. rewrite Ht. simpl. by rewrite Hm, alter_app_r_alt, Nat.sub_diag. Qed.

Lemma mthen_eq {S A B} (m : M S A) (k : A → M S B) s a s' r : m s = Some (a, s') → k a s' = r → mthen m k s = r.
Proof. intros Hm. unfold mthen. by rewrite Hm. Qed.
Lemma say_log format args l s : StringFormatter.text format args = Some l → say format args s = Some (tt, log [Print l] s).
Proof. intros Ht. unfold say, mthen, mlift. by rewrite Ht. Qed.
Lemma speed_text m v : StringFormatter.text (line "M%cA%c%d<;>V%d") [AInt (throttle m); AInt (LorS (cab m)); AInt (cab m); AInt v] = Some (speed_line m v).
Proof. reflexivity. Qed.
Lemma direction_text m v : StringFormatter.text (line "M%cA%c%d<;>R%d") [AInt (throttle m); AInt (LorS (cab m)); AInt (cab m); AInt (b2z v)] = Some (direction_line m v).
Proof. reflexivity. Qed.
Lemma functions_told m a b s : is_u32 a → is_u32 b →
  functions_loop 33 (throttle m) (LorS (cab m)) (cab m) a b 0 s = Some (tt, log (Print <$> (function_line m <$> changed a b)) s).
Proof. intros Ha Hb. pose proof (functions_loop_spec m a b Ha Hb 32 0 s) as Hf. rewrite !Z.shiftr_0_r in Hf. by apply Hf. Qed.
Lemma tell_loco_spec d x t l1 m l2 b s : DCCSafe.DCCSafe.inv d → dcc (station s) = d → WiThrottle.WiThrottle.heap s !! x = Some t →
  myLocos t = l1 ++ m :: l2 → maps_ok d m → 
  tell_loco x (length l1) b s =
    Some (b || pending m,
      if pending m then
        put_throttle x (with_myLocos (l1 ++ told_loco d m :: l2) t)
          (log ((if b then [] else [Mark (u8 (clientid t))]) ++ (Print <$> loco_lines d m)) (if b then s else with_marked (u8 (clientid t)) s))
      else s).
Proof using All.
  intros I Hd Ht Hl [Hm1 Hm2]. unfold tell_loco. eapply mthen_eq; [apply (my_loco_eq x t _ m); [done|by rewrite Hl, list_lookup_middle]|].
  fold (pending m). unfold told_loco. destruct (pending m) eqn:Ep; cbn [negb]; [|by rewrite orb_false_r]. rewrite orb_true_r.
  eapply mthen_eq; [unfold deref; rewrite Ht; reflexivity|].
  eapply (mthen_eq _ _ _ tt (log (if b then [] else [Mark (u8 (clientid t))]) (if b then s else with_marked (u8 (clientid t)) s))).
  { destruct b; [|done]. unfold log. simpl. rewrite app_nil_r. by destruct s. }
  eapply mthen_eq; [apply (set_loco_eq x t l1 m l2); [by destruct b|done]|]. cbv zeta.
  eapply mthen_eq; [apply (call_look _ (speed_of d (cab m))); rewrite <-Hd in *; destruct b; by apply speed_look|].
  eapply mthen_eq; [apply say_log, speed_text|].
  eapply mthen_eq; [apply (call_look _ (forward_of d (cab m))); rewrite <-Hd in *; destruct b; by apply forward_look|].
  eapply mthen_eq; [apply say_log, direction_text|].
  eapply mthen_eq; [apply (call_look _ (functions_of d (cab m))); rewrite <-Hd in *; destruct b; by apply functions_look|].
  eapply mthen_eq; [apply (set_loco_eq x (with_myLocos (l1 ++ with_broadcastPending false m :: l2) t) l1 (with_broadcastPending false m) l2); [|done]|].
  { simpl. destruct b; simpl; by rewrite lookup_insert_eq. }
  eapply mthen_eq; [apply functions_told; done|]. unfold mreturn. do 2 f_equal.
  rewrite !put_log, put_put, !log_app. reflexivity.
Qed.

Lemma lines_cons d m l : lines_of d (m :: l) = (if pending m then loco_lines d m else []) ++ lines_of d l.
Proof. unfold lines_of. rewrite filter_cons. by destruct (pending m). Qed.
Lemma with_locos_same l t : myLocos t = l → with_myLocos l t = t.
Proof. intros <-. by destruct t. Qed.
Lemma with_locos_twice l k t : with_myLocos l (with_myLocos k t) = with_myLocos l t.
Proof. done. Qed.
Lemma put_same x t s : WiThrottle.WiThrottle.heap s !! x = Some t → put_throttle x t s = s.
Proof. intros Ht. unfold put_throttle. rewrite insert_id by done. by destruct s. Qed.

Lemma tell_locos_spec d x : DCCSafe.DCCSafe.inv d → ∀ l2 l1 t b s, dcc (station s) = d → WiThrottle.WiThrottle.heap s !! x = Some t →
  myLocos t = l1 ++ l2 → Forall (maps_ok d) l2 →
  mfold (λ k b, tell_loco x k b) (seq (length l1) (length l2)) b s =
    Some (b || existsb pending l2,
      log ((if existsb pending l2 && negb b then [Mark (u8 (clientid t))] else []) ++ (Print <$> lines_of d l2))
        (put_throttle x (with_myLocos (l1 ++ (told_loco d <$> l2)) t) (if existsb pending l2 && negb b then with_marked (u8 (clientid t)) s else s))).
Proof using All.
  intros I. induction l2 as [|m l2 IH]; intros l1 t b s Hd Ht Hl Hok; cbn [length seq mfold existsb].
  { rewrite orb_false_r. simpl. rewrite app_nil_r in *. rewrite with_locos_same, put_same by done. unfold log. simpl. rewrite app_nil_r. by destruct s. }
  apply Forall_cons in Hok as [Hm Hok]. eapply mthen_eq; [by apply (tell_loco_spec d x t l1 m l2)|].
  set (s1 := if pending m then _ else s). set (t1 := with_myLocos (l1 ++ told_loco d m :: l2) t).
  assert (dcc (station s1) = d) as Hd1 by (unfold s1; destruct (pending m), b; done).
  assert (WiThrottle.WiThrottle.heap s1 !! x = Some t1) as Ht1.
  { unfold s1, t1. destruct (pending m) eqn:Ep; simpl; [by rewrite lookup_insert_eq|]. unfold told_loco. rewrite Ep. by rewrite with_locos_same. }
  pose proof (IH (l1 ++ [told_loco d m]) t1 (b || pending m) s1 Hd1 Ht1) as Hrec.
  rewrite length_app, Nat.add_comm in Hrec. cbn [length Nat.add] in Hrec. rewrite Hrec by (done || by simpl; rewrite <-app_assoc).
  rewrite orb_assoc. do 2 f_equal. unfold t1, s1. rewrite <-app_assoc, lines_cons, fmap_cons, with_locos_twice. clear.
  destruct (pending m), b; cbn [andb orb negb app]; rewrite ?andb_false_r, ?andb_true_r; cbn [app];
    try (rewrite !put_log, put_put, log_app, fmap_app; reflexivity).
  - reflexivity.
  - by destruct (existsb pending l2).
Qed.

(** What the loop does with one object whose heartbeat has not stopped. *)
Definition heard (d : DCC.DCC.St) (x : ptr) (t : WiThrottle) (s : WiThrottle.WiThrottle.St) : WiThrottle.WiThrottle.St :=
  log (client_events d t) (put_throttle x (told d t) (if existsb pending (myLocos t) then with_marked RingStream.RingStream.NO_CLIENT s else s)).
Lemma checkHeartbeat_spec d x t s : DCCSafe.DCCSafe.inv d → dcc (station s) = d → WiThrottle.WiThrottle.heap s !! x = Some t →
  length (myLocos t) = MAX_MY_LOCO → Forall (maps_ok d) (myLocos t) → timed_out i t = false →
  checkHeartbeat i x s = Some (tt, heard d x t s).
Proof using All.
  intros I Hd Ht Hlen Hok Hto. unfold checkHeartbeat. eapply mthen_eq; [unfold deref; rewrite Ht; reflexivity|]. rewrite Hto.
  pose proof (tell_locos_spec d x I (myLocos t) [] t false s Hd Ht eq_refl Hok) as Hf. rewrite Hlen in Hf.
  eapply mthen_eq; [exact Hf|]. rewrite andb_true_r. unfold heard, client_events, told. cbn [app orb].
  destruct (existsb pending (myLocos t)) eqn:E.
  - cbn iota. change (WiThrottle.WiThrottle.commit ?s) with (Some (tt, log [Commit] (with_marked RingStream.RingStream.NO_CLIENT s))).
    do 2 f_equal. change (with_marked RingStream.RingStream.NO_CLIENT (log ?l ?s)) with (log l (with_marked RingStream.RingStream.NO_CLIENT s)).
    rewrite log_app. done.
  - cbn iota. unfold mreturn. do 2 f_equal. replace (lines_of d (myLocos t)) with (@nil (list Z)); [done|].
    unfold lines_of. clear -E. induction (myLocos t) as [|m l IH]; [done|]. simpl in E. apply orb_false_iff in E as [Em E].
    rewrite filter_cons_False by (by rewrite Em). by apply IH.
Qed.

(** The objects of the chain, in its order. *)
Definition objects (s : WiThrottle.WiThrottle.St) : list WiThrottle :=
  default [] (l ← walk (S (size (WiThrottle.WiThrottle.heap s))) (WiThrottle.WiThrottle.heap s) (firstThrottle s); mapM (λ x, WiThrottle.WiThrottle.heap s !! x) l).

Lemma loop_spec d : DCCSafe.DCCSafe.inv d → ∀ l ts p s fuel, dcc (station s) = d → chain (WiThrottle.WiThrottle.heap s) p l → (length l < fuel)%nat →
  Forall2 (λ x t, WiThrottle.WiThrottle.heap s !! x = Some t) l ts →
  Forall (λ t, length (myLocos t) = MAX_MY_LOCO ∧ Forall (maps_ok d) (myLocos t) ∧ timed_out i t = false) ts →
  ∃ s', loop_loop i fuel p s = Some (tt, s') ∧ station s' = station s ∧ firstThrottle s' = firstThrottle s ∧
    WiThrottle.WiThrottle.out s' = WiThrottle.WiThrottle.out s ++ concat (client_events d <$> ts) ∧
    Forall2 (λ x t, WiThrottle.WiThrottle.heap s' !! x = Some (told d t)) l ts ∧
    (∀ x, x ∉ l → WiThrottle.WiThrottle.heap s' !! x = WiThrottle.WiThrottle.heap s !! x).
Proof using All.
  intros I. induction l as [|x l IH]; intros ts p s fuel Hd Hch Hf Hts Hok; (destruct fuel as [|fuel]; [simpl in Hf; lia|]).
  { simpl in Hch. subst p. apply Forall2_nil_inv_l in Hts as ->. exists s. simpl. rewrite app_nil_r. by split_and!. }
  pose proof (chain_NoDup _ _ _ Hch) as [Hx Hnd]%NoDup_cons.
  destruct Hch as [-> (t' & Ht' & Hch)]. apply Forall2_cons_inv_l in Hts as (t & ts' & Ht & Hts & ->). assert (t' = t) as -> by congruence. subst d.
  apply Forall_cons in Hok as [(Hlen & Hmaps & Hto) Hok]. cbn [loop_loop length] in *.
  set (s1 := heard (dcc (station s)) x t s).
  assert (WiThrottle.WiThrottle.heap s1 = <[x := told (dcc (station s)) t]> (WiThrottle.WiThrottle.heap s) ∧ station s1 = station s ∧ firstThrottle s1 = firstThrottle s ∧
    WiThrottle.WiThrottle.out s1 = WiThrottle.WiThrottle.out s ++ client_events (dcc (station s)) t) as (Hh1 & Hs1 & Hf1 & Ho1).
  { unfold s1, heard. by destruct (existsb _ _). }
  assert (∀ y, y ∈ l → WiThrottle.WiThrottle.heap s1 !! y = WiThrottle.WiThrottle.heap s !! y) as Hsame.
  { intros y Hy. rewrite Hh1, lookup_insert_ne; [done|]. by intros ->. }
  destruct (IH ts' (nextThrottle t) s1 fuel) as (s' & E & Hs' & Hf' & Ho' & Hts' & Hout); [by rewrite Hs1| |lia| |done|].
  { eapply chain_ext; [|exact Hch]. intros y Hy. by rewrite Hsame. }
  { clear -Hts Hsame. induction Hts as [|y u l ts Hy Hts IH]; constructor; [rewrite Hsame; [done|left]|]. apply IH. intros z Hz. apply Hsame. by right. }
  exists s'. split.
  { eapply mthen_eq; [by apply checkHeartbeat_spec|]. eapply mthen_eq; [unfold deref; fold s1; rewrite Hh1, lookup_insert_eq; reflexivity|]. exact E. }
  split_and!; [congruence|congruence|rewrite Ho', Ho1; simpl; by rewrite <-app_assoc| |].
  - constructor; [|done]. rewrite Hout by done. by rewrite Hh1, lookup_insert_eq.
  - intros y [Hy1 Hy2]%not_elem_of_cons. rewrite Hout by done. by rewrite Hh1, lookup_insert_ne.
Qed.


(** ** A heartbeat that stops *)

Lemma delete_gone x s s' : delete_ x s = Some (tt, s') → WiThrottle.WiThrottle.heap s' !! x = None.
Proof.
  unfold delete_, mthen, deref. destruct (WiThrottle.WiThrottle.heap s !! x) as [t|]; [|done]. cbn [mbind option_bind].
  unfold fuel_of, mget at 1. cbn [mbind option_bind]. unfold mget at 1. cbn [mbind option_bind].
  match goal with |- context [mbind _ (?m s)] => destruct (m s) as [[[] s1]|]; [|done] end. cbn [mbind option_bind]. intros [= <-]. apply lookup_delete_eq.
Qed.

(** C39. When the heartbeat of a client stops, the loop deletes its object and goes on
    to the next with a pointer read from it: where checkHeartbeat comes back the object
    is gone, so the loop fails. *)
Theorem heartbeat_use_after_free (x : ptr) (t : WiThrottle) (s : WiThrottle.WiThrottle.St) :
  firstThrottle s = Some x → WiThrottle.WiThrottle.heap s !! x = Some t → timed_out i t = true →
  (∀ s', checkHeartbeat i x s = Some (tt, s') → WiThrottle.WiThrottle.heap s' !! x = None) ∧ loop i s = None.
Proof.
  intros Hf Ht Hto. assert (∀ s', checkHeartbeat i x s = Some (tt, s') → WiThrottle.WiThrottle.heap s' !! x = None) as Hgone.
  { intros s'. unfold checkHeartbeat. unfold mthen at 1, deref. rewrite Ht. cbn [mbind option_bind]. rewrite Hto. unfold mthen at 1.
    destruct (looplocos _ _ _ _ s) as [[[] s1]|]; [|done]. cbn [mbind option_bind]. apply delete_gone. }
  split; [done|]. unfold loop, mthen at 1, fuel_of, mget at 1. cbn [mbind option_bind]. unfold mthen at 1, mget at 1. cbn [mbind option_bind].
  rewrite Hf. cbn [loop_loop]. unfold mthen at 1. destruct (checkHeartbeat i x s) as [[[] s1]|] eqn:E; [|done]. cbn [mbind option_bind].
  unfold mthen, deref. by rewrite (Hgone s1).
Qed.

(** The speeds of the protocol, from the emergency stop (-1) up, come back from the
    speed codes of the DCC API. *)
Lemma speeds_round_trip w : -1 <= w <= 126 → DCCToWiTSpeed (WiTToDCCSpeed w) = w.
Proof.
  intros Hw. apply Z.eqb_eq, (range_check (λ w, DCCToWiTSpeed (WiTToDCCSpeed w) =? w) (-1) 128); [by vm_compute|lia].
Qed.
End loop.

(** ** Witnesses: a client with two locos, of which it has been told before that functions
    0 and 2 are on. *)

Definition no_flash : RingStream.Flash := {| RingStream.flash_byte _ := 0; RingStream.ptr_size := 2 |}.
#[local] Existing Instance no_flash.
#[local] Existing Instance TrackProps.TrackProps.a_board.
#[local] Instance few_locos : Config := {| MAX_LOCOS := 10; new_ok _ := true |}.
#[local] Instance mega : Layout.Layout.Machine :=
  {| Layout.Layout.EEPROM_length := 4096; Layout.Layout.alloc_ok _ := true; Layout.Layout.hasCallback _ := false |}.
#[local] Instance no_devices : Devices := {| device_exists _ := false; device_failed _ := false |}.

Definition unused : MYLOCO := mkMyLoco 0 0 false 0 0.
Definition empty_state : WiThrottle.WiThrottle.St := WiThrottle.WiThrottle.mkSt CommandsProps.CommandsProps.a_world ∅ None 255 None 0 0 [].
Definition a_client : WiThrottle :=
  mkWiThrottle None 4 ([mkMyLoco 48 3 true 5 4; mkMyLoco 48 200 false 0 4] ++ replicate 8 unused) true 900 true true true true true 3.
Definition one_client : WiThrottle.WiThrottle.St := put_throttle 1%positive a_client (with_firstThrottle (Some 1%positive) empty_state).
Lemma one_client_rep : Rep [1%positive] [4] one_client.
Proof.
  constructor; simpl.
  - split; [done|]. by exists a_client.
  - intros x. rewrite lookup_insert_is_Some, list_elem_of_singleton, lookup_empty. split; [intros [|[_ [? ?]]]; done|by left].
  - by repeat constructor.
  - apply NoDup_singleton.
  - intros x t [[<- <-]|[_ Hx]]%lookup_insert_Some; [done|by rewrite lookup_empty in Hx].
Qed.

Lemma throttles_refine_witness :
  foldl (λ cs o, spec_step o cs) [] [Get 1; Get 5; Get 1; Changed 3; Drop 1; Get 2; Drop 9] = [2; 5] ∧
  ∃ s', run unused [Get 1; Get 5; Get 1; Changed 3; Drop 1; Get 2; Drop 9] empty_state =
      Some ([Some 1; Some 5; Some 1; None; None; Some 2; None], s') ∧ clients_of s' = Some [2; 5].
Proof.
  split; [by vm_compute|]. apply (throttles_refine unused [Get 1; Get 5; Get 1; Changed 3; Drop 1; Get 2; Drop 9] empty_state). constructor; simpl.
  - done.
  - intros x. rewrite lookup_empty. split; [intros [? ?]; done|intros ?%elem_of_nil; done].
  - constructor.
  - constructor.
  - intros x t Hx. by rewrite lookup_empty in Hx.
Defined.


Lemma heartbeat_use_after_free_witness :
  let late := with_heartBeat 4294900000 (with_myLocos (replicate 10 unused) a_client) in
  let s := put_throttle 1%positive late one_client in
  is_Some (checkHeartbeat CommandsProps.CommandsProps.some_inputs 1%positive s) ∧
  (∀ s', checkHeartbeat CommandsProps.CommandsProps.some_inputs 1%positive s = Some (tt, s') → WiThrottle.WiThrottle.heap s' !! 1%positive = None) ∧
  loop CommandsProps.CommandsProps.some_inputs s = None.
Proof.
  intros late s. split; [by vm_compute; eexists|].
  apply (heartbeat_use_after_free CommandsProps.CommandsProps.some_inputs 1%positive late s); by vm_compute.
Defined.
End WiThrottleProps.
