(* ===== verification/IODevice.v ===== *)
(** The layer of input and output devices (src/IODevice.cpp, src/IODevice.h): a chain of
    device objects, each of which owns a range of pin numbers (VPINs), with the static
    functions that find the device of a pin and call its virtual functions.

    A virtual function is an operation of the class [Driver], which a type of device
    objects implements; it may act on the whole layer, since some devices sit on top of
    others. What the devices ask of the hardware (pin levels, answers of the I2C bus) comes
    from the [Bus], which keeps the calls made of it as a trace. *)

From S2P Require Import Prelude Chain.

#[local] Open Scope Z_scope.
#[local] Open Scope c_scope.

Module IODevice.

Definition VPIN_NONE : Z := 65535.

Inductive ConfigTypeEnum :=
  CONFIGURE_INPUT | CONFIGURE_SERVO | CONFIGURE_OUTPUT | CONFIGURE_ANALOGOUTPUT | CONFIGURE_ANALOGINPUT.
#[export] Instance ConfigTypeEnum_eq : EqDecision ConfigTypeEnum.
Proof. solve_decision. Defined.

Inductive DeviceStateEnum :=
  DEVSTATE_DORMANT | DEVSTATE_PROBING | DEVSTATE_INITIALISING | DEVSTATE_NORMAL | DEVSTATE_SCANNING | DEVSTATE_FAILED.
#[export] Instance DeviceStateEnum_eq : EqDecision DeviceStateEnum.
Proof. solve_decision. Defined.
Definition state_number (d : DeviceStateEnum) : Z :=
  match d with
  | DEVSTATE_DORMANT => 0 | DEVSTATE_PROBING => 1 | DEVSTATE_INITIALISING => 2
  | DEVSTATE_NORMAL => 3 | DEVSTATE_SCANNING => 4 | DEVSTATE_FAILED => 5
  end.

Inductive PinModeEnum := INPUT | INPUT_PULLUP | OUTPUT.

(** What devices do outside themselves, in order. *)
Inductive ev :=
  | PinMode (pin : Z) (mode : PinModeEnum)
  | DigitalWrite (pin : Z) (high : bool)
  | AdcInit (pin : Z) | AdcRead (pin : Z)                     (* ADCee *)
  | I2C_begin | I2C_setClock (hz : Z)                         (* I2CManager *)
  | I2C_exists (address : Z)
  | I2C_write (address : Z) (bytes : list Z)
  | I2C_read (address : Z) (bytes : list Z) (count : Z)
  | I2C_queue (address : Z) (bytes : list Z) (count : Z)      (* queueRequest *)
  | Notify (callback vpin value : Z)                          (* IONotifyCallback::invoke *)
  | SetAccessory (address port : Z) (gate : bool).            (* DCC::setAccessory *)

(** The world outside the devices. *)
Record Bus := mkBus {
  answers : nat → Z * list Z;   (* the status and bytes of each answer of the I2C bus *)
  asked : nat;   (* how many answers were used *)
  levels : Z → bool;   (* digital inputs *)
  analogue : Z → Z;   (* ADCee::read *)
  analogueInit : Z → Z;   (* ADCee::init *)
  callbacks : list Z;   (* IONotifyCallback::first and its chain: the functions registered *)
  trace : list ev;
}.

Definition with_answers (x : nat → Z * list Z) (r : Bus) : Bus :=
  mkBus x (asked r) (levels r) (analogue r) (analogueInit r) (callbacks r) (trace r).
Definition with_asked (x : nat) (r : Bus) : Bus :=
  mkBus (answers r) x (levels r) (analogue r) (analogueInit r) (callbacks r) (trace r).
Definition with_levels (x : Z → bool) (r : Bus) : Bus :=
  mkBus (answers r) (asked r) x (analogue r) (analogueInit r) (callbacks r) (trace r).
Definition with_analogue (x : Z → Z) (r : Bus) : Bus :=
  mkBus (answers r) (asked r) (levels r) x (analogueInit r) (callbacks r) (trace r).
Definition with_analogueInit (x : Z → Z) (r : Bus) : Bus :=
  mkBus (answers r) (asked r) (levels r) (analogue r) x (callbacks r) (trace r).
Definition with_callbacks (x : list Z) (r : Bus) : Bus :=
  mkBus (answers r) (asked r) (levels r) (analogue r) (analogueInit r) x (trace r).
Definition with_trace (x : list ev) (r : Bus) : Bus :=
  mkBus (answers r) (asked r) (levels r) (analogue r) (analogueInit r) (callbacks r) x.

(** The fields every device has. *)
Record Base := mkBase {
  _firstVpin : Z;
  _nPins : Z;
  _I2CAddress : Z;
  _hasCallback : bool;
  _gpioInterruptPin : Z;
  _deviceState : DeviceStateEnum;
  _nextDevice : option ptr;
  _nextEntryTime : Z;
}.

Definition with__firstVpin (x : Z) (r : Base) : Base :=
  mkBase x (_nPins r) (_I2CAddress r) (_hasCallback r) (_gpioInterruptPin r) (_deviceState r)
    (_nextDevice r) (_nextEntryTime r).
Definition with__nPins (x : Z) (r : Base) : Base :=
  mkBase (_firstVpin r) x (_I2CAddress r) (_hasCallback r) (_gpioInterruptPin r) (_deviceState r)
    (_nextDevice r) (_nextEntryTime r).
Definition with__I2CAddress (x : Z) (r : Base) : Base :=
  mkBase (_firstVpin r) (_nPins r) x (_hasCallback r) (_gpioInterruptPin r) (_deviceState r) (_nextDevice
    r) (_nextEntryTime r).
Definition with__hasCallback (x : bool) (r : Base) : Base :=
  mkBase (_firstVpin r) (_nPins r) (_I2CAddress r) x (_gpioInterruptPin r) (_deviceState r) (_nextDevice
    r) (_nextEntryTime r).
Definition with__gpioInterruptPin (x : Z) (r : Base) : Base :=
  mkBase (_firstVpin r) (_nPins r) (_I2CAddress r) (_hasCallback r) x (_deviceState r) (_nextDevice r)
    (_nextEntryTime r).
Definition with__deviceState (x : DeviceStateEnum) (r : Base) : Base :=
  mkBase (_firstVpin r) (_nPins r) (_I2CAddress r) (_hasCallback r) (_gpioInterruptPin r) x (_nextDevice
    r) (_nextEntryTime r).
Definition with__nextDevice (x : option ptr) (r : Base) : Base :=
  mkBase (_firstVpin r) (_nPins r) (_I2CAddress r) (_hasCallback r) (_gpioInterruptPin r) (_deviceState
    r) x (_nextEntryTime r).
Definition with__nextEntryTime (x : Z) (r : Base) : Base :=
  mkBase (_firstVpin r) (_nPins r) (_I2CAddress r) (_hasCallback r) (_gpioInterruptPin r) (_deviceState
    r) (_nextDevice r) x.

(** The constructor IODevice(firstVpin, nPins). *)
Definition newBase (firstVpin nPins : Z) : Base :=
  mkBase (u16 firstVpin) nPins 0 false (-1) DEVSTATE_DORMANT None 0.

(** ** One object, as its own member functions see it *)

Record Obj (X : Type) := mkObj { base : Base; own : X; bus : Bus }.
Arguments mkObj {X}.
Arguments base {X}.
Arguments own {X}.
Arguments bus {X}.

Section obj.
Context {X : Type}.
Implicit Types (o : Obj X).

Definition with_base (f : Base → Base) : M (Obj X) unit := mmod (λ o, mkObj (f (base o)) (own o) (bus o)).
Definition with_own (f : X → X) : M (Obj X) unit := mmod (λ o, mkObj (base o) (f (own o)) (bus o)).
Definition put_own (x : X) : M (Obj X) unit := with_own (λ _, x).
Definition setState (d : DeviceStateEnum) : M (Obj X) unit := with_base (with__deviceState d).

Definition log (e : ev) : M (Obj X) unit :=
  mmod (λ o, mkObj (base o) (own o) (with_trace (trace (bus o) ++ [e]) (bus o))).

(** The answer of the bus to a transaction that is waited for. *)
Definition answer : M (Obj X) (Z * list Z) := λ o,
  Some (answers (bus o) (asked (bus o)), mkObj (base o) (own o) (with_asked (S (asked (bus o))) (bus o))).

Definition I2C_STATUS_OK : Z := 0.
Definition I2C_STATUS_PENDING : Z := 253.

(** I2CManager.write with its bytes: the drivers ignore its result. *)
Definition i2c_write (address : Z) (bytes : list Z) : M (Obj X) unit := log (I2C_write address (map u8 bytes)).
(** I2CManager.exists: a transaction without data, answered with its status. *)
Definition i2c_exists (address : Z) : M (Obj X) bool :=
  log (I2C_exists address) ;;; let! a := answer in mreturn (a.1 =? I2C_STATUS_OK).
(** I2CManager.read: the bytes of the buffer afterwards; the drivers ignore its result. *)
Definition i2c_read (address : Z) (bytes : list Z) (count : Z) : M (Obj X) (list Z) :=
  log (I2C_read address bytes count) ;;; let! a := answer in mreturn (a.2).

Definition pinMode (pin : Z) (m : PinModeEnum) : M (Obj X) unit := log (PinMode (u8 pin) m).

(** IODevice::delayUntil *)
Definition delayUntil (futureMicrosCount : Z) : M (Obj X) unit := with_base (with__nextEntryTime (u32 futureMicrosCount)).

(** IONotifyCallback::invokeAll and hasCallback *)
Definition invokeAll (vpin value : Z) : M (Obj X) unit :=
  let! fs := mget (λ o, callbacks (bus o)) in mfor fs (λ f, log (Notify f vpin value)).
Definition hasCallbacks : M (Obj X) bool :=
  mget (λ o, match callbacks (bus o) with [] => false | _ => true end).

End obj.

(** IONotifyCallback::add *)
Definition addCallback (f : Z) (b : Bus) : Bus := with_callbacks (f :: callbacks b) b.

(** ** The request block of a transaction that is not waited for (I2CRB) *)

Record I2CRB := mkI2CRB { rb_status : Z; rb_out : list Z; rb_in : list Z; rb_len : Z }.
Definition setReadParams (len : Z) : I2CRB := mkI2CRB I2C_STATUS_OK [] [] len.
Definition setRequestParams (len : Z) (out : list Z) : I2CRB := mkI2CRB I2C_STATUS_OK out [] len.
Definition setWriteParams (out : list Z) : I2CRB := mkI2CRB I2C_STATUS_OK out [] 0.

(** The bus completes a request that is pending, at a time of its own. *)
Definition complete (st : Z) (bytes : list Z) (rb : I2CRB) : I2CRB :=
  if rb_status rb =? I2C_STATUS_PENDING then mkI2CRB st (rb_out rb) bytes (rb_len rb) else rb.
(** I2CRB::isBusy *)
Definition isBusyRB (rb : I2CRB) : bool := rb_status rb =? I2C_STATUS_PENDING.

Section rb.
Context {X : Type} (get : X → I2CRB) (set : I2CRB → X → X).
(** I2CManager.queueRequest *)
Definition queueRequest : M (Obj X) unit :=
  let! o := mget id in
  log (I2C_queue (_I2CAddress (base o)) (rb_out (get (own o))) (rb_len (get (own o)))) ;;;
  with_own (λ x, set (mkI2CRB I2C_STATUS_PENDING (rb_out (get x)) (rb_in (get x)) (rb_len (get x))) x).
(** I2CRB::wait: a request that is pending is completed by the bus, if only by its timeout. *)
Definition wait : M (Obj X) Z :=
  let! x := mget own in
  if isBusyRB (get x)
  then let! a := answer in with_own (λ x, set (complete a.1 a.2 (get x)) x) ;;; mreturn a.1
  else mreturn (rb_status (get x)).
End rb.

(** ** The layer *)

Section layer.
Context {D : Type}.

Record Device := mkDevice { dbase : Base; drv : D }.

Record HAL := mkHAL {
  devices : gmap ptr Device;
  _firstDevice : option ptr;
  _nextLoopDevice : option ptr;
  hbus : Bus
}.
Definition with_devices (x : gmap ptr Device) (r : HAL) : HAL := mkHAL x (_firstDevice r) (_nextLoopDevice r) (hbus r).
Definition with__firstDevice (x : option ptr) (r : HAL) : HAL := mkHAL (devices r) x (_nextLoopDevice r) (hbus r).
Definition with__nextLoopDevice (x : option ptr) (r : HAL) : HAL := mkHAL (devices r) (_firstDevice r) x (hbus r).
Definition with_hbus (x : Bus) (r : HAL) : HAL := mkHAL (devices r) (_firstDevice r) (_nextLoopDevice r) x.

Definition getDevice (p : ptr) : M HAL Device := λ s, d ← devices s !! p; Some (d, s).
Definition putDevice (p : ptr) (d : Device) : M HAL unit := mmod (λ s, with_devices (<[p := d]> (devices s)) s).
Definition modBase (p : ptr) (f : Base → Base) : M HAL unit :=
  let! d := getDevice p in putDevice p (mkDevice (f (dbase d)) (drv d)).

(** A member function run on the object at [p]: its class is [X], which [inj] embeds. *)
Definition run_own {X A} (inj : X → D) (p : ptr) (b : Base) (x : X) (m : M (Obj X) A) : M HAL A := λ s,
  '(a, o) ← m (mkObj b x (hbus s));
  Some (a, with_hbus (bus o) (with_devices (<[p := mkDevice (base o) (inj (own o))]> (devices s)) s)).

(** [vpin < firstVpin + _nPins], the sum in 16 bits without sign. *)
Definition owns (b : Base) (id : Z) : bool := (_firstVpin b <=? id) && (id <? u16 (_firstVpin b + _nPins b)).

(** A walk along the chain to the first device that owns the pin. *)
Fixpoint find_from (fuel : nat) (h : gmap ptr Device) (dev : option ptr) (vpin : Z) : option (option ptr) :=
  match dev, fuel with
  | None, _ => Some None
  | Some p, O => None
  | Some p, S f =>
      d ← h !! p;
      if owns (dbase d) vpin then Some (Some p) else find_from f h (_nextDevice (dbase d)) vpin
  end.
Definition findDevice (vpin : Z) : M HAL (option ptr) := λ s,
  r ← find_from (S (size (devices s))) (devices s) (_firstDevice s) vpin; Some (r, s).
Definition findDeviceFollowing (this : ptr) (vpin : Z) : M HAL (option ptr) := λ s,
  d ← devices s !! this;
  r ← find_from (S (size (devices s))) (devices s) (_nextDevice (dbase d)) vpin; Some (r, s).

(** The first device that meets the pins or the I2C address of a new one. The count of
    pins is a byte, [firstPin+nPins-1] has 16 bits. *)
Fixpoint overlap_from (fuel : nat) (h : gmap ptr Device) (dev : option ptr) (firstPin nPins i2cAddress : Z) : option bool :=
  match dev, fuel with
  | None, _ => Some false
  | Some p, O => None
  | Some p, S f =>
      d ← h !! p;
      let b := dbase d in
      let lastPin := u16 (firstPin + nPins - 1) in
      let firstDevPin := _firstVpin b in
      let lastDevPin := u16 (firstDevPin + _nPins b - 1) in
      let noOverlap := (lastDevPin <? firstPin) || (lastPin <? firstDevPin) in
      if (0 <? nPins) && (0 <? _nPins b) && negb noOverlap then Some true
      else if tru i2cAddress && (_I2CAddress b =? i2cAddress) then Some true
      else overlap_from f h (_nextDevice b) firstPin nPins i2cAddress
  end.
Definition checkNoOverlap (firstPin nPins i2cAddress : Z) : M HAL bool := λ s,
  r ← overlap_from (S (size (devices s))) (devices s) (_firstDevice s) (u16 firstPin) (u8 nPins) i2cAddress; Some (negb r, s).

(** A type of device objects: the virtual functions, with the object they are called on.
    The drawing of a device (_display) only prints. *)
Class WriteAnalogue := _writeAnalogue : ptr → Z → Z → Z → Z → M HAL unit.

Section static1.
Context `{WriteAnalogue}.
Definition writeAnalogue (vpin value param1 param2 : Z) : M HAL unit :=
  let! dev := findDevice vpin in
  match dev with Some p => _writeAnalogue p vpin value param1 param2 | None => mreturn tt end.
End static1.

Class Driver := {
  driver_writeAnalogue :: WriteAnalogue;
  _begin : ptr → M HAL unit;
  _configure : ptr → Z → ConfigTypeEnum → list Z → M HAL bool;
  _write : ptr → Z → Z → M HAL unit;
  _writeRange : ptr → Z → Z → Z → M HAL Z;
  _writeAnalogueRange : ptr → Z → Z → Z → Z → Z → M HAL Z;
  _read : ptr → Z → M HAL Z;
  _readAnalogue : ptr → Z → M HAL Z;
  _configureAnalogIn : ptr → Z → M HAL Z;
  _loop : ptr → Z → M HAL unit
}.

Section static.
Context `{Driver}.

(** The implementations that a class inherits from IODevice when it has none of its own. *)
Definition default_writeRange (this : ptr) (vpin value : Z) : M HAL Z :=
  _write this vpin value ;;; mreturn (u16 (vpin + 1)).
Definition default_writeAnalogueRange (this : ptr) (vpin value param1 param2 : Z) : M HAL Z :=
  _writeAnalogue this vpin value param1 param2 ;;; mreturn (u16 (vpin + 1)).
Definition default_loop (this : ptr) (currentMicros : Z) : M HAL unit :=
  modBase this (with__nextEntryTime (u32 (currentMicros + 0x7fffffff))).

(** The loop over the devices, each found from the link of the one before. *)
Fixpoint each_device (fuel : nat) (f : ptr → M HAL unit) (dev : option ptr) : M HAL unit :=
  match dev, fuel with
  | None, _ => mreturn tt
  | Some p, O => mfail
  | Some p, S n => f p ;;; let! d := getDevice p in each_device n f (_nextDevice (dbase d))
  end.

Definition reset (currentMicros : Z) : M HAL unit := λ s,
  each_device (S (size (devices s))) (λ p,
    modBase p (with__deviceState DEVSTATE_DORMANT) ;;;
    modBase p (with__nextEntryTime (u32 currentMicros)) ;;;
    _begin p) (_firstDevice s) s.

(** [currentMicros - _nextEntryTime] is not negative as a signed number of 32 bits. *)
Definition ready (b : Base) (currentMicros : Z) : bool :=
  negb (bool_decide (_deviceState b = DEVSTATE_FAILED)) && (0 <=? i32 (currentMicros - _nextEntryTime b)).

(** [loop]: the search goes round the chain from [_nextLoopDevice] until a device is ready or
    it is back where it started. One round of the chain is its [fuel]. *)
Fixpoint loop_from (fuel : nat) (lastLoopDevice : option ptr) (currentMicros : Z) : M HAL unit :=
  match fuel with
  | O => mfail
  | S f =>
    let! next := mget _nextLoopDevice in
    let! first := mget _firstDevice in
    let next := match next with None => first | _ => next end in
    mmod (with__nextLoopDevice next) ;;;
    let! found :=
      match next with
      | None => mreturn false
      | Some p =>
          let! d := getDevice p in
          if ready (dbase d) currentMicros then
            modBase p (with__nextEntryTime (u32 currentMicros)) ;;;
            _loop p currentMicros ;;;
            let! next := mget _nextLoopDevice in
            let! p := mlift next in
            let! d := getDevice p in
            mmod (with__nextLoopDevice (_nextDevice (dbase d))) ;;; mreturn true
          else
            mmod (with__nextLoopDevice (_nextDevice (dbase d))) ;;; mreturn false
      end in
    if found then mreturn tt
    else
      let! next := mget _nextLoopDevice in
      if bool_decide (next = lastLoopDevice) then mreturn tt
      else loop_from f lastLoopDevice currentMicros
  end.
Definition loop (currentMicros : Z) : M HAL unit := λ s,
  loop_from (S (size (devices s))) (_nextLoopDevice s) currentMicros s.

Definition exists_ (vpin : Z) : M HAL bool :=
  let! dev := findDevice vpin in mreturn (match dev with Some _ => true | None => false end).
Definition getStatus (vpin : Z) : M HAL Z :=
  let! dev := findDevice vpin in
  match dev with None => mreturn 0 | Some p => let! d := getDevice p in mreturn (state_number (_deviceState (dbase d))) end.
Definition hasCallback (vpin : Z) : M HAL bool :=
  let! dev := findDevice vpin in
  match dev with None => mreturn false | Some p => let! d := getDevice p in mreturn (_hasCallback (dbase d)) end.

Definition configure (vpin : Z) (configType : ConfigTypeEnum) (params : list Z) : M HAL bool :=
  let! dev := findDevice vpin in
  match dev with Some p => _configure p vpin configType params | None => mreturn false end.
Definition configureInput (vpin : Z) (pullupEnable : bool) : M HAL bool :=
  configure vpin CONFIGURE_INPUT [b2z pullupEnable].
Definition configureServo (vpin activePosition inactivePosition profile duration initialState : Z) : M HAL bool :=
  configure vpin CONFIGURE_SERVO [i16 activePosition; i16 inactivePosition; profile; i16 duration; initialState].

Definition read (vpin : Z) : M HAL Z :=
  let! dev := findDevice vpin in
  match dev with Some p => _read p vpin | None => mreturn 0 end.
Definition readAnalogue (vpin : Z) : M HAL Z :=
  let! dev := findDevice vpin in
  match dev with Some p => _readAnalogue p vpin | None => mreturn (-1023) end.
Definition configureAnalogIn (vpin : Z) : M HAL Z :=
  let! dev := findDevice vpin in
  match dev with Some p => _configureAnalogIn p vpin | None => mreturn (-1023) end.

Definition write (vpin value : Z) : M HAL unit :=
  let! dev := findDevice vpin in
  match dev with Some p => _write p vpin value | None => mreturn tt end.

(** The count is an int, the pins are 16 bits without sign: so is the difference of two of
    them. The loop runs until the count is 0. *)
Fixpoint writeRange_from (fuel : nat) (vpin value count : Z) : M HAL unit :=
  if count =? 0 then mreturn tt
  else match fuel with
  | O => mfail
  | S f =>
    let! dev := findDevice vpin in
    match dev with
    | Some p =>
        let! vpin' := _writeRange p vpin value count in
        writeRange_from f vpin' value (i16 (count - u16 (vpin' - vpin)))
    | None => writeRange_from f (u16 (vpin + 1)) value (i16 (count - 1))
    end
  end.
Definition writeRange (vpin value count : Z) : M HAL unit := writeRange_from (Z.to_nat (u16 count)) vpin value count.

Fixpoint writeAnalogueRange_from (fuel : nat) (vpin value param1 param2 count : Z) : M HAL unit :=
  if count =? 0 then mreturn tt
  else match fuel with
  | O => mfail
  | S f =>
    let! dev := findDevice vpin in
    match dev with
    | Some p =>
        let! vpin' := _writeAnalogueRange p vpin value param1 param2 count in
        writeAnalogueRange_from f vpin' value param1 param2 (i16 (count - u16 (vpin' - vpin)))
    | None => writeAnalogueRange_from f (u16 (vpin + 1)) value param1 param2 (i16 (count - 1))
    end
  end.
Definition writeAnalogueRange (vpin value param1 param2 count : Z) : M HAL unit :=
  writeAnalogueRange_from (Z.to_nat (u16 count)) vpin value param1 param2 count.

Definition isBusy (vpin : Z) : M HAL bool :=
  let! dev := findDevice vpin in
  match dev with Some p => let! v := _read p vpin in mreturn (tru v) | None => mreturn false end.

Definition setGPIOInterruptPin (this : ptr) (pinNumber : Z) : M HAL unit :=
  (when 0 <=? pinNumber do mmod (λ s, with_hbus (with_trace (trace (hbus s) ++ [PinMode (u8 pinNumber) INPUT_PULLUP]) (hbus s)) s)) ;;;
  modBase this (with__gpioInterruptPin pinNumber).

(** [addDevice]: the device is linked in front of [slaveDevice], or at the end. *)
Fixpoint link_from (fuel : nat) (dev : option ptr) (newDevice : ptr) (slaveDevice : option ptr) : M HAL unit :=
  match dev, fuel with
  | None, _ => mreturn tt
  | Some p, O => mfail
  | Some p, S f =>
      let! d := getDevice p in
      let next := _nextDevice (dbase d) in
      if bool_decide (next = slaveDevice) || bool_decide (next = None) then
        modBase newDevice (with__nextDevice next) ;;;
        modBase p (with__nextDevice (Some newDevice))
      else link_from f next newDevice slaveDevice
  end.
Definition linkDevice (newDevice : ptr) (slaveDevice : option ptr) : M HAL unit := λ s,
  (if bool_decide (slaveDevice = _firstDevice s) then
     modBase newDevice (with__nextDevice (_firstDevice s)) ;;;
     mmod (with__firstDevice (Some newDevice))
   else link_from (S (size (devices s))) (_firstDevice s) newDevice slaveDevice) s.
Definition addDevice (newDevice : ptr) (slaveDevice : option ptr) : M HAL unit :=
  linkDevice newDevice slaveDevice ;;; _begin newDevice.

(** [new]: an object in a place that is free. *)
Definition newDevice (b : Base) (x : D) : M HAL ptr := λ s,
  let p := fresh (dom (devices s)) in
  Some (p, with_devices (<[p := mkDevice b x]> (devices s)) s).

End static.
End layer.
Arguments Device : clear implicits.
Arguments HAL : clear implicits.
Arguments Driver : clear implicits.
Arguments WriteAnalogue : clear implicits.

#[export] Instance device_linked {D} : Linked (Device D) :=
  {| nx d := _nextDevice (dbase d); setnx n d := mkDevice (with__nextDevice n (dbase d)) (drv d); nx_setnx _ _ := eq_refl |}.

End IODevice.
