(* ===== verification/ArduinoPins.v ===== *)
(** The pins of the processor as a device (ArduinoPins of src/IODevice.cpp): for each pin a bit
    that tells whether it is an output, whether it has a pull-up as an input, and whether it
    has been used. *)

From S2P Require Import Prelude Chain IODevice.

#[local] Open Scope Z_scope.
#[local] Open Scope c_scope.

(** * Access to arrays: an index out of range is a failure *)

Module Bits.

Definition geta {S A} (l : list A) (i : Z) : M S A := if i <? 0 then mfail else mlift (l !! Z.to_nat i).
Definition seta {A} (l : list A) (i : Z) (x : A) : list A := <[Z.to_nat i := x]> l.

(** [x |= mask] and [x &= ~mask] *)
Definition set_bits (x mask : Z) : Z := x .| mask.
Definition clear_bits (x mask : Z) : Z := x .& Z.lnot mask.

End Bits.

Module ArduinoPins.
Import IODevice.IODevice Bits.

Definition NUM_DIGITAL_PINS : Z := 70.

Record ArduinoPins := mkArduinoPins { _pinPullups : list Z; _pinModes : list Z; _pinInUse : list Z }.

(** The constructor: pull-up on, input, not in use. *)
Definition ArduinoPins_base (firstVpin nPins : Z) : Base := newBase firstVpin nPins.
Definition new_ArduinoPins (nPins : Z) : ArduinoPins :=
  let arrayLen := Z.to_nat (Z.quot (nPins + 7) 8) in
  mkArduinoPins (replicate arrayLen 0xff) (replicate arrayLen 0) (replicate arrayLen 0).

Notation P := (Obj ArduinoPins).

Definition fastWriteDigital (pin value : Z) : M P unit :=
  if NUM_DIGITAL_PINS <=? u8 pin then mreturn tt else log (DigitalWrite (u8 pin) (tru (u8 value))).
Definition fastReadDigital (pin : Z) : M P bool :=
  if NUM_DIGITAL_PINS <=? u8 pin then mreturn false else mget (λ o, levels (bus o) (u8 pin)).

(** The bit of a pin in the arrays. *)
Definition mask_of (vpin : Z) (b : Base) : Z := u8 (1 <<' (u16 (vpin - _firstVpin b) mod 8)).
Definition index_of (vpin : Z) (b : Base) : Z := u8 (u16 (vpin - _firstVpin b) / 8).

Section pin.
Variable vpin : Z.

(** [a[index] |= mask] or [a[index] &= ~mask] on one of the arrays. *)
Definition on_pin (get : ArduinoPins → list Z) (put : list Z → ArduinoPins → ArduinoPins)
    (f : Z → Z → Z) : M P unit :=
  let! o := mget id in
  let index := index_of vpin (base o) in
  let! x := geta (get (own o)) index in
  put_own (put (seta (get (own o)) index (f x (mask_of vpin (base o)))) (own o)).
Definition on_pullups := on_pin _pinPullups (λ l p, mkArduinoPins l (_pinModes p) (_pinInUse p)).
Definition on_modes := on_pin _pinModes (λ l p, mkArduinoPins (_pinPullups p) l (_pinInUse p)).
Definition on_inUse := on_pin _pinInUse (λ l p, mkArduinoPins (_pinPullups p) (_pinModes p) l).
(** [a[index] & mask] *)
Definition pin_bit (get : ArduinoPins → list Z) : M P bool :=
  let! o := mget id in
  let! x := geta (get (own o)) (index_of vpin (base o)) in
  mreturn (tru (x .& mask_of vpin (base o))).

Definition _configure (configType : ConfigTypeEnum) (params : list Z) : M P bool :=
  match configType, params with
  | CONFIGURE_INPUT, [param] =>
      on_modes clear_bits ;;;
      (if tru param then on_pullups set_bits ;;; pinMode vpin INPUT_PULLUP
       else on_pullups clear_bits ;;; pinMode vpin INPUT) ;;;
      on_inUse set_bits ;;; mreturn true
  | _, _ => mreturn false
  end.

Definition _write (value : Z) : M P unit :=
  fastWriteDigital vpin value ;;;
  let! out := pin_bit _pinModes in
  when negb out do (on_modes set_bits ;;; pinMode vpin OUTPUT ;;; on_inUse set_bits).

(** The pin becomes an input, with its pull-up or without. *)
Definition to_input : M P unit :=
  on_modes clear_bits ;;;
  let! pullup := pin_bit _pinPullups in
  pinMode vpin (if pullup then INPUT_PULLUP else INPUT).

Definition _read : M P Z :=
  let! out := pin_bit _pinModes in
  let! used := pin_bit _pinInUse in
  (when out || negb used do (to_input ;;; on_inUse set_bits)) ;;;
  let! high := fastReadDigital vpin in
  mreturn (b2z (negb high)).

Definition _readAnalogue : M P Z :=
  if 255 <? vpin then mreturn (-1023)
  else log (AdcRead vpin) ;;; mget (λ o, analogue (bus o) vpin).

Definition _configureAnalogIn : M P Z :=
  if 255 <? vpin then mreturn (-1023)
  else
    let! out := pin_bit _pinModes in
    (when out do to_input) ;;;
    log (AdcInit vpin) ;;; mget (λ o, analogueInit (bus o) vpin).

End pin.
End ArduinoPins.
