(* ===== verification/PCA9685.v ===== *)
(** Servos: the animation of a servo's position, and the PCA9685 module that drives up to
    sixteen of them over I2C (src/IO_PCA9685.cpp). The animation is a pure function on the
    data of one servo that tells what to output; src/IO_Servo.h has the same code with another
    output. *)

From S2P Require Import Prelude Chain IODevice ArduinoPins.

#[local] Open Scope Z_scope.
#[local] Open Scope c_scope.

Module ServoData.
Import Bits.

(** One servo. The positions are bit fields of 12 bits. *)
Record ServoData := mkServoData {
  activePosition : Z;
  inactivePosition : Z;
  currentPosition : Z;
  fromPosition : Z;
  toPosition : Z;
  profile : Z;
  stepNumber : Z;
  numSteps : Z;
  currentProfile : Z;
  duration : Z;
}.

Definition with_activePosition (x : Z) (r : ServoData) : ServoData :=
  mkServoData x (inactivePosition r) (currentPosition r) (fromPosition r) (toPosition r) (profile r)
    (stepNumber r) (numSteps r) (currentProfile r) (duration r).
Definition with_inactivePosition (x : Z) (r : ServoData) : ServoData :=
  mkServoData (activePosition r) x (currentPosition r) (fromPosition r) (toPosition r) (profile r)
    (stepNumber r) (numSteps r) (currentProfile r) (duration r).
Definition with_currentPosition (x : Z) (r : ServoData) : ServoData :=
  mkServoData (activePosition r) (inactivePosition r) x (fromPosition r) (toPosition r) (profile r)
    (stepNumber r) (numSteps r) (currentProfile r) (duration r).
Definition with_fromPosition (x : Z) (r : ServoData) : ServoData :=
  mkServoData (activePosition r) (inactivePosition r) (currentPosition r) x (toPosition r) (profile r)
    (stepNumber r) (numSteps r) (currentProfile r) (duration r).
Definition with_toPosition (x : Z) (r : ServoData) : ServoData :=
  mkServoData (activePosition r) (inactivePosition r) (currentPosition r) (fromPosition r) x (profile r)
    (stepNumber r) (numSteps r) (currentProfile r) (duration r).
Definition with_profile (x : Z) (r : ServoData) : ServoData :=
  mkServoData (activePosition r) (inactivePosition r) (currentPosition r) (fromPosition r) (toPosition r)
    x (stepNumber r) (numSteps r) (currentProfile r) (duration r).
Definition with_stepNumber (x : Z) (r : ServoData) : ServoData :=
  mkServoData (activePosition r) (inactivePosition r) (currentPosition r) (fromPosition r) (toPosition r)
    (profile r) x (numSteps r) (currentProfile r) (duration r).
Definition with_numSteps (x : Z) (r : ServoData) : ServoData :=
  mkServoData (activePosition r) (inactivePosition r) (currentPosition r) (fromPosition r) (toPosition r)
    (profile r) (stepNumber r) x (currentProfile r) (duration r).
Definition with_currentProfile (x : Z) (r : ServoData) : ServoData :=
  mkServoData (activePosition r) (inactivePosition r) (currentPosition r) (fromPosition r) (toPosition r)
    (profile r) (stepNumber r) (numSteps r) x (duration r).
Definition with_duration (x : Z) (r : ServoData) : ServoData :=
  mkServoData (activePosition r) (inactivePosition r) (currentPosition r) (fromPosition r) (toPosition r)
    (profile r) (stepNumber r) (numSteps r) (currentProfile r) x.

Definition u12 (z : Z) : Z := z .& 4095.

Definition Instant : Z := 0.
Definition Fast : Z := 1.
Definition Medium : Z := 2.
Definition Slow : Z := 3.
Definition Bounce : Z := 4.
Definition NoPowerOff : Z := 0x80.
Definition _catchupSteps : Z := 5.
Definition _bounceProfile : list Z :=
  [0;2;3;7;13;33;50;83;100;83;75;70;65;60;60;65;74;84;100;83;75;70;70;72;75;80;87;92;97;100].

(** [calloc] *)
Definition no_data : ServoData := mkServoData 0 0 0 0 0 0 0 0 0 0.

Definition clamp (value : Z) : Z := if 4095 <? value then 4095 else if value <? 0 then 0 else value.

(** The data of a servo that is used before it is configured. *)
Definition default_data (value : Z) : ServoData :=
  mkServoData 4095 0 (u12 value) 0 0 (Instant .| NoPowerOff) 0 0 0 0.

(** [currentProfile & ~NoPowerOff] *)
Definition profileValue (profile : Z) : Z := profile .& 0x7f.

(** The end of _writeAnalogue: an animation from the current position to [value]. *)
Definition start (value profile duration : Z) (s : ServoData) : ServoData :=
  let v := profileValue profile in
  let steps := if v =? Fast then 10 else if v =? Medium then 20 else if v =? Slow then 40
               else if v =? Bounce then 29 else u16 (duration * 2 + 1) in
  with_fromPosition (currentPosition s) (with_toPosition (u12 value) (with_stepNumber 0
    (with_numSteps steps (with_currentProfile profile s)))).

(** Arduino's map, in 32 bits. *)
Definition map_range (x in_min in_max out_min out_max : Z) : Z :=
  i32 (Z.quot (i32 ((x - in_min) * (out_max - out_min))) (in_max - in_min) + out_min).

(** The first test of updatePosition: an animation to where the servo is goes to its end. *)
Definition skip_to_end (s : ServoData) : ServoData :=
  if (stepNumber s =? 0) && (fromPosition s =? toPosition s) then with_stepNumber (u16 (numSteps s - 1)) s else s.

(** The position of the next step; the table has 30 entries. *)
Definition step_position (s : ServoData) : option Z :=
  if profileValue (currentProfile s) =? Bounce then
    x ← _bounceProfile !! Z.to_nat (stepNumber s);
    Some (u12 (map_range x 0 100 (fromPosition s) (toPosition s)))
  else Some (u12 (map_range (stepNumber s) 0 (numSteps s) (fromPosition s) (toPosition s))).

(** updatePosition: the new data, and the position to output if there is one. *)
Definition updatePosition (s : ServoData) : option (ServoData * option Z) :=
  if numSteps s =? 0 then Some (s, None)
  else
    let s := skip_to_end s in
    if stepNumber s <? numSteps s then
      let s := with_stepNumber (u16 (stepNumber s + 1)) s in
      pos ← step_position s;
      Some (with_currentPosition pos s, Some pos)
    else if stepNumber s <? u16 (numSteps s + _catchupSteps) then
      Some (with_stepNumber (u16 (stepNumber s + 1)) s, None)
    else if (stepNumber s =? u16 (numSteps s + _catchupSteps)) && negb (currentPosition s =? 0) then
      Some (with_numSteps 0 s, if currentProfile s .& NoPowerOff =? 0 then Some 0 else None)
    else Some (s, None).

(** _read: whether an animation is going on. *)
Definition busy (s : option ServoData) : bool :=
  match s with None => false | Some s => stepNumber s <? numSteps s end.

End ServoData.

Module PCA9685.
Import IODevice.IODevice Bits ServoData.

Record PCA9685 := mkPCA9685 {
  _servoData : list (option ServoData);   (* one for each pin; the others are never used *)
  requestBlock : I2CRB;
  prescaler : Z
}.

Notation P := (Obj PCA9685).

Definition PCA9685_MODE1 : Z := 0x00.
Definition PCA9685_FIRST_SERVO : Z := 0x06.
Definition PCA9685_PRESCALE : Z := 0xFE.
Definition MODE1_SLEEP : Z := 0x10.
Definition MODE1_AI : Z := 0x20.
Definition MODE1_RESTART : Z := 0x80.
(** microseconds between two rounds of the animations *)
Definition refreshInterval : Z := 50.

(** The constructor, in the parts before and after it adds the device. The oscillator has
    25 MHz: 25000000/4096 is 390625/64. *)
Definition PCA9685_base (firstVpin nPins i2cAddress : Z) : Base :=
  with__I2CAddress i2cAddress (newBase firstVpin (if 16 <? nPins then 16 else nPins)).
Definition new_PCA9685 (nPins frequency : Z) : PCA9685 :=
  let frequency := if 1526 <? frequency then 1526 else if frequency <? 24 then 24 else frequency in
  mkPCA9685 (replicate (Z.to_nat (if 16 <? nPins then 16 else nPins)) None) (setWriteParams [])
            (u8 (390625 / (64 * frequency))).
Definition constructed : M P unit :=
  with_own (λ x, mkPCA9685 (_servoData x) (setWriteParams [0; 0; 0; 0; 0]) (prescaler x)).

Definition writeRegister (reg value : Z) : M P unit :=
  let! o := mget id in i2c_write (_I2CAddress (base o)) [reg; value].

Definition _begin : M P unit :=
  log I2C_begin ;;; log (I2C_setClock 1000000) ;;;
  let! o := mget id in
  let! there := i2c_exists (_I2CAddress (base o)) in
  if there then
    writeRegister PCA9685_MODE1 (MODE1_SLEEP .| MODE1_AI) ;;;
    writeRegister PCA9685_PRESCALE (prescaler (own o)) ;;;
    writeRegister PCA9685_MODE1 MODE1_AI ;;;
    writeRegister PCA9685_MODE1 (MODE1_RESTART .| MODE1_AI)
  else setState DEVSTATE_FAILED.

Definition put_servo (pin : Z) (s : ServoData) : M P unit :=
  with_own (λ x, mkPCA9685 (seta (_servoData x) pin (Some s)) (requestBlock x) (prescaler x)).
Definition get_servo (pin : Z) : M P (option ServoData) := let! x := mget own in geta (_servoData x) pin.

Definition _writeAnalogue (vpin value profile duration : Z) : M P unit :=
  let! o := mget id in
  if bool_decide (_deviceState (base o) = DEVSTATE_FAILED) then mreturn tt
  else
    let pin := i16 (vpin - _firstVpin (base o)) in
    let value := clamp value in
    let! s := get_servo pin in
    put_servo pin (start value profile duration (default (default_data value) s)).

Definition _write (vpin value : Z) : M P unit :=
  let! o := mget id in
  let! s := get_servo (i16 (vpin - _firstVpin (base o))) in
  match s with
  | Some s => _writeAnalogue vpin (if tru value then activePosition s else inactivePosition s) (profile s) (duration s)
  | None => _writeAnalogue vpin (if tru value then 4095 else 0) (Instant .| NoPowerOff) 0
  end.

Definition _configure (vpin : Z) (configType : ConfigTypeEnum) (params : list Z) : M P bool :=
  match configType, params with
  | CONFIGURE_SERVO, [active; inactive; prof; dur; state] =>
      let! o := mget id in
      let pin := i8 (vpin - _firstVpin (base o)) in
      let! s := get_servo pin in
      let s := with_duration (u16 dur) (with_profile (u8 prof) (with_inactivePosition (u12 inactive)
                 (with_activePosition (u12 active) (default no_data s)))) in
      put_servo pin s ;;;
      (when negb (state =? -1) do
        _writeAnalogue vpin (if tru state then activePosition s else inactivePosition s) 0 0) ;;;
      mreturn true
  | _, _ => mreturn false
  end.

Definition _read (vpin : Z) : M P Z :=
  let! o := mget id in
  if bool_decide (_deviceState (base o) = DEVSTATE_FAILED) then mreturn 0
  else let! s := get_servo (i16 (vpin - _firstVpin (base o))) in mreturn (b2z (busy s)).

Definition set_rb (rb : I2CRB) (x : PCA9685) : PCA9685 := mkPCA9685 (_servoData x) rb (prescaler x).

Definition writeDevice (pin value : Z) : M P unit :=
  let! status := wait requestBlock set_rb in
  if negb (status =? I2C_STATUS_OK) then setState DEVSTATE_FAILED
  else
    let outputBuffer := [u8 (PCA9685_FIRST_SERVO + 4 * pin); 0; if value =? 4095 then 0x10 else 0;
                         value .& 0xff; u8 (value >>' 8)] in
    with_own (λ x, set_rb (mkI2CRB (rb_status (requestBlock x)) outputBuffer (rb_in (requestBlock x)) 0) x) ;;;
    queueRequest requestBlock set_rb.

Definition updatePin (pin : Z) : M P unit :=
  let! s := get_servo pin in
  match s with
  | None => mreturn tt
  | Some s =>
      let! r := mlift (updatePosition s) in
      put_servo pin r.1 ;;;
      match r.2 with Some value => writeDevice pin value | None => mreturn tt end
  end.

Definition _loop (currentMicros : Z) : M P unit :=
  let! o := mget id in
  mfor (rangeZ 0 (_nPins (base o))) updatePin ;;;
  delayUntil (currentMicros + refreshInterval * 1000).

End PCA9685.
