(* ===== verification/GPIOBase.v ===== *)
(** The I2C port extenders (src/IO_GPIOBase.h) and the seven chips that inherit from it
    (src/IO_MCP23017.h, IO_MCP23008.h, IO_PCF8574.h, IO_PCF8575.h, IO_PCA9554.h, IO_PCA9555.h,
    IO_XL9535.h). A port is a number of 8 or 16 bits, one for each pin. While the constructor
    of the base class runs, the virtual functions are those of the base class: an
    object without a chip yet. *)

From S2P Require Import Prelude Chain IODevice ArduinoPins.

#[local] Open Scope Z_scope.
#[local] Open Scope c_scope.

Module GPIOBase.
Import IODevice.IODevice Bits.

Inductive Chip := MCP23017 | MCP23008 | PCF8574 | PCF8575 | PCA9554 | PCA9555 | XL9535.

Record GPIO := mkGPIO {
  chip : option Chip;
  width : Z;                  (* the bits of the type T *)
  _portInputState : Z;        (* 1=high (inactive), 0=low (activated) *)
  _portOutputState : Z;
  _portMode : Z;              (* 0=input, 1=output *)
  _portPullup : Z;
  _portInUse : Z;
  requestBlock : I2CRB
}.
Definition with_input (x : Z) (g : GPIO) : GPIO :=
  mkGPIO (chip g) (width g) x (_portOutputState g) (_portMode g) (_portPullup g) (_portInUse g) (requestBlock g).
Definition with_output (x : Z) (g : GPIO) : GPIO :=
  mkGPIO (chip g) (width g) (_portInputState g) x (_portMode g) (_portPullup g) (_portInUse g) (requestBlock g).
Definition with_mode (x : Z) (g : GPIO) : GPIO :=
  mkGPIO (chip g) (width g) (_portInputState g) (_portOutputState g) x (_portPullup g) (_portInUse g) (requestBlock g).
Definition with_pullup (x : Z) (g : GPIO) : GPIO :=
  mkGPIO (chip g) (width g) (_portInputState g) (_portOutputState g) (_portMode g) x (_portInUse g) (requestBlock g).
Definition with_inUse (x : Z) (g : GPIO) : GPIO :=
  mkGPIO (chip g) (width g) (_portInputState g) (_portOutputState g) (_portMode g) (_portPullup g) x (requestBlock g).
Definition set_rb (x : I2CRB) (g : GPIO) : GPIO :=
  mkGPIO (chip g) (width g) (_portInputState g) (_portOutputState g) (_portMode g) (_portPullup g) (_portInUse g) x.

Notation P := (Obj GPIO).

Definition width_of (c : Chip) : Z :=
  match c with MCP23017 | PCF8575 | PCA9555 | XL9535 => 16 | MCP23008 | PCF8574 | PCA9554 => 8 end.
(** The conversion to the type T. *)
Definition trunc (w z : Z) : Z := z mod 2 ^ w.
Definition bits_of (z : Z) : list Z := [z; z >>' 8].

(** ** The functions of the chips *)

Definition i2c (bytes : list Z) : M P unit := let! o := mget id in i2c_write (_I2CAddress (base o)) bytes.

(** A byte of a buffer that the bus has filled, and two bytes as a port. *)
Definition byte_at (buffer : list Z) (i : nat) : Z := u8 (default 0 (buffer !! i)).
Definition word_at (buffer : list Z) : Z := (byte_at buffer 1 <<' 8) .| byte_at buffer 0.

(** A read of the port at once: the request, and what the chip makes of its bytes. *)
Definition read_now (register : list Z) (count : Z) (input : GPIO → list Z → Z) : M P unit :=
  let! o := mget id in
  let! buffer := i2c_read (_I2CAddress (base o)) register count in
  with_own (λ g, with_input (input g buffer) g).
(** A read that is started with the request block. *)
Definition read_later : M P unit := wait requestBlock set_rb ;;; queueRequest requestBlock set_rb.
(** The completion of such a read. *)
Definition completed (status failed : Z) (input : GPIO → list Z → Z) : M P unit :=
  with_own (λ g, with_input (if status =? I2C_STATUS_OK then input g (rb_in (requestBlock g)) else failed) g).

(** *** MCP23017 *)
Definition MCP23017_writeGpioPort : M P unit := let! g := mget own in i2c (0x12 :: bits_of (_portOutputState g)).
Definition MCP23017_writePullups : M P unit :=
  let! g := mget own in i2c (0x0C :: bits_of (_portPullup g .& _portInUse g)).
Definition MCP23017_writePortModes : M P unit :=
  let! g := mget own in
  i2c (0x00 :: bits_of (u16 (Z.lnot (_portMode g .& _portInUse g)))) ;;;
  i2c [0x08; 0x00; 0x00] ;;;
  i2c (0x04 :: bits_of (u16 (Z.lnot (_portMode g) .& _portInUse g))).
Definition MCP23017_input (g : GPIO) (buffer : list Z) : Z := word_at buffer .| _portMode g.
Definition MCP23017_readGpioPort (immediate : bool) : M P unit :=
  if immediate then read_now [0x12] 2 MCP23017_input else read_later.
Definition MCP23017_processCompletion (status : Z) : M P unit := completed status 0xffff MCP23017_input.
Definition MCP23017_setupDevice : M P unit :=
  i2c [0x0A; 0x44] ;;; MCP23017_writePortModes ;;; MCP23017_writePullups ;;; MCP23017_writeGpioPort.

(** *** MCP23008 *)
Definition MCP23008_writeGpioPort : M P unit := let! g := mget own in i2c [0x09; _portOutputState g].
Definition MCP23008_writePullups : M P unit := let! g := mget own in i2c [0x06; _portPullup g .& _portInUse g].
Definition MCP23008_writePortModes : M P unit :=
  let! g := mget own in
  i2c [0x00; u8 (Z.lnot (_portMode g .& _portInUse g))] ;;;
  i2c [0x04; 0x00] ;;;
  i2c [0x02; u8 (Z.lnot (_portMode g) .& _portInUse g)].
Definition MCP23008_input (g : GPIO) (buffer : list Z) : Z := byte_at buffer 0 .| _portMode g.
Definition MCP23008_readGpioPort (immediate : bool) : M P unit :=
  if immediate then read_now [0x09] 1 MCP23008_input else read_later.
Definition MCP23008_processCompletion (status : Z) : M P unit := completed status 0xff MCP23008_input.
Definition MCP23008_setupDevice : M P unit :=
  i2c [0x05; 0x04] ;;; MCP23008_writePortModes ;;; MCP23008_writePullups ;;; MCP23008_writeGpioPort.

(** *** PCF8574: a pin is an input when its output is driven to 1 *)
Definition PCF8574_writeGpioPort : M P unit :=
  let! g := mget own in i2c [(_portOutputState g .| Z.lnot (_portMode g)) .& _portInUse g].
Definition PCF8574_writePullups : M P unit := mreturn tt.
Definition PCF8574_writePortModes : M P unit := PCF8574_writeGpioPort.
Definition PCF8574_input (g : GPIO) (buffer : list Z) : Z := byte_at buffer 0 .| _portMode g.
Definition PCF8574_readGpioPort (immediate : bool) : M P unit :=
  if immediate then read_now [] 1 PCF8574_input else read_later.
Definition PCF8574_processCompletion (status : Z) : M P unit := completed status 0xff PCF8574_input.
Definition PCF8574_setupDevice : M P unit := PCF8574_writePortModes.

(** *** PCF8575 *)
Definition PCF8575_writeGpioPort : M P unit :=
  let! g := mget own in i2c (bits_of (u16 ((_portOutputState g .| Z.lnot (_portMode g)) .& _portInUse g))).
Definition PCF8575_writePullups : M P unit := mreturn tt.
Definition PCF8575_writePortModes : M P unit := PCF8575_writeGpioPort.
Definition PCF8575_input (g : GPIO) (buffer : list Z) : Z := word_at buffer .| _portMode g.
Definition PCF8575_readGpioPort (immediate : bool) : M P unit :=
  if immediate then read_now [] 2 PCF8575_input else read_later.
Definition PCF8575_processCompletion (status : Z) : M P unit := completed status 0xffff PCF8575_input.
Definition PCF8575_setupDevice : M P unit :=
  PCF8575_writePortModes ;;; PCF8575_writeGpioPort ;;; PCF8575_writePullups.

(** *** PCA9554 *)
Definition PCA9554_writeGpioPort : M P unit := let! g := mget own in i2c [0x01; _portOutputState g].
Definition PCA9554_writePullups : M P unit := mreturn tt.
Definition PCA9554_writePortModes : M P unit :=
  let! g := mget own in i2c [0x03; u8 (Z.lnot (_portMode g .& _portInUse g))].
Definition PCA9554_input (g : GPIO) (buffer : list Z) : Z := byte_at buffer 0.
Definition PCA9554_readGpioPort (immediate : bool) : M P unit :=
  if immediate then read_now [0x00] 1 PCA9554_input else read_later.
Definition PCA9554_processCompletion (status : Z) : M P unit := completed status 0xff PCA9554_input.
Definition PCA9554_setupDevice : M P unit :=
  PCA9554_writePortModes ;;; PCA9554_writePullups ;;; PCA9554_writeGpioPort.

(** *** PCA9555 *)
Definition PCA9555_writeGpioPort : M P unit := let! g := mget own in i2c (0x02 :: bits_of (_portOutputState g)).
Definition PCA9555_writePullups : M P unit := mreturn tt.
Definition PCA9555_writePortModes : M P unit :=
  let! g := mget own in i2c (0x06 :: bits_of (u16 (Z.lnot (_portMode g .& _portInUse g)))).
Definition PCA9555_input (g : GPIO) (buffer : list Z) : Z := word_at buffer.
Definition PCA9555_readGpioPort (immediate : bool) : M P unit :=
  if immediate then read_now [0x00] 2 PCA9555_input else read_later.
Definition PCA9555_processCompletion (status : Z) : M P unit := completed status 0xffff PCA9555_input.
Definition PCA9555_setupDevice : M P unit :=
  PCA9555_writePortModes ;;; PCA9555_writePullups ;;; PCA9555_writeGpioPort.

(** *** XL9535: a board of relays, which has outputs only *)
Definition XL9535_writeGpioPort : M P unit := let! g := mget own in i2c (0x02 :: bits_of (_portOutputState g)).
Definition XL9535_writePullups : M P unit := mreturn tt.
Definition XL9535_writePortModes : M P unit := i2c [0x06; 0; 0].
Definition XL9535_readGpioPort (immediate : bool) : M P unit := with_own (λ g, with_input (_portOutputState g) g).
Definition XL9535_setupDevice : M P unit := XL9535_writeGpioPort.

(** *** The virtual functions: those of GPIOBase while the object has no chip, of which two are
    pure and the others empty *)

Definition _writeGpioPort : M P unit :=
  let! g := mget own in
  match chip g with
  | None => mfail
  | Some MCP23017 => MCP23017_writeGpioPort
  | Some MCP23008 => MCP23008_writeGpioPort
  | Some PCF8574 => PCF8574_writeGpioPort
  | Some PCF8575 => PCF8575_writeGpioPort
  | Some PCA9554 => PCA9554_writeGpioPort
  | Some PCA9555 => PCA9555_writeGpioPort
  | Some XL9535 => XL9535_writeGpioPort
  end.

Definition _writePullups : M P unit :=
  let! g := mget own in
  match chip g with
  | None => mreturn tt
  | Some MCP23017 => MCP23017_writePullups
  | Some MCP23008 => MCP23008_writePullups
  | Some PCF8574 => PCF8574_writePullups
  | Some PCF8575 => PCF8575_writePullups
  | Some PCA9554 => PCA9554_writePullups
  | Some PCA9555 => PCA9555_writePullups
  | Some XL9535 => XL9535_writePullups
  end.

Definition _writePortModes : M P unit :=
  let! g := mget own in
  match chip g with
  | None => mreturn tt
  | Some MCP23017 => MCP23017_writePortModes
  | Some MCP23008 => MCP23008_writePortModes
  | Some PCF8574 => PCF8574_writePortModes
  | Some PCF8575 => PCF8575_writePortModes
  | Some PCA9554 => PCA9554_writePortModes
  | Some PCA9555 => PCA9555_writePortModes
  | Some XL9535 => XL9535_writePortModes
  end.

Definition _readGpioPort (immediate : bool) : M P unit :=
  let! g := mget own in
  match chip g with
  | None => mfail
  | Some MCP23017 => MCP23017_readGpioPort immediate
  | Some MCP23008 => MCP23008_readGpioPort immediate
  | Some PCF8574 => PCF8574_readGpioPort immediate
  | Some PCF8575 => PCF8575_readGpioPort immediate
  | Some PCA9554 => PCA9554_readGpioPort immediate
  | Some PCA9555 => PCA9555_readGpioPort immediate
  | Some XL9535 => XL9535_readGpioPort immediate
  end.

Definition _processCompletion (status : Z) : M P unit :=
  let! g := mget own in
  match chip g with
  | None | Some XL9535 => mreturn tt
  | Some MCP23017 => MCP23017_processCompletion status
  | Some MCP23008 => MCP23008_processCompletion status
  | Some PCF8574 => PCF8574_processCompletion status
  | Some PCF8575 => PCF8575_processCompletion status
  | Some PCA9554 => PCA9554_processCompletion status
  | Some PCA9555 => PCA9555_processCompletion status
  end.

Definition _setupDevice : M P unit :=
  let! g := mget own in
  match chip g with
  | None => mreturn tt
  | Some MCP23017 => MCP23017_setupDevice
  | Some MCP23008 => MCP23008_setupDevice
  | Some PCF8574 => PCF8574_setupDevice
  | Some PCF8575 => PCF8575_setupDevice
  | Some PCA9554 => PCA9554_setupDevice
  | Some PCA9555 => PCA9555_setupDevice
  | Some XL9535 => XL9535_setupDevice
  end.

Create HintDb chips.
#[export] Hint Unfold MCP23017_writeGpioPort MCP23017_writePullups MCP23017_writePortModes MCP23017_readGpioPort
  MCP23017_processCompletion MCP23017_setupDevice MCP23008_writeGpioPort MCP23008_writePullups MCP23008_writePortModes
  MCP23008_readGpioPort MCP23008_processCompletion MCP23008_setupDevice PCF8574_writeGpioPort PCF8574_writePullups
  PCF8574_writePortModes PCF8574_readGpioPort PCF8574_processCompletion PCF8574_setupDevice PCF8575_writeGpioPort
  PCF8575_writePullups PCF8575_writePortModes PCF8575_readGpioPort PCF8575_processCompletion PCF8575_setupDevice
  PCA9554_writeGpioPort PCA9554_writePullups PCA9554_writePortModes PCA9554_readGpioPort PCA9554_processCompletion
  PCA9554_setupDevice PCA9555_writeGpioPort PCA9555_writePullups PCA9555_writePortModes PCA9555_readGpioPort
  PCA9555_processCompletion PCA9555_setupDevice XL9535_writeGpioPort XL9535_writePullups XL9535_writePortModes
  XL9535_readGpioPort XL9535_setupDevice read_now read_later completed : chips.

(** ** The functions of GPIOBase *)

Definition GPIO_base (firstVpin nPins i2cAddress interruptPin w : Z) : Base :=
  with__hasCallback true (with__gpioInterruptPin (i16 interruptPin) (with__I2CAddress i2cAddress
    (newBase firstVpin (if w <? u8 nPins then w else u8 nPins)))).
(** The object when the constructor of the base class adds it: its ports hold what was in
    their memory. *)
Definition under_construction (w input output mode pullup inUse : Z) : GPIO :=
  mkGPIO None w input output mode pullup inUse (setReadParams 0).
(** The rest of that constructor. *)
Definition ports_reset : M P unit :=
  with_own (λ g, mkGPIO (chip g) (width g) (Z.ones (width g)) (_portOutputState g) 0 (Z.ones (width g)) 0 (requestBlock g)).
(** The constructor of the chip: the object is now of its class; its request block reads from a
    register, or just reads. *)
Definition becomes (c : Chip) : M P unit :=
  with_own (λ g, mkGPIO (Some c) (width g) (_portInputState g) (_portOutputState g) (_portMode g) (_portPullup g) (_portInUse g) (requestBlock g)).
Definition MCP23017_constructor : M P unit := becomes MCP23017 ;;; with_own (set_rb (mkI2CRB I2C_STATUS_OK [0x12] [] 2)).
Definition MCP23008_constructor : M P unit := becomes MCP23008 ;;; with_own (set_rb (mkI2CRB I2C_STATUS_OK [0x09] [] 1)).
Definition PCF8574_constructor (initPortState : Z) : M P unit :=
  becomes PCF8574 ;;; with_own (set_rb (setReadParams 1)) ;;;
  when 0 <=? initPortState do
    (with_own (λ g, with_output (u8 initPortState) (with_inUse 255 (with_mode 255 g))) ;;; i2c [initPortState]).
Definition PCF8575_constructor : M P unit := becomes PCF8575 ;;; with_own (set_rb (setReadParams 2)).
Definition PCA9554_constructor : M P unit := becomes PCA9554 ;;; with_own (set_rb (mkI2CRB I2C_STATUS_OK [0x00] [] 1)).
Definition PCA9555_constructor : M P unit := becomes PCA9555 ;;; with_own (set_rb (mkI2CRB I2C_STATUS_OK [0x00] [] 2)).
Definition XL9535_constructor : M P unit := becomes XL9535.
Definition constructed (c : Chip) (initPortState : Z) : M P unit :=
  ports_reset ;;;
  match c with
  | MCP23017 => MCP23017_constructor
  | MCP23008 => MCP23008_constructor
  | PCF8574 => PCF8574_constructor initPortState
  | PCF8575 => PCF8575_constructor
  | PCA9554 => PCA9554_constructor
  | PCA9555 => PCA9555_constructor
  | XL9535 => XL9535_constructor
  end.

Definition _begin : M P unit :=
  let! o := mget id in
  (when 0 <=? _gpioInterruptPin (base o) do pinMode (_gpioInterruptPin (base o)) INPUT_PULLUP) ;;;
  log I2C_begin ;;; log (I2C_setClock 400000) ;;;
  let! there := i2c_exists (_I2CAddress (base o)) in
  if there then _setupDevice ;;; setState DEVSTATE_NORMAL else setState DEVSTATE_FAILED.

Definition pin_of (vpin : Z) (b : Base) : Z := i16 (vpin - _firstVpin b).
(** [T mask = 1 << pin]; a shift by no count of bits of an int is a failure. *)
Definition mask_for (w pin : Z) : M P Z :=
  if (pin <? 0) || (16 <=? pin) then mfail else mreturn (trunc w (1 <<' pin)).

Definition _configure (vpin : Z) (configType : ConfigTypeEnum) (params : list Z) : M P bool :=
  match configType, params with
  | CONFIGURE_INPUT, [param] =>
      let! o := mget id in
      let! mask := mask_for 16 (pin_of vpin (base o)) in
      with_own (λ g, with_mode (clear_bits (_portMode g) mask)
                       (with_inUse (trunc (width g) (set_bits (_portInUse g) mask))
                         (with_pullup (if tru param then trunc (width g) (set_bits (_portPullup g) mask)
                                       else clear_bits (_portPullup g) mask) g))) ;;;
      _writePortModes ;;; _writePullups ;;; mreturn true
  | _, _ => mreturn false
  end.

(** Unused pins and pins in write mode read as 1. *)
Definition settle (g : GPIO) : GPIO :=
  with_input (trunc (width g) (_portInputState g .| (Z.lnot (_portInUse g) .| _portMode g))) g.

(** The scan of the differences, bit by bit; [mask] is shifted in the type T. *)
Definition notify_pin (differences state w pin : Z) : M P unit :=
  let mask := trunc w (1 <<' pin) in
  let! o := mget id in
  when tru (differences .& mask) do invokeAll (u16 (_firstVpin (base o) + pin)) (b2z (state .& mask =? 0)).

(** The first half of _loop: a scan that has been completed. *)
Definition finish_scan : M P unit :=
  let! o := mget id in
  let lastPortStates := _portInputState (own o) in
  when bool_decide (_deviceState (base o) = DEVSTATE_SCANNING) && negb (isBusyRB (requestBlock (own o))) do
    (let status := rb_status (requestBlock (own o)) in
     setState (if status =? I2C_STATUS_OK then DEVSTATE_NORMAL else DEVSTATE_FAILED) ;;;
     _processCompletion status ;;;
     with_own settle ;;;
     let! o := mget id in
     let differences := lastPortStates .^ _portInputState (own o) in
     let! cb := hasCallbacks in
     when tru differences && cb do
       mfor (rangeZ 0 (_nPins (base o))) (notify_pin differences (_portInputState (own o)) (width (own o)))).

(** The second half: a new scan is started if no interrupt pin is configured, or it is active. *)
Definition begin_scan : M P unit :=
  let! o := mget id in
  when (_gpioInterruptPin (base o) <? 0) || negb (levels (bus o) (u8 (_gpioInterruptPin (base o)))) do
    (when bool_decide (_deviceState (base o) = DEVSTATE_NORMAL) do
       (_readGpioPort false ;;; setState DEVSTATE_SCANNING)).

Definition _portTickTime : Z := 4000.
Definition _loop (currentMicros : Z) : M P unit :=
  finish_scan ;;; begin_scan ;;; delayUntil (currentMicros + _portTickTime).

Definition _write (vpin value : Z) : M P unit :=
  let! o := mget id in
  let! mask := mask_for (width (own o)) (pin_of vpin (base o)) in
  (when negb (tru (_portMode (own o) .& mask)) do
     (with_own (λ g, with_mode (set_bits (_portMode g) mask) (with_inUse (set_bits (_portInUse g) mask) g)) ;;;
      _writePortModes)) ;;;
  with_own (λ g, with_output (if tru value then set_bits (_portOutputState g) mask
                              else clear_bits (_portOutputState g) mask) g) ;;;
  _writeGpioPort.

Definition _read (vpin : Z) : M P Z :=
  let! o := mget id in
  let! mask := mask_for (width (own o)) (pin_of vpin (base o)) in
  (when tru ((_portMode (own o) .| Z.lnot (_portInUse (own o))) .& mask) do
     (with_own (λ g, with_inUse (set_bits (_portInUse g) mask) (with_mode (clear_bits (_portMode g) mask) g)) ;;;
      _writePullups ;;; _writePortModes ;;; _readGpioPort true ;;; with_own settle)) ;;;
  let! g := mget own in
  mreturn (if tru (_portInputState g .& mask) then 0 else 1).

End GPIOBase.
