(* ===== verification/Bitmap.v ===== *)
(** Virtual pins without hardware (src/IO_Bitmap.h). *)

From S2P Require Import Prelude Chain IODevice ArduinoPins.

#[local] Open Scope Z_scope.
#[local] Open Scope c_scope.

Module Bitmap.
Import IODevice.IODevice Bits.

(** [_pinValues] *)
Definition Bitmap : Type := list Z.
Notation P := (Obj Bitmap).

Definition new_Bitmap (nPins : Z) : Bitmap := replicate (Z.to_nat nPins) 0.
Definition _begin : M P unit := setState DEVSTATE_NORMAL.

(** [_pinValues[vpin - _firstVpin]] *)
Definition value_at (vpin : Z) : M P Z := let! o := mget id in geta (own o) (i16 (vpin - _firstVpin (base o))).
Definition set_value (vpin value : Z) : M P unit :=
  let! o := mget id in
  let! _ := value_at vpin in
  put_own (seta (own o) (i16 (vpin - _firstVpin (base o))) value).

Definition _read (vpin : Z) : M P Z := let! v := value_at vpin in mreturn (b2z (tru v)).
Definition _write (vpin value : Z) : M P unit := set_value vpin (b2z (tru value)).
Definition _readAnalogue (vpin : Z) : M P Z := value_at vpin.
Definition _writeAnalogue (vpin value : Z) : M P unit := set_value vpin (i16 value).

End Bitmap.
