(* ===== verification/DCCAccessory.v ===== *)
(** DCC accessory decoders as pins (src/IO_DCCAccessory.cpp, DCC.h for the packed address). *)

From S2P Require Import Prelude Chain IODevice.

#[local] Open Scope Z_scope.
#[local] Open Scope c_scope.

Module DCCAccessory.
Import IODevice.IODevice.

(** [_packedAddress] *)
Definition DCCAccessoryDecoder : Type := Z.
Notation P := (Obj DCCAccessoryDecoder).

Definition PACKEDADDRESS (addr subaddr : Z) : Z := i16 (i16 (addr <<' 2) + subaddr).
Definition ADDRESS (packedaddr : Z) : Z := packedaddr >>' 2.
Definition SUBADDRESS (packedaddr : Z) : Z := Z.rem packedaddr 4.

(** The port and the address as the parameters of DCC::setAccessory, int and byte. *)
Definition _write (vpin state : Z) : M P unit :=
  let! o := mget id in
  let packedAddress := i16 (own o + vpin - _firstVpin (base o)) in
  log (SetAccessory (ADDRESS packedAddress) (u8 (SUBADDRESS packedAddress)) (tru state)).

End DCCAccessory.
