(* ===== verification/NeoPixel.v ===== *)
(** Strips of coloured lamps behind a Seesaw chip (src/IO_NeoPixel.h). *)

From S2P Require Import Prelude Chain IODevice ArduinoPins.

#[local] Open Scope Z_scope.
#[local] Open Scope c_scope.

Module NeoPixel.
Import IODevice.IODevice Bits.

Record RGB := mkRGB { red : Z; green : Z; blue : Z }.
#[export] Instance RGB_eq : EqDecision RGB.
Proof. solve_decision. Defined.

Record NeoPixel := mkNeoPixel {
  pixelBuffer : list RGB;
  stateBuffer : list Z;       (* a bit for each pixel *)
  _showPendimg : bool;
  _bytesPerPixel : Z;
  _redOffset : Z; _greenOffset : Z; _blueOffset : Z; _whiteOffset : Z;
  _kHz800 : bool
}.
Notation P := (Obj NeoPixel).

Definition SEESAW_NEOPIXEL_BASE : Z := 0x0E.
Definition SEESAW_NEOPIXEL_PIN : Z := 0x01.
Definition SEESAW_NEOPIXEL_SPEED : Z := 0x02.
Definition SEESAW_NEOPIXEL_BUF_LENGTH : Z := 0x03.
Definition SEESAW_NEOPIXEL_BUF : Z := 0x04.
Definition SEESAW_NEOPIXEL_SHOW : Z := 0x05.
Definition SEESAW_PIN15 : Z := 15.
Definition NEO_KHZ400 : Z := 0x0100.

(** The constructor: the mode of the strip gives the place of each colour. *)
Definition new_NeoPixel (nPins mode : Z) : NeoPixel :=
  let red := 4 + ((mode >>' 4) .& 3) in
  let white := 4 + ((mode >>' 6) .& 3) in
  mkNeoPixel (replicate (Z.to_nat nPins) (mkRGB 0xff 0xff 0xff)) (replicate (Z.to_nat (Z.quot (nPins + 7) 8)) 0) false
    (if white =? red then 3 else 4) red (4 + ((mode >>' 2) .& 3)) (4 + (mode .& 3)) white (mode .& NEO_KHZ400 =? 0).

Definition i2c (bytes : list Z) : M P unit := let! o := mget id in i2c_write (_I2CAddress (base o)) bytes.

Definition with_pixels (l : list RGB) (n : NeoPixel) : NeoPixel :=
  mkNeoPixel l (stateBuffer n) (_showPendimg n) (_bytesPerPixel n) (_redOffset n) (_greenOffset n) (_blueOffset n) (_whiteOffset n) (_kHz800 n).
Definition with_states (l : list Z) (n : NeoPixel) : NeoPixel :=
  mkNeoPixel (pixelBuffer n) l (_showPendimg n) (_bytesPerPixel n) (_redOffset n) (_greenOffset n) (_blueOffset n) (_whiteOffset n) (_kHz800 n).
Definition with_pending (b : bool) (n : NeoPixel) : NeoPixel :=
  mkNeoPixel (pixelBuffer n) (stateBuffer n) b (_bytesPerPixel n) (_redOffset n) (_greenOffset n) (_blueOffset n) (_whiteOffset n) (_kHz800 n).

(** The bit of a pixel in its byte. *)
Definition pixel_mask (pixel : Z) : Z := 0x80 >>' (pixel mod 8).
Definition isPixelOn (pixel : Z) : M P bool :=
  let! n := mget own in let! b := geta (stateBuffer n) (Z.quot pixel 8) in mreturn (tru (b .& pixel_mask pixel)).
Definition set_state (f : Z → Z → Z) (pixel : Z) : M P unit :=
  let! n := mget own in let! b := geta (stateBuffer n) (Z.quot pixel 8) in
  put_own (with_states (seta (stateBuffer n) (Z.quot pixel 8) (f b (pixel_mask pixel))) n).
Definition setPixelOn : Z → M P unit := set_state set_bits.
Definition setPixelOff : Z → M P unit := set_state clear_bits.

(** The buffer that is sent for a pixel of a colour: eight bytes, of which the first
    [4 + _bytesPerPixel] are used. *)
Definition coloured (n : NeoPixel) (colour : RGB) (buffer : list Z) : list Z :=
  if (_bytesPerPixel n =? 4) && (red colour =? blue colour) && (red colour =? green colour)
  then seta buffer (_whiteOffset n) (red colour)
  else seta (seta (seta buffer (_redOffset n) (red colour)) (_greenOffset n) (green colour)) (_blueOffset n) (blue colour).
Definition transmit (pixel : Z) : M P unit :=
  let! n := mget own in
  let offset := u16 (pixel * _bytesPerPixel n) in
  let buffer := [SEESAW_NEOPIXEL_BASE; SEESAW_NEOPIXEL_BUF; highByte offset; lowByte offset; 0; 0; 0; 0] in
  let! on := isPixelOn pixel in
  let! buffer := (if on then let! c := geta (pixelBuffer n) pixel in mreturn (coloured n c buffer) else mreturn buffer) in
  i2c (take (Z.to_nat (4 + _bytesPerPixel n)) buffer) ;;;
  with_own (with_pending true).

Definition _begin : M P unit :=
  log I2C_begin ;;;
  let! o := mget id in
  let! there := i2c_exists (_I2CAddress (base o)) in
  if negb there then setState DEVSTATE_FAILED
  else
    i2c [SEESAW_NEOPIXEL_BASE; SEESAW_NEOPIXEL_SPEED; b2z (_kHz800 (own o))] ;;;
    let numBytes := _bytesPerPixel (own o) * _nPins (base o) in
    i2c [SEESAW_NEOPIXEL_BASE; SEESAW_NEOPIXEL_BUF_LENGTH; numBytes >>' 8; numBytes .& 0xff] ;;;
    i2c [SEESAW_NEOPIXEL_BASE; SEESAW_NEOPIXEL_PIN; SEESAW_PIN15] ;;;
    mfor (rangeZ 0 (_nPins (base o))) transmit.

Definition _loop : M P unit :=
  let! n := mget own in
  when _showPendimg n do
    (i2c [SEESAW_NEOPIXEL_BASE; SEESAW_NEOPIXEL_SHOW] ;;; with_own (with_pending false)).

(** Nothing is done when the device has failed. *)
Definition unless_failed {A} (a : A) (m : M P A) : M P A :=
  let! o := mget id in
  if bool_decide (_deviceState (base o) = DEVSTATE_FAILED) then mreturn a else m.
Definition pixel_of (vpin : Z) (b : Base) : Z := u16 (vpin - _firstVpin b).

Definition _read (vpin : Z) : M P Z :=
  unless_failed 0 (let! o := mget id in let! on := isPixelOn (pixel_of vpin (base o)) in mreturn (b2z on)).

Definition _write (vpin value : Z) : M P unit :=
  unless_failed tt (
    let! o := mget id in
    let pixel := pixel_of vpin (base o) in
    let! on := isPixelOn pixel in
    if Bool.eqb on (tru value) then mreturn tt
    else (if tru value then setPixelOn pixel else setPixelOff pixel) ;;; transmit pixel).

Definition _writeAnalogue (vpin colour_RG onoff colour_B : Z) : M P unit :=
  unless_failed tt (
    let! o := mget id in
    let newColour := mkRGB (u8 (colour_RG >>' 8)) (u8 colour_RG) (u8 colour_B) in
    let pixel := pixel_of vpin (base o) in
    let! old := geta (pixelBuffer (own o)) pixel in
    let! on := isPixelOn pixel in
    if bool_decide (old = newColour) && Bool.eqb on (tru onoff) then mreturn tt
    else
      (if tru onoff then setPixelOn pixel else setPixelOff pixel) ;;;
      with_own (λ n, with_pixels (seta (pixelBuffer n) pixel newColour) n) ;;;
      transmit pixel).

(** Both ranges: as many pins as the strip has, at most, are written from [vpin] on. The loop is
    skipped when the end wraps around. *)
Definition range (write : Z → M P unit) (vpin count : Z) : M P Z :=
  let! o := mget id in
  let nextVpin := u16 (vpin + if _nPins (base o) <? count then _nPins (base o) else count) in
  unless_failed tt (mfor (rangeZ vpin (nextVpin - vpin)) write) ;;;
  mreturn nextVpin.
Definition _writeRange (vpin value count : Z) : M P Z := range (λ v, _write v value) vpin count.
Definition _writeAnalogueRange (vpin colour_RG onoff colour_B count : Z) : M P Z :=
  range (λ v, _writeAnalogue v colour_RG onoff colour_B) vpin count.

End NeoPixel.
