(* ===== verification/Drivers.v ===== *)
(** The devices put together: the objects of the classes that inherit from IODevice, what each
    virtual function is for each of them, their creation, the servos that sit on top of
    other devices (src/IO_Servo.h), and the devices made at the start (IODevice::begin). *)

From S2P Require Import Prelude Chain IODevice ArduinoPins PCA9685 GPIOBase Bitmap DCCAccessory NeoPixel.

#[local] Open Scope Z_scope.
#[local] Open Scope c_scope.

Module Drivers.
Import IODevice.IODevice Bits ServoData.

(** A servo on the pins of another device. *)
Record Servo := mkServo { _firstSlavePin : Z; _slaveDevice : option ptr; _servoData : list (option ServoData) }.

Inductive driver :=
  | DArduinoPins (x : ArduinoPins.ArduinoPins)
  | DPCA9685 (x : PCA9685.PCA9685)
  | DGPIO (x : GPIOBase.GPIO)
  | DBitmap (x : Bitmap.Bitmap)
  | DDCCAccessory (x : DCCAccessory.DCCAccessoryDecoder)
  | DNeoPixel (x : NeoPixel.NeoPixel)
  | DServo (x : Servo).

Notation H := (HAL driver).

(** The object at [p], and a function of its class. *)
Definition object (p : ptr) : M H (Device driver) := getDevice p.
Notation on inj p d x m := (run_own inj p (dbase d) x m).

(** ** _writeAnalogue, that of a servo included *)

Definition servo_put (pin : Z) (s : ServoData) : M (Obj Servo) unit :=
  with_own (λ x, mkServo (_firstSlavePin x) (_slaveDevice x) (seta (_servoData x) pin (Some s))).
Definition servo_get (pin : Z) : M (Obj Servo) (option ServoData) := let! x := mget own in geta (_servoData x) pin.

Definition servo_writeAnalogue (vpin value profile duration : Z) : M (Obj Servo) unit :=
  let! o := mget id in
  if bool_decide (_deviceState (base o) = DEVSTATE_FAILED) then mreturn tt
  else
    let pin := i16 (vpin - _firstVpin (base o)) in
    let value := clamp value in
    let! s := servo_get pin in
    servo_put pin (start value profile duration (default (default_data value) s)).

#[export] Instance writeAnalogue_drivers : WriteAnalogue driver := λ p vpin value param1 param2,
  let! d := object p in
  match drv d with
  | DPCA9685 x => on DPCA9685 p d x (PCA9685._writeAnalogue vpin value param1 param2)
  | DBitmap x => on DBitmap p d x (Bitmap._writeAnalogue vpin value)
  | DNeoPixel x => on DNeoPixel p d x (NeoPixel._writeAnalogue vpin value param1 param2)
  | DServo x => on DServo p d x (servo_writeAnalogue vpin value param1 param2)
  | DArduinoPins _ | DGPIO _ | DDCCAccessory _ => mreturn tt
  end.

(** ** The other functions of a servo: they go through the layer *)

Definition servo_write (p : ptr) (d : Device driver) (x : Servo) (vpin value : Z) : M H unit :=
  if bool_decide (_deviceState (dbase d) = DEVSTATE_FAILED) then mreturn tt
  else
    let! s := geta (_servoData x) (i16 (vpin - _firstVpin (dbase d))) in
    match s with
    | Some s => writeAnalogue vpin (if tru value then activePosition s else inactivePosition s) (profile s) (duration s)
    | None => writeAnalogue vpin (if tru value then 4095 else 0) (Instant .| NoPowerOff) 0
    end.

Definition servo_configure (p : ptr) (d : Device driver) (x : Servo) (vpin : Z)
    (configType : ConfigTypeEnum) (params : list Z) : M H bool :=
  if bool_decide (_deviceState (dbase d) = DEVSTATE_FAILED) then mreturn false
  else match configType, params with
  | CONFIGURE_SERVO, [active; inactive; prof; dur; state] =>
      let pin := i8 (vpin - _firstVpin (dbase d)) in
      let! s := geta (_servoData x) pin in
      let s := with_duration (u16 dur) (with_profile (u8 prof) (with_inactivePosition (u12 inactive)
                 (with_activePosition (u12 active) (default no_data s)))) in
      on DServo p d x (servo_put pin s) ;;;
      (when negb (state =? -1) do
        writeAnalogue vpin (if tru state then activePosition s else inactivePosition s) 0 0) ;;;
      mreturn true
  | _, _ => mreturn false
  end.

Definition servo_read (d : Device driver) (x : Servo) (vpin : Z) : M H Z :=
  if bool_decide (_deviceState (dbase d) = DEVSTATE_FAILED) then mreturn 0
  else let! s := geta (_servoData x) (i16 (vpin - _firstVpin (dbase d))) in mreturn (b2z (busy s)).

(** updatePosition: the position goes to the device below. *)
Definition servo_updatePin (p : ptr) (pin : Z) : M H unit :=
  let! d := object p in
  match drv d with
  | DServo x =>
      let! s := geta (_servoData x) pin in
      match s with
      | None => mreturn tt
      | Some s =>
          let! r := mlift (updatePosition s) in
          on DServo p d x (servo_put pin r.1) ;;;
          match r.2 with
          | Some value => let! q := mlift (_slaveDevice x) in _writeAnalogue q (u16 (_firstSlavePin x + pin)) value 0 0
          | None => mreturn tt
          end
      end
  | _ => mfail
  end.
Definition servo_loop (p : ptr) (d : Device driver) (currentMicros : Z) : M H unit :=
  if bool_decide (_deviceState (dbase d) = DEVSTATE_FAILED) then mreturn tt
  else
    mfor (rangeZ 0 (_nPins (dbase d))) (servo_updatePin p) ;;;
    modBase p (with__nextEntryTime (u32 (currentMicros + 50 * 1000))).

(** ** What each class does; what it does not override is that of IODevice *)

Definition begin_drivers (p : ptr) : M H unit :=
  let! d := object p in
  match drv d with
  | DPCA9685 x => on DPCA9685 p d x PCA9685._begin
  | DGPIO x => on DGPIO p d x GPIOBase._begin
  | DBitmap x => on DBitmap p d x Bitmap._begin
  | DNeoPixel x => on DNeoPixel p d x NeoPixel._begin
  | DArduinoPins _ | DDCCAccessory _ | DServo _ => mreturn tt
  end.

Definition configure_drivers (p : ptr) (vpin : Z) (t : ConfigTypeEnum) (params : list Z) : M H bool :=
  let! d := object p in
  match drv d with
  | DArduinoPins x => on DArduinoPins p d x (ArduinoPins._configure vpin t params)
  | DPCA9685 x => on DPCA9685 p d x (PCA9685._configure vpin t params)
  | DGPIO x => on DGPIO p d x (GPIOBase._configure vpin t params)
  | DServo x => servo_configure p d x vpin t params
  | DBitmap _ | DDCCAccessory _ | DNeoPixel _ => mreturn false
  end.

Definition write_drivers (p : ptr) (vpin value : Z) : M H unit :=
  let! d := object p in
  match drv d with
  | DArduinoPins x => on DArduinoPins p d x (ArduinoPins._write vpin value)
  | DPCA9685 x => on DPCA9685 p d x (PCA9685._write vpin value)
  | DGPIO x => on DGPIO p d x (GPIOBase._write vpin value)
  | DBitmap x => on DBitmap p d x (Bitmap._write vpin value)
  | DDCCAccessory x => on DDCCAccessory p d x (DCCAccessory._write vpin value)
  | DNeoPixel x => on DNeoPixel p d x (NeoPixel._write vpin value)
  | DServo x => servo_write p d x vpin value
  end.

Definition writeRange_drivers (p : ptr) (vpin value count : Z) : M H Z :=
  let! d := object p in
  match drv d with
  | DNeoPixel x => on DNeoPixel p d x (NeoPixel._writeRange vpin value count)
  | _ => write_drivers p vpin value ;;; mreturn (u16 (vpin + 1))
  end.
Definition writeAnalogueRange_drivers (p : ptr) (vpin value param1 param2 count : Z) : M H Z :=
  let! d := object p in
  match drv d with
  | DNeoPixel x => on DNeoPixel p d x (NeoPixel._writeAnalogueRange vpin value param1 param2 count)
  | _ => _writeAnalogue p vpin value param1 param2 ;;; mreturn (u16 (vpin + 1))
  end.

Definition read_drivers (p : ptr) (vpin : Z) : M H Z :=
  let! d := object p in
  match drv d with
  | DArduinoPins x => on DArduinoPins p d x (ArduinoPins._read vpin)
  | DPCA9685 x => on DPCA9685 p d x (PCA9685._read vpin)
  | DGPIO x => on DGPIO p d x (GPIOBase._read vpin)
  | DBitmap x => on DBitmap p d x (Bitmap._read vpin)
  | DNeoPixel x => on DNeoPixel p d x (NeoPixel._read vpin)
  | DServo x => servo_read d x vpin
  | DDCCAccessory _ => mreturn 0
  end.

Definition readAnalogue_drivers (p : ptr) (vpin : Z) : M H Z :=
  let! d := object p in
  match drv d with
  | DArduinoPins x => on DArduinoPins p d x (ArduinoPins._readAnalogue vpin)
  | DBitmap x => on DBitmap p d x (Bitmap._readAnalogue vpin)
  | _ => mreturn 0
  end.
Definition configureAnalogIn_drivers (p : ptr) (vpin : Z) : M H Z :=
  let! d := object p in
  match drv d with
  | DArduinoPins x => on DArduinoPins p d x (ArduinoPins._configureAnalogIn vpin)
  | _ => mreturn 0
  end.

Definition loop_drivers (p : ptr) (currentMicros : Z) : M H unit :=
  let! d := object p in
  match drv d with
  | DPCA9685 x => on DPCA9685 p d x (PCA9685._loop currentMicros)
  | DGPIO x => on DGPIO p d x (GPIOBase._loop currentMicros)
  | DNeoPixel x => on DNeoPixel p d x NeoPixel._loop
  | DServo _ => servo_loop p d currentMicros
  | DArduinoPins _ | DBitmap _ | DDCCAccessory _ => default_loop p currentMicros
  end.

#[export] Instance drivers : Driver driver := {|
  driver_writeAnalogue := writeAnalogue_drivers;
  _begin := begin_drivers; _configure := configure_drivers; _write := write_drivers;
  _writeRange := writeRange_drivers; _writeAnalogueRange := writeAnalogueRange_drivers;
  _read := read_drivers; _readAnalogue := readAnalogue_drivers;
  _configureAnalogIn := configureAnalogIn_drivers; _loop := loop_drivers
|}.

(** ** Creation *)

(** A statement of a constructor that follows the call of addDevice. *)
Definition rest {X} (proj : driver → option X) (inj : X → driver) (p : ptr) (m : M (Obj X) unit) : M H unit :=
  let! d := object p in
  match proj (drv d) with Some x => on inj p d x m | None => mfail end.

Definition create_ArduinoPins (firstVpin nPins : Z) : M H unit :=
  let! p := newDevice (ArduinoPins.ArduinoPins_base firstVpin nPins) (DArduinoPins (ArduinoPins.new_ArduinoPins nPins)) in
  addDevice p None.

Definition create_PCA9685 (firstVpin nPins i2cAddress frequency : Z) : M H unit :=
  let! ok := checkNoOverlap firstVpin nPins i2cAddress in
  when ok do (
    let! p := newDevice (PCA9685.PCA9685_base firstVpin nPins i2cAddress) (DPCA9685 (PCA9685.new_PCA9685 nPins frequency)) in
    addDevice p None ;;;
    rest (λ x, match x with DPCA9685 x => Some x | _ => None end) DPCA9685 p PCA9685.constructed).

(** The memory of the object before its constructor has set its ports. *)
Definition create_GPIO (c : GPIOBase.Chip) (memory : list Z) (firstVpin nPins i2cAddress interruptPin initPortState : Z) : M H unit :=
  let! ok := checkNoOverlap firstVpin nPins i2cAddress in
  when ok do (
    let w := GPIOBase.width_of c in
    let port i := GPIOBase.trunc w (nth i memory 0) in
    let! p := newDevice (GPIOBase.GPIO_base firstVpin nPins i2cAddress interruptPin w)
                (DGPIO (GPIOBase.under_construction w (port 0%nat) (port 1%nat) (port 2%nat) (port 3%nat) (port 4%nat))) in
    addDevice p None ;;;
    rest (λ x, match x with DGPIO x => Some x | _ => None end) DGPIO p (GPIOBase.constructed c initPortState)).

Definition create_Bitmap (firstVpin nPins : Z) : M H unit :=
  let! ok := checkNoOverlap firstVpin nPins 0 in
  when ok do (
    let! p := newDevice (newBase firstVpin nPins) (DBitmap (Bitmap.new_Bitmap nPins)) in addDevice p None).

Definition create_DCCAccessory (firstVpin nPins DCCAddress DCCSubaddress : Z) : M H unit :=
  let! ok := checkNoOverlap firstVpin nPins 0 in
  when ok do (
    let! p := newDevice (newBase firstVpin nPins)
                (DDCCAccessory (DCCAccessory.PACKEDADDRESS DCCAddress DCCSubaddress)) in
    addDevice p None).

Definition create_NeoPixel (firstVpin nPins mode i2cAddress : Z) : M H unit :=
  let! ok := checkNoOverlap firstVpin nPins i2cAddress in
  when ok do (
    let! p := newDevice (with__I2CAddress i2cAddress (newBase firstVpin nPins)) (DNeoPixel (NeoPixel.new_NeoPixel nPins mode)) in
    addDevice p None).

(** A servo is linked in front of the device that has its slave pins; it fails if that device
    is missing or does not have all of them. *)
Definition create_Servo (firstVpin nPins firstSlavePin : Z) : M H unit :=
  let nPins := if 16 <? nPins then 16 else nPins in
  let slavePin := if firstSlavePin =? VPIN_NONE then u16 firstVpin else firstSlavePin in
  let! slave := findDevice slavePin in
  let! last := findDevice (u16 (slavePin + nPins - 1)) in
  let failed := bool_decide (slave = None) || negb (bool_decide (slave = last)) in
  let b := newBase firstVpin nPins in
  let! p := newDevice (if failed then with__deviceState DEVSTATE_FAILED b else b)
              (DServo (mkServo slavePin slave (replicate (Z.to_nat nPins) None))) in
  addDevice p slave.

(** ** IODevice::begin *)

(** The functions halSetup, exrailHalSetup1 and exrailHalSetup2 are NULL when the user has
    not defined them. *)
Definition called {A} (a : A) (f : option (M H A)) : M H A := match f with Some m => m | None => mreturn a end.

Definition begin (memory : list Z) (halSetup : option (M H unit)) (exrailHalSetup1 : option (M H bool))
    (exrailHalSetup2 : option (M H unit)) : M H unit :=
  create_ArduinoPins 2 (ArduinoPins.NUM_DIGITAL_PINS - 2) ;;;
  called tt halSetup ;;;
  let! ignoreDefaults := called false exrailHalSetup1 in
  (when negb ignoreDefaults do (
    (let! ok := checkNoOverlap 100 16 0x40 in when ok do create_PCA9685 100 16 0x40 50) ;;;
    (let! ok := checkNoOverlap 116 16 0x41 in when ok do create_PCA9685 116 16 0x41 50) ;;;
    (let! ok := checkNoOverlap 164 16 0x20 in when ok do create_GPIO GPIOBase.MCP23017 memory 164 16 0x20 (-1) (-1)) ;;;
    (let! ok := checkNoOverlap 180 16 0x21 in when ok do create_GPIO GPIOBase.MCP23017 memory 180 16 0x21 (-1) (-1)))) ;;;
  called tt exrailHalSetup2.

End Drivers.
