(* ===== verification/IODeviceProps.v ===== *)
(** What a driver promises to the layer ([DriverLaws], against which the clients are proved), and
    what the layer then does: finding, ranges, the loop that serves devices in turn. *)

From S2P Require Import Prelude Chain IODevice.

#[local] Open Scope Z_scope.
#[local] Open Scope c_scope.

(** What the layer asks of a class of devices ([DriverLaws]), and what it promises then,
    whatever the devices are: no call fails, the search for a pin ends, a range of pins is
    written one by one, and the loop serves the devices in turn. *)

(** * Running programs *)

Lemma mthen_some {S A B} (m : M S A) (k : A → M S B) s a s' : m s = Some (a, s') → mthen m k s = k a s'.
Proof. unfold mthen. by intros ->. Qed.
Lemma mthen_ext {S A B} (m m' : M S A) (k : A → M S B) s : m s = m' s → mthen m k s = mthen m' k s.
Proof. unfold mthen. by intros ->. Qed.

Lemma rangeZ_cons v n : 0 < n → rangeZ v n = v :: rangeZ (v + 1) (n - 1).
Proof.
  intros Hn. unfold rangeZ. replace (Z.to_nat n) with (S (Z.to_nat (n - 1))) by lia.
  rewrite <-cons_seq, fmap_cons. f_equal; [lia|]. rewrite <-fmap_S_seq, <-list_fmap_compose.
  apply list_fmap_ext. intros i x _. simpl. lia.
Qed.
Lemma mfor_app {S B} (l k : list B) (f : B → M S unit) s :
  mfor (l ++ k) f s = (mfor l f ;;; mfor k f)%C s.
Proof.
  revert s. unfold mfor. induction l as [|x l IH]; intros s; [done|]. cbn [app mfold]. unfold mthen.
  destruct (f x s) as [[[] s']|]; [|done]. cbn. by rewrite IH.
Qed.
Lemma mfor_cons {S B} (x : B) (l : list B) (f : B → M S unit) s : mfor (x :: l) f s = (f x ;;; mfor l f)%C s.
Proof.
  unfold mfor. cbn [mfold]. unfold mthen. destruct (f x s) as [[[] s']|]; done.
Qed.

Module IODeviceSpec.
Import IODevice.IODevice.

(** What no operation on a pin changes of a device: its pins, its place in the chain, and
    its class, which tells whether it writes ranges by itself. *)
Class Kind (D : Type) := { kind : D → Z; ranges : Z → bool }.
Definition own_range {D} `{Kind D} (x : D) : bool := ranges (kind x).

Section same.
Context {D : Type} `{!Kind D}.
Implicit Types (s : HAL D).

Definition frame_of (d : Device D) : Z * Z * option ptr * Z :=
  (_firstVpin (dbase d), _nPins (dbase d), _nextDevice (dbase d), kind (drv d)).
Definition same s s' : Prop :=
  frame_of <$> devices s = frame_of <$> devices s' ∧
  _firstDevice s = _firstDevice s' ∧ _nextLoopDevice s = _nextLoopDevice s'.

#[export] Instance same_equiv : Equivalence same.
Proof.
  split.
  - by intros s.
  - intros s s' (? & ? & ?). split_and!; congruence.
  - intros s s' s'' (? & ? & ?) (? & ? & ?). split_and!; congruence.
Qed.

(** The device at [p] has the pin. *)
Definition covers s (p : ptr) (vpin : Z) : Prop :=
  ∃ d, devices s !! p = Some d ∧ owns (dbase d) vpin = true.

Lemma same_lookup s s' p d : same s s' → devices s !! p = Some d →
  ∃ d', devices s' !! p = Some d' ∧ frame_of d' = frame_of d.
Proof.
  intros (Hf & _ & _) Hd. assert ((frame_of <$> devices s) !! p = (frame_of <$> devices s') !! p) as H by by rewrite Hf.
  rewrite !lookup_fmap, Hd in H. simpl in H. destruct (devices s' !! p) as [d'|]; [|done].
  exists d'. split; [done|]. by apply (inj Some).
Qed.
Lemma owns_frame d d' vpin : frame_of d' = frame_of d → owns (dbase d') vpin = owns (dbase d) vpin.
Proof. unfold frame_of, owns. intros Hf. injection Hf as H1 H2 _ _. by rewrite H1, H2. Qed.
#[export] Instance covers_proper : Proper (same ==> eq ==> eq ==> iff) covers.
Proof.
  assert (∀ s s' p v, same s s' → covers s p v → covers s' p v) as H.
  { intros s s' p v Hs (d & Hd & Ho). destruct (same_lookup _ _ _ _ Hs Hd) as (d' & Hd' & Hf).
    exists d'. by rewrite (owns_frame _ _ _ Hf). }
  intros s s' Hs p _ <- v _ <-. split; apply H; [done|by symmetry].
Qed.
Lemma same_chain s s' l : same s s' → chain (devices s) (_firstDevice s) l → chain (devices s') (_firstDevice s') l.
Proof.
  intros Hs Hl. destruct (Hs) as (_ & <- & _). eapply chain_ext; [|exact Hl].
  intros x Hx. destruct (chain_elem_dom _ _ _ _ Hl Hx) as [d Hd].
  destruct (same_lookup _ _ _ _ Hs Hd) as (d' & Hd' & Hf). rewrite Hd, Hd'. simpl. f_equal.
  unfold frame_of in Hf. by injection Hf.
Qed.
Lemma same_size s s' : same s s' → size (devices s) = size (devices s').
Proof.
  intros (Hf & _ & _). rewrite <-!size_dom.
  assert (dom (devices s) = dom (devices s')) as ->; [|done].
  rewrite <-(dom_fmap_L frame_of (devices s)), <-(dom_fmap_L frame_of (devices s')). by rewrite Hf.
Qed.

(** A state with one device changed but for its frame. *)
Lemma same_insert s p d d' b : devices s !! p = Some d → frame_of d' = frame_of d →
  same s (with_hbus b (with_devices (<[p := d']> (devices s)) s)).
Proof.
  intros Hd Hf. split_and!; [|done|done]. cbn. rewrite fmap_insert, Hf. symmetry.
  apply insert_id. by rewrite lookup_fmap, Hd.
Qed.

(** ** What a class of devices has to promise *)

Class DriverLaws `{!Driver D} := {
  (** the devices are in order, so that their functions can be called on their pins *)
  good : HAL D → Prop;
  good_next : ∀ s x, good s → good (with__nextLoopDevice x s);
  good_time : ∀ s p d t, good s → devices s !! p = Some d →
    good (with_devices (<[p := mkDevice (with__nextEntryTime t (dbase d)) (drv d)]> (devices s)) s);
  good_state : ∀ s p d, good s → devices s !! p = Some d →
    good (with_devices (<[p := mkDevice (with__deviceState DEVSTATE_DORMANT (dbase d)) (drv d)]> (devices s)) s);
  begin_ok : ∀ s p, good s → is_Some (devices s !! p) → wp (_begin p) (λ _ s', good s' ∧ same s s') s;
  loop_ok : ∀ s p t, good s → is_Some (devices s !! p) → wp (_loop p t) (λ _ s', good s' ∧ same s s') s;
  configure_ok : ∀ s p v t l, good s → covers s p v → wp (_configure p v t l) (λ _ s', good s' ∧ same s s') s;
  write_ok : ∀ s p v x, good s → covers s p v → wp (_write p v x) (λ _ s', good s' ∧ same s s') s;
  writeAnalogue_ok : ∀ s p v x a b, good s → covers s p v → wp (_writeAnalogue p v x a b) (λ _ s', good s' ∧ same s s') s;
  read_ok : ∀ s p v, good s → covers s p v → wp (_read p v) (λ _ s', good s' ∧ same s s') s;
  readAnalogue_ok : ∀ s p v, good s → covers s p v → wp (_readAnalogue p v) (λ _ s', good s' ∧ same s s') s;
  configureAnalogIn_ok : ∀ s p v, good s → covers s p v → wp (_configureAnalogIn p v) (λ _ s', good s' ∧ same s s') s;
  (** a range is written pin by pin, as far as the device goes *)
  writeRange_default : ∀ s p d v x n, devices s !! p = Some d → own_range (drv d) = false →
    _writeRange p v x n s = default_writeRange p v x s;
  writeRange_own : ∀ s p d v x n, good s → devices s !! p = Some d → own_range (drv d) = true →
    owns (dbase d) v = true → 0 < n → v + n <= _firstVpin (dbase d) + _nPins (dbase d) →
    _writeRange p v x n s = (mfor (rangeZ v n) (λ v, _write p v x) ;;; mreturn (v + n))%C s
}.

End same.
Arguments DriverLaws D {_ _}.

(** ** The walk along the chain *)

Section walk.
Context {D : Type}.
Implicit Types (s : HAL D) (h : gmap ptr (Device D)) (l : list ptr).

Definition has (h : gmap ptr (Device D)) (vpin : Z) (p : ptr) : bool :=
  match h !! p with Some d => owns (dbase d) vpin | None => false end.

Lemma find_from_spec h l : ∀ fuel p vpin, chain h p l → (length l < fuel)%nat →
  find_from fuel h p vpin = Some (find (has h vpin) l).
Proof.
  induction l as [|x l IH]; intros fuel p vpin Hl Hf.
  - simpl in Hl. subst. by destruct fuel.
  - destruct Hl as [-> (d & Hd & Hl)]. destruct fuel; [simpl in Hf; lia|]. simpl. unfold has at 1. rewrite Hd.
    simpl. destruct (owns (dbase d) vpin); [done|]. apply IH; [done|]. simpl in Hf. lia.
Qed.

Lemma findDevice_spec s l vpin : chain (devices s) (_firstDevice s) l →
  findDevice vpin s = Some (find (has (devices s) vpin) l, s).
Proof.
  intros Hl. unfold findDevice. pose proof (chain_length _ _ _ Hl).
  rewrite (find_from_spec _ l) by (done || lia). done.
Qed.

Lemma find_has h l vpin p : find (has h vpin) l = Some p →
  p ∈ l ∧ ∃ d, h !! p = Some d ∧ owns (dbase d) vpin = true.
Proof.
  intros [Hin Hp]%find_some. split; [by apply list_elem_of_In|].
  unfold has in Hp. destruct (h !! p); [eauto|done].
Qed.

(** What a static function does: the function of the first device that has the pin, if any. *)
Lemma static_step {A} (f : option ptr → M (HAL D) A) s l vpin : chain (devices s) (_firstDevice s) l →
  (let! dev := findDevice vpin in f dev)%C s = f (find (has (devices s) vpin) l) s.
Proof. intros Hl. unfold mthen. by rewrite (findDevice_spec s l). Qed.

End walk.
End IODeviceSpec.

(** What the layer of devices promises for any class of devices that keeps [DriverLaws]: no
    static function fails, a range of pins is written pin by pin, and the loop goes round the
    chain: it serves the first device that is ready after the one served last. *)

Module IODeviceProps.
Import IODevice.IODevice IODeviceSpec.

Section laws.
Context {D : Type} `{!Kind D} `{!Driver D} `{!DriverLaws D}.
Implicit Types (s : HAL D) (l : list ptr) (p : ptr).

(** The chain of the devices is [l], and the loop goes on with one that is not its first:
    it would not end if it started from there. *)
Definition chained l s : Prop :=
  chain (devices s) (_firstDevice s) l ∧ match _nextLoopDevice s with Some x => x ∈ tail l | None => True end.
Definition well l s : Prop := chained l s ∧ good s.

Lemma chained_same l s s' : same s s' → chained l s → chained l s'.
Proof.
  intros Hs [Hl Hn]. split; [by eapply same_chain|]. destruct Hs as (_ & _ & <-). done.
Qed.
Lemma well_same l s s' : well l s → good s' ∧ same s s' → well l s'.
Proof. intros [Hc _] [Hg Hs]. split; [by eapply chained_same|done]. Qed.

Lemma has_same s s' v p : same s s' → has (devices s) v p = has (devices s') v p.
Proof.
  intros (Hf & _ & _). unfold has.
  assert ((frame_of <$> devices s) !! p = (frame_of <$> devices s') !! p) as H by by rewrite Hf.
  rewrite !lookup_fmap in H.
  destruct (devices s !! p), (devices s' !! p); try done. apply (inj Some) in H. by apply owns_frame.
Qed.
Lemma find_same s s' v l : same s s' → find (has (devices s) v) l = find (has (devices s') v) l.
Proof. intros Hs. induction l as [|x l IH]; [done|]. simpl. rewrite (has_same s s') by done. by rewrite IH. Qed.

(** ** Calls on a pin *)

Lemma static_ok {A} (f : ptr → M (HAL D) A) (e : A) l s vpin :
  (∀ p, covers s p vpin → wp (f p) (λ _ s', good s' ∧ same s s') s) → well l s →
  wp (let! dev := findDevice vpin in match dev with Some p => f p | None => mreturn e end) (λ _ s', well l s' ∧ same s s') s.
Proof.
  intros Hf Hw. destruct (Hw) as [[Hl _] Hg]. unfold wp. rewrite (static_step _ s l) by done.
  destruct (find (has (devices s) vpin) l) as [p|] eqn:E; [|by split].
  apply find_has in E as [_ (d & Hd & Ho)]. pose proof (Hf p (ex_intro _ d (conj Hd Ho))) as H.
  unfold wp in H. destruct (f p s) as [[a s']|]; [|done]. split; [by eapply well_same|apply H].
Qed.

Lemma write_well l s v x : well l s → wp (write v x) (λ _ s', well l s' ∧ same s s') s.
Proof. intros Hw. apply static_ok; [|done]. intros p Hp. apply write_ok; [apply Hw|done]. Qed.
Lemma writeAnalogue_well l s v x a b : well l s → wp (writeAnalogue v x a b) (λ _ s', well l s' ∧ same s s') s.
Proof. intros Hw. apply static_ok; [|done]. intros p Hp. apply writeAnalogue_ok; [apply Hw|done]. Qed.
Lemma configure_well l s v t ps : well l s → wp (configure v t ps) (λ _ s', well l s' ∧ same s s') s.
Proof. intros Hw. apply static_ok; [|done]. intros p Hp. apply configure_ok; [apply Hw|done]. Qed.
Lemma read_well l s v : well l s → wp (read v) (λ _ s', well l s' ∧ same s s') s.
Proof. intros Hw. apply static_ok; [|done]. intros p Hp. apply read_ok; [apply Hw|done]. Qed.
Lemma readAnalogue_well l s v : well l s → wp (readAnalogue v) (λ _ s', well l s' ∧ same s s') s.
Proof. intros Hw. apply static_ok; [|done]. intros p Hp. apply readAnalogue_ok; [apply Hw|done]. Qed.
Lemma configureAnalogIn_well l s v : well l s → wp (configureAnalogIn v) (λ _ s', well l s' ∧ same s s') s.
Proof. intros Hw. apply static_ok; [|done]. intros p Hp. apply configureAnalogIn_ok; [apply Hw|done]. Qed.
Lemma isBusy_well l s v : well l s → wp (isBusy v) (λ _ s', well l s' ∧ same s s') s.
Proof.
  intros Hw. apply static_ok; [|done]. intros p Hp. apply wp_bind.
  eapply wp_mono; [apply read_ok; [apply Hw|done]|]. intros a s' H. exact H.
Qed.

(** ** Ranges *)

(** The strips of lamps that write ranges by themselves do so within their pins, and no
    other device has pins of theirs. *)
Definition fits l s (vpin count : Z) : Prop := ∀ p d, p ∈ l → devices s !! p = Some d → own_range (drv d) = true →
  (0 <= _firstVpin (dbase d) + _nPins (dbase d) < 65536 ∧
   (vpin + count <= _firstVpin (dbase d) + _nPins (dbase d) ∨ _firstVpin (dbase d) + _nPins (dbase d) <= vpin)) ∧
  ∀ q v, q ∈ l → covers s q v → covers s p v → p = q.

Lemma fits_same l s s' v n : same s s' → fits l s v n → fits l s' v n.
Proof.
  intros Hs Hf p d' Hp Hd' Ho. symmetry in Hs. destruct (same_lookup _ _ _ _ Hs Hd') as (d & Hd & E).
  assert (own_range (drv d) = own_range (drv d') ∧ _firstVpin (dbase d) = _firstVpin (dbase d') ∧
          _nPins (dbase d) = _nPins (dbase d')) as (E1 & E2 & E3).
  { unfold frame_of in E. unfold own_range. injection E as -> -> _ ->. done. }
  rewrite <-E2, <-E3. rewrite <-E1 in Ho. destruct (Hf p d Hp Hd Ho) as [H1 H2]. split; [done|].
  intros q w Hq Hc1 Hc2. rewrite Hs in Hc1, Hc2. by apply (H2 q w).
Qed.
Lemma fits_suffix l s v n k : 0 <= k → fits l s v n → fits l s (v + k) (n - k).
Proof. intros Hk Hf p d Hp Hd Ho. destruct (Hf p d Hp Hd Ho) as [H1 H2]. split; [|done]. lia. Qed.

(** Writes to pins of one device are calls of its function. *)
Lemma writes_on_device l s p v n x : well l s → (∀ i, 0 <= i < n → find (has (devices s) (v + i)) l = Some p) →
  mfor (rangeZ v n) (λ w, write w x) s = mfor (rangeZ v n) (λ w, _write p w x) s.
Proof.
  intros Hw Hp. assert (∀ w, w ∈ rangeZ v n → find (has (devices s) w) l = Some p) as Hp'.
  { intros w Hin%elem_of_rangeZ. replace w with (v + (w - v)) by lia. apply Hp. lia. }
  clear Hp. revert s Hw Hp'. induction (rangeZ v n) as [|w ws IH]; intros s Hw Hp; [done|].
  assert (write w x s = _write p w x s) as E.
  { unfold write. rewrite (static_step _ s l) by apply Hw. by rewrite Hp by left. }
  unfold mfor in *. cbn [mfold]. unfold mthen. rewrite E.
  pose proof (write_well l s w x Hw) as H. unfold wp in H. rewrite E in H.
  destruct (_write p w x s) as [[[] s']|]; [|done]. simpl. destruct H as [Hw' Hs]. apply IH; [done|].
  intros y Hy. rewrite <-(find_same s s' y l) by done. by apply Hp; right.
Qed.

Lemma writeRange_from_eq x l : ∀ fuel n v s, 0 <= n < 32768 → n <= Z.of_nat fuel → 0 <= v → v + n < 65536 →
  well l s → fits l s v n → writeRange_from fuel v x n s = mfor (rangeZ v n) (λ w, write w x) s.
Proof.
  induction fuel as [|fuel IH]; intros n v s Hn Hf Hv Hvn Hw Hfit.
  { by replace n with 0 by lia. }
  cbn [writeRange_from]. destruct (n =? 0) eqn:En; [by replace n with 0 by lia|].
  assert (0 < n) as Hn' by lia. clear En.
  assert (u16 (v + 1) = v + 1) as Ev by zlia.
  assert (i16 (n - 1) = n - 1) as En by zlia.
  assert (fits l s (v + 1) (n - 1)) as Hfit1 by (apply fits_suffix; [lia|done]).
  rewrite (static_step _ s l) by apply Hw.
  pose proof (write_well l s v x Hw) as Hwr. unfold wp in Hwr.
  destruct (find (has (devices s) v) l) as [p|] eqn:E.
  2: { rewrite rangeZ_cons, mfor_cons by done.
       rewrite (mthen_some (write v x) _ s tt s); [|unfold write; by rewrite (static_step _ s l), E by apply Hw].
       rewrite Ev, En. apply IH; [lia..|done|done]. }
  destruct (find_has _ _ _ _ E) as (Hin & d & Hd & Ho).
  destruct (own_range (drv d)) eqn:Eo.
  - destruct (Hfit p d Hin Hd Eo) as [[Hend Hlt] Huniq].
    assert (v < _firstVpin (dbase d) + _nPins (dbase d) ∧ _firstVpin (dbase d) <= v) as [Hlt' Hge].
    { revert Ho. unfold owns. rewrite u16_id by done. lia. }
    destruct Hlt as [Hlt|]; [|lia].
    rewrite (mthen_ext _ _ _ _ (writeRange_own s p d v x n ltac:(apply Hw) Hd Eo Ho Hn' Hlt)).
    rewrite (writes_on_device l s p v n x Hw).
    + unfold mthen. destruct (mfor _ _ s) as [[[] s']|]; [|done]. cbn.
      replace (i16 (n - u16 (v + n - v))) with 0 by zlia. by destruct fuel.
    + intros i Hi. assert (covers s p (v + i)) as Hc.
      { exists d. split; [done|]. unfold owns. rewrite u16_id by (revert Hge; unfold is_u16; lia). lia. }
      destruct (find (has (devices s) (v + i)) l) as [q|] eqn:Eq.
      * destruct (find_has _ _ _ _ Eq) as (Hq & dq & Hdq & Hoq). f_equal. symmetry.
        apply (Huniq q (v + i)); [done|by exists dq|done].
      * exfalso. destruct Hc as (d' & Hd' & Ho'). simplify_eq.
        apply list_elem_of_In in Hin. pose proof (find_none _ _ Eq p Hin) as H. unfold has in H. by rewrite Hd, Ho' in H.
  - rewrite (mthen_ext _ _ _ _ (writeRange_default s p d v x n Hd Eo)). unfold default_writeRange.
    rewrite rangeZ_cons, mfor_cons by done.
    assert (write v x s = _write p v x s) as Ew by (unfold write; by rewrite (static_step _ s l), E by apply Hw).
    unfold mthen at 1 2. rewrite Ew in Hwr. unfold mthen. rewrite Ew.
    destruct (_write p v x s) as [[[] s']|]; [|done]. cbn. destruct Hwr as [Hw' Hs].
    rewrite Ev. replace (u16 (v + 1 - v)) with 1 by zlia. rewrite En.
    apply IH; [lia..|done|]. by eapply fits_same.
Qed.

Lemma writeRange_eq x n v l s : 0 <= n < 32768 → 0 <= v → v + n < 65536 → well l s → fits l s v n →
  writeRange v x n s = mfor (rangeZ v n) (λ w, write w x) s.
Proof.
  intros Hn Hv Hvn Hw Hf. apply (writeRange_from_eq x l); try done. rewrite u16_id by (unfold is_u16; lia). lia.
Qed.

(** ** The loop over all devices *)

Lemma modBase_ok p f l s d : well l s → devices s !! p = Some d →
  frame_of (mkDevice (f (dbase d)) (drv d)) = frame_of d →
  good (with_devices (<[p := mkDevice (f (dbase d)) (drv d)]> (devices s)) s) →
  wp (modBase p f) (λ _ s', well l s' ∧ same s s') s.
Proof.
  intros Hw Hd Hf Hg. unfold modBase, getDevice, putDevice. apply wp_bind.
  eapply wp_eq; [by rewrite Hd|]. cbn beta. apply wp_mod.
  set (s' := with_devices _ s) in *. assert (same s s') as Hs.
  { pose proof (same_insert s p d (mkDevice (f (dbase d)) (drv d)) (hbus s) Hd Hf). done. }
  split; [|done]. eapply well_same; [exact Hw|]. done.
Qed.
Lemma set_time_ok p t l s : well l s → is_Some (devices s !! p) →
  wp (modBase p (with__nextEntryTime t)) (λ _ s', well l s' ∧ same s s') s.
Proof. intros Hw [d Hd]. apply (modBase_ok p _ l s d Hw Hd); [done|]. apply good_time; [apply Hw|done]. Qed.

Lemma same_is_Some s s' p : same s s' → is_Some (devices s !! p) → is_Some (devices s' !! p).
Proof. intros Hs [d Hd]. destruct (same_lookup _ _ _ _ Hs Hd) as (d' & Hd' & _). eauto. Qed.

Lemma reset_device_ok p t l s : well l s → is_Some (devices s !! p) →
  wp (modBase p (with__deviceState DEVSTATE_DORMANT) ;;; modBase p (with__nextEntryTime t) ;;; _begin p)
     (λ _ s', well l s' ∧ same s s') s.
Proof.
  intros Hw Hp. apply wp_bind. destruct Hp as [d Hd]. eapply wp_mono.
  { apply (modBase_ok p _ l s d Hw Hd); [done|]. apply good_state; [apply Hw|done]. }
  intros _ s1 [Hw1 Hs1]. cbn beta. apply wp_bind. eapply wp_mono.
  { apply (set_time_ok p t l s1 Hw1). apply (same_is_Some s); [done|eauto]. }
  intros _ s2 [Hw2 Hs2]. cbn beta in *. assert (same s s2) as Hs by by etrans.
  eapply wp_mono; [apply begin_ok; [apply Hw2|apply (same_is_Some s); [done|eauto]]|].
  intros _ s3 [Hg3 Hs3]. split; [by apply (well_same l s2)|]. by transitivity s2.
Qed.

Lemma each_device_ok f l : (∀ p s, well l s → is_Some (devices s !! p) → wp (f p) (λ _ s', well l s' ∧ same s s') s) →
  ∀ r fuel dev s, chain (devices s) dev r → (length r < fuel)%nat → well l s →
  wp (each_device fuel f dev) (λ _ s', well l s' ∧ same s s') s.
Proof.
  intros Hf. induction r as [|p r IH]; intros fuel dev s Hr Hfuel Hw.
  - simpl in Hr. subst. destruct fuel; simpl; apply wp_ret; done.
  - destruct Hr as [-> (d & Hd & Hr)]. destruct fuel; [simpl in Hfuel; lia|]. cbn [each_device]. apply wp_bind.
    eapply wp_mono; [apply Hf; [done|eauto]|]. intros _ s' [Hw' Hs]. cbn beta. apply wp_bind.
    destruct (same_lookup _ _ _ _ Hs Hd) as (d' & Hd' & Ed). eapply wp_eq.
    { unfold getDevice. by rewrite Hd'. }
    cbn beta. assert (_nextDevice (dbase d') = _nextDevice (dbase d)) as -> by (unfold frame_of in Ed; by injection Ed).
    eapply wp_mono; [apply (IH fuel _ s'); [|simpl in Hfuel; lia|done]|].
    + eapply chain_ext; [|exact Hr]. intros x Hx. destruct Hs as (Hf' & _ & _).
      assert ((frame_of <$> devices s) !! x = (frame_of <$> devices s') !! x) as H by by rewrite Hf'.
      rewrite !lookup_fmap in H. destruct (devices s !! x), (devices s' !! x); try done. cbn in *.
      apply (inj Some) in H. unfold frame_of in H. f_equal. by injection H.
    + intros _ s2 [Hw2 Hs2]. split; [done|by etrans].
Qed.

Lemma reset_well l s t : well l s → wp (reset t) (λ _ s', well l s' ∧ same s s') s.
Proof.
  intros Hw. unfold reset. destruct (Hw) as [[Hl _] _]. pose proof (chain_length _ _ _ Hl).
  apply (each_device_ok _ l) with (r := l); [|done|lia|done].
  intros p s' Hw' Hp. by apply reset_device_ok.
Qed.

(** ** The round robin *)

(** The devices in the order in which the loop looks at them. *)
Fixpoint starting_from (x : ptr) l : list ptr :=
  match l with [] => [] | y :: k => if bool_decide (y = x) then l else starting_from x k end.
Fixpoint before (x : ptr) l : list ptr :=
  match l with [] => [] | y :: k => if bool_decide (y = x) then [] else y :: before x k end.
Definition order l s : list ptr :=
  match _nextLoopDevice s with None => l | Some x => starting_from x l ++ before x l end.

Definition ready_at s (t : Z) (p : ptr) : bool :=
  match devices s !! p with Some d => ready (dbase d) t | None => false end.

(** A device is served: its loop function is called, and the next call goes on behind it. *)
Definition serve (p : ptr) (t : Z) : M (HAL D) unit :=
  mmod (with__nextLoopDevice (Some p)) ;;;
  modBase p (with__nextEntryTime (u32 t)) ;;;
  _loop p t ;;;
  let! next := mget _nextLoopDevice in
  let! p := mlift next in
  let! d := getDevice p in
  mmod (with__nextLoopDevice (_nextDevice (dbase d))).

Lemma starting_before x l : x ∈ l → ∃ l2, l = before x l ++ x :: l2 ∧ starting_from x l = x :: l2.
Proof.
  induction l as [|y l IH]; [by intros ?%elem_of_nil|]. intros Hx. simpl. case_bool_decide as E.
  - subst. by exists l.
  - apply elem_of_cons in Hx as [?|Hx]; [by subst|]. destruct (IH Hx) as (l2 & H1 & H2).
    exists l2. split; [|done]. simpl. by f_equal.
Qed.

(** Following the links from [p] one visits [r] and arrives at [q]. *)
Fixpoint seg (h : gmap ptr (Device D)) (p : option ptr) (r : list ptr) (q : option ptr) : Prop :=
  match r with
  | [] => p = q
  | x :: r => p = Some x ∧ ∃ d, h !! x = Some d ∧ seg h (_nextDevice (dbase d)) r q
  end.
Lemma chain_seg h (p : option ptr) r1 r2 : chain h p (r1 ++ r2) → ∃ q, seg h p r1 q ∧ chain h q r2.
Proof.
  revert p. induction r1 as [|x r IH]; intros p; simpl; [eauto|].
  intros [-> (d & Hd & H)]. destruct (IH _ H) as (q & ? & ?). exists q. eauto.
Qed.

Lemma search_step f last t s x d : devices s !! x = Some d →
  loop_from (S f) last t (with__nextLoopDevice (Some x) s) =
  if ready (dbase d) t then serve x t s
  else if bool_decide (_nextDevice (dbase d) = last) then Some (tt, with__nextLoopDevice (_nextDevice (dbase d)) s)
  else loop_from f last t (with__nextLoopDevice (_nextDevice (dbase d)) s).
Proof.
  intros Hd. cbn [loop_from]. unfold serve, mthen, mget, mmod, getDevice, mlift. cbn. rewrite Hd. cbn.
  destruct (ready (dbase d) t).
  - destruct (modBase x _ _) as [[[] s1]|]; [|done]. cbn. destruct (_loop x t s1) as [[[] s2]|]; [|done]. cbn.
    destruct (_nextLoopDevice s2) as [y|]; [|done]. cbn. destruct (devices s2 !! y); done.
  - cbn. case_bool_decide; done.
Qed.

(** A part of the chain that is not the end of the search, and one that is. *)
Lemma loop_run last t : ∀ r f s (p : option ptr) q, seg (devices s) p r q → (∀ y, y ∈ tail r → Some y ≠ last) → q ≠ last →
  loop_from (length r + f) last t (with__nextLoopDevice p s) =
  match find (ready_at s t) r with
  | Some x => serve x t s
  | None => loop_from f last t (with__nextLoopDevice q s)
  end.
Proof.
  induction r as [|x r IH]; intros f s p q Hr Hy Hq; [simpl in *; by subst|].
  destruct Hr as [-> (d & Hd & Hr)]. change (length (x :: r) + f)%nat with (S (length r + f)).
  rewrite (search_step _ _ _ _ _ d Hd). cbn [find]. unfold ready_at at 1. rewrite Hd. destruct (ready (dbase d) t); [done|].
  rewrite bool_decide_eq_false_2.
  - apply (IH f s _ q Hr); [|done]. intros y Hin. apply Hy. destruct r; [done|]. by right.
  - destruct r as [|y r]; [by simpl in Hr; subst|]. destruct Hr as [-> _]. apply Hy. by left.
Qed.
Lemma loop_last last t : ∀ r f s (p : option ptr), r ≠ [] → seg (devices s) p r last → (∀ y, y ∈ tail r → Some y ≠ last) →
  loop_from (length r + f) last t (with__nextLoopDevice p s) =
  match find (ready_at s t) r with Some x => serve x t s | None => Some (tt, with__nextLoopDevice last s) end.
Proof.
  induction r as [|x r IH]; intros f s p Hne Hr Hy; [done|].
  destruct Hr as [-> (d & Hd & Hr)]. change (length (x :: r) + f)%nat with (S (length r + f)).
  rewrite (search_step _ _ _ _ _ d Hd). cbn [find]. unfold ready_at at 1. rewrite Hd. destruct (ready (dbase d) t); [done|].
  destruct r as [|y r].
  - simpl in Hr. by rewrite bool_decide_eq_true_2, Hr by done.
  - rewrite bool_decide_eq_false_2; [apply (IH f s); [done|done|]|].
    + intros z Hin. apply Hy. by right.
    + destruct Hr as [-> _]. apply Hy. by left.
Qed.

Lemma loop_wraps f last t s x : _firstDevice s = Some x →
  loop_from (S f) last t (with__nextLoopDevice None s) = loop_from (S f) last t (with__nextLoopDevice (Some x) s).
Proof. intros Hx. cbn [loop_from]. unfold mthen, mget, mmod. cbn. by rewrite Hx. Qed.

Lemma find_app' (f : ptr → bool) l k : find f (l ++ k) = match find f l with Some x => Some x | None => find f k end.
Proof. induction l as [|x l IH]; [done|]. simpl. by destruct (f x). Qed.

Lemma next_same s : with__nextLoopDevice (_nextLoopDevice s) s = s.
Proof. by destruct s. Qed.

Lemma loop_round l s t : well l s →
  loop t s = match find (ready_at s t) (order l s) with Some x => serve x t s | None => Some (tt, s) end.
Proof.
  intros [[Hl Hn] _]. unfold loop. pose proof (chain_length _ _ _ Hl) as Hlen.
  replace (S (size (devices s))) with (length l + S (size (devices s) - length l))%nat by lia.
  enough (loop_from (length l + S (size (devices s) - length l)) (_nextLoopDevice s) t (with__nextLoopDevice (_nextLoopDevice s) s) =
    match find (ready_at s t) (order l s) with
    | Some x => serve x t s
    | None => Some (tt, with__nextLoopDevice (_nextLoopDevice s) s)
    end) as H by by rewrite next_same in H.
  generalize (size (devices s) - length l)%nat as f. intros f. unfold order.
  destruct (_nextLoopDevice s) as [x|] eqn:En.
  - destruct l as [|y l]; [by apply elem_of_nil in Hn|]. simpl in Hn.
    destruct (starting_before x (y :: l)) as (l2 & Hsplit & Hst); [by right|]. rewrite Hst.
    set (l1 := before x (y :: l)) in *. rewrite Hsplit in Hl |- *.
    destruct (chain_seg _ _ _ _ Hl) as (q & Hs1 & Hs2). destruct (Hs2) as [-> _].
    rewrite <-(app_nil_r (x :: l2)) in Hs2. destruct (chain_seg _ _ _ _ Hs2) as (q & Hs3 & Hq). simpl in Hq. subst q.
    assert (NoDup (l1 ++ x :: l2)) as Hnd by by eapply chain_NoDup.
    assert (x ∉ l2 ∧ x ∉ l1) as [Hx2 Hx1].
    { apply NoDup_app in Hnd as (_ & H1 & H2). apply NoDup_cons in H2 as [H2 _]. split; [done|].
      intros H. apply (H1 x H). by left. }
    replace (length (l1 ++ x :: l2) + S f)%nat with (length (x :: l2) + (length l1 + S f))%nat by (rewrite length_app; lia).
    rewrite find_app'. rewrite (loop_run (Some x) t (x :: l2) _ s (Some x) None); [|done| |done].
    2: { intros z Hz [= ->]. done. }
    destruct (find (ready_at s t) (x :: l2)); [done|].
    assert (l1 ≠ []) as Hne.
    { intros E. rewrite E in Hsplit. simpl in Hsplit. injection Hsplit as -> ->. done. }
    assert (∃ z k, l1 = z :: k ∧ _firstDevice s = Some z) as (z & k & E1 & Ez).
    { destruct l1 as [|z k]; [done|]. destruct Hs1 as [Hz _]. eauto. }
    rewrite Ez in *. destruct (length l1 + S f)%nat eqn:Ef; [lia|]. rewrite (loop_wraps _ _ _ _ z) by done. rewrite <-Ef.
    apply (loop_last (Some x) t l1 (S f) s (Some z)); [done|done|].
    intros w Hw [= ->]. apply Hx1. rewrite E1 in *. by right.
  - destruct l as [|x l].
    { simpl in Hl. cbn [length find app Nat.add loop_from]. unfold mthen, mget, mmod. cbn. rewrite Hl. done. }
    change (length (x :: l) + S f)%nat with (S (length l + S f)). destruct (Hl) as [Hx _].
    rewrite (loop_wraps _ _ _ _ x) by done.
    rewrite <-(app_nil_r (x :: l)) in Hl. destruct (chain_seg _ _ _ _ Hl) as (q & Hs & Hq). simpl in Hq. subst q.
    rewrite Hx in Hs. apply (loop_last None t (x :: l) (S f) s (Some x)); done.
Qed.


(** Serving a device succeeds and the next search starts behind it. *)
Lemma serve_ok l1 p l2 s t : well (l1 ++ p :: l2) s →
  ∃ s', serve p t s = Some (tt, s') ∧ well (l1 ++ p :: l2) s' ∧ _nextLoopDevice s' = head l2.
Proof.
  intros [[Hl Hn] Hg]. set (s0 := with__nextLoopDevice (Some p) s).
  destruct (chain_seg _ _ _ _ Hl) as (q & _ & Hp). destruct Hp as [-> (d & Hd & Hl2)].
  assert (nx d = head l2) as Hh by (destruct l2; [done|by destruct Hl2 as [-> _]]).
  set (s1 := with_devices (<[p := mkDevice (with__nextEntryTime (u32 t) (dbase d)) (drv d)]> (devices s0)) s0).
  assert (same s0 s1) as H1 by (apply (same_insert s0 p d _ (hbus s0)); done).
  assert (good s1) as Hg1 by (apply good_time; [by apply good_next|done]).
  pose proof (loop_ok s1 p t Hg1 (same_is_Some s0 s1 p H1 (ex_intro _ d Hd))) as H.
  unfold wp in H. destruct (_loop p t s1) as [[[] s2]|] eqn:E; [|done]. destruct H as [Hg2 Hs2].
  assert (same s0 s2) as Hs by by etrans.
  destruct (same_lookup s0 s2 p d Hs Hd) as (d2 & Hd2 & Hf).
  assert (nx d2 = head l2) as Hn2 by (rewrite <-Hh; unfold frame_of in Hf; by injection Hf).
  exists (with__nextLoopDevice (head l2) s2). split; [|split; [split|done]].
  - unfold serve. rewrite (mthen_some _ _ s tt s0) by done.
    rewrite (mthen_some _ _ s0 tt s1).
    2: { unfold modBase, getDevice, putDevice, mthen. cbn. by rewrite Hd. }
    rewrite (mthen_some _ _ s1 tt s2 E). unfold mthen, mget, mlift, mmod, getDevice.
    destruct (Hs) as (_ & _ & <-). cbn. rewrite Hd2. cbn in Hn2 |- *. by rewrite Hn2.
  - split.
    + cbn. apply (same_chain s0 s2 (l1 ++ p :: l2) Hs). exact Hl.
    + cbn. destruct l2 as [|y l2]; [done|]. simpl. destruct l1 as [|z l1]; simpl; [by left|].
      apply elem_of_app. right. right. by left.
  - by apply good_next.
Qed.

Lemma order_rotates l1 p l2 a b s : NoDup (l1 ++ p :: l2) → chained (l1 ++ p :: l2) s →
  order (l1 ++ p :: l2) s = a ++ p :: b → b ++ a = l2 ++ l1.
Proof.
  intros Hnd [_ Hn]. unfold order. set (l := l1 ++ p :: l2) in *.
  assert (∃ w1 w2, l = w1 ++ w2 ∧ match _nextLoopDevice s with Some x => starting_from x l ++ before x l | None => l end = w2 ++ w1)
    as (w1 & w2 & Hl & ->).
  { destruct (_nextLoopDevice s) as [x|]; [|exists [], l; by rewrite app_nil_r].
    destruct (starting_before x l) as (k & H1 & H2).
    { destruct l; [done|]. by right. }
    exists (before x l), (x :: k). by rewrite H2. }
  assert (∀ u v u' v', NoDup (u ++ p :: v) → u ++ p :: v = u' ++ p :: v' → u = u' ∧ v = v') as Huniq.
  { clear. induction u as [|y u IH]; intros v [|z u'] v' Hnd H; cbn [app] in *; injection H; intros; subst.
    - done.
    - apply NoDup_cons in Hnd as [Hnd _]. exfalso. apply Hnd. apply elem_of_app. right. by left.
    - apply NoDup_cons in Hnd as [Hnd _]. exfalso. apply Hnd. apply elem_of_app. right. by left.
    - apply NoDup_cons in Hnd as [_ Hnd]. destruct (IH v u' v') as [-> ->]; done. }
  intros H. assert (p ∈ w2 ++ w1) as Hin by (rewrite H; apply elem_of_app; right; by left).
  assert (NoDup (w2 ++ w1)) as Hnd2 by (rewrite Permutation_app_comm, <-Hl; done).
  unfold l in *. apply elem_of_app in Hin as [Hin|Hin]; apply list_elem_of_split in Hin as (u & v & ->).
  - rewrite <-app_assoc in H, Hnd2. simpl in H, Hnd2. apply Huniq in H as [<- <-]; [|done].
    rewrite app_assoc in Hl. apply Huniq in Hl as [-> ->]; [|done]. by rewrite app_assoc.
  - rewrite app_assoc in H, Hnd2. apply Huniq in H as [<- <-]; [|done].
    rewrite <-app_assoc in Hl. simpl in Hl. apply Huniq in Hl as [-> ->]; [|done]. by rewrite app_assoc.
Qed.

(** After a device is served, the order starts with those behind it. *)
Lemma order_served l1 p l2 s : NoDup (l1 ++ p :: l2) → _nextLoopDevice s = head l2 → order (l1 ++ p :: l2) s = l2 ++ l1 ++ [p].
Proof.
  intros Hnd Hn. unfold order. rewrite Hn. destruct l2 as [|y l2]; [done|]. cbn [head].
  assert (∀ u, y ∉ u → starting_from y (u ++ y :: l2) = y :: l2 ∧ before y (u ++ y :: l2) = u) as H.
  { induction u as [|z u IH]; intros Hy; simpl; [by rewrite !bool_decide_eq_true_2|].
    apply not_elem_of_cons in Hy as [Hzy Hy]. rewrite !bool_decide_eq_false_2 by done.
    destruct (IH Hy) as [-> ->]. done. }
  assert (y ∉ l1 ++ [p]) as Hy.
  { replace (l1 ++ p :: y :: l2) with ((l1 ++ [p]) ++ y :: l2) in Hnd by by rewrite <-app_assoc.
    apply NoDup_app in Hnd as (_ & Hnd & _). intros Hin. apply (Hnd y Hin). by left. }
  replace (l1 ++ p :: y :: l2) with ((l1 ++ [p]) ++ y :: l2) by by rewrite <-app_assoc.
  by destruct (H _ Hy) as [-> ->].
Qed.

Lemma order_perm l s : chained l s → order l s ≡ₚ l.
Proof.
  intros [_ Hn]. unfold order. destruct (_nextLoopDevice s) as [y|]; [|done].
  destruct (starting_before y l) as (k & Hk & ->); [by destruct l; [|right]|].
  rewrite Permutation_app_comm. by rewrite <-Hk.
Qed.

Lemma loop_well l s t : well l s → wp (loop t) (λ _ s', well l s') s.
Proof.
  intros Hw. unfold wp. rewrite (loop_round l) by done. destruct (find _ _) as [x|] eqn:E; [|done].
  assert (x ∈ l) as Hx.
  { apply find_some in E as [E _]. apply list_elem_of_In in E. by rewrite order_perm in E by apply Hw. }
  apply list_elem_of_split in Hx as (l1 & l2 & ->).
  destruct (serve_ok l1 x l2 s t Hw) as (s' & -> & Hw' & _). done.
Qed.

(** [p] is ready at each of the calls of the loop until one serves it. *)
Fixpoint waits l (p : ptr) (ts : list Z) s : Prop :=
  match ts with
  | [] => True
  | t :: ts => ready_at s t p = true ∧
      (find (ready_at s t) (order l s) ≠ Some p → ∀ s', loop t s = Some (tt, s') → waits l p ts s')
  end.

Lemma loop_gets_to l p : p ∈ l → ∀ ts a b s, well l s → order l s = a ++ p :: b → (length a < length ts)%nat →
  waits l p ts s →
  ∃ ts1 t ts2 s1, ts = ts1 ++ t :: ts2 ∧ mfor ts1 loop s = Some (tt, s1) ∧ well l s1 ∧ loop t s1 = serve p t s1.
Proof.
  intros Hp. induction ts as [|t ts IH]; intros a b s Hw Ho Ha Hr; [simpl in Ha; lia|].
  destruct Hr as [Hr Hk]. pose proof (loop_round l s t Hw) as Hround.
  destruct (decide (find (ready_at s t) (order l s) = Some p)) as [E|E].
  { rewrite E in Hround. exists [], t, ts, s. done. }
  destruct (find (ready_at s t) (order l s)) as [x|] eqn:Ex.
  2: { pose proof (find_none _ _ Ex p) as H. rewrite H in Hr; [done|]. rewrite Ho. apply list_elem_of_In, elem_of_app. right. by left. }
  assert (x ≠ p) as Hne by congruence.
  assert (∃ a1 a2, a = a1 ++ x :: a2) as (a1 & a2 & ->).
  { rewrite Ho, find_app' in Ex. destruct (find (ready_at s t) a) as [y|] eqn:Ey.
    - simplify_eq. apply find_some in Ey as [Ey _]. apply list_elem_of_In, list_elem_of_split in Ey as (a1 & a2 & ->). eauto.
    - simpl in Ex. rewrite Hr in Ex. congruence. }
  rewrite <-app_assoc in Ho. simpl in Ho.
  assert (x ∈ l) as Hx.
  { rewrite <-(order_perm l s) by apply Hw. rewrite Ho. apply elem_of_app. right. by left. }
  assert (NoDup l) as Hnd by (eapply chain_NoDup; apply Hw).
  apply list_elem_of_split in Hx as (l1 & l2 & ->).
  destruct (serve_ok l1 x l2 s t Hw) as (s' & Hs' & Hw' & Hn').
  rewrite Hs' in Hround. specialize (Hk E s' Hround).
  pose proof (order_served l1 x l2 s' Hnd Hn') as Ho'.
  rewrite app_assoc, <-(order_rotates l1 x l2 a1 (a2 ++ p :: b) s Hnd ltac:(apply Hw) Ho) in Ho'.
  rewrite <-!app_assoc in Ho'. simpl in Ho'.
  destruct (IH a2 (b ++ a1 ++ [x]) s' Hw' Ho') as (ts1 & t' & ts2 & s1 & -> & H1 & H2 & H3); [|done|].
  { rewrite length_app in Ha. simpl in Ha. lia. }
  exists (t :: ts1), t', ts2, s1. split; [done|]. split; [|done]. rewrite mfor_cons. by rewrite (mthen_some _ _ s tt s').
Qed.

Lemma loop_in_turn l p ts s : well l s → p ∈ l → (length l <= length ts)%nat → waits l p ts s →
  ∃ ts1 t ts2 s1, ts = ts1 ++ t :: ts2 ∧ mfor ts1 loop s = Some (tt, s1) ∧ well l s1 ∧ loop t s1 = serve p t s1.
Proof.
  intros Hw Hp Hts Hr.
  pose proof (order_perm l s ltac:(apply Hw)) as Hperm.
  assert (p ∈ order l s) as Hin by by rewrite Hperm.
  apply list_elem_of_split in Hin as (a & b & Ho).
  apply (loop_gets_to l p Hp ts a b s Hw Ho); [|done].
  apply Permutation_length in Hperm. rewrite Ho, length_app in Hperm. simpl in Hperm. lia.
Qed.

End laws.
End IODeviceProps.
