(* ===== verification/DriverSafe.v ===== *)
(** The functions of the devices on their own objects: on a pin of the device none of them
    fails, and each keeps the object in order and its place and pins as they are. *)

From S2P Require Import Prelude Chain IODevice ArduinoPins PCA9685 GPIOBase Bitmap DCCAccessory NeoPixel IODeviceProps.

#[local] Open Scope Z_scope.
#[local] Open Scope c_scope.

Module DriverSafe.
Import IODevice.IODevice Bits.

(** * Programs that keep a property of the state *)

Definition safe {S A} (I : S → Prop) (m : M S A) : Prop := ∀ s, I s → wp m (λ _ s', I s') s.

Section safe.
Context {S : Type} (I : S → Prop).

Lemma safely_ret {A} (a : A) : safe I (mreturn a).
Proof. by intros s. Qed.
Lemma safely_bind {A B} (m : M S B) (k : B → M S A) : safe I m → (∀ b, safe I (k b)) → safe I (mthen m k).
Proof. intros Hm Hk s Hs. apply wp_bind. eapply wp_mono; [by apply Hm|]. intros b s' Hs'. by apply Hk. Qed.
Lemma safely_get {A B} (f : S → B) (k : B → M S A) : (∀ s, I s → safe I (k (f s))) → safe I (mthen (mget f) k).
Proof. intros Hk s Hs. apply wp_bind, wp_get. by apply Hk. Qed.
Lemma safe_getid {A} (k : S → M S A) : (∀ s, I s → safe I (k s)) → safe I (mthen (mget id) k).
Proof. intros Hk s Hs. apply wp_bind, wp_get. by apply Hk. Qed.
Lemma safe_get1 {B} (f : S → B) : safe I (mget f).
Proof. by intros s. Qed.
Lemma safely_mod (f : S → S) : (∀ s, I s → I (f s)) → safe I (mmod f).
Proof. intros Hf s Hs. apply wp_mod. by apply Hf. Qed.
Lemma safely_if {A} (b : bool) (m m' : M S A) : (b = true → safe I m) → (b = false → safe I m') → safe I (if b then m else m').
Proof. destruct b; auto. Qed.
Lemma safe_geta {A B} (l : list B) (i : Z) (k : B → M S A) :
  0 <= i < Z.of_nat (length l) → (∀ x, l !! Z.to_nat i = Some x → safe I (k x)) → safe I (mthen (geta l i) k).
Proof.
  intros Hi Hk s Hs. apply wp_bind. unfold geta. replace (i <? 0) with false by lia.
  destruct (lookup_lt_is_Some_2 l (Z.to_nat i)) as [x Hx]; [lia|]. unfold mlift.
  eapply wp_eq; [by rewrite Hx|]. by apply Hk.
Qed.
Lemma safe_geta1 {B} (l : list B) (i : Z) : 0 <= i < Z.of_nat (length l) → safe I (geta l i).
Proof.
  intros Hi s Hs. unfold geta. replace (i <? 0) with false by lia.
  destruct (lookup_lt_is_Some_2 l (Z.to_nat i)) as [x Hx]; [lia|]. unfold mlift. eapply wp_eq; [by rewrite Hx|]. done.
Qed.
Lemma safely_mfor {B} (l : list B) (f : B → M S unit) : (∀ x, x ∈ l → safe I (f x)) → safe I (mfor l f).
Proof. intros Hf s Hs. apply wp_mfor; [|done]. intros x s' Hx Hs'. by apply Hf. Qed.
End safe.

Lemma seta_length {A} (l : list A) i x : length (seta l i x) = length l.
Proof. apply length_insert. Qed.

(** ** Objects *)

Section obj.
Context {X : Type} (F N : Z) (nxt : option ptr) (ok : X → Prop).

(** The object has its pins and its place, and its own data are in order. *)
Definition in_order (o : Obj X) : Prop :=
  _firstVpin (base o) = F ∧ _nPins (base o) = N ∧ _nextDevice (base o) = nxt ∧ ok (own o).

Lemma safe_log e : safe in_order (log e).
Proof. apply safely_mod. by intros o. Qed.
Lemma safe_own f : (∀ x, ok x → ok (f x)) → safe in_order (with_own f).
Proof. intros Hf. apply safely_mod. intros o (? & ? & ? & ?). split_and!; simpl; auto. Qed.
Lemma safe_put_own x : ok x → safe in_order (put_own x).
Proof. intros Hx. by apply safe_own. Qed.
Lemma safe_setState d : safe in_order (setState d).
Proof. apply safely_mod. by intros o (? & ? & ? & ?). Qed.
Lemma safe_delayUntil t : safe in_order (delayUntil t).
Proof. apply safely_mod. by intros o (? & ? & ? & ?). Qed.
Lemma safe_answer : safe in_order answer.
Proof. by intros o Ho. Qed.
Lemma safe_i2c_write a bs : safe in_order (i2c_write a bs).
Proof. apply safe_log. Qed.
Lemma safe_pinMode p m : safe in_order (pinMode p m).
Proof. apply safe_log. Qed.
Lemma safe_i2c_exists a : safe in_order (i2c_exists a).
Proof. apply safely_bind; [apply safe_log|]. intros _. apply safely_bind; [apply safe_answer|]. intros. apply safely_ret. Qed.
Lemma safe_i2c_read a bs n : safe in_order (i2c_read a bs n).
Proof. apply safely_bind; [apply safe_log|]. intros _. apply safely_bind; [apply safe_answer|]. intros. apply safely_ret. Qed.
Lemma safe_invokeAll v x : safe in_order (invokeAll v x).
Proof. apply safely_get. intros o _. apply safely_mfor. intros f _. apply safe_log. Qed.
Lemma safe_queueRequest get set : (∀ rb x, ok x → ok (set rb x)) → safe in_order (queueRequest get set).
Proof.
  intros Hs. apply safely_get. intros o _. apply safely_bind; [apply safe_log|]. intros _. apply safe_own. intros x. apply Hs.
Qed.
Lemma safe_wait get set : (∀ rb x, ok x → ok (set rb x)) → safe in_order (wait get set).
Proof.
  intros Hs. apply safely_get. intros o _. apply safely_if; [|intros; apply safely_ret]. intros _.
  apply safely_bind; [apply safe_answer|]. intros a. apply safely_bind; [|intros; apply safely_ret].
  apply safe_own. intros x. apply Hs.
Qed.
End obj.

(** The steps that need no thought. *)
Ltac safe1 :=
  lazymatch goal with
  | |- safe _ (mreturn _) => apply safely_ret
  | |- safe _ (mthen (mget id) _) => apply safe_getid; intros ? ?
  | |- safe _ (mthen (mget _) _) => apply safely_get; intros ? ?
  | |- safe _ (mthen (geta _ _) _) => apply safe_geta; [|intros ? ?]
  | |- safe _ (geta _ _) => apply safe_geta1
  | |- safe _ (mthen _ _) => apply safely_bind; [|intros ?]
  | |- safe _ (mget _) => apply safe_get1
  | |- safe _ (if _ then _ else _) => apply safely_if; intros ?
  | |- safe _ (mfor _ _) => apply safely_mfor; intros ? ?
  | |- safe _ (log _) => apply safe_log
  | |- safe _ (i2c_write _ _) => apply safe_i2c_write
  | |- safe _ (i2c_exists _) => apply safe_i2c_exists
  | |- safe _ (i2c_read _ _ _) => apply safe_i2c_read
  | |- safe _ (pinMode _ _) => apply safe_pinMode
  | |- safe _ (setState _) => apply safe_setState
  | |- safe _ (delayUntil _) => apply safe_delayUntil
  | |- safe _ (invokeAll _ _) => apply safe_invokeAll
  | |- safe _ (wait _ _) => apply safe_wait
  | |- safe _ (queueRequest _ _) => apply safe_queueRequest
  | |- safe _ (with_own _) => apply safe_own
  | |- safe _ (put_own _) => apply safe_put_own
  end.
Ltac safes := repeat (safe1; cbv zeta beta).

(** ** The pins of the processor *)

Section arduino.
#[local] Set Default Proof Using "All".
Import ArduinoPins.ArduinoPins.
Context (F N : Z) (nxt : option ptr).
Definition arduino_ok (x : ArduinoPins) : Prop :=
  Z.of_nat (length (_pinPullups x)) = (N + 7) / 8 ∧ Z.of_nat (length (_pinModes x)) = (N + 7) / 8 ∧
  Z.of_nat (length (_pinInUse x)) = (N + 7) / 8.
Notation J := (in_order F N nxt arduino_ok).
Context (vpin : Z) (Hv : F <= vpin < F + N) (Hr : 0 <= F < 65536) (HN : 0 <= N <= 255) (Hp : vpin < 65536).

Lemma arduino_index o : J o → 0 <= index_of vpin (base o) < (N + 7) / 8.
Proof.
  intros (E & _). unfold index_of. rewrite E, u16_id by (unfold is_u16; lia).
  rewrite u8_id by (unfold is_byte; Z.div_mod_to_equations; lia). Z.div_mod_to_equations; lia.
Qed.
Lemma arduino_on_pin get put f : (∀ x, arduino_ok x → Z.of_nat (length (get x)) = (N + 7) / 8) →
  (∀ x l, arduino_ok x → Z.of_nat (length l) = (N + 7) / 8 → arduino_ok (put l x)) → safe J (on_pin vpin get put f).
Proof.
  intros Hg Hput. unfold on_pin. apply safe_getid. intros o Ho. pose proof (arduino_index o Ho). destruct Ho as (_ & _ & _ & Ho).
  apply safe_geta; [by rewrite Hg|]. intros x _. apply safe_put_own. apply Hput; [done|]. rewrite seta_length. by apply Hg.
Qed.
Lemma arduino_modes f : safe J (on_modes vpin f).
Proof. apply arduino_on_pin; [by intros x (? & ? & ?)|]. intros x l (? & ? & ?) ?. by split_and!. Qed.
Lemma arduino_pullups f : safe J (on_pullups vpin f).
Proof. apply arduino_on_pin; [by intros x (? & ? & ?)|]. intros x l (? & ? & ?) ?. by split_and!. Qed.
Lemma arduino_inUse f : safe J (on_inUse vpin f).
Proof. apply arduino_on_pin; [by intros x (? & ? & ?)|]. intros x l (? & ? & ?) ?. by split_and!. Qed.
Lemma arduino_bit get : (∀ x, arduino_ok x → Z.of_nat (length (get x)) = (N + 7) / 8) → safe J (pin_bit vpin get).
Proof.
  intros Hg. unfold pin_bit. apply safe_getid. intros o Ho. pose proof (arduino_index o Ho). destruct Ho as (_ & _ & _ & Ho).
  apply safe_geta; [by rewrite Hg|]. intros x _. apply safely_ret.
Qed.
Ltac pins := repeat (safe1 || apply arduino_modes || apply arduino_pullups || apply arduino_inUse ||
  (apply arduino_bit; intros ? (? & ? & ?); done)).

Lemma arduino_configure t ps : safe J (_configure vpin t ps).
Proof. unfold _configure. destruct t, ps as [|a [|b ps]]; pins. Qed.
Lemma arduino_write x : safe J (_write vpin x).
Proof. unfold _write, fastWriteDigital. pins. Qed.
Lemma arduino_to_input : safe J (to_input vpin).
Proof. unfold to_input. pins. Qed.
Lemma arduino_read : safe J (_read vpin).
Proof. unfold _read, fastReadDigital. pins; apply arduino_to_input || pins. Qed.
Lemma arduino_readAnalogue : safe J (_readAnalogue vpin).
Proof. unfold _readAnalogue. pins. Qed.
Lemma arduino_configureAnalogIn : safe J (_configureAnalogIn vpin).
Proof. unfold _configureAnalogIn. pins; apply arduino_to_input || pins. Qed.
End arduino.

(** ** Servos *)

Section servo.
Import ServoData.

(** An animation that bounces reads its table of 30 positions. *)
Definition servo_ok (s : ServoData) : Prop :=
  0 <= stepNumber s ∧ 0 <= numSteps s < 65536 ∧ (profileValue (currentProfile s) = Bounce → numSteps s <= 29).

Lemma start_ok v p d s : servo_ok (start v p d s).
Proof.
  assert (∀ v, 0 <= (if v =? Fast then 10 else if v =? Medium then 20 else if v =? Slow then 40
    else if v =? Bounce then 29 else u16 (d * 2 + 1)) < 65536 ∧ (v = Bounce →
    (if v =? Fast then 10 else if v =? Medium then 20 else if v =? Slow then 40
    else if v =? Bounce then 29 else u16 (d * 2 + 1)) <= 29)) as H.
  { intros w. pose proof (u16_range (d * 2 + 1)) as Hu. unfold is_u16 in Hu. split.
    - repeat case_match; lia.
    - intros ->. done. }
  split; [done|]. apply H.
Qed.
Lemma no_data_ok : servo_ok no_data.
Proof. unfold servo_ok. cbn. lia. Qed.

Lemma step_position_some s : servo_ok s → stepNumber s <= numSteps s → is_Some (step_position s).
Proof.
  intros (H0 & H1 & H2) Hle. unfold step_position. destruct (_ =? Bounce) eqn:E; [|done].
  destruct (lookup_lt_is_Some_2 _bounceProfile (Z.to_nat (stepNumber s))) as [x Hx].
  { change (length _bounceProfile) with 30%nat. lia. }
  rewrite Hx. done.
Qed.

Lemma skip_to_end_ok s : servo_ok s → numSteps s ≠ 0 → servo_ok (skip_to_end s) ∧ numSteps (skip_to_end s) = numSteps s.
Proof.
  intros Hs Hn. unfold skip_to_end. destruct (_ && _); [|done]. split; [|done].
  destruct Hs as (H1 & H2 & H3). split_and!; cbn; [apply Z.mod_pos_bound; lia|lia..|done].
Qed.

Lemma updatePosition_ok s : servo_ok s → ∃ s' out, updatePosition s = Some (s', out) ∧ servo_ok s'.
Proof.
  intros Hs. unfold updatePosition. destruct (numSteps s =? 0) eqn:E; [eauto|].
  destruct (skip_to_end_ok s Hs) as [Ht Hn]; [lia|]. set (t := skip_to_end s) in *. clearbody t. cbv zeta.
  assert (∀ k, 0 <= k → servo_ok (with_stepNumber k t)) as Hk by (intros k ?; by destruct Ht as (? & ? & ?)).
  destruct (stepNumber t <? numSteps t) eqn:E1.
  - set (u := with_stepNumber (u16 (stepNumber t + 1)) t).
    destruct (step_position_some u) as [pos Hpos].
    { apply Hk. unfold u16. apply Z.mod_pos_bound. lia. }
    { cbn. destruct Ht as (? & ? & _). rewrite u16_id by (unfold is_u16; lia). lia. }
    rewrite Hpos. simpl. eexists _, _. split; [done|]. apply (Hk (u16 (stepNumber t + 1))). apply Z.mod_pos_bound. lia.
  - destruct (stepNumber t <? u16 _); [eexists _, _; split; [done|]; apply Hk, Z.mod_pos_bound; lia|].
    destruct ((stepNumber t =? _) && _); eexists _, _; (split; [reflexivity|]); [|done].
    destruct Ht as (? & ? & ?). split_and!; cbn; [done|lia..].
Qed.

Definition servos_ok (l : list (option ServoData)) : Prop := Forall (λ o, match o with Some s => servo_ok s | None => True end) l.
Lemma servos_insert l i s : servos_ok l → servo_ok s → servos_ok (seta l i (Some s)).
Proof. intros Hl Hs. by apply Forall_insert. Qed.
Lemma servos_lookup l i s : servos_ok l → l !! i = Some (Some s) → servo_ok s.
Proof. intros Hl Hi. by apply (Forall_lookup_1 _ _ _ _ Hl Hi). Qed.

Import PCA9685.PCA9685.
#[local] Set Default Proof Using "All".
Context (F N : Z) (nxt : option ptr).
Definition pca_ok (x : PCA9685) : Prop := Z.of_nat (length (_servoData x)) = N ∧ servos_ok (_servoData x).
Notation J := (in_order F N nxt pca_ok).
Context (HF : 0 <= F) (HN : N <= 16).

Lemma pca_rb rb x : pca_ok x → pca_ok (set_rb rb x).
Proof. done. Qed.
Lemma pca_begin : safe J _begin.
Proof. unfold _begin, writeRegister. safes. Qed.
Lemma pca_put pin s : servo_ok s → safe J (put_servo pin s).
Proof. intros Hs. apply safe_own. intros x [Hl Hx]. split; cbn; [by rewrite seta_length|by apply servos_insert]. Qed.
Lemma pca_get {A} pin (k : option ServoData → M (Obj PCA9685) A) : 0 <= pin < N →
  (∀ s, match s with Some s => servo_ok s | None => True end → safe J (k s)) → safe J (let! s := get_servo pin in k s).
Proof.
  intros Hp Hk o Ho. apply wp_bind. unfold get_servo. apply wp_bind, wp_get. pose proof Ho as (_ & _ & _ & Hl & Hs).
  unfold geta. replace (pin <? 0) with false by lia.
  destruct (lookup_lt_is_Some_2 (_servoData (own o)) (Z.to_nat pin)) as [x Hx]; [lia|].
  eapply wp_eq; [unfold mlift; by rewrite Hx|]. apply Hk; [|done]. by apply (Forall_lookup_1 _ _ _ _ Hs Hx).
Qed.

Lemma pca_writeDevice pin v : safe J (writeDevice pin v).
Proof. unfold writeDevice. safes; done. Qed.
Lemma pca_updatePin pin : 0 <= pin < N → safe J (updatePin pin).
Proof.
  intros Hp. unfold updatePin. apply pca_get; [done|]. intros [s|] Hs; [|apply safely_ret].
  destruct (updatePosition_ok s Hs) as (s' & out & E & Hs'). rewrite E.
  intros o Ho. eapply wp_bind. eapply wp_eq; [done|]. revert o Ho.
  change (safe J (put_servo pin s' ;;; match out with Some value => writeDevice pin value | None => mreturn tt end)).
  apply safely_bind; [by apply pca_put|]. intros _. destruct out; [apply pca_writeDevice|apply safely_ret].
Qed.
Lemma pca_loop t : safe J (_loop t).
Proof.
  unfold _loop. apply safe_getid. intros o Ho. destruct Ho as (_ & E & _).
  apply safely_bind; [|intros; apply safe_delayUntil]. apply safely_mfor. intros x Hx%elem_of_rangeZ. apply pca_updatePin.
  lia.
Qed.

Context (vpin : Z) (Hv : F <= vpin < F + N).
Lemma pca_pin o : J o → i16 (vpin - _firstVpin (base o)) = vpin - F ∧ i8 (vpin - _firstVpin (base o)) = vpin - F.
Proof. intros (E & _). rewrite E. clear -Hv HN. split; unfold i16, i8; Z.div_mod_to_equations; lia. Qed.
Lemma pca_writeAnalogue x p d : safe J (_writeAnalogue vpin x p d).
Proof.
  unfold _writeAnalogue. apply safe_getid. intros o Ho. apply safely_if; [intros; apply safely_ret|]. intros _.
  destruct (pca_pin o Ho) as [-> _]. apply pca_get; [lia|]. intros s Hs. apply pca_put, start_ok.
Qed.
Lemma pca_write x : safe J (_write vpin x).
Proof.
  unfold _write. apply safe_getid. intros o Ho. destruct (pca_pin o Ho) as [-> _]. apply pca_get; [lia|].
  intros [s|] _; apply pca_writeAnalogue.
Qed.
Lemma pca_configure t ps : safe J (_configure vpin t ps).
Proof.
  unfold _configure. destruct t, ps as [|a [|b [|c [|d [|e [|? ?]]]]]]; try apply safely_ret.
  apply safe_getid. intros o Ho. destruct (pca_pin o Ho) as [_ ->]. apply pca_get; [lia|]. intros s Hs. cbv zeta.
  apply safely_bind; [|intros _; apply safely_bind; [|intros _; apply safely_ret]; apply safely_if; intros _; [apply pca_writeAnalogue|apply safely_ret]].
  apply pca_put. destruct s as [s|]; [by destruct Hs as (? & ? & ?)|apply no_data_ok].
Qed.
Lemma pca_read : safe J (_read vpin).
Proof.
  unfold _read. apply safe_getid. intros o Ho. apply safely_if; [intros; apply safely_ret|]. intros _.
  destruct (pca_pin o Ho) as [-> _]. apply pca_get; [lia|]. intros s _. apply safely_ret.
Qed.
End servo.

(** ** Port extenders *)

Section gpio.
Import GPIOBase.GPIOBase.
#[local] Set Default Proof Using "All".
Context (F N w : Z) (nxt : option ptr).
Definition gpio_ok (x : GPIO) : Prop := (∃ c, chip x = Some c ∧ width_of c = w) ∧ width x = w.
Notation J := (in_order F N nxt gpio_ok).
Context (HF : 0 <= F) (HN : N <= w) (Hw : w = 8 ∨ w = 16).

Lemma gpio_i2c bs : safe J (i2c bs).
Proof. unfold i2c. safes. Qed.
Lemma gpio_chip {A} (k : GPIO → M (Obj GPIO) A) : (∀ g c, gpio_ok g → chip g = Some c → safe J (k g)) → safe J (let! g := mget own in k g).
Proof. intros Hk. apply safely_get. intros o (_ & _ & _ & Ho). destruct (Ho) as [(c & Hc & _) _]. by eapply Hk. Qed.
Ltac gps1 := lazymatch goal with |- safe _ (i2c _) => apply gpio_i2c | _ => safe1 end.
Ltac gps := repeat (gps1; cbv zeta beta); try done.

Lemma gpio_writeGpioPort : safe J _writeGpioPort.
Proof. unfold _writeGpioPort. apply gpio_chip. intros g c _ ->. destruct c; autounfold with chips; gps. Qed.
Lemma gpio_writePullups : safe J _writePullups.
Proof. unfold _writePullups. apply gpio_chip. intros g c _ ->. destruct c; autounfold with chips; gps. Qed.
Lemma gpio_writePortModes : safe J _writePortModes.
Proof. unfold _writePortModes. apply gpio_chip. intros g c _ ->. destruct c; autounfold with chips; gps. Qed.
Lemma gpio_readGpioPort b : safe J (_readGpioPort b).
Proof. unfold _readGpioPort. apply gpio_chip. intros g c _ ->. destruct c; autounfold with chips; gps. Qed.
Lemma gpio_processCompletion st : safe J (_processCompletion st).
Proof. unfold _processCompletion. apply gpio_chip. intros g c _ ->. destruct c; autounfold with chips; gps. Qed.
Lemma gpio_setupDevice : safe J _setupDevice.
Proof. unfold _setupDevice. apply gpio_chip. intros g c _ ->. destruct c; autounfold with chips; gps. Qed.
Ltac gpss := repeat (lazymatch goal with
  | |- safe _ _writeGpioPort => apply gpio_writeGpioPort | |- safe _ _writePullups => apply gpio_writePullups
  | |- safe _ _writePortModes => apply gpio_writePortModes | |- safe _ (_readGpioPort _) => apply gpio_readGpioPort
  | |- safe _ (_processCompletion _) => apply gpio_processCompletion | |- safe _ _setupDevice => apply gpio_setupDevice
  | _ => gps1
  end; cbv zeta beta); try done.
Lemma gpio_begin : safe J _begin.
Proof. unfold _begin. gpss. Qed.
Lemma gpio_loop t : safe J (_loop t).
Proof. unfold _loop, finish_scan, begin_scan, hasCallbacks, notify_pin. gpss. Qed.

Context (vpin : Z) (Hv : F <= vpin < F + N).
Lemma gpio_mask {A} o W (k : Z → M (Obj GPIO) A) : J o → (∀ m, safe J (k m)) →
  safe J (let! m := mask_for W (pin_of vpin (base o)) in k m).
Proof.
  intros (E & _) Hk. unfold mask_for, pin_of. rewrite E.
  replace ((i16 (vpin - F) <? 0) || (16 <=? i16 (vpin - F))) with false.
  - apply safely_bind; [apply safely_ret|done].
  - symmetry. apply orb_false_iff. clear -Hv HN Hw. unfold i16. split; Z.div_mod_to_equations; lia.
Qed.
Lemma gpio_configure t ps : safe J (_configure vpin t ps).
Proof.
  unfold _configure. destruct t, ps as [|a [|b ps]]; try apply safely_ret.
  apply safe_getid. intros o Ho. apply gpio_mask; [done|]. intros m. gpss.
Qed.
Lemma gpio_write x : safe J (_write vpin x).
Proof. unfold _write. apply safe_getid. intros o Ho. apply gpio_mask; [done|]. intros m. gpss. Qed.
Lemma gpio_read : safe J (_read vpin).
Proof. unfold _read. apply safe_getid. intros o Ho. apply gpio_mask; [done|]. intros m. gpss. Qed.
End gpio.

(** ** Bitmaps, accessory decoders, strips of lamps *)

Lemma dcc_write F N nxt ok v x : safe (in_order F N nxt ok) (DCCAccessory._write v x).
Proof. unfold DCCAccessory._write. safes. Qed.

Section small.
#[local] Set Default Proof Using "All".
Context (F N : Z) (nxt : option ptr) (HF : 0 <= F) (HN : N < 32768) (vpin : Z) (Hv : F <= vpin < F + N).

Definition bitmap_ok (x : Bitmap.Bitmap) : Prop := Z.of_nat (length x) = N.
Notation J := (in_order F N nxt bitmap_ok).
Lemma small_pin : i16 (vpin - F) = vpin - F.
Proof. clear -Hv HN. unfold i16. Z.div_mod_to_equations; lia. Qed.
Lemma bitmap_value : safe J (Bitmap.value_at vpin).
Proof.
  unfold Bitmap.value_at. apply safe_getid. intros o (E & _ & _ & Ho). unfold Bitmap.Bitmap, bitmap_ok in *.
  rewrite E, small_pin.
  apply safe_geta1. lia.
Qed.
Lemma bitmap_set x : safe J (Bitmap.set_value vpin x).
Proof.
  unfold Bitmap.set_value. apply safe_getid. intros o (E & _ & _ & Ho).
  apply safely_bind; [apply bitmap_value|]. intros _. apply safe_put_own. unfold bitmap_ok. by rewrite seta_length.
Qed.
Lemma bitmap_read : safe J (Bitmap._read vpin).
Proof. apply safely_bind; [apply bitmap_value|]. intros. apply safely_ret. Qed.

End small.

Section neopixel.
Import NeoPixel.
#[local] Set Default Proof Using "All".
Context (F N : Z) (nxt : option ptr).
Definition neo_ok (x : NeoPixel) : Prop :=
  Z.of_nat (length (pixelBuffer x)) = N ∧ Z.of_nat (length (stateBuffer x)) = (N + 7) / 8.
Notation J := (in_order F N nxt neo_ok).
Context (HF : 0 <= F) (HFN : F + N < 65536) (HN : 0 <= N).

Lemma neo_i2c bs : safe J (i2c bs).
Proof. unfold i2c. safes. Qed.
Lemma neo_index i : 0 <= i < N → 0 <= Z.quot i 8 < (N + 7) / 8.
Proof. clear. intros H. rewrite Z.quot_div_nonneg by lia. Z.div_mod_to_equations; lia. Qed.
Lemma neo_own {A} (k : NeoPixel → M (Obj NeoPixel) A) : (∀ g, neo_ok g → safe J (k g)) → safe J (let! g := mget own in k g).
Proof. intros Hk. apply safely_get. intros o Ho. apply Hk, Ho. Qed.
Lemma neo_isOn i : 0 <= i < N → safe J (isPixelOn i).
Proof.
  intros Hi. unfold isPixelOn. apply neo_own. intros g [_ Hg]. pose proof (neo_index i Hi).
  apply safe_geta; [lia|]. intros. apply safely_ret.
Qed.
Lemma neo_set f i : 0 <= i < N → safe J (set_state f i).
Proof.
  intros Hi. unfold set_state. apply neo_own. intros g [H1 Hg]. pose proof (neo_index i Hi).
  apply safe_geta; [lia|]. intros. apply safe_put_own. split; cbn; [done|by rewrite seta_length].
Qed.
Lemma neo_transmit i : 0 <= i < N → safe J (transmit i).
Proof.
  intros Hi. unfold transmit. apply neo_own. intros g [H1 Hg]. cbv zeta.
  apply safely_bind; [by apply neo_isOn|]. intros b. apply safely_bind.
  - apply safely_if; intros _; [|apply safely_ret]. apply safe_geta; [lia|]. intros. apply safely_ret.
  - intros l. apply safely_bind; [apply neo_i2c|]. intros _. apply safe_own. done.
Qed.
Lemma neo_begin : safe J _begin.
Proof.
  unfold _begin. apply safely_bind; [apply safe_log|]. intros _. apply safe_getid. intros o (_ & E & _).
  repeat (first [apply neo_i2c | safe1]; cbv zeta beta).
  apply neo_transmit. match goal with H : _ ∈ rangeZ _ _ |- _ => apply elem_of_rangeZ in H end. lia.
Qed.
Lemma neo_loop : safe J _loop.
Proof. unfold _loop. repeat (first [apply neo_i2c | safe1]; cbv zeta beta). Qed.
Lemma neo_unless {A} (a : A) m : safe J m → safe J (unless_failed a m).
Proof. intros Hm. unfold unless_failed. safes. done. Qed.
Lemma neo_pixel o v : J o → F <= v < F + N → 0 <= pixel_of v (base o) < N.
Proof.
  intros (E & _) Hv. unfold pixel_of. rewrite E. rewrite u16_id; [lia|]. clear -Hv HF HFN. unfold is_u16. lia.
Qed.
Lemma neo_onoff (b : bool) i : 0 <= i < N → safe J (if b then setPixelOn i else setPixelOff i).
Proof. intros Hi. destruct b; by apply neo_set. Qed.

Lemma neo_write v x : F <= v < F + N → safe J (_write v x).
Proof.
  intros Hv. unfold _write. apply neo_unless. apply safe_getid. intros o Ho. cbv zeta.
  pose proof (neo_pixel o v Ho Hv) as Hi. apply safely_bind; [by apply neo_isOn|]. intros b.
  apply safely_if; intros _; [apply safely_ret|]. apply safely_bind; [by apply neo_onoff|]. intros _. by apply neo_transmit.
Qed.
Lemma neo_writeAnalogue v x a b : F <= v < F + N → safe J (_writeAnalogue v x a b).
Proof.
  intros Hv. unfold _writeAnalogue. apply neo_unless. apply safe_getid. intros o Ho. cbv zeta.
  pose proof (neo_pixel o v Ho Hv) as Hi. destruct Ho as (_ & _ & _ & Ho & _).
  apply safe_geta; [lia|]. intros old _. apply safely_bind; [by apply neo_isOn|]. intros on.
  apply safely_if; intros _; [apply safely_ret|]. apply safely_bind; [by apply neo_onoff|]. intros _.
  apply safely_bind; [|intros _; by apply neo_transmit]. apply safe_own. intros y [? ?]. split; cbn; [by rewrite seta_length|done].
Qed.
Lemma neo_read v : F <= v < F + N → safe J (_read v).
Proof.
  intros Hv. unfold _read. apply neo_unless. apply safe_getid. intros o Ho.
  apply safely_bind; [apply neo_isOn; by apply neo_pixel|]. intros. apply safely_ret.
Qed.
End neopixel.

End DriverSafe.
