(* ===== verification/DriversLaws.v ===== *)
(** The classes of device objects keep the promises that the layer asks of a driver
    ([DriverLaws]), and so does the creation of each kind of device. *)

From S2P Require Import Prelude Chain IODevice ArduinoPins PCA9685 GPIOBase Bitmap DCCAccessory NeoPixel Drivers IODeviceProps DriverSafe.

#[local] Open Scope Z_scope.
#[local] Open Scope c_scope.

(** The devices keep what the layer asks of them: the laws of IODeviceSpec for the classes of
    Drivers, from what each does to its own object. *)

Module DriversLaws.
Import IODevice.IODevice IODeviceSpec Bits Drivers.Drivers DriverSafe.DriverSafe ServoData.

#[export] Instance driver_kind : Kind driver := {
  kind d := match d with
    | DArduinoPins _ => 0 | DPCA9685 _ => 1 | DGPIO _ => 2 | DBitmap _ => 3 | DDCCAccessory _ => 4
    | DNeoPixel _ => 5 | DServo _ => 6
    end;
  ranges k := k =? 5
}.

Notation H := (HAL driver).
Implicit Types (s : H) (d : Device driver) (p : ptr).

(** ** Objects in order *)

Definition servo_own_ok (N slavePin : Z) (slave : option ptr) (x : Servo) : Prop :=
  Z.of_nat (length (_servoData x)) = N ∧ servos_ok (_servoData x) ∧ _firstSlavePin x = slavePin ∧ _slaveDevice x = slave.

Definition data_ok (F N : Z) (x : driver) : Prop :=
  match x with
  | DArduinoPins x => N <= 255 ∧ arduino_ok N x
  | DPCA9685 x => N <= 16 ∧ pca_ok N x
  | DGPIO x => (GPIOBase.width x = 8 ∨ GPIOBase.width x = 16) ∧ N <= GPIOBase.width x ∧
      ∃ c, GPIOBase.chip x = Some c ∧ GPIOBase.width_of c = GPIOBase.width x
  | DBitmap x => N < 32768 ∧ bitmap_ok N x
  | DDCCAccessory _ => True
  | DNeoPixel x => F + N < 65536 ∧ neo_ok N x
  | DServo x => N <= 16 ∧ Z.of_nat (length (_servoData x)) = N ∧ servos_ok (_servoData x)
  end.
Definition local_ok d : Prop :=
  0 <= _firstVpin (dbase d) < 65536 ∧ 0 <= _nPins (dbase d) < 65536 ∧
  data_ok (_firstVpin (dbase d)) (_nPins (dbase d)) (drv d).

(** The slave of a servo is there and has the pins the servo moves. *)
Definition slave_ok s d : Prop :=
  match drv d with
  | DServo x => ∃ q, _slaveDevice x = Some q ∧
      ∀ i, 0 <= i < _nPins (dbase d) → covers s q (u16 (_firstSlavePin x + i))
  | _ => True
  end.

Definition all_good s : Prop :=
  (∃ l, chain (devices s) (_firstDevice s) l) ∧ ∀ p d, devices s !! p = Some d → local_ok d ∧ slave_ok s d.

Lemma slave_same s s' d : same s s' → slave_ok s d → slave_ok s' d.
Proof.
  intros Hs. unfold slave_ok. destruct (drv d); try done. intros (q & Hq & Hc). exists q. split; [done|].
  intros i Hi. rewrite <-Hs. by apply Hc.
Qed.

Lemma layer_good_update s p d d' b : all_good s → devices s !! p = Some d → frame_of d' = frame_of d → local_ok d' → slave_ok s d' →
  let s' := with_hbus b (with_devices (<[p := d']> (devices s)) s) in all_good s' ∧ same s s'.
Proof.
  intros [[l Hl] Hg] Hd Hf Hd' Hs' s'. assert (same s s') as Hs by by apply (same_insert s p d).
  split; [|done]. split; [exists l; by apply (same_chain s)|].
  intros q e. unfold s' at 1. cbn. intros [[<- <-]|[Hne He]]%lookup_insert_Some.
  - split; [done|]. by apply (slave_same s).
  - destruct (Hg q e He). split; [done|]. by apply (slave_same s).
Qed.

(** The base of a device may change but for its frame. *)
Lemma good_base s p d (f : Base → Base) : all_good s → devices s !! p = Some d →
  (∀ b, _firstVpin (f b) = _firstVpin b ∧ _nPins (f b) = _nPins b ∧ _nextDevice (f b) = _nextDevice b) →
  all_good (with_devices (<[p := mkDevice (f (dbase d)) (drv d)]> (devices s)) s).
Proof.
  intros Hg Hd Hf. destruct (Hf (dbase d)) as (E1 & E2 & E3). destruct Hg as [Hl Hg]. destruct (Hg p d Hd) as [Hd' Hs].
  destruct (layer_good_update s p d (mkDevice (f (dbase d)) (drv d)) (hbus s)) as [H _]; [done|done|..|exact H].
  - unfold frame_of. cbn. by rewrite E1, E2, E3.
  - unfold local_ok in *. cbn. by rewrite E1, E2.
  - unfold slave_ok in *. cbn. by rewrite E2.
Qed.

(** A function of an object, called through the layer. *)
Lemma run_own_ok {X A} (inj : X → driver) s p d x ok (m : M (Obj X) A) :
  all_good s → devices s !! p = Some d → drv d = inj x → ok x →
  (∀ y, ok y → data_ok (_firstVpin (dbase d)) (_nPins (dbase d)) (inj y) ∧ kind (inj y) = kind (inj x) ∧
     (∀ b, _nPins b = _nPins (dbase d) → slave_ok s (mkDevice b (inj y)))) →
  safe (in_order (_firstVpin (dbase d)) (_nPins (dbase d)) (_nextDevice (dbase d)) ok) m →
  wp (run_own inj p (dbase d) x m) (λ _ s', all_good s' ∧ same s s') s.
Proof.
  intros Hg Hd Hx Hok Hy Hm. specialize (Hm (mkObj (dbase d) x (hbus s))). unfold wp, run_own in *.
  destruct (m _) as [[a o]|]; [|by apply Hm]. destruct Hm as (E1 & E2 & E3 & Ho); [done|]. cbn.
  destruct (Hy (own o) Ho) as (Hdata & Hk & Hsl).
  destruct (Hg) as [_ Hall]. destruct (Hall p d Hd) as [(H1 & H2 & _) _].
  apply (layer_good_update s p d); [done|done| | |].
  - unfold frame_of. cbn [dbase drv]. by rewrite E1, E2, E3, Hk, Hx.
  - unfold local_ok. cbn. by rewrite E1, E2.
  - by apply Hsl.
Qed.

(** The pin of a device that has it. *)
Lemma owns_range d v : local_ok d → owns (dbase d) v = true →
  _firstVpin (dbase d) <= v < _firstVpin (dbase d) + _nPins (dbase d) ∧ v < 65536.
Proof.
  intros (H1 & H2 & _). unfold owns. intros Ho%andb_true_iff. destruct Ho as [Ha Hb].
  revert Hb. unfold u16. clear -H1 H2 Ha. intros. Z.div_mod_to_equations; lia.
Qed.

Lemma good_local s p d : all_good s → devices s !! p = Some d → local_ok d.
Proof. intros [_ Hg] Hd. by apply (Hg p d). Qed.

(** The dispatch of a virtual function. *)
Lemma object_ok {A} s p d (k : Device driver → M H A) Q : devices s !! p = Some d → wp (k d) Q s → wp (let! d := object p in k d) Q s.
Proof. intros Hd Hk. apply wp_bind. eapply wp_eq; [unfold object, getDevice; by rewrite Hd|]. exact Hk. Qed.

Lemma nothing_ok {A} (a : A) s : all_good s → wp (mreturn a) (λ _ s', all_good s' ∧ same s s') s.
Proof. intros Hg. by apply wp_ret. Qed.
Lemma then_ok {A B} (m : M H A) (k : A → M H B) s : wp m (λ _ s', all_good s' ∧ same s s') s →
  (∀ a s', all_good s' → same s s' → wp (k a) (λ _ s'', all_good s'' ∧ same s' s'') s') →
  wp (mthen m k) (λ _ s', all_good s' ∧ same s s') s.
Proof.
  intros Hm Hk. apply wp_bind. eapply wp_mono; [exact Hm|]. intros a s1 [Hg1 Hs1]. eapply wp_mono; [by apply Hk|].
  intros b s2 [Hg2 Hs2]. split; [done|by etrans].
Qed.

(** A call on an object whose data do not depend on other devices. *)
Ltac own_call L :=
  eapply (run_own_ok _ _ _ _ _ L); [eassumption|eassumption|eassumption|intuition done|
    intros ? ?; split; [cbn; intuition done|split; [done|done]]|].
Ltac gpio_call y :=
  let z := fresh "z" in let Hz := fresh "Hz" in
  eapply (run_own_ok _ _ _ _ _ (gpio_ok (GPIOBase.width y))); [eassumption|eassumption|eassumption|split; [tauto|reflexivity]|
    intros z [? Hz]; split; [cbn [data_ok]; rewrite Hz; tauto|split; [done|done]]|].
Ltac dispatch :=
  let Hg := fresh "Hg" in let d := fresh "d" in let Hd := fresh "Hd" in let Ho := fresh "Ho" in
  let Hl := fresh "Hl" in let Hdata := fresh "Hdata" in
  intros Hg (d & Hd & Ho); apply (object_ok _ _ d _ _ Hd); pose proof (good_local _ _ _ Hg Hd) as Hl;
  destruct (owns_range _ _ Hl Ho) as [Hv Hv2]; destruct Hl as (HF & HN & Hdata);
  destruct (drv d) as [y|y|y|y|y|y|y] eqn:Ey; cbn [data_ok] in Hdata; try (by apply nothing_ok).

(** The function of a servo that acts on itself alone. *)
Lemma servo_get_safe {A} F N nxt sp sl pin (k : option ServoData → M (Obj Servo) A) : 0 <= pin < N →
  (∀ o, match o with Some z => servo_ok z | None => True end → safe (in_order F N nxt (servo_own_ok N sp sl)) (k o)) →
  safe (in_order F N nxt (servo_own_ok N sp sl)) (let! o := servo_get pin in k o).
Proof.
  intros Hp Hk o Ho. apply wp_bind. unfold servo_get. apply wp_bind, wp_get. pose proof Ho as (_ & _ & _ & Hl & Hs & _).
  unfold geta. replace (pin <? 0) with false by lia.
  destruct (lookup_lt_is_Some_2 (_servoData (own o)) (Z.to_nat pin)) as [x Hx]; [lia|].
  eapply wp_eq; [unfold mlift; by rewrite Hx|]. apply Hk; [|done]. by apply (Forall_lookup_1 _ _ _ _ Hs Hx).
Qed.
Lemma servo_put_safe F N nxt sp sl pin z : servo_ok z → safe (in_order F N nxt (servo_own_ok N sp sl)) (servo_put pin z).
Proof.
  intros Hs. apply safe_own. intros x (Hl & Hx & H1 & H2). split_and!; cbn; [by rewrite seta_length|by apply servos_insert|done|done].
Qed.
Lemma servo_pin F N (v : Z) : 0 <= F → N <= 16 → F <= v < F + N → i16 (v - F) = v - F ∧ i8 (v - F) = v - F.
Proof. intros. unfold i16, i8. split; Z.div_mod_to_equations; lia. Qed.
Lemma servo_writeAnalogue_safe F N nxt sp sl v x a b : 0 <= F → N <= 16 → F <= v < F + N →
  safe (in_order F N nxt (servo_own_ok N sp sl)) (servo_writeAnalogue v x a b).
Proof.
  intros HF HN Hv. unfold servo_writeAnalogue. apply safe_getid. intros o (E & _).
  apply safely_if; intros _; [apply safely_ret|]. cbv zeta. rewrite E. destruct (servo_pin F N v HF HN Hv) as [-> _].
  apply servo_get_safe; [lia|]. intros z _. apply servo_put_safe, start_ok.
Qed.

(** A servo's call on itself. *)
Lemma servo_run_ok {A} s p d x (m : M (Obj Servo) A) : all_good s → devices s !! p = Some d → drv d = DServo x →
  safe (in_order (_firstVpin (dbase d)) (_nPins (dbase d)) (_nextDevice (dbase d))
         (servo_own_ok (_nPins (dbase d)) (_firstSlavePin x) (_slaveDevice x))) m →
  wp (run_own DServo p (dbase d) x m) (λ _ s', all_good s' ∧ same s s') s.
Proof.
  intros Hg Hd Ex Hm. destruct (Hg) as [_ Hall]. destruct (Hall p d Hd) as [(_ & _ & Hdata) Hsl].
  unfold slave_ok in Hsl. rewrite Ex in Hdata, Hsl. cbn in Hdata. destruct Hdata as (H1 & H2 & H3).
  eapply (run_own_ok _ _ _ _ _ (servo_own_ok (_nPins (dbase d)) (_firstSlavePin x) (_slaveDevice x)));
    [done|done|done|by split_and!| |done].
  intros y (Hy1 & Hy2 & Hy3 & Hy4). split; [done|]. split; [done|]. intros b Hb. unfold slave_ok. cbn.
  destruct Hsl as (q & Hq & Hc). exists q. rewrite Hy4, Hy3, Hb. done.
Qed.

Lemma writeAnalogue_good s p v x a b : all_good s → covers s p v → wp (writeAnalogue_drivers p v x a b) (λ _ s', all_good s' ∧ same s s') s.
Proof.
  dispatch.
  - own_call (pca_ok (_nPins (dbase d))). apply pca_writeAnalogue; lia.
  - own_call (bitmap_ok (_nPins (dbase d))). apply bitmap_set; lia.
  - own_call (neo_ok (_nPins (dbase d))). apply neo_writeAnalogue; lia.
  - apply servo_run_ok; [done..|]. apply servo_writeAnalogue_safe; lia.
Qed.

(** The static function, as the servos call it. *)
Lemma static_writeAnalogue_good s v x a b : all_good s → wp (writeAnalogue v x a b) (λ _ s', all_good s' ∧ same s s') s.
Proof.
  intros Hg. destruct (Hg) as [[l Hl] _]. unfold writeAnalogue. apply wp_bind. eapply wp_eq; [by apply findDevice_spec|].
  destruct (find (has (devices s) v) l) as [p|] eqn:E; [|by apply nothing_ok].
  apply find_has in E as [_ Hc]. by apply writeAnalogue_good.
Qed.

Lemma begin_good s p : all_good s → is_Some (devices s !! p) → wp (begin_drivers p) (λ _ s', all_good s' ∧ same s s') s.
Proof.
  intros Hg [d Hd]. apply (object_ok _ _ d _ _ Hd). pose proof (good_local _ _ _ Hg Hd) as (HF & HN & Hdata).
  destruct (drv d) as [y|y|y|y|y|y|y] eqn:Ey; cbn [data_ok] in Hdata; try (by apply nothing_ok).
  - own_call (pca_ok (_nPins (dbase d))). apply pca_begin; lia.
  - gpio_call y. apply gpio_begin; lia || tauto.
  - own_call (bitmap_ok (_nPins (dbase d))). apply safe_setState.
  - own_call (neo_ok (_nPins (dbase d))). apply neo_begin; lia.
Qed.

Lemma write_good s p v x : all_good s → covers s p v → wp (write_drivers p v x) (λ _ s', all_good s' ∧ same s s') s.
Proof.
  dispatch.
  - own_call (arduino_ok (_nPins (dbase d))). apply arduino_write; lia.
  - own_call (pca_ok (_nPins (dbase d))). apply pca_write; lia.
  - gpio_call y. apply gpio_write; lia || tauto.
  - own_call (bitmap_ok (_nPins (dbase d))). apply bitmap_set; lia.
  - own_call (λ _ : DCCAccessory.DCCAccessoryDecoder, True). apply dcc_write.
  - own_call (neo_ok (_nPins (dbase d))). apply neo_write; lia.
  - unfold servo_write. case_bool_decide; [by apply nothing_ok|].
    destruct (servo_pin (_firstVpin (dbase d)) (_nPins (dbase d)) v) as [-> _]; [lia..|].
    destruct Hdata as (_ & Hlen & _). unfold geta. replace (v - _firstVpin (dbase d) <? 0) with false by lia.
    destruct (lookup_lt_is_Some_2 (_servoData y) (Z.to_nat (v - _firstVpin (dbase d)))) as [z Hz]; [lia|].
    apply wp_bind. eapply wp_eq; [unfold mlift; by rewrite Hz|].
    destruct z; by apply static_writeAnalogue_good.
Qed.

Lemma read_good s p v : all_good s → covers s p v → wp (read_drivers p v) (λ _ s', all_good s' ∧ same s s') s.
Proof.
  dispatch.
  - own_call (arduino_ok (_nPins (dbase d))). apply arduino_read; lia.
  - own_call (pca_ok (_nPins (dbase d))). apply pca_read; lia.
  - gpio_call y. apply gpio_read; lia || tauto.
  - own_call (bitmap_ok (_nPins (dbase d))). apply bitmap_read; lia.
  - own_call (neo_ok (_nPins (dbase d))). apply neo_read; lia.
  - unfold servo_read. case_bool_decide; [by apply nothing_ok|].
    destruct (servo_pin (_firstVpin (dbase d)) (_nPins (dbase d)) v) as [-> _]; [lia..|].
    destruct Hdata as (_ & Hlen & _). unfold geta. replace (v - _firstVpin (dbase d) <? 0) with false by lia.
    destruct (lookup_lt_is_Some_2 (_servoData y) (Z.to_nat (v - _firstVpin (dbase d)))) as [z Hz]; [lia|].
    apply wp_bind. eapply wp_eq; [unfold mlift; by rewrite Hz|]. by apply nothing_ok.
Qed.

Lemma readAnalogue_good s p v : all_good s → covers s p v → wp (readAnalogue_drivers p v) (λ _ s', all_good s' ∧ same s s') s.
Proof.
  dispatch.
  - own_call (arduino_ok (_nPins (dbase d))). apply arduino_readAnalogue; lia.
  - own_call (bitmap_ok (_nPins (dbase d))). apply bitmap_value; lia.
Qed.
Lemma configureAnalogIn_good s p v : all_good s → covers s p v → wp (configureAnalogIn_drivers p v) (λ _ s', all_good s' ∧ same s s') s.
Proof. dispatch. own_call (arduino_ok (_nPins (dbase d))). apply arduino_configureAnalogIn; lia. Qed.

Lemma configure_good s p v t ps : all_good s → covers s p v → wp (configure_drivers p v t ps) (λ _ s', all_good s' ∧ same s s') s.
Proof.
  dispatch.
  - own_call (arduino_ok (_nPins (dbase d))). apply arduino_configure; lia.
  - own_call (pca_ok (_nPins (dbase d))). apply pca_configure; lia.
  - gpio_call y. apply gpio_configure; lia || tauto.
  - unfold servo_configure. case_bool_decide; [by apply nothing_ok|].
    destruct t, ps as [|q1 [|q2 [|q3 [|q4 [|q5 [|? ?]]]]]]; try (by apply nothing_ok).
    cbv zeta. destruct (servo_pin (_firstVpin (dbase d)) (_nPins (dbase d)) v) as [_ ->]; [lia..|].
    destruct (Hdata) as (_ & Hlen & Hok). unfold geta. replace (v - _firstVpin (dbase d) <? 0) with false by lia.
    destruct (lookup_lt_is_Some_2 (_servoData y) (Z.to_nat (v - _firstVpin (dbase d)))) as [z Hz]; [lia|].
    apply wp_bind. eapply wp_eq; [unfold mlift; by rewrite Hz|].
    apply then_ok; [|intros _ s' Hg' Hs'; apply then_ok; [|intros; by apply nothing_ok]].
    + apply servo_run_ok; [done..|]. apply servo_put_safe. destruct z as [z|]; [|apply no_data_ok].
      destruct (servos_lookup _ _ _ Hok Hz) as (? & ? & ?). done.
    + destruct (negb _); [by apply static_writeAnalogue_good|by apply nothing_ok].
Qed.

(** ** The loop functions *)

Lemma time_good s p d t : all_good s → devices s !! p = Some d →
  wp (modBase p (with__nextEntryTime t)) (λ _ s', all_good s' ∧ same s s') s.
Proof.
  intros Hg Hd. unfold modBase. apply wp_bind. eapply wp_eq; [unfold getDevice; by rewrite Hd|]. apply wp_mod. split.
  - by apply good_base.
  - by apply (same_insert s p d _ (hbus s)).
Qed.

Lemma servo_updatePin_good s p d pin : all_good s → devices s !! p = Some d → kind (drv d) = 6 → 0 <= pin < _nPins (dbase d) →
  wp (servo_updatePin p pin) (λ _ s', all_good s' ∧ same s s') s.
Proof.
  intros Hg Hd Hk Hp. unfold servo_updatePin. apply (object_ok _ _ d _ _ Hd).
  destruct (drv d) as [y|y|y|y|y|y|y] eqn:Ey; try done.
  destruct (Hg) as [_ Hall]. destruct (Hall p d Hd) as [(HF & HN & Hdata) Hsl].
  unfold slave_ok in Hsl. rewrite Ey in Hdata, Hsl. cbn [data_ok] in Hdata. destruct Hdata as (HN2 & Hlen & Hok).
  destruct Hsl as (q & Hq & Hc).
  unfold geta. replace (pin <? 0) with false by lia.
  destruct (lookup_lt_is_Some_2 (_servoData y) (Z.to_nat pin)) as [z Hz]; [lia|].
  apply wp_bind. eapply wp_eq; [unfold mlift; by rewrite Hz|]. destruct z as [z|]; [|by apply nothing_ok].
  destruct (updatePosition_ok z) as (z' & out & E & Hz'); [by eapply servos_lookup|].
  apply wp_bind. eapply wp_eq; [unfold mlift; by rewrite E|].
  apply then_ok; [apply servo_run_ok; [done..|]; by apply servo_put_safe|].
  intros _ s' Hg' Hs'. cbn. destruct out as [v|]; [|by apply nothing_ok].
  apply wp_bind. eapply wp_eq; [unfold mlift; by rewrite Hq|]. apply writeAnalogue_good; [done|]. rewrite <-Hs'. by apply Hc.
Qed.

Lemma servo_loop_good s p d t : all_good s → devices s !! p = Some d → kind (drv d) = 6 →
  wp (servo_loop p d t) (λ _ s', all_good s' ∧ same s s') s.
Proof.
  intros Hg Hd Hk. unfold servo_loop. case_bool_decide; [by apply nothing_ok|]. apply then_ok.
  - apply (wp_mfor (λ s', all_good s' ∧ same s s')); [|done]. intros pin s1 Hpin%elem_of_rangeZ [Hg1 Hs1].
    destruct (same_lookup s s1 p d Hs1 Hd) as (d1 & Hd1 & Hf).
    assert (kind (drv d1) = 6 ∧ _nPins (dbase d1) = _nPins (dbase d)) as [Hk1 HN1].
    { rewrite <-Hk. split; [exact (f_equal snd Hf)|exact (f_equal (λ x, snd (fst (fst x))) Hf)]. }
    eapply wp_mono; [apply (servo_updatePin_good s1 p d1); [done..|lia]|].
    intros _ s2 [Hg2 Hs2]. split; [done|by etrans].
  - intros _ s' Hg' Hs'. destruct (same_lookup s s' p d Hs' Hd) as (d1 & Hd1 & _). by apply (time_good _ _ d1).
Qed.

Lemma loop_good s p t : all_good s → is_Some (devices s !! p) → wp (loop_drivers p t) (λ _ s', all_good s' ∧ same s s') s.
Proof.
  intros Hg [d Hd]. apply (object_ok _ _ d _ _ Hd). pose proof (good_local _ _ _ Hg Hd) as (HF & HN & Hdata).
  destruct (drv d) as [y|y|y|y|y|y|y] eqn:Ey; cbn [data_ok] in Hdata; try (by apply (time_good _ _ d)).
  - own_call (pca_ok (_nPins (dbase d))). apply pca_loop; lia.
  - gpio_call y. apply gpio_loop; lia || tauto.
  - own_call (neo_ok (_nPins (dbase d))). apply neo_loop; lia.
  - apply servo_loop_good; [done..|]. by rewrite Ey.
Qed.

(** ** Ranges *)

Lemma device_unchanged s p d : devices s !! p = Some d → with_hbus (hbus s) (with_devices (<[p := d]> (devices s)) s) = s.
Proof. intros Hd. rewrite insert_id by done. by destruct s. Qed.

(** A loop of one object's function is a loop of calls through the layer. *)
Lemma neo_loop_eq p v0 : ∀ l b x s, devices s !! p = Some (mkDevice b (DNeoPixel x)) →
  run_own DNeoPixel p b x (mfor l (λ w, NeoPixel._write w v0)) s = mfor l (λ w, write_drivers p w v0) s.
Proof.
  induction l as [|w l IH]; intros b x s Hd.
  - unfold run_own, mfor. cbn. by rewrite (device_unchanged s p) by done.
  - rewrite mfor_cons. unfold mthen. unfold run_own at 1. rewrite mfor_cons. unfold mthen.
    assert (write_drivers p w v0 s = run_own DNeoPixel p b x (NeoPixel._write w v0) s) as ->.
    { unfold write_drivers, object, getDevice, mthen. by rewrite Hd. }
    unfold run_own at 1. destruct (NeoPixel._write w v0 _) as [[[] o]|]; [|done]. cbn.
    set (s1 := with_hbus _ _). rewrite <-(IH (base o) (own o) s1) by (unfold s1; cbn; by rewrite lookup_insert_eq).
    unfold run_own. assert (hbus s1 = bus o) as -> by done.
    replace (mkObj (base o) (own o) (bus o)) with o by by destruct o.
    destruct (mfor l _ o) as [[[] o']|]; [|done]. cbn. f_equal. f_equal. unfold s1, with_hbus, with_devices. cbn.
    by rewrite insert_insert_eq.
Qed.

(** A device that has failed writes nothing. *)
Lemma neo_failed_loop p v0 l s d x : devices s !! p = Some d → drv d = DNeoPixel x → _deviceState (dbase d) = DEVSTATE_FAILED →
  mfor l (λ w, write_drivers p w v0) s = Some (tt, s).
Proof.
  intros Hd Ex Hf. induction l as [|w l IH]; [done|]. rewrite mfor_cons. unfold mthen.
  assert (write_drivers p w v0 s = Some (tt, s)) as ->; [|done].
  unfold write_drivers, object, getDevice, mthen. rewrite Hd. cbn. rewrite Ex.
  unfold run_own, NeoPixel._write, NeoPixel.unless_failed, mthen, mget. cbn. rewrite bool_decide_eq_true_2 by done. cbn.
  rewrite <-Ex. replace (mkDevice (dbase d) (drv d)) with d by by destruct d. by rewrite device_unchanged.
Qed.

Lemma writeRange_own_law s p d v x n : all_good s → devices s !! p = Some d → own_range (drv d) = true →
  owns (dbase d) v = true → 0 < n → v + n <= _firstVpin (dbase d) + _nPins (dbase d) →
  writeRange_drivers p v x n s = (mfor (rangeZ v n) (λ v, write_drivers p v x) ;;; mreturn (v + n)) s.
Proof.
  intros Hg Hd Hr Ho Hn Hend. pose proof (good_local _ _ _ Hg Hd) as Hl. destruct (owns_range _ _ Hl Ho) as [Hv _].
  destruct Hl as (HF & HN & Hdata).
  destruct (drv d) as [y|y|y|y|y|y|y] eqn:Ey; try discriminate Hr. cbn [data_ok] in Hdata. destruct Hdata as [Hmax _].
  unfold writeRange_drivers. unfold mthen at 1, object, getDevice. rewrite Hd. cbn. rewrite Ey.
  unfold run_own at 1, NeoPixel._writeRange, NeoPixel.range. unfold mthen at 1, mget. cbn.
  replace (_nPins (dbase d) <? n) with false by lia. rewrite u16_id by (unfold is_u16; lia).
  replace (v + n - v) with n by lia. unfold NeoPixel.unless_failed.
  assert (mkDevice (dbase d) (DNeoPixel y) = d) as Ed by (destruct d; cbn in *; by subst).
  destruct (bool_decide (_deviceState (dbase d) = DEVSTATE_FAILED)) eqn:Ef.
  - cbn. unfold mthen. rewrite (neo_failed_loop p x _ s d y Hd Ey) by by apply bool_decide_eq_true in Ef. cbn.
    rewrite Ed. by rewrite device_unchanged.
  - pose proof (neo_loop_eq p x (rangeZ v n) (dbase d) y s) as E. rewrite Ed in E. specialize (E Hd).
    unfold mthen. rewrite <-E. unfold run_own.
    destruct (mfor (rangeZ v n) (λ w, NeoPixel._write w x) (mkObj (dbase d) y (hbus s))) as [[[] o]|]; done.
Qed.

#[export] Instance driver_laws : DriverLaws driver.
Proof.
  refine {| good := all_good |}.
  - intros s x [[l Hl] Hg]. split; [by exists l|done].
  - intros s p d t Hg Hd. by apply good_base.
  - intros s p d Hg Hd. by apply good_base.
  - apply begin_good.
  - apply loop_good.
  - intros s p v t l. apply configure_good.
  - intros s p v x. apply write_good.
  - intros s p v x a b. apply writeAnalogue_good.
  - intros s p v. apply read_good.
  - intros s p v. apply readAnalogue_good.
  - intros s p v. apply configureAnalogIn_good.
  - intros s p d v x n Hd Ho. unfold _writeRange. cbn [drivers]. unfold writeRange_drivers, mthen at 1, object, getDevice.
    rewrite Hd. cbn. by destruct (drv d).
  - intros s p d v x n. apply writeRange_own_law.
Defined.

End DriversLaws.

(** The creation of devices: the new object is linked into the chain and keeps the layer in
    order. A servo must find all its pins on one device below it. *)

Module DriversCreate.
Import IODevice.IODevice IODeviceSpec IODeviceProps.IODeviceProps Bits Drivers.Drivers DriverSafe.DriverSafe DriversLaws ServoData.

Notation H := (HAL driver).
Implicit Types (s : H) (d : Device driver) (p : ptr).

Lemma chain_insert_after {C} `{Linked C} (h : gmap ptr C) q l1 x cx p cp r :
  chain h q (l1 ++ x :: r) → h !! x = Some cx → h !! p = Some cp → p ∉ l1 ++ x :: r →
  chain (<[x := setnx (Some p) cx]> (<[p := setnx (nx cx) cp]> h)) q (l1 ++ x :: p :: r).
Proof.
  intros Hl Hx Hp Hn. pose proof (chain_NoDup _ _ _ Hl) as Hnd. revert q Hl Hn Hnd.
  induction l1 as [|y l1 IH]; intros q Hl Hn Hnd; cbn [app] in *.
  - destruct Hl as [-> (c & Hc & Hl)]. simplify_eq. apply not_elem_of_cons in Hn as [Hpx Hpr].
    apply NoDup_cons in Hnd as [Hxr _]. split; [done|]. eexists. rewrite lookup_insert_eq, nx_setnx. split; [done|].
    split; [done|]. eexists. rewrite lookup_insert_ne, lookup_insert_eq, nx_setnx by done. split; [done|].
    apply chain_insert_ne; [done|]. by apply chain_insert_ne.
  - destruct Hl as [-> (c & Hc & Hl)]. apply not_elem_of_cons in Hn as [Hpy Hpn].
    apply NoDup_cons in Hnd as [Hy Hnd]. split; [done|]. exists c. split; [|by apply IH].
    rewrite lookup_insert_ne, lookup_insert_ne; [done|done|]. intros ->. apply Hy. apply elem_of_app. right. by left.
Qed.

(** The devices but for their links. *)
Definition unlinked s : gmap ptr (Device driver) := setnx None <$> devices s.

Definition linked_to p (l : list ptr) s s' : Prop :=
  unlinked s' = unlinked s ∧ hbus s' = hbus s ∧ ∃ l', chained l' s' ∧ ∀ x, x ∈ l' ↔ x = p ∨ x ∈ l.

Lemma unlinked_insert (h : gmap ptr (Device driver)) q d n : h !! q = Some d →
  setnx None <$> <[q := setnx n d]> h = setnx None <$> h.
Proof.
  intros Hd. rewrite fmap_insert. apply insert_id. by rewrite lookup_fmap, Hd.
Qed.

Lemma link_after p dp l1 x dx r s : chained (l1 ++ x :: r) s → devices s !! p = Some dp → p ∉ l1 ++ x :: r →
  devices s !! x = Some dx →
  wp (modBase p (with__nextDevice (nx dx)) ;;; modBase x (with__nextDevice (Some p)))
     (λ _ s', linked_to p (l1 ++ x :: r) s s') s.
Proof.
  intros [Hl Hn] Hp Hpl Hx. assert (x ≠ p) as Hxp.
  { intros ->. apply Hpl. apply elem_of_app. right. by left. }
  pose proof (chain_insert_after _ _ _ _ _ _ _ _ Hl Hx Hp Hpl) as Hc.
  unfold modBase, putDevice. apply wp_bind. apply (object_ok _ _ dp _ _ Hp). apply wp_mod.
  eapply object_ok; [cbn; by rewrite lookup_insert_ne|]. apply wp_mod. cbn. split; [|split; [done|]].
  - change (setnx None <$> <[x := setnx (Some p) dx]> (<[p := setnx (nx dx) dp]> (devices s)) = setnx None <$> devices s).
    rewrite (unlinked_insert _ x dx) by by rewrite lookup_insert_ne. by rewrite (unlinked_insert _ p dp).
  - exists (l1 ++ x :: p :: r). split; [split|].
    + exact Hc.
    + cbn. destruct (_nextLoopDevice s) as [y|]; [|done]. destruct l1 as [|z l1]; cbn in *; [by right|].
      rewrite elem_of_app, !elem_of_cons in *. tauto.
    + intros z. rewrite !elem_of_app, !elem_of_cons. tauto.
Qed.

Lemma link_from_ok p dp l s slave : chained l s → devices s !! p = Some dp → p ∉ l →
  ∀ r fuel x l1, l = l1 ++ x :: r → (length r < fuel)%nat →
  wp (link_from fuel (Some x) p slave) (λ _ s', linked_to p l s s') s.
Proof.
  intros Hc Hp Hpl. induction r as [|y r IH]; intros fuel x l1 El Hf; (destruct fuel; [lia|]); cbn [link_from];
    destruct (Hc) as [Hl _]; rewrite El in Hl; destruct (chain_seg _ _ _ _ Hl) as (q & _ & Hx);
    destruct Hx as [-> (dx & Hdx & Hr)]; apply (object_ok _ _ dx _ _ Hdx); cbv zeta;
    change (_nextDevice (dbase dx)) with (nx dx).
  - cbn in Hr. change (nx dx = None) in Hr. rewrite Hr. rewrite (bool_decide_eq_true_2 (None = None)), orb_true_r by done. rewrite <-Hr.
    subst l. by apply (link_after p dp l1 x dx []).
  - destruct (bool_decide (nx dx = slave) || bool_decide (nx dx = None)).
    + subst l. by apply (link_after p dp l1 x dx (y :: r)).
    + destruct Hr as [-> _]. apply (IH fuel y (l1 ++ [x])); [by rewrite <-app_assoc|simpl in Hf; lia].
Qed.

Lemma link_ok p dp l s slave : chained l s → devices s !! p = Some dp → p ∉ l →
  (slave = None ∨ ∃ q, slave = Some q ∧ q ∈ l) → wp (linkDevice p slave) (λ _ s', linked_to p l s s') s.
Proof.
  intros Hc Hp Hpl Hs. destruct (Hc) as [Hl Hn].
  assert (wp (modBase p (with__nextDevice (_firstDevice s)) ;;; mmod (with__firstDevice (Some p))) (λ _ s', linked_to p l s s') s) as Hfirst.
  { unfold modBase, putDevice. apply wp_bind, wp_bind. eapply wp_eq; [unfold getDevice; by rewrite Hp|].
    apply wp_mod. apply wp_mod. split; [|split; [done|]].
    - by apply (unlinked_insert (devices s) p dp (_firstDevice s)).
    - exists (p :: l). split; [split|].
      + apply (chain_push (devices s) (_firstDevice s) l p dp Hpl Hl).
      + cbn. destruct (_nextLoopDevice s); [|done]. destruct l as [|z l]; [by apply elem_of_nil in Hn|]. cbn in Hn |- *. by right.
      + intros z. by rewrite elem_of_cons. }
  unfold wp, linkDevice. destruct (bool_decide _) eqn:E; [exact Hfirst|]. apply bool_decide_eq_false in E.
  destruct l as [|x r].
  - simpl in Hl. rewrite Hl in E. destruct Hs as [->|(q & _ & Hq)]; [done|by apply elem_of_nil in Hq].
  - destruct (Hl) as [Hx _]. pose proof (chain_length _ _ _ Hl) as Hlen. simpl in Hlen. rewrite Hx.
    apply (link_from_ok p dp (x :: r) s slave Hc Hp Hpl r (S (size (devices s))) x []); [done|lia].
Qed.

(** ** All devices but one are in order *)

Definition others_good p s : Prop :=
  (∃ l, chained l s) ∧ ∀ q d, q ≠ p → devices s !! q = Some d → local_ok d ∧ slave_ok s d.

Lemma unlinked_lookup s s' q d : unlinked s' = unlinked s → devices s' !! q = Some d →
  ∃ e, devices s !! q = Some e ∧ setnx None e = setnx None d.
Proof.
  intros Hu Hd. assert (unlinked s' !! q = unlinked s !! q) as H by by rewrite Hu.
  unfold unlinked in H. rewrite !lookup_fmap, Hd in H. destruct (devices s !! q) as [e|]; [|done].
  exists e. split; [done|]. by apply (inj Some) in H.
Qed.
Lemma unlinked_fields d e : setnx None e = setnx None d → _firstVpin (dbase e) = _firstVpin (dbase d) ∧
  _nPins (dbase e) = _nPins (dbase d) ∧ drv e = drv d ∧ dbase e = with__nextDevice (nx e) (dbase d).
Proof. destruct d as [[] ?], e as [[] ?]. unfold setnx, nx. cbn. intros [= -> -> -> -> -> -> -> ->]. done. Qed.
Lemma unlinked_covers s s' q v : unlinked s' = unlinked s → covers s q v → covers s' q v.
Proof.
  intros Hu (d & Hd & Ho). destruct (unlinked_lookup s' s q d) as (e & He & E); [done|done|].
  exists e. split; [done|]. apply unlinked_fields in E as (E1 & E2 & _). unfold owns in *. by rewrite E1, E2.
Qed.

Lemma slave_mono s s' d e : (∀ q v, covers s q v → covers s' q v) → drv e = drv d → _nPins (dbase e) = _nPins (dbase d) →
  slave_ok s d → slave_ok s' e.
Proof.
  intros Hc E1 E2. unfold slave_ok. rewrite E1, E2. destruct (drv d); try done.
  intros (q & Hq & Hall). exists q. split; [done|]. intros i Hi. by apply Hc, Hall.
Qed.

Lemma others_all p s d : others_good p s → devices s !! p = Some d → local_ok d → slave_ok s d → all_good s.
Proof.
  intros [[l [Hl _]] Hg] Hd Hloc Hs. split; [by exists l|]. intros q e He. destruct (decide (q = p)) as [->|Hne].
  - by simplify_eq.
  - by apply (Hg q e).
Qed.

Definition made p b x s s2 : Prop :=
  others_good p s2 ∧ (∃ n, devices s2 !! p = Some (mkDevice (with__nextDevice n b) x)) ∧ (∀ q v, covers s q v → covers s2 q v).

Lemma new_link {A} b x slave l s (k : ptr → M H A) Q : well l s → (slave = None ∨ ∃ q, slave = Some q ∧ q ∈ l) →
  (∀ p s2, made p b x s s2 → wp (k p) Q s2) →
  wp (let! p := newDevice b x in linkDevice p slave ;;; k p) Q s.
Proof.
  intros [Hc Hg] Hs Hk. change (all_good s) in Hg. set (p := fresh (dom (devices s))).
  assert (devices s !! p = None) as Hfresh by apply not_elem_of_dom, is_fresh.
  set (s1 := with_devices (<[p := mkDevice b x]> (devices s)) s).
  apply wp_bind. eapply wp_eq; [done|]. fold p s1. apply wp_bind.
  assert (p ∉ l) as Hpl.
  { intros Hin. destruct Hc as [Hl _]. destruct (chain_elem_dom _ _ _ _ Hl Hin) as [d Hd]. congruence. }
  assert (devices s1 !! p = Some (mkDevice b x)) as Hp1 by (cbn; by rewrite lookup_insert_eq).
  assert (∀ q v, covers s q v → covers s1 q v) as Hcov1.
  { intros q v (d & Hd & Ho). exists d. split; [|done]. cbn. rewrite lookup_insert_ne; [done|congruence]. }
  eapply wp_mono; [apply (link_ok p (mkDevice b x) l s1 slave)|].
  - destruct Hc as [Hl Hn]. split; [|done]. by apply chain_insert_ne.
  - done.
  - done.
  - done.
  - intros _ s2 (Hu & _ & l' & Hc' & _). apply Hk.
    assert (∀ q v, covers s q v → covers s2 q v) as Hcov.
    { intros q v H. apply (unlinked_covers s1); [done|]. by apply Hcov1. }
    split; [|split; [|done]].
    + split; [by exists l'|]. intros q d Hq Hd. destruct (unlinked_lookup s1 s2 q d Hu Hd) as (e & He & E).
      cbn in He. rewrite lookup_insert_ne in He by done. destruct Hg as [_ Hg]. destruct (Hg q e He) as [H1 H2].
      apply unlinked_fields in E as (E1 & E2 & E3 & _). split.
      * unfold local_ok in *. by rewrite <-E1, <-E2, <-E3.
      * by apply (slave_mono s s2 e d Hcov).
    + destruct (unlinked_lookup s2 s1 p (mkDevice b x)) as (e & He & E); [by symmetry|done|].
      apply unlinked_fields in E as (_ & _ & E3 & E4). exists (nx e). rewrite He. f_equal.
      destruct e as [eb ed]. cbn [dbase drv] in E3, E4. by rewrite <-E4, E3.
Qed.

(** A device whose class is in order once its constructor runs. *)
Lemma create_then {A} b x slave l s (k : ptr → M H A) Q : well l s → (slave = None ∨ ∃ q, slave = Some q ∧ q ∈ l) →
  local_ok (mkDevice b x) → slave_ok s (mkDevice b x) →
  (∀ p s' l' d, well l' s' → devices s' !! p = Some d → kind (drv d) = kind x → wp (k p) Q s') →
  wp (let! p := newDevice b x in addDevice p slave ;;; k p) Q s.
Proof.
  intros Hw Hs Hloc Hsl Hk. eapply wp_ext.
  { instantiate (1 := (let! p := newDevice b x in linkDevice p slave ;;; (_begin p ;;; k p))%C).
    unfold mthen, addDevice, mthen. cbn. by destruct (linkDevice _ _ _) as [[[] ?]|]. }
  eapply new_link; [done|done|]. intros p s2 (Ho & (n & Hp) & Hcov).
  set (d := mkDevice (with__nextDevice n b) x) in *.
  assert (all_good s2) as Hg.
  { apply (others_all p s2 d Ho Hp); [done|]. by apply (slave_mono s s2 (mkDevice b x)). }
  destruct Ho as [(l' & Hc') _]. apply wp_bind. eapply wp_mono; [apply begin_good; [done|eauto]|].
  intros [] s3 [Hg3 Hs3]. cbn. destruct (same_lookup s2 s3 p d Hs3 Hp) as (e & He & E).
  apply (Hk p s3 l' e); [|done|exact (f_equal snd E)]. split; [by apply (chained_same l' s2)|done].
Qed.
Lemma create_ok b x slave l s : well l s → (slave = None ∨ ∃ q, slave = Some q ∧ q ∈ l) →
  local_ok (mkDevice b x) → slave_ok s (mkDevice b x) →
  wp (let! p := newDevice b x in addDevice p slave) (λ _ s', ∃ l', well l' s') s.
Proof.
  intros Hw Hs Hloc Hsl. eapply wp_ext.
  { instantiate (1 := (let! p := newDevice b x in addDevice p slave ;;; mreturn tt)%C).
    unfold mthen. cbn. by destruct (addDevice _ _ _) as [[[] ?]|]. }
  eapply create_then; [done..|]. intros p s' l' d Hw' _ _. apply wp_ret. eauto.
Qed.

(** The check that comes first changes nothing. *)
Lemma overlap_some h fp np a : ∀ l fuel q, chain h q l → (length l < fuel)%nat → is_Some (overlap_from fuel h q fp np a (D := driver)).
Proof.
  induction l as [|x l IH]; intros fuel q Hl Hf; (destruct fuel; [simpl in Hf; lia|]).
  - simpl in Hl. subst. done.
  - destruct Hl as [-> (d & Hd & Hl)]. cbn [overlap_from]. rewrite Hd. simpl.
    repeat (destruct (_ && _); [done|]). apply IH; [done|simpl in Hf; lia].
Qed.
Lemma checked l s fp np a (m : M H unit) : well l s → wp m (λ _ s', ∃ l', well l' s') s →
  wp (let! ok := checkNoOverlap fp np a in when ok do m) (λ _ s', ∃ l', well l' s') s.
Proof.
  intros Hw Hm. apply wp_bind. destruct (Hw) as [[Hl _] _]. pose proof (chain_length _ _ _ Hl).
  destruct (overlap_some (devices s) (u16 fp) (u8 np) a l (S (size (devices s))) _ Hl) as [r Hr]; [lia|].
  eapply wp_eq; [unfold checkNoOverlap; by rewrite Hr|]. destruct r; [exists l; exact Hw|exact Hm].
Qed.

Lemma new_base_ok F N : is_u16 (_firstVpin (newBase F N)).
Proof. apply u16_range. Qed.

Lemma arduino_new N : 0 <= N → arduino_ok N (ArduinoPins.new_ArduinoPins N).
Proof.
  intros HN. assert (0 <= (N + 7) / 8) by (apply Z.div_pos; lia). unfold ArduinoPins.new_ArduinoPins.
  rewrite Z.quot_div_nonneg by lia. split_and!; cbv beta iota delta [ArduinoPins._pinPullups ArduinoPins._pinModes ArduinoPins._pinInUse];
    rewrite length_replicate; lia.
Qed.
Lemma neo_new N m : 0 <= N → neo_ok N (NeoPixel.new_NeoPixel N m).
Proof.
  intros HN. assert (0 <= (N + 7) / 8) by (apply Z.div_pos; lia). unfold NeoPixel.new_NeoPixel.
  rewrite Z.quot_div_nonneg by lia. split; cbv beta iota zeta delta [NeoPixel.pixelBuffer NeoPixel.stateBuffer];
    rewrite length_replicate; lia.
Qed.

Lemma arduino_well l s F N : well l s → 0 <= N <= 255 → wp (create_ArduinoPins F N) (λ _ s', ∃ l', well l' s') s.
Proof.
  intros Hw HN. apply create_ok with (l := l); [done|by left| |done]. split; [apply u16_range|]. split; [cbn; lia|].
  split; [cbn; lia|]. apply arduino_new. lia.
Qed.
Lemma bitmap_well l s F N : well l s → 0 <= N < 32768 → wp (create_Bitmap F N) (λ _ s', ∃ l', well l' s') s.
Proof.
  intros Hw HN. apply (checked l); [done|]. apply create_ok with (l := l); [done|by left| |done].
  split; [apply u16_range|]. split; [cbn; lia|]. cbn. split; [lia|]. unfold bitmap_ok, Bitmap.new_Bitmap. rewrite length_replicate. lia.
Qed.
Lemma dcc_well l s F N a b : well l s → 0 <= N < 32768 → wp (create_DCCAccessory F N a b) (λ _ s', ∃ l', well l' s') s.
Proof.
  intros Hw HN. apply (checked l); [done|]. apply create_ok with (l := l); [done|by left| |done].
  split; [apply u16_range|]. split; [cbn; lia|done].
Qed.
Lemma neo_well l s F N m a : well l s → 0 <= N → u16 F + N < 65536 → wp (create_NeoPixel F N m a) (λ _ s', ∃ l', well l' s') s.
Proof.
  intros Hw HN HFN. pose proof (u16_range F) as HF. unfold is_u16 in HF.
  apply (checked l); [done|]. apply create_ok with (l := l); [done|by left| |done].
  split; [apply u16_range|]. split; [cbn; lia|]. split; [exact HFN|]. by apply neo_new.
Qed.

Lemma no_servos n : servos_ok (replicate n None).
Proof. apply Forall_replicate. done. Qed.

Lemma pca_well l s F N a f : well l s → 0 <= N → wp (create_PCA9685 F N a f) (λ _ s', ∃ l', well l' s') s.
Proof.
  intros Hw HN. apply (checked l); [done|]. apply create_then with (l := l); [done|by left| |done|].
  - split; [apply u16_range|]. unfold PCA9685.PCA9685_base, PCA9685.new_PCA9685.
    destruct (16 <? N) eqn:E; cbn [dbase drv data_ok _nPins newBase with__I2CAddress]; (split; [lia|]); (split; [lia|]);
      (split; [|apply no_servos]); cbv beta iota delta [PCA9685._servoData]; rewrite length_replicate; lia.
  - intros p s' l' d [Hc Hg] Hd Hk. apply (object_ok _ _ d _ _ Hd).
    destruct (drv d) as [y|y|y|y|y|y|y] eqn:Ey; try discriminate Hk. destruct (good_local _ _ _ Hg Hd) as (HF & HN' & Hdata).
    rewrite Ey in Hdata. cbn [data_ok] in Hdata.
    apply (wp_mono _ (λ _ t, all_good t ∧ same s' t)); [|intros [] s'' H; exists l'; apply (well_same l' s'); [done|exact H]].
    own_call (pca_ok (_nPins (dbase d))). apply safe_own. done.
Qed.

(** A port extender is given its chip only after it has been added. *)
Definition bare (w : Z) (g : GPIOBase.GPIO) : Prop := GPIOBase.chip g = None ∧ GPIOBase.width g = w.
Lemma bare_begin F N nxt w : safe (in_order F N nxt (bare w)) GPIOBase._begin.
Proof.
  unfold GPIOBase._begin, GPIOBase._setupDevice. safes. 
  destruct H1 as (_ & _ & _ & -> & _). apply safely_ret.
Qed.
Lemma bare_constructed F N nxt w c i (o0 : Obj GPIOBase.GPIO) : GPIOBase.width_of c = w → in_order F N nxt (bare w) o0 →
  wp (GPIOBase.constructed c i) (λ _ o, in_order F N nxt (gpio_ok w) o) o0.
Proof.
  intros Hc (E1 & E2 & E3 & _ & Hw). unfold GPIOBase.constructed, GPIOBase.ports_reset. apply wp_bind, wp_mod.
  destruct c; unfold GPIOBase.MCP23017_constructor, GPIOBase.MCP23008_constructor, GPIOBase.PCF8574_constructor,
    GPIOBase.PCF8575_constructor, GPIOBase.PCA9554_constructor, GPIOBase.PCA9555_constructor, GPIOBase.XL9535_constructor,
    GPIOBase.becomes; try (apply wp_bind, wp_mod); try apply wp_mod.
  3: { apply wp_bind, wp_mod. apply wp_when; intros _; [|split_and!; cbn; try done; by split; [eexists|]].
       apply wp_bind, wp_mod. unfold GPIOBase.i2c. apply wp_bind, wp_get, wp_mod. split_and!; cbn; try done. by split; [eexists|]. }
  all: split_and!; cbn; try done; by split; [eexists|].
Qed.

(** A function of the new object that leaves its place and its pins. *)
Lemma run_new (ok ok' : GPIOBase.GPIO → Prop) p s d g (m : M (Obj GPIOBase.GPIO) unit) F N nxt :
  (∀ o, in_order F N nxt ok o → wp m (λ _ o', in_order F N nxt ok' o') o) →
  devices s !! p = Some d → drv d = DGPIO g → ok g → _firstVpin (dbase d) = F → _nPins (dbase d) = N → nx d = nxt →
  others_good p s →
  wp (run_own DGPIO p (dbase d) g m) (λ _ s', others_good p s' ∧ ∃ d' g', devices s' !! p = Some d' ∧
    drv d' = DGPIO g' ∧ ok' g' ∧ _firstVpin (dbase d') = F ∧ _nPins (dbase d') = N ∧ nx d' = nxt) s.
Proof.
  intros Hm Hd Eg Hok E1 E2 E3 [[l Hc] Hg]. specialize (Hm (mkObj (dbase d) g (hbus s)) ltac:(by split_and!)).
  unfold wp, run_own in *. destruct (m _) as [[[] o]|]; [|done]. destruct Hm as (H1 & H2 & H3 & Hok'). cbn.
  set (d' := mkDevice (base o) (DGPIO (own o))).
  assert (same s (with_hbus (bus o) (with_devices (<[p := d']> (devices s)) s))) as Hs.
  { apply (same_insert s p d d'); [done|]. unfold frame_of, d'. cbn. rewrite H1, H2, H3, Eg, <-E1, <-E2, <-E3. done. }
  split; [split|].
  - exists l. by apply (chained_same l s).
  - intros q e Hq. cbn. rewrite lookup_insert_ne by done. intros He. destruct (Hg q e Hq He) as [Ha Hb].
    split; [done|]. by apply (slave_same s).
  - exists d', (own o). cbn. rewrite lookup_insert_eq. by split_and!.
Qed.

Lemma gpio_well l s c mem F N a ip st : well l s → wp (create_GPIO c mem F N a ip st) (λ _ s', ∃ l', well l' s') s.
Proof.
  intros Hw. apply (checked l); [done|]. cbv zeta. set (w := GPIOBase.width_of c). set (b := GPIOBase.GPIO_base _ _ _ _ _).
  set (g := GPIOBase.under_construction _ _ _ _ _ _).
  eapply wp_ext.
  { instantiate (1 := (let! p := newDevice b (DGPIO g) in linkDevice p None ;;; (_begin p ;;;
      rest (λ x, match x with DGPIO x => Some x | _ => None end) DGPIO p (GPIOBase.constructed c st)))%C).
    unfold mthen, addDevice, mthen. cbn. by destruct (linkDevice _ _ _) as [[[] ?]|]. }
  eapply new_link; [done|by left|]. intros p s2 (Ho & (n & Hp) & Hcov).
  set (d := mkDevice (with__nextDevice n b) (DGPIO g)) in *.
  apply wp_bind. apply (object_ok _ _ d _ _ Hp). cbn [drv d].
  eapply wp_mono.
  { apply (run_new (bare w) (bare w) p s2 d g GPIOBase._begin (_firstVpin (dbase d)) (_nPins (dbase d)) (nx d) (bare_begin _ _ _ w) Hp); done. }
  intros _ s3 (Ho3 & d3 & g3 & Hd3 & Eg3 & Hb3 & E1 & E2 & E3). cbn beta. apply (object_ok _ _ d3 _ _ Hd3). rewrite Eg3.
  eapply wp_mono.
  { apply (run_new (bare w) (gpio_ok w) p s3 d3 g3 _ (_firstVpin (dbase d)) (_nPins (dbase d)) (nx d)
      (λ o, bare_constructed _ _ _ w c st o eq_refl) Hd3); done. }
  intros _ s4 (Ho4 & d4 & g4 & Hd4 & Eg4 & [(c4 & Hc4 & Hwc4) Hw4] & E1' & E2' & E3').
  destruct (Ho4) as [[l4 Hl4] _]. exists l4. split; [done|].
  apply (others_all p s4 d4 Ho4 Hd4); [|unfold slave_ok; by rewrite Eg4].
  pose proof (u8_range N) as HN. unfold is_byte in HN.
  assert (w = 8 ∨ w = 16) as Hw' by (unfold w; destruct c; auto).
  unfold local_ok. rewrite Eg4, E1', E2'. split; [apply u16_range|]. unfold b. cbn. rewrite Hw4.
  destruct (w <? u8 N) eqn:E; split_and!; try done; try lia; by exists c4.
Qed.

(** ** Servos *)

(** All pins of the servo are on one device below. *)
Definition servo_fits (l : list ptr) s (firstVpin nPins firstSlavePin : Z) : Prop :=
  let n := if 16 <? nPins then 16 else nPins in
  let slavePin := if firstSlavePin =? VPIN_NONE then u16 firstVpin else firstSlavePin in
  0 <= slavePin ∧ slavePin + n < 65536 ∧ 1 <= nPins ∧
  ∃ q, find (has (devices s) slavePin) l = Some q ∧ find (has (devices s) (slavePin + n - 1)) l = Some q.

Lemma servo_well l s F N sp : well l s → servo_fits l s F N sp → wp (create_Servo F N sp) (λ _ s', ∃ l', well l' s') s.
Proof.
  intros Hw (Hsp & Hend & HN & q & Hq1 & Hq2). unfold create_Servo. cbv zeta.
  set (n := if 16 <? N then 16 else N) in *. set (slave := if sp =? VPIN_NONE then u16 F else sp) in *.
  assert (1 <= n <= 16) as Hn by (unfold n; destruct (16 <? N) eqn:E; lia).
  destruct (Hw) as [[Hl _] Hg]. apply wp_bind. eapply wp_eq; [by apply findDevice_spec|]. cbn beta. rewrite Hq1.
  apply wp_bind. eapply wp_eq; [by apply findDevice_spec|]. cbn beta. rewrite u16_id, Hq2 by (unfold is_u16; lia).
  rewrite (bool_decide_eq_false_2 (Some q = None)), (bool_decide_eq_true_2 (Some q = Some q)) by done. cbn [orb negb].
  destruct (find_has _ _ _ _ Hq1) as (Hin & d & Hd & Ho1). destruct (find_has _ _ _ _ Hq2) as (_ & d' & Hd' & Ho2).
  simplify_eq. apply (create_ok _ _ _ l); [done|right; eauto| |].
  - split; [apply u16_range|]. split; [cbn; lia|]. cbn. split; [lia|].
    rewrite length_replicate. split; [lia|apply no_servos].
  - unfold slave_ok. cbn. exists q. split; [done|]. intros i Hi. exists d. split; [done|].
    unfold owns in *. rewrite u16_id by (unfold is_u16; lia). lia.
Qed.

(** ** A layer in use *)

Inductive op :=
  | CreateArduinoPins (firstVpin nPins : Z)
  | CreatePCA9685 (firstVpin nPins i2cAddress frequency : Z)
  | CreateGPIO (c : GPIOBase.Chip) (memory : list Z) (firstVpin nPins i2cAddress interruptPin initPortState : Z)
  | CreateBitmap (firstVpin nPins : Z)
  | CreateDCCAccessory (firstVpin nPins address subaddress : Z)
  | CreateNeoPixel (firstVpin nPins mode i2cAddress : Z)
  | CreateServo (firstVpin nPins firstSlavePin : Z)
  | Reset (micros : Z) | Loop (micros : Z)
  | Configure (vpin : Z) (t : ConfigTypeEnum) (params : list Z)
  | Write (vpin value : Z) | WriteRange (vpin value count : Z) | WriteAnalogue (vpin value param1 param2 : Z)
  | Read (vpin : Z) | ReadAnalogue (vpin : Z) | ConfigureAnalogIn (vpin : Z) | IsBusy (vpin : Z)
  | Outside (f : Bus → Bus).       (* something else happens: answers, levels, callbacks *)

Definition quiet {A} (m : M H A) : M H unit := m ;;; mreturn tt.
Definition run_op (o : op) : M H unit :=
  match o with
  | CreateArduinoPins F N => create_ArduinoPins F N
  | CreatePCA9685 F N a f => create_PCA9685 F N a f
  | CreateGPIO c mem F N a i st => create_GPIO c mem F N a i st
  | CreateBitmap F N => create_Bitmap F N
  | CreateDCCAccessory F N a b => create_DCCAccessory F N a b
  | CreateNeoPixel F N m a => create_NeoPixel F N m a
  | CreateServo F N sp => create_Servo F N sp
  | Reset t => reset t
  | Loop t => loop t
  | Configure v t ps => quiet (configure v t ps)
  | Write v x => write v x
  | WriteRange v x n => writeRange v x n
  | WriteAnalogue v x a b => writeAnalogue v x a b
  | Read v => quiet (read v)
  | ReadAnalogue v => quiet (readAnalogue v)
  | ConfigureAnalogIn v => quiet (configureAnalogIn v)
  | IsBusy v => quiet (isBusy v)
  | Outside f => mmod (λ s, with_hbus (f (hbus s)) s)
  end.

(** What the caller has to see to. *)
Definition fine (l : list ptr) s (o : op) : Prop :=
  match o with
  | CreateArduinoPins F N => 0 <= N <= 255
  | CreatePCA9685 F N a f => 0 <= N
  | CreateBitmap F N | CreateDCCAccessory F N _ _ => 0 <= N < 32768
  | CreateNeoPixel F N m a => 0 <= N ∧ u16 F + N < 65536
  | CreateServo F N sp => servo_fits l s F N sp
  | WriteRange v x n => 0 <= v ∧ 0 <= n < 32768 ∧ v + n < 65536 ∧ fits l s v n
  | _ => True
  end.

Lemma quiet_ok {A} (m : M H A) l s : wp m (λ _ s', well l s' ∧ same s s') s → wp (quiet m) (λ _ s', ∃ l', well l' s') s.
Proof. intros Hm. apply wp_bind. eapply wp_mono; [exact Hm|]. intros a s' [Hw _]. apply wp_ret. eauto. Qed.
Lemma weaken_ok (m : M H unit) l s : wp m (λ _ s', well l s' ∧ same s s') s → wp m (λ _ s', ∃ l', well l' s') s.
Proof. intros Hm. eapply wp_mono; [exact Hm|]. intros a s' [Hw _]. eauto. Qed.

Lemma writes_well l s v x n : well l s → wp (mfor (rangeZ v n) (λ w, write w x)) (λ _ s', well l s') s.
Proof.
  intros Hw. apply wp_mfor; [|done]. intros w s' _ Hw'. eapply wp_mono; [by apply write_well|]. by intros [] s'' [? _].
Qed.

Lemma outside_well l s b : well l s → well l (with_hbus b s).
Proof. done. Qed.

Lemma op_ok l s o : well l s → fine l s o → wp (run_op o) (λ _ s', ∃ l', well l' s') s.
Proof.
  intros Hw Hf. destruct o; cbn [run_op fine] in *.
  - by apply (arduino_well l).
  - by apply (pca_well l).
  - by apply (gpio_well l).
  - by apply (bitmap_well l).
  - by apply (dcc_well l).
  - by apply (neo_well l); destruct Hf.
  - by apply (servo_well l).
  - eapply weaken_ok. by apply reset_well.
  - eapply wp_mono; [by apply (loop_well l)|]. intros [] s' ?. eauto.
  - eapply quiet_ok. by apply configure_well.
  - eapply weaken_ok. by apply write_well.
  - destruct Hf as (H1 & H2 & H3 & H4). eapply wp_ext; [by apply (writeRange_eq _ _ _ l)|].
    eapply wp_mono; [by apply (writes_well l)|]. intros [] s' ?. eauto.
  - apply (weaken_ok _ l). exact (writeAnalogue_well l s vpin value param1 param2 Hw).
  - eapply quiet_ok. by apply read_well.
  - eapply quiet_ok. by apply readAnalogue_well.
  - eapply quiet_ok. by apply configureAnalogIn_well.
  - eapply quiet_ok. by apply isBusy_well.
  - apply wp_mod. exists l. by apply outside_well.
Qed.

End DriversCreate.
