(* ===== verification/DriversProps.v ===== *)
(** The theorems on the layer of devices with the classes of Drivers in it, and four
    examples of what the layer does that it is not meant to. *)

From S2P Require Import Prelude Chain IODevice ArduinoPins PCA9685 GPIOBase Bitmap DCCAccessory NeoPixel Drivers IODeviceProps DriverSafe DriversLaws.

#[local] Open Scope Z_scope.
#[local] Open Scope c_scope.

Module DriversProps.
Import IODevice.IODevice IODeviceSpec IODeviceProps.IODeviceProps Drivers.Drivers DriversLaws.DriversLaws DriversCreate.

Notation H := (HAL driver).
Implicit Types (s : H).

Definition empty_layer (b : Bus) : H := mkHAL ∅ None None b.
Lemma empty_well b : well [] (empty_layer b).
Proof. split; [done|]. split; [by exists []|]. intros p d Hd. cbn in Hd. by rewrite lookup_empty in Hd. Qed.

(** The operations are fine, each in the state it is called in. *)
Fixpoint fine_run (ops : list op) s : Prop :=
  match ops with
  | [] => True
  | o :: ops => (∃ l, chain (devices s) (_firstDevice s) l ∧ fine l s o) ∧
      ∀ s', run_op o s = Some (tt, s') → fine_run ops s'
  end.

Lemma run_well ops : ∀ l s, well l s → fine_run ops s → ∃ s' l', mfor ops run_op s = Some (tt, s') ∧ well l' s'.
Proof.
  induction ops as [|o ops IH]; intros l s Hw Hf; [by exists s, l|]. destruct Hf as [(l0 & Hl0 & Ho) Hk].
  assert (l0 = l) as -> by (eapply chain_det; [exact Hl0|apply Hw]).
  destruct (wp_run _ _ _ (op_ok l s o Hw Ho)) as ([] & s1 & E1 & l1 & Hw1).
  destruct (IH l1 s1 Hw1 (Hk s1 E1)) as (s' & l' & E & Hw'). exists s', l'. split; [|done].
  rewrite mfor_cons. by rewrite (mthen_some _ _ s tt s1).
Qed.


(** ** A layer for the witnesses *)

Definition bus0 : Bus := mkBus (λ _, (0, [255; 255])) 0 (λ _, true) (λ _, 0) (λ _, 0) [] [].
Definition setup : list op :=
  [CreateArduinoPins 2 68; CreatePCA9685 100 16 0x40 50; CreateGPIO GPIOBase.MCP23017 [] 164 16 0x20 (-1) (-1);
   CreateBitmap 300 10; CreateNeoPixel 200 8 0x52 0x60; CreateServo 400 4 100].
Definition layer0 : option (unit * H) := mfor setup run_op (empty_layer bus0).

Lemma walk_chain (h : gmap ptr (Device driver)) n p l : walk n h p = Some l → chain h p l.
Proof.
  revert p l. induction n as [|n IH]; intros [x|] l E; cbn in E; try (by injection E as <-); [done|].
  destruct (h !! x) as [d|] eqn:Ed; [|done]. cbn in E. destruct (walk n h (_nextDevice (dbase d))) as [k|] eqn:Ek; [|done].
  cbn in E. injection E as <-. split; [done|]. exists d. split; [done|]. by apply IH.
Qed.

(** A run whose operations need no check of the state but for the servos and ranges. *)
Ltac fine_step :=
  split; [eexists; split; [eapply (walk_chain _ 10); vm_compute; reflexivity|
    try (cbn [fine]; vm_compute; intuition discriminate)] |
    let s' := fresh "s" in let E := fresh "E" in intros s' E; vm_compute in E; injection E as <-].

Lemma setup_fine : fine_run setup (empty_layer bus0).
Proof.
  unfold setup. cbn [fine_run]. repeat fine_step; [|done].
  cbn [fine]. split; [vm_compute; discriminate|]. split; [vm_compute; reflexivity|]. split; [lia|].
  eexists. split; vm_compute; reflexivity.
Qed.


Lemma layer0_well : ∃ s l, layer0 = Some (tt, s) ∧ well l s.
Proof. apply (run_well setup [] _ (empty_well bus0) setup_fine). Qed.


Definition is_strip (p : ptr) s : bool :=
  match devices s !! p with Some d => own_range (drv d) | None => false end.
Definition pins_apart (p q : ptr) s : bool :=
  match devices s !! p, devices s !! q with
  | Some d, Some e => (_firstVpin (dbase d) + _nPins (dbase d) <=? _firstVpin (dbase e))
                   || (u16 (_firstVpin (dbase e) + _nPins (dbase e)) <=? _firstVpin (dbase d))
  | _, _ => true
  end.
(** A check of [fits] on a given layer. *)
Definition fits_check (l : list ptr) s (v n : Z) : bool :=
  forallb (λ p, implb (is_strip p s)
    (match devices s !! p with
     | Some d => let e := _firstVpin (dbase d) + _nPins (dbase d) in
         (0 <=? e) && (e <? 65536) && ((v + n <=? e) || (e <=? v))
     | None => true end && forallb (λ q, bool_decide (p = q) || pins_apart p q s) l)) l.
Lemma fits_checked l s v n : fits_check l s v n = true → fits l s v n.
Proof.
  intros Hc p d Hp Hd Ho. unfold fits_check in Hc. rewrite forallb_forall in Hc.
  assert (is_strip p s = true) as Hs by (unfold is_strip; by rewrite Hd).
  apply list_elem_of_In in Hp. specialize (Hc p Hp). cbv beta in Hc. rewrite Hs, Hd in Hc. cbn [implb] in Hc.
  apply andb_true_iff in Hc as [H1 H2]. split; [lia|]. intros q x Hq (dq & Hdq & Hoq) (d' & Hd' & Hop). simplify_eq.
  rewrite forallb_forall in H2. apply list_elem_of_In in Hq. specialize (H2 q Hq). cbv beta in H2.
  apply orb_true_iff in H2 as [H2|H2]; [by apply bool_decide_eq_true in H2|]. exfalso.
  unfold pins_apart in H2. rewrite Hd, Hdq in H2. unfold owns in *.
  rewrite u16_id in Hop by (unfold is_u16; lia). lia.
Qed.


(** C33. The loop takes the devices in turn: a device that is ready at each call until it is
    served is served after no more calls than there are devices, and its loop function is
    then called with the time of that call. *)
Theorem loop_serves_in_turn l p ts s : well l s → p ∈ l → (length l <= length ts)%nat → waits l p ts s →
  ∃ ts1 t ts2 s1, ts = ts1 ++ t :: ts2 ∧ mfor ts1 loop s = Some (tt, s1) ∧ loop t s1 = serve p t s1.
Proof.
  intros Hw Hp Hts Hr. destruct (loop_in_turn l p ts s Hw Hp Hts Hr) as (ts1 & t & ts2 & s1 & E1 & E2 & _ & E3).
  by exists ts1, t, ts2, s1.
Qed.

Lemma loop_serves_in_turn_witness : ∃ s l, layer0 = Some (tt, s) ∧ well l s ∧
  ∃ ts1 t ts2 s1, [0; 0; 0; 0; 0; 0] = ts1 ++ t :: ts2 ∧ mfor ts1 loop s = Some (tt, s1) ∧ loop t s1 = serve 5%positive t s1.
Proof.
  destruct layer0_well as (s & l & E & Hw). exists s, l. split; [exact E|]. split; [exact Hw|]. vm_compute in E. injection E as <-.
  assert (l = [1;6;2;3;4;5]%positive) as Hl.
  { eapply chain_det; [apply Hw|]. eapply (walk_chain _ 10). vm_compute. reflexivity. }
  subst l. apply (loop_serves_in_turn [1;6;2;3;4;5]%positive); [exact Hw| |cbn; lia|].
  - do 5 apply list_elem_of_further. apply list_elem_of_here.
  - repeat first [exact I | split; [vm_compute; reflexivity|]; intros Hne s' E; first
      [exfalso; apply Hne; vm_compute; reflexivity | vm_compute in E; injection E as <-; clear Hne]].
Defined.

(** ** What the layer is not meant to do *)

(** A range that starts behind the first lamp of a strip, and is longer than the rest of it,
    goes on behind the strip's memory: the driver takes as many pins as the strip has. *)
Lemma strip_range_overruns : ∃ s, mfor [CreateNeoPixel 200 8 0x52 0x60] run_op (empty_layer bus0) = Some (tt, s) ∧
  writeRange 204 1 4 s ≠ None ∧ writeRange 204 1 8 s = None.
Proof. eexists. split; [vm_compute; reflexivity|]. split; [vm_compute; discriminate|vm_compute; reflexivity]. Qed.

(** A port extender is not set up when it is created: the constructor of its base class calls
    the base class's own _setupDevice, which is empty. A reset sets it up. *)
Lemma extender_not_set_up : ∃ s s', mfor [CreateGPIO GPIOBase.MCP23017 [] 164 16 0x20 (-1) (-1)] run_op (empty_layer bus0) = Some (tt, s) ∧
  trace (hbus s) = [I2C_begin; I2C_setClock 400000; I2C_exists 0x20] ∧
  reset 0 s = Some (tt, s') ∧ In (I2C_write 0x20 [0x0A; 0x44]) (trace (hbus s')).
Proof.
  eexists _, _. split; [vm_compute; reflexivity|]. split; [vm_compute; reflexivity|]. split; [vm_compute; reflexivity|].
  vm_compute. tauto.
Qed.

(** The check for overlaps sees the count of pins as a byte: a bitmap of 256 pins is put on
    pins that are taken. *)
Lemma overlap_of_256_pins : ∃ s, mfor [CreateBitmap 100 20; CreateBitmap 100 256] run_op (empty_layer bus0) = Some (tt, s) ∧
  size (devices s) = 2%nat.
Proof. eexists. split; vm_compute; reflexivity. Qed.

(** A reset takes a servo that has no device below it out of its failed state; the next
    movement follows its null pointer. *)
Lemma reset_revives_servo : ∃ s, mfor [CreateServo 400 4 100] run_op (empty_layer bus0) = Some (tt, s) ∧
  mfor [Write 400 1; Loop 0] run_op s ≠ None ∧ mfor [Reset 0; Write 400 1; Loop 0] run_op s = None.
Proof. eexists. split; [vm_compute; reflexivity|]. split; [vm_compute; discriminate|vm_compute; reflexivity]. Qed.

(** A negative count runs through all other pins. *)
Lemma negative_count : ∃ s, mfor [CreateArduinoPins 2 68] run_op (empty_layer bus0) = Some (tt, s) ∧
  match writeRange 70 1 (-2) s with
  | Some (_, s') => In (DigitalWrite 2 true) (trace (hbus s')) ∧ In (DigitalWrite 67 true) (trace (hbus s'))
  | None => False
  end.
Proof. eexists. split; [vm_compute; reflexivity|]. vm_compute. tauto. Qed.

End DriversProps.
