(* ===== verification/ServoProps.v ===== *)
(** The animation of a servo: it moves within its two ends, arrives at the position that was
    written in the number of rounds of its profile, is busy exactly until then, and is
    switched off six rounds later unless that was declined. *)

From S2P Require Import Prelude Chain IODevice ArduinoPins PCA9685.

#[local] Open Scope Z_scope.
#[local] Open Scope c_scope.

Module ServoProps.
Import ServoData.

(** [n] rounds of updatePosition, and the positions they output. *)
Fixpoint rounds (n : nat) (s : ServoData) : option (ServoData * list Z) :=
  match n with
  | O => Some (s, [])
  | S n =>
      '(s, out) ← updatePosition s;
      '(s, outs) ← rounds n s;
      Some (s, match out with Some x => x :: outs | None => outs end)
  end.

Lemma u12_id z : 0 <= z <= 4095 → u12 z = z.
Proof. intros H. unfold u12. change 4095 with (Z.ones 12). rewrite Z.land_ones by lia. apply Z.mod_small. lia. Qed.

(** A position between two others, whichever is higher. *)
Definition between (a b x : Z) : Prop := Z.min a b <= x <= Z.max a b.

Lemma map_range_spec x m a b : 0 <= x <= m → 0 < m < 65536 → 0 <= a <= 4095 → 0 <= b <= 4095 →
  map_range x 0 m a b = Z.quot (x * (b - a)) m + a ∧ between a b (map_range x 0 m a b).
Proof.
  intros Hx Hm Ha Hb. unfold map_range. rewrite !Z.sub_0_r.
  assert (- 2147483648 <= x * (b - a) < 2147483648) as Hr by nia.
  assert (i32 (x * (b - a)) = x * (b - a)) as -> by (unfold i32; rewrite Z.mod_small; lia).
  assert (between a b (Z.quot (x * (b - a)) m + a)) as Hb'.
  { unfold between. destruct (Z.le_ge_cases a b) as [Hab|Hab].
    - rewrite Z.quot_div_nonneg by nia. assert (0 <= x * (b - a) / m <= b - a); [|lia].
      split; [apply Z.div_pos; nia|]. apply Z.div_le_upper_bound; nia.
    - replace (x * (b - a)) with (- (x * (a - b))) by lia. rewrite Z.quot_opp_l, Z.quot_div_nonneg by nia.
      assert (0 <= x * (a - b) / m <= a - b); [|lia].
      split; [apply Z.div_pos; nia|]. apply Z.div_le_upper_bound; nia. }
  assert (i32 (Z.quot (x * (b - a)) m + a) = Z.quot (x * (b - a)) m + a) as ->; [|done].
  unfold between in Hb'. unfold i32. rewrite Z.mod_small; lia.
Qed.
Lemma map_range_end m a b : 0 < m < 65536 → 0 <= a <= 4095 → 0 <= b <= 4095 → map_range m 0 m a b = b.
Proof.
  intros Hm Ha Hb. destruct (map_range_spec m m a b) as [-> _]; [lia..|].
  rewrite Z.mul_comm, Z.quot_mul by lia. lia.
Qed.

Lemma bounce_table i x : _bounceProfile !! i = Some x → 0 <= x <= 100.
Proof.
  intros H. assert (Forall (λ x, 0 <= x <= 100) _bounceProfile) as Hall by (repeat constructor; lia).
  by apply (Forall_lookup_1 _ _ _ _ Hall H).
Qed.

(** An animation as _writeAnalogue starts it, whatever its step. *)
Record going (a b m p : Z) (s : ServoData) : Prop := {
  g_from : fromPosition s = a; g_to : toPosition s = b; g_steps : numSteps s = m; g_profile : currentProfile s = p
}.

Lemma busy_at a b m p s k : going a b m p s → stepNumber s = k → busy (Some s) = (k <? m).
Proof. intros [_ _ E _] Ek. unfold busy. by rewrite E, Ek. Qed.

Section animation.
Context (a b m p : Z).
Context (Ha : 0 <= a <= 4095) (Hb : 0 <= b <= 4095) (Hm : 1 <= m <= 65530).
Context (Hp : profileValue p = Bounce → m = 29).
#[local] Set Default Proof Using "All".

Lemma position_at s k : going a b m p s → stepNumber s = k → 0 <= k <= m →
  ∃ x, step_position s = Some x ∧ between a b x ∧ (k = m → x = b).
Proof.
  intros [E1 E2 E3 E4] Ek Hk. unfold step_position. rewrite E1, E2, E3, E4, Ek. destruct (_ =? Bounce) eqn:E.
  - apply Z.eqb_eq in E. specialize (Hp E). subst m.
    destruct (lookup_lt_is_Some_2 _bounceProfile (Z.to_nat k)) as [x Hx]; [change (length _bounceProfile) with 30%nat; lia|].
    rewrite Hx. simpl. pose proof (bounce_table _ _ Hx) as Hx'.
    destruct (map_range_spec x 100 a b) as [_ Hbt]; [lia..|]. eexists. split; [done|].
    rewrite u12_id by (unfold between in Hbt; lia). split; [done|]. intros ->.
    assert (x = 100) as -> by (by vm_compute in Hx; injection Hx as <-). apply map_range_end; lia.
  - destruct (map_range_spec k m a b) as [_ Hbt]; [lia..|]. eexists. split; [done|].
    rewrite u12_id by (unfold between in Hbt; lia). split; [done|]. intros ->. apply map_range_end; lia.
Qed.

(** One round before the end. *)
Lemma servo_round s k : going a b m p s → stepNumber s = k → 0 <= k < m → (k = 0 → a ≠ b) →
  ∃ x, updatePosition s = Some (with_currentPosition x (with_stepNumber (k + 1) s), Some x) ∧
    between a b x ∧ (k + 1 = m → x = b).
Proof.
  intros Hg Ek Hk H0. pose proof Hg as [E1 E2 E3 E4]. unfold updatePosition. rewrite E3.
  replace (m =? 0) with false by lia. assert (skip_to_end s = s) as ->.
  { unfold skip_to_end. rewrite E1, E2, Ek. destruct (k =? 0) eqn:E; [|done]. replace (a =? b) with false by lia. done. }
  rewrite Ek, E3. replace (k <? m) with true by lia. rewrite u16_id by (unfold is_u16; lia).
  destruct (position_at (with_stepNumber (k + 1) s) (k + 1)) as (x & Hx & Hbt & Hend); [by constructor|done|lia|].
  exists x. rewrite Hx. done.
Qed.

Lemma rounds_run j : ∀ k s, going a b m p s → stepNumber s = k → 0 <= k → k + Z.of_nat j <= m → (k = 0 → a ≠ b) →
  ∃ s' outs, rounds j s = Some (s', outs) ∧ going a b m p s' ∧ stepNumber s' = k + Z.of_nat j ∧ Forall (between a b) outs ∧
    (j ≠ O → k + Z.of_nat j = m → last outs = Some b ∧ currentPosition s' = b).
Proof.
  induction j as [|j IH]; intros k s Hg Ek Hk Hj H0.
  - exists s, []. split_and!; [done|done|lia|constructor|done].
  - destruct (servo_round s k Hg Ek) as (x & Hx & Hbt & Hend); [lia|done|]. cbn [rounds]. rewrite Hx. simpl.
    set (s1 := with_currentPosition x (with_stepNumber (k + 1) s)).
    assert (going a b m p s1) as Hg1 by by destruct Hg.
    destruct (IH (k + 1) s1 Hg1 eq_refl) as (s' & outs & Hr & Hg' & Hs' & Hall & Hlast); [lia|lia|lia|].
    rewrite Hr. simpl. exists s', (x :: outs). split_and!; [done|done|lia|by constructor|].
    intros _ Hm'. destruct j as [|j].
    + simpl in Hr. injection Hr as <- <-. assert (x = b) as -> by (apply Hend; lia). done.
    + destruct (Hlast) as [Hl Hc]; [done|lia|]. split; [|done].
      destruct outs as [|y outs]; [done|]. exact Hl.
Qed.

(** Already there: the first round goes to the end. *)
Lemma round_there s : going a b m p s → stepNumber s = 0 → a = b →
  updatePosition s = Some (with_currentPosition b (with_stepNumber m s), Some b).
Proof.
  intros Hg Ek Hab. pose proof Hg as [E1 E2 E3 E4]. unfold updatePosition. rewrite E3.
  replace (m =? 0) with false by lia.
  assert (skip_to_end s = with_stepNumber (m - 1) s) as ->.
  { unfold skip_to_end. rewrite E1, E2, E3, Ek, Hab. rewrite !Z.eqb_refl. cbn [andb]. rewrite u16_id by (unfold is_u16; lia). done. }
  cbn [stepNumber numSteps with_stepNumber]. rewrite E3. replace (m - 1 <? m) with true by lia.
  replace (m - 1 + 1) with m by lia. rewrite u16_id by (unfold is_u16; lia).
  destruct (position_at (with_stepNumber m (with_stepNumber (m - 1) s)) m) as (x & Hx & _ & Hend); [by constructor|done|lia|].
  rewrite Hx, Hend by done. done.
Qed.

(** The rounds after the end: five of waiting, then the servo is switched off. *)
Lemma round_waits s k : going a b m p s → stepNumber s = k → m <= k < m + 5 →
  updatePosition s = Some (with_stepNumber (k + 1) s, None).
Proof.
  intros [E1 E2 E3 E4] Ek Hk. unfold updatePosition, _catchupSteps. rewrite E3. replace (m =? 0) with false by lia.
  assert (skip_to_end s = s) as ->.
  { unfold skip_to_end. rewrite Ek. by replace (k =? 0) with false by lia. }
  rewrite Ek, E3. replace (k <? m) with false by lia. rewrite u16_id by (unfold is_u16; lia).
  replace (k <? m + 5) with true by lia. by rewrite u16_id by (unfold is_u16; lia).
Qed.
Lemma rounds_after s : going a b m p s → stepNumber s = m → currentPosition s = b →
  ∃ s', rounds 6 s = Some (s', if (p .& NoPowerOff =? 0) && negb (b =? 0) then [0] else []).
Proof.
  intros Hg Ek Hc. 
  assert (∀ j : nat, (j <= 5)%nat → rounds j s = Some (with_stepNumber (m + Z.of_nat j) s, [])) as Hj.
  { assert (∀ (j : nat) k t, going a b m p t → stepNumber t = k → m <= k → k + Z.of_nat j <= m + 5 → (j <= 5)%nat →
      rounds j t = Some (with_stepNumber (k + Z.of_nat j) t, [])) as H.
    { induction j as [|j IH]; intros k t Ht Et Hk1 Hk2 Hj.
      - cbn. f_equal. f_equal. rewrite Z.add_0_r, <-Et. by destruct t.
      - cbn [rounds]. rewrite (round_waits t k Ht Et) by lia. simpl.
        rewrite (IH (k + 1) (with_stepNumber (k + 1) t)); [|by destruct Ht|done|lia|lia|lia]. simpl.
        f_equal. f_equal. replace (k + 1 + Z.of_nat j) with (k + Z.of_nat (S j)) by lia. by destruct t. }
    intros j Hj. apply (H j m s Hg Ek); lia. }
  pose proof (Hj 5%nat ltac:(lia)) as H5. clear Hj. set (t := with_stepNumber (m + 5) s).
  assert (rounds 6 s = ('(s1, o) ← rounds 5 s; '(s2, o2) ← rounds 1 s1; Some (s2, o ++ o2))) as ->.
  { change 6%nat with (5 + 1)%nat. generalize 5%nat as n, s. clear. induction n as [|n IH]; intros s; cbn [rounds plus].
    - simpl. destruct (updatePosition s) as [[? []]|]; done.
    - destruct (updatePosition s) as [[s1 o]|]; [|done]. simpl. rewrite IH. cbn [rounds].
      destruct (rounds n s1) as [[s2 o2]|]; [|done]. simpl. destruct (updatePosition s2) as [[s3 o3]|]; [|done]. simpl.
      by destruct o. }
  rewrite H5. change (Z.of_nat 5) with 5. fold t. simpl. pose proof Hg as [E1 E2 E3 E4].
  unfold updatePosition, _catchupSteps. cbn [numSteps t with_stepNumber]. rewrite E3.
  replace (m =? 0) with false by lia.
  assert (skip_to_end t = t) as ->.
  { unfold skip_to_end. cbn [t stepNumber with_stepNumber]. by replace (m + 5 =? 0) with false by lia. }
  cbn [t stepNumber numSteps currentPosition currentProfile with_stepNumber]. rewrite E3, E4, Hc.
  replace (m + 5 <? m) with false by lia. rewrite u16_id by (unfold is_u16; lia).
  replace (m + 5 <? m + 5) with false by lia. rewrite Z.eqb_refl. simpl.
  destruct (b =? 0); simpl; [rewrite andb_false_r; eauto|]. rewrite andb_true_r. destruct (_ =? 0); simpl; eauto.
Qed.
End animation.

Definition steps_of (profile duration : Z) : Z :=
  let v := profileValue profile in
  if v =? Fast then 10 else if v =? Medium then 20 else if v =? Slow then 40 else if v =? Bounce then 29
  else duration * 2 + 1.

(** C34. A servo that is told to go to a position arrives there: in as many rounds as its
    profile says (in one, if it is there already) it has output positions between the old
    and the new one only, the last of them the new one; until then, and no longer, it is
    busy; and in the six rounds that follow it is switched off, unless the profile declines that. *)
Theorem servo_arrives (s : ServoData) (value prof dur : Z) :
  0 <= currentPosition s <= 4095 → 0 <= dur <= 32760 →
  let target := clamp value in
  let s0 := start target prof dur s in
  let n := if currentPosition s =? target then 1%nat else Z.to_nat (steps_of prof dur) in
  ∃ s1 outs, rounds n s0 = Some (s1, outs) ∧
    Forall (between (currentPosition s) target) outs ∧ last outs = Some target ∧ currentPosition s1 = target ∧
    busy (Some s1) = false ∧
    (∀ k, (k < n)%nat → ∃ sk outk, rounds k s0 = Some (sk, outk) ∧ busy (Some sk) = true) ∧
    ∃ s2, rounds 6 s1 = Some (s2, if (prof .& NoPowerOff =? 0) && negb (target =? 0) then [0] else []).
Proof.
  intros Hc Hd target s0 n. set (a := currentPosition s) in *. set (m := steps_of prof dur).
  assert (0 <= target <= 4095) as Ht by (unfold target, clamp; repeat case_match; lia).
  assert (1 <= m <= 65530 ∧ (profileValue prof = Bounce → m = 29)) as [Hm Hp].
  { unfold m, steps_of. cbv zeta. split; [repeat case_match; lia|]. by intros ->. }
  assert (going a target m prof s0) as Hg.
  { constructor; [done|by unfold s0; cbn; apply u12_id| |done]. unfold s0, start, m, steps_of. cbn [numSteps with_numSteps].
    cbv zeta. rewrite u16_id; [done|]. unfold is_u16. lia. }
  assert (stepNumber s0 = 0) as H0 by done.
  unfold n. destruct (a =? target) eqn:E.
  - apply Z.eqb_eq in E. set (s1 := with_currentPosition target (with_stepNumber m s0)). exists s1, [target].
    assert (going a target m prof s1) as Hg1 by by destruct Hg.
    split; [cbn [rounds]; by rewrite (round_there a target m prof)|].
    split; [repeat constructor; unfold between; lia|]. split; [done|]. split; [done|].
    split; [rewrite (busy_at a target m prof s1 m); [lia|done|done]|]. split.
    + intros k Hk. replace k with 0%nat by lia. exists s0, []. split; [done|].
      rewrite (busy_at a target m prof s0 0); [lia|done|done].
    + by apply (rounds_after a target m prof).
  - apply Z.eqb_neq in E.
    destruct (rounds_run a target m prof Hc Ht Hm Hp (Z.to_nat m) 0 s0 Hg H0) as (s1 & outs & Hr & Hg1 & Hs1 & Hall & Hlast); [lia..|done|].
    destruct Hlast as [Hl Hcur]; [lia|lia|]. exists s1, outs. split; [done|]. split; [done|]. split; [done|]. split; [done|].
    split; [rewrite (busy_at a target m prof s1 _ Hg1 Hs1); lia|]. split.
    + intros k Hk. destruct (rounds_run a target m prof Hc Ht Hm Hp k 0 s0 Hg H0) as (sk & outk & Hrk & Hgk & Hsk & _); [lia..|done|].
      exists sk, outk. split; [done|]. rewrite (busy_at a target m prof sk _ Hgk Hsk). lia.
    + apply (rounds_after a target m prof); try done. lia.
Qed.

Lemma servo_arrives_witness :
  let s := with_currentPosition 100 no_data in
  ∃ s1 outs, rounds 10 (start 400 Fast 0 s) = Some (s1, outs) ∧ last outs = Some 400 ∧ length outs = 10%nat.
Proof.
  intros s. destruct (servo_arrives s 400 Fast 0) as (s1 & outs & Hr & _ & Hl & _); [cbn; lia|lia|].
  exists s1, outs. split; [exact Hr|]. split; [exact Hl|]. vm_compute in Hr. injection Hr as _ <-. reflexivity.
Defined.

End ServoProps.
