(* ===== verification/GPIOProps.v ===== *)
(** What the clients of a port extender know of its inputs: they are told every change that a
    scan finds, so that what each was told last is the state of the input; but the first read of
    a pin takes in the whole port without telling anyone. *)

From S2P Require Import Prelude Chain IODevice ArduinoPins GPIOBase IODeviceProps DriverSafe.

#[local] Open Scope Z_scope.
#[local] Open Scope c_scope.

Module GPIOProps.
Import IODevice.IODevice Bits DriverSafe.DriverSafe GPIOBase.GPIOBase.

Notation P := (Obj GPIO).

(** The bits that a port has in the bytes of a read, and what a chip makes of them. *)
Definition port_of (w : Z) (buffer : list Z) : Z := if w =? 8 then byte_at buffer 0 else word_at buffer.
Definition input_of (c : Chip) (g : GPIO) (buffer : list Z) : Z :=
  match c with
  | MCP23017 => MCP23017_input g buffer | MCP23008 => MCP23008_input g buffer | PCF8574 => PCF8574_input g buffer
  | PCF8575 => PCF8575_input g buffer | PCA9554 => PCA9554_input g buffer | PCA9555 => PCA9555_input g buffer
  | XL9535 => _portOutputState g
  end.

(** What the callback [f] was told last of a pin; inactive, if nothing yet. *)
Definition told (f v : Z) (old : Z) (e : ev) : Z :=
  match e with Notify g u x => if (g =? f) && (u =? v) then x else old | _ => old end.
Definition known (f v : Z) (l : list ev) : Z := fold_left (told f v) l 0.

Lemma known_app f v l k : known f v (l ++ k) = fold_left (told f v) k (known f v l).
Proof. apply fold_left_app. Qed.

Definition active (port pin : Z) : Z := b2z (negb (Z.testbit port pin)).

(** Each client has been told the state of each pin. *)
Definition in_sync (F N : Z) (o : P) : Prop := ∀ f pin, f ∈ callbacks (bus o) → 0 <= pin < N →
  known f (F + pin) (trace (bus o)) = active (_portInputState (own o)) pin.

(** ** The scan of the differences *)

Definition notes (F diff st : Z) (cs : list Z) (pin : Z) : list ev :=
  if Z.testbit diff pin then map (λ f, Notify f (F + pin) (active st pin)) cs else [].

Lemma mask_bit w x pin : 0 <= pin < w → tru (x .& trunc w (1 <<' pin)) = Z.testbit x pin.
Proof.
  intros Hp. unfold trunc. rewrite Z.shiftl_1_l, Z.mod_small; [by apply testbit_mask; lia|].
  split; [apply Z.pow_nonneg; lia|apply Z.pow_lt_mono_r; lia].
Qed.
Lemma mask_inactive w x pin : 0 <= pin < w → b2z (x .& trunc w (1 <<' pin) =? 0) = active x pin.
Proof. intros Hp. unfold active. rewrite <-(mask_bit w) by done. unfold tru. by rewrite negb_involutive. Qed.

Definition traced (l : list ev) (o : P) : P := mkObj (base o) (own o) (with_trace (trace (bus o) ++ l) (bus o)).
Lemma traced_traced l k o : traced k (traced l o) = traced (l ++ k) o.
Proof. unfold traced. cbn. by rewrite app_assoc. Qed.
Lemma traced_nil o : traced [] o = o.
Proof. unfold traced. rewrite app_nil_r. by destruct o as [? ? []]. Qed.

Lemma invokeAll_run v x (o : P) : invokeAll v x o = Some (tt, traced (map (λ f, Notify f v x) (callbacks (bus o))) o).
Proof.
  unfold invokeAll, mthen, mget. cbn. generalize (callbacks (bus o)) as cs. intros cs. revert o.
  induction cs as [|f cs IH]; intros o; [by rewrite traced_nil|].
  rewrite mfor_cons. unfold mthen. change (log (Notify f v x) o) with (Some (tt, traced [Notify f v x] o)). cbn.
  rewrite IH, traced_traced. done.
Qed.

Lemma notify_run F diff st w pin (o : P) : _firstVpin (base o) = F → 0 <= F → 0 <= pin < w → F + pin < 65536 →
  notify_pin diff st w pin o = Some (tt, traced (notes F diff st (callbacks (bus o)) pin) o).
Proof.
  intros EF HF Hp Hmax. unfold notify_pin, notes. unfold mthen, mget. cbn. rewrite mask_bit by done. rewrite EF.
  destruct (Z.testbit diff pin).
  - rewrite mask_inactive, u16_id by (done || unfold is_u16; lia). apply invokeAll_run.
  - by rewrite traced_nil.
Qed.
Lemma notify_all F diff st w : ∀ l (o : P), _firstVpin (base o) = F → 0 <= F → (∀ pin, pin ∈ l → 0 <= pin < w ∧ F + pin < 65536) →
  mfor l (notify_pin diff st w) o = Some (tt, traced (concat (map (notes F diff st (callbacks (bus o))) l)) o).
Proof.
  induction l as [|pin l IH]; intros o EF HF Hl; [by rewrite traced_nil|].
  rewrite mfor_cons. unfold mthen. destruct (Hl pin) as [H1 H2]; [by left|]. rewrite (notify_run F) by done. cbn.
  rewrite IH; [|done|done|intros q Hq; apply Hl; by right]. cbn. by rewrite traced_traced.
Qed.

Lemma told_map f v u x cs old : f ∈ cs →
  fold_left (told f v) (map (λ g, Notify g u x) cs) old = if u =? v then x else old.
Proof.
  revert old. induction cs as [|g cs IH]; intros old Hf; [by apply elem_of_nil in Hf|]. cbn [map fold_left].
  destruct (decide (f ∈ cs)) as [Hin|Hin].
  - rewrite IH by done. simpl. destruct (u =? v); [done|]. by rewrite andb_false_r.
  - apply elem_of_cons in Hf as [<-|?]; [|done]. simpl. rewrite Z.eqb_refl. simpl.
    assert (∀ old, fold_left (told f v) (map (λ g, Notify g u x) cs) old = old) as ->; [|done].
    clear IH old. induction cs as [|h cs IH]; [done|]. intros old. apply not_elem_of_cons in Hin as [Hne Hin]. simpl.
    replace (h =? f) with false by lia. simpl. by apply IH.
Qed.
Lemma told_notes F diff st cs f pin : f ∈ cs → ∀ l old, NoDup l →
  fold_left (told f (F + pin)) (concat (map (notes F diff st cs) l)) old =
  if bool_decide (pin ∈ l) && Z.testbit diff pin then active st pin else old.
Proof.
  intros Hf. induction l as [|q l IH]; intros old Hnd; [done|]. apply NoDup_cons in Hnd as [Hq Hnd].
  cbn [map concat]. rewrite fold_left_app, IH by done.
  assert (fold_left (told f (F + pin)) (notes F diff st cs q) old =
    if (q =? pin) && Z.testbit diff pin then active st pin else old) as ->.
  { unfold notes. destruct (q =? pin) eqn:E.
    - apply Z.eqb_eq in E. subst q. destruct (Z.testbit diff pin); [|done]. rewrite told_map by done. by rewrite Z.eqb_refl.
    - destruct (Z.testbit diff q); [|done]. rewrite told_map by done. by replace (F + q =? F + pin) with false by lia. }
  destruct (decide (pin = q)) as [->|Hne].
  - rewrite (bool_decide_eq_false_2 (q ∈ l)), (bool_decide_eq_true_2 (q ∈ q :: l)), Z.eqb_refl by (done || by left). done.
  - replace (q =? pin) with false by lia. simpl.
    assert (bool_decide (pin ∈ q :: l) = bool_decide (pin ∈ l)) as ->; [|done].
    apply bool_decide_ext. rewrite elem_of_cons. tauto.
Qed.

Lemma rangeZ_NoDup n : NoDup (rangeZ 0 n).
Proof. unfold rangeZ. apply NoDup_fmap_2; [intros x y; lia|apply NoDup_seq]. Qed.

(** ** What does not touch the inputs *)

Section still.
#[local] Set Default Proof Using "All".
Context (i0 : Z) (c0 : list Z) (k0 : Z → Z → Z) (ch : Chip) (w : Z).

(** The inputs are [i0], and the clients know [k0]. *)
Definition still (o : P) : Prop :=
  _portInputState (own o) = i0 ∧ callbacks (bus o) = c0 ∧ (∀ f v, known f v (trace (bus o)) = k0 f v) ∧
  chip (own o) = Some ch ∧ width (own o) = w.

Definition silent (e : ev) : bool := match e with Notify _ _ _ => false | _ => true end.
Lemma known_silent e f v l : silent e = true → known f v (l ++ [e]) = known f v l.
Proof. intros He. rewrite known_app. by destruct e. Qed.

Lemma still_log e : silent e = true → safe still (log e).
Proof.
  intros He. apply safely_mod. intros o (H1 & H2 & H3 & H4 & H5). split_and!; try done.
  intros f v. change (known f v (trace (bus o) ++ [e]) = k0 f v). by rewrite known_silent.
Qed.
Lemma still_own f : (∀ g, _portInputState (f g) = _portInputState g ∧ chip (f g) = chip g ∧ width (f g) = width g) →
  safe still (with_own f).
Proof.
  intros Hf. apply safely_mod. intros o (H1 & H2 & H3 & H4 & H5). destruct (Hf (own o)) as (E1 & E2 & E3).
  split_and!; cbn; congruence || done.
Qed.
Lemma still_base f : safe still (with_base f).
Proof. apply safely_mod. by intros o (? & ? & ? & ? & ?). Qed.
Lemma still_answer : safe still answer.
Proof. by intros o (? & ? & ? & ? & ?). Qed.
Lemma still_i2c bs : safe still (i2c bs).
Proof. unfold i2c, i2c_write. apply safe_getid. intros o _. by apply still_log. Qed.
Lemma still_queue : safe still (queueRequest requestBlock set_rb).
Proof. unfold queueRequest. apply safe_getid. intros o _. apply safely_bind; [by apply still_log|]. intros _. by apply still_own. Qed.
Lemma still_wait : safe still (wait requestBlock set_rb).
Proof.
  unfold wait. apply safely_get. intros o _. apply safely_if; intros _; [|apply safely_ret].
  apply safely_bind; [apply still_answer|]. intros a. apply safely_bind; [by apply still_own|]. intros _. apply safely_ret.
Qed.
Lemma still_chip {A} (k : GPIO → M P A) : (∀ g, chip g = Some ch → safe still (k g)) → safe still (let! g := mget own in k g).
Proof. intros Hk. apply safely_get. intros o (_ & _ & _ & H & _). by apply Hk. Qed.

Ltac st := autounfold with chips; repeat (first [apply still_i2c | apply safely_ret | apply still_queue | apply still_wait |
  apply still_base | (apply still_own; by intros ?) | (apply safely_get; intros ? ?) | (apply safely_bind; [|intros ?]) | (apply safely_if; intros ?)]; cbv zeta beta).
Lemma still_writeGpioPort : safe still _writeGpioPort.
Proof. unfold _writeGpioPort. apply still_chip. intros g Hc. rewrite Hc. destruct ch; st. Qed.
Lemma still_writePullups : safe still _writePullups.
Proof. unfold _writePullups. apply still_chip. intros g Hc. rewrite Hc. destruct ch; st. Qed.
Lemma still_writePortModes : safe still _writePortModes.
Proof. unfold _writePortModes. apply still_chip. intros g Hc. rewrite Hc. destruct ch; st. Qed.
Lemma still_scan : ch ≠ XL9535 → safe still (_readGpioPort false).
Proof. intros Hx. unfold _readGpioPort. apply still_chip. intros g Hc. rewrite Hc. destruct ch; try done; st. Qed.
Lemma still_begin_scan : ch ≠ XL9535 → safe still begin_scan.
Proof.
  intros Hx. unfold begin_scan. apply safe_getid. intros o _. apply safely_if; intros _; [|apply safely_ret].
  apply safely_if; intros _; [|apply safely_ret]. apply safely_bind; [by apply still_scan|]. intros _. apply still_base.
Qed.
Lemma still_mask {A} W pin (k : Z → M P A) : 0 <= pin < 16 → (∀ m, safe still (k m)) → safe still (let! m := mask_for W pin in k m).
Proof.
  intros Hp Hk. unfold mask_for. replace ((pin <? 0) || (16 <=? pin)) with false by lia.
  apply safely_bind; [apply safely_ret|done].
Qed.

Lemma mask_some {A} W v o (k : Z → M P A) Q : 0 <= v - _firstVpin (base o) < 16 → (∀ m, wp (k m) Q o) →
  wp (let! m := mask_for W (pin_of v (base o)) in k m) Q o.
Proof.
  intros Hp Hk. apply wp_bind. unfold mask_for, pin_of.
  assert (i16 (v - _firstVpin (base o)) = v - _firstVpin (base o)) as -> by (unfold i16; Z.div_mod_to_equations; lia).
  replace ((v - _firstVpin (base o) <? 0) || (16 <=? v - _firstVpin (base o))) with false by lia. by apply wp_ret.
Qed.
Lemma still_configure v t ps o : still o → 0 <= v - _firstVpin (base o) < 16 → wp (_configure v t ps) (λ _ o', still o') o.
Proof.
  intros Ho Hp. unfold _configure. destruct t, ps as [|x [|y ps]]; try (by apply wp_ret).
  apply wp_bind, wp_get. cbv beta. unfold id. apply mask_some; [done|]. intros m. revert o Ho Hp. intros o Ho _. revert o Ho.
  apply (safely_bind still); [by apply still_own|]. intros _. apply safely_bind; [apply still_writePortModes|]. intros _.
  apply safely_bind; [apply still_writePullups|]. intros _. apply safely_ret.
Qed.
Lemma still_write v x o : still o → 0 <= v - _firstVpin (base o) < 16 → wp (_write v x) (λ _ o', still o') o.
Proof.
  intros Ho Hp. unfold _write. apply wp_bind, wp_get. unfold id. apply mask_some; [done|]. intros m.
  generalize (negb (tru (_portMode (own o) .& m))) as b. intros b. clear Hp. revert o Ho.
  apply (safely_bind still); [|intros _; apply safely_bind; [by apply still_own|intros _; apply still_writeGpioPort]].
  apply safely_if; intros _; [|apply safely_ret]. apply safely_bind; [by apply still_own|intros _; apply still_writePortModes].
Qed.
(** A read of a pin that is in use as an input. *)
Lemma still_read v o : still o → 0 <= v - _firstVpin (base o) < 16 → v - _firstVpin (base o) < width (own o) →
  Z.testbit (_portInUse (own o)) (v - _firstVpin (base o)) = true →
  Z.testbit (_portMode (own o)) (v - _firstVpin (base o)) = false → wp (_read v) (λ _ o', o' = o) o.
Proof.
  intros Ho Hp Hw Hu Hm. unfold _read. apply wp_bind, wp_get. unfold id.
  apply wp_bind. unfold mask_for, pin_of. set (pin := v - _firstVpin (base o)) in *.
  assert (i16 pin = pin) as -> by (unfold i16; Z.div_mod_to_equations; lia).
  replace ((pin <? 0) || (16 <=? pin)) with false by lia. apply wp_ret. rewrite mask_bit by lia.
  rewrite Z.lor_spec, Hm, Z.lnot_spec, Hu by lia. cbn [orb negb].
  apply wp_bind, wp_ret, wp_bind, wp_get. by apply wp_ret.
Qed.
End still.

(** ** The end of a scan *)

(** The port after a scan that has brought [input]. *)
Definition settled (g : GPIO) (input : Z) : Z := trunc (width g) (input .| (Z.lnot (_portInUse g) .| _portMode g)).
Definition scanned (c : Chip) (g : GPIO) : Z :=
  if rb_status (requestBlock g) =? I2C_STATUS_OK then input_of c g (rb_in (requestBlock g)) else Z.ones (width_of c).

Section scan.
Context (F N w : Z) (nxt : option ptr) (HF : 0 <= F) (HN : N <= w) (Hw : w = 8 ∨ w = 16) (Hmax : F + N <= 65536).
#[local] Set Default Proof Using "All".

(** A port in order, and its clients in the know. *)
Definition J (o : P) : Prop := in_order F N nxt (gpio_ok w) o ∧ chip (own o) ≠ Some XL9535 ∧ in_sync F N o.

Lemma finish_scan_run o : J o → _deviceState (base o) = DEVSTATE_SCANNING → isBusyRB (requestBlock (own o)) = false →
  ∃ o' c, finish_scan o = Some (tt, o') ∧ J o' ∧ width_of c = w ∧ c ≠ XL9535 ∧
    own o' = with_input (settled (own o) (scanned c (own o))) (own o) ∧ callbacks (bus o') = callbacks (bus o).
Proof.
  intros (Ho & Hx & Hs) Hst Hb. destruct Ho as (EF & EN & En & (c & Hc & Hcw) & Ew).
  unfold finish_scan. unfold mthen at 1, mget, id. cbn [option_bind mbind]. rewrite Hst, Hb.
  rewrite (bool_decide_eq_true_2 (DEVSTATE_SCANNING = DEVSTATE_SCANNING)) by done. cbn [andb negb].
  set (st := rb_status (requestBlock (own o))).
  set (d := if st =? I2C_STATUS_OK then DEVSTATE_NORMAL else DEVSTATE_FAILED).
  set (o1 := mkObj (with__deviceState d (base o)) (own o) (bus o)).
  rewrite (mthen_some (setState d) _ o tt o1) by done.
  set (g2 := with_input (scanned c (own o)) (own o)).
  set (o2 := mkObj (base o1) g2 (bus o)).
  rewrite (mthen_some (_processCompletion st) _ o1 tt o2).
  2: { unfold _processCompletion, mthen, mget. cbn. rewrite Hc. destruct c; done. }
  set (g3 := with_input (settled (own o) (scanned c (own o))) (own o)).
  set (o3 := mkObj (base o1) g3 (bus o)).
  rewrite (mthen_some (with_own settle) _ o2 tt o3) by done.
  unfold mthen at 1, mget, id. cbn [option_bind mbind].
  unfold hasCallbacks. unfold mthen at 1, mget. cbn [option_bind mbind].
  set (diff := _portInputState (own o) .^ _portInputState (own o3)).
  set (new := _portInputState (own o3)).
  assert (∀ l, (∀ f pin, f ∈ callbacks (bus o) → 0 <= pin < N →
      known f (F + pin) (trace (bus o) ++ l) = active new pin) → J (traced l o3)) as Hfin.
  { intros l Hl. split; [split_and!; [done..|split; [by exists c|done]]|]. split; [done|]. intros f pin Hf Hp. by apply Hl. }
  assert (∀ f pin, f ∈ callbacks (bus o) → 0 <= pin < N → Z.testbit diff pin = false →
    known f (F + pin) (trace (bus o)) = active new pin) as Hsame.
  { intros f pin Hf Hp Hd. rewrite Hs by done. unfold active. do 2 f_equal. unfold diff in Hd. rewrite Z.lxor_spec in Hd.
    fold new in Hd. by destruct (Z.testbit _ _), (Z.testbit new pin). }
  destruct (tru diff && _) eqn:Ed.
  - exists (traced (concat (map (notes F diff new (callbacks (bus o))) (rangeZ 0 N))) o3), c.
    split; [|split; [apply Hfin|split_and!; (done || congruence)]].
    + change (_nPins (base o3)) with (_nPins (base o)). change (width (own o3)) with (width (own o)). rewrite EN, Ew.
      rewrite (notify_all F); [done|done|done|]. intros pin Hpin%elem_of_rangeZ. lia.
    + intros f pin Hf Hp. rewrite known_app. rewrite told_notes by (done || apply rangeZ_NoDup).
      rewrite bool_decide_eq_true_2 by (apply elem_of_rangeZ; lia). cbn [andb].
      destruct (Z.testbit diff pin) eqn:E; [done|]. by apply Hsame.
  - exists o3, c. split; [done|]. split; [|split_and!; (done || congruence)]. rewrite <-(traced_nil o3). apply Hfin. intros f pin Hf Hp.
    rewrite app_nil_r. apply Hsame; [done|done|]. change (callbacks (bus o3)) with (callbacks (bus o)) in Ed.
    destruct (callbacks (bus o)); [by apply elem_of_nil in Hf|]. rewrite andb_true_r in Ed.
    unfold tru in Ed. apply negb_false_iff, Z.eqb_eq in Ed. by rewrite Ed, Z.bits_0.
Qed.

(** ** Steps of a port in use *)

Inductive step :=
  | Loop (micros : Z) | Write (v x : Z) | Configure (v : Z) (t : ConfigTypeEnum) (params : list Z) | Read (v : Z)
  | Complete (status : Z) (bytes : list Z)     (* the bus completes the request *)
  | Levels (f : Z → bool).                     (* the interrupt pin changes *)
Definition run_step (s : step) : M P unit :=
  match s with
  | Loop t => _loop t
  | Write v x => _write v x
  | Configure v t ps => _configure v t ps ;;; mreturn tt
  | Read v => _read v ;;; mreturn tt
  | Complete st bs => with_own (λ g, set_rb (complete st bs (requestBlock g)) g)
  | Levels f => mmod (λ o, mkObj (base o) (own o) (with_levels f (bus o)))
  end.

(** A pin that is used as an input. *)
Definition is_input (g : GPIO) (pin : Z) : Prop := Z.testbit (_portInUse g) pin = true ∧ Z.testbit (_portMode g) pin = false.
Definition allowed (o : P) (s : step) : Prop :=
  match s with
  | Write v _ | Configure v _ _ => F <= v < F + N
  | Read v => F <= v < F + N ∧ is_input (own o) (v - F)
  | _ => True
  end.
Fixpoint allowed_run (ss : list step) (o : P) : Prop :=
  match ss with
  | [] => True
  | s :: ss => allowed o s ∧ ∀ o', run_step s o = Some (tt, o') → allowed_run ss o'
  end.

(** What leaves the inputs and tells nobody keeps the clients in the know. *)
Lemma keeps_J {A} (m : M P A) o : J o → safe (in_order F N nxt (gpio_ok w)) m →
  (∀ ch, chip (own o) = Some ch → ch ≠ XL9535 →
    wp m (λ _ o', still (_portInputState (own o)) (callbacks (bus o)) (λ f v, known f v (trace (bus o))) ch w o') o) →
  wp m (λ _ o', J o') o.
Proof.
  intros (Ho & Hx & Hs) Hm Hst. destruct (Ho) as (_ & _ & _ & (ch & Hch & _) & _).
  eapply wp_mono; [apply (wp_both _ _ _ _ (Hm o Ho) (Hst ch Hch ltac:(congruence)))|].
  intros _ o' [Ho' (E1 & E2 & E3 & E4 & _)]. split; [done|]. split; [congruence|].
  intros f pin. rewrite E1, E2, E3. apply Hs.
Qed.
Lemma still_start o ch : J o → chip (own o) = Some ch →
  still (_portInputState (own o)) (callbacks (bus o)) (λ f v, known f v (trace (bus o))) ch w o.
Proof. intros ((_ & _ & _ & _ & Ew) & _) Hc. by split_and!. Qed.

Lemma J_finish o : J o → ∃ o', finish_scan o = Some (tt, o') ∧ J o' ∧ callbacks (bus o') = callbacks (bus o).
Proof.
  intros Ho. destruct (bool_decide (_deviceState (base o) = DEVSTATE_SCANNING) && negb (isBusyRB (requestBlock (own o)))) eqn:E.
  - apply andb_true_iff in E as [E1 E2]. apply bool_decide_eq_true in E1. apply negb_true_iff in E2.
    destruct (finish_scan_run o Ho E1 E2) as (o' & c & ? & ? & _ & _ & _ & ?). eauto.
  - exists o. split; [|done]. unfold finish_scan, mthen, mget, id. cbn [option_bind mbind]. by rewrite E.
Qed.
Lemma J_begin_scan o : J o → wp begin_scan (λ _ o', J o' ∧ ∀ f v, known f v (trace (bus o')) = known f v (trace (bus o))) o.
Proof.
  intros Ho. destruct (Ho) as ((_ & _ & _ & (ch & Hch & _) & _) & Hx & _).
  apply wp_both.
  - apply keeps_J; [done| |].
    + unfold begin_scan. apply safe_getid. intros o' _. apply safely_if; intros _; [|apply safely_ret].
      apply safely_if; intros _; [|apply safely_ret]. apply safely_bind; [by apply gpio_readGpioPort|]. intros _. apply safe_setState.
    + intros c Hc Hne. apply still_begin_scan; [done|]. by apply still_start.
  - eapply wp_mono; [apply (still_begin_scan (_portInputState (own o)) (callbacks (bus o)) (λ f v, known f v (trace (bus o))) ch w);
      [congruence|by apply still_start]|].
    by intros _ o' (_ & _ & E & _).
Qed.

Lemma J_loop o t : J o → wp (_loop t) (λ _ o', J o') o.
Proof.
  intros Ho. unfold _loop. apply wp_bind. destruct (J_finish o Ho) as (o1 & E1 & H1 & _). eapply wp_eq; [done|].
  apply wp_bind. eapply wp_mono; [by apply J_begin_scan|]. intros _ o2 [H2 _]. apply wp_mod. exact H2.
Qed.

Lemma J_step o s : J o → allowed o s → wp (run_step s) (λ _ o', J o') o.
Proof.
  intros Ho Ha. destruct (Ho) as ((EF & EN & En & (ch & Hch & Hcw) & Ew) & Hx & Hs).
  destruct s as [t|v x|v t ps|v|st bs|f]; cbn [run_step allowed] in *.
  - by apply J_loop.
  - apply keeps_J; [done|by apply gpio_write|]. intros c Hc Hne. apply still_write; [by apply still_start|]. rewrite EF. lia.
  - apply wp_bind. eapply wp_mono; [apply keeps_J; [done|by apply gpio_configure|]|intros a o' H; by apply wp_ret].
    intros c Hc Hne. apply still_configure; [by apply still_start|]. rewrite EF. lia.
  - destruct Ha as [Hv [Hu Hm]]. apply wp_bind. eapply wp_mono.
    + apply (still_read (_portInputState (own o)) (callbacks (bus o)) (λ f v, known f v (trace (bus o))) ch w v o);
        rewrite ?EF, ?Ew; [by apply still_start|lia|lia|done|done].
    + intros a o' ->. by apply wp_ret.
  - apply wp_mod. split; [split_and!; [done..|split; [by exists ch|done]]|]. done.
  - apply wp_mod. split; [split_and!; [done..|split; [by exists ch|done]]|]. done.
Qed.
Lemma J_run ss : ∀ o, J o → allowed_run ss o → ∃ o', mfor ss run_step o = Some (tt, o') ∧ J o'.
Proof.
  induction ss as [|s ss IH]; intros o Ho Ha; [by exists o|]. destruct Ha as [Ha Hk].
  destruct (wp_run _ _ _ (J_step o s Ho Ha)) as ([] & o1 & E1 & H1).
  destruct (IH o1 H1 (Hk o1 E1)) as (o' & E & H'). exists o'. split; [|done]. rewrite mfor_cons. by rewrite (mthen_some _ _ o tt o1).
Qed.

Lemma settled_input g input pin : is_input g pin → 0 <= pin < width g → Z.testbit (settled g input) pin = Z.testbit input pin.
Proof using Type.
  intros [Hu Hm] Hp. unfold settled, trunc. rewrite Z.mod_pow2_bits_low by lia. rewrite !Z.lor_spec, Z.lnot_spec, Hu, Hm by lia.
  cbn [negb]. by rewrite !orb_false_r.
Qed.
Lemma input_of_bit c g buffer pin : c ≠ XL9535 → is_input g pin →
  Z.testbit (input_of c g buffer) pin = Z.testbit (port_of (width_of c) buffer) pin.
Proof using Type. intros Hc [_ Hm]. destruct c; try done; cbn [input_of width_of]; unfold port_of; cbn;
  unfold MCP23017_input, MCP23008_input, PCF8574_input, PCF8575_input; by rewrite Z.lor_spec, Hm, orb_false_r. Qed.

End scan.

(** ** The first read of a pin *)

Definition port0 : P :=
  mkObj (with__deviceState DEVSTATE_NORMAL (GPIO_base 164 16 0x20 (-1) 16))
        (mkGPIO (Some MCP23017) 16 65535 0 0 65535 0 (setRequestParams 2 [0x12]))
        (mkBus (λ _, (0, [254; 255])) 0 (λ _, true) (λ _, 0) (λ _, 0) [7] []).

Lemma port0_J : J 164 16 16 None port0.
Proof.
  split; [by split_and!; [..|split; [by eexists|]]|]. split; [done|]. intros f pin Hf Hp.
  assert (∀ q, 0 <= q < 16 → active 65535 q = 0) as Hall.
  { intros q Hq. apply Z.eqb_eq. apply (range_check (λ q, active 65535 q =? 0) 0 16); [by vm_compute|lia]. }
  cbn. by rewrite Hall.
Qed.


(** Calls that only write to the bus. *)
Definition writes_only (m : M P unit) : Prop := ∀ o, is_Some (chip (own o)) →
  ∃ l, Forall (λ e, silent e = true) l ∧ m o = Some (tt, traced l o).
Lemma writes_i2c bs : writes_only (i2c bs).
Proof. intros o _. exists [I2C_write (_I2CAddress (base o)) (map u8 bs)]. split; [by repeat constructor|done]. Qed.
Lemma writes_bind m k : writes_only m → writes_only k → writes_only (m ;;; k).
Proof.
  intros Hm Hk o Ho. destruct (Hm o Ho) as (l1 & H1 & E1). destruct (Hk (traced l1 o) Ho) as (l2 & H2 & E2).
  exists (l1 ++ l2). split; [by apply Forall_app|]. rewrite (mthen_some _ _ _ _ _ E1), E2. by rewrite traced_traced.
Qed.
Lemma writes_nothing : writes_only (mreturn tt).
Proof. intros o _. exists []. split; [done|]. by rewrite traced_nil. Qed.
Lemma writes_get k : (∀ g, writes_only (k g)) → writes_only (let! g := mget own in k g).
Proof. intros Hk o Ho. by apply Hk. Qed.
Ltac wr := autounfold with chips; repeat first [(apply writes_get; intros ?) | apply writes_i2c | apply writes_nothing | apply writes_bind].
Ltac writing := match goal with |- ∃ l, _ ∧ ?m ?o = _ => assert (writes_only m) as H by wr; by apply H end.
Lemma writes_gpio : writes_only _writeGpioPort.
Proof. intros o Ho. destruct (Ho) as [c Hc]. unfold _writeGpioPort, mthen at 1, mget. cbn. rewrite Hc. destruct c; writing. Qed.
Lemma writes_pullups : writes_only _writePullups.
Proof. intros o Ho. destruct (Ho) as [c Hc]. unfold _writePullups, mthen at 1, mget. cbn. rewrite Hc. destruct c; writing. Qed.
Lemma writes_modes : writes_only _writePortModes.
Proof.
  intros o Ho. destruct (Ho) as [c Hc]. unfold _writePortModes, mthen at 1, mget. cbn. rewrite Hc.
  destruct c; first [by apply writes_gpio | writing].
Qed.

Lemma read_port_now c g (o : P) : own o = g → chip g = Some c → c ≠ XL9535 → ∃ e, silent e = true ∧
  _readGpioPort true o = Some (tt, mkObj (base o) (with_input (input_of c g (answers (bus o) (asked (bus o))).2) g)
    (with_asked (S (asked (bus o))) (with_trace (trace (bus o) ++ [e]) (bus o)))).
Proof.
  intros <- Hc Hx. unfold _readGpioPort, mthen at 1, mget. cbn. rewrite Hc.
  destruct c; try done; by (eexists (I2C_read _ _ _); split; [|reflexivity]).
Qed.

Lemma known_silents l f v k : Forall (λ e, silent e = true) l → known f v (k ++ l) = known f v k.
Proof.
  intros Hl. rewrite known_app. generalize (known f v k) as z. induction Hl as [|e l He Hl IH]; intros z; [done|].
  cbn [fold_left]. rewrite <-(IH z). by destruct e.
Qed.



End GPIOProps.
